(* ===== verification/_CoqProject ===== *)
-Q . S2P
Prelude.v
Riscv.v
Numeral.v
Memory.v
Bytes.v
Ring.v
CString.v
Spinlock.v
State.v
Kalloc.v
Vm.v
PageTable.v
AddrSpace.v
UserMem.v
CopyUser.v
VmProps.v
Sched.v
Uart.v
Printf.v
UartSpec.v
Sleeplock.v
Lru.v
Bio.v
Bcache.v
Cache.v
CacheOps.v
Log.v
LogSpec.v
LogCrash.v
LogProps.v
Fs.v
Dir.v
Pipe.v
UserIO.v
FsSpec.v
PipeSpec.v
Console.v
ConsoleSpec.v
File.v
Proc.v
Args.v
Exec.v
Sysfile.v
Sysproc.v
Syscall.v
Virtio.v
VirtioSpec.v
Trap.v
ProcSpec.v
TrapSpec.v
Boot.v
Asm.v
Initcode.v
ExecArgs.v
Uprog.v
Ulib.v
Uprintf.v
Umalloc.v
UmallocSpec.v
UmallocProps.v
UmallocClient.v
Sh.v
ShLex.v
ShParse.v
ShSpec.v
ShTotal.v
ShRun.v
Utils.v
UtilsSpec.v
Grep.v
GrepSpec.v
Mkfs.v
MkfsSpec.v
MkfsMain.v
MkfsView.v
Grind.v
Utest.v
UtFs.v
Usertests.v
UsertestsSpec.v
