(* ===== verification/Prelude.v ===== *)
(** A verification of xv6 for RISC-V: the kernel (src/kernel), the user library and
    programs (src/user), and mkfs (src/mkfs).

    * The program

    xv6 is a small Unix.  Traps from user space enter through trampoline.S and
    trap.c, which dispatch system calls (syscall.c, sysproc.c, sysfile.c) and
    interrupts (the clock, uart.c and console.c, virtio_disk.c).  Processes
    (proc.c, exec.c) own user address spaces (vm.c) made of pages from kalloc.c.
    Files (file.c) are inodes, pipes (pipe.c) or devices; the file system (fs.c)
    changes blocks in the buffer cache (bio.c) inside transactions of the
    write-ahead log (log.c).  Spinlocks protect shared data, sleeplocks and
    sleep/wakeup block threads.  User programs reach the kernel through the stubs
    of usys.pl and use a small C library (ulib.c, printf.c, umalloc.c); the shell
    sh.c runs them.  mkfs builds the disk image on the host.

    * How it is modelled

    State.v holds one record [kst] with the kernel's global variables: physical
    memory as bytes, the process, buffer, inode and file tables, the devices, the
    CSRs, the disk.  Pointers into a global table are indices, other pointers are
    addresses in memory.  A C function is a function in the monad [K], which
    passes [kst] along and has an outcome for each way a run can end: [Ok], a
    panic, a thread that stays asleep, loss of power during a disk write,
    undefined behaviour of C, or a loop out of fuel.  Integers are [Z] with the
    wrap-around of their C type written out (u8 to u64, i8 to i64 below), with one
    exception: counters of holders, namely the reference counts of buffers (with the
    pins), inodes and files, the outstanding operations of the log and the depth of
    push_off, are [Z] without the bound of their int or uint.  Each counts threads,
    descriptors or log entries, of which there are a few thousand at most (NPROC, NOFILE,
    LOGSIZE); that they stay below 2^31 is not part of the theorems.

    Other threads: a thread that gives up the CPU in sched lets the next functions
    of its environment act on the state, one after the other, until one leaves it
    RUNNABLE.  Theorems quantify over the environment, restricted where needed by
    what the other threads may not do.  The lock context of the running CPU is
    [k_held]; that acquire and release give mutual exclusion between CPUs is shown
    separately, on interleaved atomic steps, in Spinlock.v.

    User programs (Uprog.v) are trees of system calls in the monad [U]; the kernel
    answers each call with a value and the bytes it stores, and [feed] runs a program
    on a list of answers.  Theorems quantify over the answers, restricted to what the
    call may return.  Each process is a run of its own: fork answers 0 or a pid.
    The tests of usertests also pass addresses of their own making to the kernel and
    load and store through them; those are calls too, which the kernel may leave
    without an answer when it kills the process.
    mkfs (Mkfs.v) passes its image and counters along in a monad of its own.

    * Files

    Prelude, Riscv, Numeral, Memory, Bytes, Ring: integers, constants of the headers,
    digits, memory and its little-endian words, fields of disk blocks, ring buffers.
    CString (string.c), Spinlock (spinlock.c).
    State: the data structures of the headers, the monad, its rewrite rules.
    Kalloc (kalloc.c); Vm (vm.c), with PageTable, AddrSpace, UserMem, CopyUser and
    VmProps for its theory.
    Sched (proc.c: sched, sleep, wakeup, kill), Sleeplock (sleeplock.c).
    Uart, Printf, Console (uart.c, printf.c, console.c), with UartSpec, ConsoleSpec.
    Bio (bio.c), with Lru, Bcache for its invariant, and Cache, CacheOps for the
    contract its clients use; Log (log.c), with LogSpec, LogCrash, LogProps.
    Fs, Dir (fs.c), with FsSpec; Pipe (pipe.c), with UserIO, PipeSpec.
    File (file.c), Proc (proc.c: processes, the scheduler's round), Args and Syscall
    (syscall.c), Exec (exec.c), Sysfile (sysfile.c), Sysproc (sysproc.c), ProcSpec.
    Virtio (virtio_disk.c), with VirtioSpec; Trap (trap.c, plic.c), with TrapSpec;
    Boot (start.c, main.c); Asm (trampoline.S, kernelvec.S, swtch.S, entry.S).
    The register accessors of riscv.h are in Sched (supervisor) and Boot (machine mode).
    Initcode (initcode.S, assembled, and run on a hart in user mode), ExecArgs (how
    system calls fetch their arguments, sys_exec, the first process).
    Uprog (usys.pl), Ulib (ulib.c), Uprintf (user/printf.c); Umalloc (umalloc.c), with
    UmallocSpec, UmallocProps and UmallocClient.
    Sh (sh.c), with ShLex and ShParse for its grammar, ShSpec for the strings,
    ShTotal for any input and ShRun for the processes it creates.
    Utils (cat, echo, wc, kill, ln, mkdir, rm, zombie, init, stressfs, forktest,
    pingpong, two_pipes, ls, a Module each), with UtilsSpec; Grep (grep.c),
    with GrepSpec; Grind (grind.c).
    Utest (what the tests of usertests.c share, Module UtMem: memory), UtFs (Modules
    UtFs and UtDir: files and directories), Usertests (Module UtProc: processes;
    Module Usertests: the tables, the programs that run the tests), with UsertestsSpec.
    Mkfs (mkfs.c), with MkfsSpec (the invariant of the image), MkfsMain (inodes and the
    whole run) and MkfsView (the image as the kernel reads it).
    A definition has the name of the C function it translates; a loop of a function
    [f] is a Fixpoint named after it.  Only virtio_disk_rw is called [virtio_rw]:
    the name [virtio_disk_rw] is the one-step transfer in Bio.v that it refines; and
    match of grep.c, a keyword here, is called [matches].

    * What is shown

    Log: a commit is atomic and durable under power failure at any write, recovery
    is idempotent, log_write and begin_op do what they promise, and the reservation
    of begin_op is one block short of the log mkfs makes: three operations that it
    admits, and that keep to their ten blocks, panic at the thirtieth block.
    Disk driver: with a device that serves the requests it is offered, the driver
    refines the atomic transfer on which the cache and the log are built.
    Buffer cache: bget, bread, bwrite and brelse act on one block, the cache stays
    invisible to its clients.
    Files: readi returns the bytes of the file through direct and indirect blocks,
    dirlookup the first entry with a name, skipelem the elements of a path; an inode
    survives being written to disk.
    Memory: every managed page is in the hands of one owner; mappages, uvmunmap and
    uvmalloc change exactly the mappings asked for; copyin, copyinstr and copyout
    move exactly the user's bytes and respect the user's permissions.
    Locks and threads: mutual exclusion of spinlocks on any number of CPUs,
    sleeplocks that are taken only when free, exact wakeup and kill, a scheduler that
    gives every process that stays ready one turn a pass, in order, on several harts,
    sleep(n) that ends at the n-th tick.
    System calls: sys_exec hands exec copies of the user's strings, or fails and leaves
    no trace.
    Start: start leaves a hart ready for main; the bytes of the first process are those
    of initcode.S, assembled without padding at its alignment, and with any padding it
    asks for exec of /init, which sys_exec passes on.
    Traps: the assembly saves and restores all registers, usertrapret prepares the
    return to user space, an interrupt in the kernel is invisible.
    Devices: pipes and the serial line are first in first out, and a pipe loses no byte
    to its writer; the console is a line discipline.
    User library: whatever a program allocates and frees, with requests below 2^31 bytes
    and a break below 2^36, malloc returns disjoint blocks of the right size; printf
    prints the decimal numeral of any int, and atoi reads the numerals that are not
    negative back.
    Shell: a line of the grammar, however spaced, starts exactly its programs with
    their arguments and descriptors; on any line the parser returns well-formed commands
    or complains, and ends; given memory for two structs a character and one more it makes
    no access outside of the line, of an argv or through a null pointer.
    Programs: match of grep implements a semantics of patterns; grep prints the lines
    that match, up to a NUL or a line of 1023 characters; wc counts, cat copies, however
    reads cut their input; ls pads the last component of a path; do_rand of grind is the generator it claims to be.
    usertests: its children run the tests, and its verdict is that of its children and
    of its counts of free pages;
    pipe1 waits for its child exactly when it got the stream the child sent, and
    passes by mistake on a wrong byte.
    mkfs: the files it is given can be read back from the image through inodes and
    indirect blocks, no block is used twice, the bitmap and the super block agree with
    what the kernel expects.

    * Fuel

    Loops bounded by the data are structural.  Others get fuel: a loop that sleeps
    in each round uses up one step of the environment, so its length plus one is
    enough (rw_wait, acquiresleep, begin_op, sys_sleep, pipe and console loops);
    loops over blocks, directory entries, inodes or path elements get one more
    round than the size of what they run over, printint one per digit.  A user
    program that reads to the end of a file takes one unit a read, and its theorem
    asks for more units than there are pieces; the parser of the shell gets four
    units a character, the walks of malloc and free two a free block.  The theorems
    state that a run returns, so they show that the fuel is enough where they apply.

    * Not modelled

    ramdisk.c, which is not linked and uses fields and constants that no header of the
    repository has; the linker scripts and the prototypes of defs.h and user.h, which are
    not code (addresses they fix are parameters of the initial state); the flag panicked,
    which stops the output of the other CPUs; what mkfs prints.  That the answers a user
    program gets are those of the modelled kernel is not shown: the theorems about
    programs hold for all answers of the kind they state.  Memory is sequentially
    consistent, so the fences have no effect.  The disk, the serial line, the interrupt controller and the clock are
    inputs: the block device with the behaviour its specification gives, the others
    as the values their registers return.  The TLB and caches are not modelled;
    sfence.vma and fence instructions do nothing. *)

From stdpp Require Export base tactics numbers list gmap strings.
From Stdlib Require Export ZArith Lia.

#[global] Open Scope Z_scope.

(** Keep symbolic execution from unfolding decision procedures. *)
#[global] Arguments bool_decide _ {_} : simpl never.
#[global] Arguments filter {_ _ _} _ {_} _ : simpl never.

(** * Machine integers

    C's unsigned types are represented by [Z] together with an explicit
    truncation at every operation that can wrap, the counters of holders named above
    apart. *)

Definition u8 (z : Z) : Z := z mod 2 ^ 8.
Definition u16 (z : Z) : Z := z mod 2 ^ 16.
Definition u32 (z : Z) : Z := z mod 2 ^ 32.
Definition u64 (z : Z) : Z := z mod 2 ^ 64.

(** Two's complement reinterpretation of a [w]-bit pattern. *)
Definition sext (w z : Z) : Z :=
  let r := z mod 2 ^ w in if r <? 2 ^ (w - 1) then r else r - 2 ^ w.

Definition i8 (z : Z) : Z := sext 8 z.
Definition i16 (z : Z) : Z := sext 16 z.
Definition i32 (z : Z) : Z := sext 32 z.
Definition i64 (z : Z) : Z := sext 64 z.

Create HintDb xv6.

Lemma u64_small z : 0 <= z < 2 ^ 64 -> u64 z = z.
Proof. apply Z.mod_small. Qed.
Lemma u32_small z : 0 <= z < 2 ^ 32 -> u32 z = z.
Proof. apply Z.mod_small. Qed.
Lemma u8_small z : 0 <= z < 2 ^ 8 -> u8 z = z.
Proof. apply Z.mod_small. Qed.

Lemma u64_range z : 0 <= u64 z < 2 ^ 64.
Proof. apply Z.mod_pos_bound; lia. Qed.
Lemma u32_range z : 0 <= u32 z < 2 ^ 32.
Proof. apply Z.mod_pos_bound; lia. Qed.
Lemma u8_range z : 0 <= u8 z < 2 ^ 8.
Proof. apply Z.mod_pos_bound; lia. Qed.

Lemma u8_idem z : u8 (u8 z) = u8 z.
Proof. unfold u8. by rewrite Z.mod_mod. Qed.

Lemma sext_range w z : 0 < w -> - 2 ^ (w - 1) <= sext w z < 2 ^ (w - 1).
Proof.
  intros Hw. unfold sext.
  assert (H2 : 2 ^ w = 2 * 2 ^ (w - 1)).
  { rewrite <- Z.pow_succ_r by lia. f_equal. lia. }
  assert (Hp : 0 < 2 ^ (w - 1)) by (apply Z.pow_pos_nonneg; lia).
  pose proof (Z.mod_pos_bound z (2 ^ w) ltac:(lia)) as Hr.
  destruct (Z.ltb_spec (z mod 2 ^ w) (2 ^ (w - 1))); lia.
Qed.

Lemma sext_small w z : 0 < w -> - 2 ^ (w - 1) <= z < 2 ^ (w - 1) -> sext w z = z.
Proof.
  intros Hw Hz. unfold sext.
  assert (H2 : 2 ^ w = 2 * 2 ^ (w - 1)).
  { rewrite <- Z.pow_succ_r by lia. f_equal. lia. }
  destruct (Z.le_gt_cases 0 z) as [Hs|Hs].
  - rewrite Z.mod_small by lia. destruct (Z.ltb_spec z (2 ^ (w - 1))); lia.
  - rewrite <- (Z.mod_unique z (2 ^ w) (-1) (z + 2 ^ w)) by lia.
    destruct (Z.ltb_spec (z + 2 ^ w) (2 ^ (w - 1))); lia.
Qed.

#[export] Hint Resolve u64_range u32_range u8_range : xv6.

(** * Bit fields *)

Lemma land_low z w : 0 <= w -> Z.land z (2 ^ w - 1) = z mod 2 ^ w.
Proof.
  intros Hw. replace (2 ^ w - 1) with (Z.ones w) by (rewrite Z.ones_equiv; lia).
  by apply Z.land_ones.
Qed.

(** Clearing the low [w] bits of an unsigned 64-bit value. *)
Lemma land_high z w :
  0 <= w <= 64 -> 0 <= z < 2 ^ 64 ->
  Z.land z (u64 (Z.lnot (2 ^ w - 1))) = z - z mod 2 ^ w.
Proof.
  intros Hw Hz.
  replace (2 ^ w - 1) with (Z.ones w) by (rewrite Z.ones_equiv; lia).
  transitivity (Z.ldiff z (Z.ones w)).
  - apply Z.bits_inj'; intros n Hn.
    rewrite Z.land_spec, Z.ldiff_spec. unfold u64.
    destruct (Z.lt_ge_cases n 64) as [Hlt|Hge].
    + rewrite Z.mod_pow2_bits_low by lia. by rewrite Z.lnot_spec by lia.
    + rewrite (Z.bits_above_log2 z n); [done|lia|].
      destruct (decide (z = 0)) as [->|]; [by simpl; lia|].
      apply Z.log2_lt_pow2; [lia|].
      apply Z.lt_le_trans with (2 ^ 64); [lia|]. apply Z.pow_le_mono_r; lia.
  - rewrite Z.ldiff_ones_r by lia.
    rewrite Z.shiftl_mul_pow2, Z.shiftr_div_pow2 by lia.
    pose proof (Z.pow_pos_nonneg 2 w ltac:(lia) ltac:(lia)).
    pose proof (Z.div_mod z (2 ^ w) ltac:(lia)). lia.
Qed.

(** Disjoint bit fields combine by addition. *)
Lemma lor_disjoint hi lo w :
  0 <= w -> 0 <= lo < 2 ^ w -> Z.lor (hi * 2 ^ w) lo = hi * 2 ^ w + lo.
Proof.
  intros Hw Hlo. rewrite <- Z.shiftl_mul_pow2 by lia.
  rewrite <- Z.add_lor_land.
  replace (Z.land (Z.shiftl hi w) lo) with 0; [lia|].
  symmetry. apply Z.bits_inj'; intros n Hn.
  rewrite Z.land_spec, Z.bits_0.
  destruct (Z.lt_ge_cases n w) as [Hlt|Hge].
  - by rewrite Z.shiftl_spec_low by lia.
  - destruct (decide (lo = 0)) as [->|]; [by rewrite Z.bits_0, andb_false_r|].
    rewrite (Z.bits_above_log2 lo n); [apply andb_false_r|lia|].
    apply Z.log2_lt_pow2; [lia|].
    apply Z.lt_le_trans with (2 ^ w); [lia|]. apply Z.pow_le_mono_r; lia.
Qed.

(** * Lists *)

(** A C array of [n] elements starting at index [i], as a list of indices. *)
Abbreviation upto := (seqZ 0).

(** [take]/[drop] splice: [length l'] elements of [l] replaced from [n] on. *)
Definition splice {A} (n : nat) (l' l : list A) : list A :=
  take n l ++ l' ++ drop (n + length l') l.

Lemma length_splice {A} n (l' l : list A) :
  (n + length l' <= length l)%nat -> length (splice n l' l) = length l.
Proof. intros H. unfold splice. rewrite !length_app, length_take, length_drop. lia. Qed.

Lemma lookup_splice_in {A} n (l' l : list A) i :
  (n + length l' <= length l)%nat -> (n <= i < n + length l')%nat ->
  splice n l' l !! i = l' !! (i - n)%nat.
Proof.
  intros H Hi. unfold splice.
  rewrite lookup_app_r; rewrite length_take; [|lia].
  rewrite Nat.min_l by lia. by rewrite lookup_app_l by lia.
Qed.

Lemma lookup_splice_out {A} n (l' l : list A) i :
  (n + length l' <= length l)%nat -> (i < n \/ n + length l' <= i)%nat ->
  splice n l' l !! i = l !! i.
Proof.
  intros H [Hi|Hi]; unfold splice.
  - rewrite lookup_app_l by (rewrite length_take; lia). by rewrite lookup_take_lt.
  - rewrite lookup_app_r; rewrite length_take; [|lia].
    rewrite Nat.min_l by lia.
    rewrite lookup_app_r by lia. rewrite lookup_drop. f_equal. lia.
Qed.

Lemma alter_insert {A} (f : A -> A) (i : nat) (l : list A) (x : A) :
  l !! i = Some x -> alter f i l = <[i := f x]> l.
Proof.
  revert i. induction l as [|y l IH]; intros [|i] H; simplify_eq/=; [done|]. f_equal. by apply IH.
Qed.

Lemma alter_alter {A} (f g : A -> A) (i : nat) (l : list A) :
  alter f i (alter g i l) = alter (fun x => f (g x)) i l.
Proof.
  revert i. induction l as [|y l IH]; intros [|i]; [done..|].
  change (y :: alter f i (alter g i l) = y :: alter (fun x => f (g x)) i l). by rewrite IH.
Qed.

(** The characters of a string. *)
Fixpoint chars (s : string) : list Z :=
  match s with
  | EmptyString => []
  | String a s' => Z.of_nat (Ascii.nat_of_ascii a) :: chars s'
  end.

Lemma elem_of_rev {A} (x : A) l : x ∈ rev l <-> x ∈ l.
Proof. rewrite rev_alt. apply elem_of_reverse. Qed.

(** * Automation *)

(** Case analysis on the boolean tests the C conditions translate to. *)
Ltac zify_bool :=
  repeat match goal with
  | H : context [Z.eqb ?a ?b] |- _ => destruct (Z.eqb_spec a b)
  | |- context [Z.eqb ?a ?b] => destruct (Z.eqb_spec a b)
  | H : context [Z.ltb ?a ?b] |- _ => destruct (Z.ltb_spec a b)
  | |- context [Z.ltb ?a ?b] => destruct (Z.ltb_spec a b)
  | H : context [Z.leb ?a ?b] |- _ => destruct (Z.leb_spec a b)
  | |- context [Z.leb ?a ?b] => destruct (Z.leb_spec a b)
  end.
