(* ===== verification/Riscv.v ===== *)
(** Constants and address arithmetic of the kernel headers: param.h,
    memlayout.h and the Sv39 part of riscv.h, with the arithmetic facts about
    page rounding, page-table entries and page-table indices that the virtual
    memory code relies on. *)

From S2P Require Import Prelude.

(** * param.h *)

Definition NPROC : Z := 64.
Definition NCPU : Z := 8.
Definition NOFILE : Z := 16.
Definition NFILE : Z := 100.
Definition NINODE : Z := 50.
Definition NDEV : Z := 10.
Definition ROOTDEV : Z := 1.
Definition MAXARG : Z := 32.
Definition MAXOPBLOCKS : Z := 10.
Definition LOGSIZE : Z := MAXOPBLOCKS * 3.
Definition NBUF : Z := MAXOPBLOCKS * 3.
Definition FSSIZE : Z := 2000.
Definition MAXPATH : Z := 128.
Definition USERSTACK : Z := 1.

(** * riscv.h: pages, page-table entries, virtual addresses *)

Definition PGSIZE : Z := 4096.
Definition PGSHIFT : Z := 12.

Definition PGROUNDUP (sz : Z) : Z :=
  Z.land (u64 (sz + PGSIZE - 1)) (u64 (Z.lnot (PGSIZE - 1))).
Definition PGROUNDDOWN (a : Z) : Z := Z.land a (u64 (Z.lnot (PGSIZE - 1))).

Definition PTE_V : Z := Z.shiftl 1 0.
Definition PTE_R : Z := Z.shiftl 1 1.
Definition PTE_W : Z := Z.shiftl 1 2.
Definition PTE_X : Z := Z.shiftl 1 3.
Definition PTE_U : Z := Z.shiftl 1 4.

Definition PA2PTE (pa : Z) : Z := u64 (Z.shiftl (Z.shiftr pa 12) 10).
Definition PTE2PA (pte : Z) : Z := u64 (Z.shiftl (Z.shiftr pte 10) 12).
Definition PTE_FLAGS (pte : Z) : Z := Z.land pte 0x3FF.

Definition PXMASK : Z := 0x1FF.
Definition PXSHIFT (level : Z) : Z := PGSHIFT + 9 * level.
Definition PX (level va : Z) : Z := Z.land (Z.shiftr va (PXSHIFT level)) PXMASK.

Definition MAXVA : Z := Z.shiftl 1 (9 + 9 + 9 + 12 - 1).

Definition SATP_SV39 : Z := Z.shiftl 8 60.
Definition MAKE_SATP (pagetable : Z) : Z := Z.lor SATP_SV39 (Z.shiftr pagetable 12).

(** * memlayout.h *)

Definition UART0 : Z := 0x10000000.
Definition UART0_IRQ : Z := 10.
Definition VIRTIO0 : Z := 0x10001000.
Definition VIRTIO0_IRQ : Z := 1.
Definition PLIC : Z := 0x0c000000.
Definition KERNBASE : Z := 0x80000000.
Definition PHYSTOP : Z := KERNBASE + 128 * 1024 * 1024.
Definition TRAMPOLINE : Z := MAXVA - PGSIZE.
Definition KSTACK (p : Z) : Z := TRAMPOLINE - (p + 1) * 2 * PGSIZE.
Definition TRAPFRAME : Z := TRAMPOLINE - PGSIZE.

(** * Facts about page rounding *)

Lemma PGROUNDDOWN_eq a : 0 <= a < 2 ^ 64 -> PGROUNDDOWN a = a - a mod PGSIZE.
Proof. intros Ha. apply (land_high a 12); lia. Qed.

Lemma PGROUNDDOWN_aligned a : a mod PGSIZE = 0 -> 0 <= a < 2 ^ 64 -> PGROUNDDOWN a = a.
Proof. intros H Ha. rewrite PGROUNDDOWN_eq, H by done. lia. Qed.

Lemma PGROUNDUP_eq sz :
  PGROUNDUP sz = u64 (sz + PGSIZE - 1) - u64 (sz + PGSIZE - 1) mod PGSIZE.
Proof. apply (land_high _ 12); [lia|apply u64_range]. Qed.

(** Within the address space [PGROUNDUP] is the least page boundary at or
    above its argument. *)
Lemma PGROUNDUP_spec sz :
  0 <= sz <= 2 ^ 64 - PGSIZE ->
  PGROUNDUP sz mod PGSIZE = 0 /\ sz <= PGROUNDUP sz < sz + PGSIZE.
Proof.
  intros Hsz. rewrite PGROUNDUP_eq. unfold PGSIZE in *.
  rewrite u64_small by lia.
  pose proof (Z.mod_pos_bound (sz + 4096 - 1) 4096 ltac:(lia)).
  pose proof (Z.div_mod (sz + 4096 - 1) 4096 ltac:(lia)).
  split; [|lia].
  rewrite (Z.div_mod (sz + 4096 - 1) 4096) at 1 by lia.
  rewrite Z.add_simpl_r, Z.mul_comm. by apply Z.mod_mul.
Qed.

Lemma PGROUNDUP_aligned sz :
  0 <= sz <= 2 ^ 64 - PGSIZE -> sz mod PGSIZE = 0 -> PGROUNDUP sz = sz.
Proof.
  intros Hsz Hal. destruct (PGROUNDUP_spec sz Hsz) as [Hm Hb].
  unfold PGSIZE in *.
  pose proof (Z.div_mod sz 4096 ltac:(lia)).
  pose proof (Z.div_mod (PGROUNDUP sz) 4096 ltac:(lia)). nia.
Qed.

(** Page boundaries are unique in each page-sized window. *)
Lemma page_boundary_unique a b :
  a mod PGSIZE = 0 -> b mod PGSIZE = 0 -> - PGSIZE < a - b < PGSIZE -> a = b.
Proof.
  unfold PGSIZE. intros Ha Hb Hd.
  pose proof (Z.div_mod a 4096 ltac:(lia)).
  pose proof (Z.div_mod b 4096 ltac:(lia)). nia.
Qed.

(** * Facts about page-table entries *)

Lemma PTE2PA_eq pte : 0 <= pte < 2 ^ 54 -> PTE2PA pte = pte / 2 ^ 10 * 2 ^ 12.
Proof.
  intros H. unfold PTE2PA. rewrite Z.shiftr_div_pow2, Z.shiftl_mul_pow2 by lia.
  apply u64_small.
  pose proof (Z.div_mod pte (2 ^ 10) ltac:(lia)).
  pose proof (Z.mod_pos_bound pte (2 ^ 10) ltac:(lia)). lia.
Qed.

Lemma PA2PTE_eq pa : 0 <= pa < 2 ^ 56 -> PA2PTE pa = pa / 2 ^ 12 * 2 ^ 10.
Proof.
  intros H. unfold PA2PTE. rewrite Z.shiftr_div_pow2, Z.shiftl_mul_pow2 by lia.
  apply u64_small.
  pose proof (Z.div_mod pa (2 ^ 12) ltac:(lia)).
  pose proof (Z.mod_pos_bound pa (2 ^ 12) ltac:(lia)). lia.
Qed.

(** The entry a page-table writer builds, as an arithmetic sum. *)
Lemma pte_make_eq pa fl :
  0 <= pa < 2 ^ 56 -> 0 <= fl < 2 ^ 10 ->
  Z.lor (PA2PTE pa) fl = pa / 2 ^ 12 * 2 ^ 10 + fl.
Proof. intros Hpa Hfl. rewrite PA2PTE_eq by done. by apply lor_disjoint. Qed.

Lemma pte_make_range pa fl :
  0 <= pa < 2 ^ 56 -> 0 <= fl < 2 ^ 10 -> 0 <= Z.lor (PA2PTE pa) fl < 2 ^ 54.
Proof.
  intros Hpa Hfl. rewrite pte_make_eq by done.
  pose proof (Z.div_mod pa (2 ^ 12) ltac:(lia)).
  pose proof (Z.mod_pos_bound pa (2 ^ 12) ltac:(lia)). lia.
Qed.

(** Reading back what was packed: the page address of an entry is the
    (page-aligned) physical address it was built from. *)
Lemma PTE2PA_make pa fl :
  0 <= pa < 2 ^ 56 -> pa mod PGSIZE = 0 -> 0 <= fl < 2 ^ 10 ->
  PTE2PA (Z.lor (PA2PTE pa) fl) = pa.
Proof.
  intros Hpa Hal Hfl. rewrite PTE2PA_eq by (by apply pte_make_range).
  rewrite pte_make_eq by done. rewrite Z.div_add_l by lia.
  rewrite (Z.div_small fl) by lia. unfold PGSIZE in Hal.
  pose proof (Z.div_mod pa 4096 ltac:(lia)). change (2 ^ 12) with 4096. lia.
Qed.

Lemma PTE_FLAGS_make pa fl :
  0 <= pa < 2 ^ 56 -> 0 <= fl < 2 ^ 10 -> PTE_FLAGS (Z.lor (PA2PTE pa) fl) = fl.
Proof.
  intros Hpa Hfl. unfold PTE_FLAGS. change 0x3FF with (2 ^ 10 - 1).
  rewrite land_low by lia. rewrite pte_make_eq by done.
  rewrite Z.add_comm, Z.mod_add by lia. by apply Z.mod_small.
Qed.

(** A flag below bit 10 is read from the flag bits only. *)
Lemma land_flag_make pa fl b :
  0 <= pa < 2 ^ 56 -> 0 <= fl < 2 ^ 10 -> 0 <= b < 10 ->
  Z.land (Z.lor (PA2PTE pa) fl) (Z.shiftl 1 b) = Z.land fl (Z.shiftl 1 b).
Proof.
  intros Hpa Hfl Hb. rewrite Z.land_lor_distr_l.
  replace (Z.land (PA2PTE pa) (Z.shiftl 1 b)) with 0; [done|].
  rewrite PA2PTE_eq by done. symmetry. apply Z.bits_inj'; intros n Hn.
  rewrite Z.land_spec, Z.bits_0, <- Z.shiftl_mul_pow2 by lia.
  destruct (Z.lt_ge_cases n 10).
  - by rewrite Z.shiftl_spec_low by lia.
  - rewrite (Z.shiftl_spec 1 b n) by lia.
    rewrite (Z.bits_above_log2 1); [apply andb_false_r|lia|change (Z.log2 1) with 0; lia].
Qed.

(** * Facts about virtual-address indices *)

Lemma PX_eq level va :
  0 <= level -> 0 <= va -> PX level va = (va / 2 ^ (12 + 9 * level)) mod 512.
Proof.
  intros Hl Hva. unfold PX, PXSHIFT, PGSHIFT, PXMASK.
  change 0x1FF with (2 ^ 9 - 1). rewrite land_low by lia.
  by rewrite Z.shiftr_div_pow2 by lia.
Qed.

Lemma PX_range level va : 0 <= level -> 0 <= va -> 0 <= PX level va < 512.
Proof. intros. rewrite PX_eq by done. apply Z.mod_pos_bound. lia. Qed.

(** A virtual address below [MAXVA] is its three indices and its page offset. *)
Lemma va_decompose va :
  0 <= va < MAXVA ->
  va = PX 2 va * 2 ^ 30 + PX 1 va * 2 ^ 21 + PX 0 va * 2 ^ 12 + va mod PGSIZE.
Proof.
  intros Hva. change MAXVA with (2 ^ 38) in Hva. unfold PGSIZE.
  rewrite !PX_eq by lia.
  change (12 + 9 * 2) with 30. change (12 + 9 * 1) with 21. change (12 + 9 * 0) with 12.
  assert (E2 : (va / 2 ^ 30) mod 512 = va / 2 ^ 30).
  { apply Z.mod_small. split; [apply Z.div_pos; lia|]. apply Z.div_lt_upper_bound; lia. }
  rewrite E2.
  pose proof (Z.div_mod va (2 ^ 12) ltac:(lia)) as D0.
  pose proof (Z.div_mod (va / 2 ^ 12) 512 ltac:(lia)) as D1.
  pose proof (Z.div_mod (va / 2 ^ 21) 512 ltac:(lia)) as D2.
  rewrite (Z.div_div va (2 ^ 12) 512) in D1 by lia.
  rewrite (Z.div_div va (2 ^ 21) 512) in D2 by lia.
  change (2 ^ 12 * 512) with (2 ^ 21) in D1. change (2 ^ 21 * 512) with (2 ^ 30) in D2.
  change 4096 with (2 ^ 12). lia.
Qed.

(** Two page-aligned addresses with the same three indices are equal. *)
Lemma PX_inj va va' :
  0 <= va < MAXVA -> 0 <= va' < MAXVA -> va mod PGSIZE = 0 -> va' mod PGSIZE = 0 ->
  PX 2 va = PX 2 va' -> PX 1 va = PX 1 va' -> PX 0 va = PX 0 va' -> va = va'.
Proof.
  intros Hva Hva' Ha Ha' E2 E1 E0.
  rewrite (va_decompose va), (va_decompose va') by done. lia.
Qed.

#[global] Arguments PGROUNDUP : simpl never.
#[global] Arguments PGROUNDDOWN : simpl never.
#[global] Arguments PX : simpl never.
#[global] Arguments PA2PTE : simpl never.
#[global] Arguments PTE2PA : simpl never.
#[global] Arguments PTE_FLAGS : simpl never.
