(* ===== verification/Numeral.v ===== *)
(** What the printf functions of the kernel and of the user library share: the
    variadic arguments, the loop that produces digits, reading digits back. *)

From stdpp Require Import pretty.
From S2P Require Import Prelude.

(** The variadic arguments: an int, a 64-bit integer, a string or a null pointer. *)
Inductive varg := VInt (v : Z) | VU64 (v : Z) | VStr (s : option (list Z)).

(** The do loop: the digits of [x] from the last to the first. *)
Fixpoint do_digits (digit : Z -> Z) (fuel : nat) (x base : Z) : list Z :=
  match fuel with
  | O => []
  | S fuel' => digit (x mod base) :: (if x / base =? 0 then [] else do_digits digit fuel' (x / base) base)
  end.

(** Reading digits back with their values [val]. *)
Definition read_with (val : Z -> Z) (base : Z) (cs : list Z) : Z := foldl (fun v c => v * base + val c) 0 cs.

Lemma read_with_snoc val base cs c : read_with val base (cs ++ [c]) = read_with val base cs * base + val c.
Proof. unfold read_with. by rewrite foldl_app. Qed.

Section digits.
Context (digit val : Z -> Z) (base hi : Z).
Hypothesis base_ok : 2 <= base.
Hypothesis digit_val_ok : forall i, 0 <= i < base -> val (digit i) = i /\ 48 <= digit i < hi.

(** The loop produces the digits of x, at most as many as base^k > x allows. *)
Lemma do_digits_ok k : forall x fuel,
  0 <= x < base ^ Z.of_nat (S k) -> (k < fuel)%nat ->
  let cs := do_digits digit fuel x base in
  read_with val base (rev cs) = x /\ (0 < length cs <= S k)%nat /\ Forall (fun c => 48 <= c < hi) cs.
Proof.
  induction k as [|k IH]; intros x fuel Hx Hf; (destruct fuel as [|fuel]; [lia|]); cbn [do_digits].
  all: pose proof (Z.mod_pos_bound x base ltac:(lia)) as Hm.
  all: destruct (digit_val_ok (x mod base) ltac:(lia)) as [Hv Hr].
  - rewrite Z.pow_1_r in Hx. rewrite Z.div_small, Z.mod_small in * by lia. simpl.
    repeat split; [|lia..|by constructor]. unfold read_with. simpl. lia.
  - destruct (Z.eqb_spec (x / base) 0) as [E|E]; simpl.
    + repeat split; [|lia..|by constructor]. unfold read_with. simpl.
      pose proof (Z.div_mod x base ltac:(lia)). lia.
    + assert (Hx' : 0 <= x / base < base ^ Z.of_nat (S k)).
      { split; [apply Z.div_pos; lia|]. apply Z.div_lt_upper_bound; [lia|].
        rewrite <- Z.pow_succ_r by lia. replace (Z.succ (Z.of_nat (S k))) with (Z.of_nat (S (S k))) by lia. lia. }
      destruct (IH (x / base) fuel Hx' ltac:(lia)) as (Hrd & Hlen & Hall).
      rewrite read_with_snoc, Hrd, Hv. repeat split; [|lia..|by constructor].
      pose proof (Z.div_mod x base ltac:(lia)). lia.
Qed.

End digits.

(** Reading a numeral with an optional minus sign. *)
Definition read_signed (val : Z -> Z) (base : Z) (cs : list Z) : Z :=
  match cs with
  | c :: cs' => if c =? 45 then - read_with val base cs' else read_with val base cs
  | [] => 0
  end.

Lemma read_signed_digits val base hi cs :
  Forall (fun c => 48 <= c < hi) cs -> read_signed val base (rev cs) = read_with val base (rev cs).
Proof.
  intros H. unfold read_signed. destruct (rev cs) as [|c l] eqn:E; [done|].
  destruct (Z.eqb_spec c 45) as [->|]; [exfalso|done].
  rewrite Forall_forall in H. assert (H45 : 45 ∈ cs).
  { apply elem_of_rev. rewrite E. by left. }
  apply H in H45. simpl in H45. lia.
Qed.

(** * Decimal numerals *)

(** The decimal numeral of a number, with a minus sign if it is negative and without
    leading zeros, as stdpp prints it. *)
Definition decimal (z : Z) : list Z := chars (pretty z).

Lemma pretty_char i : 0 <= i < 10 -> Z.of_nat (Ascii.nat_of_ascii (pretty_N_char (Z.to_N i))) = 48 + i.
Proof.
  intros H. assert (i = 0 \/ i = 1 \/ i = 2 \/ i = 3 \/ i = 4 \/ i = 5 \/ i = 6 \/ i = 7 \/ i = 8 \/ i = 9) as Hi by lia.
  by destruct Hi as [->|[->|[->|[->|[->|[->|[->|[->|[->| ->]]]]]]]]].
Qed.

Section decimal.
Context (digit : Z -> Z) (Hdigit : forall i, 0 <= i < 10 -> digit i = 48 + i).

Lemma do_digits_pretty k : forall x fuel s, 0 < x < 10 ^ Z.of_nat k -> (k <= fuel)%nat ->
  rev (do_digits digit fuel x 10) ++ chars s = chars (pretty_N_go (Z.to_N x) s).
Proof using Hdigit.
  induction k as [|k IH]; intros x fuel s Hx Hf; [simpl in Hx; lia|]. destruct fuel as [|fuel]; [lia|].
  rewrite pretty_N_go_step by lia. replace (Z.to_N x `div` 10)%N with (Z.to_N (x / 10)) by (by rewrite Z2N.inj_div by lia).
  replace (Z.to_N x `mod` 10)%N with (Z.to_N (x mod 10)) by (by rewrite Z2N.inj_mod by lia).
  pose proof (Z.mod_pos_bound x 10 ltac:(lia)) as Hm. pose proof (Z.div_mod x 10 ltac:(lia)) as Hdm.
  assert (Hc : chars (String (pretty_N_char (Z.to_N (x mod 10))) s) = digit (x mod 10) :: chars s).
  { rewrite Hdigit by done. cbn [chars]. f_equal. by apply pretty_char. }
  cbn [do_digits]. destruct (Z.eqb_spec (x / 10) 0) as [E|E].
  - rewrite E. change (Z.to_N 0) with 0%N. by rewrite pretty_N_go_0, Hc.
  - cbn [rev]. rewrite <- app_assoc. cbn [app]. rewrite <- Hc. apply IH; [|lia].
    assert (0 <= x / 10) by (apply Z.div_pos; lia). split; [lia|]. apply Z.div_lt_upper_bound; [lia|].
    rewrite <- Z.pow_succ_r by lia. replace (Z.succ (Z.of_nat k)) with (Z.of_nat (S k)) by lia. lia.
Qed.

Lemma do_digits_decimal x fuel : 0 <= x < 10 ^ Z.of_nat fuel -> (0 < fuel)%nat -> rev (do_digits digit fuel x 10) = decimal x.
Proof using Hdigit.
  intros Hx Hf. destruct (decide (x = 0)) as [->|Hne].
  - destruct fuel as [|fuel]; [lia|]. cbn [do_digits]. change (0 mod 10) with 0. change (0 / 10 =? 0) with true.
    by rewrite (Hdigit 0) by lia.
  - rewrite <- (app_nil_r (rev _)). change (@nil Z) with (chars ""). rewrite (do_digits_pretty fuel) by lia.
    destruct x as [|q|q]; [done| |lia]. done.
Qed.
End decimal.
