(* ===== verification/Memory.v ===== *)
(** Byte-addressed memory, with the little-endian accesses the RISC-V kernel
    makes through pointers to wider integers. *)

From S2P Require Import Prelude.

(** Memory is a finite map from addresses to bytes; an address that was never
    written reads as 0. *)
Abbreviation mem := (gmap Z Z).

Definition mrd (m : mem) (a : Z) : Z := u8 (default 0 (m !! a)).
Definition mwr (a v : Z) (m : mem) : mem := <[a := u8 v]> m.

Lemma u8_mrd m a : u8 (mrd m a) = mrd m a.
Proof. apply u8_idem. Qed.

Lemma mrd_range m a : 0 <= mrd m a < 2 ^ 8.
Proof. apply u8_range. Qed.

Lemma mrd_mwr m a v b : mrd (mwr a v m) b = if decide (a = b) then u8 v else mrd m b.
Proof. unfold mrd, mwr. rewrite lookup_insert. by destruct (decide (a = b)); [apply u8_idem|]. Qed.

(** An [n]-byte little-endian load and store. *)
Fixpoint load (n : nat) (a : Z) (m : mem) : Z :=
  match n with
  | O => 0
  | S n' => mrd m a + 2 ^ 8 * load n' (a + 1) m
  end.

Fixpoint store (n : nat) (a v : Z) (m : mem) : mem :=
  match n with
  | O => m
  | S n' => store n' (a + 1) (v / 2 ^ 8) (mwr a v m)
  end.

Abbreviation load64 := (load 8).
Abbreviation store64 := (store 8).

(** The bytes of a range, and storing a list of bytes. *)
Fixpoint mbytes (n : nat) (a : Z) (m : mem) : list Z :=
  match n with O => [] | S n' => mrd m a :: mbytes n' (a + 1) m end.

Fixpoint mstore (a : Z) (bs : list Z) (m : mem) : mem :=
  match bs with [] => m | b :: bs' => mstore (a + 1) bs' (mwr a b m) end.

Lemma load_range n : forall a m, 0 <= load n a m < 2 ^ (8 * Z.of_nat n).
Proof.
  induction n as [|n IH]; intros a m; [done|]. cbn [load].
  pose proof (mrd_range m a). pose proof (IH (a + 1) m).
  replace (8 * Z.of_nat (S n)) with (8 + 8 * Z.of_nat n) by lia.
  rewrite Z.pow_add_r by lia. lia.
Qed.

Lemma mrd_store n : forall a v m b,
  ~ (a <= b < a + Z.of_nat n) -> mrd (store n a v m) b = mrd m b.
Proof.
  induction n as [|n IH]; intros a v m b H; [done|]. cbn [store].
  rewrite IH by lia. rewrite mrd_mwr. case_decide; [lia|done].
Qed.

Lemma load_ext n : forall a m m',
  (forall b, a <= b < a + Z.of_nat n -> mrd m b = mrd m' b) -> load n a m = load n a m'.
Proof.
  induction n as [|n IH]; intros a m m' H; [done|]. cbn [load].
  rewrite (H a) by lia. f_equal. f_equal. apply IH. intros b Hb. apply H. lia.
Qed.

Lemma load_zero n : forall a m, (forall b, a <= b < a + Z.of_nat n -> mrd m b = 0) -> load n a m = 0.
Proof.
  induction n as [|n IH]; intros a m H; [done|]. cbn [load].
  rewrite (H a) by lia. rewrite IH; [done|]. intros b Hb. apply H. lia.
Qed.

(** Reading back a stored value, and reading elsewhere. *)
Lemma load_store n : forall a v m, load n a (store n a v m) = v mod 2 ^ (8 * Z.of_nat n).
Proof.
  induction n as [|n IH]; intros a v m; [by rewrite Z.mod_1_r|]. cbn [load store].
  rewrite IH, mrd_store by lia. rewrite mrd_mwr, decide_True by done. unfold u8.
  replace (8 * Z.of_nat (S n)) with (8 + 8 * Z.of_nat n) by lia.
  rewrite Z.pow_add_r by lia. rewrite (Z.rem_mul_r v) by lia. lia.
Qed.

Lemma load_store_ne n k a v b m :
  a + Z.of_nat n <= b \/ b + Z.of_nat k <= a ->
  load k b (store n a v m) = load k b m.
Proof. intros H. apply load_ext. intros c Hc. apply mrd_store. lia. Qed.

Lemma mrd_mstore bs : forall a m b,
  mrd (mstore a bs m) b =
  match bs !! Z.to_nat (b - a) with
  | Some v => if decide (a <= b) then u8 v else mrd m b
  | None => mrd m b
  end.
Proof.
  induction bs as [|v bs IH]; intros a m b; [by rewrite lookup_nil|]. cbn [mstore].
  rewrite IH, mrd_mwr. destruct (decide (a <= b)) as [Hab|Hab].
  - destruct (decide (a = b)) as [->|Hne].
    + rewrite Z.sub_diag. simpl. destruct (bs !! _); repeat case_decide; try lia; done.
    + replace (Z.to_nat (b - a)) with (S (Z.to_nat (b - (a + 1)))) by lia. simpl.
      destruct (bs !! _); repeat case_decide; try lia; done.
  - destruct (bs !! _), ((v :: bs) !! _); repeat case_decide; try lia; done.
Qed.

Lemma mbytes_ext n : forall a m m',
  (forall b, a <= b < a + Z.of_nat n -> mrd m b = mrd m' b) -> mbytes n a m = mbytes n a m'.
Proof.
  induction n as [|n IH]; intros a m m' H; [done|]. cbn [mbytes].
  rewrite (H a) by lia. f_equal. apply IH. intros b Hb. apply H. lia.
Qed.

Lemma length_mbytes n a m : length (mbytes n a m) = n.
Proof. revert a. induction n as [|n IH]; intros a; simpl; [done|]. by rewrite IH. Qed.

Lemma mbytes_lookup n : forall a m i,
  (i < n)%nat -> mbytes n a m !! i = Some (mrd m (a + Z.of_nat i)).
Proof.
  induction n as [|n IH]; intros a m i Hi; [lia|]. destruct i as [|i]; simpl.
  - do 2 f_equal. lia.
  - rewrite IH by lia. do 2 f_equal. lia.
Qed.

#[global] Arguments mrd : simpl never.
#[global] Arguments mwr : simpl never.
#[global] Arguments load : simpl never.
#[global] Arguments store : simpl never.
#[global] Arguments mbytes : simpl never.
#[global] Arguments mstore : simpl never.
Strategy 1000 [mrd mwr load store mbytes mstore].
