(* ===== verification/Bytes.v ===== *)
(** Little-endian integers inside a byte array, as the kernel reads and writes
    them through struct pointers into a disk block. *)

From S2P Require Import Prelude.

Fixpoint enc (n : nat) (v : Z) : list Z :=
  match n with O => [] | S n' => u8 v :: enc n' (v / 2 ^ 8) end.
Fixpoint dec (bs : list Z) : Z :=
  match bs with [] => 0 | b :: bs' => b + 2 ^ 8 * dec bs' end.

(** The [n]-byte field at offset [off]. *)
Definition get (n off : nat) (bs : list Z) : Z := dec (take n (drop off bs)).
Definition put (n off : nat) (v : Z) (bs : list Z) : list Z := splice off (enc n v) bs.

Lemma length_enc n v : length (enc n v) = n.
Proof. revert v. induction n as [|n IH]; intros v; simpl; [done|]. by rewrite IH. Qed.

Lemma dec_enc n : forall v, dec (enc n v) = v mod 2 ^ (8 * Z.of_nat n).
Proof.
  induction n as [|n IH]; intros v; [by rewrite Z.mod_1_r|]. cbn [enc dec]. rewrite IH. unfold u8.
  replace (8 * Z.of_nat (S n)) with (8 + 8 * Z.of_nat n) by lia.
  rewrite Z.pow_add_r by lia. rewrite (Z.rem_mul_r v) by lia. lia.
Qed.

Lemma length_put n off v bs : (off + n <= length bs)%nat -> length (put n off v bs) = length bs.
Proof. intros H. apply length_splice. by rewrite length_enc. Qed.

Lemma get_put n off v bs :
  (off + n <= length bs)%nat -> get n off (put n off v bs) = v mod 2 ^ (8 * Z.of_nat n).
Proof.
  intros H. unfold get, put, splice. rewrite <- dec_enc. f_equal.
  rewrite drop_app_ge by (rewrite length_take; lia). rewrite length_take.
  replace (off - off `min` length bs)%nat with 0%nat by lia. rewrite drop_0.
  by rewrite take_app_length' by (by rewrite length_enc).
Qed.

Lemma get_ext n off bs bs' :
  (forall i, (off <= i < off + n)%nat -> bs !! i = bs' !! i) -> get n off bs = get n off bs'.
Proof.
  intros H. unfold get. f_equal. apply list_eq. intros i. destruct (decide (i < n)%nat) as [Hi|Hi].
  - rewrite !lookup_take_lt, !lookup_drop by done. apply H. lia.
  - rewrite !lookup_take_ge by lia. done.
Qed.

Lemma get_put_ne n off v n' off' bs :
  (off + n <= length bs)%nat -> (off' + n' <= off \/ off + n <= off')%nat ->
  get n' off' (put n off v bs) = get n' off' bs.
Proof.
  intros H Hd. apply get_ext. intros i Hi. apply lookup_splice_out; rewrite length_enc; lia.
Qed.

(** A field of the bytes 0..255 is an unsigned integer of its width. *)
Definition bytes (bs : list Z) : Prop := Forall (fun b => 0 <= b < 256) bs.

Lemma dec_range bs : bytes bs -> 0 <= dec bs < 2 ^ (8 * Z.of_nat (length bs)).
Proof.
  induction 1 as [|b bs Hb _ IH]; [done|]. cbn [dec length].
  replace (8 * Z.of_nat (S (length bs))) with (8 + 8 * Z.of_nat (length bs)) by lia.
  rewrite Z.pow_add_r by lia. lia.
Qed.

Lemma get_range n off bs : bytes bs -> 0 <= get n off bs < 2 ^ (8 * Z.of_nat n).
Proof.
  intros H. unfold get. assert (Hb : bytes (take n (drop off bs))) by (by apply Forall_take, Forall_drop).
  pose proof (dec_range _ Hb) as Hr.
  split; [lia|]. apply Z.lt_le_trans with (1 := proj2 Hr), Z.pow_le_mono_r; [lia|].
  rewrite length_take. lia.
Qed.

Lemma enc_bytes n v : bytes (enc n v).
Proof.
  revert v. induction n as [|n IH]; intros v; [constructor|]. constructor; [|apply IH].
  pose proof (u8_range v). lia.
Qed.

Lemma put_bytes n off v bs : bytes bs -> bytes (put n off v bs).
Proof.
  intros H. unfold put, splice, bytes. rewrite !Forall_app. split_and!;
    [by apply Forall_take|apply enc_bytes|by apply Forall_drop].
Qed.

#[global] Arguments enc : simpl never.
#[global] Arguments dec : simpl never.
#[global] Arguments get : simpl never.
#[global] Arguments put : simpl never.
