(* ===== verification/Ring.v ===== *)
(** Ring buffers: [n] elements from index [lo] in an array of [N], indices taken
    modulo [N].  Pipes, the console's input buffer and the serial line's output
    buffer keep free-running counters of 32 or 64 bits into such arrays; as [N]
    divides 2^32 the wrap-around of a counter does not move its slot. *)

From S2P Require Import Prelude.

Section ring.
Context (N : Z) (HN : 0 < N).

Definition slot (lo : Z) : nat := Z.to_nat (lo mod N).
Definition ring (data : list Z) (lo : Z) (n : nat) : list Z :=
  (fun i => default 0 (data !! slot (lo + Z.of_nat i))) <$> seq 0 n.

Lemma slot_lt lo : (slot lo < Z.to_nat N)%nat.
Proof using HN. unfold slot. pose proof (Z.mod_pos_bound lo N HN). lia. Qed.

Lemma length_ring data lo n : length (ring data lo n) = n.
Proof. unfold ring. by rewrite length_fmap, length_seq. Qed.

Lemma ring_lookup data lo n i :
  (i < n)%nat -> ring data lo n !! i = Some (default 0 (data !! slot (lo + Z.of_nat i))).
Proof. intros Hi. unfold ring. by rewrite list_lookup_fmap, lookup_seq_lt by done. Qed.

(** Slots of different elements are different. *)
Lemma slot_ne lo i j : 0 <= i -> i < j -> j < i + N -> slot (lo + i) <> slot (lo + j).
Proof using HN.
  intros Hi Hij Hj E. unfold slot in E. pose proof (Z.mod_pos_bound (lo + i) N HN). pose proof (Z.mod_pos_bound (lo + j) N HN).
  apply Z2Nat.inj in E; [|lia..].
  pose proof (Z.div_mod (lo + i) N ltac:(lia)). pose proof (Z.div_mod (lo + j) N ltac:(lia)).
  assert (j - i = N * ((lo + j) / N - (lo + i) / N)) by lia.
  destruct (Z.le_gt_cases ((lo + j) / N - (lo + i) / N) 0); nia.
Qed.

Lemma ring_congr data lo lo' n : lo mod N = lo' mod N -> ring data lo n = ring data lo' n.
Proof using HN.
  intros E. unfold ring. apply list_fmap_ext. intros _ i _. unfold slot.
  rewrite <- (Zplus_mod_idemp_l lo), E, Zplus_mod_idemp_l. done.
Qed.

Lemma ring_app data lo a b : ring data lo (a + b) = ring data lo a ++ ring data (lo + Z.of_nat a) b.
Proof.
  apply (list_eq_same_length _ _ (a + b)); [by rewrite length_app, !length_ring|by rewrite length_ring|].
  intros i x y Hi Hx Hy. rewrite ring_lookup in Hx by done. injection Hx as <-.
  destruct (decide (i < a)%nat).
  - rewrite lookup_app_l, ring_lookup in Hy by (rewrite ?length_ring; done). by injection Hy as <-.
  - rewrite lookup_app_r, length_ring, ring_lookup in Hy by (rewrite ?length_ring; lia). injection Hy as <-.
    do 3 f_equal. lia.
Qed.

Lemma ring_cons data lo n : ring data lo (S n) = default 0 (data !! slot lo) :: ring data (lo + 1) n.
Proof.
  change (S n) with (1 + n)%nat. rewrite ring_app. unfold ring at 1. simpl. by rewrite Z.add_0_r.
Qed.

(** Writing a slot that is not one of the elements. *)
Lemma ring_insert_out data lo n k c :
  Z.of_nat n <= k < N -> ring (<[slot (lo + k) := c]> data) lo n = ring data lo n.
Proof using HN.
  intros Hk. unfold ring. apply list_fmap_ext. intros j i Hj. apply lookup_seq in Hj as [-> Hj]. simpl.
  by rewrite list_lookup_insert_ne by (symmetry; apply slot_ne; lia).
Qed.

(** Adding an element at the end. *)
Lemma ring_snoc data lo n c :
  length data = Z.to_nat N -> Z.of_nat n < N ->
  ring (<[slot (lo + Z.of_nat n) := c]> data) lo (S n) = ring data lo n ++ [c].
Proof using HN.
  intros Hl Hn. replace (S n) with (n + 1)%nat by lia. rewrite ring_app. f_equal.
  - apply ring_insert_out. lia.
  - unfold ring. simpl. rewrite Z.add_0_r, list_lookup_insert_eq; [done|]. rewrite Hl. apply slot_lt.
Qed.
End ring.

(** A counter of [w] bits keeps its slot. *)
Lemma slot_wrap N w z : 0 < N -> (N | 2 ^ w) -> 0 <= w -> (z mod 2 ^ w) mod N = z mod N.
Proof.
  intros HN [k Hk] Hw. rewrite (Z.mod_eq z (2 ^ w)) by lia. rewrite Hk at 1.
  replace (z - k * N * (z / 2 ^ w)) with (z + - (k * (z / 2 ^ w)) * N) by lia. apply Z.mod_add. lia.
Qed.

(** The distance of two such counters, and how it moves. *)
Section distance.
Context (w : Z) (Hw : 0 < w).
Definition dist (lo hi : Z) : Z := (hi - lo) mod 2 ^ w.

Lemma dist_range lo hi : 0 <= dist lo hi < 2 ^ w.
Proof using Hw. apply Z.mod_pos_bound, Z.pow_pos_nonneg; lia. Qed.

Lemma dist_hi lo hi k : 0 <= dist lo hi + k < 2 ^ w -> dist lo ((hi + k) mod 2 ^ w) = dist lo hi + k.
Proof using Hw.
  intros H. unfold dist in *. rewrite Zminus_mod_idemp_l.
  replace (hi + k - lo) with (hi - lo + k) by lia. rewrite <- Zplus_mod_idemp_l. by apply Z.mod_small.
Qed.

Lemma dist_lo lo hi k : 0 <= dist lo hi - k < 2 ^ w -> dist ((lo + k) mod 2 ^ w) hi = dist lo hi - k.
Proof using Hw.
  intros H. unfold dist in *. rewrite Zminus_mod_idemp_r.
  replace (hi - (lo + k)) with (hi - lo - k) by lia. rewrite <- Zminus_mod_idemp_l. by apply Z.mod_small.
Qed.

(** The higher counter is the lower plus the distance, up to wrap-around. *)
Lemma dist_mod lo hi N : 0 < N -> (N | 2 ^ w) -> hi mod N = (lo + dist lo hi) mod N.
Proof using Hw.
  intros HN Hd. unfold dist. rewrite <- Zplus_mod_idemp_r, slot_wrap, Zplus_mod_idemp_r by (done || lia). f_equal. lia.
Qed.

Lemma dist_zero lo hi : 0 <= lo < 2 ^ w -> 0 <= hi < 2 ^ w -> dist lo hi = 0 <-> lo = hi.
Proof using Hw.
  intros Hl Hh. unfold dist. split; [|intros ->; by rewrite Z.sub_diag].
  intros E. destruct (Z.le_gt_cases lo hi); [rewrite Z.mod_small in E; lia|].
  rewrite <- (Z.mod_unique (hi - lo) (2 ^ w) (-1) (hi - lo + 2 ^ w)) in E; lia.
Qed.

Lemma dist_eq lo hi k : 0 <= hi < 2 ^ w -> 0 <= k < 2 ^ w -> dist lo hi = k <-> hi = (lo + k) mod 2 ^ w.
Proof using Hw.
  intros Hh Hk. unfold dist. split.
  - intros <-. rewrite Zplus_mod_idemp_r. replace (lo + (hi - lo)) with hi by lia. by rewrite Z.mod_small.
  - intros ->. rewrite Zminus_mod_idemp_l. replace (lo + k - lo) with k by lia. by apply Z.mod_small.
Qed.
End distance.
