(* ===== verification/CString.v ===== *)
(** kernel/string.c.

    The [mem*] functions act on a flat byte memory, so that overlapping
    source and destination are visible; the [str*] functions act on character
    arrays, a pointer into an array being the list of the characters from that
    position on ([*p] is [chr p], [p++] is [tl p], and reading at the end of
    the list gives the terminating NUL). *)

From S2P Require Import Prelude Memory.

(** void* memset(void *dst, int c, uint n) *)
Fixpoint memset_loop (k : nat) (i dst c : Z) (m : mem) : mem :=
  match k with
  | O => m
  | S k' => memset_loop k' (i + 1) dst c (mwr (dst + i) c m)
  end.
Definition memset (dst c n : Z) (m : mem) : mem := memset_loop (Z.to_nat n) 0 dst c m.

(** int memcmp(const void *v1, const void *v2, uint n) *)
Fixpoint memcmp_loop (n : nat) (s1 s2 : Z) (m : mem) : Z :=
  match n with
  | O => 0
  | S n' =>
      if negb (mrd m s1 =? mrd m s2) then mrd m s1 - mrd m s2
      else memcmp_loop n' (s1 + 1) (s2 + 1) m
  end.
Definition memcmp (v1 v2 n : Z) (m : mem) : Z := memcmp_loop (Z.to_nat n) v1 v2 m.

(** The two copying loops of memmove: upwards from the first byte, downwards
    from one past the last byte. *)
Fixpoint copy_up (n : nat) (d s : Z) (m : mem) : mem :=
  match n with
  | O => m
  | S n' => copy_up n' (d + 1) (s + 1) (mwr d (mrd m s) m)
  end.
Fixpoint copy_down (n : nat) (d s : Z) (m : mem) : mem :=
  match n with
  | O => m
  | S n' => copy_down n' (d - 1) (s - 1) (mwr (d - 1) (mrd m (s - 1)) m)
  end.

(** void* memmove(void *dst, const void *src, uint n) *)
Definition memmove (dst src n : Z) (m : mem) : mem :=
  if n =? 0 then m
  else if (src <? dst) && (dst <? src + n)
  then copy_down (Z.to_nat n) (dst + n) (src + n) m
  else copy_up (Z.to_nat n) dst src m.

Definition memcpy (dst src n : Z) (m : mem) : mem := memmove dst src n m.

(** * Character arrays *)

Definition chr (p : list Z) : Z := hd 0 p.

(** int strncmp(const char *p, const char *q, uint n) *)
Fixpoint strncmp (p q : list Z) (n : nat) : Z :=
  match n with
  | O => 0
  | S n' =>
      if negb (chr p =? 0) && (chr p =? chr q) then strncmp (tl p) (tl q) n'
      else u8 (chr p) - u8 (chr q)
  end.

(** char* strncpy(char *s, const char *t, int n): the [n] bytes it stores. *)
Fixpoint strncpy_bytes (t : list Z) (n : nat) : list Z :=
  match n with
  | O => []
  | S n' =>
      chr t :: (if negb (chr t =? 0) then strncpy_bytes (tl t) n' else replicate n' 0)
  end.
Definition strncpy (s t : list Z) (n : Z) : list Z :=
  splice 0 (strncpy_bytes t (Z.to_nat n)) s.

(** char* safestrcpy(char *s, const char *t, int n): the bytes it stores;
    [k] is the [n - 1] bytes that may precede the final NUL. *)
Fixpoint safestrcpy_bytes (t : list Z) (k : nat) : list Z :=
  match k with
  | O => [0]
  | S k' => if chr t =? 0 then [0; 0] else chr t :: safestrcpy_bytes (tl t) k'
  end.
Definition safestrcpy (s t : list Z) (n : Z) : list Z :=
  if n <=? 0 then s else splice 0 (safestrcpy_bytes t (Z.to_nat (n - 1))) s.

(** int strlen(const char *s) *)
Fixpoint strlen_nat (s : list Z) : nat :=
  match s with
  | [] => O
  | c :: s' => if c =? 0 then O else S (strlen_nat s')
  end.
Definition strlen (s : list Z) : Z := Z.of_nat (strlen_nat s).

(** * Theorems *)

Lemma memset_loop_spec k : forall i dst c m a,
  mrd (memset_loop k i dst c m) a =
  if decide (dst + i <= a < dst + i + Z.of_nat k) then u8 c else mrd m a.
Proof.
  induction k as [|k IH]; intros i dst c m a; simpl.
  - rewrite decide_False; [done|lia].
  - rewrite IH, mrd_mwr. repeat case_decide; try done; lia.
Qed.

Lemma memset_spec dst c n m a :
  0 <= n ->
  mrd (memset dst c n m) a = if decide (dst <= a < dst + n) then u8 c else mrd m a.
Proof.
  intros Hn. unfold memset. rewrite memset_loop_spec.
  rewrite Z2Nat.id by done. by replace (dst + 0) with dst by lia.
Qed.

(** The upward loop is a simultaneous copy when it never reads a byte it has
    already overwritten. *)
Lemma copy_up_spec n : forall d s m a,
  (d <= s \/ s + Z.of_nat n <= d) ->
  mrd (copy_up n d s m) a =
  if decide (d <= a < d + Z.of_nat n) then mrd m (a - d + s) else mrd m a.
Proof.
  induction n as [|n IH]; intros d s m a H; cbn [copy_up].
  - rewrite decide_False; [done|lia].
  - rewrite IH by lia. rewrite !mrd_mwr, ?u8_mrd.
    repeat case_decide; try lia; try done; f_equal; lia.
Qed.

Lemma copy_down_spec n : forall d s m a,
  s <= d ->
  mrd (copy_down n d s m) a =
  if decide (d - Z.of_nat n <= a < d) then mrd m (a - d + s) else mrd m a.
Proof.
  induction n as [|n IH]; intros d s m a H; cbn [copy_down].
  - rewrite decide_False; [done|lia].
  - rewrite IH by lia. rewrite !mrd_mwr, ?u8_mrd.
    repeat case_decide; try lia; try done; f_equal; lia.
Qed.

(** memmove copies the bytes the source range held before the call, whatever
    the overlap of the two ranges, and changes nothing else. *)
Lemma memmove_spec dst src n m a :
  0 <= n ->
  mrd (memmove dst src n m) a =
  if decide (dst <= a < dst + n) then mrd m (a - dst + src) else mrd m a.
Proof.
  intros Hn. unfold memmove.
  destruct (Z.eqb_spec n 0) as [->|Hz]; [rewrite decide_False; [done|lia]|].
  destruct ((src <? dst) && (dst <? src + n)) eqn:E.
  - apply andb_true_iff in E as [E1%Z.ltb_lt E2%Z.ltb_lt].
    rewrite copy_down_spec by lia. rewrite Z2Nat.id by lia.
    repeat case_decide; try lia; try done; f_equal; lia.
  - apply andb_false_iff in E. rewrite copy_up_spec by lia.
    rewrite Z2Nat.id by lia. repeat case_decide; try lia; done.
Qed.

(** The C string an array holds within its first [n] bytes. *)
Fixpoint cprefix (l : list Z) (n : nat) : list Z :=
  match n with
  | O => []
  | S n' => if chr l =? 0 then [] else chr l :: cprefix (tl l) n'
  end.

Definition is_char (c : Z) : Prop := 0 <= c < 256.

Lemma chr_range l : Forall is_char l -> is_char (chr l).
Proof. destruct 1; [unfold is_char; simpl; lia|done]. Qed.

Lemma Forall_tl {A} (P : A -> Prop) l : Forall P l -> Forall P (tl l).
Proof. by destruct 1. Qed.

(** strncmp returns 0 exactly when the two strings agree up to their NUL
    within the first [n] bytes. *)
Lemma strncmp_zero n : forall p q,
  Forall is_char p -> Forall is_char q ->
  strncmp p q n = 0 <-> cprefix p n = cprefix q n.
Proof.
  induction n as [|n IH]; intros p q Hp Hq; [done|]. cbn [strncmp cprefix].
  pose proof (chr_range p Hp) as Rp. pose proof (chr_range q Hq) as Rq.
  unfold is_char in *.
  destruct (Z.eqb_spec (chr p) 0) as [Ep|Ep]; simpl.
  - rewrite Ep. destruct (Z.eqb_spec (chr q) 0) as [Eq|Eq].
    + by rewrite Eq.
    + rewrite (u8_small (chr q)) by lia. change (u8 0) with 0. split; [lia|done].
  - destruct (Z.eqb_spec (chr p) (chr q)) as [Epq|Epq].
    + destruct (Z.eqb_spec (chr q) 0); [lia|].
      rewrite (IH (tl p) (tl q)) by (by apply Forall_tl).
      rewrite Epq. split; [by intros ->|by intros [= ->]].
    + rewrite !u8_small by lia. split; [lia|].
      destruct (Z.eqb_spec (chr q) 0); [done|]. intros [= ? _]. lia.
Qed.

Lemma length_strncpy_bytes t n : length (strncpy_bytes t n) = n.
Proof.
  revert t. induction n as [|n IH]; intros t; [done|]. simpl. f_equal.
  destruct (negb _); [apply IH|apply length_replicate].
Qed.

Lemma cprefix_replicate_0 k n : cprefix (replicate k 0) n = [].
Proof. destruct n, k; done. Qed.

(** Copying a name with strncpy preserves the string it denotes. *)
Lemma cprefix_strncpy_bytes n : forall t r,
  cprefix (strncpy_bytes t n ++ r) n = cprefix t n.
Proof.
  induction n as [|n IH]; intros t r; [done|].
  cbn [strncpy_bytes cprefix app chr hd tl].
  destruct (Z.eqb_spec (chr t) 0) as [E|E]; [done|]. f_equal. apply IH.
Qed.

(** safestrcpy stores a NUL-terminated prefix of its source and nothing past
    [n] bytes. *)
Lemma safestrcpy_bytes_spec k : forall t,
  exists z, safestrcpy_bytes t k = cprefix t k ++ z /\
    (z = [0] \/ z = [0; 0]) /\ (length (safestrcpy_bytes t k) <= S k)%nat.
Proof.
  induction k as [|k IH]; intros t; simpl.
  - exists [0]. naive_solver.
  - destruct (Z.eqb_spec (chr t) 0) as [E|E].
    + exists [0; 0]. simpl. split; [done|]. split; [by right|lia].
    + destruct (IH (tl t)) as (z & -> & Hz & Hl). exists z.
      split; [done|]. split; [done|]. simpl. lia.
Qed.

Lemma strlen_nat_spec s :
  (forall i, (i < strlen_nat s)%nat -> exists c, s !! i = Some c /\ c <> 0) /\
  chr (drop (strlen_nat s) s) = 0.
Proof.
  induction s as [|c s [IH1 IH2]]; simpl; [split; [lia|done]|].
  destruct (Z.eqb_spec c 0) as [->|Hc]; simpl; [split; [lia|done]|].
  split; [|done]. intros [|i] Hi; simpl; [eauto|]. apply IH1. lia.
Qed.

#[global] Arguments memset : simpl never.
#[global] Arguments memmove : simpl never.
#[global] Arguments memcmp : simpl never.
Strategy 1000 [memset memmove memcmp].
