(* ===== verification/Spinlock.v ===== *)
(** kernel/spinlock.c on several CPUs.

    [initlock], [holding], [push_off], [pop_off] and the three atomic pieces
    of [acquire] and of [release] are functions on the memory the code
    touches: the lock words, and each CPU's [noff], [intena] and interrupt
    enable bit.  [step] interleaves them over all CPUs, one memory access of
    the lock protocol at a time, and the theorems are about every state that
    can be reached: a lock has at most one owner, interrupts are off on a CPU
    that owns a lock or is acquiring one, and the panics of the file are not
    reached by code that only releases what it acquired. *)

From stdpp Require Import functions.
From S2P Require Import Prelude.

(** struct spinlock; a null [cpu] pointer is [None]. *)
Record spinlock := mkSpinlock { locked : Z; lname : string; lcpu : option nat }.

(** The lock-related part of struct cpu, and the SIE bit of sstatus. *)
Record cpu := mkCpu { noff : Z; intena : bool; sie : bool }.

Definition initlock (name : string) : spinlock := mkSpinlock 0 name None.

(** int holding(struct spinlock *lk), on CPU [me] *)
Definition holding (me : nat) (lk : spinlock) : bool :=
  negb (locked lk =? 0) && bool_decide (lcpu lk = Some me).

(** void push_off(void) *)
Definition push_off (c : cpu) : cpu :=
  let old := sie c in
  let c1 := if noff c =? 0 then mkCpu (noff c) old false else c in
  mkCpu (noff c1 + 1) (intena c1) (sie c1).

(** void pop_off(void); the error is the panic message. *)
Definition pop_off (c : cpu) : string + cpu :=
  if sie c then inl "pop_off - interruptible"%string
  else if noff c <? 1 then inl "pop_off"%string
  else
    let n := noff c - 1 in
    inr (mkCpu n (intena c) (if (n =? 0) && intena c then true else sie c)).

(** acquire: [push_off] and the [holding] check ... *)
Definition acquire_enter (me : nat) (lk : spinlock) (c : cpu) : string + cpu :=
  let c' := push_off c in
  if holding me lk then inl "acquire"%string else inr c'.

(** ... one round of the test-and-set loop: the old value and the new lock ... *)
Definition acquire_swap (lk : spinlock) : Z * spinlock :=
  (locked lk, mkSpinlock 1 (lname lk) (lcpu lk)).

(** ... and recording the owner. *)
Definition acquire_record (me : nat) (lk : spinlock) : spinlock :=
  mkSpinlock (locked lk) (lname lk) (Some me).

(** release: the check and clearing the owner; storing 0; [pop_off]. *)
Definition release_enter (me : nat) (lk : spinlock) : string + spinlock :=
  if negb (holding me lk) then inl "release"%string
  else inr (mkSpinlock (locked lk) (lname lk) None).
Definition release_store (lk : spinlock) : spinlock :=
  mkSpinlock 0 (lname lk) (lcpu lk).

(** A whole uncontended [acquire], and a whole [release]; [None] is the
    spinning case. *)
Definition acquire (me : nat) (lk : spinlock) (c : cpu) : option (string + cpu * spinlock) :=
  match acquire_enter me lk c with
  | inl e => Some (inl e)
  | inr c' =>
      let '(old, lk') := acquire_swap lk in
      if negb (old =? 0) then None else Some (inr (c', acquire_record me lk'))
  end.
Definition release (me : nat) (lk : spinlock) (c : cpu) : string + cpu * spinlock :=
  match release_enter me lk with
  | inl e => inl e
  | inr lk' =>
      match pop_off c with
      | inl e => inl e
      | inr c' => inr (c', release_store lk')
      end
  end.

(** * Interleaving the CPUs *)

(** Where a CPU is inside the lock code. *)
Inductive pc :=
| Run
| AcqSwap (l : nat)
| AcqRecord (l : nat)
| RelStore (l : nat)
| RelPop
| Panicked (msg : string).

(** [owned] lists the locks a CPU has acquired and not released, as the code
    that calls acquire and release sees it. *)
Record mach := mkMach {
  cpus : nat -> cpu;
  locks : nat -> spinlock;
  pcs : nat -> pc;
  owned : nat -> list nat;
}.

Definition set_cpu (i : nat) (c : cpu) (s : mach) : mach := mkMach (<[i:=c]> (cpus s)) (locks s) (pcs s) (owned s).
Definition set_lock (l : nat) (k : spinlock) (s : mach) : mach := mkMach (cpus s) (<[l:=k]> (locks s)) (pcs s) (owned s).
Definition set_pc (i : nat) (p : pc) (s : mach) : mach := mkMach (cpus s) (locks s) (<[i:=p]> (pcs s)) (owned s).
Definition set_owned (i : nat) (o : list nat) (s : mach) : mach := mkMach (cpus s) (locks s) (pcs s) (<[i:=o]> (owned s)).

Inductive step (s : mach) : mach -> Prop :=
| step_intr_on i :
    pcs s i = Run -> noff (cpus s i) = 0 ->
    step s (set_cpu i (mkCpu 0 (intena (cpus s i)) true) s)
| step_intr_off i :
    pcs s i = Run -> noff (cpus s i) = 0 ->
    step s (set_cpu i (mkCpu 0 (intena (cpus s i)) false) s)
| step_acq_enter i l c :
    pcs s i = Run -> acquire_enter i (locks s l) (cpus s i) = inr c ->
    step s (set_pc i (AcqSwap l) (set_cpu i c s))
| step_acq_panic i l e :
    pcs s i = Run -> acquire_enter i (locks s l) (cpus s i) = inl e ->
    step s (set_pc i (Panicked e) (set_cpu i (push_off (cpus s i)) s))
| step_acq_spin i l old lk :
    pcs s i = AcqSwap l -> acquire_swap (locks s l) = (old, lk) -> old <> 0 ->
    step s (set_lock l lk s)
| step_acq_swap i l lk :
    pcs s i = AcqSwap l -> acquire_swap (locks s l) = (0, lk) ->
    step s (set_pc i (AcqRecord l) (set_lock l lk s))
| step_acq_record i l :
    pcs s i = AcqRecord l ->
    step s (set_owned i (l :: owned s i)
             (set_pc i Run (set_lock l (acquire_record i (locks s l)) s)))
| step_rel_enter i l lk :
    pcs s i = Run -> release_enter i (locks s l) = inr lk ->
    step s (set_owned i (filter (.≠ l) (owned s i))
             (set_pc i (RelStore l) (set_lock l lk s)))
| step_rel_panic i l e :
    pcs s i = Run -> release_enter i (locks s l) = inl e ->
    step s (set_pc i (Panicked e) s)
| step_rel_store i l :
    pcs s i = RelStore l ->
    step s (set_pc i RelPop (set_lock l (release_store (locks s l)) s))
| step_rel_pop i c :
    pcs s i = RelPop -> pop_off (cpus s i) = inr c ->
    step s (set_pc i Run (set_cpu i c s))
| step_rel_pop_panic i e :
    pcs s i = RelPop -> pop_off (cpus s i) = inl e ->
    step s (set_pc i (Panicked e) s).

Definition init_mach (nm : nat -> string) (on : nat -> bool) : mach :=
  mkMach (fun i => mkCpu 0 false (on i)) (fun l => initlock (nm l))
    (fun _ => Run) (fun _ => []).

(** * The invariant *)

(** The number of [push_off]s a program counter has outstanding. *)
Definition pending (p : pc) : Z :=
  match p with AcqSwap _ | AcqRecord _ | RelStore _ | RelPop => 1 | _ => 0 end.

(** CPU [i] is between setting the lock word of [l] and owning it, or between
    disowning it and clearing the word. *)
Definition in_flight (s : mach) (i l : nat) : Prop :=
  pcs s i = AcqRecord l \/ pcs s i = RelStore l.

(** CPU [i] has set the lock word of [l] and not yet cleared it. *)
Definition has_word (s : mach) (i l : nat) : Prop := l ∈ owned s i \/ in_flight s i l.

Definition panicked (s : mach) (i : nat) : Prop := exists e, pcs s i = Panicked e.

Record cpu_inv (s : mach) : Prop := {
  inv_noff i : ~ panicked s i ->
    noff (cpus s i) = Z.of_nat (length (owned s i)) + pending (pcs s i);
  inv_sie i : 0 < noff (cpus s i) -> sie (cpus s i) = false;
}.

Record lock_inv (s : mach) : Prop := {
  inv_nodup i : NoDup (owned s i);
  inv_owner i l : lcpu (locks s l) = Some i <-> l ∈ owned s i;
  inv_word i l : has_word s i l -> locked (locks s l) = 1;
  inv_excl i j l : has_word s i l -> has_word s j l -> i = j;
  inv_flight i l : in_flight s i l -> l ∉ owned s i;
}.

(** * Invariance *)

Ltac upd :=
  repeat first
  [ progress rewrite ?fn_lookup_insert in *
  | rewrite fn_lookup_insert_ne in * by done
  | match goal with
    | H : context [<[?i:=?x]> ?f ?j] |- _ =>
        rewrite (fn_lookup_insert_ne f i j) in H by done
    | H : context [<[?i:=?x]> ?f ?j] |- _ => destruct (decide (i = j)) as [<-|]
    | |- context [<[?i:=?x]> ?f ?j] => destruct (decide (i = j)) as [<-|]
    end ]; simpl in *.

Lemma holding_true i lk : holding i lk = true <-> locked lk <> 0 /\ lcpu lk = Some i.
Proof. unfold holding. rewrite andb_true_iff, negb_true_iff, Z.eqb_neq, bool_decide_eq_true. done. Qed.

(** In a state of the protocol, [holding] answers for the ownership the
    callers believe in. *)
Lemma holding_owned s i l : lock_inv s -> holding i (locks s l) = true <-> l ∈ owned s i.
Proof.
  intros I. rewrite holding_true, (inv_owner _ I). split; [by intros [_ ?]|].
  intros H. split; [|done]. rewrite (inv_word _ I i l); [done|by left].
Qed.

Lemma acquire_enter_inr i lk c c' :
  acquire_enter i lk c = inr c' -> c' = push_off c /\ holding i lk = false.
Proof. unfold acquire_enter. destruct (holding i lk); naive_solver. Qed.

Lemma release_enter_inr i lk lk' :
  release_enter i lk = inr lk' ->
  holding i lk = true /\ lk' = mkSpinlock (locked lk) (lname lk) None.
Proof. unfold release_enter. destruct (holding i lk); naive_solver. Qed.

Lemma push_off_noff c : noff (push_off c) = noff c + 1.
Proof. unfold push_off. by destruct (noff c =? 0). Qed.

Lemma push_off_sie c : (0 < noff c -> sie c = false) -> 0 <= noff c -> sie (push_off c) = false.
Proof. unfold push_off. destruct (Z.eqb_spec (noff c) 0); [done|]. simpl. intros H ?. apply H. lia. Qed.

Lemma pop_off_inr c c' :
  pop_off c = inr c' ->
  noff c' = noff c - 1 /\ (0 < noff c' -> sie c' = false).
Proof.
  unfold pop_off. destruct (sie c) eqn:E; [done|]. destruct (Z.ltb_spec (noff c) 1); [done|].
  intros [= <-]. simpl. split; [done|].
  destruct (Z.eqb_spec (noff c - 1) 0); simpl; [lia|done].
Qed.

(** Steps that move no CPU into or out of a lock word keep the lock part. *)
Lemma lock_inv_frame s s' :
  lock_inv s ->
  (forall l, lcpu (locks s' l) = lcpu (locks s l)) ->
  (forall l, locked (locks s l) = 1 -> locked (locks s' l) = 1) ->
  owned s' = owned s -> (forall i l, in_flight s' i l <-> in_flight s i l) ->
  lock_inv s'.
Proof.
  intros [I1 I2 I3 I4 I5] Hc Hl Ho Hf.
  split; unfold has_word in *; rewrite Ho; intros *; rewrite ?Hc, ?Hf; eauto.
Qed.

(** A change of program counter that stays outside the lock words. *)
Lemma in_flight_set_pc s i p j l :
  (forall k, pcs s i <> AcqRecord k /\ pcs s i <> RelStore k) ->
  (forall k, p <> AcqRecord k /\ p <> RelStore k) ->
  <[i:=p]> (pcs s) j = AcqRecord l \/ <[i:=p]> (pcs s) j = RelStore l <->
  in_flight s j l.
Proof. intros H H'. unfold in_flight. specialize (H l). specialize (H' l). upd; naive_solver. Qed.

Lemma acq_swap_lock_inv s i l lk :
  lock_inv s -> pcs s i = AcqSwap l -> acquire_swap (locks s l) = (0, lk) ->
  lock_inv (set_pc i (AcqRecord l) (set_lock l lk s)).
Proof.
  intros I Hp [= H0 <-].
  assert (Hno : forall j, ~ has_word s j l) by (intros j Hw; apply (inv_word _ I) in Hw; lia).
  destruct I as [I1 I2 I3 I4 I5].
  split; unfold has_word, in_flight in *; simpl.
  - done.
  - intros j k. rewrite <- I2. by upd.
  - intros j k. upd; naive_solver.
  - intros j j' k. upd; naive_solver.
  - intros j k. upd; naive_solver.
Qed.

(** Recording the owner and clearing it again move a lock between [owned] and
    [in_flight] without touching the lock words. *)
Lemma has_word_acq_record s i l j k :
  pcs s i = AcqRecord l ->
  has_word (set_owned i (l :: owned s i)
             (set_pc i Run (set_lock l (acquire_record i (locks s l)) s))) j k <->
  has_word s j k.
Proof.
  intros Hp. unfold has_word, in_flight; simpl. upd; [|done].
  rewrite elem_of_cons, Hp. naive_solver.
Qed.

Lemma has_word_rel_enter s i l lk j k :
  pcs s i = Run -> l ∈ owned s i ->
  has_word (set_owned i (filter (.≠ l) (owned s i))
             (set_pc i (RelStore l) (set_lock l lk s))) j k <->
  has_word s j k.
Proof.
  intros Hp Ho. unfold has_word, in_flight; simpl. upd; [|done].
  rewrite list_elem_of_filter, Hp. destruct (decide (k = l)); naive_solver.
Qed.

Lemma acq_record_lock_inv s i l :
  lock_inv s -> pcs s i = AcqRecord l ->
  lock_inv (set_owned i (l :: owned s i)
             (set_pc i Run (set_lock l (acquire_record i (locks s l)) s))).
Proof.
  intros [I1 I2 I3 I4 I5] Hp.
  assert (Hf : in_flight s i l) by (by left).
  assert (Hx : forall j, l ∈ owned s j -> i = j).
  { intros j Hj. apply (I4 _ _ l); [by right|by left]. }
  split; intros *; rewrite ?has_word_acq_record by done; [| |intros Hw%I3|by apply I4|].
  - simpl. upd; [|done]. apply NoDup_cons. eauto.
  - simpl. upd; rewrite ?elem_of_cons; naive_solver.
  - simpl. by upd.
  - unfold in_flight. simpl. upd; [by intros []|apply I5].
Qed.

Lemma rel_enter_lock_inv s i l lk :
  lock_inv s -> pcs s i = Run -> release_enter i (locks s l) = inr lk ->
  lock_inv (set_owned i (filter (.≠ l) (owned s i))
             (set_pc i (RelStore l) (set_lock l lk s))).
Proof.
  intros I Hp [Hh ->]%release_enter_inr. apply holding_owned in Hh; [|done].
  destruct I as [I1 I2 I3 I4 I5].
  split; intros *; rewrite ?has_word_rel_enter by done; [| |intros Hw%I3|by apply I4|].
  - simpl. upd; [by apply NoDup_filter|done].
  - pose proof (I2 i l) as Hi. simpl. upd; rewrite ?list_elem_of_filter.
    + naive_solver.
    + split; [done|]. intros Hj%I2. naive_solver.
    + rewrite I2. naive_solver.
    + apply I2.
  - simpl. by upd.
  - unfold in_flight. simpl. upd; [|apply I5].
    rewrite list_elem_of_filter. intros [|[= <-]]; [done|naive_solver].
Qed.

Lemma rel_store_lock_inv s i l :
  lock_inv s -> pcs s i = RelStore l ->
  lock_inv (set_pc i RelPop (set_lock l (release_store (locks s l)) s)).
Proof.
  intros [I1 I2 I3 I4 I5] Hp.
  assert (Hf : in_flight s i l) by (by right).
  assert (Hno : forall j, has_word s j l -> i = j) by (intros j; apply I4; by right).
  assert (Hw : forall j k,
    has_word (set_pc i RelPop (set_lock l (release_store (locks s l)) s)) j k ->
    has_word s j k /\ k <> l).
  { intros j k. unfold has_word, in_flight; simpl. upd.
    - intros [H|[|]]; [|done|done]. split; [by left|]. intros ->. by apply (I5 i l).
    - intros H. split; [done|]. intros ->. by apply Hno in H. }
  split; intros *.
  - apply I1.
  - simpl. rewrite <- I2. by upd.
  - intros [H Hne]%Hw. simpl. upd. by apply (I3 i0).
  - intros [H1 _]%Hw [H2 _]%Hw. by apply (I4 _ _ l0).
  - unfold in_flight. simpl. upd; [by intros []|apply I5].
Qed.

(** The protocol-neutral moves of a program counter. *)
Definition quiet (p : pc) : Prop :=
  match p with AcqRecord _ | RelStore _ => False | _ => True end.

Lemma quiet_set_pc s i p c :
  lock_inv s -> quiet (pcs s i) -> quiet p -> lock_inv (set_pc i p (set_cpu i c s)).
Proof.
  intros I Hq Hp. apply (lock_inv_frame s); try done. intros j l. unfold in_flight. simpl.
  upd; [|done]. destruct (pcs s i), p; naive_solver.
Qed.

Lemma set_cpu_id s i p : lock_inv (set_pc i p (set_cpu i (cpus s i) s)) -> lock_inv (set_pc i p s).
Proof. intros I. by apply (lock_inv_frame _ _ I). Qed.

Lemma step_lock_inv s s' : lock_inv s -> step s s' -> lock_inv s'.
Proof.
  intros I [i Hp|i Hp|i l c Hp|i l e Hp|i l old lk Hp E Hn|i l lk Hp|i l Hp|i l lk Hp|
            i l e Hp|i l Hp|i c Hp|i e Hp].
  - by apply (lock_inv_frame s).
  - by apply (lock_inv_frame s).
  - by apply quiet_set_pc; rewrite ?Hp.
  - by apply quiet_set_pc; rewrite ?Hp.
  - injection E as <- <-. apply (lock_inv_frame s); try done; simpl; intros; by upd.
  - by apply acq_swap_lock_inv.
  - by apply acq_record_lock_inv.
  - by apply rel_enter_lock_inv.
  - by apply set_cpu_id, quiet_set_pc; rewrite ?Hp.
  - by apply rel_store_lock_inv.
  - by apply quiet_set_pc; rewrite ?Hp.
  - by apply set_cpu_id, quiet_set_pc; rewrite ?Hp.
Qed.

Lemma init_lock_inv nm on : lock_inv (init_mach nm on).
Proof.
  split; unfold has_word, in_flight; simpl; try set_solver; [constructor|naive_solver..].
Qed.

(** * The CPU part *)

Lemma filter_ne_id (l : list nat) x : x ∉ l -> filter (.≠ x) l = l.
Proof.
  induction l as [|y l IH]; intros Hx; [done|].
  rewrite filter_cons_True by set_solver. f_equal. apply IH. set_solver.
Qed.

Lemma length_filter_ne (l : list nat) x :
  NoDup l -> x ∈ l -> S (length (filter (.≠ x) l)) = length l.
Proof.
  intros Hn. induction Hn as [|y l Hy Hn IH]; intros Hx; [set_solver|].
  destruct (decide (y = x)) as [->|Hne].
  - rewrite filter_cons_False by naive_solver. by rewrite filter_ne_id.
  - rewrite filter_cons_True by done. simpl. f_equal. apply IH. set_solver.
Qed.

Lemma not_panicked s i p : pcs s i = p -> (forall e, p <> Panicked e) -> ~ panicked s i.
Proof. intros <- H [e He]. by apply (H e). Qed.

Lemma step_cpu_inv s s' : lock_inv s -> cpu_inv s -> step s s' -> cpu_inv s'.
Proof.
  intros L [I1 I2] Hs.
  destruct Hs as [i Hp Hn|i Hp Hn|i l c Hp E|i l e Hp E|i l old lk Hp E Hn|i l lk Hp E|i l Hp|
            i l lk Hp E|i l e Hp E|i l Hp|i c Hp E|i e Hp E];
    pose proof (I1 i (not_panicked s i _ Hp ltac:(done))) as Hi; rewrite Hp in Hi;
    split; unfold panicked in *; simpl; intros j; upd; eauto;
    try solve [intros; lia]; try solve [intros Hx; exfalso; apply Hx; eauto].
  - intros _. rewrite Hp. simpl in *. lia.
  - intros _. rewrite Hp. simpl in *. lia.
  - intros _. apply acquire_enter_inr in E as [-> _]. rewrite push_off_noff. simpl in *. lia.
  - apply acquire_enter_inr in E as [-> _]. intros _.
    apply push_off_sie; [apply I2|]. simpl in Hi. lia.
  - intros _. apply push_off_sie; [apply I2|]. simpl in Hi. lia.
  - intros _. apply release_enter_inr in E as [Hh _]. apply holding_owned in Hh; [|done].
    pose proof (length_filter_ne _ _ (inv_nodup _ L i) Hh). simpl in *. lia.
  - intros _. apply pop_off_inr in E as [-> _]. simpl in *. lia.
  - by apply pop_off_inr in E as [_ ?].
Qed.

Lemma init_cpu_inv nm on : cpu_inv (init_mach nm on).
Proof. split; simpl; [done|lia]. Qed.

Lemma reach_inv nm on s : rtc step (init_mach nm on) s -> cpu_inv s /\ lock_inv s.
Proof.
  intros H. remember (init_mach nm on) as s0 eqn:E.
  assert (H0 : cpu_inv s0 /\ lock_inv s0)
    by (subst; split; [apply init_cpu_inv|apply init_lock_inv]).
  clear E. induction H as [|s1 s2 s3 Hs _ IH]; [done|]. destruct H0 as [Hc Hl].
  apply IH. split; [by eapply step_cpu_inv|by eapply step_lock_inv].
Qed.

(** * Theorems *)

(** One CPU acquires lock 0 on a machine started with interrupts on. *)
Definition demo_owner : mach :=
  let s0 := init_mach (fun _ => "lk"%string) (fun _ => true) in
  let s1 := set_pc 0 (AcqSwap 0) (set_cpu 0 (push_off (cpus s0 0)) s0) in
  let s2 := set_pc 0 (AcqRecord 0) (set_lock 0 (mkSpinlock 1 "lk"%string None) s1) in
  set_owned 0 (0%nat :: owned s2 0%nat) (set_pc 0 Run (set_lock 0 (acquire_record 0 (locks s2 0)) s2)).

Lemma demo_owner_reach : rtc step (init_mach (fun _ => "lk"%string) (fun _ => true)) demo_owner.
Proof.
  eapply rtc_l; [by apply (step_acq_enter _ 0 0 (mkCpu 1 true false))|].
  eapply rtc_l; [by eapply (step_acq_swap _ 0 0)|].
  eapply rtc_l; [by apply (step_acq_record _ 0 0)|]. apply rtc_refl.
Qed.

(** C4: mutual exclusion.  In every state the CPUs can reach, in any
    interleaving of their memory accesses, a lock is owned by at most one CPU;
    its word is then 1, [holding] is true on that CPU and on no other, and
    interrupts are off on the owner. *)
Theorem mutual_exclusion nm on s i j l :
  rtc step (init_mach nm on) s ->
  l ∈ owned s i ->
  (l ∈ owned s j -> i = j) /\ locked (locks s l) = 1 /\
  (holding j (locks s l) = true <-> i = j) /\
  (~ panicked s i -> sie (cpus s i) = false).
Proof.
  intros [C L]%reach_inv Hi.
  assert (Hx : l ∈ owned s j -> i = j).
  { intros Hj. apply (inv_excl _ L _ _ l); by left. }
  split; [done|]. split; [apply (inv_word _ L i); by left|]. split.
  - rewrite holding_owned by done. naive_solver.
  - intros Hp. apply (inv_sie _ C). rewrite (inv_noff _ C) by done.
    destruct (owned s i); [set_solver|]. simpl. destruct (pcs s i); simpl; lia.
Qed.

Lemma mutual_exclusion_witness :
  0%nat ∈ owned demo_owner 0 /\
  (0%nat ∈ owned demo_owner 1 -> 0%nat = 1%nat) /\ locked (locks demo_owner 0) = 1 /\
  (holding 1 (locks demo_owner 0) = true <-> 0%nat = 1%nat) /\
  (~ panicked demo_owner 0 -> sie (cpus demo_owner 0) = false).
Proof.
  assert (H : 0%nat ∈ owned demo_owner 0) by (by left).
  split; [exact H|]. exact (mutual_exclusion _ _ demo_owner 0 1 0 demo_owner_reach H).
Defined.

(** The panics are exact.  In every reachable state acquire panics exactly
    when the CPU already owns the lock, release exactly when it does not, and
    the pop_off at the end of release never panics. *)
Theorem panics_exact nm on s i l :
  rtc step (init_mach nm on) s ->
  (pcs s i = Run ->
    ((exists e, acquire_enter i (locks s l) (cpus s i) = inl e) <-> l ∈ owned s i) /\
    ((exists e, release_enter i (locks s l) = inl e) <-> l ∉ owned s i)) /\
  (pcs s i = RelPop -> exists c, pop_off (cpus s i) = inr c).
Proof.
  intros [C L]%reach_inv. split.
  - intros Hp. unfold acquire_enter, release_enter.
    rewrite <- (holding_owned s i l L). destruct (holding i (locks s l)); naive_solver.
  - intros Hp. pose proof (inv_noff _ C i (not_panicked _ _ _ Hp ltac:(done))) as Hn.
    rewrite Hp in Hn. simpl in Hn. pose proof (inv_sie _ C i ltac:(lia)) as Hs.
    unfold pop_off. rewrite Hs. destruct (Z.ltb_spec (noff (cpus s i)) 1); [lia|eauto].
Qed.

Fixpoint push_off_n (n : nat) (c : cpu) : cpu :=
  match n with O => c | S n' => push_off (push_off_n n' c) end.

Fixpoint pop_off_n (n : nat) (c : cpu) : string + cpu :=
  match n with
  | O => inr c
  | S n' => match pop_off c with inl e => inl e | inr c' => pop_off_n n' c' end
  end.

Lemma pop_push c :
  0 <= noff c -> (0 < noff c -> sie c = false) ->
  exists c', pop_off (push_off c) = inr c' /\ noff c' = noff c /\ sie c' = sie c /\
    (0 < noff c -> c' = c).
Proof.
  intros H0 Hs. unfold push_off, pop_off.
  destruct (Z.eqb_spec (noff c) 0) as [E|E]; simpl.
  - rewrite E. simpl. eexists. split; [done|]. simpl. destruct (sie c); naive_solver lia.
  - rewrite Hs by lia. destruct (Z.ltb_spec (noff c + 1) 1); [lia|].
    eexists. split; [done|]. rewrite Z.add_simpl_r.
    destruct (Z.eqb_spec (noff c) 0); [done|]. simpl.
    split; [done|]. split; [done|]. intros _. destruct c; simpl in *. f_equal. by rewrite Hs by lia.
Qed.

Lemma panics_exact_witness :
  (pcs demo_owner 0 = Run ->
    ((exists e, acquire_enter 0 (locks demo_owner 0) (cpus demo_owner 0) = inl e) <-> 0%nat ∈ owned demo_owner 0) /\
    ((exists e, release_enter 0 (locks demo_owner 0) = inl e) <-> 0%nat ∉ owned demo_owner 0)) /\
  (pcs demo_owner 0 = RelPop -> exists c, pop_off (cpus demo_owner 0) = inr c).
Proof. exact (panics_exact _ _ demo_owner 0 0 demo_owner_reach). Defined.

(** push_off and pop_off nest.  After [n] push_offs, interrupts are off;
    [n] pop_offs then succeed and restore the nesting count and the interrupt
    state the CPU started with. *)
Theorem push_pop_balanced n c :
  0 <= noff c -> (0 < noff c -> sie c = false) ->
  exists c', pop_off_n n (push_off_n n c) = inr c' /\
    noff c' = noff c /\ sie c' = sie c /\
    (0 < Z.of_nat n -> sie (push_off_n n c) = false).
Proof.
  intros H0 Hs. induction n as [|n IH]; [simpl; eauto with lia|].
  destruct IH as (c1 & E1 & En & Es & _).
  assert (Hk : forall k, noff (push_off_n k c) = noff c + Z.of_nat k).
  { induction k as [|k IHk]; [simpl; lia|]. cbn [push_off_n]. rewrite push_off_noff, IHk. lia. }
  assert (Hq : forall k, (0 < noff (push_off_n k c)) -> sie (push_off_n k c) = false).
  { induction k as [|k IHk]; [done|]. intros _. cbn [push_off_n]. apply push_off_sie; [done|].
    rewrite Hk. lia. }
  destruct (pop_push (push_off_n n c)) as (c2 & E2 & En2 & Es2 & Eq); [rewrite Hk; lia|apply Hq|].
  cbn [push_off_n pop_off_n]. rewrite E2.
  destruct (decide (n = O)) as [->|Hn].
  - cbn [push_off_n pop_off_n] in *. exists c2. split; [done|]. split; [done|]. split; [done|].
    intros _. apply push_off_sie; [done|lia].
  - rewrite Eq by (rewrite Hk; lia). exists c1. repeat split; [done..|].
    intros _. apply push_off_sie; [apply Hq|rewrite Hk; lia].
Qed.

Lemma push_pop_balanced_witness :
  exists c', pop_off_n 3 (push_off_n 3 (mkCpu 0 false true)) = inr c' /\
    noff c' = 0 /\ sie c' = true /\ (0 < Z.of_nat 3 -> sie (push_off_n 3 (mkCpu 0 false true)) = false).
Proof. apply (push_pop_balanced 3 (mkCpu 0 false true)); simpl; lia. Defined.
