(* ===== verification/State.v ===== *)
(** The kernel's state and the monad its functions run in.

    The structs of the kernel headers become records, the global variables
    and tables the fields of one record [kst].  A C function becomes a
    function in the monad [K], which threads that state and can end in one of
    the ways a kernel thread can: it returns, it panics, it is put to sleep
    and not run again, the machine loses power during a disk write, or it does
    something C gives no meaning to.

    Spinlocks appear as the list of locks the running CPU holds; Spinlock.v
    shows that spinlock.c implements this view, with [acquire] panicking
    exactly on a lock that is held already and [release] exactly on one that
    is not.  While a thread sleeps in [sched] other threads run: what they do
    to the state is one function of a list the thread is given, so that a
    theorem about a function that sleeps is a theorem about every behaviour of
    the other threads. *)

From S2P Require Import Prelude Riscv Memory.

(** * Record updates *)

Class Setter {R T} (proj : R -> T) := fset : (T -> T) -> R -> R.
Arguments fset {R T} proj {_} _ _.
#[warnings="-postfix-notation-not-level-1"]
Notation "x <| proj ::= f |>" := (fset proj f x)
  (at level 12, f at level 200, left associativity).
#[warnings="-postfix-notation-not-level-1"]
Notation "x <| proj := v |>" := (fset proj (fun _ => v) x)
  (at level 12, v at level 200, left associativity).

(** * fs.h *)

Definition ROOTINO : Z := 1.
Definition BSIZE : Z := 1024.
Definition FSMAGIC : Z := 0x10203040.
Definition NDIRECT : Z := 12.
Definition NINDIRECT : Z := BSIZE / 4.
Definition MAXFILE : Z := NDIRECT + NINDIRECT.
Definition IPB : Z := BSIZE / 64.
Definition BPB : Z := BSIZE * 8.
Definition DIRSIZ : Z := 14.

(** * stat.h, fcntl.h *)

Definition T_DIR : Z := 1.
Definition T_FILE : Z := 2.
Definition T_DEVICE : Z := 3.

Definition O_RDONLY : Z := 0x000.
Definition O_WRONLY : Z := 0x001.
Definition O_RDWR : Z := 0x002.
Definition O_CREATE : Z := 0x200.
Definition O_TRUNC : Z := 0x400.

(** A disk block is a list of BSIZE bytes; the disk maps block numbers to
    blocks and is zero where it was never written. *)
Abbreviation block := (list Z).
Abbreviation disk := (gmap Z (list Z)).
Definition zero_block : block := replicate (Z.to_nat BSIZE) 0.
Definition dread (d : disk) (n : Z) : block := default zero_block (d !! n).

(** * Locks and wait channels *)

(** The address of a lock: the global spinlocks, and the spinlock inside each
    process, sleeplock and pipe. *)
Inductive slid := SBuf (i : nat) | SInode (i : nat).
Inductive lockid :=
| LKmem | LPid | LWait | LBcache | LLog | LItable | LFtable | LTicks | LVdisk | LCons | LUart | LPr
| LProc (i : nat) | LSleep (s : slid) | LPipe (pa : Z).
#[export] Instance slid_eq_dec : EqDecision slid.
Proof. solve_decision. Defined.
#[export] Instance lockid_eq_dec : EqDecision lockid.
Proof. solve_decision. Defined.

(** The address a thread sleeps on. *)
Inductive chan :=
| ChProc (i : nat) | ChTicks | ChLog | ChSleep (s : slid) | ChPipeR (pa : Z) | ChPipeW (pa : Z)
| ChBuf (b : nat) | ChDiskFree | ChCons | ChUart.
#[export] Instance chan_eq_dec : EqDecision chan.
Proof. solve_decision. Defined.

(** What the address in a descriptor of the disk's queue points to: a request
    header in disk.ops, the data of a buffer, a status byte in disk.info. *)
Inductive daddr := DNull | DOp (i : nat) | DData (b : nat) | DStatus (i : nat).

(** * Structs *)

(** struct sleeplock (sleeplock.h); its inner spinlock is the lock id [LSleep]. *)
Record sleeplock := mkSleeplock {
  sl_locked : Z;
  sl_pid : Z;
}.
#[export] Instance set_sl_locked : Setter sl_locked := fun g x =>
  mkSleeplock (g (sl_locked x)) (sl_pid x).
#[export] Instance set_sl_pid : Setter sl_pid := fun g x =>
  mkSleeplock (sl_locked x) (g (sl_pid x)).

(** struct buf (buf.h); [b_prev] and [b_next] are indices into [bcache.buf],
    the index NBUF standing for [bcache.head]. *)
Record buf := mkBuf {
  b_valid : Z;
  b_disk : Z;
  b_dev : Z;
  b_blockno : Z;
  b_lock : sleeplock;
  b_refcnt : Z;
  b_prev : nat;
  b_next : nat;
  b_data : list Z;
}.
#[export] Instance set_b_valid : Setter b_valid := fun g x =>
  mkBuf (g (b_valid x)) (b_disk x) (b_dev x) (b_blockno x) (b_lock x) (b_refcnt x) (b_prev x) (b_next x) (b_data x).
#[export] Instance set_b_disk : Setter b_disk := fun g x =>
  mkBuf (b_valid x) (g (b_disk x)) (b_dev x) (b_blockno x) (b_lock x) (b_refcnt x) (b_prev x) (b_next x) (b_data x).
#[export] Instance set_b_dev : Setter b_dev := fun g x =>
  mkBuf (b_valid x) (b_disk x) (g (b_dev x)) (b_blockno x) (b_lock x) (b_refcnt x) (b_prev x) (b_next x) (b_data x).
#[export] Instance set_b_blockno : Setter b_blockno := fun g x =>
  mkBuf (b_valid x) (b_disk x) (b_dev x) (g (b_blockno x)) (b_lock x) (b_refcnt x) (b_prev x) (b_next x) (b_data x).
#[export] Instance set_b_lock : Setter b_lock := fun g x =>
  mkBuf (b_valid x) (b_disk x) (b_dev x) (b_blockno x) (g (b_lock x)) (b_refcnt x) (b_prev x) (b_next x) (b_data x).
#[export] Instance set_b_refcnt : Setter b_refcnt := fun g x =>
  mkBuf (b_valid x) (b_disk x) (b_dev x) (b_blockno x) (b_lock x) (g (b_refcnt x)) (b_prev x) (b_next x) (b_data x).
#[export] Instance set_b_prev : Setter b_prev := fun g x =>
  mkBuf (b_valid x) (b_disk x) (b_dev x) (b_blockno x) (b_lock x) (b_refcnt x) (g (b_prev x)) (b_next x) (b_data x).
#[export] Instance set_b_next : Setter b_next := fun g x =>
  mkBuf (b_valid x) (b_disk x) (b_dev x) (b_blockno x) (b_lock x) (b_refcnt x) (b_prev x) (g (b_next x)) (b_data x).
#[export] Instance set_b_data : Setter b_data := fun g x =>
  mkBuf (b_valid x) (b_disk x) (b_dev x) (b_blockno x) (b_lock x) (b_refcnt x) (b_prev x) (b_next x) (g (b_data x)).

(** struct context (proc.h): ra, sp and the callee-saved s0..s11. *)
Record context := mkContext {
  c_ra : Z;
  c_sp : Z;
  c_s : list Z;
}.
#[export] Instance set_c_ra : Setter c_ra := fun g x =>
  mkContext (g (c_ra x)) (c_sp x) (c_s x).
#[export] Instance set_c_sp : Setter c_sp := fun g x =>
  mkContext (c_ra x) (g (c_sp x)) (c_s x).
#[export] Instance set_c_s : Setter c_s := fun g x =>
  mkContext (c_ra x) (c_sp x) (g (c_s x)).

(** enum procstate (proc.h) *)
Inductive procstate := UNUSED | USED | SLEEPING | RUNNABLE | RUNNING | ZOMBIE.
#[export] Instance procstate_eq_dec : EqDecision procstate.
Proof. solve_decision. Defined.

(** struct proc (proc.h); pointers to other processes, open files and inodes
    are indices into proc[], ftable.file[] and itable.inode[]. *)
Record proc := mkProc {
  p_state : procstate;
  p_chan : option chan;
  p_killed : Z;
  p_xstate : Z;
  p_pid : Z;
  p_parent : option nat;
  p_kstack : Z;
  p_sz : Z;
  p_pagetable : Z;
  p_trapframe : Z;
  p_context : context;
  p_ofile : list (option nat);
  p_cwd : option nat;
  p_name : list Z;
}.
#[export] Instance set_p_state : Setter p_state := fun g x =>
  mkProc (g (p_state x)) (p_chan x) (p_killed x) (p_xstate x) (p_pid x) (p_parent x) (p_kstack x) (p_sz x) (p_pagetable x) (p_trapframe x) (p_context x) (p_ofile x) (p_cwd x) (p_name x).
#[export] Instance set_p_chan : Setter p_chan := fun g x =>
  mkProc (p_state x) (g (p_chan x)) (p_killed x) (p_xstate x) (p_pid x) (p_parent x) (p_kstack x) (p_sz x) (p_pagetable x) (p_trapframe x) (p_context x) (p_ofile x) (p_cwd x) (p_name x).
#[export] Instance set_p_killed : Setter p_killed := fun g x =>
  mkProc (p_state x) (p_chan x) (g (p_killed x)) (p_xstate x) (p_pid x) (p_parent x) (p_kstack x) (p_sz x) (p_pagetable x) (p_trapframe x) (p_context x) (p_ofile x) (p_cwd x) (p_name x).
#[export] Instance set_p_xstate : Setter p_xstate := fun g x =>
  mkProc (p_state x) (p_chan x) (p_killed x) (g (p_xstate x)) (p_pid x) (p_parent x) (p_kstack x) (p_sz x) (p_pagetable x) (p_trapframe x) (p_context x) (p_ofile x) (p_cwd x) (p_name x).
#[export] Instance set_p_pid : Setter p_pid := fun g x =>
  mkProc (p_state x) (p_chan x) (p_killed x) (p_xstate x) (g (p_pid x)) (p_parent x) (p_kstack x) (p_sz x) (p_pagetable x) (p_trapframe x) (p_context x) (p_ofile x) (p_cwd x) (p_name x).
#[export] Instance set_p_parent : Setter p_parent := fun g x =>
  mkProc (p_state x) (p_chan x) (p_killed x) (p_xstate x) (p_pid x) (g (p_parent x)) (p_kstack x) (p_sz x) (p_pagetable x) (p_trapframe x) (p_context x) (p_ofile x) (p_cwd x) (p_name x).
#[export] Instance set_p_kstack : Setter p_kstack := fun g x =>
  mkProc (p_state x) (p_chan x) (p_killed x) (p_xstate x) (p_pid x) (p_parent x) (g (p_kstack x)) (p_sz x) (p_pagetable x) (p_trapframe x) (p_context x) (p_ofile x) (p_cwd x) (p_name x).
#[export] Instance set_p_sz : Setter p_sz := fun g x =>
  mkProc (p_state x) (p_chan x) (p_killed x) (p_xstate x) (p_pid x) (p_parent x) (p_kstack x) (g (p_sz x)) (p_pagetable x) (p_trapframe x) (p_context x) (p_ofile x) (p_cwd x) (p_name x).
#[export] Instance set_p_pagetable : Setter p_pagetable := fun g x =>
  mkProc (p_state x) (p_chan x) (p_killed x) (p_xstate x) (p_pid x) (p_parent x) (p_kstack x) (p_sz x) (g (p_pagetable x)) (p_trapframe x) (p_context x) (p_ofile x) (p_cwd x) (p_name x).
#[export] Instance set_p_trapframe : Setter p_trapframe := fun g x =>
  mkProc (p_state x) (p_chan x) (p_killed x) (p_xstate x) (p_pid x) (p_parent x) (p_kstack x) (p_sz x) (p_pagetable x) (g (p_trapframe x)) (p_context x) (p_ofile x) (p_cwd x) (p_name x).
#[export] Instance set_p_context : Setter p_context := fun g x =>
  mkProc (p_state x) (p_chan x) (p_killed x) (p_xstate x) (p_pid x) (p_parent x) (p_kstack x) (p_sz x) (p_pagetable x) (p_trapframe x) (g (p_context x)) (p_ofile x) (p_cwd x) (p_name x).
#[export] Instance set_p_ofile : Setter p_ofile := fun g x =>
  mkProc (p_state x) (p_chan x) (p_killed x) (p_xstate x) (p_pid x) (p_parent x) (p_kstack x) (p_sz x) (p_pagetable x) (p_trapframe x) (p_context x) (g (p_ofile x)) (p_cwd x) (p_name x).
#[export] Instance set_p_cwd : Setter p_cwd := fun g x =>
  mkProc (p_state x) (p_chan x) (p_killed x) (p_xstate x) (p_pid x) (p_parent x) (p_kstack x) (p_sz x) (p_pagetable x) (p_trapframe x) (p_context x) (p_ofile x) (g (p_cwd x)) (p_name x).
#[export] Instance set_p_name : Setter p_name := fun g x =>
  mkProc (p_state x) (p_chan x) (p_killed x) (p_xstate x) (p_pid x) (p_parent x) (p_kstack x) (p_sz x) (p_pagetable x) (p_trapframe x) (p_context x) (p_ofile x) (p_cwd x) (g (p_name x)).

(** struct superblock (fs.h) *)
Record superblock := mkSb {
  sb_magic : Z;
  sb_size : Z;
  sb_nblocks : Z;
  sb_ninodes : Z;
  sb_nlog : Z;
  sb_logstart : Z;
  sb_inodestart : Z;
  sb_bmapstart : Z;
}.
#[export] Instance set_sb_magic : Setter sb_magic := fun g x =>
  mkSb (g (sb_magic x)) (sb_size x) (sb_nblocks x) (sb_ninodes x) (sb_nlog x) (sb_logstart x) (sb_inodestart x) (sb_bmapstart x).
#[export] Instance set_sb_size : Setter sb_size := fun g x =>
  mkSb (sb_magic x) (g (sb_size x)) (sb_nblocks x) (sb_ninodes x) (sb_nlog x) (sb_logstart x) (sb_inodestart x) (sb_bmapstart x).
#[export] Instance set_sb_nblocks : Setter sb_nblocks := fun g x =>
  mkSb (sb_magic x) (sb_size x) (g (sb_nblocks x)) (sb_ninodes x) (sb_nlog x) (sb_logstart x) (sb_inodestart x) (sb_bmapstart x).
#[export] Instance set_sb_ninodes : Setter sb_ninodes := fun g x =>
  mkSb (sb_magic x) (sb_size x) (sb_nblocks x) (g (sb_ninodes x)) (sb_nlog x) (sb_logstart x) (sb_inodestart x) (sb_bmapstart x).
#[export] Instance set_sb_nlog : Setter sb_nlog := fun g x =>
  mkSb (sb_magic x) (sb_size x) (sb_nblocks x) (sb_ninodes x) (g (sb_nlog x)) (sb_logstart x) (sb_inodestart x) (sb_bmapstart x).
#[export] Instance set_sb_logstart : Setter sb_logstart := fun g x =>
  mkSb (sb_magic x) (sb_size x) (sb_nblocks x) (sb_ninodes x) (sb_nlog x) (g (sb_logstart x)) (sb_inodestart x) (sb_bmapstart x).
#[export] Instance set_sb_inodestart : Setter sb_inodestart := fun g x =>
  mkSb (sb_magic x) (sb_size x) (sb_nblocks x) (sb_ninodes x) (sb_nlog x) (sb_logstart x) (g (sb_inodestart x)) (sb_bmapstart x).
#[export] Instance set_sb_bmapstart : Setter sb_bmapstart := fun g x =>
  mkSb (sb_magic x) (sb_size x) (sb_nblocks x) (sb_ninodes x) (sb_nlog x) (sb_logstart x) (sb_inodestart x) (g (sb_bmapstart x)).

(** struct log with its struct logheader (log.c) *)
Record log := mkLog {
  l_start : Z;
  l_size : Z;
  l_outstanding : Z;
  l_committing : Z;
  l_dev : Z;
  lh_n : Z;
  lh_block : list Z;
}.
#[export] Instance set_l_start : Setter l_start := fun g x =>
  mkLog (g (l_start x)) (l_size x) (l_outstanding x) (l_committing x) (l_dev x) (lh_n x) (lh_block x).
#[export] Instance set_l_size : Setter l_size := fun g x =>
  mkLog (l_start x) (g (l_size x)) (l_outstanding x) (l_committing x) (l_dev x) (lh_n x) (lh_block x).
#[export] Instance set_l_outstanding : Setter l_outstanding := fun g x =>
  mkLog (l_start x) (l_size x) (g (l_outstanding x)) (l_committing x) (l_dev x) (lh_n x) (lh_block x).
#[export] Instance set_l_committing : Setter l_committing := fun g x =>
  mkLog (l_start x) (l_size x) (l_outstanding x) (g (l_committing x)) (l_dev x) (lh_n x) (lh_block x).
#[export] Instance set_l_dev : Setter l_dev := fun g x =>
  mkLog (l_start x) (l_size x) (l_outstanding x) (l_committing x) (g (l_dev x)) (lh_n x) (lh_block x).
#[export] Instance set_lh_n : Setter lh_n := fun g x =>
  mkLog (l_start x) (l_size x) (l_outstanding x) (l_committing x) (l_dev x) (g (lh_n x)) (lh_block x).
#[export] Instance set_lh_block : Setter lh_block := fun g x =>
  mkLog (l_start x) (l_size x) (l_outstanding x) (l_committing x) (l_dev x) (lh_n x) (g (lh_block x)).

(** struct inode (file.h) *)
Record inode := mkInode {
  i_dev : Z;
  i_inum : Z;
  i_ref : Z;
  i_lock : sleeplock;
  i_valid : Z;
  i_type : Z;
  i_major : Z;
  i_minor : Z;
  i_nlink : Z;
  i_size : Z;
  i_addrs : list Z;
}.
#[export] Instance set_i_dev : Setter i_dev := fun g x =>
  mkInode (g (i_dev x)) (i_inum x) (i_ref x) (i_lock x) (i_valid x) (i_type x) (i_major x) (i_minor x) (i_nlink x) (i_size x) (i_addrs x).
#[export] Instance set_i_inum : Setter i_inum := fun g x =>
  mkInode (i_dev x) (g (i_inum x)) (i_ref x) (i_lock x) (i_valid x) (i_type x) (i_major x) (i_minor x) (i_nlink x) (i_size x) (i_addrs x).
#[export] Instance set_i_ref : Setter i_ref := fun g x =>
  mkInode (i_dev x) (i_inum x) (g (i_ref x)) (i_lock x) (i_valid x) (i_type x) (i_major x) (i_minor x) (i_nlink x) (i_size x) (i_addrs x).
#[export] Instance set_i_lock : Setter i_lock := fun g x =>
  mkInode (i_dev x) (i_inum x) (i_ref x) (g (i_lock x)) (i_valid x) (i_type x) (i_major x) (i_minor x) (i_nlink x) (i_size x) (i_addrs x).
#[export] Instance set_i_valid : Setter i_valid := fun g x =>
  mkInode (i_dev x) (i_inum x) (i_ref x) (i_lock x) (g (i_valid x)) (i_type x) (i_major x) (i_minor x) (i_nlink x) (i_size x) (i_addrs x).
#[export] Instance set_i_type : Setter i_type := fun g x =>
  mkInode (i_dev x) (i_inum x) (i_ref x) (i_lock x) (i_valid x) (g (i_type x)) (i_major x) (i_minor x) (i_nlink x) (i_size x) (i_addrs x).
#[export] Instance set_i_major : Setter i_major := fun g x =>
  mkInode (i_dev x) (i_inum x) (i_ref x) (i_lock x) (i_valid x) (i_type x) (g (i_major x)) (i_minor x) (i_nlink x) (i_size x) (i_addrs x).
#[export] Instance set_i_minor : Setter i_minor := fun g x =>
  mkInode (i_dev x) (i_inum x) (i_ref x) (i_lock x) (i_valid x) (i_type x) (i_major x) (g (i_minor x)) (i_nlink x) (i_size x) (i_addrs x).
#[export] Instance set_i_nlink : Setter i_nlink := fun g x =>
  mkInode (i_dev x) (i_inum x) (i_ref x) (i_lock x) (i_valid x) (i_type x) (i_major x) (i_minor x) (g (i_nlink x)) (i_size x) (i_addrs x).
#[export] Instance set_i_size : Setter i_size := fun g x =>
  mkInode (i_dev x) (i_inum x) (i_ref x) (i_lock x) (i_valid x) (i_type x) (i_major x) (i_minor x) (i_nlink x) (g (i_size x)) (i_addrs x).
#[export] Instance set_i_addrs : Setter i_addrs := fun g x =>
  mkInode (i_dev x) (i_inum x) (i_ref x) (i_lock x) (i_valid x) (i_type x) (i_major x) (i_minor x) (i_nlink x) (i_size x) (g (i_addrs x)).

(** The type field of struct file (file.h) *)
Inductive ftype := FD_NONE | FD_PIPE | FD_INODE | FD_DEVICE.
#[export] Instance ftype_eq_dec : EqDecision ftype.
Proof. solve_decision. Defined.

(** struct file (file.h) *)
Record file := mkFile {
  f_type : ftype;
  f_ref : Z;
  f_readable : Z;
  f_writable : Z;
  f_pipe : Z;
  f_ip : option nat;
  f_off : Z;
  f_major : Z;
}.
#[export] Instance set_f_type : Setter f_type := fun g x =>
  mkFile (g (f_type x)) (f_ref x) (f_readable x) (f_writable x) (f_pipe x) (f_ip x) (f_off x) (f_major x).
#[export] Instance set_f_ref : Setter f_ref := fun g x =>
  mkFile (f_type x) (g (f_ref x)) (f_readable x) (f_writable x) (f_pipe x) (f_ip x) (f_off x) (f_major x).
#[export] Instance set_f_readable : Setter f_readable := fun g x =>
  mkFile (f_type x) (f_ref x) (g (f_readable x)) (f_writable x) (f_pipe x) (f_ip x) (f_off x) (f_major x).
#[export] Instance set_f_writable : Setter f_writable := fun g x =>
  mkFile (f_type x) (f_ref x) (f_readable x) (g (f_writable x)) (f_pipe x) (f_ip x) (f_off x) (f_major x).
#[export] Instance set_f_pipe : Setter f_pipe := fun g x =>
  mkFile (f_type x) (f_ref x) (f_readable x) (f_writable x) (g (f_pipe x)) (f_ip x) (f_off x) (f_major x).
#[export] Instance set_f_ip : Setter f_ip := fun g x =>
  mkFile (f_type x) (f_ref x) (f_readable x) (f_writable x) (f_pipe x) (g (f_ip x)) (f_off x) (f_major x).
#[export] Instance set_f_off : Setter f_off := fun g x =>
  mkFile (f_type x) (f_ref x) (f_readable x) (f_writable x) (f_pipe x) (f_ip x) (g (f_off x)) (f_major x).
#[export] Instance set_f_major : Setter f_major := fun g x =>
  mkFile (f_type x) (f_ref x) (f_readable x) (f_writable x) (f_pipe x) (f_ip x) (f_off x) (g (f_major x)).

(** struct pipe (pipe.c) *)
Record pipe := mkPipe {
  pi_data : list Z;
  pi_nread : Z;
  pi_nwrite : Z;
  pi_readopen : Z;
  pi_writeopen : Z;
}.
#[export] Instance set_pi_data : Setter pi_data := fun g x =>
  mkPipe (g (pi_data x)) (pi_nread x) (pi_nwrite x) (pi_readopen x) (pi_writeopen x).
#[export] Instance set_pi_nread : Setter pi_nread := fun g x =>
  mkPipe (pi_data x) (g (pi_nread x)) (pi_nwrite x) (pi_readopen x) (pi_writeopen x).
#[export] Instance set_pi_nwrite : Setter pi_nwrite := fun g x =>
  mkPipe (pi_data x) (pi_nread x) (g (pi_nwrite x)) (pi_readopen x) (pi_writeopen x).
#[export] Instance set_pi_readopen : Setter pi_readopen := fun g x =>
  mkPipe (pi_data x) (pi_nread x) (pi_nwrite x) (g (pi_readopen x)) (pi_writeopen x).
#[export] Instance set_pi_writeopen : Setter pi_writeopen := fun g x =>
  mkPipe (pi_data x) (pi_nread x) (pi_nwrite x) (pi_readopen x) (g (pi_writeopen x)).

(** The input buffer of struct cons (console.c) and its read, write and edit
    indices. *)
Record consbuf := mkCons {
  cs_buf : list Z;
  cs_r : Z;
  cs_w : Z;
  cs_e : Z;
}.
#[export] Instance set_cs_buf : Setter cs_buf := fun g x =>
  mkCons (g (cs_buf x)) (cs_r x) (cs_w x) (cs_e x).
#[export] Instance set_cs_r : Setter cs_r := fun g x =>
  mkCons (cs_buf x) (g (cs_r x)) (cs_w x) (cs_e x).
#[export] Instance set_cs_w : Setter cs_w := fun g x =>
  mkCons (cs_buf x) (cs_r x) (g (cs_w x)) (cs_e x).
#[export] Instance set_cs_e : Setter cs_e := fun g x =>
  mkCons (cs_buf x) (cs_r x) (cs_w x) (g (cs_e x)).

(** The transmit buffer of uart.c, with the device: [tx_ready] says what each
    later read of LSR answers about the transmitter being idle, [tx_out] is what
    was written to THR, the latest first, [rx_in] what waits in RHR. *)
Record uart := mkUart {
  tx_buf : list Z;
  tx_w : Z;
  tx_r : Z;
  tx_ready : list bool;
  tx_out : list Z;
  rx_in : list Z;
}.
#[export] Instance set_tx_buf : Setter tx_buf := fun g x =>
  mkUart (g (tx_buf x)) (tx_w x) (tx_r x) (tx_ready x) (tx_out x) (rx_in x).
#[export] Instance set_tx_w : Setter tx_w := fun g x =>
  mkUart (tx_buf x) (g (tx_w x)) (tx_r x) (tx_ready x) (tx_out x) (rx_in x).
#[export] Instance set_tx_r : Setter tx_r := fun g x =>
  mkUart (tx_buf x) (tx_w x) (g (tx_r x)) (tx_ready x) (tx_out x) (rx_in x).
#[export] Instance set_tx_ready : Setter tx_ready := fun g x =>
  mkUart (tx_buf x) (tx_w x) (tx_r x) (g (tx_ready x)) (tx_out x) (rx_in x).
#[export] Instance set_tx_out : Setter tx_out := fun g x =>
  mkUart (tx_buf x) (tx_w x) (tx_r x) (tx_ready x) (g (tx_out x)) (rx_in x).
#[export] Instance set_rx_in : Setter rx_in := fun g x =>
  mkUart (tx_buf x) (tx_w x) (tx_r x) (tx_ready x) (tx_out x) (g (rx_in x)).

(** The supervisor registers of the running hart the trap code uses, with the
    time counter and the thread pointer. *)
Record csrs := mkCsrs {
  csr_sstatus : Z;
  csr_sepc : Z;
  csr_scause : Z;
  csr_stval : Z;
  csr_stvec : Z;
  csr_satp : Z;
  csr_stimecmp : Z;
  csr_time : Z;
  csr_tp : Z;
}.
#[export] Instance set_csr_sstatus : Setter csr_sstatus := fun g x =>
  mkCsrs (g (csr_sstatus x)) (csr_sepc x) (csr_scause x) (csr_stval x) (csr_stvec x) (csr_satp x) (csr_stimecmp x) (csr_time x) (csr_tp x).
#[export] Instance set_csr_sepc : Setter csr_sepc := fun g x =>
  mkCsrs (csr_sstatus x) (g (csr_sepc x)) (csr_scause x) (csr_stval x) (csr_stvec x) (csr_satp x) (csr_stimecmp x) (csr_time x) (csr_tp x).
#[export] Instance set_csr_scause : Setter csr_scause := fun g x =>
  mkCsrs (csr_sstatus x) (csr_sepc x) (g (csr_scause x)) (csr_stval x) (csr_stvec x) (csr_satp x) (csr_stimecmp x) (csr_time x) (csr_tp x).
#[export] Instance set_csr_stval : Setter csr_stval := fun g x =>
  mkCsrs (csr_sstatus x) (csr_sepc x) (csr_scause x) (g (csr_stval x)) (csr_stvec x) (csr_satp x) (csr_stimecmp x) (csr_time x) (csr_tp x).
#[export] Instance set_csr_stvec : Setter csr_stvec := fun g x =>
  mkCsrs (csr_sstatus x) (csr_sepc x) (csr_scause x) (csr_stval x) (g (csr_stvec x)) (csr_satp x) (csr_stimecmp x) (csr_time x) (csr_tp x).
#[export] Instance set_csr_satp : Setter csr_satp := fun g x =>
  mkCsrs (csr_sstatus x) (csr_sepc x) (csr_scause x) (csr_stval x) (csr_stvec x) (g (csr_satp x)) (csr_stimecmp x) (csr_time x) (csr_tp x).
#[export] Instance set_csr_stimecmp : Setter csr_stimecmp := fun g x =>
  mkCsrs (csr_sstatus x) (csr_sepc x) (csr_scause x) (csr_stval x) (csr_stvec x) (csr_satp x) (g (csr_stimecmp x)) (csr_time x) (csr_tp x).
#[export] Instance set_csr_time : Setter csr_time := fun g x =>
  mkCsrs (csr_sstatus x) (csr_sepc x) (csr_scause x) (csr_stval x) (csr_stvec x) (csr_satp x) (csr_stimecmp x) (g (csr_time x)) (csr_tp x).
#[export] Instance set_csr_tp : Setter csr_tp := fun g x =>
  mkCsrs (csr_sstatus x) (csr_sepc x) (csr_scause x) (csr_stval x) (csr_stvec x) (csr_satp x) (csr_stimecmp x) (csr_time x) (g (csr_tp x)).

(** Addresses of code the kernel stores: forkret and usertrap, kernelvec
    (kernelvec.S), uservec and userret (trampoline.S). *)
Record symbols := mkSymbols {
  sym_forkret : Z;
  sym_usertrap : Z;
  sym_kernelvec : Z;
  sym_uservec : Z;
  sym_userret : Z;
}.
#[export] Instance set_sym_forkret : Setter sym_forkret := fun g x =>
  mkSymbols (g (sym_forkret x)) (sym_usertrap x) (sym_kernelvec x) (sym_uservec x) (sym_userret x).
#[export] Instance set_sym_usertrap : Setter sym_usertrap := fun g x =>
  mkSymbols (sym_forkret x) (g (sym_usertrap x)) (sym_kernelvec x) (sym_uservec x) (sym_userret x).
#[export] Instance set_sym_kernelvec : Setter sym_kernelvec := fun g x =>
  mkSymbols (sym_forkret x) (sym_usertrap x) (g (sym_kernelvec x)) (sym_uservec x) (sym_userret x).
#[export] Instance set_sym_uservec : Setter sym_uservec := fun g x =>
  mkSymbols (sym_forkret x) (sym_usertrap x) (sym_kernelvec x) (g (sym_uservec x)) (sym_userret x).
#[export] Instance set_sym_userret : Setter sym_userret := fun g x =>
  mkSymbols (sym_forkret x) (sym_usertrap x) (sym_kernelvec x) (sym_uservec x) (g (sym_userret x)).

(** struct virtq_desc (virtio.h) *)
Record vdesc := mkVdesc {
  d_addr : daddr;
  d_len : Z;
  d_flags : Z;
  d_next : Z;
}.
#[export] Instance set_d_addr : Setter d_addr := fun g x =>
  mkVdesc (g (d_addr x)) (d_len x) (d_flags x) (d_next x).
#[export] Instance set_d_len : Setter d_len := fun g x =>
  mkVdesc (d_addr x) (g (d_len x)) (d_flags x) (d_next x).
#[export] Instance set_d_flags : Setter d_flags := fun g x =>
  mkVdesc (d_addr x) (d_len x) (g (d_flags x)) (d_next x).
#[export] Instance set_d_next : Setter d_next := fun g x =>
  mkVdesc (d_addr x) (d_len x) (d_flags x) (g (d_next x)).

(** struct virtio_blk_req (virtio.h) *)
Record vreq := mkVreq {
  q_type : Z;
  q_reserved : Z;
  q_sector : Z;
}.
#[export] Instance set_q_type : Setter q_type := fun g x =>
  mkVreq (g (q_type x)) (q_reserved x) (q_sector x).
#[export] Instance set_q_reserved : Setter q_reserved := fun g x =>
  mkVreq (q_type x) (g (q_reserved x)) (q_sector x).
#[export] Instance set_q_sector : Setter q_sector := fun g x =>
  mkVreq (q_type x) (q_reserved x) (g (q_sector x)).

(** struct disk (virtio_disk.c): the descriptors, the avail ring, the used ring
    (its index and the ids of its elements), the driver's own fields; [vd_reg] is
    what reading a device register answers. *)
Record vdisk := mkVdisk {
  vd_desc : list vdesc;
  vd_avail_idx : Z;
  vd_avail_ring : list Z;
  vd_usedr_idx : Z;
  vd_usedr_ring : list Z;
  vd_free : list Z;
  vd_used_idx : Z;
  vd_info_b : list (option nat);
  vd_info_status : list Z;
  vd_ops : list vreq;
  vd_reg : Z -> Z;
}.
#[export] Instance set_vd_desc : Setter vd_desc := fun g x =>
  mkVdisk (g (vd_desc x)) (vd_avail_idx x) (vd_avail_ring x) (vd_usedr_idx x) (vd_usedr_ring x) (vd_free x) (vd_used_idx x) (vd_info_b x) (vd_info_status x) (vd_ops x) (vd_reg x).
#[export] Instance set_vd_avail_idx : Setter vd_avail_idx := fun g x =>
  mkVdisk (vd_desc x) (g (vd_avail_idx x)) (vd_avail_ring x) (vd_usedr_idx x) (vd_usedr_ring x) (vd_free x) (vd_used_idx x) (vd_info_b x) (vd_info_status x) (vd_ops x) (vd_reg x).
#[export] Instance set_vd_avail_ring : Setter vd_avail_ring := fun g x =>
  mkVdisk (vd_desc x) (vd_avail_idx x) (g (vd_avail_ring x)) (vd_usedr_idx x) (vd_usedr_ring x) (vd_free x) (vd_used_idx x) (vd_info_b x) (vd_info_status x) (vd_ops x) (vd_reg x).
#[export] Instance set_vd_usedr_idx : Setter vd_usedr_idx := fun g x =>
  mkVdisk (vd_desc x) (vd_avail_idx x) (vd_avail_ring x) (g (vd_usedr_idx x)) (vd_usedr_ring x) (vd_free x) (vd_used_idx x) (vd_info_b x) (vd_info_status x) (vd_ops x) (vd_reg x).
#[export] Instance set_vd_usedr_ring : Setter vd_usedr_ring := fun g x =>
  mkVdisk (vd_desc x) (vd_avail_idx x) (vd_avail_ring x) (vd_usedr_idx x) (g (vd_usedr_ring x)) (vd_free x) (vd_used_idx x) (vd_info_b x) (vd_info_status x) (vd_ops x) (vd_reg x).
#[export] Instance set_vd_free : Setter vd_free := fun g x =>
  mkVdisk (vd_desc x) (vd_avail_idx x) (vd_avail_ring x) (vd_usedr_idx x) (vd_usedr_ring x) (g (vd_free x)) (vd_used_idx x) (vd_info_b x) (vd_info_status x) (vd_ops x) (vd_reg x).
#[export] Instance set_vd_used_idx : Setter vd_used_idx := fun g x =>
  mkVdisk (vd_desc x) (vd_avail_idx x) (vd_avail_ring x) (vd_usedr_idx x) (vd_usedr_ring x) (vd_free x) (g (vd_used_idx x)) (vd_info_b x) (vd_info_status x) (vd_ops x) (vd_reg x).
#[export] Instance set_vd_info_b : Setter vd_info_b := fun g x =>
  mkVdisk (vd_desc x) (vd_avail_idx x) (vd_avail_ring x) (vd_usedr_idx x) (vd_usedr_ring x) (vd_free x) (vd_used_idx x) (g (vd_info_b x)) (vd_info_status x) (vd_ops x) (vd_reg x).
#[export] Instance set_vd_info_status : Setter vd_info_status := fun g x =>
  mkVdisk (vd_desc x) (vd_avail_idx x) (vd_avail_ring x) (vd_usedr_idx x) (vd_usedr_ring x) (vd_free x) (vd_used_idx x) (vd_info_b x) (g (vd_info_status x)) (vd_ops x) (vd_reg x).
#[export] Instance set_vd_ops : Setter vd_ops := fun g x =>
  mkVdisk (vd_desc x) (vd_avail_idx x) (vd_avail_ring x) (vd_usedr_idx x) (vd_usedr_ring x) (vd_free x) (vd_used_idx x) (vd_info_b x) (vd_info_status x) (g (vd_ops x)) (vd_reg x).
#[export] Instance set_vd_reg : Setter vd_reg := fun g x =>
  mkVdisk (vd_desc x) (vd_avail_idx x) (vd_avail_ring x) (vd_usedr_idx x) (vd_usedr_ring x) (vd_free x) (vd_used_idx x) (vd_info_b x) (vd_info_status x) (vd_ops x) (g (vd_reg x)).

(** The kernel's state: physical memory, the lock context of the running CPU,
    the current process, the global tables, and the disk.  [k_power] counts the
    block writes until the machine loses power, if it does; [k_end], [k_etext]
    and [k_trampoline] are the linker symbols of kernel.ld; [k_devsw] says which
    entries of devsw hold the console's functions, [k_irqs] what the next reads of
    the PLIC's claim register return, [k_mmio] the writes to device registers, the
    latest first, [k_first] is forkret's static variable. *)
Record kst := mkKst {
  k_mem : mem;
  k_freelist : Z;
  k_held : list lockid;
  k_cur : option nat;
  k_procs : list proc;
  k_nextpid : Z;
  k_initproc : option nat;
  k_bufs : list buf;
  k_disk : disk;
  k_power : option nat;
  k_sb : superblock;
  k_log : log;
  k_itable : list inode;
  k_ftable : list file;
  k_pipes : gmap Z pipe;
  k_cons : consbuf;
  k_uart : uart;
  k_pr_locking : Z;
  k_devsw : list bool;
  k_kpagetable : Z;
  k_ticks : Z;
  k_csr : csrs;
  k_first : Z;
  k_irqs : list Z;
  k_vdisk : vdisk;
  k_mmio : list (Z * Z);
  k_sym : symbols;
  k_end : Z;
  k_etext : Z;
  k_trampoline : Z;
}.
#[export] Instance set_k_mem : Setter k_mem := fun g x =>
  mkKst (g (k_mem x)) (k_freelist x) (k_held x) (k_cur x) (k_procs x) (k_nextpid x) (k_initproc x) (k_bufs x) (k_disk x) (k_power x) (k_sb x) (k_log x) (k_itable x) (k_ftable x) (k_pipes x) (k_cons x) (k_uart x) (k_pr_locking x) (k_devsw x) (k_kpagetable x) (k_ticks x) (k_csr x) (k_first x) (k_irqs x) (k_vdisk x) (k_mmio x) (k_sym x) (k_end x) (k_etext x) (k_trampoline x).
#[export] Instance set_k_freelist : Setter k_freelist := fun g x =>
  mkKst (k_mem x) (g (k_freelist x)) (k_held x) (k_cur x) (k_procs x) (k_nextpid x) (k_initproc x) (k_bufs x) (k_disk x) (k_power x) (k_sb x) (k_log x) (k_itable x) (k_ftable x) (k_pipes x) (k_cons x) (k_uart x) (k_pr_locking x) (k_devsw x) (k_kpagetable x) (k_ticks x) (k_csr x) (k_first x) (k_irqs x) (k_vdisk x) (k_mmio x) (k_sym x) (k_end x) (k_etext x) (k_trampoline x).
#[export] Instance set_k_held : Setter k_held := fun g x =>
  mkKst (k_mem x) (k_freelist x) (g (k_held x)) (k_cur x) (k_procs x) (k_nextpid x) (k_initproc x) (k_bufs x) (k_disk x) (k_power x) (k_sb x) (k_log x) (k_itable x) (k_ftable x) (k_pipes x) (k_cons x) (k_uart x) (k_pr_locking x) (k_devsw x) (k_kpagetable x) (k_ticks x) (k_csr x) (k_first x) (k_irqs x) (k_vdisk x) (k_mmio x) (k_sym x) (k_end x) (k_etext x) (k_trampoline x).
#[export] Instance set_k_cur : Setter k_cur := fun g x =>
  mkKst (k_mem x) (k_freelist x) (k_held x) (g (k_cur x)) (k_procs x) (k_nextpid x) (k_initproc x) (k_bufs x) (k_disk x) (k_power x) (k_sb x) (k_log x) (k_itable x) (k_ftable x) (k_pipes x) (k_cons x) (k_uart x) (k_pr_locking x) (k_devsw x) (k_kpagetable x) (k_ticks x) (k_csr x) (k_first x) (k_irqs x) (k_vdisk x) (k_mmio x) (k_sym x) (k_end x) (k_etext x) (k_trampoline x).
#[export] Instance set_k_procs : Setter k_procs := fun g x =>
  mkKst (k_mem x) (k_freelist x) (k_held x) (k_cur x) (g (k_procs x)) (k_nextpid x) (k_initproc x) (k_bufs x) (k_disk x) (k_power x) (k_sb x) (k_log x) (k_itable x) (k_ftable x) (k_pipes x) (k_cons x) (k_uart x) (k_pr_locking x) (k_devsw x) (k_kpagetable x) (k_ticks x) (k_csr x) (k_first x) (k_irqs x) (k_vdisk x) (k_mmio x) (k_sym x) (k_end x) (k_etext x) (k_trampoline x).
#[export] Instance set_k_nextpid : Setter k_nextpid := fun g x =>
  mkKst (k_mem x) (k_freelist x) (k_held x) (k_cur x) (k_procs x) (g (k_nextpid x)) (k_initproc x) (k_bufs x) (k_disk x) (k_power x) (k_sb x) (k_log x) (k_itable x) (k_ftable x) (k_pipes x) (k_cons x) (k_uart x) (k_pr_locking x) (k_devsw x) (k_kpagetable x) (k_ticks x) (k_csr x) (k_first x) (k_irqs x) (k_vdisk x) (k_mmio x) (k_sym x) (k_end x) (k_etext x) (k_trampoline x).
#[export] Instance set_k_initproc : Setter k_initproc := fun g x =>
  mkKst (k_mem x) (k_freelist x) (k_held x) (k_cur x) (k_procs x) (k_nextpid x) (g (k_initproc x)) (k_bufs x) (k_disk x) (k_power x) (k_sb x) (k_log x) (k_itable x) (k_ftable x) (k_pipes x) (k_cons x) (k_uart x) (k_pr_locking x) (k_devsw x) (k_kpagetable x) (k_ticks x) (k_csr x) (k_first x) (k_irqs x) (k_vdisk x) (k_mmio x) (k_sym x) (k_end x) (k_etext x) (k_trampoline x).
#[export] Instance set_k_bufs : Setter k_bufs := fun g x =>
  mkKst (k_mem x) (k_freelist x) (k_held x) (k_cur x) (k_procs x) (k_nextpid x) (k_initproc x) (g (k_bufs x)) (k_disk x) (k_power x) (k_sb x) (k_log x) (k_itable x) (k_ftable x) (k_pipes x) (k_cons x) (k_uart x) (k_pr_locking x) (k_devsw x) (k_kpagetable x) (k_ticks x) (k_csr x) (k_first x) (k_irqs x) (k_vdisk x) (k_mmio x) (k_sym x) (k_end x) (k_etext x) (k_trampoline x).
#[export] Instance set_k_disk : Setter k_disk := fun g x =>
  mkKst (k_mem x) (k_freelist x) (k_held x) (k_cur x) (k_procs x) (k_nextpid x) (k_initproc x) (k_bufs x) (g (k_disk x)) (k_power x) (k_sb x) (k_log x) (k_itable x) (k_ftable x) (k_pipes x) (k_cons x) (k_uart x) (k_pr_locking x) (k_devsw x) (k_kpagetable x) (k_ticks x) (k_csr x) (k_first x) (k_irqs x) (k_vdisk x) (k_mmio x) (k_sym x) (k_end x) (k_etext x) (k_trampoline x).
#[export] Instance set_k_power : Setter k_power := fun g x =>
  mkKst (k_mem x) (k_freelist x) (k_held x) (k_cur x) (k_procs x) (k_nextpid x) (k_initproc x) (k_bufs x) (k_disk x) (g (k_power x)) (k_sb x) (k_log x) (k_itable x) (k_ftable x) (k_pipes x) (k_cons x) (k_uart x) (k_pr_locking x) (k_devsw x) (k_kpagetable x) (k_ticks x) (k_csr x) (k_first x) (k_irqs x) (k_vdisk x) (k_mmio x) (k_sym x) (k_end x) (k_etext x) (k_trampoline x).
#[export] Instance set_k_sb : Setter k_sb := fun g x =>
  mkKst (k_mem x) (k_freelist x) (k_held x) (k_cur x) (k_procs x) (k_nextpid x) (k_initproc x) (k_bufs x) (k_disk x) (k_power x) (g (k_sb x)) (k_log x) (k_itable x) (k_ftable x) (k_pipes x) (k_cons x) (k_uart x) (k_pr_locking x) (k_devsw x) (k_kpagetable x) (k_ticks x) (k_csr x) (k_first x) (k_irqs x) (k_vdisk x) (k_mmio x) (k_sym x) (k_end x) (k_etext x) (k_trampoline x).
#[export] Instance set_k_log : Setter k_log := fun g x =>
  mkKst (k_mem x) (k_freelist x) (k_held x) (k_cur x) (k_procs x) (k_nextpid x) (k_initproc x) (k_bufs x) (k_disk x) (k_power x) (k_sb x) (g (k_log x)) (k_itable x) (k_ftable x) (k_pipes x) (k_cons x) (k_uart x) (k_pr_locking x) (k_devsw x) (k_kpagetable x) (k_ticks x) (k_csr x) (k_first x) (k_irqs x) (k_vdisk x) (k_mmio x) (k_sym x) (k_end x) (k_etext x) (k_trampoline x).
#[export] Instance set_k_itable : Setter k_itable := fun g x =>
  mkKst (k_mem x) (k_freelist x) (k_held x) (k_cur x) (k_procs x) (k_nextpid x) (k_initproc x) (k_bufs x) (k_disk x) (k_power x) (k_sb x) (k_log x) (g (k_itable x)) (k_ftable x) (k_pipes x) (k_cons x) (k_uart x) (k_pr_locking x) (k_devsw x) (k_kpagetable x) (k_ticks x) (k_csr x) (k_first x) (k_irqs x) (k_vdisk x) (k_mmio x) (k_sym x) (k_end x) (k_etext x) (k_trampoline x).
#[export] Instance set_k_ftable : Setter k_ftable := fun g x =>
  mkKst (k_mem x) (k_freelist x) (k_held x) (k_cur x) (k_procs x) (k_nextpid x) (k_initproc x) (k_bufs x) (k_disk x) (k_power x) (k_sb x) (k_log x) (k_itable x) (g (k_ftable x)) (k_pipes x) (k_cons x) (k_uart x) (k_pr_locking x) (k_devsw x) (k_kpagetable x) (k_ticks x) (k_csr x) (k_first x) (k_irqs x) (k_vdisk x) (k_mmio x) (k_sym x) (k_end x) (k_etext x) (k_trampoline x).
#[export] Instance set_k_pipes : Setter k_pipes := fun g x =>
  mkKst (k_mem x) (k_freelist x) (k_held x) (k_cur x) (k_procs x) (k_nextpid x) (k_initproc x) (k_bufs x) (k_disk x) (k_power x) (k_sb x) (k_log x) (k_itable x) (k_ftable x) (g (k_pipes x)) (k_cons x) (k_uart x) (k_pr_locking x) (k_devsw x) (k_kpagetable x) (k_ticks x) (k_csr x) (k_first x) (k_irqs x) (k_vdisk x) (k_mmio x) (k_sym x) (k_end x) (k_etext x) (k_trampoline x).
#[export] Instance set_k_cons : Setter k_cons := fun g x =>
  mkKst (k_mem x) (k_freelist x) (k_held x) (k_cur x) (k_procs x) (k_nextpid x) (k_initproc x) (k_bufs x) (k_disk x) (k_power x) (k_sb x) (k_log x) (k_itable x) (k_ftable x) (k_pipes x) (g (k_cons x)) (k_uart x) (k_pr_locking x) (k_devsw x) (k_kpagetable x) (k_ticks x) (k_csr x) (k_first x) (k_irqs x) (k_vdisk x) (k_mmio x) (k_sym x) (k_end x) (k_etext x) (k_trampoline x).
#[export] Instance set_k_uart : Setter k_uart := fun g x =>
  mkKst (k_mem x) (k_freelist x) (k_held x) (k_cur x) (k_procs x) (k_nextpid x) (k_initproc x) (k_bufs x) (k_disk x) (k_power x) (k_sb x) (k_log x) (k_itable x) (k_ftable x) (k_pipes x) (k_cons x) (g (k_uart x)) (k_pr_locking x) (k_devsw x) (k_kpagetable x) (k_ticks x) (k_csr x) (k_first x) (k_irqs x) (k_vdisk x) (k_mmio x) (k_sym x) (k_end x) (k_etext x) (k_trampoline x).
#[export] Instance set_k_pr_locking : Setter k_pr_locking := fun g x =>
  mkKst (k_mem x) (k_freelist x) (k_held x) (k_cur x) (k_procs x) (k_nextpid x) (k_initproc x) (k_bufs x) (k_disk x) (k_power x) (k_sb x) (k_log x) (k_itable x) (k_ftable x) (k_pipes x) (k_cons x) (k_uart x) (g (k_pr_locking x)) (k_devsw x) (k_kpagetable x) (k_ticks x) (k_csr x) (k_first x) (k_irqs x) (k_vdisk x) (k_mmio x) (k_sym x) (k_end x) (k_etext x) (k_trampoline x).
#[export] Instance set_k_devsw : Setter k_devsw := fun g x =>
  mkKst (k_mem x) (k_freelist x) (k_held x) (k_cur x) (k_procs x) (k_nextpid x) (k_initproc x) (k_bufs x) (k_disk x) (k_power x) (k_sb x) (k_log x) (k_itable x) (k_ftable x) (k_pipes x) (k_cons x) (k_uart x) (k_pr_locking x) (g (k_devsw x)) (k_kpagetable x) (k_ticks x) (k_csr x) (k_first x) (k_irqs x) (k_vdisk x) (k_mmio x) (k_sym x) (k_end x) (k_etext x) (k_trampoline x).
#[export] Instance set_k_kpagetable : Setter k_kpagetable := fun g x =>
  mkKst (k_mem x) (k_freelist x) (k_held x) (k_cur x) (k_procs x) (k_nextpid x) (k_initproc x) (k_bufs x) (k_disk x) (k_power x) (k_sb x) (k_log x) (k_itable x) (k_ftable x) (k_pipes x) (k_cons x) (k_uart x) (k_pr_locking x) (k_devsw x) (g (k_kpagetable x)) (k_ticks x) (k_csr x) (k_first x) (k_irqs x) (k_vdisk x) (k_mmio x) (k_sym x) (k_end x) (k_etext x) (k_trampoline x).
#[export] Instance set_k_ticks : Setter k_ticks := fun g x =>
  mkKst (k_mem x) (k_freelist x) (k_held x) (k_cur x) (k_procs x) (k_nextpid x) (k_initproc x) (k_bufs x) (k_disk x) (k_power x) (k_sb x) (k_log x) (k_itable x) (k_ftable x) (k_pipes x) (k_cons x) (k_uart x) (k_pr_locking x) (k_devsw x) (k_kpagetable x) (g (k_ticks x)) (k_csr x) (k_first x) (k_irqs x) (k_vdisk x) (k_mmio x) (k_sym x) (k_end x) (k_etext x) (k_trampoline x).
#[export] Instance set_k_csr : Setter k_csr := fun g x =>
  mkKst (k_mem x) (k_freelist x) (k_held x) (k_cur x) (k_procs x) (k_nextpid x) (k_initproc x) (k_bufs x) (k_disk x) (k_power x) (k_sb x) (k_log x) (k_itable x) (k_ftable x) (k_pipes x) (k_cons x) (k_uart x) (k_pr_locking x) (k_devsw x) (k_kpagetable x) (k_ticks x) (g (k_csr x)) (k_first x) (k_irqs x) (k_vdisk x) (k_mmio x) (k_sym x) (k_end x) (k_etext x) (k_trampoline x).
#[export] Instance set_k_first : Setter k_first := fun g x =>
  mkKst (k_mem x) (k_freelist x) (k_held x) (k_cur x) (k_procs x) (k_nextpid x) (k_initproc x) (k_bufs x) (k_disk x) (k_power x) (k_sb x) (k_log x) (k_itable x) (k_ftable x) (k_pipes x) (k_cons x) (k_uart x) (k_pr_locking x) (k_devsw x) (k_kpagetable x) (k_ticks x) (k_csr x) (g (k_first x)) (k_irqs x) (k_vdisk x) (k_mmio x) (k_sym x) (k_end x) (k_etext x) (k_trampoline x).
#[export] Instance set_k_irqs : Setter k_irqs := fun g x =>
  mkKst (k_mem x) (k_freelist x) (k_held x) (k_cur x) (k_procs x) (k_nextpid x) (k_initproc x) (k_bufs x) (k_disk x) (k_power x) (k_sb x) (k_log x) (k_itable x) (k_ftable x) (k_pipes x) (k_cons x) (k_uart x) (k_pr_locking x) (k_devsw x) (k_kpagetable x) (k_ticks x) (k_csr x) (k_first x) (g (k_irqs x)) (k_vdisk x) (k_mmio x) (k_sym x) (k_end x) (k_etext x) (k_trampoline x).
#[export] Instance set_k_vdisk : Setter k_vdisk := fun g x =>
  mkKst (k_mem x) (k_freelist x) (k_held x) (k_cur x) (k_procs x) (k_nextpid x) (k_initproc x) (k_bufs x) (k_disk x) (k_power x) (k_sb x) (k_log x) (k_itable x) (k_ftable x) (k_pipes x) (k_cons x) (k_uart x) (k_pr_locking x) (k_devsw x) (k_kpagetable x) (k_ticks x) (k_csr x) (k_first x) (k_irqs x) (g (k_vdisk x)) (k_mmio x) (k_sym x) (k_end x) (k_etext x) (k_trampoline x).
#[export] Instance set_k_mmio : Setter k_mmio := fun g x =>
  mkKst (k_mem x) (k_freelist x) (k_held x) (k_cur x) (k_procs x) (k_nextpid x) (k_initproc x) (k_bufs x) (k_disk x) (k_power x) (k_sb x) (k_log x) (k_itable x) (k_ftable x) (k_pipes x) (k_cons x) (k_uart x) (k_pr_locking x) (k_devsw x) (k_kpagetable x) (k_ticks x) (k_csr x) (k_first x) (k_irqs x) (k_vdisk x) (g (k_mmio x)) (k_sym x) (k_end x) (k_etext x) (k_trampoline x).
#[export] Instance set_k_sym : Setter k_sym := fun g x =>
  mkKst (k_mem x) (k_freelist x) (k_held x) (k_cur x) (k_procs x) (k_nextpid x) (k_initproc x) (k_bufs x) (k_disk x) (k_power x) (k_sb x) (k_log x) (k_itable x) (k_ftable x) (k_pipes x) (k_cons x) (k_uart x) (k_pr_locking x) (k_devsw x) (k_kpagetable x) (k_ticks x) (k_csr x) (k_first x) (k_irqs x) (k_vdisk x) (k_mmio x) (g (k_sym x)) (k_end x) (k_etext x) (k_trampoline x).
#[export] Instance set_k_end : Setter k_end := fun g x =>
  mkKst (k_mem x) (k_freelist x) (k_held x) (k_cur x) (k_procs x) (k_nextpid x) (k_initproc x) (k_bufs x) (k_disk x) (k_power x) (k_sb x) (k_log x) (k_itable x) (k_ftable x) (k_pipes x) (k_cons x) (k_uart x) (k_pr_locking x) (k_devsw x) (k_kpagetable x) (k_ticks x) (k_csr x) (k_first x) (k_irqs x) (k_vdisk x) (k_mmio x) (k_sym x) (g (k_end x)) (k_etext x) (k_trampoline x).
#[export] Instance set_k_etext : Setter k_etext := fun g x =>
  mkKst (k_mem x) (k_freelist x) (k_held x) (k_cur x) (k_procs x) (k_nextpid x) (k_initproc x) (k_bufs x) (k_disk x) (k_power x) (k_sb x) (k_log x) (k_itable x) (k_ftable x) (k_pipes x) (k_cons x) (k_uart x) (k_pr_locking x) (k_devsw x) (k_kpagetable x) (k_ticks x) (k_csr x) (k_first x) (k_irqs x) (k_vdisk x) (k_mmio x) (k_sym x) (k_end x) (g (k_etext x)) (k_trampoline x).
#[export] Instance set_k_trampoline : Setter k_trampoline := fun g x =>
  mkKst (k_mem x) (k_freelist x) (k_held x) (k_cur x) (k_procs x) (k_nextpid x) (k_initproc x) (k_bufs x) (k_disk x) (k_power x) (k_sb x) (k_log x) (k_itable x) (k_ftable x) (k_pipes x) (k_cons x) (k_uart x) (k_pr_locking x) (k_devsw x) (k_kpagetable x) (k_ticks x) (k_csr x) (k_first x) (k_irqs x) (k_vdisk x) (k_mmio x) (k_sym x) (k_end x) (k_etext x) (g (k_trampoline x)).

(** What a kernel thread works on: the state, and what the other threads will
    do each time it sleeps. *)
Record world := mkW {
  wk : kst;
  wenv : list (kst -> kst);
}.
#[export] Instance set_wk : Setter wk := fun g x =>
  mkW (g (wk x)) (wenv x).
#[export] Instance set_wenv : Setter wenv := fun g x =>
  mkW (wk x) (g (wenv x)).

(** Two states with the same fields are equal. *)
Lemma kst_ext (s s' : kst) :
  k_mem s = k_mem s' ->
  k_freelist s = k_freelist s' ->
  k_held s = k_held s' ->
  k_cur s = k_cur s' ->
  k_procs s = k_procs s' ->
  k_nextpid s = k_nextpid s' ->
  k_initproc s = k_initproc s' ->
  k_bufs s = k_bufs s' ->
  k_disk s = k_disk s' ->
  k_power s = k_power s' ->
  k_sb s = k_sb s' ->
  k_log s = k_log s' ->
  k_itable s = k_itable s' ->
  k_ftable s = k_ftable s' ->
  k_pipes s = k_pipes s' ->
  k_cons s = k_cons s' ->
  k_uart s = k_uart s' ->
  k_pr_locking s = k_pr_locking s' ->
  k_devsw s = k_devsw s' ->
  k_kpagetable s = k_kpagetable s' ->
  k_ticks s = k_ticks s' ->
  k_csr s = k_csr s' ->
  k_first s = k_first s' ->
  k_irqs s = k_irqs s' ->
  k_vdisk s = k_vdisk s' ->
  k_mmio s = k_mmio s' ->
  k_sym s = k_sym s' ->
  k_end s = k_end s' ->
  k_etext s = k_etext s' ->
  k_trampoline s = k_trampoline s' ->
  s = s'.
Proof. destruct s, s'. simpl. intros. by subst. Qed.

Ltac kst_eq := apply kst_ext; simpl; try reflexivity.

(** * The state at entry to main

    The kernel's globals live in .bss, which is zero; the linker symbols, the
    contents of memory and of the disk are what they are. *)

Definition zero_sleeplock : sleeplock := mkSleeplock 0 0.
Definition zero_buf : buf := mkBuf 0 0 0 0 zero_sleeplock 0 0 0 zero_block.
Definition zero_context : context := mkContext 0 0 (replicate 12 0).
Definition zero_proc : proc :=
  mkProc UNUSED None 0 0 0 None 0 0 0 0 zero_context
    (replicate (Z.to_nat NOFILE) None) None (replicate 16 0).
Definition zero_inode : inode := mkInode 0 0 0 zero_sleeplock 0 0 0 0 0 0 (replicate 13 0).
Definition zero_file : file := mkFile FD_NONE 0 0 0 0 None 0 0.

Definition zero_vdesc : vdesc := mkVdesc DNull 0 0 0.
Definition zero_vdisk (reg : Z -> Z) : vdisk :=
  mkVdisk (replicate 8 zero_vdesc) 0 (replicate 8 0) 0 (replicate 8 0) (replicate 8 0) 0
    (replicate 8 None) (replicate 8 0) (replicate 8 (mkVreq 0 0 0)) reg.

Definition bss (kend etext trampoline : Z) (sym : symbols) (reg : Z -> Z) (m : mem) (d : disk) : kst := {|
  k_mem := m;
  k_freelist := 0;
  k_held := [];
  k_cur := None;
  k_procs := replicate (Z.to_nat NPROC) zero_proc;
  k_nextpid := 1;
  k_initproc := None;
  k_bufs := replicate (Z.to_nat NBUF + 1) zero_buf;
  k_disk := d;
  k_power := None;
  k_sb := mkSb 0 0 0 0 0 0 0 0;
  k_log := mkLog 0 0 0 0 0 0 (replicate (Z.to_nat LOGSIZE) 0);
  k_itable := replicate (Z.to_nat NINODE) zero_inode;
  k_ftable := replicate (Z.to_nat NFILE) zero_file;
  k_pipes := ∅;
  k_cons := mkCons (replicate 128 0) 0 0 0;
  k_uart := mkUart (replicate 32 0) 0 0 [] [] [];
  k_pr_locking := 0;
  k_devsw := replicate (Z.to_nat NDEV) false;
  k_kpagetable := 0;
  k_ticks := 0;
  k_csr := mkCsrs 0 0 0 0 0 0 0 0 0;
  k_first := 1;
  k_irqs := [];
  k_vdisk := zero_vdisk reg;
  k_mmio := [];
  k_sym := sym;
  k_end := kend;
  k_etext := etext;
  k_trampoline := trampoline;
|}.

(** What qemu's disk answers when its registers are read: the identification
    of a modern virtio block device, features accepted, a queue of 1024. *)
Definition demo_reg (r : Z) : Z :=
  if r =? 0x000 then 0x74726976 else if r =? 0x004 then 2 else if r =? 0x008 then 2
  else if r =? 0x00c then 0x554d4551 else if r =? 0x034 then 1024 else if r =? 0x070 then 11 else 0.

(** Symbol values of one build. *)
Definition demo_syms : symbols := mkSymbols 0x80001a52 0x80002690 0x80005a50 0x80007000 0x8000709c.

(** * The monad *)

Inductive outcome (A : Type) :=
| Ok (a : A) (w : world)
| Panic (msg : string)
| Asleep (w : world)
| Crash (d : disk)
| UB
| Diverge.
Arguments Ok {A} _ _.
Arguments Panic {A} _.
Arguments Asleep {A} _.
Arguments Crash {A} _.
Arguments UB {A}.
Arguments Diverge {A}.

Definition K (A : Type) : Type := world -> outcome A.

#[export] Instance K_ret : MRet K := fun A a w => Ok a w.
#[export] Instance K_bind : MBind K := fun A B f m w =>
  match m w with
  | Ok a w' => f a w'
  | Panic e => Panic e
  | Asleep w' => Asleep w'
  | Crash d => Crash d
  | UB => UB
  | Diverge => Diverge
  end.

Definition gets {A} (f : kst -> A) : K A := fun w => Ok (f (wk w)) w.
Definition modify (f : kst -> kst) : K unit := fun w => Ok tt (mkW (f (wk w)) (wenv w)).
Definition panic {A} (msg : string) : K A := fun _ => Panic msg.
Definition ub {A} : K A := fun _ => UB.
Definition diverge {A} : K A := fun _ => Diverge.
Definition when (b : bool) (m : K unit) : K unit := if b then m else mret tt.

(** Dereferencing a pointer or indexing an array. *)
Definition the {A} (o : option A) : K A :=
  match o with Some a => mret a | None => ub end.

(** for(x in l) body *)
Fixpoint forK {A} (l : list A) (body : A -> K unit) : K unit :=
  match l with [] => mret tt | x :: l' => body x;; forK l' body end.

(** Reading and writing kernel memory. *)
Definition rd64 (a : Z) : K Z := gets (fun s => load64 a (k_mem s)).
Definition wr64 (a v : Z) : K unit := modify (fun s => s <| k_mem ::= store64 a v |>).

(** Writing a device register. *)
Definition mmio (a v : Z) : K unit := modify (fun s => s <| k_mmio ::= cons (a, v) |>).

(** * Locks of the running CPU *)

Definition holding (l : lockid) (s : kst) : bool := bool_decide (l ∈ k_held s).

Definition acquire (l : lockid) : K unit :=
  h ← gets (holding l);
  if h : bool then panic "acquire" else modify (fun s => s <| k_held ::= cons l |>).

Definition release (l : lockid) : K unit :=
  h ← gets (holding l);
  if negb h then panic "release" else modify (fun s => s <| k_held ::= filter (.≠ l) |>).

(** * Reasoning about runs

    [wp m w Q C]: from [w], [m] returns with [Q], or power fails during a disk
    write leaving a disk with [C]; it does not panic, get stuck or sleep for
    ever. *)

Definition wp {A} (m : K A) (w : world) (Q : A -> world -> Prop) (C : disk -> Prop) : Prop :=
  match m w with
  | Ok a w' => Q a w'
  | Crash d => C d
  | _ => False
  end.

Definition runs {A} (m : K A) (w : world) (Q : A -> world -> Prop) : Prop :=
  wp m w Q (fun _ => False).

Section wp.
Context {A B : Type}.
Implicit Types (m : K A) (w : world) (C : disk -> Prop).

Lemma wp_ret (a : A) w Q C : wp (mret a) w Q C <-> Q a w.
Proof. done. Qed.

Lemma wp_bind (m : K A) (f : A -> K B) w Q C :
  wp (m ≫= f) w Q C <-> wp m w (fun a w' => wp (f a) w' Q C) C.
Proof. unfold wp, mbind, K_bind. by destruct (m w). Qed.

Lemma wp_mono (m : K A) w (Q Q' : A -> world -> Prop) (C C' : disk -> Prop) :
  wp m w Q C -> (forall a w', Q a w' -> Q' a w') -> (forall d, C d -> C' d) -> wp m w Q' C'.
Proof. unfold wp. destruct (m w); naive_solver. Qed.

Lemma wp_gets (f : kst -> A) w Q C : wp (gets f) w Q C <-> Q (f (wk w)) w.
Proof. done. Qed.

Lemma wp_the (o : option A) w Q C x : o = Some x -> Q x w -> wp (the o) w Q C.
Proof. by intros ->. Qed.

Lemma runs_ok (m : K A) w Q : runs m w Q <-> exists a w', m w = Ok a w' /\ Q a w'.
Proof. unfold runs, wp. destruct (m w); naive_solver. Qed.

Lemma runs_wp (m : K A) w Q C : runs m w Q -> wp m w Q C.
Proof. intros H. eapply wp_mono; naive_solver. Qed.
End wp.

Lemma wp_modify f w (Q : unit -> world -> Prop) C :
  wp (modify f) w Q C <-> Q tt (mkW (f (wk w)) (wenv w)).
Proof. done. Qed.

Lemma wp_acquire l w (Q : unit -> world -> Prop) C :
  l ∉ k_held (wk w) ->
  Q tt (mkW (wk w <| k_held ::= cons l |>) (wenv w)) -> wp (acquire l) w Q C.
Proof.
  intros H HQ. unfold acquire. rewrite wp_bind, wp_gets. unfold holding.
  by rewrite bool_decide_eq_false_2.
Qed.

Lemma wp_release l w (Q : unit -> world -> Prop) C :
  l ∈ k_held (wk w) ->
  Q tt (mkW (wk w <| k_held ::= filter (.≠ l) |>) (wenv w)) -> wp (release l) w Q C.
Proof.
  intros H HQ. unfold release. rewrite wp_bind, wp_gets. unfold holding.
  by rewrite bool_decide_eq_true_2.
Qed.

Lemma filter_cons_self (l : lockid) h : l ∉ h -> filter (.≠ l) (l :: h) = h.
Proof.
  intros H. rewrite filter_cons_False by naive_solver.
  induction h as [|x h IH]; [done|]. rewrite filter_cons_True by set_solver.
  f_equal. apply IH. set_solver.
Qed.

(** * Executing a run symbolically

    The equations of the monad, as a rewrite system. *)

Section bind.
Context {A B C : Type}.
Implicit Types (k : A -> K B) (w : world).

Lemma bind_ok (m : K A) k w a w' : m w = Ok a w' -> (m ≫= k) w = k a w'.
Proof. unfold mbind, K_bind. by intros ->. Qed.

Lemma bind_ret (a : A) k w : (mret a ≫= k) w = k a w.
Proof. done. Qed.

Lemma bind_gets (f : kst -> A) k w : (gets f ≫= k) w = k (f (wk w)) w.
Proof. done. Qed.

Lemma bind_panic e k w : (panic e ≫= k) w = Panic e.
Proof. done. Qed.

Lemma bind_assoc (m : K A) k (h : B -> K C) w : ((m ≫= k) ≫= h) w = (m ≫= (fun a => k a ≫= h)) w.
Proof. unfold mbind, K_bind. by destruct (m w). Qed.

Lemma bind_the (o : option A) k w a : o = Some a -> (the o ≫= k) w = k a w.
Proof. by intros ->. Qed.
End bind.

Lemma bind_modify {B} f (k : unit -> K B) w : (modify f ≫= k) w = k tt (mkW (f (wk w)) (wenv w)).
Proof. done. Qed.

Lemma bind_when_true {B} m (k : unit -> K B) w : (when true m ≫= k) w = (m ≫= k) w.
Proof. done. Qed.

Lemma bind_when_false {B} m (k : unit -> K B) w : (when false m ≫= k) w = k tt w.
Proof. done. Qed.

Lemma acquire_ok l w :
  l ∉ k_held (wk w) ->
  acquire l w = Ok tt (mkW (wk w <| k_held ::= cons l |>) (wenv w)).
Proof. intros H. unfold acquire. rewrite bind_gets. unfold holding. by rewrite bool_decide_eq_false_2. Qed.

Lemma release_ok l w :
  l ∈ k_held (wk w) ->
  release l w = Ok tt (mkW (wk w <| k_held ::= filter (.≠ l) |>) (wenv w)).
Proof. intros H. unfold release. rewrite bind_gets. unfold holding. by rewrite bool_decide_eq_true_2. Qed.

Lemma bind_acquire {B} l (k : unit -> K B) w :
  l ∉ k_held (wk w) ->
  (acquire l ≫= k) w = k tt (mkW (wk w <| k_held ::= cons l |>) (wenv w)).
Proof. intros H. by apply bind_ok, acquire_ok. Qed.

Lemma bind_release {B} l (k : unit -> K B) w :
  l ∈ k_held (wk w) ->
  (release l ≫= k) w = k tt (mkW (wk w <| k_held ::= filter (.≠ l) |>) (wenv w)).
Proof. intros H. by apply bind_ok, release_ok. Qed.

Lemma wk_mkW s e : wk (mkW s e) = s.
Proof. done. Qed.
Lemma wenv_mkW s e : wenv (mkW s e) = e.
Proof. done. Qed.

#[export] Hint Rewrite wk_mkW wenv_mkW @bind_assoc @bind_ret @bind_gets @bind_modify @bind_panic
  @bind_when_true @bind_when_false : ksimp.

(** Run as far as no lock operation or unknown test is met; then handle lock
    operations whose side condition is evident. *)
Ltac krun :=
  repeat first
  [ progress autorewrite with ksimp
  | rewrite bind_acquire by (simpl; first [assumption | set_solver])
  | rewrite bind_release by (simpl; first [assumption | set_solver])
  | rewrite acquire_ok by (simpl; first [assumption | set_solver])
  | rewrite release_ok by (simpl; first [assumption | set_solver]) ].

(** Acquiring and releasing a free lock leaves the lock context as it was. *)
Lemma held_restore (s : kst) l :
  l ∉ k_held s -> s <| k_held ::= cons l |> <| k_held ::= filter (.≠ l) |> = s.
Proof. intros H. kst_eq. by rewrite filter_cons_self. Qed.

(** Close a goal saying that two runs return the same: the values first, then
    the states field by field. *)
Ltac kret :=
  simpl; cbv [mret K_ret when]; simpl;
  match goal with
  | |- Ok _ _ = Ok _ _ => apply f_equal2; [try reflexivity|apply f_equal2; [kst_eq|reflexivity]]
  | |- _ => reflexivity
  end.
