(* ===== verification/Kalloc.v ===== *)
(** kernel/kalloc.c: the physical page allocator.

    The free list is threaded through the free pages themselves, as in the
    code: the first eight bytes of a free page hold the address of the next
    one.  [free_list s l] says that the list reached from [kmem.freelist] is
    [l]; the theorems show that [kfree] and [kalloc] push and pop [l], so that
    the allocator hands out each page of the managed range once. *)

From S2P Require Import Prelude Riscv Memory CString State.

(** void kfree(void *pa) *)
Definition kfree (pa : Z) : K unit :=
  kend ← gets k_end;
  when (negb (pa mod PGSIZE =? 0) || (pa <? kend) || (PHYSTOP <=? pa)) (panic "kfree");;
  (* Fill with junk to catch dangling refs. *)
  modify (fun s => s <| k_mem ::= memset pa 1 PGSIZE |>);;
  acquire LKmem;;
  head ← gets k_freelist;
  wr64 pa head;;
  modify (fun s => s <| k_freelist := pa |>);;
  release LKmem.

(** void *kalloc(void) *)
Definition kalloc : K Z :=
  acquire LKmem;;
  r ← gets k_freelist;
  (if negb (r =? 0) then
     next ← rd64 r;
     modify (fun s => s <| k_freelist := next |>)
   else mret tt);;
  release LKmem;;
  when (negb (r =? 0)) (modify (fun s => s <| k_mem ::= memset r 5 PGSIZE |>));;
  mret r.

(** void freerange(void *pa_start, void *pa_end) *)
Fixpoint freerange_loop (fuel : nat) (p pa_end : Z) : K unit :=
  match fuel with
  | O => diverge
  | S fuel' =>
      if p + PGSIZE <=? pa_end then kfree p;; freerange_loop fuel' (p + PGSIZE) pa_end
      else mret tt
  end.
Definition freerange (pa_start pa_end : Z) : K unit :=
  let p := PGROUNDUP pa_start in
  freerange_loop (S (Z.to_nat ((pa_end - p) / PGSIZE))) p pa_end.

(** void kinit() *)
Definition kinit : K unit :=
  kend ← gets k_end;
  freerange kend PHYSTOP.

(** * The free list *)

Fixpoint chain (m : mem) (head : Z) (l : list Z) : Prop :=
  match l with
  | [] => head = 0
  | p :: l' => head = p /\ chain m (load64 p m) l'
  end.

(** A page the allocator manages. *)
Definition page_ok (s : kst) (p : Z) : Prop :=
  p mod PGSIZE = 0 /\ k_end s <= p < PHYSTOP.

Record free_list (s : kst) (l : list Z) : Prop := {
  fl_chain : chain (k_mem s) (k_freelist s) l;
  fl_nodup : NoDup l;
  fl_pages : Forall (page_ok s) l;
  fl_end : 0 < k_end s;
}.

(** Two pages are equal or do not overlap. *)
Lemma page_disjoint p q b :
  p mod PGSIZE = 0 -> q mod PGSIZE = 0 -> p <> q ->
  p <= b < p + PGSIZE -> ~ (q <= b < q + PGSIZE).
Proof.
  intros Hp Hq Hne Hb Hb'. apply Hne. apply page_boundary_unique; [done|done|].
  unfold PGSIZE in *. lia.
Qed.

Lemma chain_ext m m' l : forall head,
  (forall p, p ∈ l -> load64 p m' = load64 p m) -> chain m head l -> chain m' head l.
Proof.
  induction l as [|p l IH]; intros head H; [done|]. intros [-> Hc]. split; [done|].
  rewrite H by set_solver. apply IH; [set_solver|done].
Qed.

(** Memory changes outside the free pages leave the free list alone. *)
Lemma chain_frame m m' l head :
  chain m head l ->
  (forall p b, p ∈ l -> p <= b < p + PGSIZE -> mrd m' b = mrd m b) -> chain m' head l.
Proof.
  intros Hc H. revert Hc. apply chain_ext. intros p Hp. apply load_ext.
  intros b Hb. apply (H p b Hp). unfold PGSIZE. lia.
Qed.

Lemma free_list_frame s s' l :
  free_list s l -> k_freelist s' = k_freelist s -> k_end s' = k_end s ->
  (forall p b, p ∈ l -> p <= b < p + PGSIZE -> mrd (k_mem s') b = mrd (k_mem s) b) ->
  free_list s' l.
Proof.
  intros [Hc Hnd Hf He] Ef Ee H. unfold page_ok in Hf. split; unfold page_ok.
  - rewrite Ef. by apply (chain_frame (k_mem s)).
  - done.
  - by rewrite Ee.
  - by rewrite Ee.
Qed.

(** * Exact behaviour of the two operations *)

Definition kalloc_state (s : kst) : kst :=
  if k_freelist s =? 0 then s
  else s <| k_freelist := load64 (k_freelist s) (k_mem s) |>
         <| k_mem ::= memset (k_freelist s) 5 PGSIZE |>.

Definition kfree_state (pa : Z) (s : kst) : kst :=
  s <| k_mem ::= memset pa 1 PGSIZE |> <| k_mem ::= store64 pa (k_freelist s) |>
    <| k_freelist := pa |>.

Lemma kalloc_eq w :
  LKmem ∉ k_held (wk w) ->
  kalloc w = Ok (k_freelist (wk w)) (mkW (kalloc_state (wk w)) (wenv w)).
Proof.
  intros H. destruct w as [s e]. simpl in *. unfold kalloc, kalloc_state, rd64. krun. simpl.
  destruct (k_freelist s =? 0); simpl; krun; unfold mret, K_ret; do 2 f_equal; simpl;
    kst_eq; by rewrite filter_cons_self.
Qed.

Lemma kfree_eq pa w :
  LKmem ∉ k_held (wk w) -> page_ok (wk w) pa ->
  kfree pa w = Ok tt (mkW (kfree_state pa (wk w)) (wenv w)).
Proof.
  intros H [Hal Hr]. destruct w as [s e]. simpl in *. unfold kfree, kfree_state, wr64.
  krun. simpl. rewrite Hal. destruct (Z.ltb_spec pa (k_end s)); [lia|].
  destruct (Z.leb_spec PHYSTOP pa); [lia|]. simpl. krun. do 2 f_equal. simpl.
  kst_eq; by rewrite filter_cons_self.
Qed.

Lemma kfree_panics pa w : ~ page_ok (wk w) pa -> kfree pa w = Panic "kfree".
Proof.
  intros H. unfold kfree. krun.
  destruct (Z.eqb_spec (pa mod PGSIZE) 0); simpl; [|done].
  destruct (Z.ltb_spec pa (k_end (wk w))); simpl; [done|].
  destruct (Z.leb_spec PHYSTOP pa); simpl; [done|]. exfalso. apply H. split; lia.
Qed.

(** Only memory and the allocator changed. *)
Definition mem_only (s s' : kst) : Prop :=
  exists fl m, s' = s <| k_freelist := fl |> <| k_mem := m |>.

#[export] Instance mem_only_preorder : PreOrder mem_only.
Proof.
  split.
  - intros s. exists (k_freelist s), (k_mem s). kst_eq.
  - intros s1 s2 s3 (f1 & m1 & ->) (f2 & m2 & ->). exists f2, m2. kst_eq.
Qed.

Lemma mem_only_held s s' : mem_only s s' -> k_held s' = k_held s.
Proof. by intros (? & ? & ->). Qed.

Lemma mem_only_end s s' : mem_only s s' -> k_end s' = k_end s.
Proof. by intros (? & ? & ->). Qed.

Lemma mem_only_page_ok s s' p : mem_only s s' -> page_ok s' p <-> page_ok s p.
Proof. by intros (? & ? & ->). Qed.

(** * Refinement: a stack of free pages *)

Lemma page_ok_range s p : 0 < k_end s -> page_ok s p -> 0 < p < 2 ^ 64.
Proof. unfold page_ok. change PHYSTOP with 0x88000000. lia. Qed.

(** kalloc pops the free list: the page comes filled with 5s, and nothing
    outside it changes. *)
Lemma kalloc_pop w p l :
  LKmem ∉ k_held (wk w) -> free_list (wk w) (p :: l) ->
  exists s', kalloc w = Ok p (mkW s' (wenv w)) /\ free_list s' l /\
    mem_only (wk w) s' /\
    forall b, mrd (k_mem s') b = if decide (p <= b < p + PGSIZE) then 5 else mrd (k_mem (wk w)) b.
Proof.
  intros Hh [[Hhd Hc] Hnd Hp He]. destruct w as [s e]; simpl in *.
  apply NoDup_cons in Hnd as [Hnin Hnd]. apply Forall_cons in Hp as [Hpo Hp].
  pose proof (page_ok_range s p He Hpo) as Hr.
  exists (kalloc_state s). rewrite kalloc_eq by done. simpl. rewrite Hhd. split_and!; [done|..].
  all: unfold kalloc_state; rewrite Hhd; destruct (Z.eqb_spec p 0); [lia|].
  - split; simpl; [|done|done|done]. apply (chain_frame (k_mem s)); [done|].
    intros q b Hq Hb. rewrite memset_spec by done. rewrite decide_False; [done|].
    apply (page_disjoint q p); [|by apply Hpo|set_solver|done].
    rewrite Forall_forall in Hp. by apply Hp.
  - eexists _, _. kst_eq.
  - intros b. simpl. by rewrite memset_spec.
Qed.

Lemma kalloc_none w :
  LKmem ∉ k_held (wk w) -> free_list (wk w) [] -> kalloc w = Ok 0 w.
Proof.
  intros Hh [Hc _ _ _]. simpl in Hc. rewrite kalloc_eq by done. unfold kalloc_state.
  rewrite Hc. simpl. by destruct w.
Qed.

(** kfree pushes a page, changing no other memory. *)
Lemma kfree_push w p l :
  LKmem ∉ k_held (wk w) -> free_list (wk w) l -> page_ok (wk w) p -> p ∉ l ->
  exists s', kfree p w = Ok tt (mkW s' (wenv w)) /\ free_list s' (p :: l) /\
    mem_only (wk w) s' /\
    forall b, ~ (p <= b < p + PGSIZE) -> mrd (k_mem s') b = mrd (k_mem (wk w)) b.
Proof.
  intros Hh [Hc Hnd Hp He] Hpo Hnin. destruct w as [s e]; simpl in *.
  pose proof (page_ok_range s p He Hpo) as Hr.
  exists (kfree_state p s). rewrite kfree_eq by done.
  assert (Hout : forall b, ~ (p <= b < p + PGSIZE) ->
    mrd (k_mem (kfree_state p s)) b = mrd (k_mem s) b).
  { intros b Hb. simpl. rewrite mrd_store by (unfold PGSIZE in Hb; lia).
    rewrite memset_spec by done. by rewrite decide_False. }
  split_and!; [done| |eexists _, _; kst_eq|done].
  split; [|by apply NoDup_cons|by apply Forall_cons|done]. simpl. split; [done|].
  rewrite load_store. rewrite Z.mod_small.
  - apply (chain_frame (k_mem s)); [done|]. intros q b Hq Hb. apply Hout.
    apply (page_disjoint q p); [|by apply Hpo|set_solver|done].
    rewrite Forall_forall in Hp. by apply Hp.
  - destruct l as [|q l]; simpl in Hc; [lia|]. destruct Hc as [-> _].
    apply Forall_cons in Hp as [Hq _]. pose proof (page_ok_range s q He Hq). lia.
Qed.

(** * Initialisation *)

Lemma freerange_loop_spec fuel : forall p pa_end w l,
  LKmem ∉ k_held (wk w) -> free_list (wk w) l ->
  p mod PGSIZE = 0 -> k_end (wk w) <= p -> pa_end <= PHYSTOP ->
  (forall q, q ∈ l -> q < p) -> pa_end - p < PGSIZE * Z.of_nat fuel -> (0 < fuel)%nat ->
  exists s' l', freerange_loop fuel p pa_end w = Ok tt (mkW s' (wenv w)) /\
    free_list s' l' /\ mem_only (wk w) s' /\
    forall q, q ∈ l' <-> q ∈ l \/ (q mod PGSIZE = 0 /\ p <= q /\ q + PGSIZE <= pa_end).
Proof.
  induction fuel as [|fuel IH]; intros p pa_end w l Hh Hl Hal Hlo Hhi Hlt Hf Hpos; [lia|].
  cbn [freerange_loop]. destruct (Z.leb_spec (p + PGSIZE) pa_end) as [Hle|Hgt].
  - destruct (kfree_push w p l) as (s1 & E1 & Hl1 & Hm1 & _); [done|done| |set_solver by lia|].
    { split; [done|]. unfold PGSIZE in *. lia. }
    rewrite (bind_ok _ _ _ _ _ E1).
    destruct (IH (p + PGSIZE) pa_end (mkW s1 (wenv w)) (p :: l)) as (s2 & l2 & E2 & Hl2 & Hm2 & Hq2).
    all: simpl; rewrite ?(mem_only_held _ _ Hm1), ?(mem_only_end _ _ Hm1); try done.
    { unfold PGSIZE in *. rewrite Z.add_mod, Hal by lia. done. }
    1, 4: unfold PGSIZE in *; lia.
    { intros q [->|Hq]%elem_of_cons; [unfold PGSIZE; lia|].
      apply Hlt in Hq. unfold PGSIZE; lia. }
    { unfold PGSIZE in *; lia. }
    exists s2, l2. simpl in *. split_and!; [done|done|by etrans|]. intros q. rewrite Hq2, elem_of_cons.
    split; [intros [[->|?]|?]; unfold PGSIZE in *; [right|left|right]; naive_solver lia|].
    intros [?|(Hqa & Hpq & Hqe)]; [tauto|]. destruct (decide (q = p)) as [->|Hne]; [tauto|].
    right. split_and!; [done| |done]. destruct (Z.le_gt_cases (p + PGSIZE) q); [done|].
    destruct Hne. apply page_boundary_unique; unfold PGSIZE in *; [done..|lia].
  - exists (wk w), l. split_and!; [by destruct w|done|done|]. intros q. split; [tauto|].
    intros [?|(?&?&?)]; [done|lia].
Qed.

Lemma kinit_spec w :
  LKmem ∉ k_held (wk w) -> k_freelist (wk w) = 0 -> 0 < k_end (wk w) <= PHYSTOP ->
  exists s' l, kinit w = Ok tt (mkW s' (wenv w)) /\ free_list s' l /\ mem_only (wk w) s' /\
    forall p, p ∈ l <-> page_ok (wk w) p.
Proof.
  intros Hh Hf He. unfold kinit, freerange. rewrite bind_gets.
  assert (HP : PHYSTOP = 0x88000000) by done.
  destruct (PGROUNDUP_spec (k_end (wk w))) as [Ha Hb]; [unfold PGSIZE; lia|].
  destruct (freerange_loop_spec (S (Z.to_nat ((PHYSTOP - PGROUNDUP (k_end (wk w))) / PGSIZE)))
    (PGROUNDUP (k_end (wk w))) PHYSTOP w []) as (s' & l & E & Hl & Hm & Hq).
  all: try done.
  { split; [done|apply NoDup_nil_2|by apply Forall_nil|lia]. }
  { lia. }
  { by intros q ?%elem_of_nil. }
  { unfold PGSIZE in *. pose proof (Z.div_mod (PHYSTOP - PGROUNDUP (k_end (wk w))) 4096 ltac:(lia)).
    pose proof (Z.mod_pos_bound (PHYSTOP - PGROUNDUP (k_end (wk w))) 4096 ltac:(lia)).
    lia. }
  { lia. }
  exists s', l. split_and!; [done..|]. intros p. rewrite Hq. unfold page_ok. rewrite elem_of_nil.
  assert (HPa : PHYSTOP mod PGSIZE = 0) by done.
  split; [intros [[]|]; unfold PGSIZE in *; naive_solver lia|]. intros (Hpa & Hlo & Hhi). right.
  split_and!; [done| |].
  - destruct (Z.le_gt_cases (PGROUNDUP (k_end (wk w))) p) as [|Hlt]; [done|].
    enough (PGROUNDUP (k_end (wk w)) = p) by lia. apply page_boundary_unique; unfold PGSIZE in *; [done..|lia].
  - destruct (Z.le_gt_cases (p + PGSIZE) PHYSTOP) as [|Hlt]; [done|].
    enough (PHYSTOP = p) by lia. apply page_boundary_unique; unfold PGSIZE in *; [done..|lia].
Qed.

(** * The allocator and its clients

    Clients allocate pages, free pages they own, and write to pages they own;
    [out] is the list of pages currently handed out. *)

Inductive kop := OpAlloc | OpFree (p : Z) | OpWrite (p i v : Z).

Definition client_ok (out : list Z) (op : kop) : Prop :=
  match op with
  | OpAlloc => True
  | OpFree p => p ∈ out
  | OpWrite p i v => p ∈ out /\ 0 <= i < PGSIZE
  end.

Definition do_op (op : kop) (out : list Z) : K (list Z) :=
  match op with
  | OpAlloc => p ← kalloc; mret (if p =? 0 then out else p :: out)
  | OpFree p => kfree p;; mret (filter (.≠ p) out)
  | OpWrite p i v => modify (fun s => s <| k_mem ::= mwr (p + i) v |>);; mret out
  end.

Inductive kreach : world -> list Z -> Prop :=
| kreach_init w w' :
    LKmem ∉ k_held (wk w) -> k_freelist (wk w) = 0 -> 0 < k_end (wk w) <= PHYSTOP ->
    kinit w = Ok tt w' -> kreach w' []
| kreach_op w out op out' w' :
    kreach w out -> client_ok out op -> do_op op out w = Ok out' w' -> kreach w' out'.

(** The pages split into those handed out and those on the free list. *)
Definition alloc_inv (w : world) (out l : list Z) : Prop :=
  LKmem ∉ k_held (wk w) /\ free_list (wk w) l /\ NoDup (out ++ l) /\
  forall p, p ∈ out ++ l <-> page_ok (wk w) p.

Lemma alloc_inv_op w out l op :
  alloc_inv w out l -> client_ok out op ->
  exists out' w' l', do_op op out w = Ok out' w' /\ alloc_inv w' out' l'.
Proof.
  intros (Hh & Hl & Hnd & Hp) Hop. destruct op as [|p|p i v]; simpl in *.
  - destruct l as [|p l].
    + rewrite (bind_ok _ _ _ _ _ (kalloc_none w Hh Hl)). simpl. by exists out, w, [].
    + destruct (kalloc_pop w p l Hh Hl) as (s' & E & Hl' & Hm & _).
      rewrite (bind_ok _ _ _ _ _ E). exists (p :: out), (mkW s' (wenv w)), l.
      assert (Hpo : page_ok (wk w) p) by (apply Hp; set_solver).
      apply (page_ok_range _ _ (fl_end _ _ Hl)) in Hpo.
      destruct (Z.eqb_spec p 0); [lia|]. split; [done|]. unfold alloc_inv. simpl.
      rewrite (mem_only_held _ _ Hm). split_and!; [done|done| |].
      * by rewrite (Permutation_middle out l p) in *.
      * intros q. rewrite (mem_only_page_ok _ _ _ Hm), <- Hp. set_solver.
  - assert (Hpl : p ∉ l). { apply NoDup_app in Hnd. set_solver. }
    destruct (kfree_push w p l Hh Hl) as (s' & E & Hl' & Hm & _); [apply Hp; set_solver|done|].
    rewrite (bind_ok _ _ _ _ _ E). eexists _, _, (p :: l). split; [done|].
    unfold alloc_inv. simpl. rewrite (mem_only_held _ _ Hm). split_and!; [done|done| |].
    + apply NoDup_app in Hnd as (Hn1 & Hn2 & Hn3). apply NoDup_app. split_and!.
      * by apply NoDup_filter.
      * intros q Hq%list_elem_of_filter. set_solver.
      * by apply NoDup_cons.
    + intros q. rewrite (mem_only_page_ok _ _ _ Hm), <- Hp. rewrite !elem_of_app, elem_of_cons, list_elem_of_filter.
      destruct (decide (q = p)) as [->|]; tauto.
  - eexists _, _, l. split; [done|]. destruct Hop as [Hpo Hi]. split_and!; [done| |done|done].
    destruct Hl as [Hc ? Hf ?]. split; simpl; [|done|done|done].
    apply (chain_frame (k_mem (wk w))); [done|]. intros q b Hq Hb. rewrite mrd_mwr.
    rewrite decide_False; [done|]. intros <-. apply NoDup_app in Hnd as (_ & Hd & _).
    apply (page_disjoint q p (p + i)); [..|lia]; [|apply Hp; set_solver|set_solver|done].
    rewrite Forall_forall in Hf. by apply Hf.
Qed.

Lemma kreach_inv w out : kreach w out -> exists l, alloc_inv w out l.
Proof.
  induction 1 as [w w' Hh Hf He E|w out op out' w' _ [l Hi] Hop E].
  - destruct (kinit_spec w Hh Hf He) as (s' & l & E' & Hl & Hm & Hp).
    rewrite E' in E. simplify_eq. exists l. split_and!; simpl; [|done|by destruct Hl|].
    + by rewrite (mem_only_held _ _ Hm).
    + intros p. by rewrite (mem_only_page_ok _ _ _ Hm).
  - destruct (alloc_inv_op w out l op Hi Hop) as (out'' & w'' & l' & E' & Hi').
    rewrite E' in E. simplify_eq. by exists l'.
Qed.

(** C10: from boot on, whatever sequence of allocations, frees of owned pages and
    writes to owned pages the clients make, every managed page is either handed
    out to one client or on the free list, never both and never twice; and the
    next allocation, free or write runs without panicking. *)
Theorem kalloc_partition w out :
  kreach w out ->
  (exists l, free_list (wk w) l /\ NoDup (out ++ l) /\ forall p, p ∈ out ++ l <-> page_ok (wk w) p) /\
  forall op, client_ok out op -> exists out' w', do_op op out w = Ok out' w'.
Proof.
  intros [l Hi]%kreach_inv. split.
  - destruct Hi as (_ & ? & ? & ?). by exists l.
  - intros op Hop. destruct (alloc_inv_op w out l op Hi Hop) as (out' & w' & _ & E & _). eauto.
Qed.

Lemma kalloc_partition_witness :
  exists w, kreach w [] /\
    (exists l, free_list (wk w) l /\ NoDup ([] ++ l) /\ forall p, p ∈ [] ++ l <-> page_ok (wk w) p) /\
    forall op, client_ok [] op -> exists out' w', do_op op [] w = Ok out' w'.
Proof.
  pose (w0 := mkW (bss 0x87ff0000 0x80008000 0x80007000 demo_syms demo_reg ∅ ∅) []).
  assert (Hh : LKmem ∉ k_held (wk w0)) by apply not_elem_of_nil.
  assert (Hf : k_freelist (wk w0) = 0) by reflexivity.
  assert (He : 0 < k_end (wk w0) <= PHYSTOP) by by vm_compute.
  destruct (kinit_spec w0 Hh Hf He) as (s' & l & E & _).
  pose proof (kreach_init w0 _ Hh Hf He E) as Hr.
  eexists. split; [exact Hr|]. exact (kalloc_partition _ [] Hr).
Defined.

(** kfree panics exactly when the pointer is not the start of a page between
    the end of the kernel image and PHYSTOP; otherwise it returns. *)
Theorem kfree_panics_iff pa w :
  LKmem ∉ k_held (wk w) -> kfree pa w = Panic "kfree" <-> ~ page_ok (wk w) pa.
Proof.
  intros Hh. split; [|apply kfree_panics]. intros E Hp. by rewrite (kfree_eq pa w Hh Hp) in E.
Qed.

Lemma kfree_panics_iff_witness :
  let w := mkW (bss 0x80022000 0x80008000 0x80007000 demo_syms demo_reg ∅ ∅) [] in
  (kfree 0x80022001 w = Panic "kfree" <-> ~ page_ok (wk w) 0x80022001) /\
  (kfree 0x88000000 w = Panic "kfree" <-> ~ page_ok (wk w) 0x88000000).
Proof. split; apply kfree_panics_iff; apply not_elem_of_nil. Defined.
