(* ===== verification/Vm.v ===== *)
(** kernel/vm.c: Sv39 page tables, user address spaces, and copying between
    the kernel and user memory.

    Page tables live in memory as the code lays them out: a page-table page is
    512 little-endian 64-bit entries, and [walk] returns the address of an
    entry.  A kernel buffer that is copied to or from user space is the list of
    its bytes. *)

From S2P Require Import Prelude Riscv Memory CString State Kalloc.

(** pte_t *walk(pagetable_t pagetable, uint64 va, int alloc): the loop body for
    one level; the result is the next page-table page, or nothing where the
    code returns 0. *)
Definition walk_level (level : Z) (pagetable va : Z) (alloc : bool) : K (option Z) :=
  let pte := pagetable + 8 * PX level va in
  v ← rd64 pte;
  if negb (Z.land v PTE_V =? 0) then mret (Some (PTE2PA v))
  else if negb alloc then mret None
  else
    pg ← kalloc;
    if pg =? 0 then mret None
    else
      modify (fun s => s <| k_mem ::= memset pg 0 PGSIZE |>);;
      wr64 pte (Z.lor (PA2PTE pg) PTE_V);;
      mret (Some pg).

Definition walk (pagetable va : Z) (alloc : bool) : K Z :=
  if MAXVA <=? va then panic "walk"
  else
    l1 ← walk_level 2 pagetable va alloc;
    match l1 with
    | None => mret 0
    | Some pt1 =>
        l0 ← walk_level 1 pt1 va alloc;
        match l0 with
        | None => mret 0
        | Some pt0 => mret (pt0 + 8 * PX 0 va)
        end
    end.

(** uint64 walkaddr(pagetable_t pagetable, uint64 va) *)
Definition walkaddr (pagetable va : Z) : K Z :=
  if MAXVA <=? va then mret 0
  else
    pte ← walk pagetable va false;
    if pte =? 0 then mret 0
    else
      v ← rd64 pte;
      if Z.land v PTE_V =? 0 then mret 0
      else if Z.land v PTE_U =? 0 then mret 0
      else mret (PTE2PA v).

(** int mappages(pagetable_t pagetable, uint64 va, uint64 size, uint64 pa, int perm) *)
Fixpoint mappages_loop (fuel : nat) (pagetable a last pa perm : Z) : K Z :=
  match fuel with
  | O => diverge
  | S fuel' =>
      pte ← walk pagetable a true;
      if pte =? 0 then mret (-1)
      else
        v ← rd64 pte;
        when (negb (Z.land v PTE_V =? 0)) (panic "mappages: remap");;
        wr64 pte (Z.lor (Z.lor (PA2PTE pa) perm) PTE_V);;
        if a =? last then mret 0
        else mappages_loop fuel' pagetable (u64 (a + PGSIZE)) last (u64 (pa + PGSIZE)) perm
  end.
Definition mappages (pagetable va size pa perm : Z) : K Z :=
  when (negb (va mod PGSIZE =? 0)) (panic "mappages: va not aligned");;
  when (negb (size mod PGSIZE =? 0)) (panic "mappages: size not aligned");;
  when (size =? 0) (panic "mappages: size");;
  mappages_loop (Z.to_nat (size / PGSIZE)) pagetable va (u64 (va + size - PGSIZE)) pa perm.

(** void kvmmap(pagetable_t kpgtbl, uint64 va, uint64 pa, uint64 sz, int perm) *)
Definition kvmmap (kpgtbl va pa sz perm : Z) : K unit :=
  r ← mappages kpgtbl va sz pa perm;
  when (negb (r =? 0)) (panic "kvmmap").

(** void proc_mapstacks(pagetable_t kpgtbl), of proc.c *)
Definition proc_mapstacks (kpgtbl : Z) : K unit :=
  forK (upto NPROC) (fun p =>
    pa ← kalloc;
    when (pa =? 0) (panic "kalloc");;
    kvmmap kpgtbl (KSTACK p) pa PGSIZE (Z.lor PTE_R PTE_W)).

(** pagetable_t kvmmake(void) *)
Definition kvmmake : K Z :=
  kpgtbl ← kalloc;
  when (kpgtbl =? 0) ub;;
  modify (fun s => s <| k_mem ::= memset kpgtbl 0 PGSIZE |>);;
  kvmmap kpgtbl UART0 UART0 PGSIZE (Z.lor PTE_R PTE_W);;
  kvmmap kpgtbl VIRTIO0 VIRTIO0 PGSIZE (Z.lor PTE_R PTE_W);;
  kvmmap kpgtbl PLIC PLIC 0x4000000 (Z.lor PTE_R PTE_W);;
  etext ← gets k_etext;
  kvmmap kpgtbl KERNBASE KERNBASE (u64 (etext - KERNBASE)) (Z.lor PTE_R PTE_X);;
  kvmmap kpgtbl etext etext (u64 (PHYSTOP - etext)) (Z.lor PTE_R PTE_W);;
  trampoline ← gets k_trampoline;
  kvmmap kpgtbl TRAMPOLINE trampoline PGSIZE (Z.lor PTE_R PTE_X);;
  proc_mapstacks kpgtbl;;
  mret kpgtbl.

(** void kvminit(void) *)
Definition kvminit : K unit :=
  kpgtbl ← kvmmake;
  modify (fun s => s <| k_kpagetable := kpgtbl |>).

(** void uvmunmap(pagetable_t pagetable, uint64 va, uint64 npages, int do_free) *)
Fixpoint uvmunmap_loop (fuel : nat) (pagetable a lim : Z) (do_free : bool) : K unit :=
  match fuel with
  | O => diverge
  | S fuel' =>
      if a <? lim then
        pte ← walk pagetable a false;
        when (pte =? 0) (panic "uvmunmap: walk");;
        v ← rd64 pte;
        when (Z.land v PTE_V =? 0) (panic "uvmunmap: not mapped");;
        when (PTE_FLAGS v =? PTE_V) (panic "uvmunmap: not a leaf");;
        when do_free (kfree (PTE2PA v));;
        wr64 pte 0;;
        uvmunmap_loop fuel' pagetable (u64 (a + PGSIZE)) lim do_free
      else mret tt
  end.
Definition uvmunmap (pagetable va npages : Z) (do_free : bool) : K unit :=
  when (negb (va mod PGSIZE =? 0)) (panic "uvmunmap: not aligned");;
  let lim := u64 (va + u64 (npages * PGSIZE)) in
  uvmunmap_loop (S (Z.to_nat ((lim - va) / PGSIZE))) pagetable va lim do_free.

(** pagetable_t uvmcreate() *)
Definition uvmcreate : K Z :=
  pagetable ← kalloc;
  if pagetable =? 0 then mret 0
  else modify (fun s => s <| k_mem ::= memset pagetable 0 PGSIZE |>);; mret pagetable.

(** void uvmfirst(pagetable_t pagetable, uchar *src, uint sz) *)
Definition uvmfirst (pagetable : Z) (src : list Z) : K unit :=
  when (PGSIZE <=? Z.of_nat (length src)) (panic "uvmfirst: more than a page");;
  pg ← kalloc;
  when (pg =? 0) ub;;
  modify (fun s => s <| k_mem ::= memset pg 0 PGSIZE |>);;
  _ ← mappages pagetable 0 PGSIZE pg (Z.lor (Z.lor (Z.lor PTE_W PTE_R) PTE_X) PTE_U);
  modify (fun s => s <| k_mem ::= mstore pg src |>).

(** uint64 uvmdealloc(pagetable_t pagetable, uint64 oldsz, uint64 newsz) *)
Definition uvmdealloc (pagetable oldsz newsz : Z) : K Z :=
  if oldsz <=? newsz then mret oldsz
  else
    when (PGROUNDUP newsz <? PGROUNDUP oldsz)
      (let npages := i32 ((PGROUNDUP oldsz - PGROUNDUP newsz) / PGSIZE) in
       uvmunmap pagetable (PGROUNDUP newsz) (u64 npages) true);;
    mret newsz.

(** uint64 uvmalloc(pagetable_t pagetable, uint64 oldsz, uint64 newsz, int xperm) *)
Fixpoint uvmalloc_loop (fuel : nat) (pagetable a oldsz newsz xperm : Z) : K Z :=
  match fuel with
  | O => diverge
  | S fuel' =>
      if a <? newsz then
        pg ← kalloc;
        if pg =? 0 then uvmdealloc pagetable a oldsz;; mret 0
        else
          modify (fun s => s <| k_mem ::= memset pg 0 PGSIZE |>);;
          r ← mappages pagetable a PGSIZE pg (Z.lor (Z.lor PTE_R PTE_U) xperm);
          if negb (r =? 0) then kfree pg;; uvmdealloc pagetable a oldsz;; mret 0
          else uvmalloc_loop fuel' pagetable (u64 (a + PGSIZE)) oldsz newsz xperm
      else mret newsz
  end.
Definition uvmalloc (pagetable oldsz newsz xperm : Z) : K Z :=
  if newsz <? oldsz then mret oldsz
  else
    let oldsz := PGROUNDUP oldsz in
    uvmalloc_loop (S (S (Z.to_nat ((newsz - oldsz) / PGSIZE)))) pagetable oldsz oldsz newsz xperm.

(** void freewalk(pagetable_t pagetable); [depth] bounds the recursion, which
    in a page table goes three levels deep. *)
Fixpoint freewalk_depth (depth : nat) (pagetable : Z) : K unit :=
  match depth with
  | O => diverge
  | S depth' =>
      forK (upto 512) (fun i =>
        pte ← rd64 (pagetable + 8 * i);
        if negb (Z.land pte PTE_V =? 0) && (Z.land pte (Z.lor (Z.lor PTE_R PTE_W) PTE_X) =? 0) then
          freewalk_depth depth' (PTE2PA pte);;
          wr64 (pagetable + 8 * i) 0
        else when (negb (Z.land pte PTE_V =? 0)) (panic "freewalk: leaf"));;
      kfree pagetable
  end.
Definition freewalk (pagetable : Z) : K unit := freewalk_depth 3 pagetable.

(** void uvmfree(pagetable_t pagetable, uint64 sz) *)
Definition uvmfree (pagetable sz : Z) : K unit :=
  when (0 <? sz) (uvmunmap pagetable 0 (PGROUNDUP sz / PGSIZE) true);;
  freewalk pagetable.

(** int uvmcopy(pagetable_t old, pagetable_t new, uint64 sz) *)
Fixpoint uvmcopy_loop (fuel : nat) (old new i sz : Z) : K Z :=
  match fuel with
  | O => diverge
  | S fuel' =>
      if i <? sz then
        pte ← walk old i false;
        when (pte =? 0) (panic "uvmcopy: pte should exist");;
        v ← rd64 pte;
        when (Z.land v PTE_V =? 0) (panic "uvmcopy: page not present");;
        let pa := PTE2PA v in
        let flags := PTE_FLAGS v in
        pg ← kalloc;
        if pg =? 0 then uvmunmap new 0 (i / PGSIZE) true;; mret (-1)
        else
          modify (fun s => s <| k_mem ::= memmove pg pa PGSIZE |>);;
          r ← mappages new i PGSIZE pg flags;
          if negb (r =? 0) then kfree pg;; uvmunmap new 0 (i / PGSIZE) true;; mret (-1)
          else uvmcopy_loop fuel' old new (u64 (i + PGSIZE)) sz
      else mret 0
  end.
Definition uvmcopy (old new sz : Z) : K Z :=
  uvmcopy_loop (S (S (Z.to_nat (sz / PGSIZE)))) old new 0 sz.

(** void uvmclear(pagetable_t pagetable, uint64 va) *)
Definition uvmclear (pagetable va : Z) : K unit :=
  pte ← walk pagetable va false;
  when (pte =? 0) (panic "uvmclear");;
  v ← rd64 pte;
  wr64 pte (Z.land v (u64 (Z.lnot PTE_U))).

(** int copyout(pagetable_t pagetable, uint64 dstva, char *src, uint64 len):
    [src] is the [len] bytes at the kernel address. *)
Fixpoint copyout_loop (fuel : nat) (pagetable dstva : Z) (src : list Z) : K Z :=
  match fuel with
  | O => diverge
  | S fuel' =>
      let len := Z.of_nat (length src) in
      if 0 <? len then
        let va0 := PGROUNDDOWN dstva in
        if MAXVA <=? va0 then mret (-1)
        else
          pte ← walk pagetable va0 false;
          if pte =? 0 then mret (-1)
          else
            v ← rd64 pte;
            if (Z.land v PTE_V =? 0) || (Z.land v PTE_U =? 0) || (Z.land v PTE_W =? 0)
            then mret (-1)
            else
              let pa0 := PTE2PA v in
              let n := Z.min (PGSIZE - (dstva - va0)) len in
              modify (fun s =>
                s <| k_mem ::= mstore (pa0 + (dstva - va0)) (take (Z.to_nat n) src) |>);;
              copyout_loop fuel' pagetable (va0 + PGSIZE) (drop (Z.to_nat n) src)
      else mret 0
  end.
Definition copyout (pagetable dstva : Z) (src : list Z) : K Z :=
  copyout_loop (S (length src)) pagetable dstva src.

(** int copyin(pagetable_t pagetable, char *dst, uint64 srcva, uint64 len): the
    result and the bytes stored from [dst] on; [got] are those stored so far. *)
Fixpoint copyin_loop (fuel : nat) (pagetable srcva len : Z) (got : list Z) : K (Z * list Z) :=
  match fuel with
  | O => diverge
  | S fuel' =>
      if 0 <? len then
        let va0 := PGROUNDDOWN srcva in
        pa0 ← walkaddr pagetable va0;
        if pa0 =? 0 then mret (-1, got)
        else
          let n := Z.min (PGSIZE - (srcva - va0)) len in
          bs ← gets (fun s => mbytes (Z.to_nat n) (pa0 + (srcva - va0)) (k_mem s));
          copyin_loop fuel' pagetable (u64 (va0 + PGSIZE)) (len - n) (got ++ bs)
      else mret (0, got)
  end.
Definition copyin (pagetable srcva len : Z) : K (Z * list Z) :=
  copyin_loop (S (Z.to_nat len)) pagetable srcva len [].

(** int copyinstr(pagetable_t pagetable, char *dst, uint64 srcva, uint64 max):
    the result and the bytes stored from [dst] on.  The inner loop copies at
    most [n] bytes from physical address [p] and says whether it met a NUL. *)
Fixpoint copyinstr_page (n : nat) (p : Z) (m : mem) (got : list Z) : bool * list Z :=
  match n with
  | O => (false, got)
  | S n' =>
      if mrd m p =? 0 then (true, got ++ [0])
      else copyinstr_page n' (p + 1) m (got ++ [mrd m p])
  end.
Fixpoint copyinstr_loop (fuel : nat) (pagetable srcva max : Z) (got : list Z) : K (Z * list Z) :=
  match fuel with
  | O => diverge
  | S fuel' =>
      if 0 <? max then
        let va0 := PGROUNDDOWN srcva in
        pa0 ← walkaddr pagetable va0;
        if pa0 =? 0 then mret (-1, got)
        else
          let n := Z.min (PGSIZE - (srcva - va0)) max in
          r ← gets (fun s => copyinstr_page (Z.to_nat n) (pa0 + (srcva - va0)) (k_mem s) got);
          let '(got_null, got') := r in
          if got_null : bool then mret (0, got')
          else copyinstr_loop fuel' pagetable (u64 (va0 + PGSIZE)) (max - n) got'
      else mret (-1, got)
  end.
Definition copyinstr (pagetable srcva max : Z) : K (Z * list Z) :=
  copyinstr_loop (S (Z.to_nat max)) pagetable srcva max [].
