(* ===== verification/PageTable.v ===== *)
(** The page-table invariant, and the theorems about [walk].

    A page table in memory is described by its directory: a map from index
    paths to page-table pages, [[]] for the root page, [[i2]] for a level-1
    page, [[i2; i1]] for a level-0 page.  [leaf] is what the table says about a
    virtual address, the entry of its level-0 page. *)

From S2P Require Import Prelude Riscv Memory CString State Kalloc Vm.

Abbreviation dirmap := (gmap (list Z) Z).

Definition in_page (a b : Z) : Prop := a <= b < a + PGSIZE.

Record pt_wf (s : kst) (root : Z) (dir : dirmap) : Prop := {
  pt_root : dir !! [] = Some root;
  pt_inj : forall p q a, dir !! p = Some a -> dir !! q = Some a -> p = q;
  pt_page : forall p a, dir !! p = Some a -> page_ok s a;
  pt_path : forall p a, dir !! p = Some a -> (length p <= 2)%nat;
  pt_up : forall p i, is_Some (dir !! (p ++ [i])) -> is_Some (dir !! p) /\ 0 <= i < 512;
  pt_entry : forall p a i, dir !! p = Some a -> (length p < 2)%nat -> 0 <= i < 512 ->
    match dir !! (p ++ [i]) with
    | Some b => load64 (a + 8 * i) (k_mem s) = Z.lor (PA2PTE b) PTE_V
    | None => Z.land (load64 (a + 8 * i) (k_mem s)) PTE_V = 0
    end;
}.

(** A page table together with an allocator whose free pages it does not use. *)
Record vm_inv (s : kst) (root : Z) (dir : dirmap) (l : list Z) : Prop := {
  vi_held : LKmem ∉ k_held s;
  vi_free : free_list s l;
  vi_pt : pt_wf s root dir;
  vi_disj : forall p a, dir !! p = Some a -> a ∉ l;
}.

(** The memory of the page-table pages. *)
Definition dir_mem (dir : dirmap) (b : Z) : Prop := exists p a, dir !! p = Some a /\ in_page a b.

Definition leaf_addr (dir : dirmap) (va : Z) : option Z :=
  (fun a => a + 8 * PX 0 va) <$> dir !! [PX 2 va; PX 1 va].

Definition leaf (s : kst) (dir : dirmap) (va : Z) : Z :=
  match leaf_addr dir va with Some a => load64 a (k_mem s) | None => 0 end.

(** * Page-table entries *)

Lemma page_ok_small s p : 0 < k_end s -> page_ok s p -> 0 < p < 2 ^ 56 /\ p mod PGSIZE = 0.
Proof. unfold page_ok. change PHYSTOP with 0x88000000. lia. Qed.

Lemma pde_valid b : 0 <= b < 2 ^ 56 -> negb (Z.land (Z.lor (PA2PTE b) PTE_V) PTE_V =? 0) = true.
Proof. intros Hb. unfold PTE_V. by rewrite (land_flag_make b (Z.shiftl 1 0) 0). Qed.

Lemma in_page_ne s a a' b :
  page_ok s a -> page_ok s a' -> a <> a' -> in_page a b -> ~ in_page a' b.
Proof. intros [? _] [? _] ? ?. by apply (page_disjoint a a'). Qed.

Lemma entry_in_page a i b : 0 <= i < 512 -> a + 8 * i <= b < a + 8 * i + 8 -> in_page a b.
Proof. unfold in_page, PGSIZE. lia. Qed.

(** Two entries of page-table pages are the same or disjoint. *)
Lemma load_entry_frame s m m' a a' i i' :
  page_ok s a -> page_ok s a' -> 0 <= i < 512 -> 0 <= i' < 512 -> (a, i) <> (a', i') ->
  (forall b, ~ (a <= b - 8 * i < a + 8) -> in_page a' b -> mrd m' b = mrd m b) ->
  load64 (a' + 8 * i') m' = load64 (a' + 8 * i') m.
Proof.
  intros Ha Ha' Hi Hi' Hne H. apply load_ext. intros b Hb.
  assert (Hin : in_page a' b) by (eapply entry_in_page; [exact Hi'|lia]).
  apply H; [|done]. intros Hb'. destruct (decide (a = a')) as [->|Hd].
  - apply Hne. f_equal. lia.
  - apply (in_page_ne s a a' b) in Hd; [done..|]. eapply (entry_in_page a i); lia.
Qed.

(** * Walking without allocation *)

Section walk.
Context (s : kst) (root : Z) (dir : dirmap) (l : list Z).
Context (Hinv : vm_inv s root dir l).

Lemma vi_small p a : dir !! p = Some a -> 0 < a < 2 ^ 56 /\ a mod PGSIZE = 0.
Proof.
  intros Hp. apply (page_ok_small s); [apply Hinv|]. by eapply pt_page; [apply Hinv|].
Qed.

Lemma walk_level_found e level p a b va alloc :
  dir !! p = Some a -> (length p < 2)%nat -> 0 <= level -> 0 <= va ->
  dir !! (p ++ [PX level va]) = Some b ->
  walk_level level a va alloc (mkW s e) = Ok (Some b) (mkW s e).
Proof.
  intros Hp Hlen Hl Hva Hb. unfold walk_level, rd64. rewrite bind_gets. simpl.
  pose proof (pt_entry _ _ _ (vi_pt _ _ _ _ Hinv) p a _ Hp Hlen (PX_range level va Hl Hva)) as He.
  rewrite Hb in He. rewrite He. destruct (vi_small _ _ Hb) as [Hsm Hal].
  rewrite pde_valid by lia. unfold mret, K_ret. do 2 f_equal. by rewrite PTE2PA_make by (done || lia).
Qed.

Lemma walk_level_none e level p a va :
  dir !! p = Some a -> (length p < 2)%nat -> 0 <= level -> 0 <= va ->
  dir !! (p ++ [PX level va]) = None ->
  walk_level level a va false (mkW s e) = Ok None (mkW s e).
Proof.
  intros Hp Hlen Hl Hva Hb. unfold walk_level, rd64. rewrite bind_gets. simpl.
  pose proof (pt_entry _ _ _ (vi_pt _ _ _ _ Hinv) p a _ Hp Hlen (PX_range level va Hl Hva)) as He.
  rewrite Hb in He. by rewrite He.
Qed.

Lemma dir_prefix va : dir !! [PX 2 va] = None -> dir !! [PX 2 va; PX 1 va] = None.
Proof.
  intros H. destruct (dir !! [PX 2 va; PX 1 va]) eqn:E; [|done].
  destruct (pt_up _ _ _ (vi_pt _ _ _ _ Hinv) [PX 2 va] (PX 1 va)) as [[? ?] _]; [eauto|congruence].
Qed.

(** walk without allocation reads the directory and changes nothing. *)
Lemma walk_lookup e va :
  0 <= va < MAXVA ->
  walk root va false (mkW s e) = Ok (default 0 (leaf_addr dir va)) (mkW s e).
Proof.
  intros Hva. unfold walk, leaf_addr. destruct (Z.leb_spec MAXVA va); [lia|].
  pose proof (pt_root _ _ _ (vi_pt _ _ _ _ Hinv)) as Hr.
  destruct (dir !! [PX 2 va]) as [a1|] eqn:E1.
  - rewrite (bind_ok _ _ _ _ _ (walk_level_found e 2 [] root a1 va false Hr ltac:(simpl; lia)
      ltac:(lia) ltac:(lia) E1)).
    destruct (dir !! [PX 2 va; PX 1 va]) as [a0|] eqn:E0.
    + by rewrite (bind_ok _ _ _ _ _ (walk_level_found e 1 [PX 2 va] a1 a0 va false E1
        ltac:(simpl; lia) ltac:(lia) ltac:(lia) E0)).
    + by rewrite (bind_ok _ _ _ _ _ (walk_level_none e 1 [PX 2 va] a1 va E1
        ltac:(simpl; lia) ltac:(lia) ltac:(lia) E0)).
  - rewrite (bind_ok _ _ _ _ _ (walk_level_none e 2 [] root va Hr
      ltac:(simpl; lia) ltac:(lia) ltac:(lia) E1)).
    by rewrite (dir_prefix va E1).
Qed.
End walk.

(** * Walking with allocation *)

(** How operations on a page table change things: the directory grows by pages
    taken from the front of the free list, and all memory outside the
    page-table pages is as before. *)
Record grown (s : kst) (dir : dirmap) (l : list Z) (s' : kst) (dir' : dirmap) (l' : list Z) : Prop := {
  gr_mem_only : mem_only s s';
  gr_dir : dir ⊆ dir';
  gr_new : exists new, l = new ++ l' /\
    (forall p a, dir' !! p = Some a -> dir !! p = Some a \/ a ∈ new) /\
    (forall a, a ∈ new -> exists p, dir' !! p = Some a /\ dir !! p = None);
  gr_out : forall b, ~ dir_mem dir' b -> mrd (k_mem s') b = mrd (k_mem s) b;
}.

Lemma grown_refl s dir l : grown s dir l s dir l.
Proof. split; [done|done|exists []; set_solver|done]. Qed.

Lemma grown_trans s1 d1 l1 s2 d2 l2 s3 d3 l3 :
  grown s1 d1 l1 s2 d2 l2 -> grown s2 d2 l2 s3 d3 l3 -> grown s1 d1 l1 s3 d3 l3.
Proof.
  intros [A1 A2 (n1 & -> & A3 & A5) A4] [B1 B2 (n2 & -> & B3 & B5) B4]. split.
  - by etrans.
  - by etrans.
  - exists (n1 ++ n2). rewrite (assoc_L (++)). split_and!; [done| |].
    + intros p a Hp. apply B3 in Hp as [Hp|]; [|set_solver]. apply A3 in Hp as [|]; set_solver.
    + intros a [Ha|Ha]%elem_of_app.
      * destruct (A5 a Ha) as (p & Hp & Hn). exists p. split; [by eapply lookup_weaken|done].
      * destruct (B5 a Ha) as (p & Hp & Hn). exists p. split; [done|]. by eapply lookup_weaken_None.
  - intros b Hb. rewrite B4 by done. apply A4. intros (p & a & Hp & Hin). apply Hb.
    exists p, a. split; [|done]. by eapply lookup_weaken.
Qed.

(** walk may add page-table pages but does not change what the table says. *)
Record walked (s : kst) (dir : dirmap) (l : list Z) (s' : kst) (dir' : dirmap) (l' : list Z) : Prop := {
  wk_grown : grown s dir l s' dir' l';
  wk_leaf : forall va, 0 <= va -> leaf s' dir' va = leaf s dir va;
}.

Lemma walked_refl s dir l : walked s dir l s dir l.
Proof. split; [apply grown_refl|done]. Qed.

Lemma walked_trans s1 d1 l1 s2 d2 l2 s3 d3 l3 :
  walked s1 d1 l1 s2 d2 l2 -> walked s2 d2 l2 s3 d3 l3 -> walked s1 d1 l1 s3 d3 l3.
Proof.
  intros [A1 A2] [B1 B2]. split; [by eapply grown_trans|]. intros va Hva. by rewrite B2, A2.
Qed.

Lemma extend_fresh s root dir pg l q b : vm_inv s root dir (pg :: l) -> dir !! q = Some b -> b <> pg.
Proof. intros Hinv Hq ->. apply (vi_disj _ _ _ _ Hinv) in Hq. set_solver. Qed.

Lemma extend_pg_ok s root dir pg l : vm_inv s root dir (pg :: l) -> page_ok s pg.
Proof.
  intros Hinv. pose proof (fl_pages _ _ (vi_free _ _ _ _ Hinv)) as H. by apply Forall_cons in H as [H _].
Qed.

Section extend.
Context (s s' : kst) (root : Z) (dir : dirmap) (pg : Z) (l : list Z) (p : list Z) (a i : Z).
Context (Hinv : vm_inv s root dir (pg :: l)) (Hp : dir !! p = Some a) (Hlen : (length p < 2)%nat).
Context (Hi : 0 <= i < 512) (Hnone : dir !! (p ++ [i]) = None).
Context (Hmo : mem_only s s') (Hfree : free_list s' l).
Context (Hzero : forall b, in_page pg b -> mrd (k_mem s') b = 0).
Context (Hcell : load64 (a + 8 * i) (k_mem s') = Z.lor (PA2PTE pg) PTE_V).
Context (Hout : forall b, ~ in_page pg b -> ~ (a <= b - 8 * i < a + 8) ->
  mrd (k_mem s') b = mrd (k_mem s) b).

Lemma extend_entry q b j :
  dir !! q = Some b -> 0 <= j < 512 -> (q, j) <> (p, i) ->
  load64 (b + 8 * j) (k_mem s') = load64 (b + 8 * j) (k_mem s).
Proof.
  intros Hq Hj Hne. pose proof (vi_pt _ _ _ _ Hinv) as Hpt.
  apply (load_entry_frame s _ _ a b i j); [by eapply pt_page|by eapply pt_page|done|done| |].
  - intros [= -> ->]. apply Hne. f_equal. by eapply pt_inj.
  - intros c Hc Hb. apply Hout; [|done]. intros Hpg.
    refine (in_page_ne s b pg c _ _ _ Hb Hpg); [by eapply pt_page|by eapply extend_pg_ok|].
    by eapply extend_fresh.
Qed.

Lemma extend_pt_wf : pt_wf s' root (<[p ++ [i] := pg]> dir).
Proof.
  pose proof (vi_pt _ _ _ _ Hinv) as Hpt. split.
  - rewrite lookup_insert_ne; [by apply Hpt|]. by destruct p.
  - intros q q' b. rewrite !lookup_insert. repeat case_decide; intros Hq Hq'.
    + congruence.
    + injection Hq as Hq. by destruct (extend_fresh s root dir pg l q' b).
    + injection Hq' as Hq'. by destruct (extend_fresh s root dir pg l q b).
    + by eapply pt_inj.
  - intros q b. rewrite (mem_only_page_ok _ _ _ Hmo), lookup_insert.
    case_decide; [intros [= <-]; by eapply extend_pg_ok|by apply Hpt].
  - intros q b. rewrite lookup_insert.
    case_decide as E; [intros _; rewrite <- E, length_app; simpl; lia|by apply Hpt].
  - intros q j. rewrite !lookup_insert. intros Hs. case_decide as E.
    + apply app_inj_tail in E as [<- <-]. split; [|done]. case_decide; [eauto|].
      rewrite Hp. eauto.
    + destruct (pt_up _ _ _ Hpt _ _ Hs) as [? ?]. split; [|done]. case_decide; eauto.
  - intros q b j. rewrite !lookup_insert. intros Hq Hql Hj. case_decide as E.
    + injection Hq as <-. subst q. case_decide as E; [apply app_inj_tail in E as [E _]; exfalso; revert E; clear|].
      { intros E%(f_equal length). rewrite length_app in E. simpl in E. lia. }
      destruct (dir !! ((p ++ [i]) ++ [j])) eqn:E'.
      { destruct (pt_up _ _ _ Hpt (p ++ [i]) j) as [[? ?] _]; [eauto|congruence]. }
      rewrite load_zero; [done|]. intros c Hc. apply Hzero. by eapply entry_in_page; [exact Hj|].
    + case_decide as E2.
      * apply app_inj_tail in E2 as [<- <-]. rewrite Hp in Hq. by injection Hq as <-.
      * rewrite (extend_entry q b j) by (done || naive_solver). by apply Hpt.
Qed.

Lemma extend_vm_inv : vm_inv s' root (<[p ++ [i] := pg]> dir) l.
Proof.
  split; [|done|apply extend_pt_wf|].
  - rewrite (mem_only_held _ _ Hmo). apply Hinv.
  - intros q b. rewrite lookup_insert. pose proof (fl_nodup _ _ (vi_free _ _ _ _ Hinv)) as Hnd.
    apply NoDup_cons in Hnd as [Hnin _]. case_decide; intros Hq; [by injection Hq as <-|].
    apply (vi_disj _ _ _ _ Hinv) in Hq. set_solver.
Qed.

Lemma extend_leaf va : 0 <= va -> leaf s' (<[p ++ [i] := pg]> dir) va = leaf s dir va.
Proof.
  intros Hva. unfold leaf, leaf_addr. rewrite lookup_insert.
  pose proof (PX_range 0 va ltac:(lia) Hva) as Hr. case_decide as E; simpl.
  - rewrite <- E, Hnone. simpl. rewrite load_zero; [done|]. intros c Hc. apply Hzero.
    by eapply entry_in_page; [exact Hr|].
  - destruct (dir !! [PX 2 va; PX 1 va]) as [b|] eqn:Eb; simpl; [|done].
    eapply extend_entry; [exact Eb|done|]. intros [= <- _]. simpl in Hlen. lia.
Qed.
Lemma extend_walked : walked s dir (pg :: l) s' (<[p ++ [i] := pg]> dir) l.
Proof.
  split; [split; [done| | |]|].
  - by apply insert_subseteq.
  - exists [pg]. split_and!; [done| |].
    + intros q b. rewrite lookup_insert.
      case_decide; intros Hq; [injection Hq as <-; right; by left|by left].
    + intros b ->%list_elem_of_singleton. exists (p ++ [i]). by rewrite lookup_insert_eq.
  - intros b Hb. apply Hout.
    + intros Hin. apply Hb. exists (p ++ [i]), pg. split; [apply lookup_insert_eq|exact Hin].
    + intros Hc. apply Hb. exists p, a. rewrite lookup_insert_ne.
      * split; [done|]. eapply (entry_in_page a i); lia.
      * intros E%(f_equal length). rewrite length_app in E. simpl in E. lia.
  - apply extend_leaf.
Qed.
End extend.

(** A free page is none of the page-table pages, nor the page before it on the
    list. *)
Lemma free_page_apart s root dir l p a q b :
  vm_inv s root dir l -> dir !! p = Some a -> q ∈ l -> in_page q b -> ~ in_page a b.
Proof.
  intros Hinv Hp Hq Hb. apply (in_page_ne s q); [| |by intros ->; eapply vi_disj|done].
  - pose proof (fl_pages _ _ (vi_free _ _ _ _ Hinv)) as H. rewrite Forall_forall in H. by apply H.
  - by eapply pt_page; [apply Hinv|].
Qed.

Lemma tail_page_apart s root dir pg l p a q b :
  vm_inv s root dir (pg :: l) -> dir !! p = Some a -> q ∈ l -> in_page q b ->
  ~ in_page pg b /\ ~ in_page a b.
Proof.
  intros Hinv Hp Hq Hb. split; [|eapply free_page_apart; [done..|by right|done]].
  pose proof (fl_pages _ _ (vi_free _ _ _ _ Hinv)) as H. apply Forall_cons in H as [Hpg Hl].
  pose proof (fl_nodup _ _ (vi_free _ _ _ _ Hinv)) as Hnd. apply NoDup_cons in Hnd as [Hnin _].
  apply (in_page_ne s q); [|done|by intros ->|done]. rewrite Forall_forall in Hl. by apply Hl.
Qed.

Lemma walk_level_alloc e s root dir pg l level p a va :
  vm_inv s root dir (pg :: l) -> dir !! p = Some a -> (length p < 2)%nat -> 0 <= level -> 0 <= va ->
  dir !! (p ++ [PX level va]) = None ->
  exists s', walk_level level a va true (mkW s e) = Ok (Some pg) (mkW s' e) /\
    vm_inv s' root (<[p ++ [PX level va] := pg]> dir) l /\
    walked s dir (pg :: l) s' (<[p ++ [PX level va] := pg]> dir) l.
Proof.
  intros Hinv Hp Hlen Hl Hva Hn. pose proof (PX_range level va Hl Hva) as Hi.
  pose proof (vi_pt _ _ _ _ Hinv) as Hpt.
  destruct (kalloc_pop (mkW s e) pg l) as (s1 & E1 & Hl1 & Hm1 & Hb1); [apply Hinv..|]. simpl in *.
  assert (Hpg : page_ok s pg) by (by eapply extend_pg_ok).
  destruct (page_ok_small s pg) as [Hsm Hal]; [apply Hinv|done|].
  assert (Hapg : a <> pg) by (by eapply extend_fresh).
  set (i := PX level va) in *.
  set (m' := store64 (a + 8 * i) (Z.lor (PA2PTE pg) PTE_V) (memset pg 0 PGSIZE (k_mem s1))).
  assert (Hcellout : forall b, in_page pg b -> ~ (a <= b - 8 * i < a + 8)).
  { intros b Hb Hc. refine (in_page_ne s a pg b _ Hpg Hapg _ Hb); [by eapply pt_page|].
    eapply (entry_in_page a i); lia. }
  assert (Hm : mem_only s (s1 <| k_mem := m' |>)).
  { etrans; [exact Hm1|]. exists (k_freelist s1), m'. kst_eq. }
  assert (Hzero : forall b, in_page pg b -> mrd m' b = 0).
  { intros b Hb. pose proof (Hcellout b Hb). subst m'. rewrite mrd_store by lia.
    rewrite memset_spec by done. by rewrite decide_True. }
  assert (Hout : forall b, ~ in_page pg b -> ~ (a <= b - 8 * i < a + 8) -> mrd m' b = mrd (k_mem s) b).
  { intros b Hb Hc. subst m'. rewrite mrd_store by lia. rewrite memset_spec by done.
    rewrite decide_False by done. rewrite Hb1. by rewrite decide_False. }
  assert (Hcell : load64 (a + 8 * i) m' = Z.lor (PA2PTE pg) PTE_V).
  { subst m'. rewrite load_store. apply Z.mod_small.
    pose proof (pte_make_range pg PTE_V ltac:(lia) ltac:(by vm_compute)). lia. }
  assert (Hfree : free_list (s1 <| k_mem := m' |>) l).
  { apply (free_list_frame s1); [done..|]. intros q b Hq Hb.
    destruct (tail_page_apart s root dir pg l p a q b Hinv Hp Hq Hb) as [Hq1 Hq2].
    simpl. rewrite Hout, Hb1; [by rewrite decide_False|done|].
    intros Hc. apply Hq2. eapply (entry_in_page a i); lia. }
  exists (s1 <| k_mem := m' |>). split; [|split].
  - unfold walk_level, rd64. rewrite bind_gets. fold i. simpl.
    pose proof (pt_entry _ _ _ Hpt p a i Hp Hlen Hi) as He. rewrite Hn in He. rewrite He. simpl.
    rewrite (bind_ok _ _ _ _ _ E1). destruct (Z.eqb_spec pg 0); [lia|]. unfold wr64. krun. kret.
  - by eapply extend_vm_inv.
  - by eapply extend_walked.
Qed.

Lemma walk_level_empty e s root dir level p a va :
  vm_inv s root dir [] -> dir !! p = Some a -> (length p < 2)%nat -> 0 <= level -> 0 <= va ->
  dir !! (p ++ [PX level va]) = None ->
  walk_level level a va true (mkW s e) = Ok None (mkW s e).
Proof.
  intros Hinv Hp Hlen Hl Hva Hn. unfold walk_level, rd64. rewrite bind_gets. simpl.
  pose proof (pt_entry _ _ _ (vi_pt _ _ _ _ Hinv) p a _ Hp Hlen (PX_range level va Hl Hva)) as He.
  rewrite Hn in He. rewrite He. simpl.
  by rewrite (bind_ok _ _ _ _ _ (kalloc_none (mkW s e) (vi_held _ _ _ _ Hinv) (vi_free _ _ _ _ Hinv))).
Qed.

(** One level of walk with allocation: it yields the page of the next level,
    new or not, or fails when there is no page left. *)
Lemma walk_level_grow e s root dir l level p a va :
  vm_inv s root dir l -> dir !! p = Some a -> (length p < 2)%nat -> 0 <= level -> 0 <= va ->
  exists r s' dir' l', walk_level level a va true (mkW s e) = Ok r (mkW s' e) /\
    vm_inv s' root dir' l' /\ walked s dir l s' dir' l' /\
    dir' !! (p ++ [PX level va]) = r /\ (r = None -> l' = []).
Proof.
  intros Hinv Hp Hlen Hl Hva. destruct (dir !! (p ++ [PX level va])) as [b|] eqn:E.
  - eexists _, s, dir, l. split; [by eapply walk_level_found|].
    split_and!; [done|apply walked_refl|done|done].
  - destruct l as [|pg l].
    + eexists _, s, dir, []. split; [by eapply walk_level_empty|].
      split_and!; [done|apply walked_refl|done|done].
    + destruct (walk_level_alloc e s root dir pg l level p a va) as (s' & E' & Hi & Hg); [done..|].
      eexists _, s', _, l. split_and!; [done|done|done|apply lookup_insert_eq|done].
Qed.

(** walk with allocation: the result is the address of the leaf entry, or 0
    when the allocator ran out of pages. *)
Lemma walk_grow e s root dir l va :
  vm_inv s root dir l -> 0 <= va < MAXVA ->
  exists s' dir' l', walk root va true (mkW s e) = Ok (default 0 (leaf_addr dir' va)) (mkW s' e) /\
    vm_inv s' root dir' l' /\ walked s dir l s' dir' l' /\ (leaf_addr dir' va = None -> l' = []).
Proof.
  intros Hinv Hva. unfold walk, leaf_addr. destruct (Z.leb_spec MAXVA va); [lia|].
  destruct (walk_level_grow e s root dir l 2 [] root va) as (r1 & s1 & d1 & l1 & E1 & Hi1 & Hg1 & Hr1 & Hn1);
    [done|apply Hinv|simpl; lia|lia|lia|].
  simpl in Hr1. rewrite (bind_ok _ _ _ _ _ E1). destruct r1 as [a1|].
  - destruct (walk_level_grow e s1 root d1 l1 1 [PX 2 va] a1 va)
      as (r0 & s0 & d0 & l0 & E0 & Hi0 & Hg0 & Hr0 & Hn0); [done|done|simpl; lia|lia|lia|].
    simpl in Hr0. rewrite (bind_ok _ _ _ _ _ E0). exists s0, d0, l0. rewrite Hr0.
    split_and!; [by destruct r0|done|by eapply walked_trans|by destruct r0; eauto].
  - exists s1, d1, l1. rewrite (dir_prefix _ _ _ _ Hi1 va Hr1). split_and!; eauto.
Qed.

(** * Writing a leaf entry *)

Definition vpn (va : Z) : Z := va / PGSIZE.

Lemma PX_vpn level va va' :
  0 <= level -> 0 <= va -> 0 <= va' -> vpn va = vpn va' -> PX level va = PX level va'.
Proof.
  unfold vpn, PGSIZE. intros Hl Ha Ha' E. rewrite !PX_eq by done.
  rewrite Z.pow_add_r by lia. change (2 ^ 12) with 4096.
  rewrite <- !Z.div_div by (try apply Z.pow_pos_nonneg; lia). by rewrite E.
Qed.

Lemma vpn_PX va va' :
  0 <= va < MAXVA -> 0 <= va' < MAXVA ->
  PX 2 va = PX 2 va' -> PX 1 va = PX 1 va' -> PX 0 va = PX 0 va' -> vpn va = vpn va'.
Proof.
  intros Ha Ha' E2 E1 E0. unfold vpn. pose proof (va_decompose va Ha) as D.
  pose proof (va_decompose va' Ha') as D'. rewrite E2, E1, E0 in D. unfold PGSIZE in *.
  pose proof (Z.div_mod va 4096 ltac:(lia)). pose proof (Z.div_mod va' 4096 ltac:(lia)). lia.
Qed.

Lemma leaf_addr_vpn dir va va' :
  0 <= va -> 0 <= va' -> vpn va = vpn va' -> leaf_addr dir va = leaf_addr dir va'.
Proof.
  intros Ha Ha' E. unfold leaf_addr.
  rewrite (PX_vpn 2 va va'), (PX_vpn 1 va va') by (done || lia).
  assert (E0 : PX 0 va = PX 0 va') by (apply PX_vpn; done || lia).
  destruct (dir !! _); simpl; [by rewrite E0|done].
Qed.

Lemma leaf_vpn s dir va va' :
  0 <= va -> 0 <= va' -> vpn va = vpn va' -> leaf s dir va = leaf s dir va'.
Proof. intros. unfold leaf. by rewrite (leaf_addr_vpn dir va va'). Qed.

Section leaf_write.
Context (s : kst) (root : Z) (dir : dirmap) (l : list Z) (va a v : Z).
Context (Hinv : vm_inv s root dir l) (Hva : 0 <= va < MAXVA).
Context (Ha : leaf_addr dir va = Some a).

Lemma leaf_addr_page : exists pg, dir !! [PX 2 va; PX 1 va] = Some pg /\ a = pg + 8 * PX 0 va.
Proof. unfold leaf_addr in Ha. destruct (dir !! _) as [pg|]; naive_solver. Qed.

Lemma leaf_addr_dir_mem b : a <= b < a + 8 -> dir_mem dir b.
Proof.
  intros Hb. destruct leaf_addr_page as (pg & Hpg & ->). exists [PX 2 va; PX 1 va], pg.
  split; [done|]. eapply entry_in_page; [|exact Hb]. apply PX_range; lia.
Qed.

Lemma leaf_write_out b : ~ dir_mem dir b -> mrd (store64 a v (k_mem s)) b = mrd (k_mem s) b.
Proof. intros Hb. apply mrd_store. intros Hc. apply Hb, leaf_addr_dir_mem. lia. Qed.

Lemma leaf_write_entry q b j :
  dir !! q = Some b -> 0 <= j < 512 -> (q, j) <> ([PX 2 va; PX 1 va], PX 0 va) ->
  load64 (b + 8 * j) (store64 a v (k_mem s)) = load64 (b + 8 * j) (k_mem s).
Proof.
  intros Hq Hj Hne. destruct leaf_addr_page as (pg & Hpg & Ea).
  pose proof (vi_pt _ _ _ _ Hinv) as Hpt.
  apply (load_entry_frame s _ _ pg b (PX 0 va) j);
    [by eapply pt_page|by eapply pt_page|apply PX_range; lia|done| |].
  - intros [= <- <-]. apply Hne. f_equal. by eapply pt_inj.
  - intros c Hc _. apply mrd_store. rewrite Ea. lia.
Qed.

Lemma leaf_write_inv : vm_inv (s <| k_mem ::= store64 a v |>) root dir l.
Proof.
  destruct Hinv as [Hh Hf Hpt Hd]. split; [done| | |done].
  - apply (free_list_frame s); [done..|]. intros q b Hq Hb. apply leaf_write_out.
    intros (p & pg & Hp & Hin). by eapply (free_page_apart s root dir l p pg q b).
  - destruct Hpt as [? ? ? ? ? He]. split; [done..|]. intros p pg i Hp Hlen Hi. simpl.
    rewrite (leaf_write_entry p pg i); [by apply He|done|done|]. intros [= -> _]. simpl in Hlen. lia.
Qed.

Lemma leaf_write_leaf va' :
  0 <= v < 2 ^ 64 -> 0 <= va' < MAXVA ->
  leaf (s <| k_mem ::= store64 a v |>) dir va' = if decide (vpn va' = vpn va) then v else leaf s dir va'.
Proof.
  intros Hv Hva'. case_decide as E.
  - rewrite (leaf_vpn _ dir va' va) by (done || lia). unfold leaf. rewrite Ha. simpl.
    rewrite load_store. by apply Z.mod_small.
  - unfold leaf, leaf_addr. destruct (dir !! [PX 2 va'; PX 1 va']) as [b|] eqn:Eb; simpl; [|done].
    apply (leaf_write_entry [PX 2 va'; PX 1 va']); [done|apply PX_range; lia|].
    intros [= ? ? ?]. apply E. by apply vpn_PX.
Qed.

Lemma leaf_write_grown : grown s dir l (s <| k_mem ::= store64 a v |>) dir l.
Proof.
  split; [|done|exists []; split_and!; [done|by left|by intros ? ?%elem_of_nil]|apply leaf_write_out].
  exists (k_freelist s), (store64 a v (k_mem s)). kst_eq.
Qed.
End leaf_write.
