(* ===== verification/AddrSpace.v ===== *)
(** What the operations of vm.c do to an address space: the mappings made by
    mappages, removed by uvmunmap, grown and shrunk by uvmalloc and uvmdealloc,
    in terms of what the page table says about each virtual address. *)

From S2P Require Import Prelude Riscv Memory CString State Kalloc Vm PageTable.

Definition mk_pte (pa perm : Z) : Z := Z.lor (Z.lor (PA2PTE pa) perm) PTE_V.

Definition unmapped (s : kst) (dir : dirmap) (va : Z) : Prop := Z.land (leaf s dir va) PTE_V = 0.

Lemma mk_pte_eq pa perm : mk_pte pa perm = Z.lor (PA2PTE pa) (Z.lor perm PTE_V).
Proof. unfold mk_pte. by rewrite Z.lor_assoc. Qed.

Lemma flags_V_range perm : 0 <= perm < 2 ^ 10 -> 0 <= Z.lor perm PTE_V < 2 ^ 10.
Proof.
  intros H. split; [apply Z.lor_nonneg; by split; [lia|vm_compute]|].
  destruct (decide (perm = 0)) as [->|]; [by vm_compute|].
  apply Z.log2_lt_pow2; [|rewrite Z.log2_lor by (lia || by vm_compute)].
  - assert (0 <= Z.lor perm PTE_V) by (apply Z.lor_nonneg; by split; [lia|vm_compute]).
    destruct (decide (Z.lor perm PTE_V = 0)) as [E|]; [|lia].
    apply Z.lor_eq_0_iff in E as [? E]. by vm_compute in E.
  - change (Z.log2 PTE_V) with 0. apply Z.max_lub_lt; [|lia]. apply Z.log2_lt_pow2; lia.
Qed.

Lemma mk_pte_range pa perm :
  0 <= pa < 2 ^ 56 -> 0 <= perm < 2 ^ 10 -> 0 <= mk_pte pa perm < 2 ^ 64.
Proof.
  intros Hpa Hp. rewrite mk_pte_eq.
  pose proof (pte_make_range pa _ Hpa (flags_V_range perm Hp)). lia.
Qed.

Lemma leaf_addr_pos s root dir l va a :
  vm_inv s root dir l -> 0 <= va -> leaf_addr dir va = Some a -> (a =? 0) = false.
Proof.
  intros Hinv Hva Ha. unfold leaf_addr in Ha. destruct (dir !! _) as [pg|] eqn:E; [|done].
  injection Ha as <-. destruct (vi_small _ _ _ _ Hinv _ _ E).
  pose proof (PX_range 0 va ltac:(lia) Hva). apply Z.eqb_neq. lia.
Qed.

Lemma page_of_range a n va :
  a mod PGSIZE = 0 -> 0 <= a -> 0 <= va -> 0 <= n ->
  (a <= va < a + PGSIZE * n <-> vpn a <= vpn va < vpn a + n).
Proof.
  unfold vpn, PGSIZE. intros Ha ? ? ?. pose proof (Z.div_mod a 4096 ltac:(lia)).
  pose proof (Z.div_mod va 4096 ltac:(lia)). pose proof (Z.mod_pos_bound va 4096 ltac:(lia)). lia.
Qed.

(** The physical page mapped at [va] by mapping [pa...] at [a...]. *)
Definition page_at (a pa va : Z) : Z := pa + (va - a) / PGSIZE * PGSIZE.

Lemma page_at_next a pa va : page_at (a + PGSIZE) (pa + PGSIZE) va = page_at a pa va.
Proof.
  unfold page_at. replace (va - (a + PGSIZE)) with (va - a + (-1) * PGSIZE) by lia.
  rewrite Z.div_add by done. lia.
Qed.

(** One round of mappages: out of pages, or the entry of [a] is set. *)
Lemma mappages_round n e s root dir l a last pa perm :
  vm_inv s root dir l -> 0 <= a < MAXVA -> 0 <= pa < 2 ^ 56 -> 0 <= perm < 2 ^ 10 ->
  unmapped s dir a ->
  exists s' dir' l', vm_inv s' root dir' l' /\ grown s dir l s' dir' l' /\
    (mappages_loop (S n) root a last pa perm (mkW s e) = Ok (-1) (mkW s' e) /\ l' = [] /\
       (forall va, 0 <= va -> leaf s' dir' va = leaf s dir va) \/
     mappages_loop (S n) root a last pa perm (mkW s e) =
       (if a =? last then mret 0
        else mappages_loop n root (u64 (a + PGSIZE)) last (u64 (pa + PGSIZE)) perm) (mkW s' e) /\
     forall va, 0 <= va < MAXVA ->
       leaf s' dir' va = if decide (vpn va = vpn a) then mk_pte pa perm else leaf s dir va).
Proof.
  intros Hinv Ha Hpa Hperm Hun.
  destruct (walk_grow e s root dir l a) as (s1 & d1 & l1 & E1 & Hi1 & [Hg1 Hl1] & Hn1); [done..|].
  cbn [mappages_loop]. rewrite (bind_ok _ _ _ _ _ E1).
  destruct (leaf_addr d1 a) as [ad|] eqn:Ead; simpl.
  - pose proof (leaf_write_inv s1 root d1 l1 a ad (mk_pte pa perm) Hi1 Ha Ead) as Hi2.
    pose proof (leaf_write_grown s1 d1 l1 a ad (mk_pte pa perm) Ha Ead) as Hg2.
    eexists _, d1, l1. split_and!; [exact Hi2|by eapply grown_trans|]. right. split.
    + rewrite (leaf_addr_pos s1 root d1 l1 a ad) by (done || lia). unfold rd64, wr64.
      unfold unmapped in Hun. rewrite <- Hl1 in Hun by lia. unfold leaf in Hun. rewrite Ead in Hun.
      krun. simpl. rewrite Hun. simpl. by krun.
    + intros va Hva. rewrite (leaf_write_leaf s1 root d1 l1 a ad) by (done || by apply mk_pte_range).
      case_decide; [done|]. apply Hl1. lia.
  - exists s1, d1, l1. split_and!; [done|done|]. left. by eauto.
Qed.

Lemma page_at_first a pa va :
  a mod PGSIZE = 0 -> 0 <= a -> 0 <= va -> vpn va = vpn a -> page_at a pa va = pa.
Proof.
  intros Hal Ha Hva E. pose proof (proj2 (page_of_range a 1 va Hal Ha Hva ltac:(lia)) ltac:(lia)).
  unfold page_at. rewrite Z.div_small by lia. lia.
Qed.

Lemma map_ranges (k : nat) a pa va perm x :
  a mod PGSIZE = 0 -> 0 <= a -> 0 <= va ->
  (if decide (a + PGSIZE <= va < a + PGSIZE + PGSIZE * Z.of_nat k)
   then mk_pte (page_at (a + PGSIZE) (pa + PGSIZE) va) perm
   else if decide (vpn va = vpn a) then mk_pte pa perm else x) =
  if decide (a <= va < a + PGSIZE * Z.of_nat (S k)) then mk_pte (page_at a pa va) perm else x.
Proof.
  intros Hal Ha Hva. rewrite page_at_next.
  pose proof (page_of_range a 1 va Hal Ha Hva ltac:(lia)) as H1.
  pose proof (page_of_range a (Z.of_nat (S k)) va Hal Ha Hva ltac:(lia)) as H2.
  destruct (decide (a <= va < a + PGSIZE * Z.of_nat (S k))) as [Hin|Hin].
  - case_decide as D; [done|]. rewrite decide_True by (unfold PGSIZE in *; lia).
    rewrite page_at_first; [done|done|done|done|]. unfold PGSIZE in *; lia.
  - rewrite decide_False by (unfold PGSIZE in *; lia).
    by rewrite decide_False by (unfold PGSIZE in *; lia).
Qed.

Lemma mappages_loop_spec n : forall e s root dir l a pa perm,
  vm_inv s root dir l -> 0 <= a -> a mod PGSIZE = 0 -> a + PGSIZE * Z.of_nat (S n) <= MAXVA ->
  0 <= pa -> pa + PGSIZE * Z.of_nat (S n) <= 2 ^ 56 -> 0 <= perm < 2 ^ 10 ->
  (forall va, a <= va < a + PGSIZE * Z.of_nat (S n) -> unmapped s dir va) ->
  exists r s' dir' l' k,
    mappages_loop (S n) root a (a + PGSIZE * Z.of_nat n) pa perm (mkW s e) = Ok r (mkW s' e) /\
    vm_inv s' root dir' l' /\ grown s dir l s' dir' l' /\
    (r = 0 /\ k = S n \/ r = -1 /\ (k <= n)%nat /\ l' = []) /\
    forall va, 0 <= va < MAXVA -> leaf s' dir' va =
      if decide (a <= va < a + PGSIZE * Z.of_nat k) then mk_pte (page_at a pa va) perm
      else leaf s dir va.
Proof.
  assert (HM : MAXVA = 2 ^ 38) by done. assert (HPG : PGSIZE = 4096) by done.
  induction n as [|n IH]; intros e s root dir l a pa perm Hinv Ha Hal Hmax Hpa Hpm Hperm Hun.
  - destruct (mappages_round 0 e s root dir l a (a + PGSIZE * Z.of_nat 0) pa perm)
      as (s' & d' & l' & Hi & Hg & [(E & Hl & Hv)|(E & Hv)]); [done|lia|lia|done|apply Hun; lia|..].
    + exists (-1), s', d', l', 0%nat. split_and!; [done..|right; split_and!; [done|lia|done]|].
      intros va Hva. rewrite decide_False by lia. apply Hv. lia.
    + exists 0, s', d', l', 1%nat. rewrite E. rewrite (proj2 (Z.eqb_eq _ _)) by lia.
      split_and!; [done..|by left|]. intros va Hva. rewrite Hv by done.
      rewrite <- (map_ranges 0 a pa va perm) by (done || lia). by rewrite (decide_False (P := _ <= va < _)) by lia.
  - destruct (mappages_round (S n) e s root dir l a (a + PGSIZE * Z.of_nat (S n)) pa perm)
      as (s1 & d1 & l1 & Hi1 & Hg1 & [(E & Hl & Hv)|(E & Hv)]); [done|lia|lia|done|apply Hun; lia|..].
    + exists (-1), s1, d1, l1, 0%nat. split_and!; [done..|right; split_and!; [done|lia|done]|].
      intros va Hva. rewrite decide_False by lia. apply Hv. lia.
    + rewrite E. rewrite (proj2 (Z.eqb_neq _ _)) by lia. rewrite !u64_small by lia.
      destruct (IH e s1 root d1 l1 (a + PGSIZE) (pa + PGSIZE) perm)
        as (r & s2 & d2 & l2 & k & E2 & Hi2 & Hg2 & Hr & Hv2); [done|lia| |lia|lia|lia|done| |].
      { rewrite HPG in *. rewrite Z.add_mod, Hal by lia. done. }
      { intros va Hva. unfold unmapped. rewrite Hv by lia. rewrite decide_False; [apply Hun; lia|].
        pose proof (page_of_range a 1 va Hal Ha ltac:(lia) ltac:(lia)). lia. }
      replace (a + PGSIZE + PGSIZE * Z.of_nat n) with (a + PGSIZE * Z.of_nat (S n)) in E2 by lia.
      exists r, s2, d2, l2, (S k). split_and!; [done|done|by eapply grown_trans| |].
      { destruct Hr as [[? ->]|(? & ? & ?)]; [by left|right; split_and!; [done|lia|done]]. }
      intros va Hva. rewrite Hv2, Hv by lia. by rewrite map_ranges by (done || lia).
Qed.

(** mappages either maps the whole range, or stops at the first page for which
    no page-table page can be allocated. *)
Lemma mappages_spec e s root dir l va size pa perm :
  vm_inv s root dir l -> 0 <= va -> va mod PGSIZE = 0 -> size mod PGSIZE = 0 -> 0 < size ->
  va + size <= MAXVA -> 0 <= pa -> pa + size <= 2 ^ 56 -> 0 <= perm < 2 ^ 10 ->
  (forall a, va <= a < va + size -> unmapped s dir a) ->
  exists r s' dir' l' done,
    mappages root va size pa perm (mkW s e) = Ok r (mkW s' e) /\
    vm_inv s' root dir' l' /\ grown s dir l s' dir' l' /\
    (r = 0 /\ done = size \/ r = -1 /\ 0 <= done < size /\ l' = []) /\ done mod PGSIZE = 0 /\
    forall a, 0 <= a < MAXVA -> leaf s' dir' a =
      if decide (va <= a < va + done) then mk_pte (page_at va pa a) perm else leaf s dir a.
Proof.
  intros Hinv Hva Hal Hsz Hpos Hmax Hpa Hpm Hperm Hun.
  assert (HM : MAXVA = 2 ^ 38) by done. assert (HPG : PGSIZE = 4096) by done.
  assert (Hn : exists n, size = PGSIZE * Z.of_nat (S n)).
  { exists (Z.to_nat (size / PGSIZE - 1)). rewrite HPG in *.
    pose proof (Z.div_mod size 4096 ltac:(lia)). lia. }
  destruct Hn as [n ->].
  destruct (mappages_loop_spec n e s root dir l va pa perm)
    as (r & s' & d' & l' & k & E & Hi & Hg & Hr & Hv); [done..|].
  exists r, s', d', l', (PGSIZE * Z.of_nat k). split_and!; [|done|done| |by rewrite Z.mul_comm, Z.mod_mul|done].
  - unfold mappages. rewrite Hal, Hsz. rewrite (proj2 (Z.eqb_neq (PGSIZE * _) 0)) by lia.
    simpl. krun. rewrite (Z.mul_comm PGSIZE), Z.div_mul, Nat2Z.id by done.
    rewrite u64_small by lia. rewrite <- E. f_equal. lia.
  - destruct Hr as [[-> ->]|(-> & ? & ->)]; [by left|right; split_and!; lia || done].
Qed.

(** * Changes outside the page table *)

Lemma vm_inv_frame s s' root dir l l' :
  vm_inv s root dir l -> mem_only s s' -> free_list s' l' ->
  (forall p a, dir !! p = Some a -> a ∉ l') ->
  (forall b, dir_mem dir b -> mrd (k_mem s') b = mrd (k_mem s) b) ->
  vm_inv s' root dir l' /\ forall va, 0 <= va -> leaf s' dir va = leaf s dir va.
Proof.
  intros [Hh Hf Hpt Hd] Hm Hf' Hd' Hmem.
  assert (Hload : forall p a i, dir !! p = Some a -> 0 <= i < 512 ->
    load64 (a + 8 * i) (k_mem s') = load64 (a + 8 * i) (k_mem s)).
  { intros p a i Hp Hi. apply load_ext. intros b Hb. apply Hmem. exists p, a. split; [done|].
    by eapply entry_in_page. }
  split.
  - split; [by rewrite (mem_only_held _ _ Hm)|done| |done].
    destruct Hpt as [? ? Hpg ? ? He]. split; [done|done| |done|done|].
    + intros p a Hp. rewrite (mem_only_page_ok _ _ _ Hm). by eapply Hpg.
    + intros p a i Hp Hlen Hi. rewrite (Hload p a i) by done. by apply He.
  - intros va Hva. unfold leaf, leaf_addr. destruct (dir !! _) as [a|] eqn:E; simpl; [|done].
    eapply Hload; [exact E|]. by apply PX_range.
Qed.

Lemma dir_mem_apart s root dir l p b :
  vm_inv s root dir l -> page_ok s p -> (forall q a, dir !! q = Some a -> a <> p) ->
  dir_mem dir b -> ~ in_page p b.
Proof.
  intros Hinv Hp Hne (q & a & Hq & Hin). apply (in_page_ne s a); [|done|by eapply Hne|done].
  by eapply pt_page; [apply Hinv|].
Qed.

Lemma vm_kalloc e s root dir p l :
  vm_inv s root dir (p :: l) ->
  exists s', kalloc (mkW s e) = Ok p (mkW s' e) /\ vm_inv s' root dir l /\ mem_only s s' /\
    (forall b, ~ in_page p b -> mrd (k_mem s') b = mrd (k_mem s) b) /\
    (forall va, 0 <= va -> leaf s' dir va = leaf s dir va) /\ page_ok s p /\ p ∉ l /\
    forall q a, dir !! q = Some a -> a <> p.
Proof.
  intros Hinv. destruct (kalloc_pop (mkW s e) p l) as (s' & E & Hl & Hm & Hb); [apply Hinv..|].
  simpl in *. assert (Hpo : page_ok s p) by (by eapply extend_pg_ok).
  assert (Hfr : forall q a, dir !! q = Some a -> a <> p) by (intros; by eapply extend_fresh).
  assert (Hout : forall b, ~ in_page p b -> mrd (k_mem s') b = mrd (k_mem s) b).
  { intros b Hb'. rewrite Hb. by rewrite decide_False. }
  destruct (vm_inv_frame s s' root dir (p :: l) l) as [Hi Hv]; [done..| | |].
  { intros q a Hq. apply (vi_disj _ _ _ _ Hinv) in Hq. set_solver. }
  { intros b Hd. apply Hout. by eapply dir_mem_apart. }
  exists s'. split_and!; try done.
  pose proof (fl_nodup _ _ (vi_free _ _ _ _ Hinv)) as Hnd. by apply NoDup_cons in Hnd as [? _].
Qed.

Lemma vm_kfree e s root dir p l :
  vm_inv s root dir l -> page_ok s p -> p ∉ l -> (forall q a, dir !! q = Some a -> a <> p) ->
  exists s', kfree p (mkW s e) = Ok tt (mkW s' e) /\ vm_inv s' root dir (p :: l) /\ mem_only s s' /\
    (forall b, ~ in_page p b -> mrd (k_mem s') b = mrd (k_mem s) b) /\
    forall va, 0 <= va -> leaf s' dir va = leaf s dir va.
Proof.
  intros Hinv Hpo Hnin Hfr. destruct (kfree_push (mkW s e) p l) as (s' & E & Hl & Hm & Hb);
    [apply Hinv..|done|done|]. simpl in *.
  destruct (vm_inv_frame s s' root dir l (p :: l)) as [Hi Hv]; [done..| | |].
  { intros q a Hq. apply not_elem_of_cons. split; [by eapply Hfr|by eapply vi_disj]. }
  { intros b Hd. apply Hb. by eapply dir_mem_apart. }
  exists s'. split_and!; done.
Qed.

(** Filling a page that is neither free nor part of the page table. *)
Lemma vm_fill s root dir p l c :
  vm_inv s root dir l -> page_ok s p -> p ∉ l -> (forall q a, dir !! q = Some a -> a <> p) ->
  vm_inv (s <| k_mem ::= memset p c PGSIZE |>) root dir l /\
  forall va, 0 <= va -> leaf (s <| k_mem ::= memset p c PGSIZE |>) dir va = leaf s dir va.
Proof.
  intros Hinv Hpo Hnin Hfr. apply (vm_inv_frame s _ root dir l l); [done| | |by apply Hinv|].
  - eexists (k_freelist s), _. kst_eq.
  - apply (free_list_frame s); [apply Hinv|done|done|]. intros q b Hq Hb. simpl.
    rewrite memset_spec by done. rewrite decide_False; [done|].
    pose proof (fl_pages _ _ (vi_free _ _ _ _ Hinv)) as Hf. rewrite Forall_forall in Hf.
    apply (in_page_ne s q p b); [by apply Hf|done|by intros ->|done].
  - intros b Hd. simpl. rewrite memset_spec by done. rewrite decide_False; [done|].
    by eapply dir_mem_apart.
Qed.

(** * Unmapping *)

(** A valid entry that is not a pointer to another page-table page. *)
Definition is_leaf (v : Z) : Prop := Z.land v PTE_V <> 0 /\ PTE_FLAGS v <> PTE_V.

(** The physical pages mapped at [n] virtual pages from [a]. *)
Fixpoint upages (s : kst) (dir : dirmap) (a : Z) (n : nat) : list Z :=
  match n with
  | O => []
  | S n' => PTE2PA (leaf s dir a) :: upages s dir (a + PGSIZE) n'
  end.

Lemma upages_ext s dir s' dir' n : forall a,
  0 <= a -> (forall va, a <= va < a + PGSIZE * Z.of_nat n -> leaf s' dir' va = leaf s dir va) ->
  upages s' dir' a n = upages s dir a n.
Proof.
  induction n as [|n IH]; intros a Ha H; [done|]. cbn [upages].
  rewrite H by (unfold PGSIZE; lia). f_equal. apply IH; [unfold PGSIZE; lia|].
  intros va Hva. apply H. unfold PGSIZE in *. lia.
Qed.

(** The pages to be freed are the user's own: managed, distinct, and neither
    free nor part of the page table. *)
Record own_pages (s : kst) (dir : dirmap) (l ps : list Z) : Prop := {
  op_ok : Forall (page_ok s) ps;
  op_nodup : NoDup (ps ++ l);
  op_dir : forall q b, dir !! q = Some b -> b ∉ ps;
}.

Lemma own_pages_cons s dir l p ps :
  own_pages s dir l (p :: ps) ->
  page_ok s p /\ p ∉ l /\ (forall q b, dir !! q = Some b -> b <> p) /\ own_pages s dir (p :: l) ps.
Proof.
  intros [Hok Hnd Hd]. apply Forall_cons in Hok as [Hp Hok].
  split_and!; [done| | |split; [done| |]].
  - simpl in Hnd. apply NoDup_cons in Hnd as [? _]. set_solver.
  - intros q b Hq ->. apply Hd in Hq. set_solver.
  - by rewrite <- Permutation_middle.
  - intros q b Hq. apply Hd in Hq. set_solver.
Qed.

(** One round of uvmunmap. *)
Lemma uvmunmap_round n e s root dir l a lim do_free :
  vm_inv s root dir l -> 0 <= a < MAXVA -> a < lim -> is_leaf (leaf s dir a) ->
  (do_free = true -> page_ok s (PTE2PA (leaf s dir a)) /\ PTE2PA (leaf s dir a) ∉ l /\
    forall q b, dir !! q = Some b -> b <> PTE2PA (leaf s dir a)) ->
  exists s', uvmunmap_loop (S n) root a lim do_free (mkW s e) =
      uvmunmap_loop n root (u64 (a + PGSIZE)) lim do_free (mkW s' e) /\
    vm_inv s' root dir (if do_free then PTE2PA (leaf s dir a) :: l else l) /\ mem_only s s' /\
    (forall va, 0 <= va < MAXVA ->
      leaf s' dir va = if decide (vpn va = vpn a) then 0 else leaf s dir va) /\
    (forall b, ~ dir_mem dir b -> ~ (do_free = true /\ in_page (PTE2PA (leaf s dir a)) b) ->
      mrd (k_mem s') b = mrd (k_mem s) b).
Proof.
  intros Hinv Ha Hlim [Hv Hfl] Hown. cbn [uvmunmap_loop]. rewrite (proj2 (Z.ltb_lt _ _)) by done.
  rewrite (bind_ok _ _ _ _ _ (walk_lookup s root dir l Hinv e a Ha)).
  destruct (leaf_addr dir a) as [ad|] eqn:Ead; [|by unfold leaf in Hv; rewrite Ead in Hv].
  assert (Hlf : load64 ad (k_mem s) = leaf s dir a) by (unfold leaf; by rewrite Ead).
  simpl default. rewrite (leaf_addr_pos s root dir l a ad Hinv) by (done || lia). unfold rd64, wr64.
  krun. simpl wk. rewrite Hlf. rewrite (proj2 (Z.eqb_neq _ _) Hv), (proj2 (Z.eqb_neq _ _) Hfl). krun.
  assert (Hz : 0 <= 0 < 2 ^ 64) by lia. destruct do_free.
  - destruct (Hown eq_refl) as (Hpo & Hnin & Hfr). krun.
    destruct (vm_kfree e s root dir _ l Hinv Hpo Hnin Hfr) as (s1 & E1 & Hi1 & Hm1 & Hb1 & Hv1).
    rewrite (bind_ok _ _ _ _ _ E1). krun. eexists. split_and!; [done|by eapply leaf_write_inv|..].
    + etrans; [exact Hm1|]. by eapply leaf_write_grown.
    + intros va Hva. rewrite (leaf_write_leaf s1 root dir _ a ad) by done.
      case_decide; [done|]. apply Hv1. lia.
    + intros b Hd Hb. simpl. rewrite (leaf_write_out s1 dir a ad) by done. apply Hb1. naive_solver.
  - krun. eexists. split_and!; [done|by eapply leaf_write_inv|by eapply leaf_write_grown|..].
    + intros va Hva. by rewrite (leaf_write_leaf s root dir l a ad) by done.
    + intros b Hd _. simpl. by rewrite (leaf_write_out s dir a ad) by done.
Qed.

Lemma uvmunmap_loop_spec n : forall fuel e s root dir l a do_free,
  vm_inv s root dir l -> 0 <= a -> a mod PGSIZE = 0 -> a + PGSIZE * Z.of_nat n <= MAXVA ->
  (n < fuel)%nat ->
  (forall va, a <= va < a + PGSIZE * Z.of_nat n -> is_leaf (leaf s dir va)) ->
  (do_free = true -> own_pages s dir l (upages s dir a n)) ->
  exists s', uvmunmap_loop fuel root a (a + PGSIZE * Z.of_nat n) do_free (mkW s e) = Ok tt (mkW s' e) /\
    vm_inv s' root dir (if do_free then rev (upages s dir a n) ++ l else l) /\ mem_only s s' /\
    (forall va, 0 <= va < MAXVA ->
      leaf s' dir va = if decide (a <= va < a + PGSIZE * Z.of_nat n) then 0 else leaf s dir va) /\
    (forall b, ~ dir_mem dir b -> (do_free = true -> forall p, p ∈ upages s dir a n -> ~ in_page p b) ->
      mrd (k_mem s') b = mrd (k_mem s) b).
Proof.
  assert (HM : MAXVA = 2 ^ 38) by done. assert (HPG : PGSIZE = 4096) by done.
  induction n as [|n IH]; intros [|fuel] e s root dir l a do_free Hinv Ha Hal Hmax Hf Hlf Hown; try lia.
  { exists s. cbn [uvmunmap_loop]. rewrite (proj2 (Z.ltb_ge _ _)) by lia.
    split_and!; [done|by destruct do_free|done| |done].
    intros va Hva. by rewrite decide_False by lia. }
  destruct (uvmunmap_round fuel e s root dir l a (a + PGSIZE * Z.of_nat (S n)) do_free)
    as (s1 & E1 & Hi1 & Hm1 & Hv1 & Hb1); [done|lia|lia|apply Hlf; lia| |].
  { intros Hd. destruct (own_pages_cons _ _ _ _ _ (Hown Hd)) as (? & ? & ? & _). done. }
  assert (Hrest : forall va, a + PGSIZE <= va < a + PGSIZE + PGSIZE * Z.of_nat n ->
    leaf s1 dir va = leaf s dir va).
  { intros va Hva. rewrite Hv1 by lia. rewrite decide_False; [done|].
    pose proof (page_of_range a 1 va Hal Ha ltac:(lia) ltac:(lia)). lia. }
  assert (Eup : upages s1 dir (a + PGSIZE) n = upages s dir (a + PGSIZE) n)
    by (apply upages_ext; [lia|done]).
  rewrite E1, u64_small by lia.
  destruct (IH fuel e s1 root dir (if do_free then PTE2PA (leaf s dir a) :: l else l) (a + PGSIZE) do_free)
    as (s2 & E2 & Hi2 & Hm2 & Hv2 & Hb2); [done|lia| |lia|lia| | |].
  { rewrite HPG in *. rewrite Z.add_mod, Hal by lia. done. }
  { intros va Hva. rewrite Hrest by done. apply Hlf. lia. }
  { intros Hd. destruct (own_pages_cons _ _ _ _ _ (Hown Hd)) as (_ & _ & _ & [Hok Hnd Hdir]).
    rewrite Eup. destruct do_free; [|done]. split; [|done|done].
    eapply Forall_impl; [exact Hok|]. intros p. by rewrite (mem_only_page_ok _ _ _ Hm1). }
  replace (a + PGSIZE + PGSIZE * Z.of_nat n) with (a + PGSIZE * Z.of_nat (S n)) in * by lia.
  exists s2. split_and!; [done| |by etrans| |].
  - rewrite Eup in Hi2. destruct do_free; [|done]. cbn [upages rev]. by rewrite <- (assoc_L (++)).
  - intros va Hva. rewrite Hv2, Hv1 by done.
    pose proof (page_of_range a 1 va Hal Ha ltac:(lia) ltac:(lia)).
    repeat case_decide; (done || lia).
  - intros b Hd Hb. rewrite Hb2, Hb1; [done|done| |done|].
    + intros [Hdf Hin]. by apply (Hb Hdf _ (list_elem_of_here _ _)).
    + intros Hdf p Hp. rewrite Eup in Hp. apply Hb; [done|]. by right.
Qed.

(** uvmunmap removes exactly the given pages, and frees what they mapped if
    asked to. *)
Lemma uvmunmap_spec e s root dir l va (n : nat) do_free :
  vm_inv s root dir l -> 0 <= va -> va mod PGSIZE = 0 -> va + PGSIZE * Z.of_nat n <= MAXVA ->
  (forall a, va <= a < va + PGSIZE * Z.of_nat n -> is_leaf (leaf s dir a)) ->
  (do_free = true -> own_pages s dir l (upages s dir va n)) ->
  exists s', uvmunmap root va (Z.of_nat n) do_free (mkW s e) = Ok tt (mkW s' e) /\
    vm_inv s' root dir (if do_free then rev (upages s dir va n) ++ l else l) /\ mem_only s s' /\
    (forall a, 0 <= a < MAXVA ->
      leaf s' dir a = if decide (va <= a < va + PGSIZE * Z.of_nat n) then 0 else leaf s dir a) /\
    (forall b, ~ dir_mem dir b -> (do_free = true -> forall p, p ∈ upages s dir va n -> ~ in_page p b) ->
      mrd (k_mem s') b = mrd (k_mem s) b).
Proof.
  intros Hinv Hva Hal Hmax Hlf Hown. assert (HM : MAXVA = 2 ^ 38) by done.
  assert (HPG : PGSIZE = 4096) by done. unfold uvmunmap. rewrite Hal. change (negb (0 =? 0)) with false. krun.
  rewrite (u64_small (Z.of_nat n * PGSIZE)), u64_small by lia.
  replace (va + Z.of_nat n * PGSIZE - va) with (Z.of_nat n * PGSIZE) by lia.
  rewrite Z.div_mul, Nat2Z.id by done. rewrite (Z.mul_comm (Z.of_nat n)).
  apply uvmunmap_loop_spec; (done || lia).
Qed.
