(* ===== verification/UserMem.v ===== *)
(** Growing and shrinking a process's memory: uvmalloc is all or nothing. *)

From S2P Require Import Prelude Riscv Memory CString State Kalloc Vm PageTable AddrSpace.

(** The state of uvmalloc after [k] pages have been added from [old] on, to an
    address space that was [s0], [d0] with free pages [l0]. *)
Record grow_inv (s0 : kst) (d0 : dirmap) (l0 : list Z) (root old lim perm : Z) (k : nat)
    (s : kst) (d : dirmap) (l : list Z) : Prop := {
  ga_vm : vm_inv s root d l;
  ga_mem_only : mem_only s0 s;
  ga_dir : d0 ⊆ d;
  ga_own : own_pages s d l (upages s d old k);
  ga_leaf : forall va, old <= va < old + PGSIZE * Z.of_nat k ->
    exists p, p ∈ upages s d old k /\ leaf s d va = mk_pte p perm;
  ga_unmapped : forall va, old + PGSIZE * Z.of_nat k <= va < lim -> unmapped s d va;
  ga_rest : forall va, 0 <= va < MAXVA -> ~ (old <= va < lim) -> leaf s d va = leaf s0 d0 va;
  ga_zero : forall p b, p ∈ upages s d old k -> in_page p b -> mrd (k_mem s) b = 0;
  (* memory that was neither free nor page table is as it was *)
  ga_quiet : forall b, ~ dir_mem d0 b -> (forall p, p ∈ l0 -> ~ in_page p b) ->
    mrd (k_mem s) b = mrd (k_mem s0) b;
  (* where the free pages went *)
  ga_pages : forall p, p ∈ l0 <-> p ∈ l \/ p ∈ upages s d old k \/ exists q, d !! q = Some p /\ d0 !! q = None;
}.

Lemma upages_snoc s d n : forall a,
  upages s d a (S n) = upages s d a n ++ [PTE2PA (leaf s d (a + PGSIZE * Z.of_nat n))].
Proof.
  induction n as [|n IH]; intros a.
  - cbn [upages app Z.of_nat]. by rewrite Z.mul_0_r, Z.add_0_r.
  - change (upages s d a (S (S n))) with (PTE2PA (leaf s d a) :: upages s d (a + PGSIZE) (S n)).
    rewrite IH. cbn [upages app]. do 3 f_equal. f_equal. f_equal. lia.
Qed.

Lemma grow_start s0 d0 l0 root old lim perm :
  vm_inv s0 root d0 l0 -> (forall va, old <= va < lim -> unmapped s0 d0 va) ->
  grow_inv s0 d0 l0 root old lim perm 0 s0 d0 l0.
Proof.
  intros Hinv Hun. split; try done; simpl.
  - split; [done|simpl; apply Hinv|set_solver].
  - intros va Hva. lia.
  - intros va Hva. apply Hun. lia.
  - set_solver.
  - intros p. split; [by left|]. intros [?|[?|(q & ? & ?)]]; [done|set_solver|congruence].
Qed.

(** A page taken before the page table grew is not one of its pages. *)
Lemma grown_fresh (s : kst) (root : Z) (d d' : dirmap) (p : Z) (l new l' q : list Z) (b : Z) :
  vm_inv s root d (p :: l) -> l = new ++ l' ->
  (forall q b, d' !! q = Some b -> d !! q = Some b \/ b ∈ new) -> d' !! q = Some b -> b <> p.
Proof.
  intros Hvm -> Hn Hq. apply Hn in Hq as [Hq|Hb]; [by eapply extend_fresh|].
  pose proof (fl_nodup _ _ (vi_free _ _ _ _ Hvm)) as H. apply NoDup_cons in H as [H _]. set_solver.
Qed.

Section grow.
Context (s0 : kst) (d0 : dirmap) (l0 : list Z) (root old lim perm : Z).
Context (Hold : 0 <= old) (Hal : old mod PGSIZE = 0) (Hperm : 0 <= perm < 2 ^ 10).
Context (Hlim : lim <= MAXVA).
Context (Hlf : forall p, 0 <= p < 2 ^ 56 -> is_leaf (mk_pte p perm)).

(** Page-table pages beyond the original ones were free before. *)
Lemma grow_quiet_dir k s d l b :
  grow_inv s0 d0 l0 root old lim perm k s d l ->
  ~ dir_mem d0 b -> (forall p, p ∈ l0 -> ~ in_page p b) -> ~ dir_mem d b.
Proof.
  intros Hg Hd Hl (q & a & Hq & Hin). destruct (d0 !! q) as [a'|] eqn:E.
  - apply Hd. exists q, a'. split; [done|].
    pose proof (lookup_weaken _ _ _ _ E (ga_dir _ _ _ _ _ _ _ _ _ _ _ Hg)). naive_solver.
  - apply (Hl a); [|done]. apply (ga_pages _ _ _ _ _ _ _ _ _ _ _ Hg). eauto.
Qed.

Lemma grow_aligned (k : nat) : (old + PGSIZE * Z.of_nat k) mod PGSIZE = 0.
Proof. by rewrite Z.mul_comm, Z.mod_add. Qed.

(** The pages added are managed pages. *)
Lemma grow_page k s d l p :
  grow_inv s0 d0 l0 root old lim perm k s d l -> p ∈ upages s d old k -> page_ok s p.
Proof.
  intros Hg Hp. pose proof (op_ok _ _ _ _ (ga_own _ _ _ _ _ _ _ _ _ _ _ Hg)) as H.
  rewrite Forall_forall in H. by apply H.
Qed.

(** Undoing: uvmdealloc unmaps and frees the pages added so far. *)
Lemma grow_undo e k s d l :
  grow_inv s0 d0 l0 root old lim perm k s d l -> old + PGSIZE * Z.of_nat k <= lim ->
  exists s', uvmdealloc root (old + PGSIZE * Z.of_nat k) old (mkW s e) = Ok old (mkW s' e) /\
    grow_inv s0 d0 l0 root old lim perm 0 s' d (rev (upages s d old k) ++ l).
Proof.
  assert (HM : MAXVA = 2 ^ 38) by done. assert (HPG : PGSIZE = 4096) by done.
  intros Hg Hmax. pose proof Hg as [Hvm Hmo Hdir Hown Hleaf Hunm Hrest Hzero Hquiet Hpages].
  unfold uvmdealloc. destruct (Z.leb_spec (old + PGSIZE * Z.of_nat k) old) as [Hle|Hgt].
  { assert (k = 0%nat) as -> by lia. exists s. rewrite Z.mul_0_r, Z.add_0_r. done. }
  rewrite !PGROUNDUP_aligned by (done || lia || apply grow_aligned).
  rewrite (proj2 (Z.ltb_lt _ _)) by done.
  replace (old + PGSIZE * Z.of_nat k - old) with (Z.of_nat k * PGSIZE) by lia.
  rewrite Z.div_mul by done. unfold i32. rewrite sext_small, u64_small by lia.
  destruct (uvmunmap_spec e s root d l old k true) as (s' & E & Hi & Hm & Hv & Hb);
    [done|done|done|lia| |done|].
  { intros a Ha. destruct (Hleaf a Ha) as (p & Hp & ->). apply Hlf.
    apply (grow_page k s d l p Hg), page_ok_small in Hp; [lia|apply Hvm]. }
  krun. rewrite (bind_ok _ _ _ _ _ E). exists s'. split; [done|].
  split; [done|by etrans|done| | | | | | |]; cbn [upages].
  - split; [done|apply Hi|set_solver].
  - intros va Hva. lia.
  - intros va Hva. unfold unmapped. rewrite Hv by lia. case_decide as D; [done|].
    apply Hunm. lia.
  - intros va Hva Hn. rewrite Hv by done. rewrite decide_False by lia. by apply Hrest.
  - set_solver.
  - intros b Hd Hl. rewrite Hb; [by apply Hquiet|by eapply grow_quiet_dir|].
    intros _ p Hp. apply Hl, Hpages. eauto.
  - intros p. rewrite Hpages, elem_of_app, elem_of_rev. set_solver.
Qed.

(** Taking a page [p] for the next virtual page, clearing it, and asking
    mappages for its entry: the state after that, whether mappages succeeded
    ([ok]) or not. *)
Section step.
Context (k : nat) (s : kst) (d : dirmap) (p : Z) (l : list Z).
Context (s3 : kst) (d3 : dirmap) (l3 new : list Z) (ok : bool).
Let a := old + PGSIZE * Z.of_nat k.
Context (Hg : grow_inv s0 d0 l0 root old lim perm k s d (p :: l)).
Context (Hi3 : vm_inv s3 root d3 l3) (Hm3 : mem_only s s3) (Hd3 : d ⊆ d3).
Context (El : l = new ++ l3).
Context (Hn1 : forall q b, d3 !! q = Some b -> d !! q = Some b \/ b ∈ new).
Context (Hn2 : forall b, b ∈ new -> exists q, d3 !! q = Some b /\ d !! q = None).
Context (Hb3 : forall b, ~ dir_mem d3 b -> ~ in_page p b -> mrd (k_mem s3) b = mrd (k_mem s) b).
Context (Hz3 : forall b, in_page p b -> mrd (k_mem s3) b = 0).
Context (Ha : a + PGSIZE <= lim).
Context (Hv3 : forall va, 0 <= va < MAXVA -> leaf s3 d3 va =
  if decide (ok = true /\ vpn va = vpn a) then mk_pte p perm else leaf s d va).

Lemma step_leaf va :
  0 <= va < MAXVA -> ~ (a <= va < a + PGSIZE) -> leaf s3 d3 va = leaf s d va.
Proof.
  intros Hva Hn. rewrite Hv3 by done. rewrite decide_False; [done|]. intros [_ E].
  apply Hn. pose proof (page_of_range a 1 va (grow_aligned k)). unfold PGSIZE in *. lia.
Qed.

Lemma step_upages : upages s3 d3 old k = upages s d old k.
Proof.
  apply upages_ext; [done|]. intros va Hva. apply step_leaf; unfold PGSIZE in *; lia.
Qed.

Lemma step_nodup : NoDup (upages s d old k ++ p :: new ++ l3).
Proof. rewrite <- El. apply (op_nodup _ _ _ _ (ga_own _ _ _ _ _ _ _ _ _ _ _ Hg)). Qed.

Lemma step_own : own_pages s3 d3 (p :: l3) (upages s d old k).
Proof.
  pose proof (ga_own _ _ _ _ _ _ _ _ _ _ _ Hg) as [Hok Hnd Hdir]. split.
  - eapply Forall_impl; [exact Hok|]. intros x. by rewrite (mem_only_page_ok _ _ _ Hm3).
  - pose proof step_nodup as H. rewrite (Permutation_middle new l3 p) in H.
    rewrite (Permutation_app_swap_app _ new) in H. by apply NoDup_app in H as (_ & _ & H).
  - intros q b Hq. apply Hn1 in Hq as [Hq|Hb]; [by eapply Hdir|].
    pose proof step_nodup as H. apply NoDup_app in H as (_ & H & _).
    intros Hu. apply (H b Hu). set_solver.
Qed.

Lemma step_dir q b : d3 !! q = Some b -> b <> p.
Proof. eapply grown_fresh; [apply (ga_vm _ _ _ _ _ _ _ _ _ _ _ Hg)|done|done]. Qed.

Lemma step_apart x b : x ∈ upages s d old k -> in_page x b -> ~ dir_mem d3 b /\ ~ in_page p b.
Proof.
  intros Hx Hb. assert (Hxo : page_ok s3 x).
  { rewrite (mem_only_page_ok _ _ _ Hm3). by eapply grow_page. }
  pose proof step_own as [_ Hnd Hdir]. split.
  - intros Hd. eapply dir_mem_apart; [exact Hi3|exact Hxo| |exact Hd|exact Hb].
    intros q c Hq ->. by eapply Hdir.
  - apply (in_page_ne s3 x p); [done| | |done].
    + rewrite (mem_only_page_ok _ _ _ Hm3). eapply extend_pg_ok, (ga_vm _ _ _ _ _ _ _ _ _ _ _ Hg).
    + intros ->. apply NoDup_app in Hnd as (_ & Hnd & _). apply (Hnd p Hx). by left.
Qed.

Lemma step_pages x :
  x ∈ l0 <-> x ∈ p :: l3 \/ x ∈ upages s d old k \/ exists q, d3 !! q = Some x /\ d0 !! q = None.
Proof.
  rewrite (ga_pages _ _ _ _ _ _ _ _ _ _ _ Hg). rewrite El, !elem_of_cons, elem_of_app. split.
  - intros [[->|[Hx|Hx]]|[Hx|(q & Hq & Hn)]]; [tauto| |tauto|tauto|].
    + destruct (Hn2 x Hx) as (q & Hq & Hn). right; right. exists q. split; [done|].
      eapply lookup_weaken_None; [exact Hn|apply Hg].
    + right; right. exists q. split; [by eapply lookup_weaken|done].
  - intros [[->|Hx]|[Hx|(q & Hq & Hn)]]; [tauto..|].
    apply Hn1 in Hq as [Hq|Hq]; [|tauto]. right; right. by exists q.
Qed.

Lemma step_quiet b :
  ~ dir_mem d0 b -> (forall x, x ∈ l0 -> ~ in_page x b) -> mrd (k_mem s3) b = mrd (k_mem s0) b.
Proof.
  intros Hd Hl. rewrite Hb3; [by apply Hg| |].
  - intros (q & x & Hq & Hin). apply Hn1 in Hq as [Hq|Hx].
    + eapply grow_quiet_dir; [exact Hg|exact Hd|exact Hl|]. by exists q, x.
    + apply (Hl x); [|done]. apply step_pages. destruct (Hn2 x Hx) as (q' & Hq' & Hn).
      right; right. exists q'. split; [done|]. eapply lookup_weaken_None; [exact Hn|apply Hg].
  - apply Hl, step_pages. left. by left.
Qed.

Lemma step_unmapped va :
  a <= va < lim -> ok = false \/ a + PGSIZE <= va -> unmapped s3 d3 va.
Proof.
  intros Hva Hok. assert (HM : MAXVA = 2 ^ 38) by done. assert (HPG : PGSIZE = 4096) by done.
  unfold unmapped. rewrite Hv3 by (subst a; lia). rewrite decide_False.
  - apply Hg. done.
  - intros [Eo E]. destruct Hok as [?|Hok]; [congruence|].
    pose proof (page_of_range a 1 va (grow_aligned k)). subst a. lia.
Qed.

(** mappages succeeded: one more page. *)
Lemma grow_more : ok = true -> grow_inv s0 d0 l0 root old lim perm (S k) s3 d3 l3.
Proof using All.
  intros Eok. assert (HM : MAXVA = 2 ^ 38) by done. assert (HPG : PGSIZE = 4096) by done.
  assert (Hp : page_ok s p) by (eapply extend_pg_ok, (ga_vm _ _ _ _ _ _ _ _ _ _ _ Hg)).
  destruct (page_ok_small s p) as [Hps Hpa]; [apply Hg|done|].
  assert (Hla : leaf s3 d3 a = mk_pte p perm).
  { rewrite Hv3 by (subst a; lia). by rewrite decide_True. }
  assert (Eu : upages s3 d3 old (S k) = upages s d old k ++ [p]).
  { rewrite upages_snoc, step_upages. fold a. rewrite Hla, mk_pte_eq, PTE2PA_make by
      (done || lia || by apply flags_V_range). done. }
  pose proof step_own as [Hok Hnd Hdir].
  split; [done|etrans; [apply Hg|done]|etrans; [apply Hg|done]| | | | | | |]; rewrite ?Eu.
  - split.
    + apply Forall_app. split; [done|]. apply Forall_singleton. by rewrite (mem_only_page_ok _ _ _ Hm3).
    + by rewrite <- (assoc_L (++)).
    + intros q b Hq Hin. apply elem_of_app in Hin as [Hin|Hin%list_elem_of_singleton];
        [by eapply Hdir|by eapply step_dir].
  - intros va Hva. destruct (decide (a <= va)) as [Hge|Hlt].
    + exists p. split; [set_solver|]. rewrite Hv3 by (subst a; lia). rewrite decide_True; [done|].
      split; [done|]. pose proof (page_of_range a 1 va (grow_aligned k)). subst a. lia.
    + rewrite step_leaf by (subst a; lia).
      destruct (ga_leaf _ _ _ _ _ _ _ _ _ _ _ Hg va) as (x & Hx & ->); [subst a; lia|].
      exists x. set_solver.
  - intros va Hva. apply step_unmapped; [|right]; subst a; lia.
  - intros va Hva Hn. rewrite step_leaf by (subst a; lia). by apply Hg.
  - intros x b [Hx|Hx%list_elem_of_singleton]%elem_of_app Hb; [|subst x; by apply Hz3].
    destruct (step_apart x b Hx Hb). rewrite Hb3 by done. by eapply ga_zero.
  - apply step_quiet.
  - intros x. rewrite step_pages. set_solver.
Qed.

(** mappages failed: the page goes back. *)
Lemma grow_back e : ok = false ->
  exists s4, kfree p (mkW s3 e) = Ok tt (mkW s4 e) /\
    grow_inv s0 d0 l0 root old lim perm k s4 d3 (p :: l3).
Proof using All.
  intros Eok. assert (HM : MAXVA = 2 ^ 38) by done. assert (HPG : PGSIZE = 4096) by done.
  assert (Hp : page_ok s p) by (eapply extend_pg_ok, (ga_vm _ _ _ _ _ _ _ _ _ _ _ Hg)).
  pose proof step_own as [Hok Hnd Hdir].
  assert (Hpl : p ∉ l3).
  { apply NoDup_app in Hnd as (_ & _ & Hnd). by apply NoDup_cons in Hnd as [? _]. }
  destruct (vm_kfree e s3 root d3 p l3) as (s4 & E & Hi4 & Hm4 & Hb4 & Hv4);
    [done|by rewrite (mem_only_page_ok _ _ _ Hm3)|done|apply step_dir|].
  assert (Hv : forall va, 0 <= va < MAXVA -> leaf s4 d3 va = leaf s d va).
  { intros va Hva. rewrite Hv4, Hv3 by lia. rewrite decide_False; [done|]. intros [? _]. congruence. }
  assert (Eu : upages s4 d3 old k = upages s d old k).
  { apply upages_ext; [done|]. intros va Hva. apply Hv. subst a. lia. }
  exists s4. split; [done|].
  split; [done|etrans; [apply Hg|by etrans]|etrans; [apply Hg|done]| | | | | | |]; rewrite ?Eu.
  - split; [|done|done]. eapply Forall_impl; [exact Hok|]. intros x.
    by rewrite (mem_only_page_ok _ _ _ Hm4).
  - intros va Hva. rewrite Hv by (subst a; lia). by apply Hg.
  - intros va Hva. unfold unmapped. rewrite Hv4 by lia. apply step_unmapped; [done|by left].
  - intros va Hva Hn. rewrite Hv by done. by apply Hg.
  - intros x b Hx Hb. destruct (step_apart x b Hx Hb). rewrite Hb4, Hb3 by done. by eapply ga_zero.
  - intros b Hd Hl. rewrite Hb4; [by apply step_quiet|]. apply Hl, step_pages. left. by left.
  - apply step_pages.
Qed.
End step.

(** Allocating a page and clearing it. *)
Lemma take_page e s d p l :
  vm_inv s root d (p :: l) ->
  exists s1, let s2 := s1 <| k_mem ::= memset p 0 PGSIZE |> in
    kalloc (mkW s e) = Ok p (mkW s1 e) /\ vm_inv s2 root d l /\ mem_only s s2 /\
    (forall b, mrd (k_mem s2) b = if decide (in_page p b) then 0 else mrd (k_mem s) b) /\
    (forall va, 0 <= va -> leaf s2 d va = leaf s d va) /\ page_ok s p /\ 0 < p <= 2 ^ 56 - PGSIZE.
Proof using All.
  intros Hvm.
  destruct (vm_kalloc e s root d p l Hvm) as (s1 & E1 & Hi1 & Hm1 & Hb1 & Hv1 & Hpo & Hpl & Hpd).
  assert (Hps : 0 < p <= 2 ^ 56 - PGSIZE).
  { pose proof (fl_end _ _ (vi_free _ _ _ _ Hvm)). destruct Hpo as [_ Hpo].
    change PHYSTOP with 0x88000000 in Hpo. unfold PGSIZE. lia. }
  destruct (vm_fill s1 root d p l 0) as [Hi2 Hv2];
    [done|by rewrite (mem_only_page_ok _ _ _ Hm1)|done|done|].
  exists s1. split_and!; [done|done| | |intros va Hva; by rewrite Hv2, Hv1|done|lia|lia].
  - etrans; [exact Hm1|]. eexists (k_freelist s1), _. kst_eq.
  - intros b. simpl. rewrite memset_spec by done. unfold in_page. case_decide; [done|]. by apply Hb1.
Qed.

(** What one call of mappages for a single page says about the entries. *)
Lemma one_page_leaf (r dn a p va x : Z) :
  a mod PGSIZE = 0 -> 0 <= a -> 0 <= va -> dn mod PGSIZE = 0 ->
  r = 0 /\ dn = PGSIZE \/ r = -1 /\ 0 <= dn < PGSIZE ->
  (if decide (a <= va < a + dn) then mk_pte (page_at a p va) perm else x) =
  if decide (bool_decide (r = 0) = true /\ vpn va = vpn a) then mk_pte p perm else x.
Proof using All.
  intros Ha Ha0 Hva Hdn Hr. pose proof (page_of_range a 1 va Ha Ha0 Hva ltac:(lia)).
  destruct Hr as [[-> ->]|[-> Hd]].
  - destruct (decide (a <= va < a + PGSIZE)) as [D|D].
    + rewrite decide_True by (split; [done|lia]). rewrite page_at_first; [done|done|done|done|lia].
    + by rewrite decide_False by lia.
  - rewrite Z.mod_small in Hdn by lia. by rewrite !decide_False by (lia || by intros [? _]).
Qed.

(** A round of uvmalloc. *)
Lemma uvmalloc_round e k s d p l :
  grow_inv s0 d0 l0 root old lim perm k s d (p :: l) -> old + PGSIZE * Z.of_nat k + PGSIZE <= lim ->
  exists s1 r s3 d3 l3, kalloc (mkW s e) = Ok p (mkW s1 e) /\ (p =? 0) = false /\
    mappages root (old + PGSIZE * Z.of_nat k) PGSIZE p perm
      (mkW (s1 <| k_mem ::= memset p 0 PGSIZE |>) e) = Ok r (mkW s3 e) /\
    (r = 0 /\ leaf s3 d3 (old + PGSIZE * Z.of_nat k) = mk_pte p perm /\
       grow_inv s0 d0 l0 root old lim perm (S k) s3 d3 l3 \/
     r = -1 /\ k_freelist s3 = 0 /\ exists s4, kfree p (mkW s3 e) = Ok tt (mkW s4 e) /\
       grow_inv s0 d0 l0 root old lim perm k s4 d3 (p :: l3)).
Proof using All.
  intros Hg Ha. assert (HM : MAXVA = 2 ^ 38) by done. assert (HPG : PGSIZE = 4096) by done.
  pose proof (ga_vm _ _ _ _ _ _ _ _ _ _ _ Hg) as Hvm.
  destruct (take_page e s d p l Hvm) as (s1 & E1 & Hi2 & Hm2 & Hb2 & Hv2 & Hpo & Hps).
  pose proof (grow_aligned k) as Hal'.
  set (s2 := s1 <| k_mem ::= memset p 0 PGSIZE |>) in *.
  destruct (mappages_spec e s2 root d l (old + PGSIZE * Z.of_nat k) PGSIZE p perm)
    as (r & s3 & d3 & l3 & dn & E3 & Hi3 & [Hg1 Hg2 (new & El & Hn1 & Hn2) Hgo] & Hr & Hdn & Hv3);
    [done|lia|done|done|lia|lia|lia|lia|done| |].
  { intros va Hva. unfold unmapped. rewrite Hv2 by lia. eapply ga_unmapped; [exact Hg|]. lia. }
  assert (Hm3 : mem_only s s3) by (by etrans).
  assert (Hzero : forall b, in_page p b -> mrd (k_mem s3) b = 0).
  { intros b Hb. rewrite Hgo; [by rewrite Hb2, decide_True|].
    intros Hd. eapply dir_mem_apart; [exact Hi3| | |exact Hd|exact Hb].
    - by rewrite (mem_only_page_ok _ _ _ Hm3).
    - intros q b'. by eapply grown_fresh. }
  assert (Hb3 : forall b, ~ dir_mem d3 b -> ~ in_page p b -> mrd (k_mem s3) b = mrd (k_mem s) b).
  { intros b Hd Hb. rewrite Hgo, Hb2 by done. by rewrite decide_False. }
  assert (Hleaf : forall va, 0 <= va < MAXVA -> leaf s3 d3 va =
    if decide (bool_decide (r = 0) = true /\ vpn va = vpn (old + PGSIZE * Z.of_nat k))
    then mk_pte p perm else leaf s d va).
  { intros va Hva. rewrite Hv3, Hv2 by lia. apply one_page_leaf; [done|lia|lia|done|naive_solver]. }
  exists s1, r, s3, d3, l3. split_and!; [done|apply Z.eqb_neq; lia|done|].
  destruct Hr as [[-> _]|(-> & _ & Hl3)]; [left|right]; (split; [done|]).
  - split; [by rewrite Hleaf, decide_True by (split; done) || lia|by eapply grow_more with (s := s) (d := d) (ok := true)].
  - split; [|by eapply grow_back with (s := s) (d := d) (ok := false)].
    pose proof (fl_chain _ _ (vi_free _ _ _ _ Hi3)) as Hch. by rewrite Hl3 in Hch.
Qed.
End grow.

Lemma uvmalloc_loop_spec s0 d0 l0 root old xperm newsz n :
  let perm := Z.lor (Z.lor PTE_R PTE_U) xperm in
  let lim := PGROUNDUP newsz in
  0 <= old -> old mod PGSIZE = 0 -> 0 <= perm < 2 ^ 10 -> lim <= MAXVA -> 0 <= newsz <= lim ->
  lim < newsz + PGSIZE -> (forall p, 0 <= p < 2 ^ 56 -> is_leaf (mk_pte p perm)) ->
  forall fuel e k s d l, (n < fuel)%nat -> old + PGSIZE * Z.of_nat (k + n) = lim ->
  grow_inv s0 d0 l0 root old lim perm k s d l ->
  exists r s' d' l',
    uvmalloc_loop fuel root (old + PGSIZE * Z.of_nat k) old newsz xperm (mkW s e) = Ok r (mkW s' e) /\
    (r = newsz /\ grow_inv s0 d0 l0 root old lim perm (k + n) s' d' l' \/
     r = 0 /\ grow_inv s0 d0 l0 root old lim perm 0 s' d' l').
Proof.
  intros perm lim Hold Hal Hperm Hlim Hnew Hrd Hlf.
  assert (HM : MAXVA = 2 ^ 38) by done. assert (HPG : PGSIZE = 4096) by done.
  induction n as [|n IH]; intros [|fuel] e k s d l Hf Hk Hg; try lia; cbn [uvmalloc_loop].
  { rewrite (proj2 (Z.ltb_ge _ _)) by lia. exists newsz, s, d, l.
    split; [done|]. left. by rewrite Nat.add_0_r. }
  rewrite (proj2 (Z.ltb_lt _ _)) by lia. destruct l as [|p l].
  - destruct (grow_undo s0 d0 l0 root old lim perm Hold Hal Hperm Hlim Hlf e k s d [] Hg ltac:(lia))
      as (s' & E & Hg').
    rewrite (bind_ok _ _ _ _ _ (kalloc_none (mkW s e) (vi_held _ _ _ _ (ga_vm _ _ _ _ _ _ _ _ _ _ _ Hg))
      (vi_free _ _ _ _ (ga_vm _ _ _ _ _ _ _ _ _ _ _ Hg)))).
    simpl. rewrite (bind_ok _ _ _ _ _ E). by eexists 0, s', d, _; split; [|right].
  - destruct (uvmalloc_round s0 d0 l0 root old lim perm Hold Hal Hperm Hlim Hlf e k s d p l Hg ltac:(lia))
      as (s1 & r & s3 & d3 & l3 & E1 & Ep & E3 & Hr).
    rewrite (bind_ok _ _ _ _ _ E1), Ep. krun. simpl wk. simpl wenv. fold perm.
    rewrite (bind_ok _ _ _ _ _ E3). destruct Hr as [(-> & _ & Hg3)|(-> & _ & s4 & E4 & Hg4)]; simpl.
    + rewrite u64_small by lia.
      destruct (IH fuel e (S k) s3 d3 l3) as (r & s' & d' & l' & E & Hr); [lia|lia|done|].
      replace (old + PGSIZE * Z.of_nat k + PGSIZE) with (old + PGSIZE * Z.of_nat (S k)) by lia.
      exists r, s', d', l'. split; [done|]. by rewrite <- Nat.add_succ_comm.
    + destruct (grow_undo s0 d0 l0 root old lim perm Hold Hal Hperm Hlim Hlf e k s4 d3 _ Hg4 ltac:(lia))
        as (s' & E & Hg').
      rewrite (bind_ok _ _ _ _ _ E4), (bind_ok _ _ _ _ _ E). by eexists 0, s', d3, _; split; [|right].
Qed.

Lemma uperm_range xperm : 0 <= xperm < 2 ^ 10 -> 0 <= Z.lor (Z.lor PTE_R PTE_U) xperm < 2 ^ 10.
Proof.
  intros H. change (Z.lor PTE_R PTE_U) with 18.
  assert (Hn : 0 <= Z.lor 18 xperm) by (apply Z.lor_nonneg; lia). split; [done|].
  destruct (decide (Z.lor 18 xperm = 0)) as [E|]; [lia|].
  apply Z.log2_lt_pow2; [lia|]. rewrite Z.log2_lor by lia. change (Z.log2 18) with 4.
  destruct (decide (xperm = 0)) as [->|]; [done|]. apply Z.max_lub_lt; [lia|]. apply Z.log2_lt_pow2; lia.
Qed.

Lemma user_pte_leaf xperm p :
  0 <= xperm < 2 ^ 10 -> 0 <= p < 2 ^ 56 -> is_leaf (mk_pte p (Z.lor (Z.lor PTE_R PTE_U) xperm)).
Proof.
  intros Hx Hp. pose proof (flags_V_range _ (uperm_range xperm Hx)) as Hf.
  rewrite mk_pte_eq. split.
  - unfold PTE_V at 2. rewrite land_flag_make by (done || lia).
    rewrite Z.land_lor_distr_l. intros E%Z.lor_eq_0_iff. by destruct E.
  - rewrite PTE_FLAGS_make by done. intros E. apply (f_equal (fun z => Z.testbit z 1)) in E.
    by rewrite !Z.lor_spec in E.
Qed.

Lemma user_pte_bits xperm p :
  0 <= xperm < 2 ^ 10 -> 0 <= p < 2 ^ 56 /\ p mod PGSIZE = 0 ->
  let v := mk_pte p (Z.lor (Z.lor PTE_R PTE_U) xperm) in
  (Z.land v PTE_V =? 0) = false /\ (Z.land v PTE_U =? 0) = false /\ PTE2PA v = p.
Proof.
  intros Hx [Hp Hpa] v. pose proof (flags_V_range _ (uperm_range xperm Hx)) as Hf.
  assert (Hb : forall b, 0 <= b < 10 ->
    Z.testbit (Z.lor (Z.lor (Z.lor PTE_R PTE_U) xperm) PTE_V) b = true -> (Z.land v (Z.shiftl 1 b) =? 0) = false).
  { intros b Hb Ht. subst v. rewrite mk_pte_eq, land_flag_make by done.
    apply Z.eqb_neq. intros E. apply (f_equal (fun z => Z.testbit z b)) in E.
    rewrite Z.land_spec, Ht, Z.shiftl_1_l, Z.pow2_bits_true, Z.bits_0 in E by lia. done. }
  split_and!.
  - apply (Hb 0); [lia|]. rewrite Z.lor_spec. apply orb_true_r.
  - apply (Hb 4); [lia|]. by rewrite !Z.lor_spec.
  - subst v. by rewrite mk_pte_eq, PTE2PA_make.
Qed.

(** uvmalloc from a page-table state satisfying the invariant. *)
Lemma uvmalloc_spec e s root d l oldsz newsz xperm :
  let old := PGROUNDUP oldsz in
  let lim := PGROUNDUP newsz in
  let perm := Z.lor (Z.lor PTE_R PTE_U) xperm in
  vm_inv s root d l -> 0 <= oldsz <= newsz -> newsz <= MAXVA -> 0 <= xperm < 2 ^ 10 ->
  (forall va, old <= va < lim -> unmapped s d va) ->
  exists r s' d' l', uvmalloc root oldsz newsz xperm (mkW s e) = Ok r (mkW s' e) /\
    (r = newsz /\ grow_inv s d l root old lim perm (Z.to_nat ((lim - old) / PGSIZE)) s' d' l' \/
     r = 0 /\ grow_inv s d l root old lim perm 0 s' d' l').
Proof.
  intros old lim perm Hinv Hsz Hmax Hx Hun.
  assert (HM : MAXVA = 2 ^ 38) by done. assert (HPG : PGSIZE = 4096) by done.
  destruct (PGROUNDUP_spec oldsz) as [Ho1 Ho2]; [lia|].
  destruct (PGROUNDUP_spec newsz) as [Hn1 Hn2]; [lia|]. fold old in Ho1, Ho2. fold lim in Hn1, Hn2.
  assert (Hle : old <= lim /\ lim <= MAXVA /\ exists n, lim - old = PGSIZE * Z.of_nat n).
  { rewrite HPG in *. pose proof (Z.div_mod old 4096 ltac:(lia)). pose proof (Z.div_mod lim 4096 ltac:(lia)).
    split_and!; [lia|lia|]. exists (Z.to_nat (lim / 4096 - old / 4096)). lia. }
  destruct Hle as (Hle & Hlm & n & En).
  assert (Ek : Z.to_nat ((lim - old) / PGSIZE) = n)
    by (rewrite En, Z.mul_comm, Z.div_mul by done; lia).
  destruct (uvmalloc_loop_spec s d l root old xperm newsz n) with
    (fuel := S (S (Z.to_nat ((newsz - old) / PGSIZE)))) (e := e) (k := 0%nat) (s := s) (d := d) (l := l)
    as (r & s' & d' & l' & E & Hr); try done; try (fold lim; lia).
  - by apply uperm_range.
  - intros p. by apply user_pte_leaf.
  - rewrite HPG in *. pose proof (Z.div_mod (newsz - old) 4096 ltac:(lia)).
    pose proof (Z.mod_pos_bound (newsz - old) 4096 ltac:(lia)). lia.
  - by apply grow_start.
  - exists r, s', d', l'. rewrite Ek. split; [|done]. unfold uvmalloc.
    rewrite (proj2 (Z.ltb_ge _ _)) by lia. fold old. rewrite <- E. by rewrite Z.mul_0_r, Z.add_0_r.
Qed.

(** uvmcreate makes an empty address space of the first free page. *)
Lemma uvmcreate_spec e s p l :
  LKmem ∉ k_held s -> free_list s (p :: l) ->
  exists s', uvmcreate (mkW s e) = Ok p (mkW s' e) /\ mem_only s s' /\
    vm_inv s' p {[ [] := p ]} l /\
    (forall b, ~ in_page p b -> mrd (k_mem s') b = mrd (k_mem s) b) /\
    forall va, 0 <= va -> leaf s' {[ [] := p ]} va = 0.
Proof.
  intros Hh Hl. destruct (kalloc_pop (mkW s e) p l Hh Hl) as (s1 & E1 & Hl1 & Hm1 & Hb1). simpl in *.
  pose proof (fl_pages _ _ Hl) as Hpo. apply Forall_cons in Hpo as [Hpo Hlo].
  pose proof (page_ok_range s p (fl_end _ _ Hl) Hpo) as Hr.
  pose proof (fl_nodup _ _ Hl) as Hnd. apply NoDup_cons in Hnd as [Hnin Hnd].
  set (s2 := s1 <| k_mem ::= memset p 0 PGSIZE |>).
  assert (Hm2 : mem_only s s2).
  { etrans; [exact Hm1|]. eexists (k_freelist s1), _. subst s2. kst_eq. }
  assert (Hz : forall b, in_page p b -> mrd (k_mem s2) b = 0).
  { intros b Hb. subst s2. simpl. rewrite memset_spec by done. by rewrite decide_True. }
  assert (Hout : forall b, ~ in_page p b -> mrd (k_mem s2) b = mrd (k_mem s1) b).
  { intros b Hb. subst s2. simpl. rewrite memset_spec by done. by rewrite decide_False. }
  exists s2. split_and!; [| done | | |].
  - unfold uvmcreate. rewrite (bind_ok _ _ _ _ _ E1). destruct (Z.eqb_spec p 0); [lia|]. by krun.
  - split; [by rewrite (mem_only_held _ _ Hm2)| | |].
    + apply (free_list_frame s1); [done..|]. intros q b Hq Hb. apply Hout.
      rewrite Forall_forall in Hlo. apply (in_page_ne s q); [by apply Hlo|done|by intros ->|done].
    + split.
      * apply lookup_singleton_eq.
      * intros ? ? ? [<- _]%lookup_singleton_Some [<- _]%lookup_singleton_Some. done.
      * intros ? ? [_ <-]%lookup_singleton_Some. by rewrite (mem_only_page_ok _ _ _ Hm2).
      * intros ? ? [<- _]%lookup_singleton_Some. simpl. lia.
      * intros q i [? [E _]%lookup_singleton_Some]. by destruct q.
      * intros q a i [<- <-]%lookup_singleton_Some Hlen Hi. rewrite lookup_singleton_ne by done.
        rewrite load_zero; [done|]. intros b Hb. apply Hz. by eapply entry_in_page.
    + intros ? ? [_ <-]%lookup_singleton_Some. done.
  - intros b Hb. rewrite Hout, Hb1 by done. by rewrite decide_False.
  - intros va Hva. unfold leaf, leaf_addr. by rewrite lookup_singleton_ne.
Qed.
