(* ===== verification/CopyUser.v ===== *)
(** Copying between the kernel and user memory: copyin, copyinstr and copyout
    move exactly the bytes at the user's addresses, fail exactly where the user
    has no access, and do not touch anything else. *)

From S2P Require Import Prelude Riscv Memory CString State Kalloc Vm PageTable AddrSpace UserMem.

(** What the page table lets user code do at an address. *)
Definition uaccess (s : kst) (d : dirmap) (va : Z) : bool :=
  (va <? MAXVA) && negb (Z.land (leaf s d va) PTE_V =? 0) && negb (Z.land (leaf s d va) PTE_U =? 0).

Definition uwritable (s : kst) (d : dirmap) (va : Z) : bool :=
  uaccess s d va && negb (Z.land (leaf s d va) PTE_W =? 0).

(** The physical address behind a user address. *)
Definition upa (s : kst) (d : dirmap) (va : Z) : Z := PTE2PA (leaf s d va) + va mod PGSIZE.

(** The byte user code reads at an address, if it can. *)
Definition uread (s : kst) (d : dirmap) (va : Z) : option Z :=
  if uaccess s d va && negb (PTE2PA (leaf s d va) =? 0) then Some (mrd (k_mem s) (upa s d va)) else None.

Lemma vpn_split va : va = PGSIZE * vpn va + va mod PGSIZE /\ 0 <= va mod PGSIZE < PGSIZE.
Proof. split; [by apply Z.div_mod|by apply Z.mod_pos_bound]. Qed.

Lemma uread_same_page s d va va' :
  0 <= va -> 0 <= va' -> vpn va = vpn va' ->
  uread s d va' = if uaccess s d va && negb (PTE2PA (leaf s d va) =? 0)
    then Some (mrd (k_mem s) (PTE2PA (leaf s d va) + va' mod PGSIZE)) else None.
Proof.
  intros Ha Ha' E. unfold uread, uaccess, upa. rewrite (leaf_vpn s d va' va) by done.
  replace (va' <? MAXVA) with (va <? MAXVA); [done|].
  assert (EM : MAXVA = PGSIZE * 2 ^ 26) by done. pose proof (vpn_split va). pose proof (vpn_split va').
  destruct (Z.ltb_spec va MAXVA), (Z.ltb_spec va' MAXVA); (done || unfold PGSIZE in *; lia).
Qed.

(** The page of an address and the part of a transfer that falls in it. *)
Lemma chunk va len :
  0 <= va < 2 ^ 64 -> 0 < len ->
  let va0 := PGROUNDDOWN va in let n := Z.min (PGSIZE - (va - va0)) len in
  0 <= va0 /\ va - va0 = va mod PGSIZE /\ vpn va0 = vpn va /\ 0 < n <= len /\
  (n < len -> va + n = va0 + PGSIZE) /\
  forall i, 0 <= i < n -> vpn (va + i) = vpn va /\ (va + i) mod PGSIZE = va - va0 + i.
Proof.
  intros Hva Hlen. cbv zeta. rewrite PGROUNDDOWN_eq by done.
  pose proof (vpn_split va) as [E R]. unfold vpn in *. assert (HPG : PGSIZE = 4096) by done.
  assert (Hq : forall i, 0 <= i < PGSIZE - va mod PGSIZE ->
    (va + i) / PGSIZE = va / PGSIZE /\ (va + i) mod PGSIZE = va mod PGSIZE + i).
  { intros i Hi. rewrite E at 1 3. split.
    - symmetry. apply (Z.div_unique _ _ _ (va mod PGSIZE + i)); lia.
    - symmetry. apply (Z.mod_unique _ _ (va / PGSIZE)); lia. }
  pose proof (Z.div_pos va PGSIZE ltac:(lia) ltac:(lia)).
  split_and!; [lia|lia| |lia|lia|lia|].
  - symmetry. apply (Z.div_unique _ _ _ 0); lia.
  - intros i Hi. rewrite (proj1 (Hq i ltac:(lia))), (proj2 (Hq i ltac:(lia))). lia.
Qed.

Section copyin.
Context (s : kst) (root : Z) (d : dirmap) (l : list Z) (Hinv : vm_inv s root d l).

Lemma walkaddr_spec e va :
  0 <= va -> walkaddr root va (mkW s e) =
    Ok (if uaccess s d va then PTE2PA (leaf s d va) else 0) (mkW s e).
Proof.
  intros Hva. unfold walkaddr, uaccess. destruct (Z.leb_spec MAXVA va).
  { by rewrite (proj2 (Z.ltb_ge _ _)) by done. }
  rewrite (proj2 (Z.ltb_lt _ _)) by done.
  rewrite (bind_ok _ _ _ _ _ (walk_lookup s root d l Hinv e va ltac:(lia))).
  unfold leaf. destruct (leaf_addr d va) as [a|] eqn:E; simpl; [|done].
  rewrite (leaf_addr_pos s root d l va a) by done. unfold rd64. krun. simpl.
  destruct (Z.land _ PTE_V =? 0), (Z.land _ PTE_U =? 0); done.
Qed.

(** [bs] are the bytes at [va]... *)
Definition ureads (va : Z) (bs : list Z) : Prop :=
  forall i b, bs !! i = Some b -> uread s d (va + Z.of_nat i) = Some b.

Lemma ureads_app va bs bs' :
  ureads va bs -> ureads (va + Z.of_nat (length bs)) bs' -> ureads va (bs ++ bs').
Proof.
  intros H H' i b Hi. apply lookup_app_Some in Hi as [Hi|[Hi Hi']]; [by apply H|].
  apply H' in Hi'. rewrite <- Hi'. f_equal. lia.
Qed.

(** Reading within one page. *)
Lemma uread_chunk va len :
  0 <= va < 2 ^ 64 -> 0 < len ->
  let va0 := PGROUNDDOWN va in let n := Z.min (PGSIZE - (va - va0)) len in
  let pa0 := if uaccess s d va0 then PTE2PA (leaf s d va0) else 0 in
  forall i, 0 <= i < n ->
    uread s d (va + i) = if pa0 =? 0 then None else Some (mrd (k_mem s) (pa0 + (va - va0) + i)).
Proof.
  intros Hva Hlen va0 n pa0 i Hi.
  destruct (chunk va len Hva Hlen) as (Hv0 & Hoff & Evpn & Hn & Hnext & Hin).
  destruct (Hin i Hi) as [E1 E2].
  rewrite (uread_same_page s d va0) by (done || lia || by rewrite E1).
  rewrite E2. subst pa0. unfold va0. destruct (uaccess s d (PGROUNDDOWN va)); [|done].
  rewrite Z.add_assoc. by destruct (PTE2PA _ =? 0).
Qed.

Lemma copyin_loop_spec fuel : forall e va len got,
  0 <= va < 2 ^ 64 -> 0 <= len -> va + len <= 2 ^ 64 -> (Z.to_nat len < fuel)%nat ->
  ureads (va - Z.of_nat (length got)) got ->
  exists r bs, copyin_loop fuel root va len got (mkW s e) = Ok (r, bs) (mkW s e) /\
    ureads (va - Z.of_nat (length got)) bs /\
    (r = 0 /\ Z.of_nat (length bs) = Z.of_nat (length got) + len \/
     r = -1 /\ Z.of_nat (length bs) < Z.of_nat (length got) + len /\
     uread s d (va - Z.of_nat (length got) + Z.of_nat (length bs)) = None).
Proof.
  assert (HPG : PGSIZE = 4096) by done. assert (HM : MAXVA = 2 ^ 38) by done.
  induction fuel as [|fuel IH]; intros e va len got Hva Hlen Hw Hf Hgot; [lia|].
  cbn [copyin_loop]. destruct (Z.ltb_spec 0 len) as [Hpos|Hz].
  2: { exists 0, got. split_and!; [done|done|left; lia]. }
  destruct (chunk va len Hva Hpos) as (Hv0 & _ & _ & Hn & Hnext & _).
  pose proof (uread_chunk va len Hva Hpos) as Hrd. cbv zeta in Hrd.
  set (va0 := PGROUNDDOWN va) in *. set (n := Z.min (PGSIZE - (va - va0)) len) in *.
  rewrite (bind_ok _ _ _ _ _ (walkaddr_spec e va0 Hv0)).
  set (pa0 := if uaccess s d va0 then _ else _) in *.
  destruct (Z.eqb_spec pa0 0) as [E0|E0].
  { exists (-1), got. split_and!; [done|done|right; split_and!; [done|lia|]].
    rewrite <- (Hrd 0) by lia. f_equal. lia. }
  krun. simpl wk. set (bs := mbytes _ _ _).
  assert (Hlb : length bs = Z.to_nat n) by apply length_mbytes.
  assert (Hlg : Z.of_nat (length (got ++ bs)) = Z.of_nat (length got) + n) by (rewrite length_app; lia).
  assert (Hgot' : ureads (va - Z.of_nat (length got)) (got ++ bs)).
  { apply ureads_app; [done|]. intros i b Hi. assert (Hib := lookup_lt_Some _ _ _ Hi).
    subst bs. rewrite mbytes_lookup in Hi by lia. injection Hi as <-.
    rewrite <- (Hrd (Z.of_nat i)) by lia. f_equal. lia. }
  destruct (decide (n = len)) as [Enl|Enl].
  - exists 0, (got ++ bs). destruct fuel as [|fuel]; [lia|]. cbn [copyin_loop].
    rewrite (proj2 (Z.ltb_ge 0 (len - n))) by lia. split_and!; [done|done|left; lia].
  - specialize (Hnext ltac:(lia)). rewrite u64_small by lia.
    destruct (IH e (va0 + PGSIZE) (len - n) (got ++ bs)) as (r & bs' & E & Hb & Hr); [lia..| |].
    { rewrite Hlg. by replace (va0 + PGSIZE - (Z.of_nat (length got) + n)) with (va - Z.of_nat (length got)) by lia. }
    rewrite Hlg in *.
    replace (va0 + PGSIZE - (Z.of_nat (length got) + n)) with (va - Z.of_nat (length got)) in * by lia.
    exists r, bs'. split_and!; [done|done|]. destruct Hr as [[-> ?]|(-> & ? & ?)]; [left; lia|right].
    split_and!; (done || lia).
Qed.

Lemma copyinstr_page_spec n : forall p m got z out,
  copyinstr_page n p m got = (z, out) ->
  exists bs, out = got ++ bs /\ (forall i b, bs !! i = Some b -> b = mrd m (p + Z.of_nat i)) /\
    (z = true /\ (length bs <= n)%nat /\ (exists str, bs = str ++ [0] /\ Forall (.≠ 0) str) \/
     z = false /\ length bs = n /\ Forall (.≠ 0) bs).
Proof.
  induction n as [|n IH]; intros p m got z out E; cbn [copyinstr_page] in E.
  { injection E as <- <-. exists []. rewrite app_nil_r. split_and!; [done|done|right; done]. }
  destruct (Z.eqb_spec (mrd m p) 0) as [H0|H0].
  - injection E as <- <-. exists [0]. split_and!; [done| |left; split_and!; [done|simpl; lia|by exists []]].
    intros [|i] b Hb; [|by destruct i]. simpl in *. rewrite Z.add_0_r. congruence.
  - apply IH in E as (bs & -> & Hb & Hz). exists (mrd m p :: bs). split_and!.
    + by rewrite <- (assoc_L (++)).
    + intros [|i] b Hi; simpl in Hi; [rewrite Z.add_0_r; congruence|].
      apply Hb in Hi as ->. f_equal. lia.
    + destruct Hz as [(-> & Hl & str & -> & Hs)|(-> & Hl & Hs)]; [left|right]; split_and!; try done.
      * simpl. lia.
      * exists (mrd m p :: str). split; [done|]. by apply Forall_cons.
      * simpl. by rewrite Hl.
      * by apply Forall_cons.
Qed.

Lemma copyinstr_loop_spec fuel : forall e va max got,
  0 <= va < 2 ^ 64 -> 0 <= max -> va + max <= 2 ^ 64 -> (Z.to_nat max < fuel)%nat ->
  ureads (va - Z.of_nat (length got)) got -> Forall (.≠ 0) got ->
  exists r bs, copyinstr_loop fuel root va max got (mkW s e) = Ok (r, bs) (mkW s e) /\
    ureads (va - Z.of_nat (length got)) bs /\
    Z.of_nat (length bs) <= Z.of_nat (length got) + max /\
    (r = 0 /\ (exists str, bs = str ++ [0] /\ Forall (.≠ 0) str) \/
     r = -1 /\ Forall (.≠ 0) bs /\ (Z.of_nat (length bs) = Z.of_nat (length got) + max \/
       uread s d (va - Z.of_nat (length got) + Z.of_nat (length bs)) = None)).
Proof.
  assert (HPG : PGSIZE = 4096) by done. assert (HM : MAXVA = 2 ^ 38) by done.
  induction fuel as [|fuel IH]; intros e va max got Hva Hmax Hw Hf Hgot Hnz; [lia|].
  cbn [copyinstr_loop]. destruct (Z.ltb_spec 0 max) as [Hpos|Hz].
  2: { exists (-1), got. split_and!; [done|done|lia|right; split_and!; [done|done|left; lia]]. }
  destruct (chunk va max Hva Hpos) as (Hv0 & _ & _ & Hn & Hnext & _).
  pose proof (uread_chunk va max Hva Hpos) as Hrd. cbv zeta in Hrd.
  set (va0 := PGROUNDDOWN va) in *. set (n := Z.min (PGSIZE - (va - va0)) max) in *.
  rewrite (bind_ok _ _ _ _ _ (walkaddr_spec e va0 Hv0)).
  set (pa0 := if uaccess s d va0 then _ else _) in *.
  destruct (Z.eqb_spec pa0 0) as [E0|E0].
  { exists (-1), got. split_and!; [done|done|lia|right; split_and!; [done|done|right]].
    rewrite <- (Hrd 0) by lia. f_equal. lia. }
  krun. simpl wk. destruct (copyinstr_page _ _ _ _) as [z out] eqn:Ep.
  apply copyinstr_page_spec in Ep as (bs & -> & Hb & Hz).
  assert (Hlb : (length bs <= Z.to_nat n)%nat) by (destruct Hz as [(_ & ? & _)|(_ & ? & _)]; lia).
  assert (Hrd' : ureads (va - Z.of_nat (length got)) (got ++ bs)).
  { apply ureads_app; [done|]. intros i b Hi. pose proof (lookup_lt_Some _ _ _ Hi).
    rewrite (Hb _ _ Hi). transitivity (uread s d (va + Z.of_nat i)); [f_equal; lia|].
    by rewrite Hrd by lia. }
  destruct Hz as [(-> & _ & str & -> & Hs)|(-> & Hl & Hs)].
  { eexists 0, _. split_and!; [done|done|rewrite length_app; lia|left; split; [done|]].
    exists (got ++ str). rewrite (assoc_L (++)). split; [done|]. by apply Forall_app. }
  assert (Hlg : Z.of_nat (length (got ++ bs)) = Z.of_nat (length got) + n) by (rewrite length_app; lia).
  assert (Hnz' : Forall (.≠ 0) (got ++ bs)) by (by apply Forall_app).
  destruct (decide (n = max)) as [Enl|Enl].
  - exists (-1), (got ++ bs). destruct fuel as [|fuel]; [lia|]. cbn [copyinstr_loop].
    rewrite (proj2 (Z.ltb_ge 0 (max - n))) by lia.
    split_and!; [done|done|lia|right; split_and!; [done|done|left; lia]].
  - specialize (Hnext ltac:(lia)). rewrite u64_small by lia.
    assert (Eva : va0 + PGSIZE - (Z.of_nat (length got) + n) = va - Z.of_nat (length got)) by lia.
    destruct (IH e (va0 + PGSIZE) (max - n) (got ++ bs)) as (r & bs' & E & Hb' & Hle & Hr);
      [lia..|by rewrite Hlg, Eva|done|].
    rewrite Hlg, Eva in *. exists r, bs'. split_and!; [done|done|lia|].
    destruct Hr as [?|(-> & ? & Hr)]; [by left|right]. split_and!; [done|done|].
    destruct Hr; [left; lia|by right].
Qed.
End copyin.

(** * Copying out *)

(** The user pages of an address space are managed pages of its own. *)
Record as_ok (s : kst) (d : dirmap) (l : list Z) : Prop := {
  as_page : forall va, 0 <= va -> uaccess s d va = true ->
    page_ok s (PTE2PA (leaf s d va)) /\ PTE2PA (leaf s d va) ∉ l /\
    forall q b, d !! q = Some b -> b <> PTE2PA (leaf s d va);
  as_inj : forall va va', 0 <= va -> 0 <= va' -> uaccess s d va = true -> uaccess s d va' = true ->
    PTE2PA (leaf s d va) = PTE2PA (leaf s d va') -> vpn va = vpn va';
}.

Lemma uaccess_leaf s s' d :
  (forall va, 0 <= va -> leaf s' d va = leaf s d va) ->
  forall va, 0 <= va -> uaccess s' d va = uaccess s d va /\ uwritable s' d va = uwritable s d va /\
    upa s' d va = upa s d va.
Proof. intros H va Hva. unfold uwritable, uaccess, upa. by rewrite H. Qed.

Lemma as_ok_leaf s s' d l :
  as_ok s d l -> mem_only s s' -> (forall va, 0 <= va -> leaf s' d va = leaf s d va) -> as_ok s' d l.
Proof.
  intros [Hp Hi] Hm H. pose proof (uaccess_leaf s s' d H) as Hu. split.
  - intros va Hva. rewrite (proj1 (Hu va Hva)), H, (mem_only_page_ok _ _ _ Hm) by done. by apply Hp.
  - intros va va' Hva Hva'. rewrite (proj1 (Hu va Hva)), (proj1 (Hu va' Hva')), !H by done. by apply Hi.
Qed.

Lemma uaccess_vpn s d va va' :
  0 <= va -> 0 <= va' -> vpn va = vpn va' ->
  uaccess s d va = uaccess s d va' /\ uwritable s d va = uwritable s d va'.
Proof.
  intros Ha Ha' E. unfold uwritable, uaccess. rewrite (leaf_vpn s d va va') by done.
  replace (va <? MAXVA) with (va' <? MAXVA); [done|].
  assert (EM : MAXVA = PGSIZE * 2 ^ 26) by done. pose proof (vpn_split va). pose proof (vpn_split va').
  destruct (Z.ltb_spec va MAXVA), (Z.ltb_spec va' MAXVA); (done || unfold PGSIZE in *; lia).
Qed.

(** Two accessible addresses are the same memory only if they are equal. *)
Lemma upa_inj s d l va va' :
  as_ok s d l -> 0 <= va -> 0 <= va' -> uaccess s d va = true -> uaccess s d va' = true ->
  upa s d va = upa s d va' -> va = va'.
Proof.
  intros Has Ha Ha' Hu Hu' E. unfold upa in E. pose proof (vpn_split va). pose proof (vpn_split va').
  destruct (as_page _ _ _ Has va Ha Hu) as ([Hal _] & _).
  destruct (as_page _ _ _ Has va' Ha' Hu') as ([Hal' _] & _).
  assert (Ep : PTE2PA (leaf s d va) = PTE2PA (leaf s d va'))
    by (apply page_boundary_unique; [done|done|lia]).
  pose proof (as_inj _ _ _ Has va va' Ha Ha' Hu Hu' Ep). unfold PGSIZE in *. lia.
Qed.

(** Storing bytes at consecutive user addresses of one page. *)
Lemma store_user s d l va bs va' :
  as_ok s d l -> 0 <= va -> 0 <= va' -> uaccess s d va = true -> uaccess s d va' = true ->
  va mod PGSIZE + Z.of_nat (length bs) <= PGSIZE ->
  mrd (mstore (upa s d va) bs (k_mem s)) (upa s d va') =
    match bs !! Z.to_nat (va' - va) with
    | Some v => if decide (va <= va') then u8 v else mrd (k_mem s) (upa s d va')
    | None => mrd (k_mem s) (upa s d va')
    end.
Proof.
  intros Has Ha Ha' Hu Hu' Hfit. rewrite mrd_mstore.
  pose proof (vpn_split va) as [Ev Rv]. pose proof (vpn_split va') as [Ev' Rv'].
  destruct (decide (vpn va = vpn va')) as [E|E].
  - assert (Eu : upa s d va' - upa s d va = va' - va)
      by (unfold upa; rewrite (leaf_vpn s d va va') by done; unfold PGSIZE in *; lia).
    rewrite Eu. destruct (bs !! Z.to_nat (va' - va)); repeat case_decide; (done || lia).
  - assert (Hout : ~ (upa s d va <= upa s d va' < upa s d va + Z.of_nat (length bs))).
    { intros Hb. apply E. apply (as_inj _ _ _ Has); [done..|].
      destruct (as_page _ _ _ Has va Ha Hu) as ([Hal _] & _).
      destruct (as_page _ _ _ Has va' Ha' Hu') as ([Hal' _] & _).
      unfold upa in Hb. apply page_boundary_unique; [done|done|lia]. }
    assert (Hout' : va <= va' -> bs !! Z.to_nat (va' - va) = None).
    { intros Hle. apply lookup_ge_None. assert (vpn va < vpn va') by (unfold vpn in *; pose proof (Z.div_le_mono va va' PGSIZE ltac:(done) Hle); lia).
      unfold PGSIZE in *. lia. }
    destruct (bs !! Z.to_nat (upa s d va' - upa s d va)) as [v|] eqn:El.
    + apply lookup_lt_Some in El. rewrite decide_False by lia.
      destruct (bs !! Z.to_nat (va' - va)); [|done]. case_decide; [naive_solver|done].
    + destruct (bs !! Z.to_nat (va' - va)); [|done]. case_decide; [naive_solver|done].
Qed.

(** [bs] was written at user address [va], and nothing else changed. *)
Record wrote (d : dirmap) (s s' : kst) (va : Z) (bs : list Z) : Prop := {
  wr_mem_only : mem_only s s';
  wr_leaf : forall va', 0 <= va' -> leaf s' d va' = leaf s d va';
  wr_user : forall va', 0 <= va' -> uaccess s d va' = true ->
    mrd (k_mem s') (upa s d va') =
      match bs !! Z.to_nat (va' - va) with
      | Some v => if decide (va <= va') then u8 v else mrd (k_mem s) (upa s d va')
      | None => mrd (k_mem s) (upa s d va')
      end;
  wr_out : forall b, (forall va', 0 <= va' -> uwritable s d va' = true -> upa s d va' <> b) ->
    mrd (k_mem s') b = mrd (k_mem s) b;
}.

Lemma wrote_nil d s va : wrote d s s va [].
Proof. by split. Qed.

Lemma wrote_app d s1 s2 s3 va bs bs' :
  wrote d s1 s2 va bs -> wrote d s2 s3 (va + Z.of_nat (length bs)) bs' -> wrote d s1 s3 va (bs ++ bs').
Proof.
  intros [A1 A2 A3 A4] [B1 B2 B3 B4]. pose proof (uaccess_leaf s1 s2 d A2) as Hu. split.
  - by etrans.
  - intros va' Hva'. by rewrite B2, A2.
  - intros va' Hva' Hac. destruct (Hu va' Hva') as (E1 & _ & E3).
    specialize (B3 va' Hva'). rewrite E1, E3 in B3. rewrite B3 by done. rewrite A3 by done.
    rewrite lookup_app. destruct (decide (va + Z.of_nat (length bs) <= va')) as [Hge|Hlt].
    + rewrite (lookup_ge_None_2 bs) by lia.
      replace (Z.to_nat (va' - va) - length bs)%nat with (Z.to_nat (va' - (va + Z.of_nat (length bs)))) by lia.
      destruct (bs' !! _); [|done]. rewrite !decide_True by lia. done.
    + destruct (bs' !! Z.to_nat (va' - (va + _))).
      all: destruct (decide (va <= va')) as [Hle|Hnle].
      all: try (destruct (lookup_lt_is_Some_2 bs (Z.to_nat (va' - va)) ltac:(lia)) as [x ->]; done).
      all: destruct (bs !! Z.to_nat (va' - va)); try done; by destruct (bs' !! _).
  - intros b Hb. rewrite B4; [by apply A4|]. intros va' Hva' Hw. destruct (Hu va' Hva') as (_ & E2 & ->).
    rewrite E2 in Hw. by apply Hb.
Qed.

(** One page of copyout. *)
Lemma copyout_chunk s root d l va bs :
  vm_inv s root d l -> as_ok s d l -> 0 <= va -> uwritable s d va = true ->
  va mod PGSIZE + Z.of_nat (length bs) <= PGSIZE ->
  let s' := s <| k_mem ::= mstore (upa s d va) bs |> in
  vm_inv s' root d l /\ wrote d s s' va bs.
Proof.
  intros Hinv Has Hva Hw Hfit s'. assert (Hac : uaccess s d va = true) by (by apply andb_prop in Hw as [? _]).
  destruct (as_page _ _ _ Has va Hva Hac) as (Hpo & Hpl & Hpd). pose proof (vpn_split va) as [Ev Rv].
  assert (Hout : forall b, ~ in_page (PTE2PA (leaf s d va)) b -> mrd (k_mem s') b = mrd (k_mem s) b).
  { intros b Hb. subst s'. simpl. rewrite mrd_mstore. destruct (bs !! _) as [v|] eqn:E; [|done].
    apply lookup_lt_Some in E. case_decide; [|done]. destruct Hb. unfold in_page, upa in *. lia. }
  assert (Hm : mem_only s s') by (eexists (k_freelist s), _; subst s'; kst_eq).
  destruct (vm_inv_frame s s' root d l l) as [Hi Hl]; [done|done| |apply Hinv| |].
  - apply (free_list_frame s); [apply Hinv|done|done|]. intros q b Hq Hb. apply Hout.
    pose proof (fl_pages _ _ (vi_free _ _ _ _ Hinv)) as Hf. rewrite Forall_forall in Hf.
    apply (in_page_ne s q _ b); [by apply Hf|done|by intros ->|done].
  - intros b Hd. apply Hout. by eapply dir_mem_apart.
  - split; [done|]. split; [done|done| |].
    + intros va' Hva' Hac'. subst s'. simpl. by eapply store_user.
    + intros b Hb. subst s'. simpl. rewrite mrd_mstore. destruct (bs !! _) as [v|] eqn:E; [|done].
      apply lookup_lt_Some in E. case_decide; [|done].
      set (va' := va + (b - upa s d va)).
      assert (Evp : vpn va' = vpn va).
      { unfold vpn, va'. symmetry. apply (Z.div_unique _ _ _ (va mod PGSIZE + (b - upa s d va))); unfold vpn in *; lia. }
      destruct (uaccess_vpn s d va' va) as [_ Ew]; [lia|lia|done|].
      destruct (Hb va'); [lia|by rewrite Ew|]. unfold upa. rewrite (leaf_vpn s d va' va) by (done || lia).
      assert (Eva : va' = va + (b - (PTE2PA (leaf s d va) + va mod PGSIZE))) by done.
      pose proof (vpn_split va') as [Ev' _]. rewrite Evp in Ev'. clearbody va'. unfold PGSIZE in *. lia.
Qed.

(** The test copyout makes on each page. *)
Lemma copyout_test s root d l e va src fuel :
  vm_inv s root d l -> 0 <= va < 2 ^ 64 -> (0 < length src)%nat ->
  let n := Z.min (PGSIZE - (va - PGROUNDDOWN va)) (Z.of_nat (length src)) in
  copyout_loop (S fuel) root va src (mkW s e) =
    if uwritable s d va
    then copyout_loop fuel root (PGROUNDDOWN va + PGSIZE) (drop (Z.to_nat n) src)
           (mkW (s <| k_mem ::= mstore (upa s d va) (take (Z.to_nat n) src) |>) e)
    else Ok (-1) (mkW s e).
Proof.
  intros Hinv Hva Hlen n. cbn [copyout_loop]. rewrite (proj2 (Z.ltb_lt _ _)) by lia.
  destruct (chunk va (Z.of_nat (length src)) Hva ltac:(lia)) as (Hv0 & Hoff & Evpn & _).
  destruct (uaccess_vpn s d (PGROUNDDOWN va) va) as [_ Ew]; [done|lia|done|].
  rewrite <- Ew. unfold upa. rewrite <- Hoff, (leaf_vpn s d va (PGROUNDDOWN va)) by (done || lia).
  set (va0 := PGROUNDDOWN va) in *. unfold uwritable, uaccess.
  destruct (Z.leb_spec MAXVA va0) as [HM|HM].
  { by rewrite (proj2 (Z.ltb_ge _ _)) by done. }
  rewrite (proj2 (Z.ltb_lt _ _)) by done.
  rewrite (bind_ok _ _ _ _ _ (walk_lookup s root d l Hinv e va0 ltac:(lia))).
  unfold leaf. destruct (leaf_addr d va0) as [a|] eqn:E; simpl; [|done].
  rewrite (leaf_addr_pos s root d l va0 a) by done. unfold rd64. krun. simpl.
  destruct (Z.land _ PTE_V =? 0), (Z.land _ PTE_U =? 0), (Z.land _ PTE_W =? 0); done.
Qed.

Lemma copyout_loop_spec root d l fuel : forall e s va src,
  vm_inv s root d l -> as_ok s d l -> 0 <= va < 2 ^ 64 -> (length src < fuel)%nat ->
  exists r s' k, copyout_loop fuel root va src (mkW s e) = Ok r (mkW s' e) /\
    vm_inv s' root d l /\ wrote d s s' va (take k src) /\ (k <= length src)%nat /\
    (forall i, (i < k)%nat -> uwritable s d (va + Z.of_nat i) = true) /\
    (r = 0 /\ k = length src \/ r = -1 /\ (k < length src)%nat /\ uwritable s d (va + Z.of_nat k) = false).
Proof.
  assert (HPG : PGSIZE = 4096) by done. assert (HM : MAXVA = 2 ^ 38) by done.
  induction fuel as [|fuel IH]; intros e s va src Hinv Has Hva Hf; [lia|].
  destruct (decide (length src = 0)%nat) as [Hz|Hz].
  { exists 0, s, 0%nat. cbn [copyout_loop]. rewrite (proj2 (Z.ltb_ge _ _)) by lia.
    split_and!; [done|done|apply wrote_nil|lia|lia|by left]. }
  rewrite (copyout_test s root d l) by (done || lia).
  destruct (chunk va (Z.of_nat (length src)) Hva ltac:(lia)) as (Hv0 & Hoff & Evpn & Hn & Hnext & Hin).
  set (va0 := PGROUNDDOWN va) in *. set (n := Z.min (PGSIZE - (va - va0)) (Z.of_nat (length src))) in *.
  destruct (uwritable s d va) eqn:Ew.
  2: { exists (-1), s, 0%nat. split_and!; [done|done|apply wrote_nil|lia|lia|right].
       split_and!; [done|lia|]. by rewrite Z.add_0_r. }
  assert (Hlt : length (take (Z.to_nat n) src) = Z.to_nat n) by (rewrite length_take; lia).
  destruct (copyout_chunk s root d l va (take (Z.to_nat n) src)) as [Hi1 Hw1]; [done|done|lia|done|lia|].
  set (s1 := s <| k_mem ::= _ |>) in *.
  assert (Hwr : forall i, 0 <= i < n -> uwritable s d (va + i) = true).
  { intros i Hi. destruct (Hin i Hi) as [E _]. destruct (uaccess_vpn s d (va + i) va) as [_ ->]; (done || lia). }
  destruct (decide (n = Z.of_nat (length src))) as [Enl|Enl].
  - exists 0, s1, (length src). destruct fuel as [|fuel]; [lia|]. cbn [copyout_loop].
    rewrite (proj2 (Z.ltb_ge _ _)) by (rewrite length_drop; lia).
    rewrite Enl, Nat2Z.id in Hw1.
    split_and!; [done|done|done|done| |by left]. intros i Hi. apply Hwr. lia.
  - specialize (Hnext ltac:(lia)). assert (Hva0 : va0 < MAXVA).
    { pose proof (vpn_split va). apply andb_prop in Ew as [Ew _]. unfold uaccess in Ew. destruct (Z.ltb_spec va MAXVA); [lia|done]. }
    destruct (IH e s1 (va0 + PGSIZE) (drop (Z.to_nat n) src)) as (r & s2 & k & E2 & Hi2 & Hw2 & Hk & Hwk & Hr);
      [done|eapply as_ok_leaf; [done|apply Hw1|apply Hw1]|lia|rewrite length_drop; lia|].
    rewrite length_drop in *. rewrite <- Hnext in *.
    exists r, s2, (Z.to_nat n + k)%nat. split_and!; [done|done| |lia| |].
    + rewrite <- take_take_drop. eapply wrote_app; [done|].
      rewrite Hlt. by replace (va + Z.of_nat (Z.to_nat n)) with (va + n) by lia.
    + intros i Hi. destruct (decide (Z.of_nat i < n)) as [Hlt'|Hge]; [apply Hwr; lia|].
      destruct (uaccess_leaf s s1 d (wr_leaf _ _ _ _ _ Hw1) (va + Z.of_nat i) ltac:(lia)) as (_ & <- & _).
      rewrite <- (Hwk (i - Z.to_nat n)%nat) by lia. f_equal. lia.
    + destruct Hr as [[-> ->]|(-> & Hlk & Hnw)]; [left; lia|right]. split_and!; [done|lia|].
      destruct (uaccess_leaf s s1 d (wr_leaf _ _ _ _ _ Hw1) (va + n + Z.of_nat k) ltac:(lia)) as (_ & E & _).
      rewrite <- Hnw, E. f_equal. lia.
Qed.

(** * Growing keeps address spaces apart *)

Lemma upages_lookup s d n : forall a i, (i < n)%nat ->
  upages s d a n !! i = Some (PTE2PA (leaf s d (a + PGSIZE * Z.of_nat i))).
Proof.
  induction n as [|n IH]; intros a i Hi; [lia|]. destruct i as [|i]; cbn [upages lookup list_lookup].
  - by rewrite Z.mul_0_r, Z.add_0_r.
  - change (upages s d (a + PGSIZE) n !! i = Some (PTE2PA (leaf s d (a + PGSIZE * Z.of_nat (S i))))).
    rewrite IH by lia. do 3 f_equal. lia.
Qed.

Section grow_as_ok.
Context (s0 : kst) (d0 : dirmap) (l0 : list Z) (root old lim perm : Z) (k : nat).
Context (s : kst) (d : dirmap) (l : list Z).
Context (Hg : grow_inv s0 d0 l0 root old lim perm k s d l).
Context (Hv0 : vm_inv s0 root d0 l0) (Has : as_ok s0 d0 l0).
Context (Hold : 0 <= old) (Hal : old mod PGSIZE = 0) (Hk : old + PGSIZE * Z.of_nat k <= lim).

Lemma grow_uaccess va :
  0 <= va -> uaccess s d va = true ->
  (exists i, (i < k)%nat /\ vpn va = vpn old + Z.of_nat i /\
    upages s d old k !! i = Some (PTE2PA (leaf s d va))) \/
  (leaf s d va = leaf s0 d0 va /\ uaccess s0 d0 va = true).
Proof using All.
  intros Hva Hu. assert (HM : va < MAXVA).
  { unfold uaccess in Hu. by destruct (Z.ltb_spec va MAXVA). }
  destruct (decide (old <= va < lim)) as [Hin|Hout].
  - left. destruct (decide (va < old + PGSIZE * Z.of_nat k)) as [Hlt|Hge].
    + pose proof (proj1 (page_of_range old (Z.of_nat k) va Hal Hold Hva ltac:(lia)) ltac:(lia)) as Hp.
      exists (Z.to_nat (vpn va - vpn old)). split_and!; [lia|lia|]. rewrite upages_lookup by lia.
      do 2 f_equal. apply leaf_vpn; [unfold PGSIZE; lia|done|].
      unfold vpn in *. rewrite (Z.mul_comm PGSIZE), Z.div_add by done. lia.
    + exfalso. pose proof (ga_unmapped _ _ _ _ _ _ _ _ _ _ _ Hg va ltac:(lia)) as Hn.
      unfold unmapped in Hn. unfold uaccess in Hu. rewrite Hn in Hu. simpl in Hu.
      by rewrite andb_false_r in Hu.
  - right. pose proof (ga_rest _ _ _ _ _ _ _ _ _ _ _ Hg va ltac:(lia) Hout) as E. split; [done|].
    unfold uaccess in *. by rewrite <- E.
Qed.

Lemma grow_as_ok : as_ok s d l.
Proof using All.
  pose proof (ga_own _ _ _ _ _ _ _ _ _ _ _ Hg) as [Hok Hnd Hdir]. split.
  - intros va Hva Hu. destruct (grow_uaccess va Hva Hu) as [(i & Hi & _ & E)|[-> Hu0]].
    + apply list_elem_of_lookup_2 in E. split_and!.
      * rewrite Forall_forall in Hok. by apply Hok.
      * apply NoDup_app in Hnd as (_ & Hnd & _). by apply Hnd.
      * intros q b Hq ->. by apply (Hdir q _ Hq).
    + destruct (as_page _ _ _ Has va Hva Hu0) as (Hp & Hnl & Hnd'). split_and!.
      * by rewrite (mem_only_page_ok _ _ _ (ga_mem_only _ _ _ _ _ _ _ _ _ _ _ Hg)).
      * intros Hin. apply Hnl, (ga_pages _ _ _ _ _ _ _ _ _ _ _ Hg). by left.
      * intros q b Hq ->. destruct (d0 !! q) as [b'|] eqn:E.
        -- pose proof (lookup_weaken _ _ _ _ E (ga_dir _ _ _ _ _ _ _ _ _ _ _ Hg)). apply (Hnd' q b' E). congruence.
        -- apply Hnl, (ga_pages _ _ _ _ _ _ _ _ _ _ _ Hg). right; right. by exists q.
  - intros va va' Hva Hva' Hu Hu' E.
    destruct (grow_uaccess va Hva Hu) as [(i & Hi & Ei & El)|[El Hu0]];
    destruct (grow_uaccess va' Hva' Hu') as [(i' & Hi' & Ei' & El')|[El' Hu0']].
    + apply NoDup_app in Hnd as (Hnd & _ & _). rewrite <- E in El'.
      pose proof (NoDup_lookup _ _ _ _ Hnd El El'). lia.
    + exfalso. rewrite El' in E. destruct (as_page _ _ _ Has va' Hva' Hu0') as (_ & Hnl & _). apply Hnl.
      apply (ga_pages _ _ _ _ _ _ _ _ _ _ _ Hg). right; left. rewrite <- E. by eapply list_elem_of_lookup_2.
    + exfalso. rewrite El in E. destruct (as_page _ _ _ Has va Hva Hu0) as (_ & Hnl & _). apply Hnl.
      apply (ga_pages _ _ _ _ _ _ _ _ _ _ _ Hg). right; left. rewrite E. by eapply list_elem_of_lookup_2.
    + rewrite El, El' in E. by apply (as_inj _ _ _ Has).
Qed.
End grow_as_ok.
