(* ===== verification/VmProps.v ===== *)
(** The guarantees of the virtual memory system (vm.c): what mapping,
    unmapping and growing do to an address space, and that the copying routines
    move exactly the user's bytes. *)

From S2P Require Import Prelude Riscv Memory CString State Kalloc Vm PageTable AddrSpace UserMem CopyUser.

(** * A concrete address space *)

(** An address space built by the code itself: the free pages, uvmcreate, and
    uvmalloc of one writable page. *)
Definition demo_run : K Z :=
  kinit;;
  p ← uvmcreate;
  uvmalloc p 0 PGSIZE PTE_W.

Lemma demo_space_gen w p0 :
  LKmem ∉ k_held (wk w) -> k_freelist (wk w) = 0 -> 0 < k_end (wk w) <= PHYSTOP ->
  page_ok (wk w) p0 -> match demo_run w with Ok r _ => r = PGSIZE | _ => False end ->
  exists s root d l, vm_inv s root d l /\ as_ok s d l /\
    (forall va, 0 <= va < PGSIZE -> uwritable s d va = true) /\
    (forall va, PGSIZE <= va < MAXVA -> unmapped s d va) /\
    own_pages s d l (upages s d 0 1) /\ forall va, 0 <= va < PGSIZE -> is_leaf (leaf s d va).
Proof.
  intros Hh Hf He Hp0 Hres.
  destruct (kinit_spec w Hh Hf He) as (s1 & l1 & E1 & Hl1 & Hm1 & Hp1).
  destruct l1 as [|p l1]; [by apply Hp1, elem_of_nil in Hp0|].
  destruct (uvmcreate_spec (wenv w) s1 p l1) as (s2 & E2 & Hm2 & Hv2 & Hb2 & Hlf2);
    [by rewrite (mem_only_held _ _ Hm1)|done|].
  destruct (uvmalloc_spec (wenv w) s2 p {[ [] := p ]} l1 0 PGSIZE PTE_W) as (r & s3 & d & l & E3 & Hr);
    [done|by vm_compute|by vm_compute|by vm_compute| |].
  { intros va Hva. unfold unmapped. change (PGROUNDUP 0) with 0 in Hva. rewrite Hlf2 by lia. done. }
  unfold demo_run in Hres. rewrite (bind_ok _ _ _ _ _ E1), (bind_ok _ _ _ _ _ E2), E3 in Hres.
  destruct Hr as [[_ Hg]|[-> _]]; [|done].
  change (PGROUNDUP 0) with 0 in Hg. change (PGROUNDUP PGSIZE) with PGSIZE in Hg.
  change (Z.to_nat ((PGSIZE - 0) / PGSIZE)) with 1%nat in Hg.
  exists s3, p, d, l. split_and!; [apply Hg| | | |apply Hg|].
  - assert (Hno : forall va, 0 <= va -> uaccess s2 {[ [] := p ]} va <> true).
    { intros va Hva Hu. unfold uaccess in Hu. rewrite Hlf2 in Hu by done. by rewrite andb_false_r in Hu. }
    eapply grow_as_ok; [exact Hg|done| |done|done|done]. split.
    + intros va Hva Hu. by destruct (Hno va Hva).
    + intros va va' Hva _ Hu. by destruct (Hno va Hva).
  - intros va Hva. destruct (ga_leaf _ _ _ _ _ _ _ _ _ _ _ Hg va) as (q & Hq & E); [lia|].
    assert (Hqo : page_ok s3 q).
    { pose proof (op_ok _ _ _ _ (ga_own _ _ _ _ _ _ _ _ _ _ _ Hg)) as H. rewrite Forall_forall in H. by apply H. }
    destruct (page_ok_small s3 q) as [Hqs _]; [apply Hg|done|].
    unfold uwritable, uaccess. rewrite E, mk_pte_eq. unfold PGSIZE in Hva.
    rewrite (proj2 (Z.ltb_lt _ _)) by (change MAXVA with (2 ^ 38); lia).
    change (Z.lor (Z.lor (Z.lor PTE_R PTE_U) PTE_W) PTE_V) with 23.
    change PTE_V with (Z.shiftl 1 0). change PTE_U with (Z.shiftl 1 4). change PTE_W with (Z.shiftl 1 2).
    by rewrite !(land_flag_make q 23) by lia.
  - intros va Hva. unfold unmapped.
    rewrite (ga_rest _ _ _ _ _ _ _ _ _ _ _ Hg va) by (unfold PGSIZE in *; lia).
    rewrite Hlf2 by (unfold PGSIZE in *; lia). done.
  - intros va Hva. destruct (ga_leaf _ _ _ _ _ _ _ _ _ _ _ Hg va) as (q & Hq & ->); [lia|].
    pose proof (op_ok _ _ _ _ (ga_own _ _ _ _ _ _ _ _ _ _ _ Hg)) as H. rewrite Forall_forall in H.
    destruct (page_ok_small s3 q) as [Hqs _]; [apply Hg|by apply H|]. apply user_pte_leaf; [done|lia].
Qed.

Definition demo_world : world := mkW (bss (PHYSTOP - 5 * PGSIZE) 0x80008000 0x80007000 demo_syms demo_reg ∅ ∅) [].

Lemma demo_result : match demo_run demo_world with Ok r _ => r = PGSIZE | _ => False end.
Proof. vm_compute. reflexivity. Qed.

Lemma demo_space :
  exists s root d l, vm_inv s root d l /\ as_ok s d l /\
    (forall va, 0 <= va < PGSIZE -> uwritable s d va = true) /\
    (forall va, PGSIZE <= va < MAXVA -> unmapped s d va) /\
    own_pages s d l (upages s d 0 1) /\ forall va, 0 <= va < PGSIZE -> is_leaf (leaf s d va).
Proof.
  apply (demo_space_gen demo_world (PHYSTOP - PGSIZE));
    [apply not_elem_of_nil|reflexivity|by vm_compute|by vm_compute|exact demo_result].
Qed.

(** copyin returns 0 exactly when every byte of the range is readable by
    the user, and then with exactly the user's bytes; otherwise it returns -1
    having copied the bytes before the first page it may not read.  It changes
    nothing. *)
Theorem copyin_exact s root d l e va len :
  vm_inv s root d l -> 0 <= va < 2 ^ 64 -> 0 <= len -> va + len <= 2 ^ 64 ->
  exists r bs, copyin root va len (mkW s e) = Ok (r, bs) (mkW s e) /\
    (forall i b, bs !! i = Some b -> uread s d (va + Z.of_nat i) = Some b) /\
    (r = 0 /\ Z.of_nat (length bs) = len \/
     r = -1 /\ Z.of_nat (length bs) < len /\ uread s d (va + Z.of_nat (length bs)) = None).
Proof.
  intros Hinv Hva Hlen Hw.
  destruct (copyin_loop_spec s root d l Hinv (S (Z.to_nat len)) e va len []) as (r & bs & E & Hr & Hc);
    [done|done|done|lia|done|].
  simpl in *. rewrite Z.sub_0_r in *. by exists r, bs.
Qed.

Lemma copyin_exact_witness :
  exists s root d l r bs, vm_inv s root d l /\ copyin root 10 3 (mkW s []) = Ok (r, bs) (mkW s []) /\
    (forall i b, bs !! i = Some b -> uread s d (10 + Z.of_nat i) = Some b) /\
    (r = 0 /\ Z.of_nat (length bs) = 3 \/
     r = -1 /\ Z.of_nat (length bs) < 3 /\ uread s d (10 + Z.of_nat (length bs)) = None).
Proof.
  destruct demo_space as (s & root & d & l & Hinv & _).
  destruct (copyin_exact s root d l [] 10 3 Hinv) as (r & bs & H); [lia|lia|lia|].
  exists s, root, d, l, r, bs. exact (conj Hinv H).
Defined.

(** copyinstr succeeds exactly with a NUL-terminated string that the user
    can read and that fits in the buffer with its NUL; it fails if the first
    [max] bytes hold no NUL or run into a page that cannot be read. *)
Theorem copyinstr_exact s root d l e va max :
  vm_inv s root d l -> 0 <= va < 2 ^ 64 -> 0 <= max -> va + max <= 2 ^ 64 ->
  exists r bs, copyinstr root va max (mkW s e) = Ok (r, bs) (mkW s e) /\
    (forall i b, bs !! i = Some b -> uread s d (va + Z.of_nat i) = Some b) /\
    Z.of_nat (length bs) <= max /\
    (r = 0 /\ (exists str, bs = str ++ [0] /\ Forall (.≠ 0) str) \/
     r = -1 /\ Forall (.≠ 0) bs /\
       (Z.of_nat (length bs) = max \/ uread s d (va + Z.of_nat (length bs)) = None)).
Proof.
  intros Hinv Hva Hlen Hw.
  destruct (copyinstr_loop_spec s root d l Hinv (S (Z.to_nat max)) e va max []) as (r & bs & E & Hr & Hc);
    [done|done|done|lia|done|done|].
  simpl in *. rewrite Z.sub_0_r in *. by exists r, bs.
Qed.

Lemma copyinstr_exact_witness :
  exists s root d l r bs, vm_inv s root d l /\ copyinstr root 10 3 (mkW s []) = Ok (r, bs) (mkW s []) /\
    (forall i b, bs !! i = Some b -> uread s d (10 + Z.of_nat i) = Some b) /\
    Z.of_nat (length bs) <= 3 /\
    (r = 0 /\ (exists str, bs = str ++ [0] /\ Forall (.≠ 0) str) \/
     r = -1 /\ Forall (.≠ 0) bs /\
       (Z.of_nat (length bs) = 3 \/ uread s d (10 + Z.of_nat (length bs)) = None)).
Proof.
  destruct demo_space as (s & root & d & l & Hinv & _).
  destruct (copyinstr_exact s root d l [] 10 3 Hinv) as (r & bs & H); [lia|lia|lia|].
  exists s, root, d, l, r, bs. exact (conj Hinv H).
Defined.

(** C24: copyout writes the given bytes at the user's addresses, page by page,
    up to the first page the user may not write, where it returns -1.  No other
    user byte, no page-table page, no free page and no kernel memory changes. *)
Theorem copyout_exact s root d l e va src :
  vm_inv s root d l -> as_ok s d l -> 0 <= va < 2 ^ 64 ->
  exists r s' k, copyout root va src (mkW s e) = Ok r (mkW s' e) /\
    vm_inv s' root d l /\ wrote d s s' va (take k src) /\
    (forall i, (i < k)%nat -> uwritable s d (va + Z.of_nat i) = true) /\
    (r = 0 /\ k = length src \/ r = -1 /\ (k < length src)%nat /\ uwritable s d (va + Z.of_nat k) = false).
Proof.
  intros Hinv Has Hva.
  destruct (copyout_loop_spec root d l (S (length src)) e s va src) as (r & s' & k & E & Hi & Hw & _ & Hr);
    [done|done|done|lia|].
  by exists r, s', k.
Qed.

Lemma copyout_exact_witness :
  exists s root d l r s' k, as_ok s d l /\ copyout root 4090 (replicate 10 7) (mkW s []) = Ok r (mkW s' []) /\
    vm_inv s' root d l /\ wrote d s s' 4090 (take k (replicate 10 7)) /\
    (forall i, (i < k)%nat -> uwritable s d (4090 + Z.of_nat i) = true) /\
    (r = 0 /\ k = length (replicate 10 7) \/
     r = -1 /\ (k < length (replicate 10 7))%nat /\ uwritable s d (4090 + Z.of_nat k) = false).
Proof.
  destruct demo_space as (s & root & d & l & Hinv & Has & _).
  destruct (copyout_exact s root d l [] 4090 (replicate 10 7) Hinv Has) as (r & s' & k & H); [lia|].
  exists s, root, d, l, r, s', k. exact (conj Has H).
Defined.

(** what copyout wrote, copyin reads back. *)
Theorem copyout_copyin s root d l e va src w' :
  vm_inv s root d l -> as_ok s d l -> 0 <= va -> va + Z.of_nat (length src) <= 2 ^ 64 ->
  va < 2 ^ 64 -> Forall is_char src -> copyout root va src (mkW s e) = Ok 0 w' ->
  copyin root va (Z.of_nat (length src)) w' = Ok (0, src) w'.
Proof.
  intros Hinv Has Hva Hlen Hlt Hsrc E.
  destruct (copyout_loop_spec root d l (S (length src)) e s va src)
    as (r & s' & k & E' & Hi & Hw & _ & Hwr & Hr); [done|done|lia|lia|].
  unfold copyout in E. rewrite E' in E. injection E as -> <-.
  destruct Hr as [[_ ->]|[? _]]; [|done]. rewrite firstn_all in Hw.
  assert (Hrd : forall i c, src !! i = Some c -> uread s' d (va + Z.of_nat i) = Some c).
  { intros i c Hc. pose proof (Hwr i (lookup_lt_Some _ _ _ Hc)) as Hu. apply andb_prop in Hu as [Hu _].
    destruct (uaccess_leaf s s' d (wr_leaf _ _ _ _ _ Hw) (va + Z.of_nat i) ltac:(lia)) as (E1 & _ & E3).
    unfold uread. rewrite E1, E3, Hu, (wr_leaf _ _ _ _ _ Hw), (wr_user _ _ _ _ _ Hw) by (done || lia).
    destruct (as_page _ _ _ Has (va + Z.of_nat i) ltac:(lia) Hu) as (Hp & _).
    apply (page_ok_range s) in Hp; [|apply Hinv]. rewrite (proj2 (Z.eqb_neq _ _)) by lia. simpl.
    replace (Z.to_nat (va + Z.of_nat i - va)) with i by lia. rewrite Hc, decide_True by lia.
    rewrite Forall_lookup in Hsrc. f_equal. apply u8_small. apply (Hsrc i c Hc). }
  destruct (copyin_loop_spec s' root d l Hi (S (length src)) e va (Z.of_nat (length src)) [])
    as (r & bs & E & Hb & Hc); [lia|lia|lia|lia|done|].
  change (Z.of_nat (length [])) with 0 in *. rewrite Z.sub_0_r, Z.add_0_l in *. unfold copyin. rewrite Nat2Z.id, E. apply (f_equal (fun p => Ok p _)).
  destruct Hc as [[-> Hl]|(-> & Hl & Hn)].
  - f_equal. apply (list_eq_same_length _ _ (length src)); [done|lia|].
    intros i x y Hi' Hx Hy. apply Hb in Hx. apply Hrd in Hy. congruence.
  - exfalso. destruct (lookup_lt_is_Some_2 src (length bs)) as [c Hc]; [lia|]. apply Hrd in Hc. congruence.
Qed.

Lemma copyout_copyin_witness :
  exists s root w', copyout root 4 [104; 105; 0] (mkW s []) = Ok 0 w' /\
    copyin root 4 3 w' = Ok (0, [104; 105; 0]) w'.
Proof.
  destruct demo_space as (s & root & d & l & Hinv & Has & Hw & _).
  destruct (copyout_loop_spec root d l 4 [] s 4 [104; 105; 0])
    as (r & s' & k & E & _ & _ & Hk & _ & Hr); [done|done|lia|simpl; lia|].
  destruct Hr as [[-> _]|(_ & Hlt & Hn)].
  - exists s, root, (mkW s' []). split; [exact E|].
    apply (copyout_copyin s root d l [] 4 [104; 105; 0] (mkW s' []) Hinv Has); [lia|simpl; lia|lia| |exact E].
    repeat constructor; done.
  - exfalso. simpl in Hlt. rewrite Hw in Hn by (unfold PGSIZE; lia). discriminate.
Defined.



(** mappages maps a range of unmapped pages.  If it returns 0, every address
    of the range has an entry for the corresponding physical page with the
    permissions given; it returns -1 only when no free page is left.  Entries of
    other addresses, and memory outside the page-table pages, do not change, and
    the page-table pages added come from the free list. *)
Theorem mappages_correct s root d l e va size pa perm :
  vm_inv s root d l -> 0 <= va -> va mod PGSIZE = 0 -> size mod PGSIZE = 0 -> 0 < size ->
  va + size <= MAXVA -> 0 <= pa -> pa mod PGSIZE = 0 -> pa + size <= 2 ^ 56 -> 0 <= perm < 2 ^ 10 ->
  (forall a, va <= a < va + size -> unmapped s d a) ->
  exists r s' d' l', mappages root va size pa perm (mkW s e) = Ok r (mkW s' e) /\
    vm_inv s' root d' l' /\ grown s d l s' d' l' /\
    (forall a, 0 <= a < MAXVA -> ~ (va <= a < va + size) -> leaf s' d' a = leaf s d a) /\
    (r = 0 /\ (forall a, va <= a < va + size -> upa s' d' a = pa + (a - va) /\
        PTE_FLAGS (leaf s' d' a) = Z.lor perm PTE_V) \/
     r = -1 /\ l' = []).
Proof.
  intros Hinv Hva Hal Hsz Hpos Hmax Hpa Hpal Hpm Hperm Hun.
  destruct (mappages_spec e s root d l va size pa perm) as (r & s' & d' & l' & dn & E & Hi & Hg & Hr & _ & Hv);
    [done..|].
  exists r, s', d', l'. split_and!; [done|done|done| |].
  - intros a Ha Hn. rewrite Hv by done. rewrite decide_False; [done|].
    destruct Hr as [[_ ->]|(_ & ? & _)]; lia.
  - destruct Hr as [[-> ->]|(-> & _ & ->)]; [left; split; [done|]|by right].
    intros a Ha. unfold upa. rewrite Hv, decide_True by lia.
    assert (Hpg : page_at va pa a mod PGSIZE = 0 /\ 0 <= page_at va pa a < 2 ^ 56 /\
      page_at va pa a + a mod PGSIZE = pa + (a - va)).
    { unfold page_at. rewrite Z.mod_add by done. pose proof (vpn_split (a - va)).
      assert (Em : a mod PGSIZE = (a - va) mod PGSIZE) by (rewrite Zminus_mod, Hal, Z.sub_0_r, Z.mod_mod; done).
      unfold vpn, PGSIZE in *. rewrite Em. lia. }
    destruct Hpg as (Hpg1 & Hpg2 & Hpg3). rewrite mk_pte_eq.
    rewrite PTE2PA_make, PTE_FLAGS_make by (done || by apply flags_V_range). done.
Qed.

Lemma mappages_correct_witness :
  exists s root d l r s' d' l', vm_inv s root d l /\
    mappages root 8192 4096 0x10000000 6 (mkW s []) = Ok r (mkW s' []) /\ vm_inv s' root d' l'.
Proof.
  destruct demo_space as (s & root & d & l & Hinv & _ & _ & Hun & _).
  destruct (mappages_correct s root d l [] 8192 4096 0x10000000 6 Hinv) as (r & s' & d' & l' & H1 & H2 & _);
    [by vm_compute..| |].
  { intros a Ha. apply Hun. change MAXVA with (2 ^ 38). unfold PGSIZE. lia. }
  exists s, root, d, l, r, s', d', l'. exact (conj Hinv (conj H1 H2)).
Defined.

(** C39: uvmunmap removes exactly the mappings of the given pages and, when asked
    to, puts exactly the pages they mapped back on the free list; it does not
    panic and no other entry or memory changes. *)
Theorem uvmunmap_correct s root d l e va n do_free :
  vm_inv s root d l -> 0 <= va -> va mod PGSIZE = 0 -> va + PGSIZE * Z.of_nat n <= MAXVA ->
  (forall a, va <= a < va + PGSIZE * Z.of_nat n -> is_leaf (leaf s d a)) ->
  (do_free = true -> own_pages s d l (upages s d va n)) ->
  exists s', uvmunmap root va (Z.of_nat n) do_free (mkW s e) = Ok tt (mkW s' e) /\
    vm_inv s' root d (if do_free then rev (upages s d va n) ++ l else l) /\
    (forall a, 0 <= a < MAXVA ->
      leaf s' d a = if decide (va <= a < va + PGSIZE * Z.of_nat n) then 0 else leaf s d a) /\
    (forall b, ~ dir_mem d b -> (do_free = true -> forall p, p ∈ upages s d va n -> ~ in_page p b) ->
      mrd (k_mem s') b = mrd (k_mem s) b).
Proof.
  intros Hinv Hva Hal Hmax Hlf Hown.
  destruct (uvmunmap_spec e s root d l va n do_free) as (s' & E & Hi & _ & H); [done..|].
  exists s'. exact (conj E (conj Hi H)).
Qed.

Lemma uvmunmap_correct_witness :
  exists s root d l s', vm_inv s root d l /\ uvmunmap root 0 1 true (mkW s []) = Ok tt (mkW s' []) /\
    vm_inv s' root d (rev (upages s d 0 1) ++ l).
Proof.
  destruct demo_space as (s & root & d & l & Hinv & _ & _ & _ & Hown & Hlf).
  destruct (uvmunmap_correct s root d l [] 0 1 true Hinv) as (s' & H1 & H2 & _);
    [by vm_compute|by vm_compute|by vm_compute|exact Hlf|intros _; exact Hown|].
  exists s, root, d, l, s'. exact (conj Hinv (conj H1 H2)).
Defined.
