(* ===== verification/Sched.v ===== *)
(** kernel/proc.c, the part that blocks and wakes threads: sched, yield, sleep,
    wakeup, kill, and the helpers the rest of the kernel uses on the current
    process.

    A thread that calls [sched] gives up the CPU.  What the other threads then
    do is the next functions of the thread's environment, applied one after the
    other until one leaves the process RUNNABLE; the scheduler then picks it.
    A thread whose environment never makes it RUNNABLE stays asleep. *)

From S2P Require Import Prelude Riscv Memory State Vm.

(** The registers of the running CPU. *)
Definition SSTATUS_SPP : Z := Z.shiftl 1 8.
Definition SSTATUS_SPIE : Z := Z.shiftl 1 5.
Definition SSTATUS_SIE : Z := Z.shiftl 1 1.

Definition getcsr {A} (f : csrs -> A) : K A := gets (fun s => f (k_csr s)).
Definition setcsr (f : csrs -> csrs) : K unit := modify (fun s => s <| k_csr ::= f |>).

(** riscv.h: the accessors, each one instruction. *)
Definition r_sstatus (c : csrs) : Z := csr_sstatus c.
Definition w_sstatus (x : Z) (c : csrs) : csrs := c <| csr_sstatus := x |>.
Definition r_sepc (c : csrs) : Z := csr_sepc c.
Definition w_sepc (x : Z) (c : csrs) : csrs := c <| csr_sepc := x |>.
Definition r_stvec (c : csrs) : Z := csr_stvec c.
Definition w_stvec (x : Z) (c : csrs) : csrs := c <| csr_stvec := x |>.
Definition r_stimecmp (c : csrs) : Z := csr_stimecmp c.
Definition w_stimecmp (x : Z) (c : csrs) : csrs := c <| csr_stimecmp := x |>.
Definition r_satp (c : csrs) : Z := csr_satp c.
Definition w_satp (x : Z) (c : csrs) : csrs := c <| csr_satp := x |>.
Definition r_tp (c : csrs) : Z := csr_tp c.
Definition w_tp (x : Z) (c : csrs) : csrs := c <| csr_tp := x |>.
Definition r_scause (c : csrs) : Z := csr_scause c.
Definition r_stval (c : csrs) : Z := csr_stval c.
Definition r_time (c : csrs) : Z := csr_time c.
#[global] Arguments r_sstatus c /.
#[global] Arguments r_sepc c /.
#[global] Arguments r_stvec c /.
#[global] Arguments r_stimecmp c /.
#[global] Arguments r_satp c /.
#[global] Arguments r_tp c /.
#[global] Arguments r_scause c /.
#[global] Arguments r_stval c /.
#[global] Arguments r_time c /.
#[global] Arguments w_sstatus x c /.
#[global] Arguments w_sepc x c /.
#[global] Arguments w_stvec x c /.
#[global] Arguments w_stimecmp x c /.
#[global] Arguments w_satp x c /.
#[global] Arguments w_tp x c /.

(** riscv.h: intr_on, intr_off, intr_get *)
Definition intr_on : K unit := setcsr (fun c => w_sstatus (Z.lor (r_sstatus c) SSTATUS_SIE) c).
Definition intr_off : K unit := setcsr (fun c => w_sstatus (Z.land (r_sstatus c) (u64 (Z.lnot SSTATUS_SIE))) c).
Definition intr_get : K bool := x ← getcsr r_sstatus; mret (negb (Z.land x SSTATUS_SIE =? 0)).

(** int cpuid() *)
Definition cpuid : K Z := tp ← getcsr r_tp; mret (i32 tp).

(** struct proc *myproc(void) *)
Definition myproc : K (option nat) := gets k_cur.

(** Reading and updating proc[i]. *)
Definition getp (i : nat) : K proc := ps ← gets k_procs; the (ps !! i).
Definition setp (i : nat) (f : proc -> proc) : K unit :=
  modify (fun s => s <| k_procs ::= alter f i |>).

(** int allocpid() *)
Definition allocpid : K Z :=
  acquire LPid;;
  pid ← gets k_nextpid;
  modify (fun s => s <| k_nextpid := i32 (pid + 1) |>);;
  release LPid;;
  mret pid.

(** The scheduler's choice of process [p] (proc.c, scheduler): it acquires
    p->lock, makes the process RUNNING and current, and switches to it. *)
Definition resume (p : nat) (s : kst) : kst :=
  s <| k_held := [LProc p] |> <| k_cur := Some p |>
    <| k_procs ::= alter (fun pr => pr <| p_state := RUNNING |>) p |>.

(** swtch to the scheduler, which clears c->proc and releases p->lock, and back. *)
Fixpoint switch_env (p : nat) (env : list (kst -> kst)) (s : kst) : outcome unit :=
  match env with
  | [] => Asleep (mkW s [])
  | f :: env' =>
      let s' := f s in
      match k_procs s' !! p with
      | Some pr => if decide (p_state pr = RUNNABLE) then Ok tt (mkW (resume p s') env')
                   else switch_env p env' s'
      | None => UB
      end
  end.
Definition swtch (p : nat) : K unit := fun w =>
  switch_env p (wenv w) (wk w <| k_held := [] |> <| k_cur := None |>).

(** void sched(void); noff is the number of locks the CPU holds, and interrupts
    are off while it holds one. *)
Definition sched : K unit :=
  me ← myproc;
  p ← the me;
  h ← gets (holding (LProc p));
  when (negb h) (panic "sched p->lock");;
  held ← gets k_held;
  when (negb (length held =? 1)%nat) (panic "sched locks");;
  pr ← getp p;
  when (bool_decide (p_state pr = RUNNING)) (panic "sched RUNNING");;
  swtch p.

(** void yield(void) *)
Definition yield : K unit :=
  me ← myproc;
  p ← the me;
  acquire (LProc p);;
  setp p (fun pr => pr <| p_state := RUNNABLE |>);;
  sched;;
  release (LProc p).

(** void sleep(void *chan, struct spinlock *lk) *)
Definition sleep (ch : chan) (lk : lockid) : K unit :=
  me ← myproc;
  p ← the me;
  acquire (LProc p);;
  release lk;;
  setp p (fun pr => pr <| p_chan := Some ch |>);;
  setp p (fun pr => pr <| p_state := SLEEPING |>);;
  sched;;
  setp p (fun pr => pr <| p_chan := None |>);;
  release (LProc p);;
  acquire lk.

(** The process table's indices. *)
Definition procs : list nat := seq 0 (Z.to_nat NPROC).

(** void wakeup(void *chan) *)
Definition wakeup (ch : option chan) : K unit :=
  forK procs (fun i =>
    me ← myproc;
    when (bool_decide (Some i <> me))
      (acquire (LProc i);;
       p ← getp i;
       when (bool_decide (p_state p = SLEEPING) && bool_decide (p_chan p = ch))
         (setp i (fun p => p <| p_state := RUNNABLE |>));;
       release (LProc i))).

(** int kill(int pid) *)
Fixpoint kill_loop (l : list nat) (pid : Z) : K Z :=
  match l with
  | [] => mret (-1)
  | i :: l' =>
      acquire (LProc i);;
      p ← getp i;
      if p_pid p =? pid then
        setp i (fun p => p <| p_killed := 1 |>);;
        when (bool_decide (p_state p = SLEEPING)) (setp i (fun p => p <| p_state := RUNNABLE |>));;
        release (LProc i);;
        mret 0
      else release (LProc i);; kill_loop l' pid
  end.
Definition kill (pid : Z) : K Z := kill_loop procs pid.

(** void setkilled(struct proc *p) *)
Definition setkilled (i : nat) : K unit :=
  acquire (LProc i);;
  setp i (fun p => p <| p_killed := 1 |>);;
  release (LProc i).

(** int killed(struct proc *p) *)
Definition killed (i : nat) : K Z :=
  acquire (LProc i);;
  p ← getp i;
  release (LProc i);;
  mret (p_killed p).

(** Where either_copyout copies to: a user address, or a kernel buffer, whose
    new contents are returned. *)
Inductive dest := DUser (va : Z) | DKern.

(** int either_copyout(int user_dst, uint64 dst, void *src, uint64 len) *)
Definition either_copyout (dst : dest) (src : list Z) : K (Z * list Z) :=
  me ← myproc;
  match dst with
  | DUser va =>
      i ← the me;
      p ← getp i;
      r ← copyout (p_pagetable p) va src;
      mret (r, [])
  | DKern => mret (0, src)
  end.

(** Where either_copyin copies from: a user address, or a kernel buffer. *)
Inductive source := SUser (va : Z) | SKern (bs : list Z).

(** int either_copyin(void *dst, int user_src, uint64 src, uint64 len): the
    result and the bytes stored at [dst] *)
Definition either_copyin (src : source) (len : Z) : K (Z * list Z) :=
  me ← myproc;
  match src with
  | SUser va =>
      i ← the me;
      p ← getp i;
      copyin (p_pagetable p) va len
  | SKern bs => mret (0, take (Z.to_nat len) bs)
  end.

(** * What waking does to the process table *)

Definition wake1 (ch : option chan) (p : proc) : proc :=
  if bool_decide (p_state p = SLEEPING) && bool_decide (p_chan p = ch)
  then p <| p_state := RUNNABLE |> else p.

Definition wake (ch : option chan) (me : option nat) (ps : list proc) : list proc :=
  imap (fun i p => if bool_decide (Some i = me) then p else wake1 ch p) ps.

(** No process lock other than that of [me] is held. *)
Definition plocks_free (s : kst) : Prop :=
  forall i, LProc i ∈ k_held s -> Some i = k_cur s.

Lemma plocks_free_notin s i : plocks_free s -> Some i <> k_cur s -> LProc i ∉ k_held s.
Proof. intros H Hne Hin. by apply Hne, H. Qed.

(** One process of the wakeup loop. *)
Lemma wakeup_one ch i s e p :
  plocks_free s -> k_procs s !! i = Some p ->
  (me ← myproc;
   when (bool_decide (Some i <> me))
     (acquire (LProc i);;
      p ← getp i;
      when (bool_decide (p_state p = SLEEPING) && bool_decide (p_chan p = ch))
        (setp i (fun p => p <| p_state := RUNNABLE |>));;
      release (LProc i))) (mkW s e) =
  Ok tt (mkW (s <| k_procs ::= <[i := if bool_decide (Some i = k_cur s) then p else wake1 ch p]> |>) e).
Proof.
  intros Hf Hp. unfold myproc, getp, setp, wake1. krun. simpl.
  destruct (decide (Some i = k_cur s)) as [E|E].
  - rewrite (bool_decide_eq_true_2 (_ = _)) by done. rewrite bool_decide_eq_false_2 by naive_solver.
    kret. by rewrite list_insert_id.
  - rewrite (bool_decide_eq_false_2 (Some i = k_cur s)) by done. rewrite bool_decide_eq_true_2 by done.
    pose proof (plocks_free_notin s i Hf E) as Hh. cbn [when]. krun. simpl. rewrite Hp. cbn [the]. krun.
    destruct (_ && _); cbn [when]; krun; kret; rewrite ?filter_cons_self by done; try done.
    + by rewrite (alter_insert _ _ _ p).
    + by rewrite list_insert_id.
Qed.

Definition wake_range (ch : option chan) (me : option nat) (k n : nat) (ps : list proc) : list proc :=
  imap (fun i p => if bool_decide (Some i = me \/ ~ (k <= i < k + n)%nat) then p else wake1 ch p) ps.

Lemma wakeup_range ch n : forall k s e,
  plocks_free s -> (k + n <= length (k_procs s))%nat ->
  forK (seq k n) (fun i =>
    me ← myproc;
    when (bool_decide (Some i <> me))
      (acquire (LProc i);;
       p ← getp i;
       when (bool_decide (p_state p = SLEEPING) && bool_decide (p_chan p = ch))
         (setp i (fun p => p <| p_state := RUNNABLE |>));;
       release (LProc i))) (mkW s e) =
  Ok tt (mkW (s <| k_procs ::= wake_range ch (k_cur s) k n |>) e).
Proof.
  induction n as [|n IH]; intros k s e Hf Hlen.
  - cbn [seq forK]. kret. unfold wake_range. apply list_eq. intros i. rewrite list_lookup_imap.
    destruct (k_procs s !! i); simpl; [|done]. by rewrite bool_decide_eq_true_2 by (right; lia).
  - cbn [seq forK]. destruct (lookup_lt_is_Some_2 (k_procs s) k ltac:(lia)) as [p Hp].
    rewrite (bind_ok _ _ _ _ _ (wakeup_one ch k s e p Hf Hp)).
    rewrite IH; [|done|simpl; rewrite length_insert; lia]. kret. unfold wake_range.
    apply list_eq. intros i. rewrite !list_lookup_imap, list_lookup_insert.
    destruct (decide (k = i)) as [<-|Hne].
    + rewrite Hp. simpl. rewrite bool_decide_eq_true_2 by (right; lia).
      rewrite decide_True by (split; [done|by eapply lookup_lt_Some]). f_equal.
      by repeat case_bool_decide; naive_solver lia.
    + rewrite decide_False by naive_solver. destruct (k_procs s !! i); simpl; [|done]. f_equal.
      by repeat case_bool_decide; naive_solver lia.
Qed.

Definition table_ok (s : kst) : Prop := length (k_procs s) = Z.to_nat NPROC.

(** wakeup makes RUNNABLE exactly the other processes asleep on the channel. *)
Lemma wakeup_eq ch s e :
  plocks_free s -> table_ok s ->
  wakeup ch (mkW s e) = Ok tt (mkW (s <| k_procs ::= wake ch (k_cur s) |>) e).
Proof.
  intros Hf Ht. unfold table_ok in Ht. unfold wakeup, procs. rewrite wakeup_range by (done || lia).
  kret. unfold wake_range, wake. apply list_eq. intros i. rewrite !list_lookup_imap.
  destruct (k_procs s !! i) eqn:E; simpl; [|done]. apply lookup_lt_Some in E. f_equal.
  by repeat case_bool_decide; naive_solver lia.
Qed.

(** Going to sleep: the process is SLEEPING on the channel with its condition
    lock released when the other threads run, and has the lock again when it
    goes on. *)
Definition asleep_on (p : nat) (ch : chan) (s : kst) : kst :=
  s <| k_held := [] |> <| k_cur := None |>
    <| k_procs ::= alter (fun pr => pr <| p_chan := Some ch |> <| p_state := SLEEPING |>) p |>.

Definition awake (p : nat) (lk : lockid) (s : kst) : kst :=
  s <| k_held := [lk] |> <| k_procs ::= alter (fun pr => pr <| p_chan := None |>) p |>.

Lemma resume_held p s : k_held (resume p s) = [LProc p].
Proof. done. Qed.

Lemma switch_env_ok p : forall env s a w,
  switch_env p env s = Ok a w -> exists s', wk w = resume p s' /\ (length (wenv w) < length env)%nat.
Proof.
  induction env as [|f env IH]; intros s a w E; simpl in E; [done|].
  destruct (k_procs (f s) !! p) as [pr|]; [|done]. case_decide.
  - injection E as <- <-. exists (f s). simpl. split; [done|lia].
  - apply IH in E as (s' & ? & ?). exists s'. simpl. split; [done|lia].
Qed.

Lemma sched_run p s e pr :
  k_cur s = Some p -> k_held s = [LProc p] -> k_procs s !! p = Some pr -> p_state pr <> RUNNING ->
  sched (mkW s e) = swtch p (mkW s e).
Proof.
  intros Hc Hh Hp Hst. unfold sched, myproc, getp, holding. krun. simpl wk. rewrite Hc. cbn [the]. krun.
  simpl wk. rewrite Hh, bool_decide_eq_true_2 by set_solver. cbn [negb]. krun.
  rewrite Hh. cbn [negb length Nat.eqb]. krun. rewrite Hp. cbn [the]. krun. by rewrite bool_decide_eq_false_2 by done.
Qed.

Lemma sleep_run p ch lk s e pr :
  k_cur s = Some p -> k_held s = [lk] -> lk <> LProc p -> k_procs s !! p = Some pr ->
  sleep ch lk (mkW s e) =
    match switch_env p e (asleep_on p ch s) with
    | Ok _ w => Ok tt (mkW (awake p lk (wk w)) (wenv w))
    | o => o
    end.
Proof.
  intros Hc Hh Hlk Hp. unfold sleep, myproc, setp. krun. cbn [wk wenv]. rewrite Hc. cbn [the].
  assert (Ef : filter (.≠ lk) [LProc p; lk] = [LProc p]).
  { rewrite filter_cons_True by naive_solver. by rewrite filter_cons_False by naive_solver. }
  krun. rewrite bind_acquire by (simpl; rewrite Hh; set_solver).
  rewrite bind_release by (simpl; rewrite Hh; set_solver). krun.
  unfold mbind at 1, K_bind at 1. simpl wk. simpl wenv.
  erewrite (sched_run p); [|done|by simpl; rewrite Hh|simpl; rewrite !list_lookup_alter_eq, Hp; done|done].
  unfold swtch. simpl wk. simpl wenv.
  assert (Es : s <| k_held ::= cons (LProc p) |> <| k_held ::= filter (.≠ lk) |>
      <| k_procs ::= alter (fun pr => pr <| p_chan := Some ch |>) p |>
      <| k_procs ::= alter (fun pr => pr <| p_state := SLEEPING |>) p |>
      <| k_held := [] |> <| k_cur := None |> = asleep_on p ch s).
  { unfold asleep_on. kst_eq. by rewrite alter_alter. }
  rewrite Es. destruct (switch_env p e (asleep_on p ch s)) as [a w| | | | |] eqn:E; try done.
  destruct (switch_env_ok _ _ _ _ _ E) as (s' & Hw & _). destruct w as [w we]. simpl in Hw. subst w.
  krun. rewrite acquire_ok.
  - kret. unfold awake, resume. simpl. by rewrite filter_cons_False by naive_solver.
  - simpl. rewrite filter_cons_False by naive_solver. set_solver.
Qed.

(** What the other threads will still do is the rest of what they were to do. *)
Lemma switch_env_tail p : forall env s a w,
  switch_env p env s = Ok a w -> exists l, env = l ++ wenv w.
Proof.
  induction env as [|f env IH]; intros s a w E; simpl in E; [done|].
  destruct (k_procs (f s) !! p) as [pr|]; [|done]. case_decide.
  - injection E as <- <-. by exists [f].
  - apply IH in E as [l ->]. by exists (f :: l).
Qed.

Lemma sleep_tail p ch lk s e pr a w (P : (kst -> kst) -> Prop) :
  k_cur s = Some p -> k_held s = [lk] -> lk <> LProc p -> k_procs s !! p = Some pr ->
  sleep ch lk (mkW s e) = Ok a w -> Forall P e -> Forall P (wenv w).
Proof.
  intros Hc Hh Hlk Hp E HP. rewrite (sleep_run p _ _ _ _ pr) in E by done.
  destruct (switch_env p e (asleep_on p ch s)) as [b w'| | | | |] eqn:Es; try done. injection E as <- <-.
  apply switch_env_tail in Es as [l ->]. apply Forall_app in HP. apply HP.
Qed.

(** An invariant that the other threads and the scheduler keep holds again when
    the process goes on. *)
Section env.
Context (p : nat) (I : kst -> Prop).
Context (Hproc : forall s, I s -> is_Some (k_procs s !! p)).
Context (Hresume : forall s, I s -> I (resume p s)).

Definition env_keeps (env : list (kst -> kst)) : Prop := Forall (fun f => forall s, I s -> I (f s)) env.

Lemma switch_env_inv : forall env s, env_keeps env -> I s ->
  match switch_env p env s with
  | Ok _ w => I (wk w) /\ k_cur (wk w) = Some p /\ (length (wenv w) < length env)%nat /\ env_keeps (wenv w)
  | Asleep w => I (wk w)
  | _ => False
  end.
Proof using All.
  induction env as [|f env IH]; intros s He Hs; simpl; [done|].
  apply Forall_cons in He as [Hf He]. destruct (Hproc (f s) (Hf s Hs)) as [pr Hpr]. rewrite Hpr. case_decide.
  - simpl. split_and!; [by apply Hresume, Hf|done|lia|done].
  - specialize (IH (f s) He (Hf s Hs)). destruct (switch_env p env (f s)); naive_solver lia.
Qed.

(** Sleeping with the condition lock [lk], the only lock held. *)
Lemma sleep_inv ch lk s env :
  (forall s, I s -> I (asleep_on p ch s)) -> (forall s, I s -> I (awake p lk s)) ->
  env_keeps env -> I s -> k_cur s = Some p -> k_held s = [lk] -> lk <> LProc p ->
  match sleep ch lk (mkW s env) with
  | Ok _ w => I (wk w) /\ k_cur (wk w) = Some p /\ k_held (wk w) = [lk] /\
      (length (wenv w) < length env)%nat /\ env_keeps (wenv w)
  | Asleep w => I (wk w)
  | _ => False
  end.
Proof using All.
  intros Ha Hw He Hs Hc Hh Hlk. destruct (Hproc s Hs) as [pr Hpr]. rewrite (sleep_run p _ _ _ _ pr) by done.
  pose proof (switch_env_inv env (asleep_on p ch s) He (Ha s Hs)) as H.
  destruct (switch_env p env _) as [a w| | | | |]; try done. simpl. naive_solver.
Qed.
End env.

(** * kill *)

Definition kill1 (p : proc) : proc :=
  let p := p <| p_killed := 1 |> in
  if bool_decide (p_state p = SLEEPING) then p <| p_state := RUNNABLE |> else p.

Definition no_plocks (s : kst) : Prop := forall i, LProc i ∉ k_held s.

Lemma kill_loop_spec pid e n : forall k s,
  no_plocks s -> length (k_procs s) = (k + n)%nat ->
  (forall i p, (i < k)%nat -> k_procs s !! i = Some p -> p_pid p <> pid) ->
  (exists i p, k_procs s !! i = Some p /\ p_pid p = pid /\
     (forall j q, (j < i)%nat -> k_procs s !! j = Some q -> p_pid q <> pid) /\
     kill_loop (seq k n) pid (mkW s e) = Ok 0 (mkW (s <| k_procs ::= <[i := kill1 p]> |>) e)) \/
  ((forall i p, k_procs s !! i = Some p -> p_pid p <> pid) /\
     kill_loop (seq k n) pid (mkW s e) = Ok (-1) (mkW s e)).
Proof.
  induction n as [|n IH]; intros k s Hf Hlen Hno; cbn [seq kill_loop].
  { right. split; [|done]. intros i p Hp. apply (Hno i); [|done]. apply lookup_lt_Some in Hp. lia. }
  destruct (lookup_lt_is_Some_2 (k_procs s) k ltac:(lia)) as [p Hp].
  unfold getp, setp. rewrite bind_acquire by apply Hf. krun. simpl k_procs. rewrite Hp. cbn [the]. krun.
  destruct (Z.eqb_spec (p_pid p) pid) as [E|E].
  - left. exists k, p. split_and!; [done|done|done|]. krun. unfold kill1. simpl.
    destruct (bool_decide (p_state p = SLEEPING)); krun; kret; rewrite ?filter_cons_self by apply Hf; try done.
    + rewrite alter_alter. by rewrite (alter_insert _ _ _ p).
    + by rewrite (alter_insert _ _ _ p).
  - krun. pose proof (Hf k) as Hk. simpl. rewrite held_restore by done.
    apply IH; [done|lia|]. intros i q Hi Hq. destruct (decide (i = k)) as [->|]; [congruence|].
    apply (Hno i); [lia|done].
Qed.

(** wakeup makes RUNNABLE exactly the processes other than the caller that
    sleep on the channel, changes nothing else, and keeps the locks the caller
    holds. *)
Theorem wakeup_exact ch s e :
  plocks_free s -> table_ok s ->
  exists s', wakeup ch (mkW s e) = Ok tt (mkW s' e) /\ s' = s <| k_procs := k_procs s' |> /\
    forall i p, k_procs s !! i = Some p ->
      k_procs s' !! i = Some (if bool_decide (Some i <> k_cur s /\ p_state p = SLEEPING /\ p_chan p = ch)
                              then p <| p_state := RUNNABLE |> else p).
Proof.
  intros Hf Ht. eexists. split; [by apply wakeup_eq|]. split; [kst_eq|].
  intros i p Hp. simpl. unfold wake, wake1. rewrite list_lookup_imap, Hp. simpl. f_equal.
  destruct (decide (Some i = k_cur s)) as [E|E].
  - rewrite bool_decide_eq_true_2 by done. by rewrite bool_decide_eq_false_2 by naive_solver.
  - rewrite bool_decide_eq_false_2 by done. repeat case_bool_decide; simpl; naive_solver.
Qed.

Definition demo_procs : list proc :=
  (zero_proc <| p_state := SLEEPING |> <| p_chan := Some ChTicks |> <| p_pid := 7 |>) ::
  replicate 63 (zero_proc <| p_state := RUNNING |>).
Definition demo_sched : kst :=
  bss 0x80022000 0x80008000 0x80007000 demo_syms demo_reg ∅ ∅ <| k_procs := demo_procs |> <| k_cur := Some 1%nat |>.

Lemma wakeup_exact_witness :
  exists s', wakeup (Some ChTicks) (mkW demo_sched []) = Ok tt (mkW s' []) /\
    s' = demo_sched <| k_procs := k_procs s' |> /\
    forall i p, k_procs demo_sched !! i = Some p ->
      k_procs s' !! i = Some (if bool_decide (Some i <> k_cur demo_sched /\ p_state p = SLEEPING /\ p_chan p = Some ChTicks)
                              then p <| p_state := RUNNABLE |> else p).
Proof.
  apply wakeup_exact; [|reflexivity]. intros i Hi. apply elem_of_nil in Hi. destruct Hi.
Defined.

(** kill marks the first process with the given pid as killed, waking it if
    it sleeps, and returns 0; without such a process it returns -1 and changes
    nothing. *)
Theorem kill_exact pid s e :
  no_plocks s -> table_ok s ->
  (exists i p, k_procs s !! i = Some p /\ p_pid p = pid /\
     (forall j q, (j < i)%nat -> k_procs s !! j = Some q -> p_pid q <> pid) /\
     kill pid (mkW s e) = Ok 0 (mkW (s <| k_procs ::= <[i := kill1 p]> |>) e)) \/
  ((forall i p, k_procs s !! i = Some p -> p_pid p <> pid) /\ kill pid (mkW s e) = Ok (-1) (mkW s e)).
Proof. intros Hf Ht. apply (kill_loop_spec pid e (Z.to_nat NPROC) 0 s Hf Ht). lia. Qed.

Lemma kill_exact_witness :
  (exists i p, k_procs demo_sched !! i = Some p /\ p_pid p = 7 /\
     (forall j q, (j < i)%nat -> k_procs demo_sched !! j = Some q -> p_pid q <> 7) /\
     kill 7 (mkW demo_sched []) = Ok 0 (mkW (demo_sched <| k_procs ::= <[i := kill1 p]> |>) [])) \/
  ((forall i p, k_procs demo_sched !! i = Some p -> p_pid p <> 7) /\
   kill 7 (mkW demo_sched []) = Ok (-1) (mkW demo_sched [])).
Proof. apply kill_exact; [|reflexivity]. intros i. apply not_elem_of_nil. Defined.
