(* ===== verification/Uart.v ===== *)
(** kernel/uart.c: the serial line.

    The device answers each read of LSR with the next element of [tx_ready];
    once these are used up the transmitter is idle.  A panicked CPU stops all
    output; a panic ends a run here, so the test of [panicked] never succeeds. *)

From S2P Require Import Prelude Riscv State Sched.

Definition UART_TX_BUF_SIZE : Z := 32.

Definition getu : K uart := gets k_uart.
Definition setu (f : uart -> uart) : K unit := modify (fun s => s <| k_uart ::= f |>).

(** WriteReg(reg, v) for the control registers *)
Definition WriteReg (reg v : Z) : K unit := mmio (UART0 + reg) (u8 v).
Definition IER : Z := 1.
Definition IER_RX_ENABLE : Z := Z.shiftl 1 0.
Definition IER_TX_ENABLE : Z := Z.shiftl 1 1.
Definition FCR : Z := 2.
Definition FCR_FIFO_ENABLE : Z := Z.shiftl 1 0.
Definition FCR_FIFO_CLEAR : Z := Z.shiftl 3 1.
Definition LCR : Z := 3.
Definition LCR_EIGHT_BITS : Z := Z.shiftl 3 0.
Definition LCR_BAUD_LATCH : Z := Z.shiftl 1 7.

(** void uartinit(void) *)
Definition uartinit : K unit :=
  WriteReg IER 0x00;;
  WriteReg LCR LCR_BAUD_LATCH;;
  WriteReg 0 0x03;;
  WriteReg 1 0x00;;
  WriteReg LCR LCR_EIGHT_BITS;;
  WriteReg FCR (Z.lor FCR_FIFO_ENABLE FCR_FIFO_CLEAR);;
  WriteReg IER (Z.lor IER_TX_ENABLE IER_RX_ENABLE).

(** ReadReg(LSR) & LSR_TX_IDLE *)
Definition lsr_tx_idle : K bool :=
  u ← getu;
  match tx_ready u with
  | [] => mret true
  | b :: bs => setu (fun u => u <| tx_ready := bs |>);; mret b
  end.

(** WriteReg(THR, c) *)
Definition write_thr (c : Z) : K unit := setu (fun u => u <| tx_out ::= cons (u8 c) |>).

(** void uartputc_sync(int c); it waits for the device at most as often as the
    device can still answer that it is busy. *)
Fixpoint uart_wait (fuel : nat) : K unit :=
  match fuel with
  | O => diverge
  | S fuel' => idle ← lsr_tx_idle; if idle : bool then mret tt else uart_wait fuel'
  end.
Definition uartputc_sync (c : Z) : K unit :=
  u ← getu;
  uart_wait (S (length (tx_ready u)));;
  write_thr c.

(** void uartstart(); each round takes a character out of the buffer. *)
Fixpoint uartstart_loop (fuel : nat) : K unit :=
  match fuel with
  | O => diverge
  | S fuel' =>
      u ← getu;
      if tx_w u =? tx_r u then mret tt
      else
        idle ← lsr_tx_idle;
        if negb idle then mret tt
        else
          u ← getu;
          c ← the (tx_buf u !! Z.to_nat (tx_r u mod UART_TX_BUF_SIZE));
          setu (fun u => u <| tx_r := u64 (tx_r u + 1) |>);;
          wakeup (Some ChUart);;
          write_thr c;;
          uartstart_loop fuel'
  end.
Definition uartstart : K unit :=
  u ← getu; uartstart_loop (S (Z.to_nat (u64 (tx_w u - tx_r u)))).

(** void uartputc(int c); every round of the loop sleeps. *)
Fixpoint uartputc_wait (fuel : nat) : K unit :=
  match fuel with
  | O => diverge
  | S fuel' =>
      u ← getu;
      if tx_w u =? u64 (tx_r u + UART_TX_BUF_SIZE) then sleep ChUart LUart;; uartputc_wait fuel'
      else mret tt
  end.
Definition uartputc (c : Z) : K unit :=
  acquire LUart;;
  ((fun w => uartputc_wait (S (length (wenv w))) w) : K unit);;
  u ← getu;
  setu (fun u => u <| tx_buf ::= <[Z.to_nat (tx_w u mod UART_TX_BUF_SIZE) := u8 c]> |>);;
  setu (fun u => u <| tx_w := u64 (tx_w u + 1) |>);;
  uartstart;;
  release LUart.

(** int uartgetc(void) *)
Definition uartgetc : K Z :=
  u ← getu;
  match rx_in u with
  | [] => mret (-1)
  | c :: cs => setu (fun u => u <| rx_in := cs |>);; mret c
  end.
