(* ===== verification/Printf.v ===== *)
(** kernel/printf.c: formatted output on the console, and consputc of
    kernel/console.c. *)

From S2P Require Import Prelude Numeral Riscv State Sched Uart.

Definition BACKSPACE : Z := 0x100.

(** void consputc(int c) *)
Definition consputc (c : Z) : K unit :=
  if c =? BACKSPACE then uartputc_sync 8;; uartputc_sync 32;; uartputc_sync 8
  else uartputc_sync c.

Definition digits : list Z := chars "0123456789abcdef".
Definition digit (i : Z) : Z := default 0 (digits !! Z.to_nat i).

(** The do loop of printint: the digits from the last to the first. *)
Definition print_digits (fuel : nat) (x base : Z) : list Z := do_digits digit fuel x base.

(** static void printint(long long xx, int base, int sign): the contents of buf,
    which has room for 20 characters and is printed backwards *)
Definition printint_buf (xx base : Z) (sign : bool) : list Z :=
  let neg := sign && (xx <? 0) in
  let x := if neg then u64 (- xx) else u64 xx in
  print_digits 64 x base ++ (if neg then [45] else []).
Definition printint (xx base : Z) (sign : bool) : K unit :=
  let buf := printint_buf xx base sign in
  when (20 <? Z.of_nat (length buf)) ub;;
  forK (rev buf) consputc.

(** static void printptr(uint64 x) *)
Definition printptr (x : Z) : K unit :=
  consputc 48;;
  consputc 120;;
  forK (seq 0 16) (fun i => consputc (digit (Z.shiftr (u64 (Z.shiftl x (4 * Z.of_nat i))) 60))).

Definition arg_int (ap : list varg) : K (Z * list varg) :=
  match ap with VInt v :: ap' => mret (v, ap') | _ => ub end.
Definition arg_u64 (ap : list varg) : K (Z * list varg) :=
  match ap with VU64 v :: ap' => mret (v, ap') | _ => ub end.

(** The loop of printf over the characters of the format. *)
Fixpoint printf_loop (fuel : nat) (fmt : list Z) (ap : list varg) : K unit :=
  match fuel with
  | O => diverge
  | S fuel' =>
      match fmt with
      | [] => mret tt
      | cx :: rest =>
          if negb (cx =? 37) then consputc cx;; printf_loop fuel' rest ap
          else
            let c0 := hd 0 rest in
            let c1 := if c0 =? 0 then 0 else hd 0 (tl rest) in
            let c2 := if c1 =? 0 then 0 else hd 0 (tl (tl rest)) in
            let r1 := drop 1 rest in
            let r2 := drop 2 rest in
            let r3 := drop 3 rest in
            if c0 =? 100 then '(v, ap) ← arg_int ap; printint v 10 true;; printf_loop fuel' r1 ap
            else if (c0 =? 108) && (c1 =? 100) then
              '(v, ap) ← arg_u64 ap; printint (i64 v) 10 true;; printf_loop fuel' r2 ap
            else if (c0 =? 108) && (c1 =? 108) && (c2 =? 100) then
              '(v, ap) ← arg_u64 ap; printint (i64 v) 10 true;; printf_loop fuel' r3 ap
            else if c0 =? 117 then '(v, ap) ← arg_int ap; printint v 10 false;; printf_loop fuel' r1 ap
            else if (c0 =? 108) && (c1 =? 117) then
              '(v, ap) ← arg_u64 ap; printint (i64 v) 10 false;; printf_loop fuel' r2 ap
            else if (c0 =? 108) && (c1 =? 108) && (c2 =? 117) then
              '(v, ap) ← arg_u64 ap; printint (i64 v) 10 false;; printf_loop fuel' r3 ap
            else if c0 =? 120 then '(v, ap) ← arg_int ap; printint v 16 false;; printf_loop fuel' r1 ap
            else if (c0 =? 108) && (c1 =? 120) then
              '(v, ap) ← arg_u64 ap; printint (i64 v) 16 false;; printf_loop fuel' r2 ap
            else if (c0 =? 108) && (c1 =? 108) && (c2 =? 120) then
              '(v, ap) ← arg_u64 ap; printint (i64 v) 16 false;; printf_loop fuel' r3 ap
            else if c0 =? 112 then '(v, ap) ← arg_u64 ap; printptr v;; printf_loop fuel' r1 ap
            else if c0 =? 115 then
              match ap with
              | VStr s :: ap' => forK (default (chars "(null)") s) consputc;; printf_loop fuel' r1 ap'
              | _ => ub
              end
            else if c0 =? 37 then consputc 37;; printf_loop fuel' r1 ap
            else if c0 =? 0 then mret tt
            else consputc 37;; consputc c0;; printf_loop fuel' r1 ap
      end
  end.

(** int printf(char *fmt, ...) *)
Definition printf (fmt : list Z) (ap : list varg) : K Z :=
  locking ← gets k_pr_locking;
  when (negb (locking =? 0)) (acquire LPr);;
  printf_loop (S (length fmt)) fmt ap;;
  when (negb (locking =? 0)) (release LPr);;
  mret 0.

(** void printfinit(void) *)
Definition printfinit : K unit := modify (fun s => s <| k_pr_locking := 1 |>).

(** void panic(char *s), what it does before it loops; a run that panics ends with
    the outcome [Panic] *)
Definition panic_prints (s : list Z) : K unit :=
  modify (fun k => k <| k_pr_locking := 0 |>);;
  printf (chars "panic: ") [];;
  printf (chars "%s" ++ [10]) [VStr (Some s)];;
  mret tt.

(** Characters to print do not include BACKSPACE's code, so they go to the
    line as they are. *)
Definition print (s : string) : K unit := printf (chars s) [];; mret tt.

(** * Printing on the line *)

(** The device's answers after the first that it is ready. *)
Fixpoint drop_busy (l : list bool) : list bool :=
  match l with [] => [] | true :: l' => l' | false :: l' => drop_busy l' end.

(** The line after a character went out. *)
Definition sent (c : Z) (u : uart) : uart :=
  u <| tx_ready ::= drop_busy |> <| tx_out ::= cons (u8 c) |>.

Lemma uart_wait_ok n : forall w,
  (length (tx_ready (k_uart (wk w))) < n)%nat ->
  uart_wait n w = Ok tt (mkW (wk w <| k_uart ::= (fun u => u <| tx_ready ::= drop_busy |>) |>) (wenv w)).
Proof.
  induction n as [|n IH]; intros [s e] Hn; [lia|]. cbn [uart_wait]. unfold lsr_tx_idle, getu, setu. krun. simpl in *.
  destruct (tx_ready (k_uart s)) as [|b l] eqn:E; [|destruct b]; krun; simpl.
  3: rewrite IH by (simpl in *; lia).
  all: kret; destruct (k_uart s); simpl in *; by subst.
Qed.

Lemma uartputc_sync_ok c w :
  uartputc_sync c w = Ok tt (mkW (wk w <| k_uart ::= sent c |>) (wenv w)).
Proof.
  unfold uartputc_sync, getu. krun. rewrite (bind_ok _ _ _ _ _ (uart_wait_ok (S (length (tx_ready (k_uart (wk w))))) w ltac:(lia))). kret.
Qed.

Lemma consputc_ok c w :
  c <> BACKSPACE -> consputc c w = Ok tt (mkW (wk w <| k_uart ::= sent c |>) (wenv w)).
Proof. intros Hc. unfold consputc. rewrite (proj2 (Z.eqb_neq c BACKSPACE) Hc). apply uartputc_sync_ok. Qed.

Lemma put_all_ok cs : forall w,
  Forall (fun c => c <> BACKSPACE) cs ->
  forK cs consputc w = Ok tt (mkW (wk w <| k_uart ::= (fun u => foldl (fun u c => sent c u) u cs) |>) (wenv w)).
Proof.
  induction cs as [|c cs IH]; intros [s e] H; cbn [forK].
  - kret.
  - inversion_clear H as [|? ? Hc Hcs]. rewrite (bind_ok _ _ _ _ _ (consputc_ok c (mkW s e) Hc)).
    rewrite IH by done. kret.
Qed.

Lemma sent_out cs : forall u, tx_out (foldl (fun u c => sent c u) u cs) = rev (u8 <$> cs) ++ tx_out u.
Proof.
  induction cs as [|c cs IH]; intros u; simpl; [done|]. rewrite IH. simpl. by rewrite <- app_assoc.
Qed.

(** * What printint prints *)

(** Reading a numeral back. *)
Definition digit_val (c : Z) : Z := if c <? 58 then c - 48 else c - 87.
Definition read_digits (base : Z) (cs : list Z) : Z := read_with digit_val base cs.
Definition read_num (base : Z) (cs : list Z) : Z := read_signed digit_val base cs.

Lemma digit_ok i : 0 <= i < 16 -> digit_val (digit i) = i /\ 48 <= digit i < 103.
Proof.
  intros H. assert (forallb (fun n => let i := Z.of_nat n in
    (digit_val (digit i) =? i) && (48 <=? digit i) && (digit i <? 103)) (seq 0 16) = true) as F by reflexivity.
  rewrite forallb_forall in F. specialize (F (Z.to_nat i)). rewrite Z2Nat.id in F by lia.
  rewrite !andb_true_iff, Z.eqb_eq, Z.leb_le, Z.ltb_lt in F. apply and_assoc, F, in_seq. lia.
Qed.

(** The do loop produces the digits of x, at most as many as base^k > x allows. *)
Lemma print_digits_ok base k x fuel :
  2 <= base <= 16 -> 0 <= x < base ^ Z.of_nat (S k) -> (k < fuel)%nat ->
  let cs := print_digits fuel x base in
  read_digits base (rev cs) = x /\ (0 < length cs <= S k)%nat /\ Forall (fun c => 48 <= c < 103) cs.
Proof. intros Hb. apply do_digits_ok; [lia|]. intros i Hi. apply digit_ok. lia. Qed.

Lemma buf_ok xx base sign :
  base = 10 \/ base = 16 -> - 2 ^ 63 <= xx < 2 ^ 63 ->
  let buf := printint_buf xx base sign in
  (length buf <= 20)%nat /\ Forall (fun c => 0 <= c < 103) buf /\
  read_num base (rev buf) = if sign then xx else u64 xx.
Proof.
  intros Hb Hx. unfold printint_buf. cbv zeta.
  destruct (sign && (xx <? 0)) eqn:E.
  - apply andb_true_iff in E as [-> E]. apply Z.ltb_lt in E. rewrite (u64_small (- xx)) by lia.
    destruct (print_digits_ok base 18 (- xx) 64 ltac:(lia)) as (Hr & Hl & Hall); [|lia|].
    { split; [lia|]. apply Z.le_lt_trans with (2 ^ 63); [lia|]. by destruct Hb as [-> | ->]. }
    generalize dependent (print_digits 64 (- xx) base). intros ds Hr Hl Hall.
    rewrite length_app, rev_app_distr. simpl. unfold read_digits in Hr. rewrite Hr. split; [lia|]. split; [|lia].
    apply Forall_app. split; [|by repeat constructor]. eapply Forall_impl; [done|]. simpl. lia.
  - assert (Hs : (if sign then xx else u64 xx) = u64 xx).
    { destruct sign; [|done]. simpl in E. apply Z.ltb_ge in E. symmetry. apply u64_small. lia. }
    rewrite Hs, app_nil_r. pose proof (u64_range xx) as Hu.
    destruct (print_digits_ok base 19 (u64 xx) 64 ltac:(lia)) as (Hr & Hl & Hall); [|lia|].
    { split; [lia|]. apply Z.lt_trans with (2 ^ 64); [lia|]. by destruct Hb as [-> | ->]. }
    generalize dependent (print_digits 64 (u64 xx) base). intros ds Hr Hl Hall.
    split; [lia|]. split; [eapply Forall_impl; [done|]; simpl; lia|].
    rewrite <- Hr. unfold read_num. by rewrite (read_signed_digits _ _ 103) by done.
Qed.

(** printint writes to the serial line, and changes nothing else, a numeral
    of at most 20 characters, so within its buffer, that reads back as the
    number it was given: with its sign if asked to, else as an unsigned 64-bit
    value. *)
Theorem printint_numeral xx base sign w :
  base = 10 \/ base = 16 -> - 2 ^ 63 <= xx < 2 ^ 63 ->
  exists cs u, printint xx base sign w = Ok tt (mkW (wk w <| k_uart := u |>) (wenv w)) /\
    tx_out u = rev cs ++ tx_out (k_uart (wk w)) /\
    (length cs <= 20)%nat /\
    read_num base cs = if sign then xx else u64 xx.
Proof.
  intros Hb Hx. destruct (buf_ok xx base sign Hb Hx) as (Hlen & Hall & Hrd).
  set (buf := printint_buf xx base sign) in *.
  exists (rev buf), (foldl (fun u c => sent c u) (k_uart (wk w)) (rev buf)).
  assert (Hu : u8 <$> rev buf = rev buf).
  { rewrite <- (list_fmap_id (rev buf)) at 2. apply list_fmap_ext. intros i c Hc.
    apply (u8_small c). apply list_elem_of_lookup_2, list_elem_of_In, in_rev, list_elem_of_In in Hc.
    rewrite Forall_forall in Hall. apply Hall in Hc. simpl in Hc. lia. }
  split; [|split; [by rewrite sent_out, Hu|split; [by rewrite length_rev|done]]].
  unfold printint. fold buf. clearbody buf. rewrite (proj2 (Z.ltb_ge 20 (Z.of_nat (length buf)))) by lia.
  rewrite bind_when_false, put_all_ok; [kret|].
  apply Forall_forall. intros c Hc. apply list_elem_of_In, in_rev, list_elem_of_In in Hc.
  rewrite Forall_forall in Hall. apply Hall in Hc. simpl in Hc. unfold BACKSPACE. lia.
Qed.

Definition demo_uart : world := mkW (bss 0x80022000 0x80008000 0x80007000 demo_syms demo_reg ∅ ∅) [].

Lemma printint_numeral_witness :
  exists cs u, printint (- 2 ^ 63) 10 true demo_uart = Ok tt (mkW (wk demo_uart <| k_uart := u |>) (wenv demo_uart)) /\
    tx_out u = rev cs /\ (length cs <= 20)%nat /\ read_num 10 cs = - 2 ^ 63.
Proof.
  destruct (printint_numeral (- 2 ^ 63) 10 true demo_uart) as (cs & u & E & Ho & Hl & Hr); [by left|lia|].
  exists cs, u. rewrite app_nil_r in Ho. exact (conj E (conj Ho (conj Hl Hr))).
Defined.

(** printf passes the int of a %u or %x to printint as a long long, which extends
    its sign: an int with the top bit set prints as a 64-bit number, where C's
    printf prints a 32-bit one. *)
Lemma printf_unsigned_int :
  exists w, printf (chars "%u") [VInt (i32 0xffffffff)] demo_uart = Ok 0 w /\
    rev (tx_out (k_uart (wk w))) = chars "18446744073709551615".
Proof. eexists. split; vm_compute; reflexivity. Qed.

(** A format without conversions. *)
Lemma printf_plain cs ap : forall fuel w,
  Forall (fun c => c <> 37 /\ c <> BACKSPACE) cs -> (length cs < fuel)%nat ->
  printf_loop fuel cs ap w = Ok tt (mkW (wk w <| k_uart ::= (fun u => foldl (fun u c => sent c u) u cs) |>) (wenv w)).
Proof.
  induction cs as [|c cs IH]; intros [|fuel] [s e] H Hf; try (simpl in Hf; lia); cbn [printf_loop]; [kret|].
  apply Forall_cons in H as [[Hc Hb] H]. rewrite (proj2 (Z.eqb_neq c 37)) by done. cbn [negb].
  rewrite (bind_ok _ _ _ _ _ (consputc_ok c (mkW s e) Hb)), IH by (done || (simpl in Hf; lia)). kret.
Qed.

(** The message of a panic reaches the line whatever locks the CPU holds: panic turns
    locking off, so that printf does not acquire its lock. *)
Lemma panic_prints_ok s w : Forall (fun c => c <> BACKSPACE) s ->
  panic_prints s w =
    Ok tt (mkW (wk w <| k_pr_locking := 0 |>
      <| k_uart ::= (fun u => foldl (fun u c => sent c u) u (chars "panic: " ++ s ++ [10])) |>) (wenv w)).
Proof.
  intros Hs. destruct w as [k e]. unfold panic_prints, printf. krun. cbn [wk wenv k_pr_locking Z.eqb negb when]. krun.
  erewrite bind_ok; [|apply printf_plain; [by repeat constructor|simpl; lia]]. krun.
  cbn [wk wenv k_pr_locking Z.eqb negb when]. krun.
  change (printf_loop _ (chars "%s" ++ [10]) [VStr (Some s)]) with (forK s consputc;; printf_loop 3 [10] []).
  erewrite bind_ok; [|erewrite bind_ok; [|by apply put_all_ok]; apply printf_plain; [by repeat constructor|simpl; lia]].
  krun. unfold mret, K_ret. do 2 f_equal. unfold fset, set_k_uart. cbn -[foldl sent chars app]. by rewrite !foldl_app.
Qed.

(** * Code that only prints *)

Definition prints (m : K unit) (w : world) : Prop :=
  exists u, m w = Ok tt (mkW (wk w <| k_uart := u |>) (wenv w)).

Lemma prints_ret w : prints (mret tt) w.
Proof. exists (k_uart (wk w)). destruct w. cbv [mret K_ret]. do 2 f_equal. kst_eq. Qed.

Lemma prints_bind (m m' : K unit) w :
  prints m w -> (forall u, prints m' (mkW (wk w <| k_uart := u |>) (wenv w))) -> prints (m;; m') w.
Proof.
  intros [u E] H. destruct (H u) as [u' E']. exists u'. by rewrite (bind_ok _ _ _ _ _ E), E'.
Qed.

Lemma prints_putc c w : prints (consputc c) w.
Proof.
  unfold consputc. assert (Hs : forall c w, prints (uartputc_sync c) w).
  { intros c' w'. eexists. by rewrite uartputc_sync_ok. }
  destruct (c =? BACKSPACE); [|apply Hs]. apply prints_bind; [apply Hs|intros u].
  apply prints_bind; [apply Hs|intros u']. apply Hs.
Qed.

Lemma prints_forK {A} (l : list A) (f : A -> K unit) : forall w,
  (forall x w', x ∈ l -> prints (f x) w') -> prints (forK l f) w.
Proof.
  induction l as [|x l IH]; intros w H; cbn [forK]; [apply prints_ret|].
  apply prints_bind; [apply H; left|]. intros u. apply IH. intros y w' Hy. apply H. by right.
Qed.

Lemma prints_int xx base sign w : base = 10 \/ base = 16 -> - 2 ^ 63 <= xx < 2 ^ 63 -> prints (printint xx base sign) w.
Proof.
  intros Hb Hx. destruct (buf_ok xx base sign Hb Hx) as (Hlen & _). unfold printint.
  rewrite (proj2 (Z.ltb_ge 20 (Z.of_nat (length (printint_buf xx base sign))))) by lia.
  apply prints_bind; [apply prints_ret|]. intros u. apply prints_forK. intros c w' _. apply prints_putc.
Qed.

(** printf prints and leaves the lock context as it was, if its loop prints. *)
Lemma prints_printf fmt ap w :
  LPr ∉ k_held (wk w) -> (forall w', prints (printf_loop (S (length fmt)) fmt ap) w') ->
  exists u, printf fmt ap w = Ok 0 (mkW (wk w <| k_uart := u |>) (wenv w)).
Proof.
  intros Hh H. unfold printf. rewrite bind_gets. destruct (negb _).
  - rewrite bind_when_true, bind_acquire by done.
    destruct (H (mkW (wk w <| k_held ::= cons LPr |>) (wenv w))) as [u E]. exists u.
    rewrite (bind_ok _ _ _ _ _ E). rewrite bind_when_true, bind_release by (simpl; set_solver).
    kret. by rewrite filter_cons_self.
  - rewrite bind_when_false. destruct (H w) as [u E]. exists u. rewrite (bind_ok _ _ _ _ _ E).
    by rewrite bind_when_false.
Qed.
