(* ===== verification/UartSpec.v ===== *)
(** The serial line's output: characters leave in the order they were given to
    uartputc. *)

From S2P Require Import Prelude Ring Riscv State Sched Uart.

(** What was sent, followed by what waits in the buffer. *)
Definition tx_n (u : uart) : Z := dist 64 (tx_r u) (tx_w u).
Definition queue (u : uart) : list Z := ring UART_TX_BUF_SIZE (tx_buf u) (tx_r u) (Z.to_nat (tx_n u)).
Definition stream (u : uart) : list Z := rev (tx_out u) ++ queue u.

Record uart_ok (u : uart) : Prop := {
  uo_len : length (tx_buf u) = Z.to_nat UART_TX_BUF_SIZE;
  uo_r : 0 <= tx_r u < 2 ^ 64;
  uo_w : 0 <= tx_w u < 2 ^ 64;
  uo_n : tx_n u <= UART_TX_BUF_SIZE;
  uo_bytes : Forall (fun c => 0 <= c < 256) (tx_buf u);
}.

Lemma tx_n_nonneg u : 0 <= tx_n u.
Proof. by apply dist_range. Qed.

Lemma tx_divides : (UART_TX_BUF_SIZE | 2 ^ 64).
Proof. by exists (2 ^ 59). Qed.

Lemma tx_empty u : uart_ok u -> (tx_w u =? tx_r u) = bool_decide (tx_n u = 0).
Proof.
  intros [_ Hr Hw _ _]. pose proof (dist_zero 64 ltac:(lia) _ _ Hr Hw) as Hz. fold (tx_n u) in Hz.
  destruct (Z.eqb_spec (tx_w u) (tx_r u)) as [E|E]; case_bool_decide as Hd; try done.
  - exfalso. by apply Hd, Hz.
  - exfalso. apply E. symmetry. by apply Hz.
Qed.

Lemma tx_full u : uart_ok u -> (tx_w u =? u64 (tx_r u + UART_TX_BUF_SIZE)) = bool_decide (tx_n u = UART_TX_BUF_SIZE).
Proof.
  intros [_ _ Hw _ _]. pose proof (dist_eq 64 ltac:(lia) (tx_r u) _ UART_TX_BUF_SIZE Hw ltac:(done)) as He.
  fold (tx_n u) in He. unfold u64.
  destruct (Z.eqb_spec (tx_w u) ((tx_r u + UART_TX_BUF_SIZE) mod 2 ^ 64)) as [E|E]; case_bool_decide as Hd; try done.
  - exfalso. by apply Hd, He.
  - exfalso. by apply E, He.
Qed.

(** A character in, a character out. *)
Definition tx_put (c : Z) (u : uart) : uart :=
  u <| tx_buf ::= <[Z.to_nat (tx_w u mod UART_TX_BUF_SIZE) := u8 c]> |> <| tx_w := u64 (tx_w u + 1) |>.
Definition tx_send (ready : list bool) (c : Z) (u : uart) : uart :=
  u <| tx_ready := ready |> <| tx_r := u64 (tx_r u + 1) |> <| tx_out ::= cons (u8 c) |>.

Lemma tx_put_ok c u : uart_ok u -> tx_n u < UART_TX_BUF_SIZE -> uart_ok (tx_put c u) /\ stream (tx_put c u) = stream u ++ [u8 c].
Proof.
  intros H Hlt. pose proof (tx_n_nonneg u). assert (HS : UART_TX_BUF_SIZE = 32) by done.
  assert (En : tx_n (tx_put c u) = tx_n u + 1).
  { apply (dist_hi 64 ltac:(lia) (tx_r u) (tx_w u) 1). fold (tx_n u). lia. }
  split.
  - split; simpl; [by rewrite length_insert; apply H|apply H|apply u64_range|lia|].
    apply Forall_insert; [apply H|apply u8_range].
  - unfold stream, queue. rewrite En. simpl. rewrite <- app_assoc. f_equal.
    replace (Z.to_nat (tx_n u + 1)) with (S (Z.to_nat (tx_n u))) by lia.
    replace (Z.to_nat (tx_w u mod UART_TX_BUF_SIZE)) with (slot UART_TX_BUF_SIZE (tx_r u + Z.of_nat (Z.to_nat (tx_n u)))).
    + apply ring_snoc; [done|apply H|lia].
    + rewrite Z2Nat.id by done. unfold slot. f_equal. symmetry. by apply (dist_mod 64), tx_divides.
Qed.

Lemma tx_send_ok u l : uart_ok u -> 0 < tx_n u ->
  exists c, tx_buf u !! Z.to_nat (tx_r u mod UART_TX_BUF_SIZE) = Some c /\
    uart_ok (tx_send l c u) /\ stream (tx_send l c u) = stream u /\ tx_n (tx_send l c u) = tx_n u - 1.
Proof.
  intros H Hn. pose proof (dist_range 64 ltac:(lia) (tx_r u) (tx_w u)) as Hd. fold (tx_n u) in Hd.
  destruct (lookup_lt_is_Some_2 (tx_buf u) (slot UART_TX_BUF_SIZE (tx_r u))) as [c Hc].
  { rewrite (uo_len u H). by apply slot_lt. }
  assert (En : tx_n (tx_send l c u) = tx_n u - 1).
  { apply (dist_lo 64 ltac:(lia) (tx_r u) (tx_w u) 1). fold (tx_n u). lia. }
  exists c. split_and!; [done| | |done].
  - split; simpl; [apply H|apply u64_range|apply H|pose proof (uo_n u H); lia|apply H].
  - unfold stream, queue. rewrite En. simpl. rewrite <- app_assoc. f_equal.
    replace (Z.to_nat (tx_n u)) with (S (Z.to_nat (tx_n u - 1))) by lia. rewrite ring_cons, Hc. simpl. f_equal.
    + apply u8_small. pose proof (uo_bytes u H) as Hb. rewrite Forall_lookup in Hb. by apply (Hb _ _ Hc).
    + apply ring_congr; [done|]. simpl. apply slot_wrap; [done|apply tx_divides|lia].
Qed.

(** * Starting transmission *)

(** The state up to the line and who is awake. *)
Definition after_tx (s s' : kst) : Prop :=
  s' = s <| k_uart := k_uart s' |> <| k_procs := k_procs s' |> /\ table_ok s' /\
  forall i p, k_procs s !! i = Some p ->
    exists p', k_procs s' !! i = Some p' /\ (p' = p \/ p' = p <| p_state := RUNNABLE |>).

Lemma after_tx_refl s u : table_ok s -> after_tx s (s <| k_uart := u |>).
Proof. intros Ht. split_and!; [kst_eq|done|]. intros i p Hp. exists p. by split; [|left]. Qed.

Lemma after_tx_trans s1 s2 s3 : after_tx s1 s2 -> after_tx s2 s3 -> after_tx s1 s3.
Proof.
  intros (E1 & T1 & P1) (E2 & T2 & P2). split_and!; [|done|].
  - rewrite E2, E1. kst_eq.
  - intros i p Hp. destruct (P1 i p Hp) as (p' & Hp' & H1). destruct (P2 i p' Hp') as (p'' & Hp'' & H2).
    exists p''. split; [done|]. destruct H1 as [-> | ->], H2 as [-> | ->]; auto.
Qed.

Lemma after_tx_wake s ch u : table_ok s -> after_tx s (s <| k_uart := u |> <| k_procs ::= wake ch (k_cur s) |>).
Proof.
  intros Ht. split_and!; [kst_eq|unfold table_ok, wake; simpl; by rewrite length_imap|].
  intros i p Hp. simpl. unfold wake. rewrite list_lookup_imap, Hp. simpl. eexists. split; [done|].
  case_bool_decide; [by left|]. unfold wake1. destruct (_ && _); auto.
Qed.

Lemma lsr_run s e :
  lsr_tx_idle (mkW s e) =
    Ok (hd true (tx_ready (k_uart s))) (mkW (s <| k_uart ::= (fun u => u <| tx_ready := tl (tx_ready (k_uart s)) |>) |>) e).
Proof.
  unfold lsr_tx_idle, getu, setu. rewrite bind_gets. cbn [wk]. destruct (tx_ready (k_uart s)) as [|b l] eqn:E; [|reflexivity].
  kret. destruct (k_uart s). simpl in *. by subst.
Qed.

Lemma uartstart_run n : forall s e,
  uart_ok (k_uart s) -> plocks_free s -> table_ok s -> (Z.to_nat (tx_n (k_uart s)) < n)%nat ->
  exists s', uartstart_loop n (mkW s e) = Ok tt (mkW s' e) /\ after_tx s s' /\
    uart_ok (k_uart s') /\ stream (k_uart s') = stream (k_uart s).
Proof.
  induction n as [|n IH]; intros s e Hok Hpf Ht Hn; [lia|]. pose proof (tx_n_nonneg (k_uart s)).
  cbn [uartstart_loop]. unfold getu, write_thr, setu. rewrite bind_gets. cbn [wk wenv].
  rewrite tx_empty by done. case_bool_decide as Hz.
  { exists s. split_and!; [done| |done|done]. replace s with (s <| k_uart := k_uart s |>) at 2 by kst_eq. by apply after_tx_refl. }
  rewrite (bind_ok _ _ _ _ _ (lsr_run s e)). set (l := tl _). destruct (hd true _); cbn [negb].
  2: { eexists. split_and!; [done|by apply after_tx_refl| |done]. destruct Hok. by split. }
  destruct (tx_send_ok (k_uart s) l Hok ltac:(lia)) as (c & Hc & Hok' & Hst & En).
  rewrite bind_gets. cbn [wk wenv]. rewrite (bind_the _ _ _ c) by done. rewrite bind_modify. cbn [wk wenv].
  match goal with |- context [(wakeup _ ≫= _) (mkW ?t _)] =>
    rewrite (bind_ok _ _ _ _ _ (wakeup_eq (Some ChUart) t e Hpf Ht)) end. rewrite bind_modify. cbn [wk wenv].
  set (s1 := s <| k_uart := tx_send l c (k_uart s) |> <| k_procs ::= wake (Some ChUart) (k_cur s) |>).
  assert (Ha1 : after_tx s s1) by (by apply after_tx_wake).
  destruct (IH s1 e Hok' Hpf (proj1 (proj2 Ha1))) as (s' & E' & Ha & Hok2 & Hst2).
  { simpl. rewrite En. lia. }
  exists s'. split_and!; [|by eapply after_tx_trans|done|by rewrite Hst2]. rewrite <- E'. reflexivity.
Qed.

(** * Giving a character to the line *)

(** The characters [S0] went in first. *)
Definition line_has (p : nat) (S0 : list Z) (s : kst) : Prop :=
  uart_ok (k_uart s) /\ S0 `prefix_of` stream (k_uart s) /\ table_ok s /\ is_Some (k_procs s !! p).

(** Something other threads may do: put characters in the buffer or send them. *)
Definition appends (p : nat) (f : kst -> kst) : Prop := forall S0 s, line_has p S0 s -> line_has p S0 (f s).

Lemma line_has_sched p S0 s h c (f : proc -> proc) :
  line_has p S0 s -> line_has p S0 (s <| k_held := h |> <| k_cur := c |> <| k_procs ::= alter f p |>).
Proof.
  intros (H1 & H2 & H3 & H4). split_and!; [done|done| |].
  - unfold table_ok. simpl. by rewrite length_alter.
  - simpl. rewrite list_lookup_alter_eq. by apply fmap_is_Some.
Qed.

Lemma uartputc_wait_run p S0 n : forall s env,
  line_has p S0 s -> k_cur s = Some p -> k_held s = [LUart] -> Forall (appends p) env -> (length env < n)%nat ->
  match uartputc_wait n (mkW s env) with
  | Ok _ w => line_has p S0 (wk w) /\ k_held (wk w) = [LUart] /\ tx_n (k_uart (wk w)) < UART_TX_BUF_SIZE
  | Asleep _ => True
  | _ => False
  end.
Proof.
  induction n as [|n IH]; intros s env H Hc Hh He Hn; [lia|]. cbn [uartputc_wait]. unfold getu. rewrite bind_gets. cbn [wk].
  rewrite tx_full by apply H. case_bool_decide as Hf.
  2: { split_and!; [done|done|]. pose proof (uo_n _ (proj1 H)). simpl. lia. }
  pose proof (sleep_inv p (line_has p S0) ltac:(intros x Hx; apply Hx) ltac:(intros x Hx; by apply line_has_sched)
    ChUart LUart s env ltac:(intros x Hx; by apply line_has_sched)
    ltac:(intros x Hx; by apply (line_has_sched p S0 x [LUart] (k_cur x)))) as Hsl.
  specialize (Hsl ltac:(eapply Forall_impl; [exact He|]; intros f Hf'; by apply Hf') H Hc Hh ltac:(done)).
  destruct (proj2 (proj2 (proj2 H))) as [pr Hpr]. pose proof (sleep_tail p ChUart LUart s env pr) as Htail.
  unfold mbind, K_bind. destruct (sleep ChUart LUart (mkW s env)) as [[] [s2 e2]| | | | |] eqn:E; try done.
  destruct Hsl as (H2 & Hc2 & Hh2 & Hl & _). cbn [wk wenv] in *. apply IH; [done|done|done| |lia].
  by apply (Htail tt (mkW s2 e2) (appends p)).
Qed.

(** The rest of uartputc, with the lock held and room in the buffer. *)
Lemma uartputc_rest c s e :
  uart_ok (k_uart s) -> table_ok s -> k_held s = [LUart] -> tx_n (k_uart s) < UART_TX_BUF_SIZE ->
  exists s', (u ← getu;
    setu (fun u => u <| tx_buf ::= <[Z.to_nat (tx_w u mod UART_TX_BUF_SIZE) := u8 c]> |>);;
    setu (fun u => u <| tx_w := u64 (tx_w u + 1) |>);;
    uartstart;;
    release LUart) (mkW s e) = Ok tt (mkW (s' <| k_held := [] |>) e) /\ after_tx s s' /\
    uart_ok (k_uart s') /\ stream (k_uart s') = stream (k_uart s) ++ [u8 c].
Proof.
  intros Hok Ht Hh Hn. destruct (tx_put_ok c (k_uart s) Hok Hn) as [Hok1 Hst1].
  pose (s1 := s <| k_uart := tx_put c (k_uart s) |>).
  assert (Hpf1 : plocks_free s1) by (intros i Hi; simpl in Hi; rewrite Hh in Hi; set_solver).
  destruct (uartstart_run (S (Z.to_nat (tx_n (k_uart s1)))) s1 e Hok1 Hpf1 Ht ltac:(lia)) as (s' & E & Ha & Hok' & Hst').
  assert (Ha0 : after_tx s s') by (eapply after_tx_trans; [by apply (after_tx_refl s (tx_put c (k_uart s)))|done]).
  exists s'. split_and!; [|done|done|by rewrite Hst'].
  unfold getu, setu, uartstart, getu. krun. cbn [wk wenv].
  change (s <| k_uart ::= _ |> <| k_uart ::= _ |>) with s1.
  change (u64 (tx_w (k_uart s1) - tx_r (k_uart s1))) with (tx_n (k_uart s1)). rewrite (bind_ok _ _ _ _ _ E).
  assert (Hh' : k_held s' = [LUart]) by (rewrite (proj1 Ha0); simpl; done).
  rewrite release_ok by (simpl; rewrite Hh'; set_solver). kret. rewrite Hh'. by rewrite filter_cons_False by naive_solver.
Qed.


