(* ===== verification/Sleeplock.v ===== *)
(** kernel/sleeplock.c: locks a thread holds while it sleeps. *)

From S2P Require Import Prelude State Sched.

(** The sleeplocks are those of the buffers and of the in-memory inodes. *)
Definition get_sl (l : slid) : K sleeplock :=
  match l with
  | SBuf i => bs ← gets k_bufs; b ← the (bs !! i); mret (b_lock b)
  | SInode i => ips ← gets k_itable; ip ← the (ips !! i); mret (i_lock ip)
  end.
Definition set_sl (l : slid) (f : sleeplock -> sleeplock) : K unit :=
  match l with
  | SBuf i => modify (fun s => s <| k_bufs ::= alter (fun b => b <| b_lock ::= f |>) i |>)
  | SInode i => modify (fun s => s <| k_itable ::= alter (fun ip => ip <| i_lock ::= f |>) i |>)
  end.

(** The pid of the running process. *)
Definition mypid : K Z := me ← myproc; i ← the me; p ← getp i; mret (p_pid p).

(** void initsleeplock(struct sleeplock *lk, char *name) *)
Definition initsleeplock (l : slid) : K unit :=
  set_sl l (fun lk => lk <| sl_locked := 0 |>);;
  set_sl l (fun lk => lk <| sl_pid := 0 |>).

(** void acquiresleep(struct sleeplock *lk); each round of the loop sleeps, so
    there are at most as many as the environment has steps. *)
Fixpoint acquiresleep_loop (fuel : nat) (l : slid) : K unit :=
  match fuel with
  | O => diverge
  | S fuel' =>
      lk ← get_sl l;
      if negb (sl_locked lk =? 0) then sleep (ChSleep l) (LSleep l);; acquiresleep_loop fuel' l
      else mret tt
  end.
Definition acquiresleep (l : slid) : K unit :=
  acquire (LSleep l);;
  (fun w => acquiresleep_loop (S (length (wenv w))) l w);;
  set_sl l (fun lk => lk <| sl_locked := 1 |>);;
  pid ← mypid;
  set_sl l (fun lk => lk <| sl_pid := pid |>);;
  release (LSleep l).

(** void releasesleep(struct sleeplock *lk) *)
Definition releasesleep (l : slid) : K unit :=
  acquire (LSleep l);;
  set_sl l (fun lk => lk <| sl_locked := 0 |>);;
  set_sl l (fun lk => lk <| sl_pid := 0 |>);;
  wakeup (Some (ChSleep l));;
  release (LSleep l).

(** int holdingsleep(struct sleeplock *lk) *)
Definition holdingsleep (l : slid) : K bool :=
  acquire (LSleep l);;
  lk ← get_sl l;
  pid ← mypid;
  release (LSleep l);;
  mret (negb (sl_locked lk =? 0) && (sl_pid lk =? pid)).

(** * Specification *)

Definition sl_at (l : slid) (s : kst) : option sleeplock :=
  match l with
  | SBuf i => b_lock <$> k_bufs s !! i
  | SInode i => i_lock <$> k_itable s !! i
  end.

Definition sl_upd (l : slid) (v : sleeplock) (s : kst) : kst :=
  match l with
  | SBuf i => s <| k_bufs ::= alter (fun b => b <| b_lock := v |>) i |>
  | SInode i => s <| k_itable ::= alter (fun ip => ip <| i_lock := v |>) i |>
  end.

Definition pid_of (s : kst) : option Z := p ← k_cur s; p_pid <$> k_procs s !! p.

Lemma get_sl_ok l s e lk : sl_at l s = Some lk -> get_sl l (mkW s e) = Ok lk (mkW s e).
Proof.
  destruct l as [i|i]; simpl; intros H; krun; simpl; destruct (_ !! i); simplify_eq/=; by krun.
Qed.

Lemma mypid_ok s e pid : pid_of s = Some pid -> mypid (mkW s e) = Ok pid (mkW s e).
Proof.
  unfold pid_of, mypid, myproc, getp. intros H. krun.
  destruct (k_cur s) as [p|]; simpl in H; [|done]. cbn [the]. krun.
  destruct (k_procs s !! p); simplify_eq/=. cbn [the]. by krun.
Qed.

Lemma set_sl_upd l f s e lk :
  sl_at l s = Some lk -> set_sl l f (mkW s e) = Ok tt (mkW (sl_upd l (f lk) s) e).
Proof.
  destruct l as [i|i]; simpl; intros H; unfold modify; simpl; do 2 f_equal; kst_eq.
  - destruct (k_bufs s !! i) eqn:E; simplify_eq/=. by rewrite !(alter_insert _ _ _ _ E).
  - destruct (k_itable s !! i) eqn:E; simplify_eq/=. by rewrite !(alter_insert _ _ _ _ E).
Qed.

Lemma sl_upd_at l v s lk : sl_at l s = Some lk -> sl_at l (sl_upd l v s) = Some v.
Proof.
  destruct l as [i|i]; simpl; intros H; rewrite list_lookup_alter_eq.
  - destruct (k_bufs s !! i) eqn:E; by simplify_eq/=.
  - destruct (k_itable s !! i) eqn:E; by simplify_eq/=.
Qed.

Lemma sl_upd_upd l v v' s : sl_upd l v' (sl_upd l v s) = sl_upd l v' s.
Proof. destruct l as [i|i]; kst_eq; by rewrite alter_alter. Qed.

Lemma sl_upd_held l v s : k_held (sl_upd l v s) = k_held s.
Proof. by destruct l. Qed.
Lemma sl_upd_cur l v s : k_cur (sl_upd l v s) = k_cur s.
Proof. by destruct l. Qed.
Lemma sl_upd_procs l v s : k_procs (sl_upd l v s) = k_procs s.
Proof. by destruct l. Qed.

Lemma sl_upd_held_comm l v g s : sl_upd l v s <| k_held ::= g |> = sl_upd l v (s <| k_held ::= g |>).
Proof. destruct l; kst_eq. Qed.

Lemma mypid_upd l v s e pid :
  pid_of s = Some pid -> mypid (mkW (sl_upd l v s) e) = Ok pid (mkW (sl_upd l v s) e).
Proof. intros H. apply mypid_ok. unfold pid_of. by rewrite sl_upd_cur, sl_upd_procs. Qed.

(** Taking a lock nobody holds. *)
Lemma acquiresleep_free l s e lk pid :
  LSleep l ∉ k_held s -> sl_at l s = Some lk -> sl_locked lk = 0 -> pid_of s = Some pid ->
  acquiresleep l (mkW s e) = Ok tt (mkW (sl_upd l (mkSleeplock 1 pid) s) e).
Proof.
  intros Hh Hl Hz Hpid. unfold acquiresleep. rewrite bind_acquire by done. simpl wk. simpl wenv.
  set (s1 := s <| k_held ::= cons (LSleep l) |>).
  assert (Hl1 : sl_at l s1 = Some lk) by (by destruct l).
  rewrite (bind_ok _ _ _ tt (mkW s1 e)).
  2: { cbn [acquiresleep_loop]. rewrite (bind_ok _ _ _ _ _ (get_sl_ok l s1 e lk Hl1)), Hz. done. }
  rewrite (bind_ok _ _ _ _ _ (set_sl_upd l _ s1 e lk Hl1)).
  rewrite (bind_ok _ _ _ _ _ (mypid_upd l _ s1 e pid Hpid)).
  rewrite (bind_ok _ _ _ _ _ (set_sl_upd l _ _ e _ (sl_upd_at l _ s1 lk Hl1))), sl_upd_upd.
  rewrite release_ok by (simpl; rewrite sl_upd_held; set_solver). simpl. do 2 f_equal.
  rewrite sl_upd_held_comm. f_equal. subst s1. by rewrite held_restore.
Qed.

Lemma releasesleep_ok l s e lk :
  LSleep l ∉ k_held s -> sl_at l s = Some lk -> plocks_free s -> table_ok s ->
  releasesleep l (mkW s e) =
    Ok tt (mkW (sl_upd l (mkSleeplock 0 0) s <| k_procs ::= wake (Some (ChSleep l)) (k_cur s) |>) e).
Proof.
  intros Hh Hl Hpl Ht. unfold releasesleep. rewrite bind_acquire by done. simpl wk. simpl wenv.
  set (s1 := s <| k_held ::= cons (LSleep l) |>).
  assert (Hl1 : sl_at l s1 = Some lk) by (by destruct l).
  rewrite (bind_ok _ _ _ _ _ (set_sl_upd l _ s1 e lk Hl1)).
  rewrite (bind_ok _ _ _ _ _ (set_sl_upd l _ _ e _ (sl_upd_at l _ s1 lk Hl1))), sl_upd_upd.
  erewrite (bind_ok (wakeup _)); [|apply wakeup_eq].
  - rewrite release_ok by (simpl; rewrite sl_upd_held; set_solver). destruct l as [i|i]; kret; by rewrite filter_cons_self.
  - unfold plocks_free. rewrite sl_upd_held, sl_upd_cur. simpl. intros i [?|?]%elem_of_cons; [done|].
    by apply Hpl.
  - unfold table_ok. by rewrite sl_upd_procs.
Qed.

Lemma holdingsleep_ok l s e lk pid :
  LSleep l ∉ k_held s -> sl_at l s = Some lk -> pid_of s = Some pid ->
  holdingsleep l (mkW s e) = Ok (negb (sl_locked lk =? 0) && (sl_pid lk =? pid)) (mkW s e).
Proof.
  intros Hh Hl Hp. unfold holdingsleep. rewrite bind_acquire by done. simpl wk. simpl wenv.
  set (s1 := s <| k_held ::= cons (LSleep l) |>).
  assert (Hl1 : sl_at l s1 = Some lk) by (by destruct l).
  rewrite (bind_ok _ _ _ _ _ (get_sl_ok l s1 e lk Hl1)).
  rewrite (bind_ok _ _ _ _ _ (mypid_ok s1 e pid Hp)). subst s1. krun. simpl. by rewrite held_restore.
Qed.

(** * Contention *)

(** What the other threads must leave in place: the lock, and the sleeping
    process with its pid. *)
Definition keeps (l : slid) (p : nat) (pid : Z) (s : kst) : Prop :=
  is_Some (sl_at l s) /\ p_pid <$> k_procs s !! p = Some pid.

Lemma switch_env_keeps l p pid : forall env s,
  Forall (fun f => forall s, keeps l p pid s -> keeps l p pid (f s)) env -> keeps l p pid s ->
  match switch_env p env s with
  | Ok _ w => keeps l p pid (wk w) /\ k_cur (wk w) = Some p /\ (length (wenv w) < length env)%nat /\
      Forall (fun f => forall s, keeps l p pid s -> keeps l p pid (f s)) (wenv w)
  | Asleep _ => True
  | _ => False
  end.
Proof.
  induction env as [|f env IH]; intros s He Hk; simpl; [done|].
  apply Forall_cons in He as [Hf He]. pose proof (Hf s Hk) as [Hl Hp].
  destruct (k_procs (f s) !! p) as [pr|] eqn:E; [|done]. simpl in Hp. case_decide.
  - simpl. split_and!; [split|done|lia|done].
    + by destruct l.
    + simpl. rewrite list_lookup_alter_eq, E. done.
  - specialize (IH (f s) He (Hf s Hk)). destruct (switch_env p env (f s)); naive_solver lia.
Qed.

(** The history of a wait: in each round the lock is found taken, the process goes to
    sleep on it, and the other threads run until one makes it RUNNABLE again. *)
Inductive waits (l : slid) (p : nat) : world -> world -> Prop :=
| waits_done w : waits l p w w
| waits_round s env lk w1 w2 :
    sl_at l s = Some lk -> sl_locked lk <> 0 ->
    switch_env p env (asleep_on p (ChSleep l) s) = Ok tt w1 ->
    waits l p (mkW (awake p (LSleep l) (wk w1)) (wenv w1)) w2 ->
    waits l p (mkW s env) w2.

Lemma acquiresleep_loop_spec l p pid fuel : forall env s,
  Forall (fun f => forall s, keeps l p pid s -> keeps l p pid (f s)) env -> (length env < fuel)%nat ->
  keeps l p pid s -> k_held s = [LSleep l] -> k_cur s = Some p ->
  match acquiresleep_loop fuel l (mkW s env) with
  | Ok _ w => waits l p (mkW s env) w /\ keeps l p pid (wk w) /\ k_cur (wk w) = Some p /\ k_held (wk w) = [LSleep l] /\
      exists lk, sl_at l (wk w) = Some lk /\ sl_locked lk = 0
  | Asleep w => exists s1 e1 lk, waits l p (mkW s env) (mkW s1 e1) /\ sl_at l s1 = Some lk /\ sl_locked lk <> 0 /\
      switch_env p e1 (asleep_on p (ChSleep l) s1) = Asleep w
  | _ => False
  end.
Proof.
  induction fuel as [|fuel IH]; intros env s He Hf Hk Hh Hc; [lia|]. cbn [acquiresleep_loop].
  pose proof Hk as [[lk Hlk] Hp]. rewrite (bind_ok _ _ _ _ _ (get_sl_ok l s env lk Hlk)).
  destruct (Z.eqb_spec (sl_locked lk) 0) as [Hz|Hz]; simpl.
  { split_and!; [apply waits_done|done..|]. by exists lk. }
  destruct (k_procs s !! p) as [pr|] eqn:Epr; [|done].
  unfold mbind, K_bind. rewrite (sleep_run p _ _ s env pr) by done.
  assert (Hk' : keeps l p pid (asleep_on p (ChSleep l) s)).
  { split; [by destruct l; eauto|]. simpl. by rewrite list_lookup_alter_eq, Epr. }
  pose proof (switch_env_keeps l p pid env _ He Hk') as Hs.
  destruct (switch_env p env _) as [[] [s' env']| |w| | |] eqn:Esw; try done; simpl in *.
  - destruct Hs as ([Hl' Hp'] & Hc' & Hlen & He').
    assert (Hround : forall w2, waits l p (mkW (awake p (LSleep l) s') env') w2 -> waits l p (mkW s env) w2)
      by (intros w2; by apply (waits_round l p s env lk (mkW s' env'))).
    assert (Hk2 : keeps l p pid (awake p (LSleep l) s')).
    { split; [by destruct l|]. simpl. rewrite list_lookup_alter_eq. by destruct (k_procs s' !! p). }
    specialize (IH env' (awake p (LSleep l) s') He' ltac:(lia) Hk2 eq_refl Hc').
    destruct (acquiresleep_loop fuel l _); [|done| |done..].
    + destruct IH as [Hw IH]. split; [by apply Hround|done].
    + destruct IH as (s1 & e1 & lk1 & Hw & IH). exists s1, e1, lk1. split; [by apply Hround|done].
  - exists s, env, lk. split_and!; [apply waits_done|done|done|done].
Qed.

(** C36: acquiresleep under contention.  Whatever other threads do while it sleeps, it
    never panics.  If it returns, it waited in rounds - as long as it found the lock
    taken - up to a state of the run in which the lock is free, and the final state is
    that one with the lock held under the caller's pid and no spinlock held; in
    particular it returns at once exactly when the lock is free.  If it sleeps for ever,
    the lock was taken whenever it looked, and the others never wake it again. *)
Theorem acquiresleep_exclusive l p pid s env :
  Forall (fun f => forall s, keeps l p pid s -> keeps l p pid (f s)) env ->
  keeps l p pid s -> k_held s = [] -> k_cur s = Some p ->
  let start := mkW (s <| k_held := [LSleep l] |>) env in
  match acquiresleep l (mkW s env) with
  | Ok _ w => exists s1 e1 lk, waits l p start (mkW s1 e1) /\ sl_at l s1 = Some lk /\ sl_locked lk = 0 /\
      k_cur s1 = Some p /\ w = mkW (sl_upd l (mkSleeplock 1 pid) s1 <| k_held := [] |>) e1
  | Asleep w => exists s1 e1 lk, waits l p start (mkW s1 e1) /\ sl_at l s1 = Some lk /\ sl_locked lk <> 0 /\
      switch_env p e1 (asleep_on p (ChSleep l) s1) = Asleep w
  | _ => False
  end.
Proof.
  intros He Hk Hh Hc start. unfold acquiresleep. rewrite bind_acquire by (simpl; rewrite Hh; set_solver). simpl wk.
  replace (s <| k_held ::= cons (LSleep l) |>) with (s <| k_held := [LSleep l] |>) by (kst_eq; by rewrite Hh).
  assert (Hk0 : keeps l p pid (s <| k_held := [LSleep l] |>)) by (destruct Hk; split; by destruct l).
  pose proof (acquiresleep_loop_spec l p pid (S (length env)) env _ He ltac:(lia) Hk0 eq_refl Hc) as Hl.
  unfold mbind at 1, K_bind at 1. simpl wenv. fold start in Hl |- *.
  destruct (acquiresleep_loop _ _ _) as [a [s1 e1]| |w| | |]; try done. simpl in Hl.
  destruct Hl as (Hw & [_ Hp1] & Hc1 & Hh1 & lk & Hlk & Hz).
  rewrite (bind_ok _ _ _ _ _ (set_sl_upd l _ s1 e1 lk Hlk)).
  assert (Hpid : pid_of s1 = Some pid) by (unfold pid_of; by rewrite Hc1).
  rewrite (bind_ok _ _ _ _ _ (mypid_upd l _ s1 e1 pid Hpid)).
  rewrite (bind_ok _ _ _ _ _ (set_sl_upd l _ _ e1 _ (sl_upd_at l _ s1 lk Hlk))), sl_upd_upd.
  rewrite release_ok by (simpl; rewrite sl_upd_held, Hh1; set_solver). simpl.
  exists s1, e1, lk. split_and!; [done..|]. f_equal. kst_eq.
  rewrite sl_upd_held, Hh1. by rewrite filter_cons_False by naive_solver.
Qed.

Definition demo_sl : kst :=
  demo_sched <| k_bufs ::= alter (fun b => b <| b_lock := mkSleeplock 1 9 |>) 0%nat |>.
(** Another thread releases the lock and wakes process 1. *)
Definition demo_release (s : kst) : kst :=
  sl_upd (SBuf 0) (mkSleeplock 0 0) s
    <| k_procs ::= alter (fun p => p <| p_state := RUNNABLE |>) 1%nat |>.

Lemma acquiresleep_exclusive_witness :
  match acquiresleep (SBuf 0) (mkW demo_sl [demo_release]) with
  | Ok _ w => exists s1 e1 lk, waits (SBuf 0) 1 (mkW (demo_sl <| k_held := [LSleep (SBuf 0)] |>) [demo_release]) (mkW s1 e1) /\
      sl_at (SBuf 0) s1 = Some lk /\ sl_locked lk = 0 /\ wenv w = []
  | _ => False
  end.
Proof.
  pose proof (acquiresleep_exclusive (SBuf 0) 1 0 demo_sl [demo_release]) as H.
  assert (He : Forall (fun f => forall s, keeps (SBuf 0) 1 0 s -> keeps (SBuf 0) 1 0 (f s)) [demo_release]).
  { apply Forall_singleton. intros s [[lk Hl] Hp]. split.
    - exists (mkSleeplock 0 0). apply (sl_upd_at (SBuf 0) (mkSleeplock 0 0) s lk Hl).
    - simpl. rewrite list_lookup_alter_eq. destruct (k_procs s !! 1%nat); [exact Hp|discriminate]. }
  specialize (H He ltac:(split; [eexists|]; reflexivity) eq_refl eq_refl). cbv zeta in H.
  assert (Hok : match acquiresleep (SBuf 0) (mkW demo_sl [demo_release]) with Ok _ w => wenv w = [] | _ => False end)
    by (vm_compute; reflexivity).
  destruct (acquiresleep _ _) as [a w| | | | |]; try contradiction.
  destruct H as (s1 & e1 & lk & H1 & H2 & H3 & _). exists s1, e1, lk. exact (conj H1 (conj H2 (conj H3 Hok))).
Defined.
