(* ===== verification/Lru.v ===== *)
(** Doubly linked lists by index: what the buffer cache's LRU list needs.

    [chained nx pv l]: following [nx] from the first element of [l] visits [l]
    in order, and following [pv] from the last visits it backwards. *)

From stdpp Require Import functions.
From S2P Require Import Prelude.

Fixpoint chained (nx pv : nat -> nat) (l : list nat) : Prop :=
  match l with
  | x :: (y :: _) as t => nx x = y /\ pv y = x /\ chained nx pv t
  | _ => True
  end.

#[global] Arguments chained _ _ !l : simpl nomatch.

Lemma chained_cons nx pv x y l : chained nx pv (x :: y :: l) <-> nx x = y /\ pv y = x /\ chained nx pv (y :: l).
Proof. done. Qed.

Lemma chained_app nx pv l1 x l2 :
  chained nx pv (l1 ++ x :: l2) <-> chained nx pv (l1 ++ [x]) /\ chained nx pv (x :: l2).
Proof.
  induction l1 as [|y l1 IH]; simpl; [tauto|].
  destruct (l1 ++ x :: l2) as [|z t] eqn:E; [by destruct l1|].
  destruct (l1 ++ [x]) as [|z' t'] eqn:E'; [by destruct l1|].
  assert (z = z') as -> by (destruct l1; simplify_eq/=; done).
  rewrite !chained_cons. tauto.
Qed.

(** Only the links out of all but the last and into all but the first count. *)
Lemma chained_ext nx pv nx' pv' l z :
  (forall x, x ∈ l -> nx' x = nx x) -> (forall y, y ∈ tail (l ++ [z]) -> pv' y = pv y) ->
  chained nx pv (l ++ [z]) -> chained nx' pv' (l ++ [z]).
Proof.
  induction l as [|x l IH]; intros Hn Hp Hc; [done|]. simpl in *.
  destruct (l ++ [z]) as [|y t] eqn:E; [by destruct l|].
  apply chained_cons in Hc as (H1 & H2 & H3). rewrite chained_cons. split_and!.
  - rewrite Hn by (by left). done.
  - rewrite Hp by (by left). done.
  - apply IH; [set_solver|simpl; set_solver|done].
Qed.

(** The list as a ring through a sentinel [h]. *)
Definition ring (nx pv : nat -> nat) (h : nat) (l : list nat) : Prop :=
  NoDup (h :: l) /\ chained nx pv (h :: l ++ [h]).

Lemma ring_ext nx pv nx' pv' h l :
  (forall x, x ∈ h :: l -> nx' x = nx x /\ pv' x = pv x) -> ring nx pv h l -> ring nx' pv' h l.
Proof.
  intros H [Hnd Hc]. split; [done|]. revert Hc. change (h :: l ++ [h]) with ((h :: l) ++ [h]).
  apply chained_ext; [intros x Hx; by apply H|].
  simpl. intros y [Hy|Hy%list_elem_of_singleton]%elem_of_app; apply H; set_solver.
Qed.

(** The neighbours of an element. *)
Lemma ring_split nx pv h l1 b l2 :
  ring nx pv h (l1 ++ b :: l2) ->
  pv b = List.last (h :: l1) h /\ nx b = hd h l2 /\
  nx (List.last (h :: l1) h) = b /\ pv (hd h l2) = b.
Proof.
  intros [_ Hc]. rewrite <- (assoc_L (++)) in Hc. simpl in Hc.
  change (h :: l1 ++ b :: l2 ++ [h]) with ((h :: l1) ++ b :: l2 ++ [h]) in Hc.
  apply chained_app in Hc as [Hl Hr].
  assert (Hb : nx b = hd h l2 /\ pv (hd h l2) = b).
  { destruct l2 as [|y l2]; simpl in Hr; tauto. }
  assert (Ha : pv b = List.last (h :: l1) h /\ nx (List.last (h :: l1) h) = b).
  { destruct (exists_last (l := h :: l1)) as (l0 & p & E); [done|]. rewrite E in *. rewrite last_last.
    rewrite <- (assoc_L (++)) in Hl. apply chained_app in Hl as [_ Hl]. simpl in Hl. tauto. }
  tauto.
Qed.

Lemma last_cons_in (h : nat) l : List.last (h :: l) h ∈ h :: l.
Proof.
  destruct (exists_last (l := h :: l)) as (l0 & p & E); [done|]. rewrite E, last_last. set_solver.
Qed.

Lemma hd_in (h : nat) l : hd h l ∈ h :: l.
Proof. destruct l; set_solver. Qed.

(** Taking an element out. *)
Lemma ring_unlink nx pv h l1 b l2 :
  ring nx pv h (l1 ++ b :: l2) ->
  ring (<[pv b := nx b]> nx) (<[nx b := pv b]> pv) h (l1 ++ l2).
Proof.
  intros Hr. destruct (ring_split _ _ _ _ _ _ Hr) as (Ep & En & _ & _). rewrite Ep, En.
  destruct Hr as [Hnd Hc]. split.
  { apply NoDup_cons in Hnd as [Hh Hnd]. apply NoDup_cons. split; [set_solver|].
    apply NoDup_app in Hnd as (H1 & H2 & H3). apply NoDup_cons in H3 as [H3 H4].
    apply NoDup_app. split_and!; [done|set_solver|done]. }
  destruct (exists_last (l := h :: l1)) as (l0 & p & E); [done|].
  assert (Elast : List.last (h :: l1) h = p) by (by rewrite E, last_last). rewrite Elast.
  change (h :: (l1 ++ l2) ++ [h]) with (((h :: l1) ++ l2) ++ [h]).
  change (h :: (l1 ++ b :: l2) ++ [h]) with (((h :: l1) ++ b :: l2) ++ [h]) in Hc.
  assert (Hnd' : NoDup (l0 ++ [p] ++ b :: l2)) by (rewrite (assoc_L (++)), <- E; done).
  rewrite E in *. rewrite <- !(assoc_L (++)) in *. simpl in *.
  apply chained_app in Hc as [Hc1 Hc2]. apply chained_cons in Hc2 as (_ & _ & Hc2).
  apply NoDup_app in Hnd' as (Hn1 & Hn2 & Hn3). apply NoDup_cons in Hn3 as [Hn3 Hn4].
  apply NoDup_cons in Hn4 as [Hn4 Hn5].
  assert (Hh0 : h ∉ b :: l2 /\ h ∉ tail (l0 ++ [p])).
  { rewrite <- E. simpl. apply NoDup_cons in Hnd as [Hnd _]. set_solver. }
  apply chained_app. split.
  - revert Hc1. apply chained_ext.
    + intros x Hx. rewrite fn_lookup_insert_ne; [done|]. intros <-. apply (Hn2 p Hx). by left.
    + intros y Hy. rewrite fn_lookup_insert_ne; [done|]. intros <-.
      pose proof (hd_in h l2) as Hin. apply elem_of_cons in Hin as [Hin|Hin].
      * rewrite Hin in Hy. by apply Hh0.
      * assert (Hy' : hd h l2 ∈ l0 ++ [p]) by (destruct (l0 ++ [p]); [done|by right]).
        apply elem_of_app in Hy' as [Hy'|Hy'%list_elem_of_singleton].
        -- apply (Hn2 _ Hy'). right. by right.
        -- apply Hn3. rewrite <- Hy'. by right.
  - destruct l2 as [|y l2]; simpl in *.
    + rewrite !fn_lookup_insert. done.
    + rewrite !fn_lookup_insert. split_and!; [done..|].
      destruct Hc2 as (_ & _ & Hc2). change (y :: l2 ++ [h]) with ((y :: l2) ++ [h]).
      change (y :: l2 ++ [h]) with ((y :: l2) ++ [h]) in Hc2. revert Hc2. apply chained_ext.
      * intros x Hx. rewrite fn_lookup_insert_ne; [done|]. intros <-. apply Hn3. by right.
      * simpl. intros z Hz. rewrite fn_lookup_insert_ne; [done|]. intros <-.
        apply NoDup_cons in Hn5 as [Hn5 _]. apply elem_of_app in Hz as [Hz|Hz%list_elem_of_singleton]; [done|].
        subst. apply Hh0. set_solver.
Qed.

(** Putting an element at the front. *)
Lemma ring_push nx pv h l b :
  ring nx pv h l -> b ∉ h :: l ->
  ring (<[h := b]> (<[b := nx h]> nx)) (<[nx h := b]> (<[b := h]> pv)) h (b :: l).
Proof.
  intros [Hnd Hc] Hb. apply NoDup_cons in Hnd as [Hh Hnd].
  assert (Eh : nx h = hd h l) by (destruct l; simpl in Hc; tauto). rewrite Eh.
  assert (Hne : b <> hd h l) by (pose proof (hd_in h l); set_solver).
  assert (Hbh : b <> h) by set_solver. split.
  { apply NoDup_cons. split; [set_solver|]. apply NoDup_cons. split; [set_solver|done]. }
  simpl. rewrite fn_lookup_insert. split_and!; [done| |].
  { rewrite fn_lookup_insert_ne by done. by rewrite fn_lookup_insert. }
  destruct l as [|y l]; simpl in *.
  - rewrite fn_lookup_insert_ne by done. by rewrite !fn_lookup_insert.
  - rewrite fn_lookup_insert_ne by done. rewrite !fn_lookup_insert. split_and!; [done..|].
    destruct Hc as (_ & _ & Hc). change (y :: l ++ [h]) with ((y :: l) ++ [h]).
    change (y :: l ++ [h]) with ((y :: l) ++ [h]) in Hc. revert Hc. apply chained_ext.
    + intros x Hx. rewrite !fn_lookup_insert_ne; [done|set_solver|set_solver].
    + simpl. intros z Hz. apply NoDup_cons in Hnd as [Hnd _].
      rewrite !fn_lookup_insert_ne; [done|set_solver|]. intros <-. set_solver.
Qed.

(** Following one direction: [path g l z] goes through [l] and ends at [z]. *)
Fixpoint path (g : nat -> nat) (l : list nat) (z : nat) : Prop :=
  match l with [] => True | x :: l' => g x = hd z l' /\ path g l' z end.

Lemma chained_path nx pv z l : chained nx pv (l ++ [z]) -> path nx l z.
Proof.
  induction l as [|x l IH]; [done|]. simpl. intros Hc. destruct l as [|y l].
  - simpl in Hc. naive_solver.
  - apply chained_cons in Hc as (H1 & _ & H2). split; [done|]. by apply IH.
Qed.

Lemma chained_rev nx pv l : chained nx pv l -> chained pv nx (rev l).
Proof.
  induction l as [|x l IH]; [done|]. intros Hc. simpl. destruct l as [|y l]; [done|].
  apply chained_cons in Hc as (H1 & H2 & H3). specialize (IH H3). simpl in *.
  rewrite <- (assoc_L (++)). apply chained_app. split; [done|]. simpl. done.
Qed.

Lemma ring_forward nx pv h l : ring nx pv h l -> path nx l h /\ nx h = hd h l.
Proof.
  intros [_ Hc]. split.
  - destruct l as [|x l]; [done|]. simpl in Hc. destruct Hc as (_ & _ & Hc).
    by apply (chained_path nx pv h (x :: l)).
  - destruct l; simpl in Hc; tauto.
Qed.

Lemma ring_backward nx pv h l : ring nx pv h l -> path pv (rev l) h /\ pv h = hd h (rev l).
Proof.
  intros [Hnd Hc]. apply chained_rev in Hc. simpl in Hc. rewrite rev_app_distr in Hc. simpl in Hc.
  apply (ring_forward pv nx h (rev l)). split; [|done].
  apply NoDup_cons in Hnd as [Hh Hnd]. apply NoDup_cons. split; [by rewrite elem_of_rev|].
  by rewrite rev_alt, (reverse_Permutation l : rev_append l [] ≡ₚ l).
Qed.
