(* ===== verification/Bio.v ===== *)
(** kernel/bio.c: the buffer cache.

    [k_bufs] is [bcache.buf] followed by [bcache.head]; the LRU list runs
    through the buffers by index.  A transfer between a buffer and the disk is
    one step: a read fills the buffer with the disk's block, a write replaces
    the block on disk as a whole, unless the machine loses power first. *)

From S2P Require Import Prelude Riscv State Sched Sleeplock.

Definition HEAD : nat := Z.to_nat NBUF.

Definition getb (i : nat) : K buf := bs ← gets k_bufs; the (bs !! i).
Definition setb (i : nat) (f : buf -> buf) : K unit :=
  modify (fun s => s <| k_bufs ::= alter f i |>).

(** The effect of virtio_disk_rw(b, write): the device transfers the block. *)
Definition disk_write (n : Z) (data : block) : K unit := fun w =>
  match k_power (wk w) with
  | Some O => Crash (k_disk (wk w))
  | pw => Ok tt (mkW (wk w <| k_power := pred <$> pw |> <| k_disk ::= <[n := data]> |>) (wenv w))
  end.
Definition virtio_disk_rw (i : nat) (write : bool) : K unit :=
  b ← getb i;
  if write then disk_write (b_blockno b) (b_data b)
  else d ← gets k_disk; setb i (fun b => b <| b_data := dread d (b_blockno b) |>).

(** void binit(void) *)
Definition binit : K unit :=
  setb HEAD (fun b => b <| b_prev := HEAD |>);;
  setb HEAD (fun b => b <| b_next := HEAD |>);;
  forK (seq 0 HEAD) (fun b =>
    h ← getb HEAD;
    setb b (fun x => x <| b_next := b_next h |>);;
    setb b (fun x => x <| b_prev := HEAD |>);;
    initsleeplock (SBuf b);;
    h ← getb HEAD;
    setb (b_next h) (fun x => x <| b_prev := b |>);;
    setb HEAD (fun x => x <| b_next := b |>)).

(** The two searches of bget: along [next] for the block, along [prev] for an
    unused buffer. *)
Fixpoint find_block (fuel : nat) (b : nat) (dev blockno : Z) : K (option nat) :=
  match fuel with
  | O => diverge
  | S fuel' =>
      if (b =? HEAD)%nat then mret None
      else
        x ← getb b;
        if (b_dev x =? dev) && (b_blockno x =? blockno) then mret (Some b)
        else find_block fuel' (b_next x) dev blockno
  end.
Fixpoint find_unused (fuel : nat) (b : nat) : K (option nat) :=
  match fuel with
  | O => diverge
  | S fuel' =>
      if (b =? HEAD)%nat then mret None
      else
        x ← getb b;
        if b_refcnt x =? 0 then mret (Some b) else find_unused fuel' (b_prev x)
  end.

(** static struct buf* bget(uint dev, uint blockno) *)
Definition bget (dev blockno : Z) : K nat :=
  acquire LBcache;;
  h ← getb HEAD;
  found ← find_block (S HEAD) (b_next h) dev blockno;
  match found with
  | Some b =>
      setb b (fun x => x <| b_refcnt ::= Z.succ |>);;
      release LBcache;;
      acquiresleep (SBuf b);;
      mret b
  | None =>
      h ← getb HEAD;
      unused ← find_unused (S HEAD) (b_prev h);
      match unused with
      | Some b =>
          setb b (fun x => x <| b_dev := dev |>);;
          setb b (fun x => x <| b_blockno := blockno |>);;
          setb b (fun x => x <| b_valid := 0 |>);;
          setb b (fun x => x <| b_refcnt := 1 |>);;
          release LBcache;;
          acquiresleep (SBuf b);;
          mret b
      | None => panic "bget: no buffers"
      end
  end.

(** struct buf* bread(uint dev, uint blockno) *)
Definition bread (dev blockno : Z) : K nat :=
  b ← bget dev blockno;
  x ← getb b;
  when (b_valid x =? 0)
    (virtio_disk_rw b false;;
     setb b (fun x => x <| b_valid := 1 |>));;
  mret b.

(** void bwrite(struct buf *b) *)
Definition bwrite (b : nat) : K unit :=
  h ← holdingsleep (SBuf b);
  when (negb h) (panic "bwrite");;
  virtio_disk_rw b true.

(** brelse's relinking: take the buffer out of the LRU list and put it behind
    the head. *)
Definition lru_move (b : nat) : K unit :=
  x ← getb b;
  setb (b_next x) (fun y => y <| b_prev := b_prev x |>);;
  x ← getb b;
  setb (b_prev x) (fun y => y <| b_next := b_next x |>);;
  h ← getb HEAD;
  setb b (fun y => y <| b_next := b_next h |>);;
  setb b (fun y => y <| b_prev := HEAD |>);;
  h ← getb HEAD;
  setb (b_next h) (fun y => y <| b_prev := b |>);;
  setb HEAD (fun y => y <| b_next := b |>).

(** void brelse(struct buf *b) *)
Definition brelse (b : nat) : K unit :=
  h ← holdingsleep (SBuf b);
  when (negb h) (panic "brelse");;
  releasesleep (SBuf b);;
  acquire LBcache;;
  setb b (fun x => x <| b_refcnt ::= Z.pred |>);;
  x ← getb b;
  when (b_refcnt x =? 0) (lru_move b);;
  release LBcache.

(** void bpin(struct buf *b), void bunpin(struct buf *b) *)
Definition bpin (b : nat) : K unit :=
  acquire LBcache;;
  setb b (fun x => x <| b_refcnt ::= Z.succ |>);;
  release LBcache.
Definition bunpin (b : nat) : K unit :=
  acquire LBcache;;
  setb b (fun x => x <| b_refcnt ::= Z.pred |>);;
  release LBcache.
