(* ===== verification/Bcache.v ===== *)
(** The buffer cache: its invariant, and what bread, bwrite, brelse, bpin and
    bunpin do to the contents of blocks as seen through the cache. *)

From stdpp Require Import functions.
From S2P Require Import Prelude Riscv State Sched Sleeplock Lru Bio.

Definition nxt (s : kst) (i : nat) : nat := default 0%nat (b_next <$> k_bufs s !! i).
Definition prv (s : kst) (i : nat) : nat := default 0%nat (b_prev <$> k_bufs s !! i).

Record bc_inv (s : kst) : Prop := {
  bc_len : length (k_bufs s) = S HEAD;
  bc_lru : exists ord, ring (nxt s) (prv s) HEAD ord /\ ord ≡ₚ seq 0 HEAD;
  bc_uniq : forall i j bi bj, (i < HEAD)%nat -> (j < HEAD)%nat ->
    k_bufs s !! i = Some bi -> k_bufs s !! j = Some bj ->
    b_dev bi = b_dev bj -> b_dev bi <> 0 -> b_blockno bi = b_blockno bj -> i = j;
  bc_ref : forall i b, (i < HEAD)%nat -> k_bufs s !! i = Some b -> 0 <= b_refcnt b;
  bc_clean : forall i b, (i < HEAD)%nat -> k_bufs s !! i = Some b ->
    b_refcnt b = 0 -> b_valid b <> 0 -> b_dev b = ROOTDEV -> b_data b = dread (k_disk s) (b_blockno b);
  bc_dev : forall i b, (i < HEAD)%nat -> k_bufs s !! i = Some b -> b_refcnt b <> 0 -> b_dev b = ROOTDEV;
  bc_lock : forall i b, (i < HEAD)%nat -> k_bufs s !! i = Some b ->
    b_refcnt b = 0 -> sl_locked (b_lock b) = 0;
}.

Lemma getb_ok i s e b : k_bufs s !! i = Some b -> getb i (mkW s e) = Ok b (mkW s e).
Proof. intros H. unfold getb. krun. by rewrite H. Qed.

Lemma find_block_path dev bn s e : forall l fuel,
  path (nxt s) l HEAD -> (forall x, x ∈ l -> (x < HEAD)%nat) -> length (k_bufs s) = S HEAD ->
  (length l < fuel)%nat ->
  exists r, find_block fuel (hd HEAD l) dev bn (mkW s e) = Ok r (mkW s e) /\
  match r with
  | Some b => b ∈ l /\ exists x, k_bufs s !! b = Some x /\ b_dev x = dev /\ b_blockno x = bn
  | None => forall b x, b ∈ l -> k_bufs s !! b = Some x -> ~ (b_dev x = dev /\ b_blockno x = bn)
  end.
Proof.
  induction l as [|b l IH]; intros fuel Hp Hlt Hlen Hf; (destruct fuel as [|fuel]; [simpl in Hf; lia|]);
    cbn [find_block hd].
  - exists None. rewrite Nat.eqb_refl. split; [done|]. set_solver.
  - assert (Hb : (b < HEAD)%nat) by (apply Hlt; by left). destruct Hp as [Hn Hp].
    rewrite (proj2 (Nat.eqb_neq _ _)) by lia.
    destruct (lookup_lt_is_Some_2 (k_bufs s) b ltac:(lia)) as [x Hx].
    rewrite (bind_ok _ _ _ _ _ (getb_ok b s e x Hx)).
    destruct (Z.eqb_spec (b_dev x) dev) as [E1|E1], (Z.eqb_spec (b_blockno x) bn) as [E2|E2]; simpl.
    1: { exists (Some b). split; [done|]. split; [by left|]. by exists x. }
    all: assert (En : b_next x = hd HEAD l) by (unfold nxt in Hn; by rewrite Hx in Hn).
    all: destruct (IH fuel) as (r & E & Hr); [done|set_solver|done|simpl in Hf; lia|].
    all: exists r; rewrite En; split; [done|]; destruct r as [c|]; [set_solver|].
    all: intros c y [->|Hc]%elem_of_cons Hy; [naive_solver|by eapply Hr].
Qed.

Lemma find_unused_path s e : forall l fuel,
  path (prv s) l HEAD -> (forall x, x ∈ l -> (x < HEAD)%nat) -> length (k_bufs s) = S HEAD ->
  (length l < fuel)%nat ->
  exists r, find_unused fuel (hd HEAD l) (mkW s e) = Ok r (mkW s e) /\
  match r with
  | Some b => exists l1 l2 x, l = l1 ++ b :: l2 /\ k_bufs s !! b = Some x /\ b_refcnt x = 0 /\
      (forall c y, c ∈ l1 -> k_bufs s !! c = Some y -> b_refcnt y <> 0)
  | None => forall b x, b ∈ l -> k_bufs s !! b = Some x -> b_refcnt x <> 0
  end.
Proof.
  induction l as [|b l IH]; intros fuel Hp Hlt Hlen Hf; (destruct fuel as [|fuel]; [simpl in Hf; lia|]);
    cbn [find_unused hd].
  - exists None. rewrite Nat.eqb_refl. split; [done|]. set_solver.
  - assert (Hb : (b < HEAD)%nat) by (apply Hlt; by left). destruct Hp as [Hn Hp].
    rewrite (proj2 (Nat.eqb_neq _ _)) by lia.
    destruct (lookup_lt_is_Some_2 (k_bufs s) b ltac:(lia)) as [x Hx].
    rewrite (bind_ok _ _ _ _ _ (getb_ok b s e x Hx)).
    destruct (Z.eqb_spec (b_refcnt x) 0) as [E|E].
    + exists (Some b). split; [done|]. exists [], l, x. set_solver.
    + assert (En : b_prev x = hd HEAD l) by (unfold prv in Hn; by rewrite Hx in Hn).
      destruct (IH fuel) as (r & E' & Hr); [done|set_solver|done|simpl in Hf; lia|].
      exists r. rewrite En. split; [done|]. destruct r as [c|].
      * destruct Hr as (l1 & l2 & y & -> & Hy & Hz & Hl1). exists (b :: l1), l2, y. split_and!; [done..|].
        intros c' y' [->|Hc]%elem_of_cons Hy'; [naive_solver|by eapply Hl1].
      * intros c y [->|Hc]%elem_of_cons Hy; [naive_solver|by eapply Hr].
Qed.

(** * Updating one buffer *)

Lemma setb_insert i f s e b :
  k_bufs s !! i = Some b -> setb i f (mkW s e) = Ok tt (mkW (s <| k_bufs ::= <[i := f b]> |>) e).
Proof. intros H. unfold setb, modify. kret. by rewrite (alter_insert _ _ _ b). Qed.

Lemma links_insert s i b b' :
  k_bufs s !! i = Some b -> b_next b' = b_next b -> b_prev b' = b_prev b ->
  forall x, nxt (s <| k_bufs ::= <[i := b']> |>) x = nxt s x /\ prv (s <| k_bufs ::= <[i := b']> |>) x = prv s x.
Proof.
  intros Hi Hn Hp x. unfold nxt, prv. simpl. rewrite list_lookup_insert. case_decide as D; [|done].
  destruct D as [<- _]. by rewrite Hi; simpl; rewrite Hn, Hp.
Qed.

Lemma bc_update s i b b' :
  bc_inv s -> (i < HEAD)%nat -> k_bufs s !! i = Some b ->
  b_next b' = b_next b -> b_prev b' = b_prev b -> 0 <= b_refcnt b' ->
  (b_refcnt b' = 0 -> sl_locked (b_lock b') = 0 /\
    (b_valid b' <> 0 -> b_dev b' = ROOTDEV -> b_data b' = dread (k_disk s) (b_blockno b'))) ->
  (b_refcnt b' <> 0 -> b_dev b' = ROOTDEV) ->
  (b_dev b' <> 0 -> forall j c, (j < HEAD)%nat -> j <> i -> k_bufs s !! j = Some c ->
    ~ (b_dev c = b_dev b' /\ b_blockno c = b_blockno b')) ->
  bc_inv (s <| k_bufs ::= <[i := b']> |>).
Proof.
  intros [Hlen (ord & Hr & Hp) Hu Href Hc Hdv Hl] Hi Hb En Ep Hr0 Hz Hq0 Hq.
  assert (Hlk : forall j c, k_bufs (s <| k_bufs ::= <[i := b']> |>) !! j = Some c ->
    (j = i /\ c = b') \/ (j <> i /\ k_bufs s !! j = Some c)).
  { intros j c. simpl. rewrite list_lookup_insert. case_decide as D; [|].
    - destruct D as [-> _]. intros [= <-]. by left.
    - intros Hj. right. split; [|done]. intros ->. apply D. split; [done|]. by eapply lookup_lt_Some. }
  split.
  - simpl. by rewrite length_insert.
  - exists ord. split; [|done]. eapply ring_ext; [|exact Hr]. intros x _. by eapply links_insert.
  - intros j k bj bk Hj Hk [[-> ->]|[Hji Hbj]]%Hlk [[-> ->]|[Hki Hbk]]%Hlk Ed Hd Ebn.
    + done.
    + exfalso. by apply (Hq Hd k bk Hk Hki Hbk).
    + exfalso. rewrite Ed in Hd. by apply (Hq Hd j bj Hj Hji Hbj).
    + by eapply Hu.
  - intros j c Hj [[-> ->]|[_ Hjc]]%Hlk; [done|by eapply Href].
  - intros j c Hj [[-> ->]|[_ Hjc]]%Hlk; [intros ?; by apply Hz|by eapply Hc].
  - intros j c Hj [[-> ->]|[_ Hjc]]%Hlk; [done|by eapply Hdv].
  - intros j c Hj [[-> ->]|[_ Hjc]]%Hlk; [intros ?; by apply Hz|by eapply Hl].
Qed.

(** * Blocks *)

(** Buffer [i] caches block [bn]. *)
Definition buf_of (s : kst) (bn : Z) (i : nat) (b : buf) : Prop :=
  (i < HEAD)%nat /\ k_bufs s !! i = Some b /\ b_dev b = ROOTDEV /\ b_blockno b = bn.

Lemma buf_of_inj s bn i b j c : bc_inv s -> buf_of s bn i b -> buf_of s bn j c -> i = j /\ b = c.
Proof.
  intros Hinv (Hi & Hb & Hd & Hn) (Hj & Hc & Hd' & Hn'). assert (i = j) as ->.
  { eapply (bc_uniq s Hinv); [exact Hi|exact Hj|done|done|congruence|rewrite Hd; done|congruence]. }
  naive_solver.
Qed.

(** The contents of a block as the kernel sees it. *)
Definition buf_match (bn : Z) (b : buf) : bool := (b_dev b =? ROOTDEV) && (b_blockno b =? bn).
Definition cached (s : kst) (bn : Z) : option (nat * buf) :=
  list_find (fun b => buf_match bn b = true) (take HEAD (k_bufs s)).
Definition view (s : kst) (bn : Z) : block :=
  match cached s bn with
  | Some (_, b) => if b_valid b =? 0 then dread (k_disk s) bn else b_data b
  | None => dread (k_disk s) bn
  end.

Lemma buf_match_true bn b : buf_match bn b = true <-> b_dev b = ROOTDEV /\ b_blockno b = bn.
Proof. unfold buf_match. rewrite andb_true_iff, !Z.eqb_eq. done. Qed.

Lemma cached_some s bn i b : bc_inv s -> buf_of s bn i b -> cached s bn = Some (i, b).
Proof.
  intros Hinv Hb. unfold cached. destruct (list_find _ _) as [[j c]|] eqn:E.
  - apply list_find_Some in E as (Hj & Hm & _). apply lookup_take_Some in Hj as [Hj Hlt].
    apply buf_match_true in Hm as [Hd Hn].
    assert (Hc : buf_of s bn j c) by (split_and!; done).
    by destruct (buf_of_inj s bn i b j c Hinv Hb Hc) as [-> ->].
  - exfalso. destruct Hb as (Hi & Hl & Hd & Hn). apply list_find_None in E. rewrite Forall_lookup in E.
    apply (E i b); [by rewrite lookup_take_lt|]. by apply buf_match_true.
Qed.

Lemma cached_none s bn : (forall i b, ~ buf_of s bn i b) -> cached s bn = None.
Proof.
  intros Hn. unfold cached. destruct (list_find _ _) as [[j c]|] eqn:E; [|done].
  apply list_find_Some in E as (Hj & Hm & _). apply lookup_take_Some in Hj as [Hj Hlt].
  apply buf_match_true in Hm as [Hd Hb]. exfalso. by apply (Hn j c).
Qed.

Lemma view_cached s bn i b :
  bc_inv s -> buf_of s bn i b -> view s bn = if b_valid b =? 0 then dread (k_disk s) bn else b_data b.
Proof. intros Hinv Hb. unfold view. by rewrite (cached_some s bn i b). Qed.

Lemma view_uncached s bn : (forall i b, ~ buf_of s bn i b) -> view s bn = dread (k_disk s) bn.
Proof. intros Hn. unfold view. by rewrite cached_none. Qed.

Lemma cached_dec s bn : (exists i b, buf_of s bn i b) \/ (forall i b, ~ buf_of s bn i b).
Proof.
  destruct (list_find (fun b => buf_match bn b = true) (take HEAD (k_bufs s))) as [[j c]|] eqn:E.
  - left. apply list_find_Some in E as (Hj & Hm & _). apply lookup_take_Some in Hj as [Hj Hlt].
    apply buf_match_true in Hm as [Hd Hb]. by exists j, c.
  - right. intros i b (Hi & Hl & Hd & Hn). apply list_find_None in E. rewrite Forall_lookup in E.
    apply (E i b); [by rewrite lookup_take_lt|]. by apply buf_match_true.
Qed.

(** * Getting a buffer *)

(** The running process and the locks around calls of the buffer cache. *)
Record amb (s : kst) (pid : Z) : Prop := {
  am_bcache : LBcache ∉ k_held s;
  am_sleep : forall i, LSleep (SBuf i) ∉ k_held s;
  am_pid : pid_of s = Some pid;
  am_plocks : plocks_free s;
  am_table : table_ok s;
}.

Definition lru_order (s : kst) (ord : list nat) : Prop :=
  ring (nxt s) (prv s) HEAD ord /\ ord ≡ₚ seq 0 HEAD.

Lemma lru_lt s ord x : lru_order s ord -> x ∈ ord <-> (x < HEAD)%nat.
Proof. intros [_ Hp]. rewrite Hp, elem_of_seq. lia. Qed.

Lemma acquiresleep_buf i s e b pid :
  amb s pid -> k_bufs s !! i = Some b -> sl_locked (b_lock b) = 0 ->
  acquiresleep (SBuf i) (mkW s e) =
    Ok tt (mkW (s <| k_bufs ::= <[i := b <| b_lock := mkSleeplock 1 pid |>]> |>) e).
Proof.
  intros Ha Hb Hl. rewrite (acquiresleep_free _ s e (b_lock b) pid); [|apply Ha|simpl; by rewrite Hb|done|apply Ha].
  kret. by rewrite (alter_insert _ _ _ b).
Qed.

Lemma amb_bufs s pid i b : amb s pid -> amb (s <| k_bufs ::= <[i := b]> |>) pid.
Proof. by intros []. Qed.

Lemma find_block_spec s e bn ord :
  lru_order s ord -> length (k_bufs s) = S HEAD ->
  exists r, find_block (S HEAD) (nxt s HEAD) ROOTDEV bn (mkW s e) = Ok r (mkW s e) /\
    match r with
    | Some i => exists b, buf_of s bn i b
    | None => forall i b, ~ buf_of s bn i b
    end.
Proof.
  intros Hl Hlen. pose proof Hl as [Hr Hp]. destruct (ring_forward _ _ _ _ Hr) as [Hpath ->].
  destruct (find_block_path ROOTDEV bn s e ord (S HEAD)) as (r & E & Hf);
    [done|intros x; by apply (lru_lt s ord)|done|rewrite Hp, length_seq; lia|].
  exists r. split; [done|]. destruct r as [i|].
  - destruct Hf as (Hi & b & Hb & Hd & Hn). exists b. split_and!; try done. by apply (lru_lt s ord).
  - intros i b (Hi & Hb & Hd & Hn). apply (Hf i b); [by apply (lru_lt s ord)|done|done].
Qed.

Lemma find_unused_spec s e ord :
  lru_order s ord -> length (k_bufs s) = S HEAD ->
  exists r, find_unused (S HEAD) (prv s HEAD) (mkW s e) = Ok r (mkW s e) /\
    match r with
    | Some i => exists o1 o2 b, ord = o1 ++ i :: o2 /\ k_bufs s !! i = Some b /\ b_refcnt b = 0 /\
        (forall j c, j ∈ o2 -> k_bufs s !! j = Some c -> b_refcnt c <> 0)
    | None => forall i b, (i < HEAD)%nat -> k_bufs s !! i = Some b -> b_refcnt b <> 0
    end.
Proof.
  intros Hl Hlen. pose proof Hl as [Hr Hp]. destruct (ring_backward _ _ _ _ Hr) as [Hpath ->].
  destruct (find_unused_path s e (rev ord) (S HEAD)) as (r & E & Hf);
    [done|intros x; rewrite elem_of_rev; by apply (lru_lt s ord)|done|rewrite length_rev, Hp, length_seq; lia|].
  exists r. split; [done|]. destruct r as [i|].
  - destruct Hf as (l1 & l2 & b & El & Hb & Hz & Hu). exists (rev l2), (rev l1), b. split_and!; [|done|done|].
    + apply (f_equal (@rev nat)) in El. rewrite rev_involutive, rev_app_distr in El. simpl in El.
      by rewrite <- (assoc_L (++)) in El.
    + intros j c Hj. apply Hu. by rewrite elem_of_rev in Hj.
  - intros i b Hi Hb. apply (Hf i b); [|done]. rewrite elem_of_rev. by apply (lru_lt s ord).
Qed.

Lemma lru_held s ord g : lru_order s ord -> lru_order (s <| k_held ::= g |>) ord.
Proof. done. Qed.

(** bget on a cached block: one more reference, and the lock. *)
Definition got (b : buf) (pid : Z) : buf :=
  b <| b_refcnt ::= Z.succ |> <| b_lock := mkSleeplock 1 pid |>.
(** bget on a block that is not cached: a recycled buffer. *)
Definition recycled (b : buf) (bn pid : Z) : buf :=
  b <| b_dev := ROOTDEV |> <| b_blockno := bn |> <| b_valid := 0 |> <| b_refcnt := 1 |>
    <| b_lock := mkSleeplock 1 pid |>.

Lemma bget_hit s e bn pid i b :
  bc_inv s -> amb s pid -> buf_of s bn i b -> sl_locked (b_lock b) = 0 ->
  bget ROOTDEV bn (mkW s e) = Ok i (mkW (s <| k_bufs ::= <[i := got b pid]> |>) e).
Proof.
  intros Hinv Ha Hb Hl. pose proof Hinv as [Hlen (ord & Ho) _ _ _ _ _]. unfold bget.
  rewrite bind_acquire by apply Ha. simpl wk. simpl wenv. set (s1 := s <| k_held ::= cons LBcache |>).
  destruct (lookup_lt_is_Some_2 (k_bufs s) HEAD ltac:(lia)) as [h Hh].
  rewrite (bind_ok _ _ _ _ _ (getb_ok HEAD s1 e h Hh)).
  assert (En : b_next h = nxt s1 HEAD) by (unfold nxt; simpl; by rewrite Hh).
  destruct (find_block_spec s1 e bn ord Ho Hlen) as (r & E & Hr). rewrite En, (bind_ok _ _ _ _ _ E).
  destruct r as [j|]; [|by destruct (Hr i b)]. destruct Hr as (c & Hc).
  destruct (buf_of_inj s bn i b j c Hinv Hb Hc) as [<- <-]. pose proof Hb as (Hi & Hbl & _ & _).
  rewrite (bind_ok _ _ _ _ _ (setb_insert i _ s1 e b Hbl)). krun. simpl wk.
  set (s2 := _ <| k_held ::= filter _ |>).
  assert (E2 : s2 = s <| k_bufs ::= <[i := b <| b_refcnt ::= Z.succ |>]> |>).
  { subst s2 s1. kst_eq. rewrite filter_cons_self; [done|apply Ha]. }
  rewrite E2. erewrite bind_ok; [|apply (acquiresleep_buf i _ e (b <| b_refcnt ::= Z.succ |>) pid)];
    [|by apply amb_bufs|apply list_lookup_insert_eq; by eapply lookup_lt_Some|done].
  kret. by rewrite list_insert_insert_eq.
Qed.

Lemma bget_miss s e bn pid ord :
  bc_inv s -> amb s pid -> (forall i b, ~ buf_of s bn i b) -> lru_order s ord ->
  (exists i b, (i < HEAD)%nat /\ k_bufs s !! i = Some b /\ b_refcnt b = 0) ->
  exists o1 i o2 b, ord = o1 ++ i :: o2 /\ k_bufs s !! i = Some b /\ b_refcnt b = 0 /\
    (forall j c, j ∈ o2 -> k_bufs s !! j = Some c -> b_refcnt c <> 0) /\
    bget ROOTDEV bn (mkW s e) = Ok i (mkW (s <| k_bufs ::= <[i := recycled b bn pid]> |>) e).
Proof.
  intros Hinv Ha Hno Ho (i0 & b0 & Hi0 & Hb0 & Hz0). pose proof (bc_len s Hinv) as Hlen. unfold bget.
  rewrite bind_acquire by apply Ha. simpl wk. simpl wenv. set (s1 := s <| k_held ::= cons LBcache |>).
  destruct (lookup_lt_is_Some_2 (k_bufs s) HEAD ltac:(lia)) as [h Hh].
  rewrite (bind_ok _ _ _ _ _ (getb_ok HEAD s1 e h Hh)).
  assert (En : b_next h = nxt s1 HEAD /\ b_prev h = prv s1 HEAD) by (unfold nxt, prv; simpl; by rewrite Hh).
  destruct (find_block_spec s1 e bn ord Ho Hlen) as (r & E & Hr). rewrite (proj1 En), (bind_ok _ _ _ _ _ E).
  destruct r as [j|]; [destruct Hr as (c & Hc); by destruct (Hno j c)|].
  rewrite (bind_ok _ _ _ _ _ (getb_ok HEAD s1 e h Hh)), (proj2 En).
  destruct (find_unused_spec s1 e ord Ho Hlen) as (r & E' & Hr'). rewrite (bind_ok _ _ _ _ _ E').
  destruct r as [i|]; [|by destruct (Hr' i0 b0)]. destruct Hr' as (o1 & o2 & b & Eo & Hb & Hz & Hu).
  exists o1, i, o2, b. split_and!; [done..|].
  assert (Hi : (i < HEAD)%nat) by (apply (lru_lt s ord i Ho); rewrite Eo; set_solver).
  unfold setb. krun. simpl wk. simpl wenv. set (s2 := _ <| k_held ::= filter _ |>).
  set (b1 := b <| b_dev := ROOTDEV |> <| b_blockno := bn |> <| b_valid := 0 |> <| b_refcnt := 1 |>).
  assert (E2 : s2 = s <| k_bufs ::= <[i := b1]> |>).
  { subst s2 s1. kst_eq; [rewrite filter_cons_self; [done|apply Ha]|].
    rewrite !alter_alter. by rewrite (alter_insert _ _ _ b). }
  rewrite E2. erewrite bind_ok; [|apply (acquiresleep_buf i _ e b1 pid)];
    [|by apply amb_bufs|apply list_lookup_insert_eq; by eapply lookup_lt_Some|exact (bc_lock s Hinv i b Hi Hb Hz)].
  kret. by rewrite list_insert_insert_eq.
Qed.

(** No buffer can be had: bget panics. *)
Lemma bget_full s e bn pid :
  bc_inv s -> amb s pid -> (forall i b, ~ buf_of s bn i b) ->
  (forall i b, (i < HEAD)%nat -> k_bufs s !! i = Some b -> b_refcnt b <> 0) ->
  bget ROOTDEV bn (mkW s e) = Panic "bget: no buffers".
Proof.
  intros Hinv Ha Hno Hall. pose proof Hinv as [Hlen (ord & Ho) _ _ _ _ _]. unfold bget.
  rewrite bind_acquire by apply Ha. simpl wk. simpl wenv. set (s1 := s <| k_held ::= cons LBcache |>).
  destruct (lookup_lt_is_Some_2 (k_bufs s) HEAD ltac:(lia)) as [h Hh].
  rewrite (bind_ok _ _ _ _ _ (getb_ok HEAD s1 e h Hh)).
  assert (En : b_next h = nxt s1 HEAD /\ b_prev h = prv s1 HEAD) by (unfold nxt, prv; simpl; by rewrite Hh).
  destruct (find_block_spec s1 e bn ord Ho Hlen) as (r & E & Hr). rewrite (proj1 En), (bind_ok _ _ _ _ _ E).
  destruct r as [j|]; [destruct Hr as (c & Hc); by destruct (Hno j c)|].
  rewrite (bind_ok _ _ _ _ _ (getb_ok HEAD s1 e h Hh)), (proj2 En).
  destruct (find_unused_spec s1 e ord Ho Hlen) as (r & E' & Hr'). rewrite (bind_ok _ _ _ _ _ E').
  destruct r as [i|]; [|done]. destruct Hr' as (o1 & o2 & b & Eo & Hb & Hz & _).
  exfalso. apply (Hall i b); [|done|done]. apply (lru_lt s ord i Ho). rewrite Eo. set_solver.
Qed.

(** * Reading a block *)

(** The number of references to a block's buffer. *)
Definition refs (s : kst) (bn : Z) : Z :=
  match cached s bn with
  | Some (_, b) => b_refcnt b
  | None => 0
  end.

Lemma refs_cached s bn i b : bc_inv s -> buf_of s bn i b -> refs s bn = b_refcnt b.
Proof. intros Hinv Hb. unfold refs. by rewrite (cached_some s bn i b). Qed.

Lemma refs_uncached s bn : (forall i b, ~ buf_of s bn i b) -> refs s bn = 0.
Proof. intros Hn. unfold refs. by rewrite cached_none. Qed.

(** A buffer can be had for the block: it is cached and not locked, or some
    buffer is unused. *)
Definition available (s : kst) (bn : Z) : Prop :=
  (forall i b, buf_of s bn i b -> sl_locked (b_lock b) = 0) /\
  ((exists i b, buf_of s bn i b) \/ exists i b, (i < HEAD)%nat /\ k_bufs s !! i = Some b /\ b_refcnt b = 0).

Definition read_in (d : disk) (b : buf) : buf :=
  if b_valid b =? 0 then b <| b_data := dread d (b_blockno b) |> <| b_valid := 1 |> else b.

Lemma bread_of_bget s e bn i b' :
  (i < length (k_bufs s))%nat ->
  bget ROOTDEV bn (mkW s e) = Ok i (mkW (s <| k_bufs ::= <[i := b']> |>) e) ->
  bread ROOTDEV bn (mkW s e) = Ok i (mkW (s <| k_bufs ::= <[i := read_in (k_disk s) b']> |>) e).
Proof.
  intros Hi E. unfold bread. rewrite (bind_ok _ _ _ _ _ E).
  set (s1 := s <| k_bufs ::= <[i := b']> |>).
  assert (Hb : k_bufs s1 !! i = Some b') by (by apply list_lookup_insert_eq).
  rewrite (bind_ok _ _ _ _ _ (getb_ok i s1 e b' Hb)). unfold read_in.
  destruct (b_valid b' =? 0); [|by subst s1].
  unfold virtio_disk_rw. krun. rewrite (bind_ok _ _ _ _ _ (getb_ok i s1 e b' Hb)). unfold setb. krun. kret.
  rewrite alter_alter. rewrite (alter_insert _ _ _ b') by (by apply list_lookup_insert_eq).
  by rewrite list_insert_insert_eq.
Qed.

Lemma bread_eq s e bn pid :
  bc_inv s -> amb s pid -> available s bn ->
  exists i b b', bread ROOTDEV bn (mkW s e) = Ok i (mkW (s <| k_bufs ::= <[i := b']> |>) e) /\
    (i < HEAD)%nat /\ k_bufs s !! i = Some b /\ b_next b' = b_next b /\ b_prev b' = b_prev b /\
    b_dev b' = ROOTDEV /\ b_blockno b' = bn /\ b_valid b' <> 0 /\ b_lock b' = mkSleeplock 1 pid /\
    b_data b' = view s bn /\ b_refcnt b' = refs s bn + 1 /\
    (buf_of s bn i b \/ (forall j c, ~ buf_of s bn j c) /\ b_refcnt b = 0).
Proof.
  intros Hinv Ha [Hul Hav]. destruct (cached_dec s bn) as [(i & b & Hb)|Hno].
  - pose proof (bget_hit s e bn pid i b Hinv Ha Hb (Hul i b Hb)) as E. pose proof Hb as (Hi & Hbl & Hd & Hn).
    apply bread_of_bget in E; [|by eapply lookup_lt_Some].
    eexists i, b, _. split; [exact E|].
    rewrite (view_cached s bn i b Hinv Hb), (refs_cached s bn i b Hinv Hb). unfold read_in, got. simpl.
    rewrite <- Hn. destruct (Z.eqb_spec (b_valid b) 0); simpl; split_and!; (done || lia || by left).
  - destruct Hav as [(i & b & Hb)|Hun]; [by destruct (Hno i b)|].
    destruct (bc_lru s Hinv) as (ord & Ho).
    destruct (bget_miss s e bn pid ord Hinv Ha Hno Ho Hun) as (o1 & i & o2 & b & Eo & Hb & Hz & _ & E).
    assert (Hi : (i < HEAD)%nat) by (apply (lru_lt s ord i Ho); rewrite Eo; set_solver).
    apply bread_of_bget in E; [|by eapply lookup_lt_Some].
    eexists i, b, _. split; [exact E|].
    rewrite (view_uncached s bn Hno), (refs_uncached s bn Hno). unfold read_in, recycled. simpl.
    split_and!; (done || by right).
Qed.

(** A buffer without its place in the LRU list. *)
Definition core (b : buf) : Z * Z * Z * sleeplock * Z * block :=
  (b_valid b, b_dev b, b_blockno b, b_lock b, b_refcnt b, b_data b).

(** What a call leaves of the other blocks' buffers: no new ones, and those in
    use stay. *)
Definition others (s s' : kst) (bn : Z) : Prop :=
  (forall bn' j c', bn' <> bn -> buf_of s' bn' j c' -> exists c, buf_of s bn' j c /\ core c = core c') /\
  (forall bn' j c, bn' <> bn -> buf_of s bn' j c -> b_refcnt c <> 0 ->
    exists c', buf_of s' bn' j c' /\ core c = core c').

Lemma buf_of_insert s i b' bn' j c :
  (i < HEAD)%nat -> length (k_bufs s) = S HEAD ->
  buf_of (s <| k_bufs ::= <[i := b']> |>) bn' j c <->
  (j = i /\ c = b' /\ b_dev b' = ROOTDEV /\ b_blockno b' = bn') \/ (j <> i /\ buf_of s bn' j c).
Proof.
  intros Hi Hlen. unfold buf_of. simpl. rewrite list_lookup_insert.
  destruct (decide (i = j)) as [->|Hne].
  - rewrite decide_True by (split; [done|lia]). naive_solver.
  - rewrite decide_False by naive_solver. naive_solver.
Qed.

Lemma refs_nonneg s bn : bc_inv s -> 0 <= refs s bn.
Proof.
  intros Hinv. destruct (cached_dec s bn) as [(i & b & Hb)|Hno].
  - rewrite (refs_cached s bn i b Hinv Hb). destruct Hb as (Hi & Hb & _). by eapply bc_ref.
  - by rewrite refs_uncached.
Qed.

(** Blocks seen through a cache from which only clean buffers were dropped. *)
Lemma others_view s s' bn bn' :
  bc_inv s -> bc_inv s' -> others s s' bn -> bn' <> bn -> dread (k_disk s') bn' = dread (k_disk s) bn' ->
  view s' bn' = view s bn'.
Proof.
  intros Hinv Hinv' [Ho1 Ho2] Hne Hd. destruct (cached_dec s' bn') as [(j & c & Hc)|Hno].
  - destruct (Ho1 bn' j c Hne Hc) as (c0 & Hc0 & Ec). injection Ec as E1 _ _ _ _ E2.
    by rewrite (view_cached s' bn' j c Hinv' Hc), (view_cached s bn' j c0 Hinv Hc0), Hd, E1, E2.
  - rewrite (view_uncached s' bn' Hno). destruct (cached_dec s bn') as [(j & c & Hc)|Hno'].
    + rewrite (view_cached s bn' j c Hinv Hc), Hd. destruct (Z.eqb_spec (b_valid c) 0) as [|Hv]; [done|].
      pose proof Hc as (Hj & Hcl & Hdev & Hn). rewrite <- Hn. symmetry.
      eapply (bc_clean s Hinv j); [done|done| |done|done].
      destruct (decide (b_refcnt c = 0)) as [|Hr]; [done|]. destruct (Ho2 bn' j c Hne Hc Hr) as (c' & Hc' & _).
      by destruct (Hno j c').
    + by rewrite view_uncached, Hd.
Qed.

(** Other blocks' references. *)
Lemma others_refs s s' bn bn' :
  bc_inv s -> bc_inv s' -> others s s' bn -> bn' <> bn -> refs s' bn' = refs s bn'.
Proof.
  intros Hinv Hinv' [Ho1 Ho2] Hne. destruct (cached_dec s' bn') as [(j & c & Hc)|Hno].
  - destruct (Ho1 bn' j c Hne Hc) as (c0 & Hc0 & Ec). injection Ec as _ _ _ _ E1 _.
    by rewrite (refs_cached s' bn' j c Hinv' Hc), (refs_cached s bn' j c0 Hinv Hc0).
  - rewrite (refs_uncached s' bn' Hno). destruct (cached_dec s bn') as [(j & c & Hc)|Hno'].
    + rewrite (refs_cached s bn' j c Hinv Hc). destruct (decide (b_refcnt c = 0)) as [|Hr]; [done|].
      destruct (Ho2 bn' j c Hne Hc Hr) as (c' & Hc' & _).
      by destruct (Hno j c').
    + by rewrite refs_uncached.
Qed.

Lemma bread_spec s e bn pid :
  bc_inv s -> amb s pid -> available s bn ->
  exists i b s', bread ROOTDEV bn (mkW s e) = Ok i (mkW s' e) /\ bc_inv s' /\ amb s' pid /\
    buf_of s' bn i b /\ b_valid b <> 0 /\ b_lock b = mkSleeplock 1 pid /\
    b_data b = view s bn /\ b_refcnt b = refs s bn + 1 /\
    others s s' bn /\ s' = s <| k_bufs := k_bufs s' |>.
Proof.
  intros Hinv Ha Hav. destruct (bread_eq s e bn pid Hinv Ha Hav)
    as (i & b & b' & E & Hi & Hb & En & Ep & Hd & Hn & Hv & Hl & Hda & Hr & Hcase).
  pose proof (bc_len s Hinv) as Hlen. pose proof (refs_nonneg s bn Hinv) as Hr0.
  exists i, b'. eexists. split; [exact E|]. split_and!; try done.
  - apply (bc_update s i b b'); try done; [lia|lia|].
    intros _ j c Hj Hne Hc [Hdc Hnc]. rewrite Hd in Hdc. rewrite Hn in Hnc.
    destruct Hcase as [Hbo|[Hno _]]; [|by apply (Hno j c)].
    by destruct (buf_of_inj s bn i b j c Hinv Hbo) as [-> _].
  - by apply amb_bufs.
  - split_and!; [done|apply list_lookup_insert_eq; lia|done|done].
  - split; intros bn' j c Hne Hbc.
    + apply buf_of_insert in Hbc as [(_ & _ & _ & ?)|[_ ?]]; [congruence|eauto|done|done].
    + intros Hrc. exists c. split; [|done]. apply buf_of_insert; [done|done|]. right. split; [|done]. intros ->.
      destruct Hbc as (_ & Hbc & _ & Hnc). rewrite Hb in Hbc. injection Hbc as <-.
      destruct Hcase as [(_ & _ & _ & ?)|[_ ?]]; congruence.
Qed.

(** * Moving a buffer to the front of the LRU list *)

Definition nxl (bs : list buf) (i : nat) : nat := default 0%nat (b_next <$> bs !! i).
Definition pvl (bs : list buf) (i : nat) : nat := default 0%nat (b_prev <$> bs !! i).

Lemma alter_next bs j v :
  (j < length bs)%nat ->
  let bs' := alter (fun b => b <| b_next := v |>) j bs in
  (forall x, nxl bs' x = <[j := v]> (nxl bs) x) /\ (forall x, pvl bs' x = pvl bs x) /\
  core <$> bs' = core <$> bs /\ length bs' = length bs.
Proof.
  intros Hj bs'. destruct (lookup_lt_is_Some_2 bs j Hj) as [b Hb]. subst bs'. rewrite (alter_insert _ _ _ b Hb).
  unfold nxl, pvl. split_and!; [intros x|intros x| |apply length_insert].
  - rewrite list_lookup_insert. destruct (decide (j = x)) as [<-|Hne].
    + rewrite decide_True by done. by rewrite fn_lookup_insert.
    + rewrite decide_False by naive_solver. by rewrite fn_lookup_insert_ne.
  - rewrite list_lookup_insert. case_decide as D; [|done]. destruct D as [<- _]. by rewrite Hb.
  - rewrite list_fmap_insert. apply list_insert_id. by rewrite list_lookup_fmap, Hb.
Qed.

Lemma alter_prev bs j v :
  (j < length bs)%nat ->
  let bs' := alter (fun b => b <| b_prev := v |>) j bs in
  (forall x, pvl bs' x = <[j := v]> (pvl bs) x) /\ (forall x, nxl bs' x = nxl bs x) /\
  core <$> bs' = core <$> bs /\ length bs' = length bs.
Proof.
  intros Hj bs'. destruct (lookup_lt_is_Some_2 bs j Hj) as [b Hb]. subst bs'. rewrite (alter_insert _ _ _ b Hb).
  unfold nxl, pvl. split_and!; [intros x|intros x| |apply length_insert].
  - rewrite list_lookup_insert. destruct (decide (j = x)) as [<-|Hne].
    + rewrite decide_True by done. by rewrite fn_lookup_insert.
    + rewrite decide_False by naive_solver. by rewrite fn_lookup_insert_ne.
  - rewrite list_lookup_insert. case_decide as D; [|done]. destruct D as [<- _]. by rewrite Hb.
  - rewrite list_fmap_insert. apply list_insert_id. by rewrite list_lookup_fmap, Hb.
Qed.

Definition bufs_are (s : kst) (bs : list buf) : kst := s <| k_bufs := bs |>.

Lemma getb_link i s e bs :
  (i < length bs)%nat -> exists b, getb i (mkW (bufs_are s bs) e) = Ok b (mkW (bufs_are s bs) e) /\
    b_next b = nxl bs i /\ b_prev b = pvl bs i.
Proof.
  intros Hi. destruct (lookup_lt_is_Some_2 bs i Hi) as [b Hb]. exists b.
  split; [by apply getb_ok|]. unfold nxl, pvl. by rewrite Hb.
Qed.

Lemma setb_run i f s e bs : setb i f (mkW (bufs_are s bs) e) = Ok tt (mkW (bufs_are s (alter f i bs)) e).
Proof. unfold setb, modify, bufs_are. kret. Qed.

(** The first half of [lru_move]: taking the buffer out. *)
Lemma unlink_run {A} s e b o1 o2 bs (k : K A) :
  ring (nxl bs) (pvl bs) HEAD (o1 ++ b :: o2) -> length bs = S HEAD ->
  (forall x, x ∈ o1 ++ b :: o2 -> (x < HEAD)%nat) ->
  exists bs', (x ← getb b;
      setb (b_next x) (fun y => y <| b_prev := b_prev x |>);;
      x ← getb b;
      setb (b_prev x) (fun y => y <| b_next := b_next x |>);; k) (mkW (bufs_are s bs) e) =
      k (mkW (bufs_are s bs') e) /\
    core <$> bs' = core <$> bs /\ length bs' = length bs /\ ring (nxl bs') (pvl bs') HEAD (o1 ++ o2).
Proof.
  intros Hr Hlen Hlt.
  assert (Hbl : (b < HEAD)%nat) by (apply Hlt; set_solver).
  destruct (ring_split _ _ _ _ _ _ Hr) as (Ep & En & _ & _).
  assert (Hin : forall x, x ∈ HEAD :: o1 ++ b :: o2 -> (x < length bs)%nat).
  { intros x [->|Hx]%elem_of_cons; [lia|]. apply Hlt in Hx. lia. }
  assert (Hn : (nxl bs b < length bs)%nat) by (rewrite En; apply Hin; pose proof (hd_in HEAD o2); set_solver).
  assert (Hp : (pvl bs b < length bs)%nat) by (rewrite Ep; apply Hin; pose proof (last_cons_in HEAD o1); set_solver).
  assert (Hnb : nxl bs b <> b).
  { rewrite En. destruct Hr as [Hnd _]. apply NoDup_cons in Hnd as [Hh Hnd].
    apply NoDup_app in Hnd as (_ & _ & Hnd). apply NoDup_cons in Hnd as [Hnd _].
    pose proof (hd_in HEAD o2). set_solver. }
  pose proof (ring_unlink _ _ _ _ _ _ Hr) as Hr1.
  destruct (getb_link b s e bs ltac:(lia)) as (x & Ex & Exn & Exp). rewrite (bind_ok _ _ _ _ _ Ex), Exn, Exp.
  rewrite (bind_ok _ _ _ _ _ (setb_run _ _ s e bs)).
  destruct (alter_prev bs (nxl bs b) (pvl bs b) Hn) as (P1 & N1 & C1 & L1). cbv zeta in *.
  set (bs1 := alter _ _ bs) in *.
  destruct (getb_link b s e bs1 ltac:(lia)) as (y & Ey & Eyn & Eyp). rewrite (bind_ok _ _ _ _ _ Ey), Eyn, Eyp.
  rewrite N1, P1, fn_lookup_insert_ne by done.
  rewrite (bind_ok _ _ _ _ _ (setb_run _ _ s e bs1)).
  destruct (alter_next bs1 (pvl bs b) (nxl bs b) ltac:(lia)) as (N2 & P2 & C2 & L2). cbv zeta in *.
  eexists. split; [reflexivity|]. split_and!; [by rewrite C2|by rewrite L2|].
  eapply ring_ext; [|exact Hr1]. intros z _. rewrite N2, P2. split; [|by rewrite P1].
  destruct (decide (pvl bs b = z)) as [<-|Hne]; [by rewrite !fn_lookup_insert|].
  rewrite !fn_lookup_insert_ne by done. apply N1.
Qed.

(** The second half: putting it behind the head. *)
Lemma push_run s e b l bs :
  ring (nxl bs) (pvl bs) HEAD l -> length bs = S HEAD -> (b < HEAD)%nat -> b ∉ l ->
  (forall x, x ∈ l -> (x < HEAD)%nat) ->
  exists bs', (h ← getb HEAD;
      setb b (fun y => y <| b_next := b_next h |>);;
      setb b (fun y => y <| b_prev := HEAD |>);;
      h ← getb HEAD;
      setb (b_next h) (fun y => y <| b_prev := b |>);;
      setb HEAD (fun y => y <| b_next := b |>)) (mkW (bufs_are s bs) e) = Ok tt (mkW (bufs_are s bs') e) /\
    core <$> bs' = core <$> bs /\ length bs' = length bs /\ ring (nxl bs') (pvl bs') HEAD (b :: l).
Proof.
  intros Hr Hlen Hb Hbl Hlt. pose proof (ring_push _ _ _ _ b Hr ltac:(set_solver by lia)) as Hr'.
  destruct (ring_forward _ _ _ _ Hr) as [_ Eh].
  assert (Hn : (nxl bs HEAD < length bs)%nat).
  { rewrite Eh. pose proof (hd_in HEAD l) as [->|Hx]%elem_of_cons; [lia|]. apply Hlt in Hx. lia. }
  assert (Hne : b <> HEAD) by lia.
  destruct (getb_link HEAD s e bs ltac:(lia)) as (x & Ex & Exn & _). rewrite (bind_ok _ _ _ _ _ Ex), Exn.
  rewrite (bind_ok _ _ _ _ _ (setb_run _ _ s e bs)).
  destruct (alter_next bs b (nxl bs HEAD) ltac:(lia)) as (N1 & P1 & C1 & L1). cbv zeta in *.
  set (bs1 := alter _ _ bs) in *. rewrite (bind_ok _ _ _ _ _ (setb_run _ _ s e bs1)).
  destruct (alter_prev bs1 b HEAD ltac:(lia)) as (P2 & N2 & C2 & L2). cbv zeta in *.
  set (bs2 := alter _ _ bs1) in *.
  destruct (getb_link HEAD s e bs2 ltac:(lia)) as (y & Ey & Eyn & _). rewrite (bind_ok _ _ _ _ _ Ey), Eyn.
  rewrite N2, N1, fn_lookup_insert_ne by done.
  rewrite (bind_ok _ _ _ _ _ (setb_run _ _ s e bs2)).
  destruct (alter_prev bs2 (nxl bs HEAD) b ltac:(lia)) as (P3 & N3 & C3 & L3). cbv zeta in *.
  set (bs3 := alter _ _ bs2) in *. rewrite setb_run.
  destruct (alter_next bs3 HEAD b ltac:(lia)) as (N4 & P4 & C4 & L4). cbv zeta in *.
  eexists. split; [reflexivity|]. split_and!; [congruence|lia|].
  eapply ring_ext; [|exact Hr']. intros z _. rewrite N4, P4, P3. split.
  - destruct (decide (HEAD = z)) as [<-|]; [by rewrite !fn_lookup_insert|].
    rewrite !(fn_lookup_insert_ne _ HEAD) by done. rewrite N3, N2, N1. done.
  - destruct (decide (nxl bs HEAD = z)) as [<-|]; [by rewrite !fn_lookup_insert|].
    rewrite !(fn_lookup_insert_ne _ (nxl bs HEAD)) by done. rewrite P2.
    destruct (decide (b = z)) as [<-|]; [by rewrite !fn_lookup_insert|].
    rewrite !fn_lookup_insert_ne by done. apply P1.
Qed.

Lemma lru_move_run s e b o1 o2 bs :
  ring (nxl bs) (pvl bs) HEAD (o1 ++ b :: o2) -> length bs = S HEAD ->
  (forall x, x ∈ o1 ++ b :: o2 -> (x < HEAD)%nat) ->
  exists bs', lru_move b (mkW (bufs_are s bs) e) = Ok tt (mkW (bufs_are s bs') e) /\
    core <$> bs' = core <$> bs /\ length bs' = length bs /\
    ring (nxl bs') (pvl bs') HEAD (b :: o1 ++ o2).
Proof.
  intros Hr Hlen Hlt. unfold lru_move.
  destruct (unlink_run s e b o1 o2 bs (
      h ← getb HEAD;
      setb b (fun y => y <| b_next := b_next h |>);;
      setb b (fun y => y <| b_prev := HEAD |>);;
      h ← getb HEAD;
      setb (b_next h) (fun y => y <| b_prev := b |>);;
      setb HEAD (fun y => y <| b_next := b |>)) Hr Hlen Hlt) as (bs1 & E1 & C1 & L1 & Hr1).
  rewrite E1. destruct Hr as [Hnd _]. apply NoDup_cons in Hnd as [_ Hnd].
  apply NoDup_app in Hnd as (_ & Hd1 & Hd2). apply NoDup_cons in Hd2 as [Hd2 _].
  destruct (push_run s e b (o1 ++ o2) bs1) as (bs2 & E2 & C2 & L2 & Hr2);
    [done|lia|apply Hlt; set_solver|set_solver|set_solver|].
  exists bs2. split_and!; [done|congruence|lia|done].
Qed.

(** * Releasing a buffer *)

(** Some sleeping processes may have been woken. *)
Definition woken1 (p p' : proc) : Prop := p' = p \/ (p_state p = SLEEPING /\ p' = p <| p_state := RUNNABLE |>).
Definition woken (s s' : kst) : Prop := Forall2 woken1 (k_procs s) (k_procs s').

#[export] Instance woken_refl : Reflexive woken.
Proof. intros s. unfold woken. apply Forall_Forall2_diag, Forall_true. by left. Qed.
#[export] Instance woken1_trans : Transitive woken1.
Proof. intros p q r [->|[Hp ->]] [->|[Hq ->]]; [by left|by right|by right|done]. Qed.
#[export] Instance woken_trans : Transitive woken.
Proof. intros s1 s2 s3. unfold woken. intros H1 H2. by etrans. Qed.

Lemma wake_woken ch me ps : Forall2 woken1 ps (wake ch me ps).
Proof.
  apply Forall2_same_length_lookup_2; [by unfold wake; rewrite length_imap|].
  intros i p q Hp. unfold wake. rewrite list_lookup_imap, Hp. simpl. intros [= <-].
  unfold wake1. repeat case_bool_decide; simpl; [by left|by right|by left..].
Qed.

Lemma woken_pid s s' : woken s s' -> k_cur s' = k_cur s -> pid_of s' = pid_of s.
Proof.
  intros Hw Hc. unfold pid_of. rewrite Hc. destruct (k_cur s) as [p|]; [simpl|done].
  apply (Forall2_lookup _ _ _) with (i := p) in Hw. by destruct Hw as [x y [->|[_ ->]]|].
Qed.

(** Relinking keeps the invariant: only the LRU list depends on the links. *)
Lemma core_lookup (bs bs' : list buf) i b' :
  core <$> bs' = core <$> bs -> bs' !! i = Some b' -> exists b, bs !! i = Some b /\ core b = core b'.
Proof.
  intros E Hb. apply (f_equal (.!! i)) in E. rewrite !list_lookup_fmap, Hb in E.
  destruct (bs !! i) as [b|]; [|done]. exists b. split; [done|]. simpl in E. congruence.
Qed.

Lemma bc_relink s bs' ord :
  bc_inv s -> core <$> bs' = core <$> k_bufs s -> ring (nxl bs') (pvl bs') HEAD ord -> ord ≡ₚ seq 0 HEAD ->
  bc_inv (bufs_are s bs').
Proof.
  intros [Hlen _ Hu Hr Hc Hdv Hl] E Hring Hp.
  assert (Hlk : forall i b', bs' !! i = Some b' -> exists b, k_bufs s !! i = Some b /\
    (b_valid b = b_valid b' /\ b_dev b = b_dev b' /\ b_blockno b = b_blockno b' /\ b_lock b = b_lock b' /\
     b_refcnt b = b_refcnt b' /\ b_data b = b_data b')).
  { intros i b' Hb. destruct (core_lookup _ _ i b' E Hb) as (b & Hb0 & Ec). injection Ec. eauto 10. }
  split; simpl.
  - apply (f_equal length) in E. rewrite !length_fmap in E. lia.
  - by exists ord.
  - intros i j bi bj Hi Hj (ci & Hci & _ & Di & Ni & _)%Hlk (cj & Hcj & _ & Dj & Nj & _)%Hlk E1 E2 E3.
    apply (Hu i j ci cj); (done || congruence).
  - intros i b Hi (c & Hbc & Ec)%Hlk. pose proof (Hr i c Hi Hbc). intuition lia.
  - intros i b Hi (c & Hbc & Ec)%Hlk. destruct Ec as (<- & <- & <- & _ & <- & <-). by apply (Hc i c).
  - intros i b Hi (c & Hbc & Ec)%Hlk. destruct Ec as (_ & <- & _ & _ & <- & _). by apply (Hdv i c).
  - intros i b Hi (c & Hbc & Ec)%Hlk. destruct Ec as (_ & _ & _ & <- & <- & _). by apply (Hl i c).
Qed.

Definition put_back (b : buf) : buf := b <| b_lock := mkSleeplock 0 0 |> <| b_refcnt ::= Z.pred |>.
Definition unlocked_at (s : kst) (i : nat) (b : buf) : kst :=
  s <| k_bufs ::= <[i := put_back b]> |> <| k_procs ::= wake (Some (ChSleep (SBuf i))) (k_cur s) |>.

Lemma brelse_run s e pid i b :
  amb s pid -> k_bufs s !! i = Some b -> b_lock b = mkSleeplock 1 pid ->
  brelse i (mkW s e) =
  (when (Z.pred (b_refcnt b) =? 0) (lru_move i);; release LBcache)
    (mkW (bufs_are (unlocked_at s i b <| k_held ::= cons LBcache |>) (<[i := put_back b]> (k_bufs s))) e).
Proof.
  intros Ha Hb Hl. unfold brelse.
  assert (Hsl : sl_at (SBuf i) s = Some (mkSleeplock 1 pid)) by (simpl; by rewrite Hb, <- Hl).
  rewrite (bind_ok _ _ _ _ _ (holdingsleep_ok (SBuf i) s e _ pid (am_sleep s pid Ha i) Hsl (am_pid s pid Ha))).
  simpl sl_locked. simpl sl_pid. rewrite Z.eqb_refl. cbn [negb Z.eqb andb]. krun.
  rewrite (bind_ok _ _ _ _ _ (releasesleep_ok (SBuf i) s e _ (am_sleep s pid Ha i) Hsl (am_plocks s pid Ha) (am_table s pid Ha))).
  rewrite bind_acquire by apply Ha. unfold setb. krun. simpl wk. simpl wenv.
  match goal with |- context [mkW ?x e] => set (s1 := x) end.
  assert (E1 : s1 = bufs_are (unlocked_at s i b <| k_held ::= cons LBcache |>) (<[i := put_back b]> (k_bufs s))).
  { subst s1. unfold bufs_are, unlocked_at. kst_eq. rewrite alter_alter. by rewrite (alter_insert _ _ _ b Hb). }
  rewrite E1. unfold getb. krun. simpl k_bufs.
  rewrite list_lookup_insert_eq by (by eapply lookup_lt_Some). cbn [the]. krun. done.
Qed.

(** The state after brelse, up to the LRU links. *)
Lemma brelse_eq s e bn pid i b o1 o2 :
  bc_inv s -> amb s pid -> buf_of s bn i b -> b_lock b = mkSleeplock 1 pid -> lru_order s (o1 ++ i :: o2) ->
  exists bs', brelse i (mkW s e) = Ok tt (mkW (bufs_are (unlocked_at s i b) bs') e) /\
    core <$> bs' = core <$> <[i := put_back b]> (k_bufs s) /\
    ring (nxl bs') (pvl bs') HEAD (if b_refcnt b =? 1 then i :: o1 ++ o2 else o1 ++ i :: o2).
Proof.
  intros Hinv Ha (Hi & Hb & _ & _) Hl Ho. rewrite (brelse_run s e pid i b Ha Hb Hl).
  set (s1 := unlocked_at s i b <| k_held ::= cons LBcache |>). set (bs := <[i := put_back b]> (k_bufs s)).
  assert (Hr : ring (nxl bs) (pvl bs) HEAD (o1 ++ i :: o2)).
  { eapply ring_ext; [|exact (proj1 Ho)]. intros x _. by apply (links_insert s i b (put_back b) Hb). }
  assert (Hh : forall bs', release LBcache (mkW (bufs_are s1 bs') e) = Ok tt (mkW (bufs_are (unlocked_at s i b) bs') e)).
  { intros bs'. rewrite release_ok by (simpl; set_solver). kret. rewrite filter_cons_self; [done|apply Ha]. }
  assert (Hlen : length bs = S HEAD) by (unfold bs; rewrite length_insert; apply Hinv).
  rewrite (Z.eqb_sym (b_refcnt b) 1). destruct (Z.eqb_spec 1 (b_refcnt b)) as [<-|Hne].
  - destruct (lru_move_run s1 e i o1 o2 bs Hr Hlen) as (bs' & E & Hc & _ & Hr').
    { intros x. by apply (lru_lt s). }
    exists bs'. cbn [Z.pred Z.add Z.pos_sub Z.eqb]. rewrite bind_when_true, (bind_ok _ _ _ _ _ E), Hh. done.
  - exists bs. destruct (Z.eqb_spec (Z.pred (b_refcnt b)) 0); [lia|]. rewrite bind_when_false, Hh. done.
Qed.

Lemma buf_of_core s s' bn j c :
  core <$> k_bufs s' = core <$> k_bufs s -> buf_of s' bn j c -> exists c0, buf_of s bn j c0 /\ core c0 = core c.
Proof.
  intros E (Hj & Hc & Hd & Hn). destruct (core_lookup _ _ j c E Hc) as (c0 & Hc0 & Ec).
  exists c0. split; [|done]. injection Ec as _ E2 E3 _ _ _. split_and!; congruence.
Qed.

Lemma amb_woken s s' pid :
  amb s pid -> woken s s' -> k_cur s' = k_cur s -> k_held s' = k_held s -> amb s' pid.
Proof.
  intros [H1 H2 H3 H4 H5] Hw Hc Hh. split; unfold plocks_free, table_ok in *; rewrite ?Hh, ?Hc; try done.
  - by rewrite (woken_pid s s').
  - by rewrite <- (Forall2_length _ _ _ Hw).
Qed.

Lemma bc_inv_ext s s' : bc_inv s -> k_bufs s' = k_bufs s -> k_disk s' = k_disk s -> bc_inv s'.
Proof.
  intros [H1 H2 H3 H4 H5 H6 H7] Eb Ed. split; unfold nxt, prv in *; rewrite ?Eb, ?Ed; done.
Qed.

Lemma buf_of_ext s s' bn i b : k_bufs s' = k_bufs s -> buf_of s bn i b <-> buf_of s' bn i b.
Proof. intros E. unfold buf_of. by rewrite E. Qed.

Lemma unlocked_inv s bn i b :
  bc_inv s -> buf_of s bn i b -> 0 < b_refcnt b ->
  (b_refcnt b = 1 -> b_valid b <> 0 -> b_data b = dread (k_disk s) bn) -> bc_inv (unlocked_at s i b).
Proof.
  intros Hinv Hbo Hr Hclean. pose proof Hbo as (Hi & Hb & Hd & Hn).
  apply (bc_inv_ext (s <| k_bufs ::= <[i := put_back b]> |>)); [|done|done].
  apply (bc_update s i b (put_back b)); try done; simpl; [lia| |].
  - intros Hz. split; [done|]. intros Hv _. rewrite Hn. apply Hclean; [lia|done].
  - rewrite Hd. intros _ j c Hj Hne Hcj [Hdc Hnc]. apply Hne.
    eapply (buf_of_inj s bn j c i b); [done| |done]. split_and!; congruence.
Qed.

(** brelse: the buffer is unlocked with one reference less, and is the most
    recently used one when nobody refers to it any more. *)
Lemma brelse_spec s e bn pid i b o1 o2 :
  bc_inv s -> amb s pid -> buf_of s bn i b -> b_lock b = mkSleeplock 1 pid -> lru_order s (o1 ++ i :: o2) ->
  0 < b_refcnt b -> (b_refcnt b = 1 -> b_valid b <> 0 -> b_data b = dread (k_disk s) bn) ->
  exists s' b', brelse i (mkW s e) = Ok tt (mkW s' e) /\ bc_inv s' /\ amb s' pid /\ woken s s' /\
    buf_of s' bn i b' /\ b_lock b' = mkSleeplock 0 0 /\ b_refcnt b' = b_refcnt b - 1 /\
    b_valid b' = b_valid b /\ b_data b' = b_data b /\
    lru_order s' (if b_refcnt b =? 1 then i :: o1 ++ o2 else o1 ++ i :: o2) /\
    others s s' bn /\ s' = s <| k_bufs := k_bufs s' |> <| k_procs := k_procs s' |>.
Proof.
  intros Hinv Ha Hbo Hl Ho Hr Hclean. destruct (brelse_eq s e bn pid i b o1 o2 Hinv Ha Hbo Hl Ho) as (bs' & E & Hc & Hring).
  pose proof Hbo as (Hi & Hb & Hd & Hn). pose proof (bc_len s Hinv) as Hlen.
  set (s1 := unlocked_at s i b) in *. set (s' := bufs_are s1 bs') in *.
  assert (Hwk : woken s s') by apply wake_woken.
  assert (Hperm : (if b_refcnt b =? 1 then i :: o1 ++ o2 else o1 ++ i :: o2) ≡ₚ seq 0 HEAD).
  { rewrite <- (proj2 Ho). destruct (_ =? _); [|done]. by rewrite Permutation_middle. }
  assert (Hins : forall bn' j c, buf_of s1 bn' j c <->
    (j = i /\ c = put_back b /\ b_dev (put_back b) = ROOTDEV /\ b_blockno (put_back b) = bn') \/ (j <> i /\ buf_of s bn' j c)).
  { intros bn' j c. rewrite <- buf_of_insert by done. by apply buf_of_ext. }
  destruct (buf_of_core s' s1 bn i (put_back b)) as (b' & Hb' & Ec); [done|apply Hins; naive_solver|].
  exists s', b'. injection Ec as E1 _ _ E4 E5 E6. split_and!; try done; try (simpl in *; lia).
  - eapply (bc_relink s1 bs'); [by apply (unlocked_inv s bn)|exact Hc|exact Hring|exact Hperm].
  - by apply (amb_woken s s').
  - split.
    { intros bn' j c' Hne Hc'. destruct (buf_of_core s1 s' bn' j c') as (c & Hc1 & Ecc); [done..|].
      apply Hins in Hc1 as [(_ & -> & _ & Hn')|[_ Hc1]]; [|by exists c]. simpl in Hn'. congruence. }
    intros bn' j c Hne Hc1 _. destruct (buf_of_core s' s1 bn' j c) as (c' & Hc1' & Ecc); [done| |by exists c'].
    apply Hins. right. split; [|done]. intros ->. destruct Hc1 as (_ & Hc1 & _ & Hnc). congruence.
Qed.
