(* ===== verification/Cache.v ===== *)
(** What the buffer cache promises its clients.

    A client sees three functions of the block number: the contents ([view]),
    the number of references ([refs]) and the process that has the block's
    buffer locked ([owner]).  Each operation of bio.c acts on them at one block;
    which buffer caches a block, and which blocks are cached, stays hidden. *)

From stdpp Require Import functions.
From S2P Require Import Prelude Riscv State Sched Sleeplock Lru Bio Bcache.

(** The pid of the process that has the block's buffer locked. *)
Definition holder (lk : sleeplock) : option Z := if sl_locked lk =? 0 then None else Some (sl_pid lk).
Definition owner (s : kst) (bn : Z) : option Z :=
  match cached s bn with
  | Some (_, b) => holder (b_lock b)
  | None => None
  end.

(** Process [pid] has buffer [i], locked, for block [bn]. *)
Definition held (s : kst) (pid bn : Z) (i : nat) : Prop :=
  exists b, buf_of s bn i b /\ b_valid b <> 0 /\ b_lock b = mkSleeplock 1 pid /\ 0 < b_refcnt b.

(** What an operation of the cache leaves alone. *)
Record cstep (s s' : kst) : Prop := {
  cs_inv : bc_inv s';
  cs_woken : woken s s';
  cs_frame : s' = s <| k_bufs := k_bufs s' |> <| k_procs := k_procs s' |>
                    <| k_disk := k_disk s' |> <| k_power := k_power s' |>;
}.

Lemma owner_cached s bn i b : bc_inv s -> buf_of s bn i b -> owner s bn = holder (b_lock b).
Proof. intros Hinv Hb. unfold owner. by rewrite (cached_some s bn i b). Qed.

Lemma owner_uncached s bn : (forall i b, ~ buf_of s bn i b) -> owner s bn = None.
Proof. intros Hn. unfold owner. by rewrite cached_none. Qed.

Lemma others_owner s s' bn bn' :
  bc_inv s -> bc_inv s' -> others s s' bn -> bn' <> bn -> owner s' bn' = owner s bn'.
Proof.
  intros Hinv Hinv' [Ho1 Ho2] Hne. destruct (cached_dec s' bn') as [(j & c & Hc)|Hno].
  - destruct (Ho1 bn' j c Hne Hc) as (c0 & Hc0 & Ec). injection Ec as _ _ _ E1 _ _.
    by rewrite (owner_cached s' bn' j c Hinv' Hc), (owner_cached s bn' j c0 Hinv Hc0), E1.
  - rewrite (owner_uncached s' bn' Hno). destruct (cached_dec s bn') as [(j & c & Hc)|Hno'].
    + rewrite (owner_cached s bn' j c Hinv Hc). destruct (decide (b_refcnt c = 0)) as [Hz|Hr].
      * unfold holder. rewrite (bc_lock s Hinv j c); [done|apply Hc|apply Hc|done].
      * destruct (Ho2 bn' j c Hne Hc Hr) as (c' & Hc' & _). by destruct (Hno j c').
    + by rewrite owner_uncached.
Qed.

Lemma others_held s s' bn pid bn' i : others s s' bn -> bn' <> bn -> held s pid bn' i -> held s' pid bn' i.
Proof.
  intros [_ Ho] Hne (b & Hb & Hv & Hl & Hr). destruct (Ho bn' i b Hne Hb ltac:(lia)) as (b' & Hb' & Ec).
  injection Ec as E1 _ _ E4 E5 _. exists b'. split_and!; [done|congruence|congruence|lia].
Qed.

(** What the cache looks like after an operation on the buffer of [bn]. *)
Record cupd (s s' : kst) (bn : Z) (v : block) (r : Z) (o : option Z) : Prop := {
  cu_view : forall x, view s' x = <[bn := v]> (view s) x;
  cu_refs : forall x, refs s' x = <[bn := r]> (refs s) x;
  cu_owner : forall x, owner s' x = <[bn := o]> (owner s) x;
  cu_held : forall pid x i, x <> bn -> held s pid x i -> held s' pid x i;
}.

Lemma cupd_intro s s' bn i b v :
  bc_inv s -> bc_inv s' -> others s s' bn ->
  (forall x, x <> bn -> dread (k_disk s') x = dread (k_disk s) x) ->
  buf_of s' bn i b -> (if b_valid b =? 0 then dread (k_disk s') bn else b_data b) = v ->
  cupd s s' bn v (b_refcnt b) (holder (b_lock b)).
Proof.
  intros Hinv Hinv' Ho Hd Hb Hv. split; [intros x..|].
  1-3: destruct (decide (bn = x)) as [<-|Hne];
    [rewrite fn_lookup_insert | rewrite fn_lookup_insert_ne by done].
  - by rewrite (view_cached s' bn i b).
  - apply (others_view s s' bn); auto.
  - by apply (refs_cached s' bn i b).
  - by apply (others_refs s s' bn).
  - by apply (owner_cached s' bn i b).
  - by apply (others_owner s s' bn).
  - intros pid x j Hne. by apply (others_held s s' bn).
Qed.

(** A block nobody refers to is as it is on disk. *)
Lemma clean_view s bn : bc_inv s -> refs s bn = 0 -> view s bn = dread (k_disk s) bn.
Proof.
  intros Hinv Hr. destruct (cached_dec s bn) as [(i & b & Hb)|Hno]; [|by apply view_uncached].
  rewrite (refs_cached s bn i b Hinv Hb) in Hr. rewrite (view_cached s bn i b Hinv Hb).
  destruct (Z.eqb_spec (b_valid b) 0) as [|Hv]; [done|]. destruct Hb as (Hi & Hbl & Hd & <-).
  by apply (bc_clean s Hinv i).
Qed.

(** * Room in the cache *)

Definition unused (s : kst) : Prop := exists i b, (i < HEAD)%nat /\ k_bufs s !! i = Some b /\ b_refcnt b = 0.

(** There is an unused buffer when fewer than NBUF blocks are referred to. *)
Lemma room_set s (R : gset Z) :
  bc_inv s -> (forall x, refs s x <> 0 -> x ∈ R) -> (size R < HEAD)%nat -> unused s.
Proof.
  intros Hinv HR Hsz. pose proof (bc_len s Hinv) as Hlen.
  destruct (decide (Exists (fun b => b_refcnt b = 0) (take HEAD (k_bufs s)))) as [Hex|Hno].
  { apply Exists_exists in Hex as (b & Hb & Hz). apply list_elem_of_lookup in Hb as [i Hb].
    apply lookup_take_Some in Hb as [Hb Hi]. by exists i, b. }
  exfalso. apply not_Exists_Forall in Hno; [|apply _]. rewrite Forall_lookup in Hno.
  assert (Hlk : forall i b, take HEAD (k_bufs s) !! i = Some b -> buf_of s (b_blockno b) i b /\ b_refcnt b <> 0).
  { intros i b Hb. pose proof (Hno i b Hb) as Hz. apply lookup_take_Some in Hb as [Hb Hi].
    split; [|done]. split_and!; [done..| |done]. by apply (bc_dev s Hinv i). }
  assert (Hnd : NoDup (b_blockno <$> take HEAD (k_bufs s))).
  { apply NoDup_alt. intros i j bn. rewrite !list_lookup_fmap. intros Hi Hj.
    destruct (take HEAD (k_bufs s) !! i) as [bi|] eqn:Ei; [|done].
    destruct (take HEAD (k_bufs s) !! j) as [bj|] eqn:Ej; [|done]. simpl in *.
    injection Hi as Hi. injection Hj as Hj. apply Hlk in Ei as [Ei _]. apply Hlk in Ej as [Ej _].
    rewrite Hj, <- Hi in Ej.
    by eapply (buf_of_inj s _ i bi j bj). }
  assert (Hsub : list_to_set (b_blockno <$> take HEAD (k_bufs s)) ⊆ R).
  { intros bn Hbn. apply elem_of_list_to_set, list_elem_of_fmap in Hbn as (b & -> & Hb).
    apply list_elem_of_lookup in Hb as [i Hb]. apply Hlk in Hb as [Hb Hz]. apply HR.
    by rewrite (refs_cached s _ i b). }
  apply subseteq_size in Hsub. rewrite size_list_to_set in Hsub by done.
  rewrite length_fmap, length_take in Hsub. lia.
Qed.

Lemma available_intro s bn :
  bc_inv s -> owner s bn = None -> refs s bn <> 0 \/ unused s -> available s bn.
Proof.
  intros Hinv Ho Hr. split.
  - intros i b Hb. rewrite (owner_cached s bn i b Hinv Hb) in Ho. unfold holder in Ho.
    by destruct (Z.eqb_spec (sl_locked (b_lock b)) 0).
  - destruct Hr as [Hr|Hu]; [|by right]. left. destruct (cached_dec s bn) as [?|Hno]; [done|].
    by rewrite (refs_uncached s bn Hno) in Hr.
Qed.

(** * The operations *)

(** bread *)
Lemma cache_read s e bn pid :
  bc_inv s -> amb s pid -> owner s bn = None -> refs s bn <> 0 \/ unused s ->
  exists i s', bread ROOTDEV bn (mkW s e) = Ok i (mkW s' e) /\ cstep s s' /\ amb s' pid /\
    cupd s s' bn (view s bn) (refs s bn + 1) (Some pid) /\ held s' pid bn i /\
    k_disk s' = k_disk s /\ k_power s' = k_power s.
Proof.
  intros Hinv Ha Ho Hr. destruct (bread_spec s e bn pid Hinv Ha (available_intro s bn Hinv Ho Hr))
    as (i & b & s' & E & Hinv' & Ha' & Hb & Hv & Hl & Hd & Hrc & Hot & Es).
  assert (Hdk : k_disk s' = k_disk s) by (by rewrite Es). assert (Hpw : k_power s' = k_power s) by (by rewrite Es).
  exists i, s'. split_and!; try done.
  - split; [done|rewrite Es; apply (woken_refl s)|]. rewrite Es. kst_eq.
  - rewrite <- Hrc. replace (Some pid) with (holder (b_lock b)) by (by rewrite Hl).
    apply (cupd_intro s s' bn i b); try done; [by rewrite Hdk|].
    by destruct (Z.eqb_spec (b_valid b) 0).
  - exists b. pose proof (refs_nonneg s bn Hinv). split_and!; try done. lia.
Qed.

(** brelse *)
Lemma cache_release s e bn pid i :
  bc_inv s -> amb s pid -> held s pid bn i -> (refs s bn = 1 -> view s bn = dread (k_disk s) bn) ->
  exists s', brelse i (mkW s e) = Ok tt (mkW s' e) /\ cstep s s' /\ amb s' pid /\
    cupd s s' bn (view s bn) (refs s bn - 1) None /\ k_disk s' = k_disk s /\ k_power s' = k_power s.
Proof.
  intros Hinv Ha (b & Hb & Hv & Hl & Hr) Hc.
  rewrite (view_cached s bn i b Hinv Hb), (refs_cached s bn i b Hinv Hb) in *.
  destruct (Z.eqb_spec (b_valid b) 0) as [|_]; [done|].
  destruct (bc_lru s Hinv) as (ord & Hord). pose proof Hb as (Hi & _).
  assert (Hin : i ∈ ord) by (by apply (lru_lt s ord i Hord)).
  apply list_elem_of_split in Hin as (o1 & o2 & ->).
  destruct (brelse_spec s e bn pid i b o1 o2 Hinv Ha Hb Hl Hord Hr ltac:(auto))
    as (s' & b' & E & Hinv' & Ha' & Hw & Hb' & Hl' & Hr' & Hv' & Hd' & _ & Hot & Es).
  assert (Hdk : k_disk s' = k_disk s) by (by rewrite Es). assert (Hpw : k_power s' = k_power s) by (by rewrite Es).
  exists s'. split_and!; try done.
  - split; [done|done|]. rewrite Es. kst_eq.
  - rewrite <- Hr', <- Hd'. replace None with (holder (b_lock b')) by (by rewrite Hl').
    apply (cupd_intro s s' bn i b'); try done; [by rewrite Hdk|].
    rewrite Hv'. by destruct (Z.eqb_spec (b_valid b) 0).
Qed.

(** Updating a buffer in use, whichever way, without moving it. *)
Lemma buf_upd s i b b' bn :
  bc_inv s -> buf_of s bn i b -> b_next b' = b_next b -> b_prev b' = b_prev b -> b_dev b' = ROOTDEV ->
  b_blockno b' = bn -> 0 < b_refcnt b' ->
  let s' := s <| k_bufs ::= <[i := b']> |> in
  bc_inv s' /\ others s s' bn /\ buf_of s' bn i b'.
Proof.
  intros Hinv Hb En Ep Hd Hn Hr s'. pose proof Hb as (Hi & Hbl & Hdb & Hnb). pose proof (bc_len s Hinv) as Hlen.
  split_and!; [|split|].
  - apply (bc_update s i b b'); try done; [lia|lia|]. intros _ j c Hj Hne Hc [Hdc Hnc]. apply Hne.
    eapply (buf_of_inj s bn j c i b); [done| |done]. split_and!; congruence.
  - intros bn' j c Hne Hbc. apply buf_of_insert in Hbc as [(_ & _ & _ & ?)|[_ ?]]; [congruence|eauto|done|done].
  - intros bn' j c Hne Hbc _. exists c. split; [|done]. apply buf_of_insert; [done|done|]. right.
    split; [|done]. intros ->. destruct Hbc as (_ & Hbc & _ & Hnc). congruence.
  - apply buf_of_insert; [done|done|]. by left.
Qed.

Lemma cstep_bufs s g : bc_inv (s <| k_bufs ::= g |>) -> cstep s (s <| k_bufs ::= g |>).
Proof. intros H. split; [done|apply (woken_refl s)|kst_eq]. Qed.

(** Storing into the data of a locked buffer. *)
Lemma cache_store s e bn pid i f :
  bc_inv s -> amb s pid -> held s pid bn i ->
  exists s', setb i (fun b => b <| b_data ::= f |>) (mkW s e) = Ok tt (mkW s' e) /\ cstep s s' /\ amb s' pid /\
    cupd s s' bn (f (view s bn)) (refs s bn) (Some pid) /\ held s' pid bn i /\
    k_disk s' = k_disk s /\ k_power s' = k_power s.
Proof.
  intros Hinv Ha (b & Hb & Hv & Hl & Hr). pose proof Hb as (Hi & Hbl & Hd & Hn).
  set (b' := b <| b_data ::= f |>).
  destruct (buf_upd s i b b' bn) as (Hinv' & Hot & Hb'); [done..|].
  eexists. split; [by apply (setb_insert i _ s e b)|]. split_and!; [by apply cstep_bufs|by apply amb_bufs| |by exists b'|done|done].
  rewrite (refs_cached s bn i b Hinv Hb). replace (Some pid) with (holder (b_lock b')) by (simpl; by rewrite Hl).
  apply (cupd_intro s _ bn i b'); try done. rewrite (view_cached s bn i b Hinv Hb). simpl.
  by destruct (Z.eqb_spec (b_valid b) 0).
Qed.

(** bpin and bunpin: one reference more or less, whoever has the lock. *)
Lemma cache_ref s e bn pid i b (f : Z -> Z) :
  bc_inv s -> amb s pid -> buf_of s bn i b -> 0 < f (b_refcnt b) ->
  exists s', (acquire LBcache;; setb i (fun x => x <| b_refcnt ::= f |>);; release LBcache) (mkW s e) = Ok tt (mkW s' e) /\
    cstep s s' /\ amb s' pid /\ cupd s s' bn (view s bn) (f (refs s bn)) (owner s bn) /\
    (forall q, held s q bn i -> held s' q bn i) /\ k_disk s' = k_disk s /\ k_power s' = k_power s.
Proof.
  intros Hinv Ha Hb Hf. pose proof Hb as (Hi & Hbl & Hd & Hn). set (b' := b <| b_refcnt ::= f |>).
  destruct (buf_upd s i b b' bn) as (Hinv' & Hot & Hb'); [done..|].
  eexists. split.
  { rewrite bind_acquire by apply Ha. simpl wk. simpl wenv.
    erewrite (bind_ok (setb _ _)); [|apply (setb_insert i _ _ e b); exact Hbl].
    rewrite release_ok by (simpl; set_solver). reflexivity. }
  match goal with |- cstep s ?x /\ _ => assert (Es : x = s <| k_bufs ::= <[i := b']> |>) end.
  { kst_eq. rewrite filter_cons_self; [done|apply Ha]. }
  rewrite Es. split_and!; [by apply cstep_bufs|by apply amb_bufs| | |done|done].
  - rewrite (refs_cached s bn i b Hinv Hb), (owner_cached s bn i b Hinv Hb).
    apply (cupd_intro s _ bn i b'); try done. by rewrite (view_cached s bn i b Hinv Hb).
  - intros q (b0 & Hb0 & Hv0 & Hl0 & Hr0). destruct (buf_of_inj s bn i b i b0 Hinv Hb Hb0) as [_ <-].
    exists b'. split_and!; done.
Qed.

(** bwrite: the block goes to disk, or power fails and the disk stays. *)
Definition written (s : kst) (bn : Z) : kst :=
  s <| k_power := pred <$> k_power s |> <| k_disk ::= <[bn := view s bn]> |>.

Lemma cache_write s e bn pid i :
  bc_inv s -> amb s pid -> held s pid bn i ->
  bwrite i (mkW s e) = (if decide (k_power s = Some 0%nat) then Crash (k_disk s) else Ok tt (mkW (written s bn) e)) /\
  cstep s (written s bn) /\ amb (written s bn) pid /\
  cupd s (written s bn) bn (view s bn) (refs s bn) (Some pid) /\ held (written s bn) pid bn i.
Proof.
  intros Hinv Ha (b & Hb & Hv & Hl & Hr). pose proof Hb as (Hi & Hbl & Hd & Hn).
  assert (Hview : view s bn = b_data b).
  { rewrite (view_cached s bn i b Hinv Hb). by destruct (Z.eqb_spec (b_valid b) 0). }
  assert (Hinv' : bc_inv (written s bn)).
  { destruct Hinv as [H1 H2 H3 H4 H5 H6 H7]. split; try done. intros j c Hj Hc Hz Hvc Hdc. simpl.
    unfold dread. rewrite lookup_insert_ne; [by apply (H5 j c)|]. intros E.
    assert (i = j) as <- by (apply (H3 i j b c); rewrite ?Hd; (done || congruence)). simpl in Hc. rewrite Hbl in Hc. injection Hc as <-. lia. }
  split_and!.
  - unfold bwrite.
    assert (Hsl : sl_at (SBuf i) s = Some (mkSleeplock 1 pid)) by (simpl; by rewrite Hbl, <- Hl).
    rewrite (bind_ok _ _ _ _ _ (holdingsleep_ok (SBuf i) s e _ pid (am_sleep s pid Ha i) Hsl (am_pid s pid Ha))).
    simpl sl_locked. simpl sl_pid. rewrite Z.eqb_refl. cbn [negb Z.eqb andb]. krun.
    unfold virtio_disk_rw, written. rewrite (bind_ok _ _ _ _ _ (getb_ok i s e b Hbl)), Hview, Hn.
    unfold disk_write. simpl wk. case_decide as D; [by rewrite D|]. by destruct (k_power s) as [[|n]|].
  - split; [done|apply (woken_refl s)|kst_eq].
  - destruct Ha. by split.
  - rewrite (refs_cached s bn i b Hinv Hb). replace (Some pid) with (holder (b_lock b)) by (by rewrite Hl).
    apply (cupd_intro s _ bn i b); try done.
    + split; intros bn' j c Hne Hc; [by exists c|intros _; by exists c].
    + intros x Hx. unfold dread. simpl. by rewrite lookup_insert_ne.
    + rewrite Hview. by destruct (Z.eqb_spec (b_valid b) 0).
  - by exists b.
Qed.

(** * The cache at boot *)

(** The buffers after binit: linked in descending order. *)
Definition boot_buf (d : block) (i : nat) : buf :=
  mkBuf 0 0 0 0 zero_sleeplock 0
    (if (i =? HEAD)%nat then 0 else S i) (match i with O => HEAD | S j => j end) d.
Definition boot_bufs (d : block) : list buf := map (boot_buf d) (seq 0 (S HEAD)).

Lemma binit_eq s e d :
  k_bufs s = replicate (S HEAD) (mkBuf 0 0 0 0 zero_sleeplock 0 0 0 d) ->
  binit (mkW s e) = Ok tt (mkW (s <| k_bufs := boot_bufs d |>) e).
Proof. destruct s. simpl. intros ->. vm_compute. reflexivity. Qed.

Lemma boot_lookup d i b : boot_bufs d !! i = Some b -> b = boot_buf d i.
Proof.
  unfold boot_bufs. rewrite list_lookup_fmap. intros H. destruct (seq 0 (S HEAD) !! i) eqn:E; [|done].
  apply lookup_seq in E as [-> _]. by simplify_eq/=.
Qed.

Lemma boot_inv s d : k_bufs s = boot_bufs d -> bc_inv s.
Proof.
  intros E. split; rewrite ?E.
  - done.
  - exists (rev (seq 0 HEAD)). split; [|symmetry; apply Permutation_rev].
    apply (ring_ext (nxl (boot_bufs d)) (pvl (boot_bufs d))); [unfold nxt, prv; by rewrite E|].
    split; [|vm_compute; repeat split].
    apply (bool_decide_unpack (NoDup (HEAD :: rev (seq 0 HEAD)))). by vm_compute.
  - intros i j bi bj _ _ Hi _ _ Hd. by rewrite (boot_lookup d i bi Hi) in Hd.
  - intros i b _ Hi. by rewrite (boot_lookup d i b Hi).
  - intros i b _ Hi _ Hv. by rewrite (boot_lookup d i b Hi) in Hv.
  - intros i b _ Hi Hr. by rewrite (boot_lookup d i b Hi) in Hr.
  - intros i b _ Hi _. by rewrite (boot_lookup d i b Hi).
Qed.

(** * Properties *)

(** bget returns the buffer that caches the block, with one more reference
    and locked; if the block is not cached it recycles the least recently used
    buffer nobody refers to; and it panics exactly when there is no such
    buffer. *)
Theorem bget_exact s e bn pid ord :
  bc_inv s -> amb s pid -> lru_order s ord -> owner s bn = None ->
  (exists i b, buf_of s bn i b /\
     bget ROOTDEV bn (mkW s e) = Ok i (mkW (s <| k_bufs ::= <[i := got b pid]> |>) e)) \/
  (exists o1 i o2 b, (forall i b, ~ buf_of s bn i b) /\ ord = o1 ++ i :: o2 /\
     k_bufs s !! i = Some b /\ b_refcnt b = 0 /\
     (forall j c, j ∈ o2 -> k_bufs s !! j = Some c -> b_refcnt c <> 0) /\
     bget ROOTDEV bn (mkW s e) = Ok i (mkW (s <| k_bufs ::= <[i := recycled b bn pid]> |>) e)) \/
  ((forall i b, ~ buf_of s bn i b) /\
   (forall i b, (i < HEAD)%nat -> k_bufs s !! i = Some b -> b_refcnt b <> 0) /\
   bget ROOTDEV bn (mkW s e) = Panic "bget: no buffers").
Proof.
  intros Hinv Ha Ho Hown. destruct (cached_dec s bn) as [(i & b & Hb)|Hno].
  - left. exists i, b. split; [done|]. apply bget_hit; try done. rewrite (owner_cached s bn i b Hinv Hb) in Hown.
    unfold holder in Hown. by destruct (Z.eqb_spec (sl_locked (b_lock b)) 0).
  - right. destruct (decide (Exists (fun b => b_refcnt b = 0) (take HEAD (k_bufs s)))) as [Hex|Hall].
    + left. apply Exists_exists in Hex as (b & Hb & Hz). apply list_elem_of_lookup in Hb as [i Hb].
      apply lookup_take_Some in Hb as [Hb Hi].
      destruct (bget_miss s e bn pid ord Hinv Ha Hno Ho ltac:(by exists i, b)) as (o1 & j & o2 & c & H).
      by exists o1, j, o2, c.
    + right. assert (Hu : forall i b, (i < HEAD)%nat -> k_bufs s !! i = Some b -> b_refcnt b <> 0).
      { intros i b Hi Hb Hz. apply Hall. apply Exists_exists. exists b. split; [|done].
        apply list_elem_of_lookup. exists i. by rewrite lookup_take_lt. }
      split_and!; [done..|]. by apply (bget_full s e bn pid).
Qed.

Definition demo_cache : kst := demo_sched <| k_bufs := boot_bufs zero_block |>.

Lemma demo_cache_inv : bc_inv demo_cache.
Proof. by apply (boot_inv demo_cache zero_block). Qed.

Lemma demo_cache_amb : amb demo_cache 0.
Proof. split; try (intros; apply not_elem_of_nil); try reflexivity. intros i Hi. by apply elem_of_nil in Hi. Qed.

Lemma bget_exact_witness :
  exists i s', bget ROOTDEV 33 (mkW demo_cache []) = Ok i (mkW s' []).
Proof.
  destruct (bc_lru demo_cache demo_cache_inv) as (ord & Ho).
  destruct (bget_exact demo_cache [] 33 0 ord demo_cache_inv demo_cache_amb Ho)
    as [(i & b & _ & E)|[(o1 & i & o2 & b & _ & _ & _ & _ & _ & E)|(_ & Hall & _)]]; [vm_compute; reflexivity|eauto|eauto|].
  exfalso. apply (Hall 0%nat (boot_buf zero_block 0)); [apply Nat.ltb_lt; reflexivity|vm_compute; reflexivity|reflexivity].
Defined.

(** C21: bread hands the caller the block's buffer, locked, with the contents
    the kernel last gave the block; no other block's contents, references or
    lock change, and buffers other processes hold stay where they are. *)
Theorem bread_exact s e bn pid :
  bc_inv s -> amb s pid -> owner s bn = None -> refs s bn <> 0 \/ unused s ->
  exists i s', bread ROOTDEV bn (mkW s e) = Ok i (mkW s' e) /\ cstep s s' /\
    cupd s s' bn (view s bn) (refs s bn + 1) (Some pid) /\ held s' pid bn i /\
    (exists b, k_bufs s' !! i = Some b /\ b_data b = view s bn) /\ k_disk s' = k_disk s.
Proof.
  intros Hinv Ha Ho Hr. destruct (cache_read s e bn pid Hinv Ha Ho Hr) as (i & s' & E & Hc & _ & Hu & Hh & Hd & _).
  exists i, s'. split_and!; try done. pose proof Hh as (b & Hb & Hv & _). exists b. split; [apply Hb|].
  pose proof (cu_view _ _ _ _ _ _ Hu bn) as Hw. rewrite fn_lookup_insert in Hw.
  rewrite (view_cached s' bn i b (cs_inv _ _ Hc) Hb) in Hw. by destruct (Z.eqb_spec (b_valid b) 0).
Qed.

Lemma bread_exact_witness : exists i s', bread ROOTDEV 33 (mkW demo_cache []) = Ok i (mkW s' []).
Proof.
  destruct (bread_exact demo_cache [] 33 0 demo_cache_inv demo_cache_amb) as (i & s' & E & _);
    [vm_compute; reflexivity|right; exists 0%nat, (boot_buf zero_block 0)|eauto].
  split; [apply Nat.ltb_lt; reflexivity|split; reflexivity].
Defined.

(** brelse by the process that has the buffer unlocks it and drops one
    reference, wakes waiters, and keeps every block's contents.  With the last
    reference gone the buffer is the most recently used one; otherwise the LRU
    order stays. *)
Theorem brelse_exact s e bn pid i b o1 o2 :
  bc_inv s -> amb s pid -> held s pid bn i -> k_bufs s !! i = Some b -> lru_order s (o1 ++ i :: o2) ->
  (b_refcnt b = 1 -> view s bn = dread (k_disk s) bn) ->
  exists s', brelse i (mkW s e) = Ok tt (mkW s' e) /\ cstep s s' /\
    cupd s s' bn (view s bn) (refs s bn - 1) None /\ k_disk s' = k_disk s /\
    lru_order s' (if b_refcnt b =? 1 then i :: o1 ++ o2 else o1 ++ i :: o2).
Proof.
  intros Hinv Ha Hh Hbl Ho Hc. destruct (Hh) as (b0 & Hb & Hv & Hl & Hr). pose proof Hb as (_ & Hb0 & _).
  rewrite Hbl in Hb0. injection Hb0 as <-. rewrite (view_cached s bn i b Hinv Hb) in Hc.
  destruct (Z.eqb_spec (b_valid b) 0) as [|_]; [done|].
  destruct (brelse_spec s e bn pid i b o1 o2 Hinv Ha Hb Hl Ho Hr ltac:(auto))
    as (s1 & b1 & E1 & _ & _ & _ & _ & _ & _ & _ & _ & Ho1 & _ & _).
  destruct (cache_release s e bn pid i Hinv Ha Hh) as (s' & E & Hst & _ & Hu & Hd & _).
  { rewrite (refs_cached s bn i b Hinv Hb), (view_cached s bn i b Hinv Hb).
    by destruct (Z.eqb_spec (b_valid b) 0). }
  rewrite E in E1. injection E1 as <-. by exists s'.
Qed.

Lemma brelse_exact_witness :
  exists i s s', bread ROOTDEV 33 (mkW demo_cache []) = Ok i (mkW s []) /\ brelse i (mkW s []) = Ok tt (mkW s' []).
Proof.
  destruct (cache_read demo_cache [] 33 0 demo_cache_inv demo_cache_amb) as (i & s & E & Hst & Ha & Hu & Hh & Hd & _);
    [vm_compute; reflexivity|right; exists 0%nat, (boot_buf zero_block 0);
     split; [apply Nat.ltb_lt; reflexivity|split; reflexivity]|].
  pose proof (cs_inv _ _ Hst) as Hinv. pose proof Hh as (b & (Hi & Hb & _) & _).
  destruct (bc_lru s Hinv) as (ord & Ho). assert (Hin : i ∈ ord) by (apply (lru_lt s ord i Ho); exact Hi).
  apply list_elem_of_split in Hin as (o1 & o2 & ->).
  destruct (brelse_exact s [] 33 0 i b o1 o2 Hinv Ha Hh Hb Ho) as (s' & E' & _); [|eauto].
  intros _. rewrite (cu_view _ _ _ _ _ _ Hu), fn_lookup_insert, Hd. apply (clean_view demo_cache); [exact demo_cache_inv|].
  vm_compute. reflexivity.
Defined.

(** bwrite by the process that has the buffer puts exactly its contents on
    disk at its block, or, if power fails first, leaves the disk as it was; the
    contents of no block as the kernel sees it change. *)
Theorem bwrite_exact s e bn pid i :
  bc_inv s -> amb s pid -> held s pid bn i ->
  match bwrite i (mkW s e) with
  | Ok _ w => k_power s <> Some 0%nat /\ k_disk (wk w) = <[bn := view s bn]> (k_disk s) /\
      bc_inv (wk w) /\ held (wk w) pid bn i /\ forall x, view (wk w) x = view s x
  | Crash d => k_power s = Some 0%nat /\ d = k_disk s
  | _ => False
  end.
Proof.
  intros Hinv Ha Hh. destruct (cache_write s e bn pid i Hinv Ha Hh) as (-> & Hst & _ & Hu & Hh').
  case_decide; [done|]. simpl. split_and!; try done; [apply Hst|]. intros x. rewrite (cu_view _ _ _ _ _ _ Hu).
  destruct (decide (bn = x)) as [<-|]; [by rewrite fn_lookup_insert|by rewrite fn_lookup_insert_ne].
Qed.

Lemma bwrite_exact_witness :
  exists i s s', bread ROOTDEV 33 (mkW demo_cache []) = Ok i (mkW s []) /\ bwrite i (mkW s []) = Ok tt (mkW s' []) /\
    k_disk s' = <[33 := view s 33]> (k_disk s).
Proof.
  destruct (cache_read demo_cache [] 33 0 demo_cache_inv demo_cache_amb) as (i & s & E & Hst & Ha & Hu & Hh & Hd & Hp);
    [vm_compute; reflexivity|right; exists 0%nat, (boot_buf zero_block 0);
     split; [apply Nat.ltb_lt; reflexivity|split; reflexivity]|].
  exists i, s. pose proof (bwrite_exact s [] 33 0 i (cs_inv _ _ Hst) Ha Hh) as H.
  destruct (cache_write s [] 33 0 i (cs_inv _ _ Hst) Ha Hh) as (Ew & _). rewrite Ew in H |- *.
  rewrite decide_False in * by (rewrite Hp; discriminate). destruct H as (_ & H & _). eauto.
Defined.
