(* ===== verification/CacheOps.v ===== *)
(** Sequences of buffer cache operations, in terms of the contract of Cache.v:
    the state of the cache is the contents, references and lock of each block
    and the disk, and each operation updates them at one block. *)

From stdpp Require Import functions.
From S2P Require Import Prelude Riscv State Sched Sleeplock Lru Bio Bcache Cache.

(** The cache as its clients see it. *)
Record cst (s : kst) (pid : Z) (V : Z -> block) (R : Z -> Z) (O : Z -> option Z) (d : disk) : Prop := {
  c_inv : bc_inv s;
  c_amb : amb s pid;
  c_view : forall x, view s x = V x;
  c_refs : forall x, refs s x = R x;
  c_owner : forall x, owner s x = O x;
  c_disk : k_disk s = d;
}.


Lemma cstep_refl s : bc_inv s -> cstep s s.
Proof. intros H. split; [done|reflexivity|kst_eq]. Qed.

Lemma cstep_trans s1 s2 s3 : cstep s1 s2 -> cstep s2 s3 -> cstep s1 s3.
Proof.
  intros [_ Hw1 E1] [Hi Hw2 E2]. split; [done|by etrans|]. rewrite E2. rewrite E1. kst_eq.
Qed.

Lemma cst_ext s pid V R O d V' R' O' :
  cst s pid V R O d -> (forall x, V x = V' x) -> (forall x, R x = R' x) -> (forall x, O x = O' x) ->
  cst s pid V' R' O' d.
Proof. intros [] HV HR HO. split; try done; intros x; by rewrite <- ?HV, <- ?HR, <- ?HO. Qed.

Lemma cst_upd s s' pid bn v r o V R O d d' :
  cst s pid V R O d -> cstep s s' -> amb s' pid -> cupd s s' bn v r o -> k_disk s' = d' ->
  cst s' pid (<[bn := v]> V) (<[bn := r]> R) (<[bn := o]> O) d'.
Proof.
  intros [Hi Ha HV HR HO Hd] Hst Ha' [Hv Hr Ho Hh] Hd'. split; try done; [apply Hst|intros x..].
  - rewrite Hv. destruct (decide (bn = x)) as [<-|]; [by rewrite !fn_lookup_insert|]. by rewrite !fn_lookup_insert_ne.
  - rewrite Hr. destruct (decide (bn = x)) as [<-|]; [by rewrite !fn_lookup_insert|]. by rewrite !fn_lookup_insert_ne.
  - rewrite Ho. destruct (decide (bn = x)) as [<-|]; [by rewrite !fn_lookup_insert|]. by rewrite !fn_lookup_insert_ne.
Qed.

Lemma fn_insert_same {A} (f : Z -> A) k x : <[k := f k]> f x = f x.
Proof. destruct (decide (k = x)) as [<-|]; [by rewrite fn_lookup_insert|by rewrite fn_lookup_insert_ne]. Qed.

(** The blocks referred to fit in the cache. *)
Definition fits (R : Z -> Z) (U : gset Z) : Prop := (forall x, R x <> 0 -> x ∈ U) /\ (size U <= HEAD)%nat.

Lemma room s pid V R O d U bn :
  cst s pid V R O d -> fits R U -> bn ∈ U -> refs s bn <> 0 \/ unused s.
Proof.
  intros Hc [HU Hsz] Hbn. destruct (decide (refs s bn = 0)) as [Hz|]; [|by left]. right.
  apply (room_set s (U ∖ {[bn]})); [apply Hc| |].
  - intros x Hx. assert (x ≠ bn) by congruence. rewrite (c_refs _ _ _ _ _ _ Hc) in Hx. apply HU in Hx. set_solver.
  - assert (E : U = {[bn]} ∪ U ∖ {[bn]}) by (apply union_difference_L; set_solver).
    rewrite E, size_union, size_singleton in Hsz by set_solver. lia.
Qed.

(** * One operation *)

Section ops.
Context {pid : Z} {V : Z -> block} {R : Z -> Z} {O : Z -> option Z} {d : disk}.

Lemma do_read s e bn U :
  cst s pid V R O d -> O bn = None -> fits R U -> bn ∈ U ->
  exists i s', bread ROOTDEV bn (mkW s e) = Ok i (mkW s' e) /\ cstep s s' /\
    cst s' pid V (<[bn := R bn + 1]> R) (<[bn := Some pid]> O) d /\ held s' pid bn i /\
    (forall x j, x <> bn -> held s pid x j -> held s' pid x j) /\ k_power s' = k_power s.
Proof.
  intros Hc Ho HU Hbn. pose proof Hc as [Hinv Ha HV HR HO Hd].
  destruct (cache_read s e bn pid Hinv Ha) as (i & s' & E & Hst & Ha' & Hu & Hh & Hd' & Hp).
  { by rewrite HO. } { by apply (room s pid V R O d U). }
  exists i, s'. split_and!; try done; [|apply Hu].
  eapply cst_ext; [eapply (cst_upd s s'); [exact Hc|exact Hst|exact Ha'|exact Hu|congruence]| |by rewrite HR|done].
  intros x. rewrite HV. apply fn_insert_same.
Qed.

Lemma do_release s e bn i :
  cst s pid V R O d -> held s pid bn i -> (R bn = 1 -> V bn = dread d bn) ->
  exists s', brelse i (mkW s e) = Ok tt (mkW s' e) /\ cstep s s' /\
    cst s' pid V (<[bn := R bn - 1]> R) (<[bn := None]> O) d /\
    (forall x j, x <> bn -> held s pid x j -> held s' pid x j) /\ k_power s' = k_power s.
Proof.
  intros Hc Hh Hcl. pose proof Hc as [Hinv Ha HV HR HO Hd].
  destruct (cache_release s e bn pid i Hinv Ha Hh) as (s' & E & Hst & Ha' & Hu & Hd' & Hp).
  { rewrite HR, HV, Hd. done. }
  exists s'. split_and!; try done; [|apply Hu].
  eapply cst_ext; [eapply (cst_upd s s'); [exact Hc|exact Hst|exact Ha'|exact Hu|congruence]| |by rewrite HR|done].
  intros x. rewrite HV. apply fn_insert_same.
Qed.

Lemma do_store s e bn i f :
  cst s pid V R O d -> held s pid bn i ->
  exists s', setb i (fun b => b <| b_data ::= f |>) (mkW s e) = Ok tt (mkW s' e) /\ cstep s s' /\
    cst s' pid (<[bn := f (V bn)]> V) R O d /\ (forall x j, held s pid x j -> held s' pid x j) /\
    k_power s' = k_power s.
Proof.
  intros Hc Hh. pose proof Hc as [Hinv Ha HV HR HO Hd].
  destruct (cache_store s e bn pid i f Hinv Ha Hh) as (s' & E & Hst & Ha' & Hu & Hh' & Hd' & Hp).
  exists s'. split_and!; try done.
  - assert (Ho : O bn = Some pid).
    { destruct Hh as (b & Hb & _ & Hl & _). rewrite <- HO, (owner_cached s bn i b Hinv Hb), Hl. done. }
    eapply cst_ext; [eapply (cst_upd s s'); [exact Hc|exact Hst|exact Ha'|exact Hu|congruence]|by rewrite HV| |].
    + intros x. rewrite HR. apply fn_insert_same.
    + intros x. rewrite <- Ho. apply fn_insert_same.
  - intros x j Hx. destruct (decide (x = bn)) as [->|]; [|by apply Hu].
    destruct Hx as (b & Hb & _), Hh as (b0 & Hb0 & _).
    by destruct (buf_of_inj s bn j b i b0 Hinv Hb Hb0) as [-> _].
Qed.

Lemma do_ref s e bn i f :
  cst s pid V R O d -> held s pid bn i -> 0 < f (R bn) ->
  exists s', (acquire LBcache;; setb i (fun b => b <| b_refcnt ::= f |>);; release LBcache) (mkW s e) =
      Ok tt (mkW s' e) /\ cstep s s' /\ cst s' pid V (<[bn := f (R bn)]> R) O d /\
    (forall x j, held s pid x j -> held s' pid x j) /\ k_power s' = k_power s.
Proof.
  intros Hc Hh Hf. pose proof Hc as [Hinv Ha HV HR HO Hd]. pose proof Hh as (b & Hb & _).
  rewrite <- HR, (refs_cached s bn i b Hinv Hb) in Hf.
  destruct (cache_ref s e bn pid i b f Hinv Ha Hb Hf) as (s' & E & Hst & Ha' & Hu & Hh' & Hd' & Hp).
  exists s'. split_and!; try done.
  - eapply cst_ext; [eapply (cst_upd s s'); [exact Hc|exact Hst|exact Ha'|exact Hu|congruence]| |by rewrite HR|].
    + intros x. rewrite HV. apply fn_insert_same.
    + intros x. rewrite HO. apply fn_insert_same.
  - intros x j Hx. destruct (decide (x = bn)) as [->|]; [|by apply Hu].
    destruct Hx as (b1 & Hb1 & Hx). destruct (buf_of_inj s bn j b1 i b Hinv Hb1 Hb) as [-> ->].
    apply Hh'. by exists b.
Qed.

Lemma do_write s e bn i :
  cst s pid V R O d -> held s pid bn i ->
  wp (bwrite i) (mkW s e) (fun _ w => exists s', w = mkW s' e /\ cstep s s' /\
      cst s' pid V R O (<[bn := V bn]> d) /\ (forall x j, held s pid x j -> held s' pid x j))
    (fun d' => d' = d).
Proof.
  intros Hc Hh. pose proof Hc as [Hinv Ha HV HR HO Hd].
  destruct (cache_write s e bn pid i Hinv Ha Hh) as (E & Hst & Ha' & Hu & Hh').
  unfold wp. rewrite E. case_decide; [done|]. exists (written s bn). split_and!; try done.
  - assert (Ho : O bn = Some pid).
    { destruct Hh as (b & Hb & _ & Hl & _). rewrite <- HO, (owner_cached s bn i b Hinv Hb), Hl. done. }
    eapply cst_ext; [eapply (cst_upd s (written s bn)); [exact Hc|exact Hst|exact Ha'|exact Hu|]| | |].
    + simpl. by rewrite HV, Hd.
    + intros x. rewrite HV. apply fn_insert_same.
    + intros x. rewrite HR. apply fn_insert_same.
    + intros x. rewrite <- Ho. apply fn_insert_same.
Qed.

Lemma held_data s bn i : cst s pid V R O d -> held s pid bn i -> exists b, k_bufs s !! i = Some b /\ b_data b = V bn.
Proof.
  intros [Hinv _ HV _ _ _] (b & Hb & Hv & _). exists b. split; [apply Hb|]. rewrite <- HV, (view_cached s bn i b Hinv Hb).
  by destruct (Z.eqb_spec (b_valid b) 0).
Qed.
End ops.
