(* ===== verification/Log.v ===== *)
(** kernel/log.c: the write-ahead log. *)

From S2P Require Import Prelude Riscv Bytes State Sched Sleeplock Bio.

(** struct logheader inside a block: n, then block[LOGSIZE]. *)
Definition sizeof_logheader : Z := 4 + 4 * LOGSIZE.
Definition hdr_n (h : block) : Z := i32 (get 4 0 h).
Definition hdr_block (h : block) (i : nat) : Z := i32 (get 4 (4 + 4 * i) h).
Definition set_hdr_n (v : Z) (h : block) : block := put 4 0 v h.
Definition set_hdr_block (i : nat) (v : Z) (h : block) : block := put 4 (4 + 4 * i) v h.

Definition getlog : K log := gets k_log.
Definition setlog (f : log -> log) : K unit := modify (fun s => s <| k_log ::= f |>).

(** log.lh.block[i]; LOGSIZE elements *)
Definition get_lh_block (i : nat) : K Z := l ← getlog; the (lh_block l !! i).
Definition put_lh_block (i : nat) (v : Z) : K unit :=
  l ← getlog;
  if (i <? length (lh_block l))%nat then setlog (fun l => l <| lh_block ::= <[i := v]> |>) else ub.

(** bread(log.dev, n) with the conversions to uint *)
Definition log_bread (n : Z) : K nat := l ← getlog; bread (u32 (l_dev l)) (u32 n).

(** memmove(dst->data, src->data, BSIZE) *)
Definition copy_data (dst src : nat) : K unit :=
  b ← getb src; setb dst (fun x => x <| b_data := b_data b |>).

(** static void install_trans(int recovering); [log.lh.n] is read again in each
    round.  Reading block[LOGSIZE] ends a run, so S LOGSIZE rounds are enough. *)
Fixpoint install_loop (fuel tail : nat) (recovering : bool) : K unit :=
  match fuel with
  | O => diverge
  | S fuel' =>
      l ← getlog;
      if Z.of_nat tail <? lh_n l then
        lbuf ← log_bread (l_start l + Z.of_nat tail + 1);
        home ← get_lh_block tail;
        dbuf ← log_bread home;
        copy_data dbuf lbuf;;
        bwrite dbuf;;
        when (negb recovering) (bunpin dbuf);;
        brelse lbuf;;
        brelse dbuf;;
        install_loop fuel' (S tail) recovering
      else mret tt
  end.
Definition install_trans (recovering : bool) : K unit := install_loop (S (Z.to_nat LOGSIZE)) 0 recovering.

(** static void read_head(void) *)
Definition read_head : K unit :=
  l ← getlog;
  b ← log_bread (l_start l);
  x ← getb b;
  setlog (fun l => l <| lh_n := hdr_n (b_data x) |>);;
  forK (seq 0 (Z.to_nat (hdr_n (b_data x)))) (fun i => put_lh_block i (hdr_block (b_data x) i));;
  brelse b.

(** static void write_head(void) *)
Definition write_head : K unit :=
  l ← getlog;
  b ← log_bread (l_start l);
  setb b (fun x => x <| b_data ::= set_hdr_n (lh_n l) |>);;
  forK (seq 0 (Z.to_nat (lh_n l))) (fun i =>
    v ← get_lh_block i;
    setb b (fun x => x <| b_data ::= set_hdr_block i v |>));;
  bwrite b;;
  brelse b.

(** static void recover_from_log(void) *)
Definition recover_from_log : K unit :=
  read_head;;
  install_trans true;;
  setlog (fun l => l <| lh_n := 0 |>);;
  write_head.

(** void initlog(int dev, struct superblock *sb) *)
Definition initlog (dev : Z) (sb : superblock) : K unit :=
  when (sizeof_logheader >=? BSIZE) (panic "initlog: too big logheader");;
  setlog (fun l => l <| l_start := i32 (sb_logstart sb) |>);;
  setlog (fun l => l <| l_size := i32 (sb_nlog sb) |>);;
  setlog (fun l => l <| l_dev := dev |>);;
  recover_from_log.

(** void begin_op(void); every round but the last sleeps. *)
Fixpoint begin_op_loop (fuel : nat) : K unit :=
  match fuel with
  | O => diverge
  | S fuel' =>
      l ← getlog;
      if negb (l_committing l =? 0) then sleep ChLog LLog;; begin_op_loop fuel'
      else if lh_n l + (l_outstanding l + 1) * MAXOPBLOCKS >? LOGSIZE then
        sleep ChLog LLog;; begin_op_loop fuel'
      else
        setlog (fun l => l <| l_outstanding ::= Z.succ |>);;
        release LLog
  end.
Definition begin_op : K unit :=
  acquire LLog;;
  ((fun w => begin_op_loop (S (length (wenv w))) w) : K unit).

(** static void write_log(void) *)
Fixpoint write_log_loop (fuel tail : nat) : K unit :=
  match fuel with
  | O => diverge
  | S fuel' =>
      l ← getlog;
      if Z.of_nat tail <? lh_n l then
        to ← log_bread (l_start l + Z.of_nat tail + 1);
        home ← get_lh_block tail;
        from ← log_bread home;
        copy_data to from;;
        bwrite to;;
        brelse from;;
        brelse to;;
        write_log_loop fuel' (S tail)
      else mret tt
  end.
Definition write_log : K unit := write_log_loop (S (Z.to_nat LOGSIZE)) 0.

(** static void commit() *)
Definition commit : K unit :=
  l ← getlog;
  when (lh_n l >? 0)
    (write_log;;
     write_head;;
     install_trans false;;
     setlog (fun l => l <| lh_n := 0 |>);;
     write_head).

(** void end_op(void) *)
Definition end_op : K unit :=
  acquire LLog;;
  setlog (fun l => l <| l_outstanding ::= Z.pred |>);;
  l ← getlog;
  when (negb (l_committing l =? 0)) (panic "log.committing");;
  do_commit ←
    (if l_outstanding l =? 0 then
       setlog (fun l => l <| l_committing := 1 |>);; mret true
     else wakeup (Some ChLog);; mret false);
  release LLog;;
  when do_commit
    (commit;;
     acquire LLog;;
     setlog (fun l => l <| l_committing := 0 |>);;
     wakeup (Some ChLog);;
     release LLog).

(** The search of log_write: the first i < n with log.lh.block[i] == blockno. *)
Fixpoint log_index (k i : nat) (blockno : Z) : K nat :=
  match k with
  | O => mret i
  | S k' =>
      v ← get_lh_block i;
      if u32 v =? blockno then mret i else log_index k' (S i) blockno
  end.

(** void log_write(struct buf *b) *)
Definition log_write (b : nat) : K unit :=
  acquire LLog;;
  l ← getlog;
  when ((lh_n l >=? LOGSIZE) || (lh_n l >=? l_size l - 1)) (panic "too big a transaction");;
  when (l_outstanding l <? 1) (panic "log_write outside of trans");;
  x ← getb b;
  i ← log_index (Z.to_nat (lh_n l)) 0 (b_blockno x);
  put_lh_block i (i32 (b_blockno x));;
  when (Z.of_nat i =? lh_n l)
    (bpin b;;
     setlog (fun l => l <| lh_n ::= Z.succ |>));;
  release LLog.
