(* ===== verification/LogSpec.v ===== *)
(** The log on a quiet cache: what write_log, write_head, install_trans and
    read_head do to the blocks and to the disk, and which disks a power failure
    in the middle leaves behind. *)

From stdpp Require Import functions.
From S2P Require Import Prelude Riscv Bytes State Sched Sleeplock Lru Bio Bcache Cache CacheOps Log.

Lemma wp_step {A B} (m : K A) (f : A -> K B) w a w' Q C :
  m w = Ok a w' -> wp (f a) w' Q C -> wp (m ≫= f) w Q C.
Proof. intros E H. unfold wp. by rewrite (bind_ok _ _ _ _ _ E). Qed.

Lemma cstep_log s s' : cstep s s' -> k_log s' = k_log s.
Proof. intros H. by rewrite (cs_frame _ _ H). Qed.

(** Equations between updated functions. *)
Ltac fn_eq :=
  intros; unfold insert, fn_insert in *; repeat (case_decide; subst); first [done | lia | congruence].

Section log.
Context (start : Z).

(** The in-memory header lists the blocks [bl]. *)
Record log_has (s : kst) (bl : list Z) : Prop := {
  lg_start : l_start (k_log s) = start;
  lg_dev : l_dev (k_log s) = ROOTDEV;
  lg_n : lh_n (k_log s) = Z.of_nat (length bl);
  lg_len : length (lh_block (k_log s)) = Z.to_nat LOGSIZE;
  lg_bl : take (length bl) (lh_block (k_log s)) = bl;
}.

Lemma log_has_step s s' bl : log_has s bl -> cstep s s' -> log_has s' bl.
Proof. intros [] H%cstep_log. split; by rewrite H. Qed.

(** Block [k] of the log. *)
Definition lblk (k : nat) : Z := start + 1 + Z.of_nat k.

(** A block with a home outside the log. *)
Definition home (b : Z) : Prop := 0 <= b < 2 ^ 31 /\ ~ (start <= b <= start + LOGSIZE).

Context (Hstart : 0 <= start) (Hend : start + LOGSIZE < 2 ^ 31).

Lemma home_lblk b k : home b -> (k < Z.to_nat LOGSIZE)%nat -> lblk k <> b.
Proof. unfold home, lblk. lia. Qed.

Lemma bl_bound s bl : log_has s bl -> (length bl <= Z.to_nat LOGSIZE)%nat.
Proof.
  intros [_ _ _ Hl Hb]. apply (f_equal length) in Hb. rewrite length_take in Hb. lia.
Qed.

Lemma get_lh_block_ok s e bl k b :
  log_has s bl -> bl !! k = Some b -> get_lh_block k (mkW s e) = Ok b (mkW s e).
Proof.
  intros [_ _ _ _ Hb] Hk. unfold get_lh_block, getlog. krun.
  rewrite <- Hb in Hk. apply lookup_take_Some in Hk as [-> _]. done.
Qed.

Lemma log_bread_ok s e bl n :
  log_has s bl -> 0 <= n < 2 ^ 31 -> log_bread n (mkW s e) = bread ROOTDEV n (mkW s e).
Proof.
  intros [_ Hd _ _ _] Hn. unfold log_bread, getlog. krun. by rewrite Hd, (u32_small n) by lia.
Qed.

Lemma copy_data_ok {pid V R O d} s e i j src dst :
  cst s pid V R O d -> held s pid src i -> held s pid dst j ->
  exists s', copy_data j i (mkW s e) = Ok tt (mkW s' e) /\ cstep s s' /\
    cst s' pid (<[dst := V src]> V) R O d /\ (forall x k, held s pid x k -> held s' pid x k).
Proof.
  intros Hc Hi Hj. destruct (held_data s src i Hc Hi) as (b & Hb & Hbd).
  destruct (do_store s e dst j (fun _ => b_data b) Hc Hj) as (s' & E & Hst & Hc' & Hh & _).
  exists s'. rewrite <- Hbd. split_and!; try done. unfold copy_data.
  by rewrite (bind_ok _ _ _ _ _ (getb_ok i s e b Hb)).
Qed.

(** * Copying one block to another through the cache *)

Definition none : Z -> option Z := fun _ => None.

(** Reading two blocks, and releasing two. *)
Lemma read2 {pid V R d} s e a b U :
  cst s pid V R none d -> a <> b -> fits R U -> a ∈ U -> b ∈ U ->
  exists i s1 j s2, bread ROOTDEV a (mkW s e) = Ok i (mkW s1 e) /\ bread ROOTDEV b (mkW s1 e) = Ok j (mkW s2 e) /\
    cstep s s1 /\ cstep s1 s2 /\ held s2 pid a i /\ held s2 pid b j /\
    cst s2 pid V (<[b := R b + 1]> (<[a := R a + 1]> R)) (<[b := Some pid]> (<[a := Some pid]> none)) d.
Proof.
  intros Hc Hab HU Ha Hb. destruct (do_read s e a U Hc) as (i & s1 & E1 & Hst1 & Hc1 & Hh1 & _); [done..|].
  assert (HU1 : fits (<[a := R a + 1]> R) U).
  { destruct HU as [HU Hsz]. split; [|done]. intros x. destruct (decide (a = x)) as [<-|]; [done|].
    rewrite fn_lookup_insert_ne by done. apply HU. }
  destruct (do_read s1 e b U Hc1) as (j & s2 & E2 & Hst2 & Hc2 & Hh2 & Hk2 & _); try done.
  { by rewrite fn_lookup_insert_ne. }
  exists i, s1, j, s2. split_and!; try done; [by apply Hk2|]. by rewrite fn_lookup_insert_ne in Hc2.
Qed.

Lemma release2 {pid V R O d} s e a b i j :
  cst s pid V R O d -> a <> b -> held s pid a i -> held s pid b j ->
  (R a = 1 -> V a = dread d a) -> (R b = 1 -> V b = dread d b) ->
  exists s1 s2, brelse i (mkW s e) = Ok tt (mkW s1 e) /\ brelse j (mkW s1 e) = Ok tt (mkW s2 e) /\
    cstep s s2 /\ cst s2 pid V (<[b := R b - 1]> (<[a := R a - 1]> R)) (<[b := None]> (<[a := None]> O)) d.
Proof.
  intros Hc Hab Hi Hj Hca Hcb. destruct (do_release s e a i Hc Hi Hca) as (s1 & E1 & Hst1 & Hc1 & Hh1 & _).
  destruct (do_release s1 e b j Hc1) as (s2 & E2 & Hst2 & Hc2 & _ & _).
  { by apply Hh1. } { by rewrite fn_lookup_insert_ne. }
  exists s1, s2. split_and!; try done; [by eapply cstep_trans|]. by rewrite fn_lookup_insert_ne in Hc2.
Qed.

(** The working set of one round: the logged blocks and one block of the log. *)
Lemma fits_log (R : Z -> Z) bl k :
  NoDup bl -> (forall x, R x <> 0 -> x ∈ bl) -> (length bl < HEAD)%nat ->
  fits R ({[lblk k]} ∪ list_to_set bl).
Proof.
  intros Hnd HR Hlen. split.
  - intros x Hx. apply HR in Hx. set_solver.
  - pose proof (size_list_to_set (C := gset Z) bl Hnd).
    rewrite size_union_alt, size_singleton.
    pose proof (subseteq_size (list_to_set bl ∖ {[lblk k]} : gset Z) (list_to_set bl) ltac:(set_solver)). lia.
Qed.

(** One round of write_log: home block [b] goes to log block [k]. *)
Lemma write_log_round {A pid V R d} s e bl k b (next : K A) Q C :
  cst s pid V R none d -> log_has s bl -> bl !! k = Some b -> home b -> NoDup bl ->
  (forall x, R x <> 0 -> x ∈ bl) -> (length bl < HEAD)%nat -> 1 <= R b -> C d ->
  (forall s', cstep s s' -> cst s' pid (<[lblk k := V b]> V) R none (<[lblk k := V b]> d) ->
    wp next (mkW s' e) Q C) ->
  wp (to ← log_bread (l_start (k_log s) + Z.of_nat k + 1);
      home ← get_lh_block k;
      from ← log_bread home;
      copy_data to from;; bwrite to;; brelse from;; brelse to;; next) (mkW s e) Q C.
Proof.
  intros Hc Hl Hk Hb Hnd HR Hlen HRb HC Hnext. pose proof (lookup_lt_Some _ _ _ Hk) as Hkl.
  pose proof (bl_bound s bl Hl) as Hbd. pose proof (home_lblk b k Hb ltac:(lia)) as Hab.
  rewrite (lg_start s bl Hl). replace (start + Z.of_nat k + 1) with (lblk k) by (unfold lblk; lia).
  destruct (read2 s e (lblk k) b _ Hc Hab (fits_log R bl k Hnd HR Hlen)) as
    (i & s1 & j & s2 & E1 & E2 & Hst1 & Hst2 & Hi & Hj & Hc2);
    [set_solver|apply list_elem_of_lookup_2 in Hk; set_solver|].
  pose proof (log_has_step s s1 bl Hl Hst1) as Hl1.
  eapply wp_step; [rewrite (log_bread_ok s e bl) by (done || unfold lblk; lia); exact E1|].
  eapply wp_step; [by apply (get_lh_block_ok s1 e bl k b)|].
  eapply wp_step; [rewrite (log_bread_ok s1 e bl) by (done || apply Hb); exact E2|].
  destruct (copy_data_ok s2 e j i b (lblk k) Hc2 Hj Hi) as (s3 & E3 & Hst3 & Hc3 & Hh3).
  eapply wp_step; [exact E3|]. rewrite wp_bind.
  eapply wp_mono; [apply (do_write s3 e (lblk k) i Hc3 (Hh3 _ _ Hi))| |by intros ? ->].
  intros [] w (s4 & -> & Hst4 & Hc4 & Hh4). rewrite fn_lookup_insert in Hc4.
  destruct (release2 s4 e b (lblk k) j i Hc4 (not_eq_sym Hab) (Hh4 _ _ (Hh3 _ _ Hj)) (Hh4 _ _ (Hh3 _ _ Hi)))
    as (s5 & s6 & E5 & E6 & Hst6 & Hc6).
  { rewrite fn_lookup_insert. lia. }
  { intros _. unfold dread. by rewrite fn_lookup_insert, lookup_insert_eq. }
  eapply wp_step; [exact E5|]. eapply wp_step; [exact E6|]. apply Hnext.
  { eapply cstep_trans; [|exact Hst6]. eapply cstep_trans; [|exact Hst4]. eapply cstep_trans; [|exact Hst3].
    by eapply cstep_trans. }
  eapply cst_ext; [exact Hc6|unfold none; fn_eq..].
Qed.

(** A disk that differs at most in blocks [j..n) of the log. *)
Definition log_only (j n : nat) (d d' : disk) : Prop :=
  forall x, ~ (lblk j <= x < lblk n) -> dread d' x = dread d x.

Lemma dread_insert (d : disk) k v x : dread (<[k := v]> d) x = if decide (k = x) then v else dread d x.
Proof. unfold dread. rewrite lookup_insert. by case_decide. Qed.

(** write_log copies the logged blocks to the log, one after the other. *)
Lemma write_log_spec {pid R} e bl (C : disk -> Prop) :
  Forall home bl -> NoDup bl -> (length bl < HEAD)%nat ->
  (forall x, R x <> 0 -> x ∈ bl) -> (forall b, b ∈ bl -> 1 <= R b) ->
  forall fuel k s V d, (k <= length bl < fuel + k)%nat ->
  cst s pid V R none d -> log_has s bl -> (forall d', log_only k (length bl) d d' -> C d') ->
  wp (write_log_loop fuel k) (mkW s e)
    (fun _ w => exists s' V' d', w = mkW s' e /\ cstep s s' /\ cst s' pid V' R none d' /\
      log_only k (length bl) d d' /\ (forall x, ~ (lblk k <= x < lblk (length bl)) -> V' x = V x) /\
      (forall j b, (k <= j)%nat -> bl !! j = Some b -> V' (lblk j) = V b /\ dread d' (lblk j) = V b)) C.
Proof.
  intros Hh Hnd Hlen HR HR1 fuel. induction fuel as [|fuel IH]; intros k s V d Hf Hc Hl HC.
  { lia. }
  cbn [write_log_loop]. eapply wp_step; [done|]. simpl wk. rewrite (lg_n s bl Hl).
  destruct (Z.ltb_spec (Z.of_nat k) (Z.of_nat (length bl))) as [Hk|Hk].
  2: { exists s, V, d. split_and!; try done; [apply cstep_refl, Hc|].
       intros j b Hj Hb. apply lookup_lt_Some in Hb. lia. }
  destruct (lookup_lt_is_Some_2 bl k ltac:(lia)) as [b Hb].
  pose proof (Forall_lookup_1 _ _ _ _ Hh Hb) as Hhb.
  apply (write_log_round s e bl k b _ _ _ Hc Hl Hb Hhb Hnd HR Hlen).
  { apply HR1. by eapply list_elem_of_lookup_2. } { apply HC. by intros x _. }
  intros s' Hst Hc'. eapply wp_mono; [apply (IH (S k) s'); [lia|done|by eapply log_has_step|]| |done].
  { intros d' Hd'. apply HC. intros x Hx. rewrite Hd' by (unfold lblk in *; lia).
    rewrite dread_insert, decide_False; [done|unfold lblk in *; lia]. }
  intros [] w (s2 & V2 & d2 & -> & Hst2 & Hc2 & Hd2 & HV2 & Hj2). exists s2, V2, d2.
  split_and!; [done|by eapply cstep_trans|done| | |].
  - intros x Hx. rewrite Hd2 by (unfold lblk in *; lia). rewrite dread_insert, decide_False; [done|unfold lblk in *; lia].
  - intros x Hx. rewrite HV2 by (unfold lblk in *; lia). rewrite fn_lookup_insert_ne; [done|unfold lblk in *; lia].
  - intros j c Hj Hcj. pose proof (Forall_lookup_1 _ _ _ _ Hh Hcj) as Hhc. destruct (decide (k = j)) as [<-|Hne].
    + rewrite Hb in Hcj. injection Hcj as <-. rewrite HV2, Hd2 by (unfold lblk; lia).
      by rewrite fn_lookup_insert, dread_insert, decide_True.
    + destruct (Hj2 j c ltac:(lia) Hcj) as [-> ->]. rewrite fn_lookup_insert_ne; [done|].
      pose proof (bl_bound s bl Hl). by apply home_lblk; [|lia].
Qed.

(** One round of install_trans: log block [k] goes to its home block [b]. *)
Definition unpins (recovering : bool) : Z := if recovering then 0 else 1.

Lemma maybe_unpin {pid V R O d} s e b j recovering :
  cst s pid V R O d -> held s pid b j -> unpins recovering < R b ->
  exists s', when (negb recovering) (bunpin j) (mkW s e) = Ok tt (mkW s' e) /\ cstep s s' /\
    cst s' pid V (<[b := R b - unpins recovering]> R) O d /\ (forall x k, held s pid x k -> held s' pid x k).
Proof.
  intros Hc Hj HR. destruct recovering; simpl in *.
  - exists s. split_and!; [done|apply cstep_refl, Hc| |done]. eapply cst_ext; [exact Hc|done|fn_eq|done].
  - destruct (do_ref s e b j Z.pred Hc Hj ltac:(lia)) as (s' & E & Hst & Hc' & Hh & _). exists s'.
    split_and!; [exact E|done| |done]. eapply cst_ext; [exact Hc'|done|fn_eq|done].
Qed.

Lemma install_round {A pid V R d} s e bl k b recovering (next : K A) Q C :
  cst s pid V R none d -> log_has s bl -> bl !! k = Some b -> home b -> Forall home bl -> NoDup bl ->
  (forall x, R x <> 0 -> x ∈ bl) -> (length bl < HEAD)%nat -> unpins recovering <= R b -> C d ->
  (forall s', cstep s s' ->
    cst s' pid (<[b := V (lblk k)]> V) (<[b := R b - unpins recovering]> R) none (<[b := V (lblk k)]> d) ->
    wp next (mkW s' e) Q C) ->
  wp (lbuf ← log_bread (l_start (k_log s) + Z.of_nat k + 1);
      home ← get_lh_block k;
      dbuf ← log_bread home;
      copy_data dbuf lbuf;; bwrite dbuf;; when (negb recovering) (bunpin dbuf);; brelse lbuf;; brelse dbuf;; next)
    (mkW s e) Q C.
Proof.
  intros Hc Hl Hk Hb Hhb Hnd HR Hlen HRb HC Hnext. pose proof (lookup_lt_Some _ _ _ Hk) as Hkl.
  pose proof (bl_bound s bl Hl) as Hbd. pose proof (home_lblk b k Hb ltac:(lia)) as Hab.
  assert (HRa : R (lblk k) = 0).
  { destruct (decide (R (lblk k) = 0)) as [|H]; [done|]. apply HR in H. rewrite Forall_forall in Hhb.
    destruct (Hhb _ H) as [_ []]. unfold lblk. lia. }
  assert (Hclean : V (lblk k) = dread d (lblk k)).
  { rewrite <- (c_view _ _ _ _ _ _ Hc), <- (c_disk _ _ _ _ _ _ Hc). apply clean_view; [apply Hc|].
    by rewrite (c_refs _ _ _ _ _ _ Hc). }
  rewrite (lg_start s bl Hl). replace (start + Z.of_nat k + 1) with (lblk k) by (unfold lblk; lia).
  destruct (read2 s e (lblk k) b _ Hc Hab (fits_log R bl k Hnd HR Hlen)) as
    (i & s1 & j & s2 & E1 & E2 & Hst1 & Hst2 & Hi & Hj & Hc2);
    [set_solver|apply list_elem_of_lookup_2 in Hk; set_solver|].
  pose proof (log_has_step s s1 bl Hl Hst1) as Hl1.
  eapply wp_step; [rewrite (log_bread_ok s e bl) by (done || unfold lblk; lia); exact E1|].
  eapply wp_step; [by apply (get_lh_block_ok s1 e bl k b)|].
  eapply wp_step; [rewrite (log_bread_ok s1 e bl) by (done || apply Hb); exact E2|].
  destruct (copy_data_ok s2 e i j (lblk k) b Hc2 Hi Hj) as (s3 & E3 & Hst3 & Hc3 & Hh3).
  eapply wp_step; [exact E3|]. rewrite wp_bind.
  eapply wp_mono; [apply (do_write s3 e b j Hc3 (Hh3 _ _ Hj))| |by intros ? ->].
  intros [] w (s4 & -> & Hst4 & Hc4 & Hh4). rewrite fn_lookup_insert in Hc4.
  destruct (maybe_unpin s4 e b j recovering Hc4 (Hh4 _ _ (Hh3 _ _ Hj))) as (s5 & E5 & Hst5 & Hc5 & Hh5).
  { rewrite fn_lookup_insert. lia. }
  eapply wp_step; [exact E5|].
  destruct (release2 s5 e (lblk k) b i j Hc5 Hab (Hh5 _ _ (Hh4 _ _ (Hh3 _ _ Hi))) (Hh5 _ _ (Hh4 _ _ (Hh3 _ _ Hj))))
    as (s6 & s7 & E6 & E7 & Hst7 & Hc7).
  { intros _. by rewrite dread_insert, decide_False, fn_lookup_insert_ne. }
  { intros _. by rewrite dread_insert, decide_True, fn_lookup_insert. }
  eapply wp_step; [exact E6|]. eapply wp_step; [exact E7|]. apply Hnext.
  { eapply cstep_trans; [|exact Hst7]. eapply cstep_trans; [|exact Hst5]. eapply cstep_trans; [|exact Hst4].
    eapply cstep_trans; [|exact Hst3]. by eapply cstep_trans. }
  eapply cst_ext; [exact Hc7|unfold none; fn_eq..].
Qed.

(** install_trans copies the log to the blocks' homes; a failure in the middle
    changes no block but these. *)
Lemma install_spec {pid} e bl recovering (C : disk -> Prop) :
  Forall home bl -> NoDup bl -> (length bl < HEAD)%nat ->
  forall fuel k s V R d, (k <= length bl < fuel + k)%nat ->
  cst s pid V R none d -> log_has s bl ->
  (forall x, R x <> 0 -> x ∈ bl) -> (forall j b, (k <= j)%nat -> bl !! j = Some b -> unpins recovering <= R b) ->
  (forall d', (forall x, x ∉ bl -> dread d' x = dread d x) -> C d') ->
  wp (install_loop fuel k recovering) (mkW s e)
    (fun _ w => exists s' V' R' d', w = mkW s' e /\ cstep s s' /\ cst s' pid V' R' none d' /\
      (forall x, x ∉ bl -> V' x = V x /\ dread d' x = dread d x /\ R' x = R x) /\
      (forall j b, bl !! j = Some b -> if decide (k <= j)%nat
        then V' b = V (lblk j) /\ dread d' b = V (lblk j) /\ R' b = R b - unpins recovering
        else V' b = V b /\ dread d' b = dread d b /\ R' b = R b)) C.
Proof.
  intros Hh Hnd Hlen fuel. induction fuel as [|fuel IH]; intros k s V R d Hf Hc Hl HR HR1 HC; [lia|].
  cbn [install_loop]. eapply wp_step; [done|]. simpl wk. rewrite (lg_n s bl Hl).
  destruct (Z.ltb_spec (Z.of_nat k) (Z.of_nat (length bl))) as [Hk|Hk].
  2: { exists s, V, R, d. split_and!; try done; [apply cstep_refl, Hc|].
       intros j b Hb. apply lookup_lt_Some in Hb. by rewrite decide_False by lia. }
  destruct (lookup_lt_is_Some_2 bl k ltac:(lia)) as [b Hb].
  pose proof (Forall_lookup_1 _ _ _ _ Hh Hb) as Hhb. pose proof (bl_bound s bl Hl) as Hbd.
  assert (Hbin : b ∈ bl) by (by eapply list_elem_of_lookup_2).
  apply (install_round s e bl k b recovering _ _ _ Hc Hl Hb Hhb Hh Hnd HR Hlen); [by apply (HR1 k)|by apply HC|].
  intros s' Hst Hc'.
  assert (Hne : forall j c, bl !! j = Some c -> j <> k -> b <> c).
  { intros j c Hj Hjk ->. apply Hjk. by eapply NoDup_lookup. }
  eapply wp_mono; [apply (IH (S k) s'); [lia|exact Hc'|by eapply log_has_step| | |]| |done].
  { intros x. destruct (decide (b = x)) as [<-|]; [done|]. rewrite fn_lookup_insert_ne by done. apply HR. }
  { intros j c Hj Hcj. rewrite fn_lookup_insert_ne by (apply (Hne j c); [done|lia]). apply (HR1 j); [lia|done]. }
  { intros d' Hd'. apply HC. intros x Hx. rewrite Hd' by done. rewrite dread_insert, decide_False; [done|]. by intros <-. }
  intros [] w (s2 & V2 & R2 & d2 & -> & Hst2 & Hc2 & Hout & Hin). exists s2, V2, R2, d2.
  split_and!; [done|by eapply cstep_trans|done| |].
  - intros x Hx. destruct (Hout x Hx) as (-> & -> & ->). assert (b <> x) by (by intros <-).
    by rewrite !fn_lookup_insert_ne, dread_insert, decide_False by done.
  - intros j c Hj. specialize (Hin j c Hj). destruct (decide (j = k)) as [->|Hjk].
    + rewrite Hb in Hj. injection Hj as <-. rewrite decide_False in Hin by lia. rewrite decide_True by lia.
      destruct Hin as (-> & -> & ->). by rewrite !fn_lookup_insert, dread_insert, decide_True.
    + pose proof (Hne j c Hj Hjk) as Hbc. pose proof (lookup_lt_Some _ _ _ Hj) as Hjl.
      assert (b <> lblk j) by (apply not_eq_sym, home_lblk; [done|lia]).
      rewrite !(fn_lookup_insert_ne _ b), dread_insert, (decide_False (P := b = c)) in Hin by done.
      destruct (decide (S k <= j)%nat); [rewrite decide_True by lia|rewrite decide_False by lia]; done.
Qed.

(** * The header *)

Definition hdr_ok (h : block) (bl : list Z) : Prop :=
  length h = Z.to_nat BSIZE /\ hdr_n h = Z.of_nat (length bl) /\
  forall i b, bl !! i = Some b -> hdr_block h i = b.

Lemma get_set_n h v : length h = Z.to_nat BSIZE -> - 2 ^ 31 <= v < 2 ^ 31 -> hdr_n (set_hdr_n v h) = v.
Proof.
  intros Hlen Hv. unfold hdr_n, set_hdr_n. rewrite get_put by (rewrite Hlen; vm_compute; lia).
  unfold i32, sext. change (8 * Z.of_nat 4) with 32. rewrite Z.mod_mod by lia. by apply (sext_small 32).
Qed.

Lemma get_set_block h i v :
  length h = Z.to_nat BSIZE -> (i < Z.to_nat LOGSIZE)%nat -> - 2 ^ 31 <= v < 2 ^ 31 ->
  hdr_block (set_hdr_block i v h) i = v /\
  hdr_n (set_hdr_block i v h) = hdr_n h /\
  (forall j, j <> i -> hdr_block (set_hdr_block i v h) j = hdr_block h j) /\
  length (set_hdr_block i v h) = Z.to_nat BSIZE.
Proof.
  intros Hlen Hi Hv. change (Z.to_nat LOGSIZE) with 30%nat in Hi. change (Z.to_nat BSIZE) with 1024%nat in *.
  unfold hdr_block, hdr_n, set_hdr_block. split_and!.
  - rewrite get_put by lia. unfold i32, sext. change (8 * Z.of_nat 4) with 32.
    rewrite Z.mod_mod by lia. by apply (sext_small 32).
  - by rewrite get_put_ne by lia.
  - intros j Hj. rewrite get_put_ne by lia. done.
  - by rewrite length_put by lia.
Qed.

Lemma write_head_loop {pid R O d} e bl i :
  Forall home bl ->
  forall m k s V, (k + m = length bl)%nat -> cst s pid V R O d -> log_has s bl -> held s pid start i ->
  length (V start) = Z.to_nat BSIZE -> hdr_n (V start) = Z.of_nat (length bl) ->
  (forall j b, (j < k)%nat -> bl !! j = Some b -> hdr_block (V start) j = b) ->
  exists s' h, forK (seq k m) (fun j => v ← get_lh_block j;
      setb i (fun x => x <| b_data ::= set_hdr_block j v |>)) (mkW s e) = Ok tt (mkW s' e) /\
    cstep s s' /\ cst s' pid (<[start := h]> V) R O d /\ held s' pid start i /\ hdr_ok h bl.
Proof.
  intros Hh. induction m as [|m IH]; intros k s V Hkm Hc Hl Hi Hlen Hn Hj; cbn [seq forK].
  { exists s, (V start). split_and!; try done; [apply cstep_refl, Hc| |].
    - eapply cst_ext; [exact Hc|fn_eq|done|done].
    - split_and!; [done..|]. intros j b Hb. apply (Hj j b); [|done]. apply lookup_lt_Some in Hb. lia. }
  destruct (lookup_lt_is_Some_2 bl k ltac:(lia)) as [b Hb]. pose proof (Forall_lookup_1 _ _ _ _ Hh Hb) as Hhb.
  pose proof (bl_bound s bl Hl) as Hbd. unfold home in Hhb.
  destruct (get_set_block (V start) k b Hlen ltac:(lia) ltac:(lia)) as (G1 & G2 & G3 & G4).
  destruct (do_store s e start i (set_hdr_block k b) Hc Hi) as (s1 & E1 & Hst1 & Hc1 & Hh1 & _).
  destruct (IH (S k) s1 (<[start := set_hdr_block k b (V start)]> V)) as (s' & h & E & Hst & Hc' & Hi' & Hok);
    rewrite ?fn_lookup_insert; try done; [lia|by eapply log_has_step|by apply Hh1|by rewrite G2| |].
  { intros j c Hjk Hcj. destruct (decide (j = k)) as [->|]; [congruence|]. rewrite G3 by done. apply (Hj j); [lia|done]. }
  exists s', h. split_and!; try done; [|by eapply cstep_trans|].
  - rewrite bind_assoc, (bind_ok _ _ _ _ _ (get_lh_block_ok s e bl k b Hl Hb)), (bind_ok _ _ _ _ _ E1). exact E.
  - eapply cst_ext; [exact Hc'|fn_eq|done|done].
Qed.

(** write_head puts the header for [bl] on disk, in one block write. *)
Lemma write_head_spec {pid V R d} s e bl U (C : disk -> Prop) :
  cst s pid V R none d -> log_has s bl -> Forall home bl -> fits R U -> start ∈ U -> R start = 0 ->
  length (V start) = Z.to_nat BSIZE -> C d ->
  wp write_head (mkW s e)
    (fun _ w => exists s' h, w = mkW s' e /\ cstep s s' /\ hdr_ok h bl /\
      cst s' pid (<[start := h]> V) R none (<[start := h]> d)) C.
Proof.
  intros Hc Hl Hh HU HsU HRs Hlen HC. assert (HLS : LOGSIZE = 30) by done. unfold write_head. eapply wp_step; [done|]. simpl wk.
  pose proof (bl_bound s bl Hl) as Hbd. rewrite (lg_start s bl Hl), (lg_n s bl Hl), Nat2Z.id.
  destruct (do_read s e start U Hc) as (i & s1 & E1 & Hst1 & Hc1 & Hi1 & _ & _); [done..|].
  eapply wp_step; [rewrite (log_bread_ok s e bl) by (done || lia); exact E1|].
  destruct (do_store s1 e start i (set_hdr_n (Z.of_nat (length bl))) Hc1 Hi1) as (s2 & E2 & Hst2 & Hc2 & Hh2 & _).
  eapply wp_step; [exact E2|].
  assert (Hl2 : log_has s2 bl) by (by eapply log_has_step, Hst2; eapply log_has_step, Hst1).
  destruct (write_head_loop e bl i Hh (length bl) 0 s2 _ eq_refl Hc2 Hl2 (Hh2 _ _ Hi1)) as (s3 & h & E3 & Hst3 & Hc3 & Hi3 & Hok).
  { rewrite fn_lookup_insert. unfold set_hdr_n. by rewrite length_put by (rewrite Hlen; vm_compute; lia). }
  { rewrite fn_lookup_insert. apply get_set_n; [done|]. change (Z.to_nat LOGSIZE) with 30%nat in Hbd. lia. }
  { intros j b Hj. lia. }
  eapply wp_step; [exact E3|]. rewrite wp_bind.
  eapply wp_mono; [apply (do_write s3 e start i Hc3 Hi3)| |by intros ? ->].
  intros [] w (s4 & -> & Hst4 & Hc4 & Hh4). rewrite !fn_lookup_insert in Hc4.
  destruct (do_release s4 e start i Hc4 (Hh4 _ _ Hi3)) as (s5 & E5 & Hst5 & Hc5 & _).
  { intros _. by rewrite fn_lookup_insert, dread_insert, decide_True. }
  unfold wp. rewrite E5. exists s5, h. split_and!; try done.
  - eapply cstep_trans; [|exact Hst5]. eapply cstep_trans; [|exact Hst4]. eapply cstep_trans; [|exact Hst3].
    by eapply cstep_trans.
  - eapply cst_ext; [exact Hc5|unfold none; fn_eq..].
Qed.

(** * Changing the in-memory header *)

(** What the log's operations leave alone. *)
Record lstep (s s' : kst) : Prop := {
  ls_woken : woken s s';
  ls_frame : s' = s <| k_bufs := k_bufs s' |> <| k_procs := k_procs s' |>
                    <| k_disk := k_disk s' |> <| k_power := k_power s' |> <| k_log := k_log s' |>;
}.

Lemma lstep_trans s1 s2 s3 : lstep s1 s2 -> lstep s2 s3 -> lstep s1 s3.
Proof. intros [Hw1 E1] [Hw2 E2]. split; [by etrans|]. rewrite E2. rewrite E1. kst_eq. Qed.
Lemma lstep_cstep s s' : cstep s s' -> lstep s s'.
Proof. intros [_ Hw E]. split; [done|]. rewrite E. kst_eq. Qed.
Lemma lstep_log s f : lstep s (s <| k_log ::= f |>).
Proof. split; [apply (woken_refl s)|kst_eq]. Qed.

Lemma cst_log {pid V R O d} s f : cst s pid V R O d -> cst (s <| k_log ::= f |>) pid V R O d.
Proof.
  intros [Hi Ha HV HR HO Hd]. split; try done.
  - by apply (bc_inv_ext s).
  - by destruct Ha.
Qed.

Lemma held_log s f pid bn i : held s pid bn i -> held (s <| k_log ::= f |>) pid bn i.
Proof. intros (b & Hb & H). exists b. split; [|done]. by apply (buf_of_ext s). Qed.

Lemma log_has_cleared s bl :
  log_has s bl -> log_has (s <| k_log ::= (fun l => l <| lh_n := 0 |>) |>) [].
Proof. by intros []. Qed.
End log.
