(* ===== verification/LogCrash.v ===== *)
(** Crash safety of the log.

    [logical d] is the file system a disk stands for: the home blocks, except
    that a block the on-disk header lists counts with its copy in the log.  A
    commit changes it in one step, when the header is written; recovery never
    changes it.  So a machine that loses power at any point, any number of
    times, comes up with the file system as it was before or after the
    commit. *)

From stdpp Require Import functions.
From S2P Require Import Prelude Riscv Bytes State Sched Sleeplock Lru Bio Bcache Cache CacheOps Log LogSpec.

Lemma wp_assoc {A} (a b : K unit) (k : K A) w Q C :
  wp (a;; b) w (fun _ w' => wp k w' Q C) C -> wp (a;; b;; k) w Q C.
Proof. unfold wp, mbind, K_bind. destruct (a w) as [? w'| | | | |]; try done. by destruct (b w'). Qed.

Section crash.
Context (start : Z).

(** The home blocks the header on disk lists. *)
Definition hdr_list (d : disk) : list Z :=
  hdr_block (dread d start) <$> seq 0 (Z.to_nat (hdr_n (dread d start))).

(** The contents of a home block the disk stands for. *)
Definition logical (d : disk) (x : Z) : block :=
  match list_find (x =.) (hdr_list d) with
  | Some (k, _) => dread d (lblk start k)
  | None => dread d x
  end.

(** A block outside the log. *)
Definition out (x : Z) : Prop := ~ (start <= x <= start + LOGSIZE).

(** The header on disk lists distinct home blocks that fit in the log. *)
Definition valid_hdr (d : disk) (bl : list Z) : Prop :=
  hdr_ok (dread d start) bl /\ Forall (home start) bl /\ NoDup bl /\ (length bl < HEAD)%nat.

Lemma hdr_list_ok d bl : hdr_ok (dread d start) bl -> hdr_list d = bl.
Proof.
  intros (_ & Hn & Hb). unfold hdr_list. rewrite Hn, Nat2Z.id. apply list_eq. intros i.
  rewrite list_lookup_fmap. destruct (decide (i < length bl)%nat) as [Hi|Hi].
  - rewrite lookup_seq_lt by done. destruct (lookup_lt_is_Some_2 bl i Hi) as [b E]. rewrite E. simpl. f_equal. by apply Hb.
  - by rewrite lookup_seq_ge, lookup_ge_None_2 by lia.
Qed.

Lemma logical_in d bl k b :
  hdr_ok (dread d start) bl -> NoDup bl -> bl !! k = Some b -> logical d b = dread d (lblk start k).
Proof.
  intros Hh Hnd Hk. unfold logical. rewrite (hdr_list_ok d bl Hh).
  destruct (list_find (b =.) bl) as [[j c]|] eqn:E.
  - apply list_find_Some in E as (Hj & <- & _). by rewrite (NoDup_lookup bl j k b).
  - apply list_find_None in E. rewrite Forall_lookup in E. by destruct (E k b).
Qed.

Lemma logical_out d bl x : hdr_ok (dread d start) bl -> x ∉ bl -> logical d x = dread d x.
Proof.
  intros Hh Hx. unfold logical. rewrite (hdr_list_ok d bl Hh).
  destruct (list_find (x =.) bl) as [[j c]|] eqn:E; [|done].
  apply list_find_Some in E as (Hj & <- & _). by apply list_elem_of_lookup_2 in Hj.
Qed.

Lemma home_out b : home start b -> out b.
Proof. by intros [_ ?]. Qed.

(** Two disks with the same header and the same log, and the same contents
    elsewhere, stand for the same file system. *)
Lemma logical_eq d d' bl x :
  hdr_ok (dread d start) bl -> Forall (home start) bl -> NoDup bl -> 0 <= start ->
  (length bl <= Z.to_nat LOGSIZE)%nat -> (forall y, y ∉ bl -> dread d' y = dread d y) -> logical d' x = logical d x.
Proof.
  intros Hh Hhm Hnd Hs Hlen Heq. rewrite Forall_forall in Hhm. assert (HLS : LOGSIZE = 30) by done.
  assert (Hlog : forall k, (k <= Z.to_nat LOGSIZE)%nat -> start + Z.of_nat k ∉ bl).
  { intros k Hk Hin. destruct (Hhm _ Hin) as [_ []]. lia. }
  assert (Hh' : hdr_ok (dread d' start) bl).
  { rewrite Heq; [done|]. specialize (Hlog 0%nat ltac:(lia)). by rewrite Z.add_0_r in Hlog. }
  destruct (decide (x ∈ bl)) as [Hx|Hx].
  - apply list_elem_of_lookup in Hx as [k Hk]. rewrite (logical_in d bl k x), (logical_in d' bl k x) by done.
    apply Heq. pose proof (lookup_lt_Some _ _ _ Hk). replace (lblk start k) with (start + Z.of_nat (S k)) by (unfold lblk; lia).
    apply Hlog. lia.
  - rewrite (logical_out d bl x), (logical_out d' bl x) by done. by apply Heq.
Qed.

Context (Hstart : 0 <= start) (Hend : start + LOGSIZE < 2 ^ 31).

(** * Commit *)

(** Each logged block is pinned once, and nothing else is referred to. *)
Definition pins (bl : list Z) (x : Z) : Z := if decide (x ∈ bl) then 1 else 0.

(** A transaction ready to commit: no buffer is in use but those of the logged
    blocks, and the log on disk is empty. *)
Record committable (s : kst) (pid : Z) (V : Z -> block) (d : disk) (bl : list Z) : Prop := {
  co_cst : cst s pid V (pins bl) none d;
  co_log : log_has start s bl;
  co_home : Forall (home start) bl;
  co_nodup : NoDup bl;
  co_len : (length bl < HEAD)%nat;
  co_hdr : hdr_ok (dread d start) [];
}.

(** The disk stands for the file system [V], with a readable header. *)
Definition stands_for (V : Z -> block) (d : disk) : Prop :=
  (exists bl, valid_hdr d bl) /\ forall x, out x -> logical d x = V x.

Lemma out_not_lblk x k : out x -> (k < Z.to_nat LOGSIZE)%nat -> x <> lblk start k.
Proof. unfold out, lblk. intros H Hk ->. lia. Qed.

Lemma start_not_home bl : Forall (home start) bl -> start ∉ bl.
Proof.
  rewrite Forall_forall. intros H Hin. destruct (H _ Hin) as [_ []]. assert (HLS : LOGSIZE = 30) by done. lia.
Qed.

Section settle.
Context {pid : Z} {V : Z -> block}.

(** The state after a transaction: the log is empty, in memory and on disk, no
    buffer is in use, and the disk holds the contents. *)
Record settled (s' : kst) (V0 : Z -> block) : Prop := {
  se_log : log_has start s' [];
  se_hdr : hdr_ok (dread (k_disk s') start) [];
  se_cst : exists V' d', cst s' pid V' (fun _ => 0) none d' /\ forall x, out x -> V' x = V0 x /\ dread d' x = V0 x;
}.

(** The last two steps: erasing the header. *)
Lemma erase_spec s3 e V3 d3 bl3 (C : disk -> Prop) :
  cst s3 pid V3 (fun _ => 0) none d3 -> log_has start s3 bl3 -> length (V3 start) = Z.to_nat BSIZE -> C d3 ->
  (forall x, out x -> V3 x = V x /\ dread d3 x = V x) ->
  wp (setlog (fun l => l <| lh_n := 0 |>);; write_head) (mkW s3 e)
    (fun _ w => exists s', w = mkW s' e /\ lstep s3 s' /\ settled s' V) C.
Proof.
  intros Hc Hl Hlen HC Hout. eapply wp_step; [done|]. simpl wk. simpl wenv.
  set (s4 := s3 <| k_log ::= (fun l => l <| lh_n := 0 |>) |>). assert (Hl4 : log_has start s4 []) by (by apply log_has_cleared with bl3).
  eapply wp_mono; [apply (write_head_spec start Hstart Hend s4 e [] {[start]} C (cst_log s3 _ Hc) Hl4)| |done].
  - constructor.
  - split; [done|]. rewrite size_singleton. vm_compute. lia.
  - set_solver.
  - done.
  - done.
  - done.
  - intros [] w (s' & h & -> & Hst & Hh & Hc'). exists s'. split_and!; [done| |].
    + eapply lstep_trans; [apply lstep_log|apply lstep_cstep, Hst].
    + split; [by eapply log_has_step|rewrite (c_disk _ _ _ _ _ _ Hc'), dread_insert, decide_True; done|].
      eexists _, _. split; [exact Hc'|]. intros x Hx. assert (start <> x).
      { intros <-. apply Hx. assert (HLS : LOGSIZE = 30) by done. lia. }
      rewrite fn_lookup_insert_ne, dread_insert, decide_False by done. by apply Hout.
Qed.
End settle.

Section commit.
Context {pid : Z} {V : Z -> block} {d : disk} {s : kst} {bl : list Z} (Hco : committable s pid V d bl).

Lemma co_bound : (length bl <= Z.to_nat LOGSIZE)%nat.
Proof. eapply bl_bound, Hco. Qed.

Lemma pins_in x : pins bl x <> 0 -> x ∈ bl.
Proof. unfold pins. by case_decide. Qed.

Lemma co_clean x : x ∉ bl -> V x = dread d x.
Proof.
  intros Hx. destruct Hco as [Hc _ _ _ _ _]. rewrite <- (c_view _ _ _ _ _ _ Hc), <- (c_disk _ _ _ _ _ _ Hc).
  apply clean_view; [apply Hc|]. rewrite (c_refs _ _ _ _ _ _ Hc). unfold pins. by rewrite decide_False.
Qed.

(** Before the header is written the disk stands for the old contents. *)
Lemma before_commit d' : log_only start 0 (length bl) d d' -> stands_for (logical d) d'.
Proof.
  intros Hd. pose proof (co_hdr _ _ _ _ _ Hco) as Hh. pose proof co_bound as Hb.
  assert (Hh' : hdr_ok (dread d' start) []) by (rewrite Hd; [done|unfold lblk; lia]).
  split; [exists []; split_and!; [done|constructor..|vm_compute; lia]|].
  intros x Hx. rewrite (logical_out d' [] x Hh'), (logical_out d [] x Hh) by set_solver.
  apply Hd. intros Hl. apply (out_not_lblk x (Z.to_nat (x - start - 1)) Hx); unfold lblk in *; lia.
Qed.

(** Once it is written, the disk stands for the new contents, and does so while
    the blocks are installed. *)
Lemma after_commit d1 h d' :
  log_only start 0 (length bl) d d1 -> (forall j b, bl !! j = Some b -> dread d1 (lblk start j) = V b) ->
  hdr_ok h bl -> (forall x, x ∉ bl -> dread d' x = dread (<[start := h]> d1) x) -> stands_for V d'.
Proof.
  intros Hd1 Hlog Hh Hd'. destruct Hco as [_ _ Hhm Hnd Hlen _]. pose proof co_bound as Hb.
  set (d2 := <[start := h]> d1).
  assert (Hh2 : hdr_ok (dread d2 start) bl) by (subst d2; by rewrite dread_insert, decide_True).
  assert (Hh' : hdr_ok (dread d' start) bl) by (rewrite Hd'; [done|by apply start_not_home]).
  split; [by exists bl|]. intros x Hx. rewrite (logical_eq d2 d' bl x) by done.
  destruct (decide (x ∈ bl)) as [Hin|Hin].
  - apply list_elem_of_lookup in Hin as [k Hk]. rewrite (logical_in d2 bl k x) by done. subst d2.
    rewrite dread_insert, decide_False by (unfold lblk; lia). by apply Hlog.
  - rewrite (logical_out d2 bl x Hh2 Hin). subst d2. rewrite dread_insert, decide_False.
    + rewrite Hd1; [by rewrite co_clean|]. intros Hl.
      apply (out_not_lblk x (Z.to_nat (x - start - 1)) Hx); unfold lblk in *; lia.
    + intros <-. apply Hx. assert (HLS : LOGSIZE = 30) by done. lia.
Qed.

Lemma fits_pins : fits (pins bl) ({[start]} ∪ list_to_set bl).
Proof.
  destruct Hco as [_ _ Hhm Hnd Hlen _]. split.
  - intros x Hx%pins_in. set_solver.
  - rewrite size_union, size_singleton, size_list_to_set by (done || pose proof (start_not_home bl Hhm); set_solver). lia.
Qed.

Lemma out_not_log x : out x -> ~ (lblk start 0 <= x < lblk start (length bl)).
Proof.
  intros Hx Hl. pose proof co_bound. apply (out_not_lblk x (Z.to_nat (x - start - 1)) Hx); unfold lblk in *; lia.
Qed.

(** Writing the log and the header: the transaction commits. *)
Lemma log_phase e (C : disk -> Prop) :
  (forall d', log_only start 0 (length bl) d d' -> C d') ->
  wp (write_log;; write_head) (mkW s e)
    (fun _ w => exists s2 V2 d1 h, w = mkW s2 e /\ cstep s s2 /\ hdr_ok h bl /\
      cst s2 pid V2 (pins bl) none (<[start := h]> d1) /\ log_only start 0 (length bl) d d1 /\
      (forall j b, bl !! j = Some b -> V2 (lblk start j) = V b /\ dread d1 (lblk start j) = V b) /\
      (forall x, out x -> V2 x = V x) /\ V2 start = h) C.
Proof.
  intros Hold. pose proof Hco as [Hc Hl Hhm Hnd Hlen Hh]. pose proof co_bound as Hb.
  assert (HLS : LOGSIZE = 30) by done. pose proof (start_not_home bl Hhm) as Hsb.
  rewrite wp_bind. eapply wp_mono; [apply (write_log_spec start Hstart Hend (pid := pid) (R := pins bl) e bl C Hhm Hnd Hlen
    pins_in) with (V := V) (d := d)| |done]; [|lia|done|done|done|].
  { intros b Hbin. unfold pins. by rewrite decide_True. }
  intros [] w (s1 & V1 & d1 & -> & Hst1 & Hc1 & Hd1 & HV1 & Hj1).
  pose proof (log_has_step _ _ _ _ Hl Hst1) as Hl1.
  eapply wp_mono; [apply (write_head_spec start Hstart Hend s1 e bl _ C Hc1 Hl1 Hhm fits_pins)| |done]; [set_solver|..].
  { unfold pins. by rewrite decide_False. }
  { rewrite HV1 by (unfold lblk; lia). rewrite co_clean by done. apply Hh. }
  { by apply Hold. }
  intros [] w (s2 & h & -> & Hst2 & Hhd & Hc2). eexists s2, _, d1, h. split_and!; [done|by eapply cstep_trans|done|exact Hc2|done|..].
  - intros j b Hj. rewrite fn_lookup_insert_ne by (unfold lblk; lia). by apply (Hj1 j b); [lia|].
  - intros x Hx. rewrite fn_lookup_insert_ne by (intros <-; apply Hx; lia). by apply HV1, out_not_log.
  - apply fn_lookup_insert.
Qed.

(** Installing the blocks and erasing the header. *)
Lemma install_phase e s2 V2 d1 h (C : disk -> Prop) :
  cst s2 pid V2 (pins bl) none (<[start := h]> d1) -> log_has start s2 bl -> hdr_ok h bl ->
  log_only start 0 (length bl) d d1 ->
  (forall j b, bl !! j = Some b -> V2 (lblk start j) = V b) -> (forall x, out x -> V2 x = V x) -> V2 start = h ->
  (forall d', (forall x, x ∉ bl -> dread d' x = dread (<[start := h]> d1) x) -> C d') ->
  wp (install_trans false;; setlog (fun l => l <| lh_n := 0 |>);; write_head) (mkW s2 e)
    (fun _ w => exists s', w = mkW s' e /\ lstep s2 s' /\ settled (pid := pid) s' V) C.
Proof.
  intros Hc2 Hl2 Hhd Hd1 HVl HVo HVs HC. pose proof Hco as [_ _ Hhm Hnd Hlen _]. pose proof co_bound as Hb.
  assert (HLS : LOGSIZE = 30) by done. pose proof (start_not_home bl Hhm) as Hsb. rewrite wp_bind.
  eapply wp_mono; [apply (install_spec start Hstart Hend (pid := pid) e bl false C Hhm Hnd Hlen) with (V := V2) (R := pins bl) (d := <[start:=h]> d1)| |done];
    [lia|done|done|apply pins_in| |done|].
  { intros j b _ Hj. unfold pins. rewrite decide_True; [done|]. by eapply list_elem_of_lookup_2. }
  intros [] w (s3 & V3 & R3 & d3 & -> & Hst3 & Hc3 & Hout3 & Hin3).
  assert (HR3 : forall x, R3 x = 0).
  { intros x. destruct (decide (x ∈ bl)) as [Hx|Hx].
    - pose proof Hx as [j Hj]%list_elem_of_lookup. specialize (Hin3 j x Hj). rewrite decide_True in Hin3 by lia.
      destruct Hin3 as (_ & _ & ->). unfold pins. by rewrite decide_True.
    - destruct (Hout3 x Hx) as (_ & _ & ->). unfold pins. by rewrite decide_False. }
  assert (Hc3' : cst s3 pid V3 (fun _ => 0) none d3) by (by eapply cst_ext).
  eapply wp_mono; [apply (erase_spec (V := V) s3 e V3 d3 bl C Hc3')| |done].
  - by eapply log_has_step.
  - destruct (Hout3 start Hsb) as (-> & _ & _). rewrite HVs. apply Hhd.
  - apply HC. intros x Hx. by apply Hout3.
  - intros x Hx. assert (Hsx : start <> x) by (intros <-; apply Hx; lia). destruct (decide (x ∈ bl)) as [Hin|Hin].
    + pose proof Hin as [j Hj]%list_elem_of_lookup. specialize (Hin3 j x Hj). rewrite decide_True in Hin3 by lia.
      destruct Hin3 as (-> & -> & _). by rewrite (HVl j x Hj).
    + destruct (Hout3 x Hin) as (-> & -> & _). rewrite dread_insert, decide_False by done.
      rewrite Hd1 by (by apply out_not_log). rewrite <- co_clean by done. by rewrite HVo.
  - intros [] w (s4 & -> & Hst4 & Hse). exists s4. split_and!; [done| |done].
    eapply lstep_trans; [|exact Hst4]. by apply lstep_cstep.
Qed.

Lemma commit_spec e :
  wp commit (mkW s e)
    (fun _ w => exists s', w = mkW s' e /\ lstep s s' /\ settled (pid := pid) s' V)
    (fun d' => stands_for (logical d) d' \/ stands_for V d').
Proof.
  pose proof Hco as [Hc Hl Hhm Hnd Hlen Hh]. unfold commit. eapply wp_step; [done|].
  simpl wk. rewrite (lg_n _ s bl Hl), Z.gtb_ltb.
  destruct (Z.ltb_spec 0 (Z.of_nat (length bl))) as [Hpos|Hpos]; cbn [when].
  - apply wp_assoc. eapply wp_mono; [apply (log_phase e (stands_for (logical d)) before_commit)| |by left].
    intros [] w (s2 & V2 & d1 & h & -> & Hst & Hhd & Hc2 & Hd1 & HVl & HVo & HVs).
    eapply wp_mono; [apply (install_phase e s2 V2 d1 h (stands_for V) Hc2)| |by right]; try done.
    + by eapply log_has_step.
    + intros j b Hj. by apply HVl.
    + intros d' Hd'. apply (after_commit d1 h d'); try done. intros j b Hj. by apply HVl.
    + intros [] w (s' & -> & Hst' & Hse). exists s'. split_and!; [done| |done].
      eapply lstep_trans; [|exact Hst']. by apply lstep_cstep.
  - assert (Hnil : bl = []) by (apply nil_length_inv; lia). exists s.
    split_and!; [done|apply lstep_cstep, cstep_refl, Hc|].
    split; [by rewrite <- Hnil|by rewrite (c_disk _ _ _ _ _ _ Hc)|]. exists V, d.
    split; [eapply cst_ext; [exact Hc|done|by rewrite Hnil|done]|]. intros x _.
    rewrite <- co_clean by (rewrite Hnil; set_solver). done.
Qed.
End commit.

(** * Recovery *)

Lemma read_loop h e : forall m k s,
  (k + m <= length (lh_block (k_log s)))%nat ->
  exists lb, forK (seq k m) (fun i => put_lh_block i (hdr_block h i)) (mkW s e) =
      Ok tt (mkW (s <| k_log ::= (fun l => l <| lh_block := lb |>) |>) e) /\
    length lb = length (lh_block (k_log s)) /\
    forall j, lb !! j = if decide (k <= j < k + m)%nat then Some (hdr_block h j) else lh_block (k_log s) !! j.
Proof.
  induction m as [|m IH]; intros k s Hk; cbn [seq forK].
  - exists (lh_block (k_log s)). split_and!; [kret; by destruct (k_log s)|done|]. intros j. by rewrite decide_False by lia.
  - set (s1 := s <| k_log ::= (fun l => l <| lh_block ::= <[k := hdr_block h k]> |>) |>).
    assert (E1 : put_lh_block k (hdr_block h k) (mkW s e) = Ok tt (mkW s1 e)).
    { unfold put_lh_block, getlog, setlog. krun. destruct (Nat.ltb_spec k (length (lh_block (k_log s)))); [reflexivity|lia]. }
    rewrite (bind_ok _ _ _ _ _ E1). destruct (IH (S k) s1) as (lb & E & Hlen & Hlk); [simpl; rewrite length_insert; lia|].
    exists lb. split_and!; [rewrite E; kret|by rewrite Hlen; simpl; rewrite length_insert|].
    intros j. rewrite Hlk. simpl. rewrite list_lookup_insert. destruct (decide (k = j)) as [<-|Hne].
    + rewrite decide_False, !decide_True by lia. done.
    + rewrite (decide_False (P := k = j /\ _)) by naive_solver.
      destruct (decide (k <= j < k + S m)%nat); [rewrite decide_True by lia|rewrite decide_False by lia]; done.
Qed.

(** read_head fetches the list of blocks from disk. *)
Lemma read_head_spec {pid V R d} s e bl bl0 U :
  cst s pid V R none d -> log_has start s bl0 -> fits R U -> start ∈ U -> R start = 0 ->
  hdr_ok (V start) bl -> (length bl <= Z.to_nat LOGSIZE)%nat ->
  exists s', read_head (mkW s e) = Ok tt (mkW s' e) /\ lstep s s' /\ cst s' pid V R none d /\ log_has start s' bl.
Proof.
  intros Hc Hl HU HsU HR Hh Hlen. assert (HLS : LOGSIZE = 30) by done. unfold read_head.
  rewrite (bind_ok getlog _ _ (k_log s) (mkW s e)), (lg_start _ s bl0 Hl) by done.
  destruct (do_read s e start U Hc) as (i & s1 & E1 & Hst1 & Hc1 & Hi1 & _ & _); [done..|].
  pose proof (log_has_step _ s s1 bl0 Hl Hst1) as [L1 L2 L3 L4 L5].
  rewrite (bind_ok _ _ _ i (mkW s1 e)) by (rewrite (log_bread_ok start s e bl0) by (done || lia); exact E1).
  destruct (held_data s1 start i Hc1 Hi1) as (b & Hb & Hbd). rewrite (bind_ok _ _ _ _ _ (getb_ok i s1 e b Hb)), Hbd.
  destruct Hh as (Hhl & Hn & Hbl). rewrite Hn, Nat2Z.id.
  set (s2 := s1 <| k_log ::= (fun l => l <| lh_n := Z.of_nat (length bl) |>) |>).
  rewrite (bind_ok _ _ _ tt (mkW s2 e)) by done.
  destruct (read_loop (V start) e (length bl) 0 s2) as (lb & E2 & Hll & Hlk); [simpl; lia|].
  rewrite (bind_ok _ _ _ _ _ E2). set (s3 := s2 <| k_log ::= _ |>).
  assert (Hc3 : cst s3 pid V (<[start := R start + 1]> R) (<[start := Some pid]> none) d).
  { by apply (cst_log s2), (cst_log s1). }
  destruct (do_release s3 e start i Hc3) as (s4 & E4 & Hst4 & Hc4 & _).
  { by apply (held_log s2), (held_log s1). }
  { intros _. rewrite <- (c_view _ _ _ _ _ _ Hc), <- (c_disk _ _ _ _ _ _ Hc). apply clean_view; [apply Hc|].
    by rewrite (c_refs _ _ _ _ _ _ Hc). }
  exists s4. split_and!; [done| |eapply cst_ext; [exact Hc4|unfold none; fn_eq..]|].
  - eapply lstep_trans; [apply lstep_cstep, Hst1|]. eapply lstep_trans; [apply lstep_log|].
    eapply lstep_trans; [apply lstep_log|]. by apply lstep_cstep.
  - apply (log_has_step _ s3 s4); [|done]. split; simpl; try done; [by rewrite Hll|].
    apply list_eq. intros j. destruct (decide (j < length bl)%nat) as [Hj|Hj].
    + rewrite lookup_take_lt, Hlk, decide_True by lia. destruct (lookup_lt_is_Some_2 bl j Hj) as [c Hc'].
      by rewrite Hc', (Hbl j c Hc').
    + by rewrite lookup_take_ge, lookup_ge_None_2 by lia.
Qed.

Lemma stands_for_self d bl : valid_hdr d bl -> stands_for (logical d) d.
Proof. intros H. split; [by exists bl|done]. Qed.

Lemma fits_zero x : fits (fun _ => 0) {[x]}.
Proof. split; [done|]. rewrite size_singleton. vm_compute. lia. Qed.

(** recover_from_log puts the file system the disk stands for in place; a power
    failure on the way leaves a disk that still stands for it. *)
Lemma recover_spec {pid V d} s e bl bl0 :
  cst s pid V (fun _ => 0) none d -> log_has start s bl0 -> valid_hdr d bl ->
  wp recover_from_log (mkW s e)
    (fun _ w => exists s', w = mkW s' e /\ lstep s s' /\ settled (pid := pid) s' (logical d))
    (stands_for (logical d)).
Proof.
  intros Hc Hl Hv. pose proof Hv as (Hh & Hhm & Hnd & Hlen). assert (HLS : LOGSIZE = 30) by done.
  assert (HV : forall x, V x = dread d x).
  { intros x. rewrite <- (c_view _ _ _ _ _ _ Hc), <- (c_disk _ _ _ _ _ _ Hc). apply clean_view; [apply Hc|].
    by rewrite (c_refs _ _ _ _ _ _ Hc). }
  assert (Hlen' : (length bl <= Z.to_nat LOGSIZE)%nat) by (change HEAD with (Z.to_nat LOGSIZE) in Hlen; lia).
  pose proof (start_not_home bl Hhm) as Hsb.
  unfold recover_from_log.
  destruct (read_head_spec s e bl bl0 {[start]} Hc Hl (fits_zero start)) as (s1 & E1 & Hst1 & Hc1 & Hl1);
    [set_solver|done|by rewrite HV|done|].
  eapply wp_step; [exact E1|]. rewrite wp_bind.
  eapply wp_mono; [apply (install_spec start Hstart Hend (pid := pid) e bl true (stands_for (logical d)) Hhm Hnd Hlen) with (V := V) (R := fun _ => 0) (d := d)| |done];
    [lia|done|done|done|done| |].
  { intros d' Hd'. split; [exists bl; split_and!; try done; by rewrite Hd'|]. intros x _. by apply (logical_eq d d' bl). }
  intros [] w (s3 & V3 & R3 & d3 & -> & Hst3 & Hc3 & Hout3 & Hin3).
  assert (Hall : forall x, V3 x = logical d x /\ dread d3 x = logical d x /\ R3 x = 0).
  { intros x. destruct (decide (x ∈ bl)) as [Hx|Hx].
    - pose proof Hx as [j Hj]%list_elem_of_lookup. specialize (Hin3 j x Hj). rewrite decide_True in Hin3 by lia.
      destruct Hin3 as (-> & -> & ->). by rewrite (logical_in d bl j x), HV by done.
    - destruct (Hout3 x Hx) as (-> & -> & ->). by rewrite (logical_out d bl x), HV by done. }
  eapply wp_mono; [apply (erase_spec (pid := pid) (V := logical d) s3 e V3 d3 bl)| |done].
  - eapply cst_ext; [exact Hc3|done|intros x; apply Hall|done].
  - by eapply log_has_step.
  - destruct (Hout3 start Hsb) as (-> & _ & _). rewrite HV. apply Hh.
  - split; [exists bl; split_and!; try done; by rewrite (proj1 (proj2 (Hout3 start Hsb)))|].
    intros x _. apply (logical_eq d d3 bl); try done. intros y Hy. by apply Hout3.
  - intros x _. by destruct (Hall x) as (-> & -> & _).
  - intros [] w (s4 & -> & Hst4 & Hse). exists s4. split_and!; [done| |done].
    eapply lstep_trans; [exact Hst1|]. eapply lstep_trans; [|exact Hst4]. by apply lstep_cstep.
Qed.
End crash.
