(* ===== verification/LogProps.v ===== *)
(** What the log promises: commits are atomic and recovery restores them, a
    transaction grows by the blocks written in it, and begin_op admits no more
    operations than the log has room for. *)

From stdpp Require Import functions.
From S2P Require Import Prelude Riscv Bytes State Sched Sleeplock Lru Bio Bcache Cache CacheOps Log LogSpec LogCrash.

(** * The end of a transaction *)

Lemma cst_woken {pid V R O d} s s' :
  cst s pid V R O d -> woken s s' -> s' = s <| k_procs := k_procs s' |> -> cst s' pid V R O d.
Proof.
  intros [Hi Ha HV HR HO Hd] Hw E. split.
  - apply (bc_inv_ext s); [done|by rewrite E|by rewrite E].
  - apply (amb_woken s s'); [done|done|by rewrite E|by rewrite E].
  - intros x. rewrite <- HV, E. done.
  - intros x. rewrite <- HR, E. done.
  - intros x. rewrite <- HO, E. done.
  - by rewrite E.
Qed.

Lemma cst_held {pid V R O d} s g :
  cst s pid V R O d -> amb (s <| k_held ::= g |>) pid -> cst (s <| k_held ::= g |>) pid V R O d.
Proof. intros [Hi Ha HV HR HO Hd] Ha'. split; try done. by apply (bc_inv_ext s). Qed.

Lemma held_held s g pid bn i : held s pid bn i -> held (s <| k_held ::= g |>) pid bn i.
Proof. intros (b & Hb & H). exists b. split; [|done]. by apply (buf_of_ext s). Qed.

(** Updating the log under its lock and waking the waiters. *)
Lemma log_unlock s e f :
  LLog ∉ k_held s -> plocks_free s -> table_ok s ->
  (acquire LLog;; setlog f;; wakeup (Some ChLog);; release LLog) (mkW s e) =
  Ok tt (mkW (s <| k_log ::= f |> <| k_procs ::= wake (Some ChLog) (k_cur s) |>) e).
Proof.
  intros H Hp Ht. unfold setlog. rewrite bind_acquire by done. krun. simpl wk. simpl wenv.
  erewrite bind_ok; [|apply wakeup_eq; [|done]].
  - rewrite release_ok by (simpl; set_solver). kret. by rewrite filter_cons_self.
  - intros i. simpl. intros [?|?]%elem_of_cons; [done|by apply Hp].
Qed.

(** end_op by the last operation commits. *)
Lemma end_op_commits s e :
  LLog ∉ k_held s -> plocks_free s -> table_ok s -> l_outstanding (k_log s) = 1 -> l_committing (k_log s) = 0 ->
  end_op (mkW s e) =
  (commit;;
   acquire LLog;;
   setlog (fun l => l <| l_committing := 0 |>);;
   wakeup (Some ChLog);;
   release LLog)
    (mkW (s <| k_log ::= (fun l => l <| l_outstanding := 0 |> <| l_committing := 1 |>) |>) e).
Proof.
  intros Hh Hpl Ht Ho Hcm. unfold end_op, setlog, getlog. rewrite bind_acquire by done. krun. simpl.
  rewrite Hcm. cbn [Z.eqb negb]. krun. rewrite Ho. simpl. krun. simpl.
  match goal with |- _ (mkW ?a e) = _ (mkW ?b e) => assert (Es : a = b) end.
  { kst_eq; [by rewrite filter_cons_self|]. destruct (k_log s). simpl in *. by subst. }
  by rewrite Es.
Qed.

Lemma amb_frame s s' pid : amb s pid -> lstep s s' -> amb s' pid.
Proof. intros Ha [Hw E]. apply (amb_woken s s'); [done|done|by rewrite E|by rewrite E]. Qed.

Section end_op.
Context (start : Z) (Hstart : 0 <= start) (Hend : start + LOGSIZE < 2 ^ 31).

Lemma committable_log s pid V d bl f :
  committable start s pid V d bl ->
  (forall l, l_start (f l) = l_start l /\ l_dev (f l) = l_dev l /\ lh_n (f l) = lh_n l /\ lh_block (f l) = lh_block l) ->
  committable start (s <| k_log ::= f |>) pid V d bl.
Proof.
  intros [Hc [L1 L2 L3 L4 L5] H1 H2 H3 H4] Hf. destruct (Hf (k_log s)) as (F1 & F2 & F3 & F4).
  split; try done; [by apply cst_log|]. split; simpl; rewrite ?F1, ?F2, ?F3, ?F4; done.
Qed.

Lemma settled_unlock {pid} s V0 f :
  settled start (pid := pid) s V0 ->
  (forall l, l_start (f l) = l_start l /\ l_dev (f l) = l_dev l /\ lh_n (f l) = lh_n l /\ lh_block (f l) = lh_block l) ->
  settled start (pid := pid) (s <| k_log ::= f |> <| k_procs ::= wake (Some ChLog) (k_cur s) |>) V0.
Proof.
  intros [[L1 L2 L3 L4 L5] Hh (V' & d' & Hc & Hx)] Hf. destruct (Hf (k_log s)) as (F1 & F2 & F3 & F4).
  split; [split; simpl; rewrite ?F1, ?F2, ?F3, ?F4; done|done|]. exists V', d'. split; [|done].
  apply (cst_woken (s <| k_log ::= f |>)); [by apply cst_log|apply wake_woken|kst_eq].
Qed.

Lemma end_op_spec s e pid V d bl :
  committable start s pid V d bl -> LLog ∉ k_held s ->
  l_outstanding (k_log s) = 1 -> l_committing (k_log s) = 0 ->
  wp end_op (mkW s e)
    (fun _ w => exists s', w = mkW s' e /\ lstep s s' /\ settled start (pid := pid) s' V /\
      l_committing (k_log s') = 0)
    (fun d' => stands_for start (logical start d) d' \/ stands_for start V d').
Proof.
  intros Hco Hh Ho Hcm. pose proof (c_amb _ _ _ _ _ _ (co_cst _ _ _ _ _ _ Hco)) as Ha.
  unfold wp. rewrite end_op_commits by (done || apply Ha).
  set (f := fun l : log => l <| l_outstanding := 0 |> <| l_committing := 1 |>).
  set (s1 := s <| k_log ::= f |>). pose proof (committable_log s pid V d bl f Hco ltac:(done)) as Hco1.
  fold s1 in Hco1.
  pose proof (commit_spec start Hstart Hend Hco1 e) as Hw. unfold wp in Hw. unfold mbind at 1, K_bind at 1.
  destruct (commit (mkW s1 e)) as [[] w| | | | |]; try done. destruct Hw as (s2 & -> & Hst & Hse).
  pose proof (amb_frame s1 s2 pid (c_amb _ _ _ _ _ _ (co_cst _ _ _ _ _ _ Hco1)) Hst) as Ha2.
  rewrite log_unlock; [|by rewrite (ls_frame _ _ Hst)|apply Ha2|apply Ha2].
  eexists. split_and!; [done| |by apply settled_unlock|done].
  eapply lstep_trans; [apply lstep_log|]. eapply lstep_trans; [exact Hst|].
  eapply lstep_trans; [apply lstep_log|]. split; [apply wake_woken|kst_eq].
Qed.
End end_op.

(** * log_write *)

Section log_write.
Context (start : Z).

Lemma log_index_spec s e bl bn :
  log_has start s bl -> Forall (fun b => 0 <= b < 2 ^ 31) bl ->
  forall m k, (k + m = length bl)%nat -> bn ∉ take k bl ->
  exists i, log_index m k bn (mkW s e) = Ok i (mkW s e) /\
    ((bl !! i = Some bn) \/ (bn ∉ bl /\ i = length bl)).
Proof.
  intros Hl Hr. induction m as [|m IH]; intros k Hk Hn; cbn [log_index].
  - exists k. split; [done|]. right. rewrite take_ge in Hn by lia. split; [done|lia].
  - destruct (lookup_lt_is_Some_2 bl k ltac:(lia)) as [b Hb]. pose proof (Forall_lookup_1 _ _ _ _ Hr Hb) as Hbr.
    rewrite (bind_ok _ _ _ _ _ (get_lh_block_ok start s e bl k b Hl Hb)).
    simpl in Hbr. rewrite u32_small by lia. destruct (Z.eqb_spec b bn) as [->|Hne].
    + exists k. split; [done|by left].
    + apply (IH (S k)); [lia|]. rewrite (take_S_r _ _ b) by done. set_solver.
Qed.

Lemma put_lh_block_ok s e k v :
  (k < length (lh_block (k_log s)))%nat ->
  put_lh_block k v (mkW s e) = Ok tt (mkW (s <| k_log ::= (fun l => l <| lh_block ::= <[k := v]> |>) |>) e).
Proof.
  intros H. unfold put_lh_block, getlog, setlog. krun.
  destruct (Nat.ltb_spec k (length (lh_block (k_log s)))); [reflexivity|lia].
Qed.

Lemma amb_llog s pid : amb s pid -> amb (s <| k_held ::= cons LLog |>) pid.
Proof.
  intros [H1 H2 H3 H4 H5]. split; try done; simpl.
  - set_solver.
  - intros i. specialize (H2 i). set_solver.
  - intros i [?|Hi]%elem_of_cons; [done|by apply H4].
Qed.

(** The log after block [bn] was added at index [k]. *)
Lemma log_has_append s bl bn k :
  log_has start s bl -> (length bl < Z.to_nat LOGSIZE)%nat -> k = length bl ->
  log_has start (s <| k_log ::= (fun l => l <| lh_block ::= <[k := bn]> |> <| lh_n ::= Z.succ |>) |>) (bl ++ [bn]).
Proof.
  intros [L1 L2 L3 L4 L5] Hlen ->. split; simpl; try done.
  - rewrite L3, length_app. simpl. lia.
  - by rewrite length_insert.
  - rewrite length_app. simpl. rewrite Nat.add_1_r.
    rewrite (take_S_r _ _ bn) by (apply list_lookup_insert_eq; lia). by rewrite take_insert_ge, L5 by lia.
Qed.

Lemma lh_block_id (l : log) k v : lh_block l !! k = Some v -> l <| lh_block ::= <[k := v]> |> = l.
Proof. destruct l. simpl. intros H. unfold fset, set_lh_block. simpl. by rewrite list_insert_id. Qed.

(** Room for one more block in the log. *)
Definition log_room (l : log) : Prop := lh_n l < LOGSIZE /\ lh_n l < l_size l - 1.

Lemma log_write_run s e bl bn i b k :
  log_has start s bl -> LLog ∉ k_held s -> log_room (k_log s) -> 1 <= l_outstanding (k_log s) ->
  k_bufs s !! i = Some b -> b_blockno b = bn -> 0 <= bn < 2 ^ 31 ->
  log_index (length bl) 0 bn (mkW (s <| k_held ::= cons LLog |>) e) = Ok k (mkW (s <| k_held ::= cons LLog |>) e) ->
  (k < length (lh_block (k_log s)))%nat ->
  log_write i (mkW s e) =
  (when (Z.of_nat k =? Z.of_nat (length bl)) (bpin i;; setlog (fun l => l <| lh_n ::= Z.succ |>));; release LLog)
    (mkW (s <| k_held ::= cons LLog |> <| k_log ::= (fun l => l <| lh_block ::= <[k := bn]> |>) |>) e).
Proof.
  intros Hl Hh [Hr1 Hr2] Ho Hb Hbn Hrange Hidx Hk. unfold log_write, getlog. rewrite bind_acquire by done. krun. simpl wk.
  simpl wenv. set (s1 := s <| k_held ::= cons LLog |>) in *. simpl k_log.
  rewrite !Z.geb_leb.
  destruct (Z.leb_spec LOGSIZE (lh_n (k_log s))) as [|_]; [lia|].
  destruct (Z.leb_spec (l_size (k_log s) - 1) (lh_n (k_log s))) as [|_]; [lia|]. cbn [orb]. krun.
  destruct (Z.ltb_spec (l_outstanding (k_log s)) 1) as [|_]; [lia|]. krun.
  rewrite (bind_ok _ _ _ _ _ (getb_ok i s1 e b Hb)), Hbn. rewrite (lg_n _ s bl Hl), Nat2Z.id.
  rewrite (bind_ok _ _ _ _ _ Hidx). rewrite (bind_ok _ _ _ _ _ (put_lh_block_ok s1 e k _ Hk)).
  unfold i32. rewrite sext_small by lia. done.
Qed.

(** log_write records the block in the transaction: a block that is already
    there is absorbed, a new one is added and its buffer pinned. *)
Lemma log_write_spec {pid V R O d} s e bl bn i :
  cst s pid V R O d -> held s pid bn i -> log_has start s bl -> Forall (fun b => 0 <= b < 2 ^ 31) bl ->
  0 <= bn < 2 ^ 31 -> LLog ∉ k_held s -> log_room (k_log s) -> 1 <= l_outstanding (k_log s) ->
  exists s', log_write i (mkW s e) = Ok tt (mkW s' e) /\ lstep s s' /\
    (forall x j, held s pid x j -> held s' pid x j) /\
    l_outstanding (k_log s') = l_outstanding (k_log s) /\ l_size (k_log s') = l_size (k_log s) /\
    l_committing (k_log s') = l_committing (k_log s) /\
    if decide (bn ∈ bl) then cst s' pid V R O d /\ log_has start s' bl
    else cst s' pid V (<[bn := R bn + 1]> R) O d /\ log_has start s' (bl ++ [bn]).
Proof.
  intros Hc Hi Hl Hbl Hbn Hh Hroom Ho. pose proof Hi as (b & (_ & Hb & _ & Hbb) & _).
  pose proof (bl_bound start s bl Hl) as Hbd. destruct Hroom as [Hroom1 Hroom2].
  pose proof (lg_n _ _ _ Hl) as Hn. pose proof (lg_len _ _ _ Hl) as Hll.
  set (s1 := s <| k_held ::= cons LLog |>).
  assert (Hl1 : log_has start s1 bl) by (by destruct Hl).
  destruct (log_index_spec s1 e bl bn Hl1 Hbl (length bl) 0 eq_refl) as (k & Hidx & Hk); [set_solver|].
  assert (Hkl : (k < length (lh_block (k_log s)))%nat).
  { destruct Hk as [Hk|[_ ->]]; [apply lookup_lt_Some in Hk|]; lia. }
  rewrite (log_write_run s e bl bn i b k) by done.
  destruct Hk as [Hk|[Hnin ->]].
  - assert (Hin : bn ∈ bl) by (by eapply list_elem_of_lookup_2). destruct (decide (bn ∈ bl)) as [_|]; [|done].
    apply lookup_lt_Some in Hk as Hkl'. destruct (Z.eqb_spec (Z.of_nat k) (Z.of_nat (length bl))) as [|_]; [lia|].
    exists s. split_and!; try done; [|split; [reflexivity|kst_eq]].
    krun. kret; [by rewrite filter_cons_self|]. apply lh_block_id.
    rewrite <- (lg_bl _ _ _ Hl) in Hk. by apply lookup_take_Some in Hk as [? _].
  - destruct (decide (bn ∈ bl)) as [|_]; [done|]. rewrite Z.eqb_refl. krun.
    fold s1. set (s2 := s1 <| k_log ::= (fun l => l <| lh_block ::= <[length bl := bn]> |>) |>).
    assert (Hc2 : cst s2 pid V R O d) by (apply cst_log, cst_held; [done|apply amb_llog, Hc]).
    destruct (do_ref s2 e bn i Z.succ Hc2) as (s3 & E3 & Hst3 & Hc3 & Hh3 & _).
    { by apply held_log, held_held. } { rewrite <- (c_refs _ _ _ _ _ _ Hc). pose proof (refs_nonneg s bn (c_inv _ _ _ _ _ _ Hc)). lia. }
    rewrite (bind_ok (bpin i) _ _ _ _ E3). unfold setlog. krun.
    pose proof (cs_frame _ _ Hst3) as E.
    rewrite release_ok by (simpl; rewrite E; simpl; set_solver). simpl wk. simpl wenv.
    set (s4 := s3 <| k_log ::= (fun l => l <| lh_n ::= Z.succ |>) |> <| k_held ::= filter (.≠ LLog) |>). exists s4.
    assert (Hf : k_held s4 = k_held s) by (subst s4; rewrite E; simpl; by rewrite filter_cons_self).
    assert (Ha4 : amb s4 pid).
    { apply (amb_woken s s4); [apply Hc|exact (cs_woken _ _ Hst3)|subst s4; by rewrite E|done]. }
    split_and!; [done| | |by subst s4; rewrite E|by subst s4; rewrite E|by subst s4; rewrite E|by apply cst_held; [apply cst_log|]|].
    + split; [exact (cs_woken _ _ Hst3)|]. subst s4. rewrite E in Hf |- *. kst_eq. exact Hf.
    + intros x j Hx. apply held_held, held_log, Hh3, held_log, held_held, Hx.
    + apply (log_has_append s bl bn (length bl)) in Hl as [L1 L2 L3 L4 L5]; [|lia|done].
      split; subst s4; simpl; rewrite E; done.
Qed.
End log_write.

(** * begin_op *)

(** begin_op lets an operation in when its blocks fit. *)
Definition admits (l : log) : Prop :=
  l_committing l = 0 /\ lh_n l + (l_outstanding l + 1) * MAXOPBLOCKS <= LOGSIZE.

Section begin_op.
Context (p : nat).
Definition has_proc (s : kst) : Prop := is_Some (k_procs s !! p).

Lemma has_proc_alter s f g : has_proc s -> has_proc (s <| k_procs ::= alter f g |>).
Proof.
  intros [x Hx]. unfold has_proc. simpl. destruct (decide (g = p)) as [->|Hne].
  - rewrite list_lookup_alter_eq, Hx. by eexists.
  - rewrite list_lookup_alter_ne by done. by eexists.
Qed.

Lemma sleep_log s env :
  env_keeps has_proc env -> has_proc s -> k_cur s = Some p -> k_held s = [LLog] ->
  match sleep ChLog LLog (mkW s env) with
  | Ok _ w => has_proc (wk w) /\ k_cur (wk w) = Some p /\ k_held (wk w) = [LLog] /\
      (length (wenv w) < length env)%nat /\ env_keeps has_proc (wenv w)
  | Asleep w => has_proc (wk w)
  | _ => False
  end.
Proof.
  intros. apply sleep_inv; try done; intros s0 Hs0; by apply (has_proc_alter (s0 <| k_held := _ |>)) ||
    by apply (has_proc_alter (s0 <| k_held := _ |> <| k_cur := _ |>)).
Qed.

Lemma begin_op_loop_spec : forall fuel s env, (length env < fuel)%nat ->
  env_keeps has_proc env -> has_proc s -> k_cur s = Some p -> k_held s = [LLog] ->
  match begin_op_loop fuel (mkW s env) with
  | Ok _ w => exists s1, admits (k_log s1) /\ k_held s1 = [] /\ k_cur s1 = Some p /\
      wk w = s1 <| k_log ::= (fun l => l <| l_outstanding ::= Z.succ |>) |>
  | Asleep _ => True
  | _ => False
  end.
Proof.
  induction fuel as [|fuel IH]; intros s env Hf He Hs Hc Hh; [lia|]. cbn [begin_op_loop]. unfold getlog. krun.
  assert (Hsleep : match (sleep ChLog LLog;; begin_op_loop fuel) (mkW s env) with
    | Ok _ w => exists s1, admits (k_log s1) /\ k_held s1 = [] /\ k_cur s1 = Some p /\
        wk w = s1 <| k_log ::= (fun l => l <| l_outstanding ::= Z.succ |>) |>
    | Asleep _ => True
    | _ => False
    end).
  { pose proof (sleep_log s env He Hs Hc Hh) as Hsl. unfold mbind, K_bind.
    destruct (sleep ChLog LLog (mkW s env)) as [[] [s' env']| | | | |]; try done. simpl in Hsl.
    destruct Hsl as (? & ? & ? & ? & ?). apply IH; (done || lia). }
  destruct (Z.eqb_spec (l_committing (k_log s)) 0) as [Hz|Hz]; simpl; [|exact Hsleep]. rewrite Z.gtb_ltb.
  destruct (Z.ltb_spec LOGSIZE (lh_n (k_log s) + (l_outstanding (k_log s) + 1) * MAXOPBLOCKS)) as [|Hle]; [exact Hsleep|].
  unfold setlog. krun. rewrite release_ok by (simpl; rewrite Hh; set_solver). simpl.
  exists (s <| k_held := [] |>). split_and!; [done|done|done|]. kst_eq. rewrite Hh.
  by rewrite filter_cons_False by naive_solver.
Qed.
End begin_op.

(** * Recovery at boot *)

(** The state in which initlog runs at boot: a fresh cache, an empty in-memory
    log, and whatever is on disk. *)
Record booted (s : kst) (pid : Z) (d : disk) : Prop := {
  bt_bufs : exists dt, k_bufs s = boot_bufs dt;
  bt_amb : amb s pid;
  bt_disk : k_disk s = d;
  bt_n : lh_n (k_log s) = 0;
  bt_len : length (lh_block (k_log s)) = Z.to_nat LOGSIZE;
}.

(** The disks a machine can come up with: it boots on [d], and boots again each
    time the power fails before initlog is done. *)
Inductive survives (sb : superblock) : disk -> disk -> Prop :=
| survives_up s pid e d w :
    booted s pid d -> initlog ROOTDEV sb (mkW s e) = Ok tt w -> survives sb d (k_disk (wk w))
| survives_again s pid e d d1 d2 :
    booted s pid d -> initlog ROOTDEV sb (mkW s e) = Crash d1 -> survives sb d1 d2 -> survives sb d d2.

Lemma booted_cst s pid d : booted s pid d -> cst s pid (dread d) (fun _ => 0) none d.
Proof.
  intros [[dt Hb] Ha Hd _ _]. pose proof (boot_inv s dt Hb) as Hinv.
  assert (Hno : forall x i b, ~ buf_of s x i b).
  { intros x i b (_ & Hi & Hdev & _). rewrite Hb in Hi. by rewrite (boot_lookup dt i b Hi) in Hdev. }
  split; try done; intros x.
  - by rewrite view_uncached, Hd.
  - by rewrite refs_uncached.
  - by rewrite owner_uncached.
Qed.

Section recovery.
Context (sb : superblock) (start : Z).
Context (Hsb : sb_logstart sb = start) (Hstart : 0 <= start) (Hend : start + LOGSIZE < 2 ^ 31).

Lemma initlog_spec s e pid d bl :
  booted s pid d -> valid_hdr start d bl ->
  wp (initlog ROOTDEV sb) (mkW s e)
    (fun _ w => exists s', w = mkW s' e /\ lstep s s' /\ settled start (pid := pid) s' (logical start d))
    (stands_for start (logical start d)).
Proof.
  intros Hbt Hv. assert (HLS : LOGSIZE = 30) by done. pose proof (booted_cst s pid d Hbt) as Hc.
  destruct Hbt as [_ _ _ Hn Hlen]. unfold initlog.
  cbn [when sizeof_logheader]. eapply wp_step; [done|]. do 3 (eapply wp_step; [done|]). simpl wk. simpl wenv.
  match goal with |- wp _ (mkW ?x e) _ _ => set (s1 := x) end.
  assert (Hl1 : log_has start s1 []).
  { split; simpl; try done. rewrite Hsb. unfold i32. rewrite sext_small by lia. done. }
  eapply wp_mono; [apply (recover_spec start Hstart Hend (pid := pid) (V := dread d) (d := d) s1 e bl [])| |done]; [by do 3 apply cst_log|done|done|].
  intros [] w (s' & -> & Hst & Hse). exists s'. split_and!; [done| |done].
  do 3 (eapply lstep_trans; [apply lstep_log|]). done.
Qed.

Lemma survives_logical d d' :
  survives sb d d' -> forall V, stands_for start V d -> forall x, out start x -> dread d' x = V x.
Proof.
  induction 1 as [s pid e d w Hbt E|s pid e d d1 d2 Hbt E _ IH]; intros V [[bl Hv] HV] x Hx.
  - pose proof (initlog_spec s e pid d bl Hbt Hv) as Hw. unfold wp in Hw. rewrite E in Hw.
    destruct Hw as (s' & -> & _ & [_ _ (V' & d' & Hc & Ho)]). simpl. rewrite (c_disk _ _ _ _ _ _ Hc).
    destruct (Ho x Hx) as [_ ->]. by apply HV.
  - apply IH; [|done]. pose proof (initlog_spec s e pid d bl Hbt Hv) as Hw. unfold wp in Hw. rewrite E in Hw.
    destruct Hw as [Hv' Hl]. split; [done|]. intros y Hy. by rewrite Hl, HV.
Qed.
End recovery.

(** * Properties *)



(** C23: log_write, called with the block's buffer locked, adds the block to the
    transaction and pins its buffer, or absorbs it if the transaction has it
    already; no block's contents change.  It panics exactly when the log is
    full or no operation is running. *)
Theorem log_write_exact start s e pid V R O d bl bn i :
  cst s pid V R O d -> held s pid bn i -> log_has start s bl -> Forall (fun b => 0 <= b < 2 ^ 31) bl ->
  0 <= bn < 2 ^ 31 -> LLog ∉ k_held s ->
  (log_room (k_log s) -> 1 <= l_outstanding (k_log s) ->
   exists s', log_write i (mkW s e) = Ok tt (mkW s' e) /\ lstep s s' /\
     if decide (bn ∈ bl) then cst s' pid V R O d /\ log_has start s' bl
     else cst s' pid V (<[bn := R bn + 1]> R) O d /\ log_has start s' (bl ++ [bn])) /\
  (~ log_room (k_log s) -> log_write i (mkW s e) = Panic "too big a transaction") /\
  (log_room (k_log s) -> l_outstanding (k_log s) < 1 -> log_write i (mkW s e) = Panic "log_write outside of trans").
Proof.
  intros Hc Hi Hl Hbl Hbn Hh. split_and!.
  - intros Hroom Ho. destruct (log_write_spec start s e bl bn i Hc Hi Hl Hbl Hbn Hh Hroom Ho) as (s' & E & Hst & _ & _ & _ & _ & H).
    by exists s'.
  - intros Hr. unfold log_write, getlog. rewrite bind_acquire by done. krun. simpl. rewrite !Z.geb_leb. unfold log_room in Hr.
    destruct (Z.leb_spec LOGSIZE (lh_n (k_log s))); [done|].
    destruct (Z.leb_spec (l_size (k_log s) - 1) (lh_n (k_log s))); [done|]. lia.
  - intros [Hr1 Hr2] Ho. unfold log_write, getlog. rewrite bind_acquire by done. krun. simpl. rewrite !Z.geb_leb.
    destruct (Z.leb_spec LOGSIZE (lh_n (k_log s))); [lia|].
    destruct (Z.leb_spec (l_size (k_log s) - 1) (lh_n (k_log s))); [lia|]. simpl. krun.
    destruct (Z.ltb_spec (l_outstanding (k_log s)) 1); [done|lia].
Qed.

(** C35: begin_op returns only when no commit is running and the log has room
    for MAXOPBLOCKS blocks for this and each admitted operation, whatever the
    other threads do while it waits; it then counts the operation in and holds
    no lock. *)
Theorem begin_op_admits p s env :
  env_keeps (has_proc p) env -> has_proc p s -> k_cur s = Some p -> k_held s = [] ->
  match begin_op (mkW s env) with
  | Ok _ w => exists s1, admits (k_log s1) /\ k_held s1 = [] /\ k_cur s1 = Some p /\
      wk w = s1 <| k_log ::= (fun l => l <| l_outstanding ::= Z.succ |>) |>
  | Asleep _ => True
  | _ => False
  end.
Proof.
  intros He Hp Hc Hh. unfold begin_op. rewrite bind_acquire by (simpl; rewrite Hh; set_solver). simpl wk. simpl wenv.
  apply (begin_op_loop_spec p); try done; [lia|]. simpl. by rewrite Hh.
Qed.

(** * How many blocks fit *)

(** What an operation does to a block: read it, change it, log it and release it, as
    bfree, balloc and writei do. *)
Definition update_block (v : Z -> block) (bn : Z) : K unit :=
  i ← bread ROOTDEV bn;
  setb i (fun b => b <| b_data ::= (fun _ => v bn) |>);;
  log_write i;;
  brelse i.

Lemma begin_op_now s e : admits (k_log s) -> k_held s = [] ->
  begin_op (mkW s e) = Ok tt (mkW (s <| k_log ::= (fun l => l <| l_outstanding ::= Z.succ |>) |>) e).
Proof.
  intros [Hc Hle] Hh. unfold begin_op. rewrite bind_acquire by (simpl; rewrite Hh; set_solver). cbn [begin_op_loop wenv].
  unfold getlog, setlog. krun. change (k_log (s <| k_held ::= cons LLog |>)) with (k_log s).
  rewrite Hc. cbn [Z.eqb negb]. rewrite Z.gtb_ltb, (proj2 (Z.ltb_ge _ _)) by done. krun. kret. by rewrite Hh, filter_cons_False by naive_solver.
Qed.

Lemma pins_snoc bl bn x : bn ∉ bl -> <[bn := 1]> (pins bl) x = pins (bl ++ [bn]) x.
Proof.
  intros Hn. unfold pins. destruct (decide (x = bn)) as [->|Hx].
  - rewrite fn_lookup_insert, decide_True by set_solver. done.
  - rewrite fn_lookup_insert_ne by done. destruct (decide (x ∈ bl)); [rewrite decide_True by set_solver|rewrite decide_False by set_solver]; done.
Qed.

Section reservation.
Context (start pid : Z) (v : Z -> block) (d : disk) (e : list (kst -> kst)).

(** A transaction of the blocks [bl] in a log of LOGSIZE blocks. *)
Record running_tx (s : kst) (V : Z -> block) (bl : list Z) : Prop := {
  tx_cst : cst s pid V (pins bl) none d;
  tx_log : log_has start s bl;
  tx_held : LLog ∉ k_held s;
  tx_size : l_size (k_log s) = LOGSIZE;
  tx_out : 1 <= l_outstanding (k_log s);
  tx_nodup : NoDup bl;
  tx_range : Forall (fun b => 0 <= b < 2 ^ 31) bl;
}.

Lemma tx_read s V bl bn : running_tx s V bl -> bn ∉ bl -> (length bl < HEAD)%nat ->
  exists i s1 s2, bread ROOTDEV bn (mkW s e) = Ok i (mkW s1 e) /\
    setb i (fun b => b <| b_data ::= (fun _ => v bn) |>) (mkW s1 e) = Ok tt (mkW s2 e) /\
    cstep s s2 /\ held s2 pid bn i /\ cst s2 pid (<[bn := v bn]> V) (<[bn := pins bl bn + 1]> (pins bl)) (<[bn := Some pid]> none) d.
Proof.
  intros [Hc _ _ _ _ Hnd _] Hbn Hl.
  assert (HU : fits (pins bl) (list_to_set (bn :: bl))).
  { split.
    - intros x Hx. apply elem_of_list_to_set. right. by apply pins_in in Hx.
    - rewrite size_list_to_set by (by constructor). simpl. lia. }
  destruct (do_read s e bn _ Hc eq_refl HU ltac:(set_solver)) as (i & s1 & E1 & Hst1 & Hc1 & Hi1 & _).
  destruct (do_store s1 e bn i (fun _ => v bn) Hc1 Hi1) as (s2 & E2 & Hst2 & Hc2 & Hh2 & _).
  exists i, s1, s2. split_and!; [done|done|by eapply cstep_trans|by apply Hh2|done].
Qed.

Lemma tx_update s V bl bn : running_tx s V bl -> bn ∉ bl -> 0 <= bn < 2 ^ 31 -> Z.of_nat (length bl) < LOGSIZE - 1 ->
  exists s', update_block v bn (mkW s e) = Ok tt (mkW s' e) /\ running_tx s' (<[bn := v bn]> V) (bl ++ [bn]) /\
    l_outstanding (k_log s') = l_outstanding (k_log s).
Proof.
  intros Htx Hn Hr Hlt. assert (HL : LOGSIZE = 30) by done. assert (HH : HEAD = 30%nat) by done.
  destruct (tx_read s V bl bn Htx Hn ltac:(lia)) as (i & s1 & s2 & E1 & E2 & Hst & Hi & Hc2).
  destruct Htx as [_ Hlog Hheld Hsize Hout Hnd Hrange]. pose proof (cstep_log _ _ Hst) as El. pose proof (cs_frame _ _ Hst) as Ef.
  assert (Hz : pins bl bn = 0) by (unfold pins; by rewrite decide_False).
  destruct (log_write_spec start s2 e bl bn i Hc2 Hi) as (s3 & E3 & Hst3 & Hh3 & Ho3 & Hs3 & _ & Hd3);
    [by eapply log_has_step|done|done|by rewrite Ef|rewrite El; split; rewrite (lg_n _ _ _ Hlog); lia|by rewrite El|].
  rewrite decide_False in Hd3 by done. destruct Hd3 as [Hc3 Hl3].
  destruct (do_release s3 e bn i Hc3 (Hh3 _ _ Hi)) as (s4 & E4 & Hst4 & Hc4 & _).
  { rewrite !fn_lookup_insert. lia. }
  pose proof (cstep_log _ _ Hst4) as El4. exists s4. split_and!.
  - unfold update_block. by rewrite (bind_ok _ _ _ _ _ E1), (bind_ok _ _ _ _ _ E2), (bind_ok _ _ _ _ _ E3).
  - split.
    + eapply cst_ext; [exact Hc4|done| |unfold none; fn_eq]. intros x. rewrite <- pins_snoc by done.
      destruct (decide (x = bn)) as [->|Hx]; [rewrite !fn_lookup_insert; lia|by rewrite !fn_lookup_insert_ne].
    + by eapply log_has_step.
    + by rewrite (cs_frame _ _ Hst4), (ls_frame _ _ Hst3), Ef.
    + by rewrite El4, Hs3, El.
    + by rewrite El4, Ho3, El.
    + apply NoDup_app. split_and!; [done|set_solver|apply NoDup_singleton].
    + apply Forall_app. by split; [|constructor].
  - by rewrite El4, Ho3, El.
Qed.

Lemma tx_panics s V bl bn : running_tx s V bl -> bn ∉ bl -> Z.of_nat (length bl) = LOGSIZE - 1 ->
  update_block v bn (mkW s e) = Panic "too big a transaction".
Proof.
  intros Htx Hn Hlen. assert (HL : LOGSIZE = 30) by done. assert (HH : HEAD = 30%nat) by done.
  destruct (tx_read s V bl bn Htx Hn ltac:(lia)) as (i & s1 & s2 & E1 & E2 & Hst & _).
  unfold update_block. rewrite (bind_ok _ _ _ _ _ E1), (bind_ok _ _ _ _ _ E2). unfold mbind at 1, K_bind at 1.
  assert (E : log_write i (mkW s2 e) = Panic "too big a transaction"); [|by rewrite E].
  pose proof (cstep_log _ _ Hst) as El. destruct Htx as [_ Hlog Hheld Hsize _ _ _].
  unfold log_write, getlog. rewrite bind_acquire by (by rewrite (cs_frame _ _ Hst)). krun. simpl. rewrite El, Hsize, (lg_n _ _ _ Hlog), Hlen. done.
Qed.

(** The blocks [bns], none of which is in the transaction yet. *)
Lemma tx_updates bns : forall s V bl, running_tx s V bl -> NoDup (bl ++ bns) -> Forall (fun b => 0 <= b < 2 ^ 31) bns ->
  (Z.of_nat (length (bl ++ bns)) < LOGSIZE ->
   exists s' V', forK bns (update_block v) (mkW s e) = Ok tt (mkW s' e) /\ running_tx s' V' (bl ++ bns) /\
     l_outstanding (k_log s') = l_outstanding (k_log s)) /\
  (Z.of_nat (length (bl ++ bns)) = LOGSIZE -> bns <> [] -> forK bns (update_block v) (mkW s e) = Panic "too big a transaction").
Proof.
  induction bns as [|bn bns IH]; intros s V bl Htx Hnd Hr; cbn [forK].
  { rewrite app_nil_r. split; [|done]. intros _. by exists s, V. }
  apply Forall_cons in Hr as [Hbn Hr].
  assert (Hn : bn ∉ bl) by (apply NoDup_app in Hnd as (_ & Hd & _); intros Hin; apply (Hd bn Hin); left).
  assert (Happ : bl ++ bn :: bns = (bl ++ [bn]) ++ bns) by (by rewrite <- app_assoc).
  rewrite Happ in Hnd |- *. rewrite length_app, length_app. cbn [length].
  destruct (decide (Z.of_nat (length bl) = LOGSIZE - 1)) as [Hf|Hf].
  { split; [lia|]. intros _ _. unfold mbind at 1, K_bind at 1. by rewrite (tx_panics s V bl bn). }
  split; [intros Hlt|intros Heq _]; destruct (tx_update s V bl bn Htx Hn Hbn ltac:(lia)) as (s1 & E1 & Htx1 & Ho1);
    rewrite (bind_ok _ _ _ _ _ E1); destruct (IH s1 _ _ Htx1 Hnd Hr) as [H1 H2].
  - destruct H1 as (s' & V' & E & Htx' & Ho'); [rewrite !length_app; simpl; lia|]. exists s', V'. split_and!; [done|done|congruence].
  - apply H2; [rewrite !length_app; simpl; lia|]. intros ->. simpl in Heq. lia.
Qed.
End reservation.

(** C40: the log is one block short of what begin_op promises.  On the disks mkfs makes,
    whose log has LOGSIZE blocks in all, three operations in a row are admitted to an
    empty log without waiting, each with a promise of MAXOPBLOCKS blocks.  They can update
    any 29 different blocks, but not 30 = 3 * MAXOPBLOCKS: log_write then panics. *)
Theorem log_reservation_short start pid v V d s e bns :
  cst s pid V (pins []) none d -> log_has start s [] -> k_held s = [] ->
  l_size (k_log s) = LOGSIZE -> l_outstanding (k_log s) = 0 -> l_committing (k_log s) = 0 ->
  NoDup bns -> Forall (fun b => 0 <= b < 2 ^ 31) bns -> Z.of_nat (length bns) = 3 * MAXOPBLOCKS ->
  let ops n := begin_op;; begin_op;; begin_op;; forK (take n bns) (update_block v) in
  (forall n, (n <= 29)%nat -> exists s', ops n (mkW s e) = Ok tt (mkW s' e) /\
     log_has start s' (take n bns) /\ l_outstanding (k_log s') = 3) /\
  ops 30%nat (mkW s e) = Panic "too big a transaction".
Proof.
  intros Hc Hl Hh Hs Ho Hcm Hnd Hr Hlen ops. assert (HL : LOGSIZE = 30) by done. assert (HM : MAXOPBLOCKS = 10) by done.
  pose proof (lg_n _ _ _ Hl) as Hn. simpl in Hn. set (up := fun l : log => l <| l_outstanding ::= Z.succ |>).
  set (s3 := s <| k_log ::= up |> <| k_log ::= up |> <| k_log ::= up |>).
  assert (E : forall n, ops n (mkW s e) = forK (take n bns) (update_block v) (mkW s3 e)).
  { intros n. unfold ops.
    rewrite (bind_ok _ _ _ _ _ (begin_op_now s e ltac:(split; simpl; [done|lia]) Hh)). fold up.
    rewrite (bind_ok _ _ _ _ _ (begin_op_now (s <| k_log ::= up |>) e ltac:(split; simpl; [done|lia]) Hh)). fold up.
    by rewrite (bind_ok _ _ _ _ _ (begin_op_now (s <| k_log ::= up |> <| k_log ::= up |>) e ltac:(split; simpl; [done|lia]) Hh)). }
  assert (Htx : running_tx start pid d s3 V []).
  { split; [by do 3 apply cst_log|by destruct Hl|simpl; rewrite Hh; set_solver|done|simpl; lia|constructor|constructor]. }
  assert (Hrn : forall n, Forall (fun b => 0 <= b < 2 ^ 31) (take n bns)) by (intros; by apply Forall_take).
  assert (Hnn : forall n, NoDup ([] ++ take n bns)) by (intros n; apply (NoDup_app (take n bns) (drop n bns)); by rewrite take_drop).
  split.
  - intros n Hle. destruct (tx_updates start pid v d e (take n bns) s3 V [] Htx (Hnn n) (Hrn n)) as [H _].
    destruct H as (s' & V' & E' & Htx' & Ho'); [simpl; rewrite length_take; lia|].
    exists s'. rewrite E. split_and!; [done|apply Htx'|]. rewrite Ho'. simpl. by rewrite Ho.
  - rewrite E. apply (proj2 (tx_updates start pid v d e (take 30 bns) s3 V [] Htx (Hnn _) (Hrn _))); [simpl; rewrite length_take; lia|].
    intros E0. apply (f_equal length) in E0. rewrite length_take in E0. cbn [length] in E0. lia.
Qed.

(** * Examples *)

Definition demo_sb : superblock := mkSb FSMAGIC 2000 1954 200 30 2 32 45.
Definition demo_log : kst :=
  demo_cache <| k_log := mkLog 2 30 1 0 ROOTDEV 0 (replicate (Z.to_nat LOGSIZE) 0) |>.

Lemma demo_log_cst : cst demo_log 0 (dread ∅) (fun _ => 0) none ∅.
Proof.
  apply booted_cst. split; try reflexivity; [by exists zero_block|]. by destruct demo_cache_amb.
Qed.

Lemma demo_log_has : log_has 2 demo_log [].
Proof. by split. Qed.

Lemma zero_hdr : hdr_ok (dread ∅ 2) [].
Proof. split_and!; [reflexivity|reflexivity|]. intros i b Hb. by apply lookup_nil_Some in Hb || done. Qed.

(** A transaction that changes block 100 is then ready to commit. *)
Lemma one_block_committable s0 pid v :
  cst s0 pid (dread ∅) (fun _ => 0) none ∅ -> log_has 2 s0 [] -> LLog ∉ k_held s0 -> log_room (k_log s0) ->
  l_outstanding (k_log s0) = 1 -> l_committing (k_log s0) = 0 ->
  exists s, committable 2 s pid (<[100 := v]> (dread ∅)) ∅ [100] /\ LLog ∉ k_held s /\
    l_outstanding (k_log s) = 1 /\ l_committing (k_log s) = 0.
Proof.
  intros Hc Hl Hh Hroom Ho Hcm.
  destruct (do_read s0 [] 100 {[100]} Hc eq_refl (fits_zero 100)) as (i & s1 & _ & Hst1 & Hc1 & Hi1 & _); [set_solver|].
  destruct (do_store s1 [] 100 i (fun _ => v) Hc1 Hi1) as (s2 & _ & Hst2 & Hc2 & Hh2 & _).
  pose proof (cstep_trans _ _ _ Hst1 Hst2) as Hst. pose proof (cs_frame _ _ Hst) as E2.
  assert (Hl2 : log_has 2 s2 []) by (by eapply log_has_step).
  destruct (log_write_spec 2 s2 [] [] 100 i Hc2 (Hh2 _ _ Hi1) Hl2) as (s3 & _ & Hst3 & Hh3 & Ho3 & _ & Hcm3 & Hd3);
    [constructor|lia|by rewrite E2|by rewrite E2|by rewrite E2; simpl; rewrite Ho|].
  destruct (decide (100 ∈ [])) as [Hin|_]; [by apply elem_of_nil in Hin|]. destruct Hd3 as [Hc3 Hl3].
  destruct (do_release s3 [] 100 i Hc3 (Hh3 _ _ (Hh2 _ _ Hi1))) as (s4 & _ & Hst4 & Hc4 & _); [by intros [=]|].
  pose proof (cstep_log _ _ Hst4) as E4. exists s4. split; [split|].
  - eapply cst_ext; [exact Hc4|done|intros x; unfold pins|unfold none; fn_eq].
    destruct (decide (x ∈ [100])) as [->%list_elem_of_singleton|Hx]; [by rewrite !fn_lookup_insert|].
    rewrite !fn_lookup_insert_ne; [done|set_solver..].
  - by eapply log_has_step.
  - constructor; [|constructor]. unfold home. assert (LOGSIZE = 30) by done. lia.
  - apply NoDup_singleton.
  - vm_compute. lia.
  - exact zero_hdr.
  - rewrite E4, Ho3, Hcm3, (cs_frame _ _ Hst4), (ls_frame _ _ Hst3), E2. done.
Qed.


(** A disk on which block 100 was committed to the log but not installed. *)
Definition demo_disk : disk :=
  <[2 := set_hdr_block 0 100 (set_hdr_n 1 zero_block)]> (<[3 := replicate 1024 7]> ∅).
Definition demo_boot : kst :=
  demo_cache <| k_log := mkLog 0 0 0 0 0 0 (replicate (Z.to_nat LOGSIZE) 0) |> <| k_disk := demo_disk |>.


Lemma log_write_exact_witness :
  exists i s s', log_write i (mkW s []) = Ok tt (mkW s' []) /\ log_has 2 s' [100].
Proof.
  destruct (do_read demo_log [] 100 {[100]} demo_log_cst eq_refl (fits_zero 100)) as (i & s1 & _ & Hst1 & Hc1 & Hi1 & _); [set_solver|].
  pose proof (cs_frame _ _ Hst1) as E. pose proof (cstep_log _ _ Hst1) as El.
  destruct (log_write_exact 2 s1 [] 0 _ _ _ _ [] 100 i Hc1 Hi1) as (H & _); [eapply log_has_step; [exact demo_log_has|exact Hst1]|constructor|lia|rewrite E; apply not_elem_of_nil|].
  destruct H as (s' & E' & _ & Hd); [rewrite El; split; reflexivity|rewrite El; reflexivity || (simpl; lia)|].
  exists i, s1, s'. split; [exact E'|]. destruct (decide (100 ∈ [])) as [Hin|_]; [apply elem_of_nil in Hin; destruct Hin|apply Hd].
Defined.

Lemma begin_op_admits_witness :
  match begin_op (mkW demo_boot []) with
  | Ok _ w => exists s1, admits (k_log s1) /\ k_held s1 = [] /\ k_cur s1 = Some 1%nat /\
      wk w = s1 <| k_log ::= (fun l => l <| l_outstanding ::= Z.succ |>) |>
  | Asleep _ => True
  | _ => False
  end.
Proof. apply (begin_op_admits 1); [constructor|eexists; reflexivity|reflexivity|reflexivity]. Defined.

Lemma log_reservation_short_witness :
  (begin_op;; begin_op;; begin_op;; forK (take 30 (seqZ 100 30)) (update_block (fun _ => zero_block)))
    (mkW (demo_log <| k_log ::= (fun l => l <| l_outstanding := 0 |>) |>) []) = Panic "too big a transaction".
Proof.
  refine (proj2 (log_reservation_short 2 0 (fun _ => zero_block) (dread ∅) ∅ _ [] (seqZ 100 30) _ _ _ _ _ _ _ _ _)).
  - apply cst_log. eapply cst_ext; [exact demo_log_cst|reflexivity| |reflexivity]. intros x. unfold pins.
    rewrite decide_False by apply not_elem_of_nil. reflexivity.
  - split; reflexivity.
  - reflexivity.
  - reflexivity.
  - reflexivity.
  - reflexivity.
  - apply NoDup_seqZ.
  - apply (bool_decide_unpack _). vm_compute. exact I.
  - reflexivity.
Defined.
