(* ===== verification/Fs.v ===== *)
(** kernel/fs.c, blocks and inodes: the block allocator, the inode table and the
    contents of files.

    A pointer to an in-memory inode is its index in [itable]; fields of on-disk
    structures are read and written at their offsets in the block. *)

From S2P Require Import Prelude Riscv Bytes State Sched Uart Printf Sleeplock Bio Log.

(** A line on the console. *)
Definition println (s : string) : K unit := printf (chars s ++ [10]) [];; mret tt.

(** * Super block *)

(** struct superblock at the start of its block *)
Definition sb_decode (bs : block) : superblock :=
  mkSb (get 4 0 bs) (get 4 4 bs) (get 4 8 bs) (get 4 12 bs) (get 4 16 bs) (get 4 20 bs) (get 4 24 bs) (get 4 28 bs).

(** static void readsb(int dev, struct superblock *sb) *)
Definition readsb (dev : Z) : K unit :=
  bp ← bread (u32 dev) 1;
  b ← getb bp;
  modify (fun s => s <| k_sb := sb_decode (b_data b) |>);;
  brelse bp.

(** void fsinit(int dev) *)
Definition fsinit (dev : Z) : K unit :=
  readsb dev;;
  sb ← gets k_sb;
  when (negb (sb_magic sb =? FSMAGIC)) (panic "invalid file system");;
  initlog dev sb.

(** * Blocks *)

Definition BBLOCK (b : Z) (sb : superblock) : Z := u32 (b / BPB + sb_bmapstart sb).

(** Updating the data of a buffer. *)
Definition setdata (bp : nat) (f : block -> block) : K unit := setb bp (fun b => b <| b_data ::= f |>).

(** static void bzero(int dev, int bno) *)
Definition bzero (dev bno : Z) : K unit :=
  bp ← bread (u32 dev) (u32 bno);
  setdata bp (fun _ => zero_block);;
  log_write bp;;
  brelse bp.

(** Bit [bi] of the bitmap in a block: bp->data[bi/8] & (1 << (bi%8)) *)
Definition byte_at (i : Z) (bs : block) : Z := default 0 (bs !! Z.to_nat i).
Definition bit_test (bi : Z) (bs : block) : bool :=
  negb (Z.land (byte_at (bi / 8) bs) (Z.shiftl 1 (bi mod 8)) =? 0).
Definition bit_set (bi : Z) (bs : block) : block :=
  <[Z.to_nat (bi / 8) := u8 (Z.lor (byte_at (bi / 8) bs) (Z.shiftl 1 (bi mod 8)))]> bs.
Definition bit_clear (bi : Z) (bs : block) : block :=
  <[Z.to_nat (bi / 8) := u8 (Z.land (byte_at (bi / 8) bs) (Z.lnot (Z.shiftl 1 (bi mod 8))))]> bs.

(** The inner loop of balloc: the first free block of a bitmap block. *)
Fixpoint balloc_scan (k : nat) (bi b size : Z) (bs : block) : option Z :=
  match k with
  | O => None
  | S k' =>
      if negb (b + bi <? size) then None
      else if bit_test bi bs then balloc_scan k' (bi + 1) b size bs
      else Some bi
  end.

(** static uint balloc(uint dev) *)
Fixpoint balloc_loop (fuel : nat) (dev b : Z) : K Z :=
  match fuel with
  | O => diverge
  | S fuel' =>
      sb ← gets k_sb;
      if b <? sb_size sb then
        bp ← bread dev (BBLOCK b sb);
        x ← getb bp;
        match balloc_scan (Z.to_nat BPB) 0 b (sb_size sb) (b_data x) with
        | Some bi =>
            setdata bp (bit_set bi);;
            log_write bp;;
            brelse bp;;
            bzero dev (b + bi);;
            mret (b + bi)
        | None => brelse bp;; balloc_loop fuel' dev (b + BPB)
        end
      else
        println "balloc: out of blocks";;
        mret 0
  end.
Definition balloc (dev : Z) : K Z :=
  sb ← gets k_sb; balloc_loop (S (Z.to_nat ((sb_size sb + BPB - 1) / BPB))) dev 0.

(** static void bfree(int dev, uint b) *)
Definition bfree (dev b : Z) : K unit :=
  sb ← gets k_sb;
  bp ← bread (u32 dev) (BBLOCK b sb);
  let bi := b mod BPB in
  x ← getb bp;
  when (negb (bit_test bi (b_data x))) (panic "freeing free block");;
  setdata bp (bit_clear bi);;
  log_write bp;;
  brelse bp.

(** * Inodes *)

Definition geti (ip : nat) : K inode := t ← gets k_itable; the (t !! ip).
Definition seti (ip : nat) (f : inode -> inode) : K unit :=
  modify (fun s => s <| k_itable ::= alter f ip |>).

Definition IBLOCK (i : Z) (sb : superblock) : Z := u32 (i / IPB + sb_inodestart sb).

(** struct dinode number [k] of a block, at its offset; 64 bytes each *)
Definition dip (inum : Z) : nat := (64 * Z.to_nat (inum mod IPB))%nat.
Definition di_type (o : nat) (bs : block) : Z := i16 (get 2 o bs).
Definition di_major (o : nat) (bs : block) : Z := i16 (get 2 (o + 2) bs).
Definition di_minor (o : nat) (bs : block) : Z := i16 (get 2 (o + 4) bs).
Definition di_nlink (o : nat) (bs : block) : Z := i16 (get 2 (o + 6) bs).
Definition di_size (o : nat) (bs : block) : Z := get 4 (o + 8) bs.
Definition di_addr (o i : nat) (bs : block) : Z := get 4 (o + 12 + 4 * i) bs.
Definition di_addrs (o : nat) (bs : block) : list Z := (fun i => di_addr o i bs) <$> seq 0 13.

(** Storing the 13 addresses, one word after the other. *)
Fixpoint put_words (o : nat) (l : list Z) (bs : block) : block :=
  match l with [] => bs | a :: l' => put_words (o + 4) l' (put 4 o a bs) end.

(** The fields of an in-memory inode stored into its dinode. *)
Definition di_store (o : nat) (ip : inode) (bs : block) : block :=
  put_words (o + 12) (i_addrs ip)
    (put 4 (o + 8) (i_size ip)
      (put 2 (o + 6) (i_nlink ip)
        (put 2 (o + 4) (i_minor ip)
          (put 2 (o + 2) (i_major ip)
            (put 2 o (i_type ip) bs))))).

(** void iinit() *)
Definition iinit : K unit := forK (seq 0 (Z.to_nat NINODE)) (fun i => initsleeplock (SInode i)).

(** The search of iget: the entry of the inode, else the first empty one. *)
Fixpoint iget_scan (l : list inode) (i : nat) (dev inum : Z) (empty : option nat) : (nat + option nat) :=
  match l with
  | [] => inr empty
  | ip :: l' =>
      if (i_ref ip >? 0) && (i_dev ip =? dev) && (i_inum ip =? inum) then inl i
      else
        let empty := match empty with
                     | None => if i_ref ip =? 0 then Some i else None
                     | Some _ => empty
                     end in
        iget_scan l' (S i) dev inum empty
  end.

(** static struct inode* iget(uint dev, uint inum) *)
Definition iget (dev inum : Z) : K nat :=
  acquire LItable;;
  t ← gets k_itable;
  match iget_scan t 0 dev inum None with
  | inl ip =>
      seti ip (fun x => x <| i_ref ::= Z.succ |>);;
      release LItable;;
      mret ip
  | inr None => panic "iget: no inodes"
  | inr (Some ip) =>
      seti ip (fun x => x <| i_dev := dev |>);;
      seti ip (fun x => x <| i_inum := inum |>);;
      seti ip (fun x => x <| i_ref := 1 |>);;
      seti ip (fun x => x <| i_valid := 0 |>);;
      release LItable;;
      mret ip
  end.

(** struct inode* ialloc(uint dev, short type) *)
Fixpoint ialloc_loop (fuel : nat) (dev inum type : Z) : K (option nat) :=
  match fuel with
  | O => diverge
  | S fuel' =>
      sb ← gets k_sb;
      if inum <? sb_ninodes sb then
        bp ← bread dev (IBLOCK inum sb);
        x ← getb bp;
        if di_type (dip inum) (b_data x) =? 0 then
          setdata bp (splice (dip inum) (replicate 64 0));;
          setdata bp (put 2 (dip inum) type);;
          log_write bp;;
          brelse bp;;
          ip ← iget dev inum;
          mret (Some ip)
        else
          brelse bp;;
          ialloc_loop fuel' dev (inum + 1) type
      else
        println "ialloc: no inodes";;
        mret None
  end.
Definition ialloc (dev type : Z) : K (option nat) :=
  sb ← gets k_sb; ialloc_loop (S (Z.to_nat (sb_ninodes sb))) dev 1 type.

(** void iupdate(struct inode *ip) *)
Definition iupdate (ip : nat) : K unit :=
  i ← geti ip;
  sb ← gets k_sb;
  bp ← bread (i_dev i) (IBLOCK (i_inum i) sb);
  i ← geti ip;
  setdata bp (di_store (dip (i_inum i)) i);;
  log_write bp;;
  brelse bp.

(** struct inode* idup(struct inode *ip) *)
Definition idup (ip : nat) : K nat :=
  acquire LItable;;
  seti ip (fun x => x <| i_ref ::= Z.succ |>);;
  release LItable;;
  mret ip.

(** void ilock(struct inode *ip) *)
Definition ilock (p : option nat) : K unit :=
  match p with
  | None => panic "ilock"
  | Some ip =>
      i ← geti ip;
      when (i_ref i <? 1) (panic "ilock");;
      acquiresleep (SInode ip);;
      i ← geti ip;
      when (i_valid i =? 0)
        (sb ← gets k_sb;
         bp ← bread (i_dev i) (IBLOCK (i_inum i) sb);
         b ← getb bp;
         let o := dip (i_inum i) in
         seti ip (fun x => x <| i_type := di_type o (b_data b) |>);;
         seti ip (fun x => x <| i_major := di_major o (b_data b) |>);;
         seti ip (fun x => x <| i_minor := di_minor o (b_data b) |>);;
         seti ip (fun x => x <| i_nlink := di_nlink o (b_data b) |>);;
         seti ip (fun x => x <| i_size := di_size o (b_data b) |>);;
         seti ip (fun x => x <| i_addrs := di_addrs o (b_data b) |>);;
         brelse bp;;
         seti ip (fun x => x <| i_valid := 1 |>);;
         i ← geti ip;
         when (i_type i =? 0) (panic "ilock: no type"))
  end.

(** void iunlock(struct inode *ip) *)
Definition iunlock (p : option nat) : K unit :=
  match p with
  | None => panic "iunlock"
  | Some ip =>
      h ← holdingsleep (SInode ip);
      i ← geti ip;
      when (negb h || (i_ref i <? 1)) (panic "iunlock");;
      releasesleep (SInode ip)
  end.

(** static uint bmap(struct inode *ip, uint bn) *)
Definition get_addr (ip : nat) (k : Z) : K Z := i ← geti ip; the (i_addrs i !! Z.to_nat k).
Definition set_addr (ip : nat) (k v : Z) : K unit := seti ip (fun x => x <| i_addrs ::= <[Z.to_nat k := v]> |>).

Definition bmap_direct (ip : nat) (k : Z) : K Z :=
  addr ← get_addr ip k;
  if addr =? 0 then
    i ← geti ip;
    addr ← balloc (i_dev i);
    if addr =? 0 then mret 0 else set_addr ip k addr;; mret addr
  else mret addr.
Definition bmap (ip : nat) (bn : Z) : K Z :=
  if bn <? NDIRECT then bmap_direct ip bn
  else
    let bn := bn - NDIRECT in
    if bn <? NINDIRECT then
      addr ← bmap_direct ip NDIRECT;
      if addr =? 0 then mret 0
      else
        i ← geti ip;
        bp ← bread (i_dev i) addr;
        b ← getb bp;
        let addr := get 4 (4 * Z.to_nat bn) (b_data b) in
        addr ← (if addr =? 0 then
                  addr ← balloc (i_dev i);
                  when (negb (addr =? 0))
                    (setdata bp (put 4 (4 * Z.to_nat bn) addr);; log_write bp);;
                  mret addr
                else mret addr);
        brelse bp;;
        mret addr
    else panic "bmap: out of range".

(** void itrunc(struct inode *ip) *)
Definition itrunc (ip : nat) : K unit :=
  forK (seq 0 (Z.to_nat NDIRECT)) (fun k =>
    i ← geti ip;
    a ← get_addr ip (Z.of_nat k);
    when (negb (a =? 0))
      (bfree (i_dev i) a;;
       set_addr ip (Z.of_nat k) 0));;
  i ← geti ip;
  ind ← get_addr ip NDIRECT;
  when (negb (ind =? 0))
    (bp ← bread (i_dev i) ind;
     b ← getb bp;
     forK (seq 0 (Z.to_nat NINDIRECT)) (fun j =>
       let a := get 4 (4 * j) (b_data b) in
       when (negb (a =? 0)) (bfree (i_dev i) a));;
     brelse bp;;
     bfree (i_dev i) ind;;
     set_addr ip NDIRECT 0);;
  seti ip (fun x => x <| i_size := 0 |>);;
  iupdate ip.

(** void iput(struct inode *ip) *)
Definition iput (ip : nat) : K unit :=
  acquire LItable;;
  i ← geti ip;
  when ((i_ref i =? 1) && negb (i_valid i =? 0) && (i_nlink i =? 0))
    (acquiresleep (SInode ip);;
     release LItable;;
     itrunc ip;;
     seti ip (fun x => x <| i_type := 0 |>);;
     iupdate ip;;
     seti ip (fun x => x <| i_valid := 0 |>);;
     releasesleep (SInode ip);;
     acquire LItable);;
  seti ip (fun x => x <| i_ref ::= Z.pred |>);;
  release LItable.

(** void iunlockput(struct inode *ip) *)
Definition iunlockput (ip : nat) : K unit := iunlock (Some ip);; iput ip.

(** * Contents *)

(** struct stat (stat.h) *)
Record stat := mkStat { st_dev : Z; st_ino : Z; st_type : Z; st_nlink : Z; st_size : Z }.

(** void stati(struct inode *ip, struct stat *st) *)
Definition stati (ip : nat) : K stat :=
  i ← geti ip; mret (mkStat (i32 (i_dev i)) (i_inum i) (i_type i) (i_nlink i) (i_size i)).

(** Where the rest of a transfer goes to or comes from after [k] bytes. *)
Definition dest_at (dst : dest) (k : Z) : dest :=
  match dst with DUser va => DUser (u64 (va + k)) | DKern => DKern end.
Definition source_at (src : source) (k : Z) : source :=
  match src with SUser va => SUser (u64 (va + k)) | SKern bs => SKern (drop (Z.to_nat k) bs) end.

(** int readi(struct inode *ip, int user_dst, uint64 dst, uint off, uint n): the
    result, and the bytes copied to a kernel buffer *)
Fixpoint readi_loop (fuel : nat) (ip : nat) (dst : dest) (off n tot : Z) (got : list Z) : K (Z * list Z) :=
  match fuel with
  | O => diverge
  | S fuel' =>
      if tot <? n then
        addr ← bmap ip (off / BSIZE);
        if addr =? 0 then mret (tot, got)
        else
          i ← geti ip;
          bp ← bread (i_dev i) addr;
          b ← getb bp;
          let m := Z.min (n - tot) (BSIZE - off mod BSIZE) in
          '(r, bs) ← either_copyout (dest_at dst tot)
                       (take (Z.to_nat m) (drop (Z.to_nat (off mod BSIZE)) (b_data b)));
          if r =? -1 then brelse bp;; mret (-1, got)
          else
            brelse bp;;
            readi_loop fuel' ip dst (u32 (off + m)) n (tot + m) (got ++ bs)
      else mret (tot, got)
  end.
Definition readi (ip : nat) (dst : dest) (off n : Z) : K (Z * list Z) :=
  i ← geti ip;
  if (off >? i_size i) || (u32 (off + n) <? off) then mret (0, [])
  else
    let n := if off + n >? i_size i then i_size i - off else n in
    '(r, got) ← readi_loop (S (S (S (Z.to_nat (n / BSIZE))))) ip dst off n 0 [];
    mret (i32 r, got).

(** int writei(struct inode *ip, int user_src, uint64 src, uint off, uint n); a
    copy that fails half way has changed the buffer all the same *)
Fixpoint writei_loop (fuel : nat) (ip : nat) (src : source) (off n tot : Z) : K (Z * Z) :=
  match fuel with
  | O => diverge
  | S fuel' =>
      if tot <? n then
        addr ← bmap ip (off / BSIZE);
        if addr =? 0 then mret (tot, off)
        else
          i ← geti ip;
          bp ← bread (i_dev i) addr;
          let m := Z.min (n - tot) (BSIZE - off mod BSIZE) in
          '(r, bs) ← either_copyin (source_at src tot) m;
          setdata bp (splice (Z.to_nat (off mod BSIZE)) bs);;
          if r =? -1 then brelse bp;; mret (tot, off)
          else
            log_write bp;;
            brelse bp;;
            writei_loop fuel' ip src (u32 (off + m)) n (tot + m)
      else mret (tot, off)
  end.
Definition writei (ip : nat) (src : source) (off n : Z) : K Z :=
  i ← geti ip;
  if (off >? i_size i) || (u32 (off + n) <? off) then mret (-1)
  else if off + n >? MAXFILE * BSIZE then mret (-1)
  else
    '(tot, off) ← writei_loop (S (S (S (Z.to_nat (n / BSIZE))))) ip src off n 0;
    i ← geti ip;
    when (off >? i_size i) (seti ip (fun x => x <| i_size := off |>));;
    iupdate ip;;
    mret (i32 tot).
