(* ===== verification/Dir.v ===== *)
(** kernel/fs.c, directories and path names. *)

From S2P Require Import Prelude Riscv Bytes CString State Sched Sleeplock Bio Log Fs.

(** struct dirent: a ushort inode number, then DIRSIZ characters *)
Definition sizeof_dirent : Z := 16.
Definition de_inum (de : list Z) : Z := get 2 0 de.
Definition de_name (de : list Z) : list Z := take (Z.to_nat DIRSIZ) (drop 2 de).
Definition mk_dirent (inum : Z) (name : list Z) : list Z := enc 2 inum ++ name.

(** int namecmp(const char *s, const char *t) *)
Definition namecmp (s t : list Z) : Z := strncmp s t (Z.to_nat DIRSIZ).

(** struct inode* dirlookup(struct inode *dp, char *name, uint *poff): the inode
    and the offset of the entry *)
Fixpoint dirlookup_loop (fuel : nat) (dp : nat) (name : list Z) (off : Z) : K (option (nat * Z)) :=
  match fuel with
  | O => diverge
  | S fuel' =>
      d ← geti dp;
      if off <? i_size d then
        '(r, de) ← readi dp DKern off sizeof_dirent;
        when (negb (r =? sizeof_dirent)) (panic "dirlookup read");;
        if de_inum de =? 0 then dirlookup_loop fuel' dp name (u32 (off + sizeof_dirent))
        else if namecmp name (de_name de) =? 0 then
          ip ← iget (i_dev d) (de_inum de);
          mret (Some (ip, off))
        else dirlookup_loop fuel' dp name (u32 (off + sizeof_dirent))
      else mret None
  end.
Definition dirlookup (dp : nat) (name : list Z) : K (option (nat * Z)) :=
  d ← geti dp;
  when (negb (i_type d =? T_DIR)) (panic "dirlookup not DIR");;
  dirlookup_loop (S (Z.to_nat (i_size d / sizeof_dirent + 1))) dp name 0.

(** The search of dirlink for an empty entry. *)
Fixpoint dirlink_loop (fuel : nat) (dp : nat) (off : Z) : K Z :=
  match fuel with
  | O => diverge
  | S fuel' =>
      d ← geti dp;
      if off <? i_size d then
        '(r, de) ← readi dp DKern off sizeof_dirent;
        when (negb (r =? sizeof_dirent)) (panic "dirlink read");;
        if de_inum de =? 0 then mret off
        else dirlink_loop fuel' dp (off + sizeof_dirent)
      else mret off
  end.

(** int dirlink(struct inode *dp, char *name, uint inum) *)
Definition dirlink (dp : nat) (name : list Z) (inum : Z) : K Z :=
  found ← dirlookup dp name;
  match found with
  | Some (ip, _) => iput ip;; mret (-1)
  | None =>
      d ← geti dp;
      off ← dirlink_loop (S (Z.to_nat (i_size d / sizeof_dirent + 1))) dp 0;
      let de := mk_dirent inum (strncpy (replicate (Z.to_nat DIRSIZ) 0) name DIRSIZ) in
      r ← writei dp (SKern de) off sizeof_dirent;
      mret (if negb (r =? sizeof_dirent) then -1 else 0)
  end.

(** * Paths *)

(** while( *path == '/') path++; and while( *path != '/' && *path != 0) path++; *)
Fixpoint skip_slashes (path : list Z) : list Z :=
  match path with c :: p => if c =? 47 then skip_slashes p else path | [] => [] end.
Fixpoint span_name (path : list Z) : list Z * list Z :=
  match path with
  | c :: p => if (c =? 47) || (c =? 0) then ([], path)
              else let '(n, r) := span_name p in (c :: n, r)
  | [] => ([], [])
  end.

(** static char* skipelem(char *path, char *name): the rest of the path and the
    characters of the element, at most DIRSIZ of them *)
Definition skipelem (path : list Z) : option (list Z * list Z) :=
  let path := skip_slashes path in
  if chr path =? 0 then None
  else
    let '(s, path) := span_name path in
    let name := if Z.of_nat (length s) >=? DIRSIZ then take (Z.to_nat DIRSIZ) s else s in
    Some (skip_slashes path, name).

(** static struct inode* namex(char *path, int nameiparent, char *name) *)
Fixpoint namex_loop (fuel : nat) (ip : nat) (path : list Z) (nameiparent : bool) : K (option (nat * list Z)) :=
  match fuel with
  | O => diverge
  | S fuel' =>
      match skipelem path with
      | Some (path, name) =>
          ilock (Some ip);;
          i ← geti ip;
          if negb (i_type i =? T_DIR) then iunlockput ip;; mret None
          else if nameiparent && (chr path =? 0) then iunlock (Some ip);; mret (Some (ip, name))
          else
            next ← dirlookup ip name;
            match next with
            | None => iunlockput ip;; mret None
            | Some (next, _) => iunlockput ip;; namex_loop fuel' next path nameiparent
            end
      | None => if nameiparent then iput ip;; mret None else mret (Some (ip, []))
      end
  end.
Definition namex (path : list Z) (nameiparent : bool) : K (option (nat * list Z)) :=
  ip ← (if chr path =? 47 then iget ROOTDEV ROOTINO
        else me ← myproc; p ← the me; pr ← getp p; cwd ← the (p_cwd pr); idup cwd);
  namex_loop (S (length path)) ip path nameiparent.

(** struct inode* namei(char *path) *)
Definition namei (path : list Z) : K (option nat) := r ← namex path false; mret (fst <$> r).

(** struct inode* nameiparent(char *path, char *name) *)
Definition nameiparent (path : list Z) : K (option (nat * list Z)) := namex path true.
