(* ===== verification/Pipe.v ===== *)
(** kernel/pipe.c: a bounded buffer between processes.

    The pipes are kept by the address of their page.  A process that waits in
    one of the loops sleeps, so the rounds are bounded by what the environment
    has left plus the bytes to copy. *)

From S2P Require Import Prelude Riscv State Kalloc Vm Sched.

Definition PIPESIZE : Z := 512.

Definition getpi (pa : Z) : K pipe := ps ← gets k_pipes; the (ps !! pa).
Definition setpi (pa : Z) (f : pipe -> pipe) : K unit :=
  modify (fun s => s <| k_pipes ::= alter f pa |>).

(** void pipeclose(struct pipe *pi, int writable) *)
Definition pipeclose (pa : Z) (writable : bool) : K unit :=
  acquire (LPipe pa);;
  (if writable then
     setpi pa (fun p => p <| pi_writeopen := 0 |>);;
     wakeup (Some (ChPipeR pa))
   else
     setpi pa (fun p => p <| pi_readopen := 0 |>);;
     wakeup (Some (ChPipeW pa)));;
  p ← getpi pa;
  if (pi_readopen p =? 0) && (pi_writeopen p =? 0) then
    release (LPipe pa);;
    modify (fun s => s <| k_pipes ::= delete pa |>);;
    kfree pa
  else release (LPipe pa).

(** int pipewrite(struct pipe *pi, uint64 addr, int n) *)
Fixpoint pipewrite_loop (fuel : nat) (pa : Z) (pr : nat) (addr n i : Z) : K Z :=
  match fuel with
  | O => diverge
  | S fuel' =>
      if i <? n then
        p ← getpi pa;
        dead ← (if pi_readopen p =? 0 then mret true else k ← killed pr; mret (negb (k =? 0)));
        if dead : bool then release (LPipe pa);; mret (-1)
        else
          p ← getpi pa;
          if pi_nwrite p =? u32 (pi_nread p + PIPESIZE) then
            wakeup (Some (ChPipeR pa));;
            sleep (ChPipeW pa) (LPipe pa);;
            pipewrite_loop fuel' pa pr addr n i
          else
            q ← getp pr;
            '(r, ch) ← copyin (p_pagetable q) (u64 (addr + i)) 1;
            if r =? -1 then
              wakeup (Some (ChPipeR pa));;
              release (LPipe pa);;
              mret i
            else
              setpi pa (fun p => p <| pi_data ::= <[Z.to_nat (pi_nwrite p mod PIPESIZE) := hd 0 ch]> |>
                                   <| pi_nwrite ::= (fun w => u32 (w + 1)) |>);;
              pipewrite_loop fuel' pa pr addr n (i + 1)
      else
        wakeup (Some (ChPipeR pa));;
        release (LPipe pa);;
        mret i
  end.
Definition pipewrite (pa addr n : Z) : K Z :=
  me ← myproc;
  pr ← the me;
  acquire (LPipe pa);;
  ((fun w => pipewrite_loop (S (Z.to_nat n + length (wenv w))) pa pr addr n 0 w) : K Z).

(** The first loop of piperead: wait for data or the end of the writers; false
    when the process was killed meanwhile. *)
Fixpoint piperead_wait (fuel : nat) (pa : Z) (pr : nat) : K bool :=
  match fuel with
  | O => diverge
  | S fuel' =>
      p ← getpi pa;
      if (pi_nread p =? pi_nwrite p) && negb (pi_writeopen p =? 0) then
        k ← killed pr;
        if negb (k =? 0) then mret false
        else sleep (ChPipeR pa) (LPipe pa);; piperead_wait fuel' pa pr
      else mret true
  end.

(** Its second loop: copy up to [k] more bytes out. *)
Fixpoint piperead_copy (k : nat) (pa : Z) (pr : nat) (addr i : Z) : K Z :=
  match k with
  | O => mret i
  | S k' =>
      p ← getpi pa;
      if pi_nread p =? pi_nwrite p then mret i
      else
        ch ← the (pi_data p !! Z.to_nat (pi_nread p mod PIPESIZE));
        setpi pa (fun p => p <| pi_nread ::= (fun r => u32 (r + 1)) |>);;
        q ← getp pr;
        r ← copyout (p_pagetable q) (u64 (addr + i)) [ch];
        if r =? -1 then mret i else piperead_copy k' pa pr addr (i + 1)
  end.

(** int piperead(struct pipe *pi, uint64 addr, int n) *)
Definition piperead (pa addr n : Z) : K Z :=
  me ← myproc;
  pr ← the me;
  acquire (LPipe pa);;
  alive ← ((fun w => piperead_wait (S (length (wenv w))) pa pr w) : K bool);
  if negb alive then release (LPipe pa);; mret (-1)
  else
    i ← piperead_copy (Z.to_nat n) pa pr addr 0;
    wakeup (Some (ChPipeW pa));;
    release (LPipe pa);;
    mret i.
