(* ===== verification/UserIO.v ===== *)
(** What the rest of the kernel relies on when it copies to and from user memory:
    the view of a user address space as bytes, single-byte copies, and that the
    view only depends on memory and the allocator. *)

From S2P Require Import Prelude Riscv Memory CString State Kalloc Vm PageTable AddrSpace UserMem CopyUser.

(** States with the same memory, allocator and linker symbols, in which the
    allocator's lock is free. *)
Record same_mem (s s' : kst) : Prop := {
  sm_mem : k_mem s' = k_mem s;
  sm_free : k_freelist s' = k_freelist s;
  sm_end : k_end s' = k_end s;
  sm_held : LKmem ∉ k_held s';
}.

Lemma vm_inv_same s s' root d l : same_mem s s' -> vm_inv s root d l -> vm_inv s' root d l.
Proof.
  intros [Em Ef Ee Hh] [_ [F1 F2 F3 F4] [P1 P2 P3 P4 P5 P6] V]. split; [done| | |done].
  - split; [by rewrite Em, Ef|done| |by rewrite Ee].
    eapply Forall_impl; [done|]. intros p. unfold page_ok. by rewrite Ee.
  - split; try done; [|by rewrite Em]. intros p a Hp. unfold page_ok. rewrite Ee. by apply (P3 p).
Qed.

Lemma leaf_same s s' d va : same_mem s s' -> leaf s' d va = leaf s d va.
Proof. intros [Em _ _ _]. unfold leaf. by rewrite Em. Qed.

Lemma uread_same s s' d va : same_mem s s' -> uread s' d va = uread s d va.
Proof.
  intros H. unfold uread, uaccess, upa. rewrite !(leaf_same s s' d va H). by rewrite (sm_mem _ _ H).
Qed.

(** Copying one readable byte in. *)
Lemma copyin_byte s root d l e va b :
  vm_inv s root d l -> 0 <= va < 2 ^ 64 -> uread s d va = Some b ->
  copyin root va 1 (mkW s e) = Ok (0, [b]) (mkW s e).
Proof.
  intros Hinv Hva Hb.
  destruct (copyin_loop_spec s root d l Hinv 2 e va 1 []) as (r & bs & E & Hr & Hc); [done|lia|lia|lia|done|].
  unfold copyin. change (S (Z.to_nat 1)) with 2%nat. rewrite E. clear E.
  change (Z.of_nat (length [])) with 0 in *. rewrite Z.sub_0_r in *.
  destruct Hc as [[-> Hl]|(-> & Hl & Hn)].
  - destruct bs as [|c [|c' bs]]; simpl in Hl; try lia. specialize (Hr 0%nat c eq_refl).
    rewrite Z.add_0_r, Hb in Hr. by injection Hr as ->.
  - destruct bs; simpl in *; [|lia]. rewrite Z.add_0_r in Hn. congruence.
Qed.

(** * Writing to user memory *)

(** A user address space of its own. *)
Record user_as (s : kst) (root : Z) (d : dirmap) (l : list Z) : Prop := {
  ua_vm : vm_inv s root d l;
  ua_as : as_ok s d l;
}.

Lemma user_as_same s s' root d l : same_mem s s' -> user_as s root d l -> user_as s' root d l.
Proof.
  intros Hs [V [A1 A2]]. pose proof (fun va => leaf_same s s' d va Hs) as L.
  assert (U : forall va, uaccess s' d va = uaccess s d va) by (intros va; unfold uaccess; by rewrite L).
  split; [by eapply vm_inv_same|]. split.
  - intros va Hva. rewrite U, L. unfold page_ok. rewrite (sm_end _ _ Hs). by apply A1.
  - intros va va' Hva Hva'. rewrite !U, !L. by apply A2.
Qed.

(** [bs] was written at user address [va]: the memory part of [wrote]. *)
Record uwrote (d : dirmap) (s s' : kst) (va : Z) (bs : list Z) : Prop := {
  uw_leaf : forall va', 0 <= va' -> leaf s' d va' = leaf s d va';
  uw_user : forall va', 0 <= va' -> uaccess s d va' = true ->
    mrd (k_mem s') (upa s d va') =
      match bs !! Z.to_nat (va' - va) with
      | Some v => if decide (va <= va') then u8 v else mrd (k_mem s) (upa s d va')
      | None => mrd (k_mem s) (upa s d va')
      end;
  uw_out : forall b, (forall va', 0 <= va' -> uwritable s d va' = true -> upa s d va' <> b) ->
    mrd (k_mem s') b = mrd (k_mem s) b;
}.

(** What user code reads afterwards. *)
Lemma uwrote_read d s s' va bs va' :
  uwrote d s s' va bs -> 0 <= va' ->
  uread s' d va' =
    match bs !! Z.to_nat (va' - va) with
    | Some v => if decide (va <= va') then (fun _ => u8 v) <$> uread s d va' else uread s d va'
    | None => uread s d va'
    end.
Proof.
  intros [L U _] Hva. destruct (uaccess_leaf s s' d L va' Hva) as (E1 & _ & E3).
  unfold uread. rewrite E1, E3, L by done. destruct (uaccess s d va') eqn:Ea; simpl.
  - rewrite U by done. destruct (_ =? 0); simpl; destruct (bs !! _); try done; by case_decide.
  - destruct (bs !! _); [by case_decide|done].
Qed.

Lemma wrote_uwrote d s t s' va bs : k_mem s = k_mem t -> wrote d s s' va bs -> uwrote d t s' va bs.
Proof.
  intros E [_ L U O]. assert (EL : forall va, leaf t d va = leaf s d va) by (intros; unfold leaf; by rewrite E).
  split.
  - intros va' H. by rewrite EL, L.
  - intros va' H Ha. unfold uaccess, upa in *. rewrite EL in *. rewrite U by done. by rewrite E.
  - intros b Hb. rewrite O; [by rewrite E|]. intros va' H Hw. unfold uwritable, uaccess, upa in *.
    rewrite <- EL in *. by apply Hb.
Qed.

Lemma uwrote_nil d s s' va : k_mem s' = k_mem s -> uwrote d s s' va [].
Proof. intros E. split; intros; unfold leaf; by rewrite E. Qed.

Lemma uwrote_app d s1 s2 s3 va bs bs' :
  uwrote d s1 s2 va bs -> uwrote d s2 s3 (va + Z.of_nat (length bs)) bs' -> uwrote d s1 s3 va (bs ++ bs').
Proof.
  intros [A1 A2 A3] [B1 B2 B3].
  assert (W1 : wrote d s1 (s1 <| k_mem := k_mem s2 |>) va bs).
  { split; try done. exists (k_freelist s1), (k_mem s2). kst_eq. }
  assert (W2 : wrote d (s1 <| k_mem := k_mem s2 |>) (s1 <| k_mem := k_mem s3 |>) (va + Z.of_nat (length bs)) bs').
  { split; try done. exists (k_freelist s1), (k_mem s3). kst_eq. }
  destruct (wrote_app _ _ _ _ _ _ _ W1 W2) as [_ L U O]. by split.
Qed.

(** Copying one byte out. *)
Lemma copyout_byte s root d l e va c :
  user_as s root d l -> 0 <= va < 2 ^ 64 ->
  exists s', copyout root va [c] (mkW s e) = Ok (if uwritable s d va then 0 else -1) (mkW s' e) /\
    mem_only s s' /\ user_as s' root d l /\ uwrote d s s' va (if uwritable s d va then [c] else []).
Proof.
  intros [V A] Hva.
  destruct (copyout_loop_spec root d l 2 e s va [c]) as (r & s' & k & E & V' & W & Hk & Hw & Hr);
    [done|done|done|simpl; lia|].
  exists s'. unfold copyout. change (S (length [c])) with 2%nat. rewrite E.
  assert (A' : as_ok s' d l) by (eapply as_ok_leaf; [done|apply W|apply W]).
  destruct Hr as [[-> ->]|(-> & Hlt & Hn)].
  - specialize (Hw 0%nat ltac:(simpl; lia)). rewrite Z.add_0_r in Hw. rewrite Hw.
    split_and!; [done|apply W|by split|by apply (wrote_uwrote d s s)].
  - destruct k; [|simpl in Hlt; lia]. rewrite Z.add_0_r in Hn. rewrite Hn.
    split_and!; [done|apply W|by split|by apply (wrote_uwrote d s s)].
Qed.
