(* ===== verification/FsSpec.v ===== *)
(** Files and directories: reading a file gives its contents, looking a name up
    in a directory finds its first entry of that name, skipelem splits paths at
    their slashes, and an inode survives the trip to its place on disk. *)

From stdpp Require Import functions.
From S2P Require Import Prelude Riscv Memory Bytes CString State Kalloc Vm PageTable AddrSpace UserMem CopyUser UserIO.
From S2P Require Import Sched Sleeplock Lru Bio Bcache Cache CacheOps Log Fs Dir.

(** * Contents of a file *)

(** Block [bn] of the file, through the inode and its indirect block, and byte
    [k]; [V] is the contents of the disk's blocks. *)
Definition file_block (V : Z -> block) (i : inode) (bn : Z) : Z :=
  if bn <? NDIRECT then default 0 (i_addrs i !! Z.to_nat bn)
  else get 4 (4 * Z.to_nat (bn - NDIRECT)) (V (default 0 (i_addrs i !! Z.to_nat NDIRECT))).
Definition file_byte (V : Z -> block) (i : inode) (k : Z) : Z :=
  default 0 (V (file_block V i (k / BSIZE)) !! Z.to_nat (k mod BSIZE)).
Definition file_bytes (V : Z -> block) (i : inode) (off n : Z) : list Z :=
  file_byte V i <$> seqZ off n.

(** An inode whose blocks up to its size are all there, none of them locked. *)
Record file_ok (V : Z -> block) (O : Z -> option Z) (i : inode) : Prop := {
  fo_dev : i_dev i = ROOTDEV;
  fo_addrs : length (i_addrs i) = Z.to_nat (NDIRECT + 1);
  fo_size : 0 <= i_size i <= MAXFILE * BSIZE;
  fo_block : forall bn, 0 <= bn -> bn * BSIZE < i_size i -> file_block V i bn <> 0 /\ O (file_block V i bn) = None;
  fo_ind : NDIRECT * BSIZE < i_size i ->
    default 0 (i_addrs i !! Z.to_nat NDIRECT) <> 0 /\ O (default 0 (i_addrs i !! Z.to_nat NDIRECT)) = None;
  fo_len : forall x, length (V x) = Z.to_nat BSIZE;
}.

(** One more block fits in the cache. *)
Definition spare (R : Z -> Z) : Prop := exists U : gset Z, (forall x, R x <> 0 -> x ∈ U) /\ (size U < HEAD)%nat.

Lemma spare_fits R bn : spare R -> exists U, fits R U /\ bn ∈ U.
Proof.
  intros (U & HU & Hs). destruct (decide (bn ∈ U)) as [Hin|Hin]; [exists U; split; [split; [done|lia]|done]|].
  exists ({[bn]} ∪ U). split; [|set_solver]. split; [set_solver|].
  rewrite size_union, size_singleton by set_solver. lia.
Qed.

Section read.
Context {pid : Z} {V : Z -> block} {R : Z -> Z} {O : Z -> option Z} {d : disk}.
Context (HR : spare R).

(** Reading a block, and releasing it again: the cache's clients see no change. *)
Lemma read_block s e bn :
  cst s pid V R O d -> O bn = None ->
  exists j s1, bread ROOTDEV bn (mkW s e) = Ok j (mkW s1 e) /\ cstep s s1 /\
    cst s1 pid V (<[bn := R bn + 1]> R) (<[bn := Some pid]> O) d /\ held s1 pid bn j /\ (R bn = 0 -> V bn = dread d bn).
Proof using HR.
  intros Hc Ho. destruct (spare_fits R bn HR) as (U & HU & Hbn).
  destruct (do_read s e bn U Hc Ho HU Hbn) as (j & s1 & E1 & St1 & Hc1 & Hh1 & _ & _).
  exists j, s1. split_and!; try done. intros H0. rewrite <- (c_view _ _ _ _ _ _ Hc bn), <- (c_disk _ _ _ _ _ _ Hc).
  apply clean_view; [apply Hc|]. by rewrite (c_refs _ _ _ _ _ _ Hc).
Qed.

Lemma release_block s e bn j :
  cst s pid V (<[bn := R bn + 1]> R) (<[bn := Some pid]> O) d -> held s pid bn j -> O bn = None ->
  (R bn = 0 -> V bn = dread d bn) ->
  exists s', brelse j (mkW s e) = Ok tt (mkW s' e) /\ cstep s s' /\ cst s' pid V R O d.
Proof.
  intros Hc Hh Ho Hcl. destruct (do_release s e bn j Hc Hh) as (s2 & E2 & St2 & Hc2 & _ & _).
  { rewrite fn_lookup_insert. intros H1. apply Hcl. lia. }
  exists s2. split_and!; try done. eapply cst_ext; [exact Hc2|done| |]; intros x; rewrite ?fn_lookup_insert.
  - destruct (decide (bn = x)) as [<-|]; [by rewrite fn_lookup_insert, Z.add_simpl_r|by rewrite !fn_lookup_insert_ne].
  - destruct (decide (bn = x)) as [<-|]; [by rewrite fn_lookup_insert|by rewrite !fn_lookup_insert_ne].
Qed.

Lemma cstep_itable s s' : cstep s s' -> k_itable s' = k_itable s.
Proof. intros [_ _ ->]. done. Qed.

Lemma geti_run ip i s e : k_itable s !! ip = Some i -> geti ip (mkW s e) = Ok i (mkW s e).
Proof. intros H. unfold geti. rewrite bind_gets. cbn [wk]. by rewrite H. Qed.

(** bmap on a block of the file only looks. *)
Lemma bmap_run s e ip i bn :
  cst s pid V R O d -> k_itable s !! ip = Some i -> file_ok V O i -> 0 <= bn -> bn * BSIZE < i_size i ->
  exists s', bmap ip bn (mkW s e) = Ok (file_block V i bn) (mkW s' e) /\ cstep s s' /\ cst s' pid V R O d.
Proof using HR.
  intros Hc Hi Hf Hbn Hsz. destruct (fo_block _ _ _ Hf bn Hbn Hsz) as [Hne _]. pose proof (fo_addrs _ _ _ Hf) as Hl.
  pose proof (fo_size _ _ _ Hf) as Hmx. unfold bmap, bmap_direct, get_addr, file_block in *.
  destruct (Z.ltb_spec bn NDIRECT) as [Hlt|Hge].
  - destruct (lookup_lt_is_Some_2 (i_addrs i) (Z.to_nat bn)) as [a Ha]; [rewrite Hl; unfold NDIRECT in *; lia|].
    rewrite Ha in Hne |- *. simpl in Hne |- *. exists s. split; [|by split; [apply cstep_refl, Hc|]].
    rewrite bind_assoc, (bind_ok _ _ _ _ _ (geti_run ip i s e Hi)), (bind_the _ _ _ a Ha).
    by rewrite (proj2 (Z.eqb_neq a 0)).
  - destruct (fo_ind _ _ _ Hf) as [Hne2 Ho2]; [unfold BSIZE in *; lia|].
    destruct (lookup_lt_is_Some_2 (i_addrs i) (Z.to_nat NDIRECT)) as [a Ha]; [rewrite Hl; unfold NDIRECT in *; lia|].
    rewrite Ha in Hne, Hne2, Ho2 |- *. simpl in Hne, Hne2, Ho2 |- *.
    rewrite (proj2 (Z.ltb_lt (bn - NDIRECT) NINDIRECT)) by (unfold MAXFILE, NINDIRECT, BSIZE in *; lia).
    rewrite !bind_assoc, (bind_ok _ _ _ _ _ (geti_run ip i s e Hi)), (bind_the _ _ _ a Ha).
    rewrite (proj2 (Z.eqb_neq a 0)) by done. rewrite bind_ret. rewrite (proj2 (Z.eqb_neq a 0)) by done.
    rewrite (bind_ok _ _ _ _ _ (geti_run ip i s e Hi)), (fo_dev _ _ _ Hf).
    destruct (read_block s e a Hc Ho2) as (j & s1 & E1 & St1 & Hc1 & Hh1 & Hcl).
    destruct (held_data _ _ _ Hc1 Hh1) as (b & Hb & Hbd).
    destruct (release_block s1 e a j Hc1 Hh1 Ho2 Hcl) as (s2 & E2 & St2 & Hc2).
    rewrite (bind_ok _ _ _ _ _ E1). unfold getb. rewrite bind_assoc, bind_gets. cbn [wk]. rewrite (bind_the _ _ _ b Hb), Hbd.
    rewrite (proj2 (Z.eqb_neq _ 0)) by done. rewrite bind_ret, (bind_ok _ _ _ _ _ E2). exists s2. split_and!; [done|by eapply cstep_trans|done].
Qed.
End read.

(** * Where the bytes go *)

(** What reading leaves alone. *)
Record fstep (s s' : kst) : Prop := {
  fs_woken : woken s s';
  fs_frame : s' = s <| k_bufs := k_bufs s' |> <| k_procs := k_procs s' |> <| k_disk := k_disk s' |>
                    <| k_power := k_power s' |> <| k_mem := k_mem s' |> <| k_freelist := k_freelist s' |>;
}.

Lemma fstep_trans s1 s2 s3 : fstep s1 s2 -> fstep s2 s3 -> fstep s1 s3.
Proof. intros [Hw1 E1] [Hw2 E2]. split; [by etrans|]. rewrite E2. rewrite E1. kst_eq. Qed.
Lemma fstep_cstep s s' : cstep s s' -> fstep s s'.
Proof. intros [_ Hw E]. split; [done|]. rewrite E. kst_eq. Qed.
Lemma fstep_mem s s' : mem_only s s' -> fstep s s'.
Proof. intros (f & m & ->). split; [apply (woken_refl s)|kst_eq]. Qed.

Lemma cst_mem {pid V R O d} s s' : cst s pid V R O d -> mem_only s s' -> cst s' pid V R O d.
Proof.
  intros [Hi Ha HV HR HO Hd] (f & m & ->). split; try done.
  - by apply (bc_inv_ext s).
  - by destruct Ha.
Qed.

Lemma held_mem s s' pid bn i : held s pid bn i -> mem_only s s' -> held s' pid bn i.
Proof. intros (b & Hb & H) (f & m & ->). exists b. split; [|done]. by apply (buf_of_ext s). Qed.

Section dest.
Context (p : nat) (root : Z) (dm : dirmap) (l : list Z).

(** A destination for [n] bytes: a kernel buffer, or a range of the address space
    of the current process. *)
Definition dest_ok (dst : dest) (n : Z) (s : kst) : Prop :=
  match dst with
  | DKern => True
  | DUser va => 0 <= va /\ va + n <= 2 ^ 64 /\ user_as s root dm l /\ k_cur s = Some p /\
      p_pagetable <$> k_procs s !! p = Some root
  end.
Definition accepts (dst : dest) (s : kst) (k : Z) : bool :=
  match dst with DKern => true | DUser va => uwritable s dm (va + k) end.
Definition delivered (dst : dest) (s s' : kst) (at_ : Z) (bs : list Z) : Prop :=
  match dst with DKern => k_mem s' = k_mem s | DUser va => uwrote dm s s' (va + at_) bs end.
Definition returned (dst : dest) (bs : list Z) : list Z := match dst with DKern => bs | DUser _ => [] end.

Lemma copy_chunk dst n tot src s e :
  dest_ok dst n s -> 0 <= tot -> tot + Z.of_nat (length src) <= n -> src <> [] ->
  exists r s' k, either_copyout (dest_at dst tot) src (mkW s e) = Ok (r, returned dst src) (mkW s' e) /\
    mem_only s s' /\ dest_ok dst n s' /\ delivered dst s s' tot (take k src) /\ (k <= length src)%nat /\
    (forall j, (j < k)%nat -> accepts dst s (tot + Z.of_nat j) = true) /\
    (r = 0 /\ k = length src \/ r = -1 /\ (k < length src)%nat /\ accepts dst s (tot + Z.of_nat k) = false).
Proof.
  intros Hd Ht Hn Hs. assert (0 < length src)%nat by (destruct src; simpl; [done|lia]).
  unfold either_copyout, myproc. rewrite bind_gets. destruct dst as [va|]; cbn [dest_at dest_ok accepts delivered returned] in *.
  - destruct Hd as (H0 & H1 & [Hv Ha] & Hc & Hp). destruct (k_procs s !! p) as [pr|] eqn:Ep; [|done]. injection Hp as Hp.
    replace (u64 (va + tot)) with (va + tot) by (unfold u64; rewrite Z.mod_small; lia).
    cbn [wk]. rewrite Hc. rewrite (bind_the _ _ _ p) by done. unfold getp. rewrite bind_assoc, bind_gets.
    rewrite (bind_the _ _ _ pr Ep), Hp.
    destruct (copyout_loop_spec root dm l (S (length src)) e s (va + tot) src) as (r & s' & k & E & V' & W & Hk & Hw & Hr);
      [done|done|lia|lia|].
    unfold copyout. rewrite (bind_ok _ _ _ _ _ E). exists r, s', k.
    assert (Hu : user_as s' root dm l) by (split; [done|eapply as_ok_leaf; [done|apply W|apply W]]).
    assert (Hm : mem_only s s') by apply W. setoid_rewrite Z.add_assoc.
    pose proof (wrote_uwrote dm s s s' _ _ eq_refl W) as Hw'. pose proof Hm as (f & m & Es).
    assert (Hpr : k_cur s' = Some p /\ p_pagetable <$> k_procs s' !! p = Some root) by (rewrite Es; simpl; rewrite Ep, <- Hp; done).
    destruct Hpr. by split_and!.
  - exists 0, s, (length src). split_and!; try done. by left.
Qed.

Lemma cstep_same s s' : cstep s s' -> LKmem ∉ k_held s -> same_mem s s'.
Proof. intros [_ _ E] Hh. rewrite E. by split. Qed.

Lemma dest_ok_cstep dst n s s' : cstep s s' -> dest_ok dst n s -> dest_ok dst n s'.
Proof.
  intros Hs Hd. destruct dst as [va|]; [|done]. destruct Hd as (H0 & H1 & Hu & Hc & Hp). split_and!; try done.
  - eapply user_as_same; [|exact Hu]. apply cstep_same; [done|]. apply (ua_vm _ _ _ _ Hu).
  - destruct Hs as [_ _ ->]. done.
  - destruct Hs as [_ Hw _]. apply (Forall2_lookup _ _ _) with (i := p) in Hw. rewrite <- Hp.
    by destruct Hw as [x y [->|[_ ->]]|].
Qed.

Lemma accepts_cstep dst s s' k : cstep s s' -> accepts dst s' k = accepts dst s k.
Proof.
  intros [_ _ E]. destruct dst as [va|]; [|done]. cbn [accepts]. unfold uwritable, uaccess, leaf. rewrite E. done.
Qed.

Lemma accepts_delivered dst n s s' at_ bs k :
  dest_ok dst n s -> 0 <= k -> delivered dst s s' at_ bs -> accepts dst s' k = accepts dst s k.
Proof.
  intros Hd Hk Hw. destruct dst as [va|]; [|done]. destruct Hd as (H0 & _). cbn [accepts delivered] in *.
  by destruct (uaccess_leaf s s' dm (uw_leaf _ _ _ _ _ Hw) (va + k) ltac:(lia)) as (_ & -> & _).
Qed.

Lemma delivered_mem dst s s' at_ : k_mem s' = k_mem s -> delivered dst s s' at_ [].
Proof. intros E. destruct dst; [by apply uwrote_nil|done]. Qed.

Lemma delivered_app dst s1 s2 s3 at_ bs bs' :
  delivered dst s1 s2 at_ bs -> delivered dst s2 s3 (at_ + Z.of_nat (length bs)) bs' -> delivered dst s1 s3 at_ (bs ++ bs').
Proof.
  destruct dst; cbn [delivered]; [|congruence]. rewrite Z.add_assoc. apply uwrote_app.
Qed.

(** Steps of the cache before and after a delivery. *)
Lemma delivered_cstep dst s1 s2 s3 s4 at_ bs :
  cstep s1 s2 -> delivered dst s2 s3 at_ bs -> cstep s3 s4 -> delivered dst s1 s4 at_ bs.
Proof.
  intros H1 H2 H3. assert (E1 : k_mem s2 = k_mem s1) by (by destruct H1 as [_ _ ->]).
  assert (E2 : k_mem s4 = k_mem s3) by (by destruct H3 as [_ _ ->]).
  rewrite <- (app_nil_r bs). eapply delivered_app; [|by apply delivered_mem].
  rewrite <- (app_nil_l bs). eapply delivered_app; [by apply delivered_mem|]. by rewrite Z.add_0_r.
Qed.
End dest.

(** * Reading a file *)

Lemma file_bytes_app V i off m m' :
  0 <= m -> 0 <= m' -> file_bytes V i off (m + m') = file_bytes V i off m ++ file_bytes V i (off + m) m'.
Proof. intros Hm Hm'. unfold file_bytes. by rewrite seqZ_app, fmap_app by lia. Qed.

Lemma length_file_bytes V i off m : length (file_bytes V i off m) = Z.to_nat m.
Proof. unfold file_bytes. by rewrite length_fmap, length_seqZ. Qed.

(** The part of a block that the loop copies. *)
Lemma file_chunk V i off m :
  0 <= off -> 0 <= m -> off mod BSIZE + m <= BSIZE -> length (V (file_block V i (off / BSIZE))) = Z.to_nat BSIZE ->
  take (Z.to_nat m) (drop (Z.to_nat (off mod BSIZE)) (V (file_block V i (off / BSIZE)))) = file_bytes V i off m.
Proof.
  intros Ho Hm Hb Hl. assert (HB : 0 < BSIZE) by done. pose proof (Z.mod_pos_bound off BSIZE HB).
  apply list_eq. intros k. unfold file_bytes. rewrite list_lookup_fmap.
  destruct (decide (k < Z.to_nat m)%nat) as [Hk|Hk].
  - rewrite lookup_take_lt, lookup_drop, lookup_seqZ_lt by lia. simpl. unfold file_byte.
    assert (Ed : (off + Z.of_nat k) / BSIZE = off / BSIZE /\ (off + Z.of_nat k) mod BSIZE = off mod BSIZE + Z.of_nat k).
    { pose proof (Z.div_mod off BSIZE ltac:(lia)). split.
      - symmetry. apply (Z.div_unique _ _ _ (off mod BSIZE + Z.of_nat k)); lia.
      - symmetry. apply (Z.mod_unique _ _ (off / BSIZE)); lia. }
    destruct Ed as [-> ->]. replace (Z.to_nat (off mod BSIZE + Z.of_nat k)) with (Z.to_nat (off mod BSIZE) + k)%nat by lia.
    destruct (lookup_lt_is_Some_2 (V (file_block V i (off / BSIZE))) (Z.to_nat (off mod BSIZE) + k)) as [x ->]; [lia|done].
  - rewrite lookup_take_ge, lookup_seqZ_ge by lia. done.
Qed.

(** A round of the loop leaves one block less. *)
Lemma readi_fuel off tot n fuel :
  let m := Z.min (n - tot) (BSIZE - off mod BSIZE) in
  tot < n -> (off mod BSIZE + (n - tot) + BSIZE - 1) / BSIZE < Z.of_nat (S fuel) ->
  (0 < fuel)%nat /\ (tot + m < n -> ((off + m) mod BSIZE + (n - (tot + m)) + BSIZE - 1) / BSIZE < Z.of_nat fuel).
Proof.
  intros m Ht Hf. assert (HB : BSIZE = 1024) by done. pose proof (Z.mod_pos_bound off BSIZE ltac:(lia)) as Hmod.
  assert (Hq : off mod BSIZE + (n - tot) + BSIZE - 1 < BSIZE * Z.of_nat (S fuel)).
  { pose proof (Z.div_mod (off mod BSIZE + (n - tot) + BSIZE - 1) BSIZE ltac:(lia)) as Hdm.
    pose proof (Z.mod_pos_bound (off mod BSIZE + (n - tot) + BSIZE - 1) BSIZE ltac:(lia)). lia. }
  split; [lia|]. intros Hlt. apply Z.div_lt_upper_bound; [lia|].
  replace ((off + m) mod BSIZE) with 0; [lia|]. replace m with (BSIZE - off mod BSIZE) by lia.
  rewrite Z.add_sub_assoc, Zminus_mod, Z.mod_mod by lia. rewrite Zplus_mod, Z.mod_same by lia.
  rewrite Z.add_0_r, Z.mod_mod, Z.sub_diag by lia. done.
Qed.

Section readi.
Context {pid : Z} {V : Z -> block} {R : Z -> Z} {O : Z -> option Z} {d : disk} (HR : spare R).
Context (p : nat) (root : Z) (dm : dirmap) (l : list Z).
Context (ip : nat) (i : inode) (Hf : file_ok V O i) (dst : dest) (n : Z).

Local Notation bytes_at := (file_bytes V i).
Local Notation okay := (dest_ok p root dm l dst n).
Local Notation acc := (accepts dm dst).
Local Notation deliver := (delivered dm dst).

(** One block of the loop. *)
Lemma readi_chunk fuel e s off tot got :
  let m := Z.min (n - tot) (BSIZE - off mod BSIZE) in
  cst s pid V R O d -> k_itable s !! ip = Some i -> okay s -> 0 <= off -> 0 <= tot < n -> off + (n - tot) <= i_size i ->
  exists r s' k, readi_loop (S fuel) ip dst off n tot got (mkW s e) =
      (if r =? -1 then mret (-1, got) else readi_loop fuel ip dst (off + m) n (tot + m) (got ++ returned dst (bytes_at off m))) (mkW s' e) /\
    fstep s s' /\ cst s' pid V R O d /\ okay s' /\ deliver s s' tot (take k (bytes_at off m)) /\ (k <= Z.to_nat m)%nat /\
    (forall j, (j < k)%nat -> acc s (tot + Z.of_nat j) = true) /\
    (r = 0 /\ k = Z.to_nat m \/ r = -1 /\ (k < Z.to_nat m)%nat /\ acc s (tot + Z.of_nat k) = false).
Proof using HR Hf.
  intros m Hc Hi Hd Ho Ht Hsz. assert (HB : BSIZE = 1024) by done. pose proof (Z.mod_pos_bound off BSIZE ltac:(lia)) as Hmod.
  assert (Hm : 0 < m <= n - tot /\ off mod BSIZE + m <= BSIZE) by lia. pose proof (fo_size _ _ _ Hf) as Hmax.
  assert (Hbn : 0 <= off / BSIZE /\ off / BSIZE * BSIZE < i_size i)
    by (pose proof (Z.div_mod off BSIZE ltac:(lia)); split; [apply Z.div_pos; lia|lia]).
  destruct Hbn as [Hb0 Hb1]. destruct (fo_block _ _ _ Hf _ Hb0 Hb1) as [Hne Hoa].
  destruct (bmap_run HR s e ip i (off / BSIZE) Hc Hi Hf Hb0 Hb1) as (s1 & E1 & St1 & Hc1).
  assert (Hi1 : k_itable s1 !! ip = Some i) by (by rewrite (cstep_itable _ _ St1)).
  destruct (read_block HR s1 e _ Hc1 Hoa) as (j & s2 & E2 & St2 & Hc2 & Hh2 & Hcl).
  destruct (held_data _ _ _ Hc2 Hh2) as (b & Hb & Hbd).
  pose proof (cstep_trans _ _ _ St1 St2) as St12. pose proof (dest_ok_cstep _ _ _ _ _ _ _ _ St12 Hd) as Hd2.
  destruct (copy_chunk p root dm l dst n tot (bytes_at off m) s2 e Hd2) as (r & s3 & k & E3 & Hm3 & Hd3 & Hw & Hk & Hacc & Hr);
    [lia|rewrite length_file_bytes; lia|intros E%(f_equal length); rewrite length_file_bytes in E; simpl in E; lia|].
  destruct (release_block s3 e _ j (cst_mem _ _ Hc2 Hm3) (held_mem _ _ _ _ _ Hh2 Hm3) Hoa Hcl) as (s4 & E4 & St4 & Hc4).
  rewrite length_file_bytes in *. setoid_rewrite (accepts_cstep dm dst s s2 _ St12) in Hacc.
  rewrite (accepts_cstep dm dst s s2 _ St12) in Hr. exists r, s4, k. split_and!; try done.
  - cbn [readi_loop]. rewrite (proj2 (Z.ltb_lt tot n)) by lia. rewrite (bind_ok _ _ _ _ _ E1).
    rewrite (proj2 (Z.eqb_neq _ 0) Hne), (bind_ok _ _ _ _ _ (geti_run ip i s1 e Hi1)), (fo_dev _ _ _ Hf), (bind_ok _ _ _ _ _ E2).
    unfold getb. rewrite bind_assoc, bind_gets, (bind_the _ _ _ b Hb), Hbd. fold m.
    rewrite file_chunk by (lia || apply Hf). rewrite (bind_ok _ _ _ _ _ E3).
    replace (u32 (off + m)) with (off + m).
    + destruct Hr as [[-> _]|[-> _]]; cbn [Z.eqb Pos.eqb]; by rewrite (bind_ok _ _ _ _ _ E4).
    + unfold u32. rewrite Z.mod_small; [done|]. change (MAXFILE * BSIZE) with 274432 in Hmax. lia.
  - eapply fstep_trans; [by apply fstep_cstep|]. eapply fstep_trans; [by apply fstep_mem|by apply fstep_cstep].
  - by eapply dest_ok_cstep.
  - by eapply delivered_cstep.
Qed.

Lemma readi_loop_run : forall fuel e s off tot got,
  cst s pid V R O d -> k_itable s !! ip = Some i -> okay s -> 0 <= off -> 0 <= tot <= n -> off + (n - tot) <= i_size i ->
  (0 < fuel)%nat -> (tot < n -> (off mod BSIZE + (n - tot) + BSIZE - 1) / BSIZE < Z.of_nat fuel) ->
  exists r s' k got', readi_loop fuel ip dst off n tot got (mkW s e) = Ok (r, got') (mkW s' e) /\
    fstep s s' /\ cst s' pid V R O d /\ deliver s s' tot (take k (bytes_at off (n - tot))) /\
    (forall j, (j < k)%nat -> acc s (tot + Z.of_nat j) = true) /\
    (r = n /\ k = Z.to_nat (n - tot) /\ got' = got ++ returned dst (bytes_at off (n - tot)) \/
     r = -1 /\ (k < Z.to_nat (n - tot))%nat /\ acc s (tot + Z.of_nat k) = false).
Proof using HR Hf.
  assert (HB : BSIZE = 1024) by done.
  induction fuel as [|fuel IH]; intros e s off tot got Hc Hi Hd Ho Ht Hsz Hf0 Hfu; [lia|].
  destruct (decide (tot = n)) as [->|Hne].
  { rewrite Z.sub_diag. exists n, s, 0%nat, got. cbn [readi_loop]. rewrite Z.ltb_irrefl. split_and!; try done.
    - apply fstep_cstep, cstep_refl, Hc.
    - by apply delivered_mem.
    - lia.
    - left. split_and!; try done. destruct dst; simpl; by rewrite app_nil_r. }
  destruct (readi_chunk fuel e s off tot got) as (r & s1 & k & E & St & Hc1 & Hd1 & Hw & Hk & Hacc & Hr);
    [done|done|done|done|lia|done|]. set (m := Z.min (n - tot) (BSIZE - off mod BSIZE)) in *.
  pose proof (Z.mod_pos_bound off BSIZE ltac:(lia)) as Hmod. rewrite E.
  assert (Hb : bytes_at off (n - tot) = bytes_at off m ++ bytes_at (off + m) (n - (tot + m)))
    by (rewrite <- file_bytes_app by lia; f_equal; lia).
  destruct Hr as [[-> ->]|(-> & Hlt & Hn)]; cbn [Z.eqb Pos.eqb].
  2:{ exists (-1), s1, k, got. split_and!; try done; [|right; split_and!; [done|lia|done]].
      rewrite Hb, take_app_le by (rewrite length_file_bytes; lia). done. }
  rewrite firstn_all2 in Hw by (rewrite length_file_bytes; lia).
  pose proof (readi_fuel off tot n fuel ltac:(lia) (Hfu ltac:(lia))) as Hfu'. fold m in Hfu'.
  destruct (IH e s1 (off + m) (tot + m) (got ++ returned dst (bytes_at off m))) as (r & s2 & k & got' & E2 & St2 & Hc2 & Hw2 & Hacc2 & Hr2);
    [done|destruct St as [_ ->]; done|done|lia|lia|lia|apply Hfu'|apply Hfu'|].
  assert (Hacc' : forall j, acc s1 (tot + m + j) = acc s (tot + (m + j)) \/ j < 0).
  { intros j. destruct (decide (j < 0)); [by right|left]. rewrite <- Z.add_assoc. eapply accepts_delivered; [exact Hd|lia|exact Hw]. }
  exists r, s2, (Z.to_nat m + k)%nat, got'. split_and!; try done.
  - by eapply fstep_trans.
  - rewrite Hb, take_app_add' by (by rewrite length_file_bytes). eapply delivered_app; [exact Hw|].
    rewrite length_file_bytes, Z2Nat.id by lia. exact Hw2.
  - intros j Hj. destruct (decide (j < Z.to_nat m)%nat) as [Hjm|Hjm]; [by apply Hacc|].
    specialize (Hacc2 (j - Z.to_nat m)%nat ltac:(lia)). destruct (Hacc' (Z.of_nat (j - Z.to_nat m))) as [Ha|]; [|lia].
    rewrite Ha in Hacc2. rewrite <- Hacc2. f_equal. lia.
  - destruct Hr2 as [(-> & -> & ->)|(-> & Hlt & Hn)]; [left|right]; (split; [done|]); split; [lia| |lia|].
    + rewrite <- app_assoc, Hb. f_equal. by destruct dst.
    + destruct (Hacc' (Z.of_nat k)) as [Ha|]; [|lia]. rewrite Ha in Hn. rewrite <- Hn. f_equal. lia.
Qed.
End readi.

(** The number of bytes a read of [n] bytes at [off] is about. *)
Definition read_len (i : inode) (off n : Z) : Z :=
  if bool_decide (i_size i < off \/ 2 ^ 32 <= off + n) then 0 else Z.min n (i_size i - off).

Lemma readi_run pid V R O d p root dm l ip i dst off n s e :
  spare R -> cst s pid V R O d -> k_itable s !! ip = Some i -> file_ok V O i -> dest_ok p root dm l dst n s ->
  0 <= off < 2 ^ 32 -> 0 <= n < 2 ^ 32 ->
  let bs := file_bytes V i off (read_len i off n) in
  exists r s' k got, readi ip dst off n (mkW s e) = Ok (r, got) (mkW s' e) /\
    fstep s s' /\ cst s' pid V R O d /\ delivered dm dst s s' 0 (take k bs) /\
    (forall j, (j < k)%nat -> accepts dm dst s (Z.of_nat j) = true) /\
    (r = read_len i off n /\ k = length bs /\ got = returned dst bs \/
     r = -1 /\ (k < length bs)%nat /\ accepts dm dst s (Z.of_nat k) = false).
Proof.
  intros HR Hc Hi Hf Hd Ho Hn bs. pose proof (fo_size _ _ _ Hf) as Hsz. change (MAXFILE * BSIZE) with 274432 in Hsz.
  assert (HB : BSIZE = 1024) by done. unfold readi. rewrite (bind_ok _ _ _ _ _ (geti_run ip i s e Hi)).
  assert (Ht : (off >? i_size i) || (u32 (off + n) <? off) = bool_decide (i_size i < off \/ 2 ^ 32 <= off + n)).
  { rewrite Z.gtb_ltb. destruct (Z.ltb_spec (i_size i) off); simpl; [by rewrite bool_decide_eq_true_2 by lia|].
    unfold u32. destruct (decide (2 ^ 32 <= off + n)).
    - rewrite bool_decide_eq_true_2 by lia. apply Z.ltb_lt. rewrite <- (Z.mod_unique _ _ 1 (off + n - 2 ^ 32)); lia.
    - rewrite bool_decide_eq_false_2 by lia. rewrite Z.mod_small by lia. apply Z.ltb_ge. lia. }
  rewrite Ht. unfold bs, read_len. case_bool_decide as Hcase.
  { exists 0, s, 0%nat, []. split_and!; try done; [apply fstep_cstep, cstep_refl, Hc|by apply delivered_mem|lia|].
    left. by destruct dst. }
  set (n' := Z.min n (i_size i - off)). replace (if off + n >? i_size i then i_size i - off else n) with n'
    by (rewrite Z.gtb_ltb; destruct (Z.ltb_spec (i_size i) (off + n)); lia).
  destruct (readi_loop_run (pid := pid) (d := d) HR p root dm l ip i Hf dst n' (S (S (S (Z.to_nat (n' / BSIZE))))) e s off 0 []) as
    (r & s' & k & got & E & St & Hc' & Hw & Hacc & Hr); [done|done| |lia|lia|lia|lia| |].
  { destruct dst; [|done]. destruct Hd as (? & ? & ?). split_and!; try lia; naive_solver. }
  { intros _. pose proof (Z.mod_pos_bound off BSIZE ltac:(lia)). pose proof (Z.div_pos n' BSIZE ltac:(lia) ltac:(lia)).
    apply Z.div_lt_upper_bound; [lia|]. pose proof (Z.div_mod n' BSIZE ltac:(lia)). pose proof (Z.mod_pos_bound n' BSIZE ltac:(lia)). lia. }
  rewrite Z.sub_0_r in *. rewrite (bind_ok _ _ _ _ _ E). exists (i32 r), s', k, got. rewrite length_file_bytes.
  split_and!; try done. destruct Hr as [(-> & -> & ->)|(-> & H1 & H2)]; [left|right]; split_and!; try done.
  unfold i32. apply sext_small; lia.
Qed.

(** Reading into a kernel buffer. *)
Lemma readi_kernel {pid V R O d} ip i off n s e :
  spare R -> cst s pid V R O d -> k_itable s !! ip = Some i -> file_ok V O i -> 0 <= off -> 0 <= n -> off + n <= i_size i ->
  exists s', readi ip DKern off n (mkW s e) = Ok (n, file_bytes V i off n) (mkW s' e) /\ fstep s s' /\ cst s' pid V R O d.
Proof.
  intros HR Hc Hi Hf Ho Hn Hsz. pose proof (fo_size _ _ _ Hf) as Hmx. change (MAXFILE * BSIZE) with 274432 in Hmx.
  destruct (readi_run pid V R O d 0%nat 0 ∅ [] ip i DKern off n s e) as (r & s' & k & got & E & St & Hc' & _ & _ & Hr);
    [done|done|done|done|done|lia|lia|].
  assert (El : read_len i off n = n) by (unfold read_len; rewrite bool_decide_eq_false_2 by lia; lia).
  rewrite El in Hr. exists s'. destruct Hr as [(-> & _ & ->)|(_ & _ & H)]; done.
Qed.

(** * Directories *)

(** The entries of a directory, and the first in use with a given name. *)
Definition dir_entries (V : Z -> block) (i : inode) : list (list Z) :=
  (fun k => file_bytes V i (sizeof_dirent * Z.of_nat k) sizeof_dirent) <$> seq 0 (Z.to_nat (i_size i / sizeof_dirent)).
Definition entry_of (name de : list Z) : Prop := de_inum de <> 0 /\ namecmp name (de_name de) = 0.
#[export] Instance entry_of_dec name de : Decision (entry_of name de).
Proof. unfold entry_of. apply _. Defined.

Section dirlookup.
Context {pid : Z} {V : Z -> block} {R : Z -> Z} {O : Z -> option Z} {d : disk} (HR : spare R).
Context (dp : nat) (i : inode) (Hf : file_ok V O i) (name : list Z).
Context (Hmul : i_size i mod sizeof_dirent = 0).

(** What dirlookup does with what it finds. *)
Definition dir_result (found : option (nat * list Z)) : K (option (nat * Z)) :=
  match found with
  | Some (k, de) => ip ← iget (i_dev i) (de_inum de); mret (Some (ip, sizeof_dirent * Z.of_nat k))
  | None => mret None
  end.

Lemma dirlookup_loop_run m : forall k fuel e s,
  cst s pid V R O d -> k_itable s !! dp = Some i -> (k + m)%nat = Z.to_nat (i_size i / sizeof_dirent) -> (m < fuel)%nat ->
  exists s', fstep s s' /\ cst s' pid V R O d /\
    dirlookup_loop fuel dp name (sizeof_dirent * Z.of_nat k) (mkW s e) =
      dir_result (prod_map (Nat.add k) id <$> list_find (entry_of name) (drop k (dir_entries V i))) (mkW s' e).
Proof using HR Hf Hmul.
  assert (HD : sizeof_dirent = 16) by done. pose proof (fo_size _ _ _ Hf) as Hmx. change (MAXFILE * BSIZE) with 274432 in Hmx.
  pose proof (Z.div_mod (i_size i) sizeof_dirent ltac:(lia)) as Hdm.
  induction m as [|m IH]; intros k fuel e s Hc Hi Hk Hfu; (destruct fuel as [|fuel]; [lia|]); cbn [dirlookup_loop];
    rewrite (bind_ok _ _ _ _ _ (geti_run dp i s e Hi)).
  - rewrite (proj2 (Z.ltb_ge _ _)) by lia. exists s. split_and!; [apply fstep_cstep, cstep_refl, Hc|done|].
    by rewrite drop_ge by (unfold dir_entries; rewrite length_fmap, length_seq; lia).
  - rewrite (proj2 (Z.ltb_lt _ _)) by lia.
    destruct (readi_kernel dp i (sizeof_dirent * Z.of_nat k) sizeof_dirent s e HR Hc Hi Hf) as (s1 & E1 & St1 & Hc1); [lia|lia|lia|].
    rewrite (bind_ok _ _ _ _ _ E1). rewrite Z.eqb_refl. cbn [negb]. rewrite bind_when_false.
    set (de := file_bytes V i (sizeof_dirent * Z.of_nat k) sizeof_dirent).
    assert (Edrop : drop k (dir_entries V i) = de :: drop (S k) (dir_entries V i)).
    { apply drop_S. unfold dir_entries. rewrite list_lookup_fmap, lookup_seq_lt by lia. done. }
    assert (Hi1 : k_itable s1 !! dp = Some i) by (destruct St1 as [_ ->]; done).
    destruct (IH (S k) fuel e s1 Hc1 Hi1 ltac:(lia) ltac:(lia)) as (s2 & St2 & Hc2 & E2).
    assert (Eoff : u32 (sizeof_dirent * Z.of_nat k + sizeof_dirent) = sizeof_dirent * Z.of_nat (S k))
      by (unfold u32; rewrite Z.mod_small; lia).
    rewrite Eoff, Edrop. cbn [list_find]. destruct (decide (entry_of name de)) as [[H1 H2]|Hno].
    + exists s1. split_and!; [done|done|]. rewrite (proj2 (Z.eqb_neq _ 0) H1), H2, Z.eqb_refl. cbn. by rewrite Nat.add_0_r.
    + exists s2. split_and!; [by eapply fstep_trans|done|]. unfold entry_of in Hno.
      destruct (Z.eqb_spec (de_inum de) 0) as [|H1]; [|rewrite (proj2 (Z.eqb_neq (namecmp _ _) 0)) by tauto];
        rewrite E2; f_equal; destruct (list_find _ _) as [[q x]|]; simpl; try done; by rewrite Nat.add_succ_r.
Qed.
End dirlookup.

(** * Inodes on disk *)

Lemma put_words_spec l : forall o bs,
  (o + 4 * length l <= length bs)%nat ->
  length (put_words o l bs) = length bs /\
  (forall j a, l !! j = Some a -> get 4 (o + 4 * j) (put_words o l bs) = u32 a) /\
  (forall j, (j < o \/ o + 4 * length l <= j)%nat -> put_words o l bs !! j = bs !! j).
Proof.
  induction l as [|a l IH]; intros o bs Hl; cbn [put_words length] in *; [done|].
  destruct (IH (o + 4)%nat (put 4 o a bs)) as (IH1 & IH2 & IH3); [rewrite length_put by lia; lia|].
  assert (Hout : forall j, (j < o \/ o + 4 <= j)%nat -> put 4 o a bs !! j = bs !! j)
    by (intros j Hj; apply lookup_splice_out; rewrite length_enc; lia).
  split_and!.
  - by rewrite IH1, length_put by lia.
  - intros [|j] b Hj.
    + injection Hj as <-. rewrite Nat.mul_0_r, Nat.add_0_r. change (u32 a) with (a mod 2 ^ (8 * Z.of_nat 4)).
      rewrite <- (get_put 4 o a bs) by lia. apply get_ext. intros t Ht. apply IH3. lia.
    + rewrite <- (IH2 j b Hj). f_equal. lia.
  - intros j Hj. rewrite IH3 by lia. apply Hout. lia.
Qed.

(** An inode whose fields are in the range of their types. *)
Record inode_wf (i : inode) : Prop := {
  iw_type : - 2 ^ 15 <= i_type i < 2 ^ 15;
  iw_major : - 2 ^ 15 <= i_major i < 2 ^ 15;
  iw_minor : - 2 ^ 15 <= i_minor i < 2 ^ 15;
  iw_nlink : - 2 ^ 15 <= i_nlink i < 2 ^ 15;
  iw_size : 0 <= i_size i < 2 ^ 32;
  iw_len : length (i_addrs i) = 13%nat;
  iw_addrs : Forall (fun a => 0 <= a < 2 ^ 32) (i_addrs i);
}.

Lemma i16_u16 z : - 2 ^ 15 <= z < 2 ^ 15 -> i16 (z mod 2 ^ (8 * Z.of_nat 2)) = z.
Proof.
  intros H. rewrite <- (sext_small 16 z) at 2 by lia. unfold i16, sext. change (8 * Z.of_nat 2) with 16. by rewrite Z.mod_mod.
Qed.

(** What ilock reads from a dinode. *)
Definition di_load (o : nat) (bs : block) (x : inode) : inode :=
  x <| i_type := di_type o bs |> <| i_major := di_major o bs |> <| i_minor := di_minor o bs |>
    <| i_nlink := di_nlink o bs |> <| i_size := di_size o bs |> <| i_addrs := di_addrs o bs |>.

Lemma put_spec n off v bs :
  (off + n <= length bs)%nat ->
  length (put n off v bs) = length bs /\ get n off (put n off v bs) = v mod 2 ^ (8 * Z.of_nat n) /\
  (forall n' off', (off' + n' <= off \/ off + n <= off')%nat -> get n' off' (put n off v bs) = get n' off' bs) /\
  (forall j, (j < off \/ off + n <= j)%nat -> put n off v bs !! j = bs !! j).
Proof.
  intros H. split_and!; [by apply length_put|by apply get_put|intros; by apply get_put_ne|].
  intros j Hj. apply lookup_splice_out; rewrite length_enc; lia.
Qed.

(** The words of a dinode, and the rest of the block. *)
Lemma di_store_spec o i bs :
  length (i_addrs i) = 13%nat -> (o + 64 <= length bs)%nat ->
  let bs' := di_store o i bs in
  length bs' = length bs /\ (forall j, (j < o \/ o + 64 <= j)%nat -> bs' !! j = bs !! j) /\
  get 2 o bs' = i_type i mod 2 ^ 16 /\ get 2 (o + 2) bs' = i_major i mod 2 ^ 16 /\
  get 2 (o + 4) bs' = i_minor i mod 2 ^ 16 /\ get 2 (o + 6) bs' = i_nlink i mod 2 ^ 16 /\
  get 4 (o + 8) bs' = i_size i mod 2 ^ 32 /\
  forall j a, i_addrs i !! j = Some a -> get 4 (o + 12 + 4 * j) bs' = u32 a.
Proof.
  intros Hl Ho bs'. unfold bs', di_store. clear bs'.
  destruct (put_spec 2 o (i_type i) bs) as (L1 & G1 & N1 & O1); [lia|]. set (b1 := put 2 o _ bs) in *.
  destruct (put_spec 2 (o + 2) (i_major i) b1) as (L2 & G2 & N2 & O2); [lia|]. set (b2 := put 2 (o + 2) _ b1) in *.
  destruct (put_spec 2 (o + 4) (i_minor i) b2) as (L3 & G3 & N3 & O3); [lia|]. set (b3 := put 2 (o + 4) _ b2) in *.
  destruct (put_spec 2 (o + 6) (i_nlink i) b3) as (L4 & G4 & N4 & O4); [lia|]. set (b4 := put 2 (o + 6) _ b3) in *.
  destruct (put_spec 4 (o + 8) (i_size i) b4) as (L5 & G5 & N5 & O5); [lia|]. set (b5 := put 4 (o + 8) _ b4) in *.
  destruct (put_words_spec (i_addrs i) (o + 12) b5) as (L6 & G6 & O6); [lia|].
  assert (W : forall n' off', (off' + n' <= o + 12)%nat -> get n' off' (put_words (o + 12) (i_addrs i) b5) = get n' off' b5)
    by (intros n' off' H; apply get_ext; intros t Ht; apply O6; lia).
  split_and!; [lia| | | | | | |done].
  - intros j Hj. rewrite O6, O5, O4, O3, O2, O1 by lia. done.
  - rewrite W, N5, N4, N3, N2 by lia. exact G1.
  - rewrite W, N5, N4, N3 by lia. exact G2.
  - rewrite W, N5, N4 by lia. exact G3.
  - rewrite W, N5 by lia. exact G4.
  - rewrite W by lia. exact G5.
Qed.

(** * Paths *)

(** The elements of a path: the string up to its NUL, split at the slashes, the
    empty parts dropped, the first DIRSIZ characters of each. *)
Fixpoint until0 (l : list Z) : list Z :=
  match l with [] => [] | c :: l' => if c =? 0 then [] else c :: until0 l' end.
Fixpoint split_path (l : list Z) : list (list Z) :=
  match l with
  | [] => [[]]
  | c :: l' => if c =? 47 then [] :: split_path l'
               else match split_path l' with w :: ws => (c :: w) :: ws | [] => [[c]] end
  end.
Definition path_elems (path : list Z) : list (list Z) :=
  take (Z.to_nat DIRSIZ) <$> filter (.≠ []) (split_path (until0 path)).

Lemma elems_slash p : path_elems (47 :: p) = path_elems p.
Proof. done. Qed.

Lemma elems_skip p : path_elems (skip_slashes p) = path_elems p.
Proof.
  induction p as [|c p IH]; [done|]. cbn [skip_slashes]. destruct (Z.eqb_spec c 47) as [->|]; [|done].
  by rewrite elems_slash.
Qed.

Lemma skip_slashes_head p : chr (skip_slashes p) <> 47.
Proof.
  induction p as [|c p IH]; [done|]. cbn [skip_slashes]. destruct (Z.eqb_spec c 47); [done|]. done.
Qed.

Lemma skip_slashes_length p : (length (skip_slashes p) <= length p)%nat.
Proof. induction p as [|c p IH]; [done|]. cbn [skip_slashes]. destruct (c =? 47); simpl; lia. Qed.

Lemma elems_end p : chr p = 0 -> path_elems p = [].
Proof. destruct p as [|c p]; [done|]. cbn [chr hd]. by intros ->. Qed.

(** The characters before the next slash or the end. *)
Lemma span_name_spec p :
  let '(n, r) := span_name p in
  p = n ++ r /\ Forall (fun c => c <> 47 /\ c <> 0) n /\ (chr r = 47 \/ chr r = 0).
Proof.
  induction p as [|c p IH]; cbn [span_name]; [by split_and!; [|constructor|right]|].
  destruct (Z.eqb_spec c 47) as [->|H1]; [by split_and!; [|constructor|left]|].
  destruct (Z.eqb_spec c 0) as [->|H2]; [by split_and!; [|constructor|right]|]. cbn [orb].
  destruct (span_name p) as [n r]. destruct IH as (-> & Hn & Hr). split_and!; [done|by constructor|done].
Qed.

Lemma elems_name n r :
  Forall (fun c => c <> 47 /\ c <> 0) n -> n <> [] -> chr r = 47 \/ chr r = 0 ->
  path_elems (n ++ r) = take (Z.to_nat DIRSIZ) n :: path_elems r.
Proof.
  intros Hn Hne Hr.
  assert (Hu : until0 (n ++ r) = n ++ until0 r).
  { clear -Hn. induction Hn as [|c n [_ Hc] _ IH]; [done|]. simpl. rewrite (proj2 (Z.eqb_neq c 0) Hc). by rewrite IH. }
  assert (Hs : exists ws, split_path (until0 r) = [] :: ws).
  { destruct r as [|c r]; [by eexists|]. cbn [chr hd] in Hr. destruct Hr as [-> | ->]; by eexists. }
  destruct Hs as (ws & Hs).
  assert (Hsp : split_path (n ++ until0 r) = n :: ws).
  { clear -Hn Hs. induction Hn as [|c n [Hc _] _ IH]; [done|]. simpl. rewrite (proj2 (Z.eqb_neq c 47) Hc). by rewrite IH. }
  unfold path_elems. rewrite Hu, Hsp, Hs. rewrite filter_cons_True by done. by rewrite (filter_cons_False _ []) by naive_solver.
Qed.

(** * Properties *)

(** C6: readi gives a program the contents of the file.  For an inode whose blocks
    are there, it returns the number of bytes between the offset and the end of
    the file, at most [n], and the bytes it puts in the kernel buffer or in the
    user's memory are the file's, found through the direct addresses and the
    indirect block; if the user may not write the whole range it returns -1, and
    the bytes before the first such page are written.  The file, all other
    blocks, all other memory and the references to buffers are as before. *)
Theorem readi_exact pid V R O d p root dm l ip i dst off n s e :
  spare R -> cst s pid V R O d -> k_itable s !! ip = Some i -> file_ok V O i -> dest_ok p root dm l dst n s ->
  0 <= off < 2 ^ 32 -> 0 <= n < 2 ^ 32 ->
  let bs := file_bytes V i off (read_len i off n) in
  exists r s' k got, readi ip dst off n (mkW s e) = Ok (r, got) (mkW s' e) /\
    fstep s s' /\ cst s' pid V R O d /\ delivered dm dst s s' 0 (take k bs) /\
    (forall j, (j < k)%nat -> accepts dm dst s (Z.of_nat j) = true) /\
    (r = read_len i off n /\ k = length bs /\ got = returned dst bs \/
     r = -1 /\ (k < length bs)%nat /\ accepts dm dst s (Z.of_nat k) = false).
Proof. intros. by apply (readi_run pid V R O d p root dm l). Qed.

(** A directory with the entries "." and "ab", in block 50. *)
Definition demo_dir_block : block :=
  enc 2 1 ++ [46] ++ replicate 13 0 ++ enc 2 7 ++ [97; 98] ++ replicate 12 0 ++ replicate 992 0.
Definition demo_dir_inode : inode :=
  zero_inode <| i_dev := ROOTDEV |> <| i_inum := 1 |> <| i_ref := 1 |> <| i_type := T_DIR |> <| i_size := 32 |>
    <| i_addrs := 50 :: replicate 12 0 |>.
Definition demo_fs : kst :=
  demo_cache <| k_disk := {[50 := demo_dir_block]} |> <| k_itable ::= <[0%nat := demo_dir_inode]> |>.

Lemma demo_fs_uncached bn i b : ~ buf_of demo_fs bn i b.
Proof. intros (_ & Hb & Hd & _). rewrite (boot_lookup zero_block i b Hb) in Hd. done. Qed.

Lemma demo_fs_cst : cst demo_fs 0 (view demo_fs) (refs demo_fs) (owner demo_fs) {[50 := demo_dir_block]}.
Proof.
  split; try done.
  - by apply (boot_inv demo_fs zero_block).
  - split; try (intros; apply not_elem_of_nil); try reflexivity. intros i Hi. by apply elem_of_nil in Hi.
Qed.

Lemma demo_fs_spare : spare (refs demo_fs).
Proof.
  exists ∅. split; [|apply Nat.ltb_lt; reflexivity]. intros x Hx. exfalso. apply Hx, refs_uncached. apply demo_fs_uncached.
Qed.

Lemma demo_fs_file : file_ok (view demo_fs) (owner demo_fs) demo_dir_inode.
Proof.
  assert (Hv : forall x, view demo_fs x = dread {[50 := demo_dir_block]} x) by (intros x; apply view_uncached, demo_fs_uncached).
  split; try done.
  - intros bn H0 H1. simpl in H1. unfold BSIZE in H1. assert (bn = 0) as -> by lia.
    split; [done|]. apply owner_uncached, demo_fs_uncached.
  - intros x. rewrite Hv. unfold dread. destruct (decide (x = 50)) as [->|]; [by rewrite lookup_singleton_eq|].
    by rewrite lookup_singleton_ne by done.
Qed.

Lemma readi_exact_witness :
  exists s', readi 0 DKern 16 100 (mkW demo_fs []) = Ok (16, [7; 0; 97; 98] ++ replicate 12 0) (mkW s' []).
Proof.
  destruct (readi_exact 0 _ _ _ _ 0%nat 0 ∅ [] 0%nat demo_dir_inode DKern 16 100 demo_fs [] demo_fs_spare demo_fs_cst
    eq_refl demo_fs_file I) as (r & s' & k & got & E & _ & _ & _ & _ & Hr);
    [split; [by apply Z.leb_le|reflexivity]|split; [by apply Z.leb_le|reflexivity]|].
  exists s'. destruct Hr as [(-> & _ & ->)|(_ & _ & H)]; [|discriminate H].
  rewrite E. apply f_equal2; [vm_compute; reflexivity|reflexivity].
Defined.


Lemma iget_run dev inum s e :
  LItable ∉ k_held s ->
  iget dev inum (mkW s e) =
    match iget_scan (k_itable s) 0 dev inum None with
    | inl ip => Ok ip (mkW (s <| k_itable ::= alter (fun x => x <| i_ref ::= Z.succ |>) ip |>) e)
    | inr None => Panic "iget: no inodes"
    | inr (Some ip) => Ok ip (mkW (s <| k_itable ::= alter (fun x =>
        x <| i_dev := dev |> <| i_inum := inum |> <| i_ref := 1 |> <| i_valid := 0 |>) ip |>) e)
    end.
Proof.
  intros Hh. unfold iget, seti. rewrite bind_acquire by done. rewrite bind_gets. cbn [wk wenv].
  change (k_itable (s <| k_held ::= cons LItable |>)) with (k_itable s).
  destruct (iget_scan (k_itable s) 0 dev inum None) as [ip|[ip|]]; [| |done];
    rewrite !bind_modify, bind_release by (simpl; set_solver); kret; rewrite ?filter_cons_self by done; try done.
  by rewrite !alter_alter.
Qed.


(** skipelem splits paths as the documentation says.  The elements of a path
    are the parts of the string between slashes that are not empty, cut to DIRSIZ
    characters; skipelem returns 0 exactly when there are none, and otherwise the
    first with a shorter path that has the others, which is at its end exactly
    when there are none.  So the loop of namex visits the elements in order and
    ends, and stops at the parent of the last one. *)
Theorem skipelem_elems path :
  match skipelem path with
  | None => path_elems path = []
  | Some (rest, name) =>
      path_elems path = name :: path_elems rest /\ (chr rest = 0 <-> path_elems rest = []) /\
      (length rest < length path)%nat
  end.
Proof.
  assert (Hchr : forall r, chr (skip_slashes r) <> 0 ->
    exists n q, skip_slashes r = n ++ q /\ span_name (skip_slashes r) = (n, q) /\ n <> [] /\
      path_elems r = take (Z.to_nat DIRSIZ) n :: path_elems q).
  { intros r Hr. pose proof (span_name_spec (skip_slashes r)) as H. pose proof (skip_slashes_head r) as H47.
    destruct (span_name (skip_slashes r)) as [n q]. destruct H as (E & Hn & Hq).
    assert (n <> []) by (intros ->; simpl in E; rewrite E in Hr, H47; naive_solver).
    exists n, q. split_and!; try done. by rewrite <- elems_skip, E, elems_name. }
  unfold skipelem. destruct (Z.eqb_spec (chr (skip_slashes path)) 0) as [E0|Hne].
  { by rewrite <- elems_skip, elems_end. }
  destruct (Hchr path Hne) as (n & q & E & -> & Hn & Hel). rewrite Hel. split_and!.
  - rewrite elems_skip. f_equal. destruct (Z.of_nat (length n) >=? DIRSIZ) eqn:Eg; [done|].
    apply take_ge. rewrite Z.geb_leb in Eg. apply Z.leb_gt in Eg. lia.
  - split; [by apply elems_end|]. rewrite elems_skip. intros Hq. destruct (decide (chr (skip_slashes q) = 0)) as [|Hc]; [done|].
    destruct (Hchr q Hc) as (n' & q' & _ & _ & _ & Hel'). by rewrite Hel' in Hq.
  - pose proof (skip_slashes_length path) as L1. pose proof (skip_slashes_length q) as L2. rewrite E, length_app in L1.
    destruct n; [done|]. simpl in L1. lia.
Qed.

(** An inode survives the trip to disk: what ilock loads from a block after
    iupdate has stored the inode at its place is the inode's type, device
    numbers, link count, size and addresses, and the other dinodes of the block
    are untouched. *)
Theorem dinode_roundtrip inum i x bs :
  inode_wf i -> length bs = Z.to_nat BSIZE ->
  di_load (dip inum) (di_store (dip inum) i bs) x =
    x <| i_type := i_type i |> <| i_major := i_major i |> <| i_minor := i_minor i |> <| i_nlink := i_nlink i |>
      <| i_size := i_size i |> <| i_addrs := i_addrs i |> /\
  forall inum', inum' mod IPB <> inum mod IPB ->
    di_load (dip inum') (di_store (dip inum) i bs) x = di_load (dip inum') bs x.
Proof.
  intros [] Hl. assert (HI : IPB = 16) by done. change (Z.to_nat BSIZE) with 1024%nat in Hl.
  assert (Hb : forall k, (dip k + 64 <= 1024)%nat) by (intros k; unfold dip; pose proof (Z.mod_pos_bound k IPB ltac:(lia)); lia).
  destruct (di_store_spec (dip inum) i bs) as (_ & Hout & G1 & G2 & G3 & G4 & G5 & G6); [done|rewrite Hl; apply Hb|].
  split.
  - assert (Ha : di_addrs (dip inum) (di_store (dip inum) i bs) = i_addrs i).
    { apply list_eq. intros j. unfold di_addrs. rewrite list_lookup_fmap. destruct (i_addrs i !! j) as [a|] eqn:Ea.
      - pose proof (lookup_lt_Some _ _ _ Ea) as Hj. rewrite lookup_seq_lt by lia. simpl. unfold di_addr. rewrite (G6 j a Ea).
        f_equal. apply Z.mod_small. by apply (Forall_lookup_1 _ _ _ _ iw_addrs0 Ea).
      - apply lookup_ge_None in Ea. by rewrite lookup_seq_ge by lia. }
    unfold di_load. rewrite Ha. unfold di_type, di_major, di_minor, di_nlink, di_size.
    by rewrite G1, G2, G3, G4, G5, !i16_u16, Z.mod_small by done.
  - intros inum' Hne. assert (Hd : (dip inum' + 64 <= dip inum \/ dip inum + 64 <= dip inum')%nat)
      by (unfold dip; pose proof (Z.mod_pos_bound inum IPB ltac:(lia)); pose proof (Z.mod_pos_bound inum' IPB ltac:(lia)); lia).
    assert (Hg : forall n off, (dip inum' <= off /\ off + n <= dip inum' + 64)%nat ->
      get n off (di_store (dip inum) i bs) = get n off bs) by (intros n off Ho; apply get_ext; intros t Ht; apply Hout; lia).
    assert (Ha : di_addrs (dip inum') (di_store (dip inum) i bs) = di_addrs (dip inum') bs).
    { unfold di_addrs. apply list_fmap_ext. intros j k Hj. apply lookup_seq in Hj as [-> Hj]. unfold di_addr. apply Hg. lia. }
    unfold di_load. rewrite Ha. unfold di_type, di_major, di_minor, di_nlink, di_size. by rewrite !Hg by lia.
Qed.

Lemma dinode_roundtrip_witness :
  di_load (dip 5) (di_store (dip 5) demo_dir_inode zero_block) zero_inode =
    zero_inode <| i_type := 1 |> <| i_size := 32 |> <| i_addrs := 50 :: replicate 12 0 |>.
Proof.
  refine (proj1 (dinode_roundtrip 5 demo_dir_inode zero_inode zero_block _ eq_refl)).
  split; try reflexivity; try (split; [by apply Z.leb_le|reflexivity]).
  repeat (constructor; [split; [by apply Z.leb_le|reflexivity]|]). constructor.
Defined.
