(* ===== verification/PipeSpec.v ===== *)
(** A pipe is a queue of at most 512 bytes: the abstract view of struct pipe, and
    what pipewrite and piperead do to it. *)

From S2P Require Import Prelude Ring Riscv Memory CString State Kalloc Vm PageTable AddrSpace UserMem CopyUser VmProps Sched UserIO Pipe.

(** * The queue in the buffer *)

Definition pcount (p : pipe) : Z := dist 32 (pi_nread p) (pi_nwrite p).
Definition contents (p : pipe) : list Z := ring PIPESIZE (pi_data p) (pi_nread p) (Z.to_nat (pcount p)).

Record pipe_ok (p : pipe) : Prop := {
  po_len : length (pi_data p) = Z.to_nat PIPESIZE;
  po_r : 0 <= pi_nread p < 2 ^ 32;
  po_w : 0 <= pi_nwrite p < 2 ^ 32;
  po_count : pcount p <= PIPESIZE;
}.

Definition push (c : Z) (p : pipe) : pipe :=
  p <| pi_data ::= <[Z.to_nat (pi_nwrite p mod PIPESIZE) := c]> |> <| pi_nwrite ::= (fun w => u32 (w + 1)) |>.
Definition pop (p : pipe) : pipe := p <| pi_nread ::= (fun r => u32 (r + 1)) |>.

Lemma pcount_nonneg p : 0 <= pcount p.
Proof. by apply dist_range. Qed.

Lemma length_contents p : length (contents p) = Z.to_nat (pcount p).
Proof. apply length_ring. Qed.

Lemma size_divides : (PIPESIZE | 2 ^ 32).
Proof. by exists (2 ^ 23). Qed.

(** The tests of the code. *)
Lemma empty_test p : pipe_ok p -> (pi_nread p =? pi_nwrite p) = bool_decide (contents p = []).
Proof.
  intros [_ Hr Hw _]. pose proof (dist_zero 32 ltac:(lia) _ _ Hr Hw) as Hz. fold (pcount p) in Hz.
  pose proof (pcount_nonneg p). destruct (Z.eqb_spec (pi_nread p) (pi_nwrite p)) as [E|E]; case_bool_decide as Hd; try done.
  - exfalso. apply Hd, nil_length_inv. rewrite length_contents, (proj2 Hz E). done.
  - exfalso. apply E, Hz. apply (f_equal length) in Hd. rewrite length_contents in Hd. simpl in Hd. lia.
Qed.

Lemma full_test p : pipe_ok p ->
  (pi_nwrite p =? u32 (pi_nread p + PIPESIZE)) = bool_decide (length (contents p) = Z.to_nat PIPESIZE).
Proof.
  intros [_ _ Hw _]. pose proof (dist_eq 32 ltac:(lia) (pi_nread p) _ PIPESIZE Hw ltac:(done)) as He.
  fold (pcount p) in He. pose proof (pcount_nonneg p). rewrite length_contents. unfold u32.
  assert (HP : PIPESIZE = 512) by done.
  destruct (Z.eqb_spec (pi_nwrite p) ((pi_nread p + PIPESIZE) mod 2 ^ 32)) as [E|E]; case_bool_decide as Hd; try done.
  - apply He in E. lia.
  - exfalso. apply E, He. lia.
Qed.

Lemma push_count c p : pcount p < PIPESIZE -> pcount (push c p) = pcount p + 1.
Proof.
  intros H. pose proof (pcount_nonneg p). apply (dist_hi 32 ltac:(lia) (pi_nread p) (pi_nwrite p) 1).
  fold (pcount p). unfold PIPESIZE in H. lia.
Qed.

Lemma pop_count p : 0 < pcount p -> pcount (pop p) = pcount p - 1.
Proof.
  intros H. apply (dist_lo 32 ltac:(lia) (pi_nread p) (pi_nwrite p) 1). pose proof (dist_range 32 ltac:(lia) (pi_nread p) (pi_nwrite p)).
  fold (pcount p) in *. lia.
Qed.

Lemma push_ok c p : pipe_ok p -> pcount p < PIPESIZE -> pipe_ok (push c p).
Proof.
  intros H Hlt. split; simpl; [by rewrite length_insert; apply H|apply H|apply u32_range|].
  rewrite push_count by done. lia.
Qed.

Lemma pop_ok p : pipe_ok p -> 0 < pcount p -> pipe_ok (pop p).
Proof.
  intros H Hlt. split; simpl; [apply H|apply u32_range|apply H|]. rewrite pop_count by done.
  pose proof (po_count p H). lia.
Qed.

Lemma contents_push c p : pipe_ok p -> pcount p < PIPESIZE -> contents (push c p) = contents p ++ [c].
Proof.
  intros H Hlt. pose proof (pcount_nonneg p) as Hn. unfold contents. rewrite push_count by done.
  replace (Z.to_nat (pcount p + 1)) with (S (Z.to_nat (pcount p))) by lia. simpl.
  replace (Z.to_nat (pi_nwrite p mod PIPESIZE)) with (slot PIPESIZE (pi_nread p + Z.of_nat (Z.to_nat (pcount p)))).
  - apply ring_snoc; [done|apply H|lia].
  - rewrite Z2Nat.id by done. unfold slot. f_equal. symmetry. by apply (dist_mod 32), size_divides.
Qed.

Lemma contents_pop p : 0 < pcount p ->
  contents p = default 0 (pi_data p !! Z.to_nat (pi_nread p mod PIPESIZE)) :: contents (pop p).
Proof.
  intros H. unfold contents. rewrite pop_count by done.
  replace (Z.to_nat (pcount p)) with (S (Z.to_nat (pcount p - 1))) by lia. rewrite ring_cons. f_equal.
  apply ring_congr; [done|]. simpl. symmetry. apply slot_wrap; [done|apply size_divides|lia].
Qed.

(** * Writing *)

Lemma alter_as_insert {A} (f : A -> A) (k : Z) (m : gmap Z A) x :
  m !! k = Some x -> alter f k m = <[k := f x]> m.
Proof.
  intros H. apply map_eq. intros j. destruct (decide (k = j)) as [<-|].
  - by rewrite lookup_alter_eq, lookup_insert_eq, H.
  - by rewrite lookup_alter_ne, lookup_insert_ne.
Qed.

Lemma killed_run i s e q :
  LProc i ∉ k_held s -> k_procs s !! i = Some q -> killed i (mkW s e) = Ok (p_killed q) (mkW s e).
Proof.
  intros Hh Hq. unfold killed, getp. krun. simpl. rewrite Hq. cbn [the].
  krun. simpl. kret. by rewrite filter_cons_self.
Qed.

(** Replacing the pipe at [pa]. *)
Definition with_pipe (pa : Z) (p : pipe) (s : kst) : kst := s <| k_pipes ::= <[pa := p]> |>.

Section write.
Context (pa : Z) (pr : nat) (root : Z) (d : dirmap) (addr : Z) (bs : list Z).
Context (Haddr : 0 <= addr) (Htop : addr + Z.of_nat (length bs) <= 2 ^ 64).

(** The writing process can read the bytes it writes. *)
Record writer_mem (s : kst) : Prop := {
  wm_vm : exists l, vm_inv s root d l;
  wm_src : forall j b, bs !! j = Some b -> uread s d (addr + Z.of_nat j) = Some b;
  wm_proc : exists q, k_procs s !! pr = Some q /\ p_pagetable q = root;
  wm_table : table_ok s;
}.

Lemma writer_mem_same s s' :
  same_mem s s' -> (exists q, k_procs s' !! pr = Some q /\ p_pagetable q = root) -> table_ok s' ->
  writer_mem s -> writer_mem s'.
Proof.
  intros Hs Hq Ht [[l V] Hu _ _]. split; [exists l; by eapply vm_inv_same| |done|done].
  intros j b Hj. rewrite (uread_same s s') by done. by apply Hu.
Qed.

(** One round of the loop, with a byte left to write and the pipe known. *)
Lemma pipewrite_round fuel s env p q (i : nat) b :
  writer_mem s -> k_held s = [LPipe pa] -> k_pipes s !! pa = Some p -> pipe_ok p ->
  k_procs s !! pr = Some q -> bs !! i = Some b ->
  pipewrite_loop (S fuel) pa pr addr (Z.of_nat (length bs)) (Z.of_nat i) (mkW s env) =
    if (pi_readopen p =? 0) || negb (p_killed q =? 0) then Ok (-1) (mkW (s <| k_held := [] |>) env)
    else if bool_decide (length (contents p) = Z.to_nat PIPESIZE) then
      (wakeup (Some (ChPipeR pa));; sleep (ChPipeW pa) (LPipe pa);;
       pipewrite_loop fuel pa pr addr (Z.of_nat (length bs)) (Z.of_nat i)) (mkW s env)
    else pipewrite_loop fuel pa pr addr (Z.of_nat (length bs)) (Z.of_nat (S i)) (mkW (with_pipe pa (push b p) s) env).
Proof using Haddr Htop.
  intros Hm Hh Hp Hok Hq Hb. pose proof (lookup_lt_Some _ _ _ Hb) as Hi.
  cbn [pipewrite_loop]. rewrite (proj2 (Z.ltb_lt _ _)) by lia. unfold getpi. krun. simpl. rewrite Hp. cbn [the]. krun.
  assert (Hrel : release (LPipe pa) (mkW s env) = Ok tt (mkW (s <| k_held := [] |>) env)).
  { rewrite release_ok by (simpl; rewrite Hh; set_solver). kret. rewrite Hh. by rewrite filter_cons_False by naive_solver. }
  destruct (pi_readopen p =? 0) eqn:Er; cbn [orb].
  { krun. by rewrite (bind_ok _ _ _ _ _ Hrel). }
  krun. rewrite (bind_ok _ _ _ _ _ (killed_run pr s env q ltac:(rewrite Hh; set_solver) Hq)). krun.
  destruct (p_killed q =? 0) eqn:Ek; cbn [negb].
  2: { by rewrite (bind_ok _ _ _ _ _ Hrel). }
  krun. simpl. rewrite Hp. cbn [the]. krun. rewrite full_test by done.
  case_bool_decide as Hf; [done|]. unfold getp. krun. simpl. rewrite Hq. cbn [the]. krun.
  destruct (wm_proc s Hm) as (q' & Hq' & Hroot). assert (q' = q) as -> by congruence.
  destruct (wm_vm s Hm) as [l Hl]. rewrite Hroot, u64_small by lia.
  rewrite (bind_ok _ _ _ _ _ (copyin_byte s root d l env (addr + Z.of_nat i) b Hl ltac:(lia) (wm_src s Hm i b Hb))).
  cbn [Z.eqb]. unfold setpi. krun. replace (Z.of_nat i + 1) with (Z.of_nat (S i)) by lia.
  f_equal. f_equal. unfold with_pipe. kst_eq. by apply alter_as_insert.
Qed.

(** With room for all of them the bytes go in at once. *)
Lemma pipewrite_loop_room fuel : forall (i : nat) s env p q,
  (i <= length bs)%nat -> (length bs - i < fuel)%nat ->
  writer_mem s -> k_cur s = Some pr -> k_held s = [LPipe pa] -> k_pipes s !! pa = Some p -> pipe_ok p ->
  k_procs s !! pr = Some q -> p_killed q = 0 -> pi_readopen p <> 0 ->
  (length (contents p) + (length bs - i) <= Z.to_nat PIPESIZE)%nat ->
  exists p', pipewrite_loop fuel pa pr addr (Z.of_nat (length bs)) (Z.of_nat i) (mkW s env) =
      Ok (Z.of_nat (length bs))
        (mkW (with_pipe pa p' s <| k_held := [] |> <| k_procs ::= wake (Some (ChPipeR pa)) (Some pr) |>) env) /\
    pipe_ok p' /\ contents p' = contents p ++ drop i bs.
Proof using Haddr Htop.
  induction fuel as [|fuel IH]; intros i s env p q Hi Hf Hm Hc Hh Hp Hok Hq Hk Ho Hroom; [lia|].
  assert (Hpf : plocks_free s) by (intros x Hx; rewrite Hh in Hx; set_solver).
  assert (HP : PIPESIZE = 512) by done.
  destruct (bs !! i) as [b|] eqn:Hb.
  - pose proof (lookup_lt_Some _ _ _ Hb) as Hlt.
    rewrite (pipewrite_round fuel s env p q i b) by done.
    rewrite (proj2 (Z.eqb_neq _ _) Ho), Hk. cbn [Z.eqb negb orb]. rewrite bool_decide_eq_false_2 by lia.
    assert (Hcnt : pcount p < PIPESIZE) by (rewrite length_contents in Hroom; lia).
    destruct (IH (S i) (with_pipe pa (push b p) s) env (push b p) q) as (p' & E & Hok' & Ec); try done.
    + lia.
    + apply (writer_mem_same s); [split; try done; simpl; rewrite Hh; set_solver|by apply Hm..|done].
    + simpl. by rewrite lookup_insert_eq.
    + by apply push_ok.
    + rewrite contents_push, length_app by done. simpl. lia.
    + exists p'. split_and!; [|done|].
      * rewrite E. do 2 f_equal. unfold with_pipe. kst_eq. by rewrite insert_insert_eq.
      * rewrite Ec, contents_push by done. rewrite <- app_assoc. f_equal. by rewrite (drop_S bs b i Hb).
  - apply lookup_ge_None in Hb. assert (i = length bs) as -> by lia. exists p. split_and!; [|done|].
    + cbn [pipewrite_loop]. rewrite (proj2 (Z.ltb_ge _ _)) by lia.
      rewrite (bind_ok _ _ _ _ _ (wakeup_eq _ s env Hpf (wm_table s Hm))).
      rewrite bind_release by (simpl; rewrite Hh; set_solver). kret.
      * rewrite Hh. by rewrite filter_cons_False by naive_solver.
      * by rewrite Hc.
      * by rewrite insert_id.
    + by rewrite drop_all, app_nil_r.
Qed.

(** What the readers got so far is somewhere in the state, outside the pipe and what
    the scheduler changes: [got] tells it. *)
Context (got : kst -> list Z).
Context (Hgot : forall s s', s' = s <| k_pipes := k_pipes s' |> <| k_held := k_held s' |> <| k_cur := k_cur s' |>
  <| k_procs := k_procs s' |> -> got s' = got s).

(** Something the other threads may do: take bytes from the front of the pipe, each of
    which they then have got, and anything that leaves the writer's memory alone. *)
Record reads_only (f : kst -> kst) : Prop := {
  ro_mem : forall s, writer_mem s -> writer_mem (f s);
  ro_pipe : forall s p, k_pipes s !! pa = Some p -> pipe_ok p ->
    exists p', k_pipes (f s) !! pa = Some p' /\ pipe_ok p' /\ got (f s) ++ contents p' = got s ++ contents p;
}.

(** [Q] is what went into the pipe so far: what the readers got, then what is in it. *)
Definition stream (Q : list Z) (s : kst) : Prop :=
  writer_mem s /\ exists p, k_pipes s !! pa = Some p /\ pipe_ok p /\ got s ++ contents p = Q.

Lemma stream_same Q s s' :
  same_mem s s' -> (exists q, k_procs s' !! pr = Some q /\ p_pagetable q = root) -> table_ok s' ->
  k_pipes s' = k_pipes s -> got s' = got s -> stream Q s -> stream Q s'.
Proof. intros H1 H2 H3 E Eg [Hm Hp]. split; [by eapply writer_mem_same|by rewrite E, Eg]. Qed.

Lemma keeps_stream Q env : Forall reads_only env -> env_keeps (stream Q) env.
Proof.
  intros H. eapply Forall_impl; [exact H|]. intros f [Hm Hp] s [Hs (p & E & Hok & Hsuf)]. split; [by apply Hm|].
  destruct (Hp s p E Hok) as (p' & E' & Hok' & Hsuf'). exists p'. split_and!; [done|done|by rewrite Hsuf'].
Qed.

(** Changes to the lock context and to the writer's own entry in the process
    table, as the scheduler makes them. *)
Lemma stream_sched Q s h c (f : proc -> proc) :
  (forall q, p_pagetable (f q) = p_pagetable q) -> LKmem ∉ h -> stream Q s ->
  stream Q (s <| k_held := h |> <| k_cur := c |> <| k_procs ::= alter f pr |>).
Proof.
  intros Hf Hh Hs. pose proof Hs as [Hm _]. destruct (wm_proc s Hm) as (q & Hq & Hr).
  apply (stream_same Q s); [by split| | |done|apply Hgot; kst_eq|done]; simpl.
  - exists (f q). rewrite list_lookup_alter_eq, Hq. split; [done|by rewrite Hf].
  - unfold table_ok. simpl. rewrite length_alter. apply Hm.
Qed.

Lemma stream_wake Q s ch :
  LKmem ∉ k_held s -> stream Q s -> stream Q (s <| k_procs ::= wake ch (k_cur s) |>).
Proof.
  intros Hh Hs. pose proof Hs as [Hm _]. destruct (wm_proc s Hm) as (q & Hq & Hr).
  apply (stream_same Q s); [by split| | |done|apply Hgot; kst_eq|done]; simpl.
  - unfold wake. eexists. rewrite list_lookup_imap, Hq. split; [done|].
    case_bool_decide; [done|]. unfold wake1. by destruct (_ && _).
  - unfold table_ok, wake. simpl. rewrite length_imap. apply Hm.
Qed.

Lemma stream_push Q s p b :
  stream Q s -> k_pipes s !! pa = Some p -> pipe_ok p -> pcount p < PIPESIZE -> LKmem ∉ k_held s ->
  got s ++ contents p = Q -> stream (Q ++ [b]) (with_pipe pa (push b p) s).
Proof.
  intros [Hm _] Hp Hok Hlt Hh Hsuf. split.
  - apply (writer_mem_same s); [by split|apply Hm|apply Hm|done].
  - exists (push b p). simpl. rewrite lookup_insert_eq. split_and!; [done|by apply push_ok|].
    rewrite contents_push, (Hgot s) by (done || kst_eq). by rewrite app_assoc, Hsuf.
Qed.

(** The loop of pipewrite, from byte [i]. *)
Lemma pipewrite_loop_stream Q0 fuel : forall (i : nat) s env,
  (i <= length bs)%nat -> (length bs - i + length env < fuel)%nat ->
  stream (Q0 ++ take i bs) s -> k_cur s = Some pr -> k_held s = [LPipe pa] -> Forall reads_only env ->
  match pipewrite_loop fuel pa pr addr (Z.of_nat (length bs)) (Z.of_nat i) (mkW s env) with
  | Ok r w => k_held (wk w) = [] /\ exists k, (k <= length bs)%nat /\ stream (Q0 ++ take k bs) (wk w) /\
      (r = Z.of_nat (length bs) /\ k = length bs \/
       r = -1 /\ exists p q, k_pipes (wk w) !! pa = Some p /\ k_procs (wk w) !! pr = Some q /\
         (pi_readopen p = 0 \/ p_killed q <> 0))
  | Asleep w => exists k, (k <= length bs)%nat /\ stream (Q0 ++ take k bs) (wk w)
  | _ => False
  end.
Proof using Haddr Htop Hgot.
  induction fuel as [|fuel IH]; intros i s env Hi Hf Hs Hc Hh He; [lia|].
  assert (HK : LKmem ∉ k_held s) by (rewrite Hh; set_solver).
  assert (Hpf : plocks_free s) by (intros x Hx; rewrite Hh in Hx; set_solver).
  pose proof Hs as [Hm (p & Hp & Hok & Hsuf)]. destruct (wm_proc s Hm) as (q & Hq & Hr).
  destruct (bs !! i) as [b|] eqn:Hb.
  - rewrite (pipewrite_round fuel s env p q i b) by done.
    destruct (_ || _) eqn:Estop.
    { split; [done|]. exists i. split_and!; [done| |right; split; [done|]; exists p, q; split_and!; [done|done|]].
      2:{ apply orb_true_iff in Estop as [E|E]; [left; by apply Z.eqb_eq|right; by apply Z.eqb_neq, negb_true_iff]. }
      apply (stream_same _ s); [by split; try done; set_solver|by exists q|apply Hm|done|apply Hgot; kst_eq|done]. }
    case_bool_decide as Hfull.
    + rewrite (bind_ok _ _ _ _ _ (wakeup_eq _ s env Hpf (wm_table s Hm))).
      set (s1 := s <| k_procs ::= _ |>). pose proof (stream_wake _ s (Some (ChPipeR pa)) HK Hs) as Hs1. fold s1 in Hs1.
      destruct (wm_proc s1 (proj1 Hs1)) as (q1 & Hq1 & _).
      pose proof (sleep_inv pr (stream (Q0 ++ take i bs))) as Hsl.
      specialize (Hsl ltac:(intros x [Hx _]; destruct (wm_proc x Hx) as (y & Hy & _); by exists y)).
      specialize (Hsl ltac:(intros x Hx; by apply stream_sched; [|set_solver|])).
      specialize (Hsl (ChPipeW pa) (LPipe pa) s1 env ltac:(intros x Hx; by apply stream_sched; [|set_solver|])).
      specialize (Hsl ltac:(intros x Hx; by apply (stream_sched _ x [LPipe pa] (k_cur x)); [|set_solver|])).
      specialize (Hsl (keeps_stream _ env He) Hs1 Hc Hh ltac:(done)).
      pose proof (sleep_tail pr (ChPipeW pa) (LPipe pa) s1 env q1) as Htail.
      unfold mbind, K_bind. destruct (sleep (ChPipeW pa) (LPipe pa) (mkW s1 env)) as [[] [s2 e2]| |w2| | |] eqn:E; try done; [|by exists i].
      destruct Hsl as (Hs2 & Hc2 & Hh2 & Hl2 & _). simpl in *.
      apply IH; [done|lia|done|done|done|]. by apply (Htail tt (mkW s2 e2) reads_only).
    + apply IH; [by apply lookup_lt_Some in Hb|apply lookup_lt_Some in Hb; lia| |done|done|done].
      rewrite (take_S_r bs i b Hb), app_assoc. apply stream_push; try done.
      pose proof (po_count p Hok). rewrite length_contents in Hfull. lia.
  - apply lookup_ge_None in Hb. assert (i = length bs) as -> by lia.
    cbn [pipewrite_loop]. rewrite (proj2 (Z.ltb_ge _ _)) by lia.
    rewrite (bind_ok _ _ _ _ _ (wakeup_eq _ s env Hpf (wm_table s Hm))).
    set (s1 := s <| k_procs ::= _ |>). pose proof (stream_wake _ s (Some (ChPipeR pa)) HK Hs) as Hs1. fold s1 in Hs1.
    rewrite bind_release by (simpl; rewrite Hh; set_solver). simpl.
    split; [rewrite Hh; by rewrite filter_cons_False by naive_solver|].
    exists (length bs). split_and!; [done| |by left].
    apply (stream_same _ s1); [split; try done; simpl; rewrite Hh, filter_cons_False by naive_solver; set_solver| | |done|apply Hgot; kst_eq|done];
      simpl; apply (proj1 Hs1).
Qed.

End write.

(** * Reading *)

Section read.
Context (pa : Z) (pr : nat) (root : Z) (d : dirmap) (l : list Z) (addr : Z) (Haddr : 0 <= addr).

(** The state of a reading process: its memory, the pipe, its table entry. *)
Record reader (s : kst) (p : pipe) : Prop := {
  rd_as : user_as s root d l;
  rd_pipe : k_pipes s !! pa = Some p;
  rd_ok : pipe_ok p;
  rd_proc : exists q, k_procs s !! pr = Some q /\ p_pagetable q = root;
}.

(** The bytes copied so far change the queue and user memory, nothing else. *)
Definition consumed (s s' : kst) (p' : pipe) : Prop :=
  exists fl m, s' = s <| k_freelist := fl |> <| k_mem := m |> <| k_pipes ::= <[pa := p']> |>.

Lemma consumed_trans s s1 s2 p1 p2 : consumed s s1 p1 -> consumed s1 s2 p2 -> consumed s s2 p2.
Proof.
  intros (f1 & m1 & ->) (f2 & m2 & ->). exists f2, m2. kst_eq. by rewrite insert_insert_eq.
Qed.

(** One byte taken out of the pipe and copied to the user. *)
Lemma read_round s e p i :
  reader s p -> 0 < pcount p -> 0 <= i -> addr + i < 2 ^ 64 ->
  let c := default 0 (pi_data p !! Z.to_nat (pi_nread p mod PIPESIZE)) in
  let ok := uwritable s d (addr + i) in
  exists s', (forall k, piperead_copy (S k) pa pr addr i (mkW s e) =
                (if ok then piperead_copy k pa pr addr (i + 1) else mret i) (mkW s' e)) /\
    reader s' (pop p) /\ consumed s s' (pop p) /\ uwrote d s s' (addr + i) (if ok then [c] else []).
Proof using Haddr.
  intros [Hu Hp Hok (q & Hq & Hr)] Hn Hi Htop c ok. set (s1 := with_pipe pa (pop p) s).
  assert (Hsame : same_mem s s1) by (split; try done; apply Hu).
  assert (Hu1 : user_as s1 root d l) by (by eapply user_as_same).
  destruct (copyout_byte s1 root d l e (addr + i) c Hu1 ltac:(lia)) as (s' & E & (fl & m & ->) & Hu' & Hw).
  assert (Eok : uwritable s1 d (addr + i) = ok) by done. rewrite Eok in E, Hw.
  exists (s1 <| k_freelist := fl |> <| k_mem := m |>). split; [|split; [|split]].
  - intros k. cbn [piperead_copy]. unfold getpi. krun. simpl. rewrite Hp. cbn [the]. krun.
    rewrite empty_test by done. rewrite bool_decide_eq_false_2.
    2: { intros Hnil. apply (f_equal length) in Hnil. rewrite length_contents in Hnil. simpl in Hnil. lia. }
    destruct (lookup_lt_is_Some_2 (pi_data p) (Z.to_nat (pi_nread p mod PIPESIZE))) as [c' Hc].
    { rewrite (po_len p Hok). pose proof (Z.mod_pos_bound (pi_nread p) PIPESIZE ltac:(done)). lia. }
    assert (c' = c) as -> by (unfold c; by rewrite Hc). rewrite Hc. cbn [the]. unfold setpi, getp. krun.
    assert (Es : s <| k_pipes ::= alter (fun p => p <| pi_nread ::= (fun r => u32 (r + 1)) |>) pa |> = s1).
    { unfold s1, with_pipe. kst_eq. by apply alter_as_insert. }
    rewrite Es. simpl. rewrite Hq. cbn [the]. krun. rewrite Hr, u64_small by lia.
    rewrite (bind_ok _ _ _ _ _ E). by destruct ok.
  - split; [done|simpl; by rewrite lookup_insert_eq|by apply pop_ok|by exists q].
  - exists fl, m. kst_eq.
  - destruct Hw as [L U O]. by split.
Qed.

Lemma piperead_copy_spec e k : forall (i : nat) s p,
  reader s p -> addr + Z.of_nat i + Z.of_nat k <= 2 ^ 64 ->
  exists j s' p', piperead_copy k pa pr addr (Z.of_nat i) (mkW s e) = Ok (Z.of_nat (i + j)) (mkW s' e) /\
    reader s' p' /\ (consumed s s' p' \/ s' = s) /\ uwrote d s s' (addr + Z.of_nat i) (take j (contents p)) /\
    (forall t, (t < j)%nat -> uwritable s d (addr + Z.of_nat i + Z.of_nat t) = true) /\
    (j = Nat.min k (length (contents p)) /\ contents p' = drop j (contents p) \/
     (j < Nat.min k (length (contents p)))%nat /\ uwritable s d (addr + Z.of_nat i + Z.of_nat j) = false /\
       contents p' = drop (S j) (contents p)).
Proof using Haddr.
  induction k as [|k IH]; intros i s p Hs Htop.
  { exists 0%nat, s, p. rewrite Nat.add_0_r. split_and!; [done|done|by right|by apply uwrote_nil|lia|left; split; [lia|by rewrite drop_0]]. }
  destruct (decide (contents p = [])) as [Hnil|Hne].
  { exists 0%nat, s, p. rewrite Nat.add_0_r, Hnil.
    split_and!; [|done|by right|by apply uwrote_nil|lia|left; split; [simpl; lia|done]].
    cbn [piperead_copy]. unfold getpi. krun. simpl. rewrite (rd_pipe s p Hs). cbn [the]. krun.
    rewrite empty_test by apply Hs. by rewrite bool_decide_eq_true_2. }
  assert (Hpos : 0 < pcount p).
  { pose proof (pcount_nonneg p). destruct (decide (pcount p = 0)) as [E|]; [|lia].
    exfalso. apply Hne, nil_length_inv. rewrite length_contents, E. done. }
  destruct (read_round s e p (Z.of_nat i) Hs Hpos ltac:(lia) ltac:(lia)) as (s1 & E & Hs1 & Hc1 & Hw1).
  rewrite (contents_pop p) by done.
  destruct (uwritable s d (addr + Z.of_nat i)) eqn:Eok.
  - destruct (IH (S i) s1 (pop p) Hs1 ltac:(lia)) as (j & s2 & p2 & E2 & Hs2 & Hc2 & Hw2 & Hwr & Hres).
    assert (Hwd : forall t, uwritable s1 d (addr + Z.of_nat (S i) + Z.of_nat t) = uwritable s d (addr + Z.of_nat i + Z.of_nat (S t))).
    { intros t. destruct (uaccess_leaf s s1 d (uw_leaf _ _ _ _ _ Hw1) (addr + Z.of_nat (S i) + Z.of_nat t) ltac:(lia)) as (_ & -> & _).
      f_equal. lia. }
    exists (S j), s2, p2. split_and!; [|done|left|..].
    + rewrite E. replace (Z.of_nat i + 1) with (Z.of_nat (S i)) by lia. rewrite E2. do 2 f_equal. lia.
    + destruct Hc2 as [Hc2| ->]; [by eapply consumed_trans|].
      assert (p2 = pop p) as -> by (destruct Hs1, Hs2; congruence). done.
    + cbn [take]. apply (uwrote_app d s s1 s2 _ [_]); [done|].
      cbn [length]. replace (addr + Z.of_nat i + Z.of_nat 1) with (addr + Z.of_nat (S i)) by lia. exact Hw2.
    + intros [|t] Ht; [by rewrite Z.add_0_r|]. rewrite <- Hwd. apply Hwr. lia.
    + cbn [length drop]. destruct Hres as [[-> Hd]|(Hlt & Hno & Hd)]; [left; split; [lia|done]|right].
      split_and!; [lia|by rewrite <- Hwd|done].
  - exists 0%nat, s1, (pop p). split_and!; [|done|by left|done|lia|right].
    + rewrite E, Nat.add_0_r. done.
    + split_and!; [simpl; lia|by rewrite Z.add_0_r|done].
Qed.
End read.

(** C13: A pipe is a bounded first-in first-out queue to its writers.  If the bytes
    fit, the pipe has a reader and the writer was not killed, pipewrite appends
    them and wakes the readers.  In general, while it waits other threads may take bytes
    from the front of the pipe; [got] tells which bytes they got so far.  Then, at every
    return and also when the writer sleeps for ever, the bytes the readers got followed
    by those in the pipe are the ones from before followed by the first [k] bytes of the
    writer: none is lost, duplicated or reordered.  pipewrite returns the full count
    only when all went in, and -1 only when no reader is left or the writer was killed. *)
Theorem pipewrite_queue pa pr root d addr bs got s env p q :
  0 <= addr -> addr + Z.of_nat (length bs) <= 2 ^ 64 ->
  writer_mem pr root d addr bs s -> k_cur s = Some pr -> k_held s = [] ->
  k_pipes s !! pa = Some p -> pipe_ok p -> k_procs s !! pr = Some q ->
  (p_killed q = 0 -> pi_readopen p <> 0 -> (length (contents p) + length bs <= 512)%nat ->
   exists p', pipewrite pa addr (Z.of_nat (length bs)) (mkW s env) =
       Ok (Z.of_nat (length bs)) (mkW (with_pipe pa p' s <| k_procs ::= wake (Some (ChPipeR pa)) (Some pr) |>) env) /\
     pipe_ok p' /\ contents p' = contents p ++ bs) /\
  ((forall s s', s' = s <| k_pipes := k_pipes s' |> <| k_held := k_held s' |> <| k_cur := k_cur s' |>
      <| k_procs := k_procs s' |> -> got s' = got s) ->
   Forall (reads_only pa pr root d addr bs got) env ->
   let holds w k := exists p', k_pipes (wk w) !! pa = Some p' /\ pipe_ok p' /\
     got (wk w) ++ contents p' = got s ++ contents p ++ take k bs in
   match pipewrite pa addr (Z.of_nat (length bs)) (mkW s env) with
   | Ok r w => k_held (wk w) = [] /\ exists k, (k <= length bs)%nat /\ holds w k /\
       (r = Z.of_nat (length bs) /\ k = length bs \/
        r = -1 /\ exists p' q', k_pipes (wk w) !! pa = Some p' /\ k_procs (wk w) !! pr = Some q' /\
          (pi_readopen p' = 0 \/ p_killed q' <> 0))
   | Asleep w => exists k, (k <= length bs)%nat /\ holds w k
   | _ => False
   end).
Proof.
  intros Ha Ht Hm Hc Hh Hp Hok Hq. unfold pipewrite, myproc.
  set (s1 := s <| k_held ::= cons (LPipe pa) |>).
  assert (Hs1 : same_mem s s1) by (split; try done; simpl; rewrite Hh; set_solver).
  assert (Hm1 : writer_mem pr root d addr bs s1) by (by apply (writer_mem_same _ _ _ _ _ s); try apply Hm).
  assert (Hh1 : k_held s1 = [LPipe pa]) by (simpl; by rewrite Hh).
  krun. cbn [wk wenv]. rewrite Hc. cbn [the]. krun. rewrite bind_acquire by (simpl; rewrite Hh; set_solver).
  cbn [wk wenv]. fold s1. rewrite Nat2Z.id. split.
  - intros Hk Ho Hroom. assert (HP : Z.to_nat PIPESIZE = 512%nat) by done.
    destruct (pipewrite_loop_room pa pr root d addr bs Ha Ht (S (length bs + length env)) 0 s1 env p q) as (p' & E & Hok' & Ec);
      try done; [lia..|]. exists p'. change (Z.of_nat 0) with 0 in E. rewrite E.
    split_and!; [|done|done]. do 2 f_equal. kst_eq. by rewrite Hh.
  - intros Hgot He.
    assert (Hst : stream pa pr root d addr bs got ((got s ++ contents p) ++ take 0 bs) s1).
    { split; [done|]. exists p. split_and!; [done|done|]. rewrite (Hgot s s1) by kst_eq. by rewrite app_nil_r. }
    pose proof (pipewrite_loop_stream pa pr root d addr bs Ha Ht got Hgot (got s ++ contents p) (S (length bs + length env)) 0 s1 env
      ltac:(lia) ltac:(lia) Hst Hc Hh1 He) as H.
    change (Z.of_nat 0) with 0 in H. revert H. destruct (pipewrite_loop _ _ _ _ _ _ _) as [r w| |w| | |]; try done.
    + intros (Hh2 & k & Hk & [_ Hsk] & Hr). rewrite <- app_assoc in Hsk. split; [done|]. by exists k.
    + intros (k & Hk & [_ Hsk]). rewrite <- app_assoc in Hsk. by exists k.
Qed.

(** C25: piperead takes from the front of the queue.  When there is data, or no
    writer is left, it returns at once: with as many bytes as asked for and
    present copied, in order, to the user's buffer and removed from the queue;
    or, at the first address the user may not write, with the bytes before it
    copied, but one byte more removed.  It changes no other user memory. *)
Theorem piperead_queue pa pr root d l addr (n : nat) s e p :
  0 <= addr -> addr + Z.of_nat n <= 2 ^ 64 -> reader pa pr root d l s p ->
  k_cur s = Some pr -> k_held s = [] -> table_ok s -> contents p <> [] \/ pi_writeopen p = 0 ->
  exists j s' p', piperead pa addr (Z.of_nat n) (mkW s e) = Ok (Z.of_nat j) (mkW s' e) /\
    k_held s' = [] /\ k_pipes s' !! pa = Some p' /\ pipe_ok p' /\
    uwrote d s s' addr (take j (contents p)) /\
    (forall t, (t < j)%nat -> uwritable s d (addr + Z.of_nat t) = true) /\
    (j = Nat.min n (length (contents p)) /\ contents p' = drop j (contents p) \/
     (j < Nat.min n (length (contents p)))%nat /\ uwritable s d (addr + Z.of_nat j) = false /\
       contents p' = drop (S j) (contents p)).
Proof.
  intros Ha Ht Hs Hc Hh Htab Hdata. set (s1 := s <| k_held ::= cons (LPipe pa) |>).
  assert (Hs1 : reader pa pr root d l s1 p).
  { destruct Hs as [U P O Q]. split; [|done..]. eapply user_as_same; [|exact U]. split; try done.
    simpl. rewrite Hh. set_solver. }
  destruct (piperead_copy_spec pa pr root d l addr Ha e n 0 s1 p Hs1 ltac:(lia)) as (j & s2 & p' & E & Hs2 & Hcons & Hw & Hwr & Hres).
  rewrite Z.add_0_r in *.
  assert (Hcur2 : k_cur s2 = Some pr /\ k_held s2 = [LPipe pa] /\ table_ok s2).
  { assert (k_held s1 = [LPipe pa]) by (simpl; by rewrite Hh).
    destruct Hcons as [(f & m & ->)| ->]; done. }
  destruct Hcur2 as (Hc2 & Hh2 & Htab2).
  exists j, (s2 <| k_procs ::= wake (Some (ChPipeW pa)) (k_cur s2) |> <| k_held := [] |>), p'.
  split_and!; [|done|apply Hs2|apply Hs2| | |done].
  - unfold piperead, myproc. krun. cbn [wk wenv]. rewrite Hc. cbn [the]. krun.
    rewrite bind_acquire by (simpl; rewrite Hh; set_solver). cbn [wk wenv]. fold s1.
    assert (Ew : piperead_wait (S (length e)) pa pr (mkW s1 e) = Ok true (mkW s1 e)).
    { cbn [piperead_wait]. unfold getpi. krun. simpl wk. rewrite (rd_pipe _ _ _ _ _ _ _ Hs1). cbn [the]. krun.
      rewrite empty_test by apply Hs1. destruct Hdata as [Hne|Hcl].
      - by rewrite bool_decide_eq_false_2.
      - rewrite Hcl. simpl. by rewrite andb_false_r. }
    unfold mbind at 1, K_bind at 1. cbn [wenv]. rewrite Ew. cbn [negb]. rewrite Nat2Z.id.
    rewrite (bind_ok _ _ _ _ _ E). cbn [Nat.add].
    assert (Hpf : plocks_free s2) by (intros x Hx; rewrite Hh2 in Hx; set_solver).
    rewrite (bind_ok _ _ _ _ _ (wakeup_eq _ s2 e Hpf Htab2)). rewrite bind_release by (simpl; rewrite Hh2; set_solver).
    kret. rewrite Hh2. by rewrite filter_cons_False by naive_solver.
  - destruct Hw as [L U O]. by split.
  - intros t Hlt. apply (Hwr t Hlt).
Qed.

(** * Concrete pipes *)

Definition demo_pipe (data : list Z) : pipe :=
  mkPipe (data ++ replicate (512 - length data) 0) 0 (Z.of_nat (length data)) 1 1.
Lemma demo_pipe_ok data : (length data <= 512)%nat -> pipe_ok (demo_pipe data).
Proof.
  intros H. split; simpl; [|lia..|].
  - rewrite length_app, length_replicate. change (Z.to_nat PIPESIZE) with 512%nat. lia.
  - unfold pcount, dist. simpl. rewrite Z.sub_0_r, Z.mod_small by lia. unfold PIPESIZE. lia.
Qed.
Definition with_process (root : Z) (p : pipe) (s : kst) : kst :=
  s <| k_pipes := {[4096 := p]} |> <| k_cur := Some 0%nat |> <| k_held := [] |>
    <| k_procs := replicate (Z.to_nat NPROC) (zero_proc <| p_pagetable := root |>) |>.

Lemma with_process_as s root d l p : vm_inv s root d l -> as_ok s d l -> user_as (with_process root p s) root d l.
Proof. intros V A. apply (user_as_same s); [|by split]. split; try done. simpl. set_solver. Qed.

Lemma with_process_proc root p s :
  k_procs (with_process root p s) !! 0%nat = Some (zero_proc <| p_pagetable := root |>).
Proof. reflexivity. Qed.

Lemma writable_read s root d l va :
  user_as s root d l -> 0 <= va -> uwritable s d va = true -> exists b, uread s d va = Some b.
Proof.
  intros [V A] Hva Hw. apply andb_prop in Hw as [Hu _].
  destruct (as_page _ _ _ A va Hva Hu) as (Hp & _).
  apply (page_ok_range s) in Hp; [|apply V]. unfold uread. rewrite Hu, (proj2 (Z.eqb_neq _ _)) by lia. simpl. eauto.
Qed.

(** A reader that takes a byte, sends it down the serial line, and wakes the writer; the
    bytes sent are what the readers got. *)
Definition demo_got (s : kst) : list Z := rev (tx_out (k_uart s)).
Definition demo_reader (s : kst) : kst :=
  match k_pipes s !! 4096 with
  | Some p =>
      if decide (0 < pcount p) then
        with_pipe 4096 (pop p) s
          <| k_uart ::= (fun u => u <| tx_out ::= cons (hd 0 (contents p)) |>) |>
          <| k_procs ::= alter (fun q => q <| p_state := RUNNABLE |>) 0%nat |>
      else s
  | None => s
  end.

Lemma demo_reader_ok root d addr bs : reads_only 4096 0 root d addr bs demo_got demo_reader.
Proof.
  split; intros s.
  - intros Hm. unfold demo_reader. destruct (k_pipes s !! 4096) as [p|]; [|done]. case_decide; [|done].
    apply (writer_mem_same 0 root d addr bs s); [| | |done].
    + destruct Hm as [[l V] _ _ _]. split; [done|done|done|apply V].
    + destruct (wm_proc _ _ _ _ _ _ Hm) as (q & Hq & Hr). eexists. simpl. rewrite list_lookup_alter_eq, Hq. by split.
    + unfold table_ok. simpl. rewrite length_alter. apply Hm.
  - intros p Hp Hok. unfold demo_reader. rewrite Hp. case_decide as Hd; [|by exists p].
    exists (pop p). simpl. rewrite lookup_insert_eq. split_and!; [done|by apply pop_ok|].
    unfold demo_got. simpl. rewrite (contents_pop p Hd). simpl. by rewrite <- app_assoc.
Qed.

(** A pipe with room, and a full one with a reader. *)
Lemma pipewrite_queue_witness :
  exists s b,
    (exists p', pipewrite 4096 0 1 (mkW (with_pipe 4096 (demo_pipe []) s) []) =
      Ok 1 (mkW (with_pipe 4096 p' (with_pipe 4096 (demo_pipe []) s) <| k_procs ::= wake (Some (ChPipeR 4096)) (Some 0%nat) |>) []) /\
      pipe_ok p' /\ contents p' = [b]) /\
    match pipewrite 4096 0 1 (mkW s [demo_reader]) with
    | Ok r w => exists k p', (k <= 1)%nat /\ k_pipes (wk w) !! 4096 = Some p' /\
        demo_got (wk w) ++ contents p' = demo_got s ++ replicate 512 7 ++ take k [b]
    | Asleep w => True
    | _ => False
    end.
Proof.
  destruct demo_space as (s0 & root & d & l & V & A & Hw & _). set (q := zero_proc <| p_pagetable := root |>).
  assert (Hb : exists b, uread s0 d 0 = Some b) by (apply (writable_read s0 root d l); [by split|lia|by apply Hw]).
  destruct Hb as [b Hb].
  assert (Hm : forall p, writer_mem 0 root d 0 [b] (with_process root p s0)).
  { intros p. split; [exists l; apply (with_process_as s0 root d l p V A)| |by exists q|reflexivity].
    intros [|j] x Hx; [injection Hx as <-; exact Hb|done]. }
  exists (with_process root (demo_pipe (replicate 512 7)) s0), b. split.
  - refine (proj1 (pipewrite_queue 4096 0 root d 0 [b] demo_got (with_process root (demo_pipe []) s0) [] (demo_pipe []) q _ _ _ _ _ _ _ _) _ _ _);
      try reflexivity; try done. simpl. lia.
  - pose proof (proj2 (pipewrite_queue 4096 0 root d 0 [b] demo_got (with_process root (demo_pipe (replicate 512 7)) s0) [demo_reader]
      (demo_pipe (replicate 512 7)) q ltac:(lia) ltac:(simpl; lia) (Hm _) eq_refl eq_refl eq_refl
      ltac:(by apply demo_pipe_ok) eq_refl)) as H.
    specialize (H ltac:(intros s s' ->; reflexivity) ltac:(by apply Forall_singleton, demo_reader_ok)). cbv zeta in H.
    change (Z.of_nat (length [b])) with 1 in H. destruct (pipewrite _ _ _ _) as [r w| | | | |]; try exact H; [|exact I].
    destruct H as (_ & k & Hk & (p' & Hp & _ & E) & _). exists k, p'. split; [exact Hk|]. split; [exact Hp|]. exact E.
Defined.

Lemma piperead_queue_witness :
  exists s s' p', piperead 4096 0 2 (mkW s []) = Ok 2 (mkW s' []) /\
    k_pipes s' !! 4096 = Some p' /\ contents p' = [30].
Proof.
  destruct demo_space as (s & root & d & l & V & A & Hw & _).
  pose proof (with_process_as s root d l (demo_pipe [10; 20; 30]) V A) as U.
  set (s1 := with_process root (demo_pipe [10; 20; 30]) s) in U.
  destruct (piperead_queue 4096 0 root d l 0 2 s1 [] (demo_pipe [10; 20; 30])) as (j & s' & p' & E & _ & Hp & _ & _ & _ & Hr);
    try reflexivity; try lia.
  - split; [exact U|reflexivity|apply demo_pipe_ok; simpl; lia|]. by exists (zero_proc <| p_pagetable := root |>).
  - left. by vm_compute.
  - exists s1, s', p'. destruct Hr as [[-> Hc]|(Hlt & Hn & _)].
    + split; [exact E|]. split; [exact Hp|]. rewrite Hc. by vm_compute.
    + exfalso. change (length (contents (demo_pipe [10; 20; 30]))) with 3%nat in Hlt. simpl in Hlt.
      assert (uwritable s d (0 + Z.of_nat j) = true) as Hy by (apply Hw; unfold PGSIZE; lia).
      change (uwritable s1 d (0 + Z.of_nat j)) with (uwritable s d (0 + Z.of_nat j)) in Hn. congruence.
Defined.
