(* ===== verification/Console.v ===== *)
(** kernel/console.c: line-edited console input and output, with procdump of
    kernel/proc.c and the interrupt handler of kernel/uart.c that feeds it. *)

From S2P Require Import Prelude Numeral Riscv CString State Sched Uart Printf Fs.

Definition INPUT_BUF_SIZE : Z := 128.

Definition getcons : K consbuf := gets k_cons.
Definition setcons (f : consbuf -> consbuf) : K unit := modify (fun s => s <| k_cons ::= f |>).

(** The characters of a C string in an array. *)
Definition cstr (l : list Z) : list Z := take (strlen_nat l) l.

(** void procdump(void) *)
Definition state_name (st : procstate) : string :=
  match st with
  | UNUSED => "unused"
  | USED => "used"
  | SLEEPING => "sleep "
  | RUNNABLE => "runble"
  | RUNNING => "run   "
  | ZOMBIE => "zombie"
  end.
Definition procdump : K unit :=
  printf [10] [];;
  forK procs (fun i =>
    p ← getp i;
    when (negb (bool_decide (p_state p = UNUSED)))
      (printf (chars "%d %s %s") [VInt (p_pid p); VStr (Some (chars (state_name (p_state p)))); VStr (Some (cstr (p_name p)))];;
       printf [10] [];;
       mret tt)).

(** int consolewrite(int user_src, uint64 src, int n) *)
Fixpoint consolewrite_loop (k : nat) (src : source) (i : Z) : K Z :=
  match k with
  | O => mret i
  | S k' =>
      '(r, c) ← either_copyin (source_at src i) 1;
      if r =? -1 then mret i
      else uartputc (hd 0 c);; consolewrite_loop k' src (i + 1)
  end.
Definition consolewrite (src : source) (n : Z) : K Z := consolewrite_loop (Z.to_nat n) src 0.

(** The inner loop of consoleread: wait for a line; false when the process was
    killed meanwhile. *)
Fixpoint consoleread_wait (fuel : nat) : K bool :=
  match fuel with
  | O => diverge
  | S fuel' =>
      c ← getcons;
      if cs_r c =? cs_w c then
        me ← myproc;
        p ← the me;
        k ← killed p;
        if negb (k =? 0) then mret false
        else sleep ChCons LCons;; consoleread_wait fuel'
      else mret true
  end.

(** int consoleread(int user_dst, uint64 dst, int n): the result, and the bytes
    copied to a kernel buffer *)
Fixpoint consoleread_loop (fuel : nat) (dst : dest) (target n : Z) (got : list Z) : K (option Z * list Z) :=
  match fuel with
  | O => diverge
  | S fuel' =>
      if 0 <? n then
        alive ← ((fun w => consoleread_wait (S (length (wenv w))) w) : K bool);
        if negb alive then mret (None, got)
        else
          cb ← getcons;
          c ← the (cs_buf cb !! Z.to_nat (cs_r cb mod INPUT_BUF_SIZE));
          setcons (fun cb => cb <| cs_r ::= (fun r => u32 (r + 1)) |>);;
          if c =? 4 then
            when (n <? target) (setcons (fun cb => cb <| cs_r ::= (fun r => u32 (r - 1)) |>));;
            mret (Some n, got)
          else
            '(r, bs) ← either_copyout (dest_at dst (target - n)) [c];
            if r =? -1 then mret (Some n, got)
            else if c =? 10 then mret (Some (n - 1), got ++ bs)
            else consoleread_loop fuel' dst target (n - 1) (got ++ bs)
      else mret (Some n, got)
  end.
Definition consoleread (dst : dest) (n : Z) : K (Z * list Z) :=
  acquire LCons;;
  '(rest, got) ← consoleread_loop (S (Z.to_nat n)) dst n n [];
  release LCons;;
  mret (match rest with None => -1 | Some l => n - l end, got).

(** The loop that erases a line. *)
Fixpoint kill_line (fuel : nat) : K unit :=
  match fuel with
  | O => diverge
  | S fuel' =>
      c ← getcons;
      if negb (cs_e c =? cs_w c) then
        x ← the (cs_buf c !! Z.to_nat (u32 (cs_e c - 1) mod INPUT_BUF_SIZE));
        if negb (x =? 10) then
          setcons (fun c => c <| cs_e ::= (fun e => u32 (e - 1)) |>);;
          consputc BACKSPACE;;
          kill_line fuel'
        else mret tt
      else mret tt
  end.

(** void consoleintr(int c) *)
Definition consoleintr (c : Z) : K unit :=
  acquire LCons;;
  (if c =? 16 then procdump
   else if c =? 21 then
     cb ← getcons; kill_line (S (Z.to_nat (u32 (cs_e cb - cs_w cb))))
   else if (c =? 8) || (c =? 0x7f) then
     cb ← getcons;
     when (negb (cs_e cb =? cs_w cb))
       (setcons (fun cb => cb <| cs_e ::= (fun e => u32 (e - 1)) |>);;
        consputc BACKSPACE)
   else
     cb ← getcons;
     when (negb (c =? 0) && (u32 (cs_e cb - cs_r cb) <? INPUT_BUF_SIZE))
       (let c := if c =? 13 then 10 else c in
        consputc c;;
        setcons (fun cb => cb <| cs_buf ::= <[Z.to_nat (cs_e cb mod INPUT_BUF_SIZE) := u8 c]> |>
                              <| cs_e ::= (fun e => u32 (e + 1)) |>);;
        cb ← getcons;
        when ((c =? 10) || (c =? 4) || (u32 (cs_e cb - cs_r cb) =? INPUT_BUF_SIZE))
          (setcons (fun cb => cb <| cs_w := cs_e cb |>);;
           wakeup (Some ChCons))));;
  release LCons.

(** void consoleinit(void) *)
Definition CONSOLE : Z := 1.
Definition consoleinit : K unit :=
  uartinit;;
  modify (fun s => s <| k_devsw ::= <[Z.to_nat CONSOLE := true]> |>).

(** void uartintr(void) *)
Fixpoint uartintr_loop (fuel : nat) : K unit :=
  match fuel with
  | O => diverge
  | S fuel' =>
      c ← uartgetc;
      if c =? -1 then mret tt else consoleintr c;; uartintr_loop fuel'
  end.
Definition uartintr : K unit :=
  u ← getu;
  uartintr_loop (S (length (rx_in u)));;
  acquire LUart;;
  uartstart;;
  release LUart.
