(* ===== verification/ConsoleSpec.v ===== *)
(** The console's line discipline: what the user typed and may still edit, and
    the finished lines that consoleread hands out. *)

From S2P Require Import Prelude Numeral Ring Riscv CString State Sched Uart Printf Fs Console.

(** * The two parts of the input buffer *)

Definition ready_n (c : consbuf) : Z := dist 32 (cs_r c) (cs_w c).
Definition edit_n (c : consbuf) : Z := dist 32 (cs_w c) (cs_e c).
Definition ready (c : consbuf) : list Z := ring INPUT_BUF_SIZE (cs_buf c) (cs_r c) (Z.to_nat (ready_n c)).
Definition editing (c : consbuf) : list Z := ring INPUT_BUF_SIZE (cs_buf c) (cs_w c) (Z.to_nat (edit_n c)).

(** The indices are 32-bit, the buffer holds at most its size, and the line being
    edited has no end of line in it. *)
Record cons_ok (c : consbuf) : Prop := {
  co_len : length (cs_buf c) = Z.to_nat INPUT_BUF_SIZE;
  co_r : 0 <= cs_r c < 2 ^ 32;
  co_w : 0 <= cs_w c < 2 ^ 32;
  co_e : 0 <= cs_e c < 2 ^ 32;
  co_size : ready_n c + edit_n c <= INPUT_BUF_SIZE;
  co_line : 10 ∉ editing c;
}.

(** The line discipline: a key pressed. *)
Record line := mkLine { l_ready : list Z; l_edit : list Z }.
Definition room (l : line) : Prop := (length (l_ready l) + length (l_edit l) < 128)%nat.
#[export] Instance room_dec l : Decision (room l).
Proof. unfold room. apply _. Defined.
Definition finishes (c : Z) (l : line) : bool :=
  (c =? 10) || (c =? 4) || bool_decide (length (l_ready l) + length (l_edit l) = 127)%nat.
Definition key (c : Z) (l : line) : line :=
  if c =? 16 then l
  else if c =? 21 then mkLine (l_ready l) []
  else if (c =? 8) || (c =? 127) then mkLine (l_ready l) (removelast (l_edit l))
  else if negb (c =? 0) && bool_decide (room l) then
    let c := if c =? 13 then 10 else c in
    if finishes c l then mkLine (l_ready l ++ l_edit l ++ [c]) []
    else mkLine (l_ready l) (l_edit l ++ [c])
  else l.

Definition view (c : consbuf) : line := mkLine (ready c) (editing c).

Lemma buf_divides : (INPUT_BUF_SIZE | 2 ^ 32).
Proof. by exists (2 ^ 25). Qed.

Lemma ready_n_nonneg c : 0 <= ready_n c.
Proof. by apply dist_range. Qed.
Lemma edit_n_nonneg c : 0 <= edit_n c.
Proof. by apply dist_range. Qed.

Lemma length_ready c : length (ready c) = Z.to_nat (ready_n c).
Proof. apply length_ring. Qed.
Lemma length_editing c : length (editing c) = Z.to_nat (edit_n c).
Proof. apply length_ring. Qed.

(** All the characters in the buffer. *)
Lemma total_n c : cons_ok c -> dist 32 (cs_r c) (cs_e c) = ready_n c + edit_n c.
Proof.
  intros H. pose proof (ready_n_nonneg c). pose proof (edit_n_nonneg c). pose proof (co_size c H) as Hs.
  unfold INPUT_BUF_SIZE in Hs. unfold dist at 1.
  replace (cs_e c - cs_r c) with (cs_w c - cs_r c + (cs_e c - cs_w c)) by lia.
  rewrite Zplus_mod. fold (dist 32 (cs_r c) (cs_w c)) (dist 32 (cs_w c) (cs_e c)). apply Z.mod_small.
  fold (ready_n c) (edit_n c). lia.
Qed.

(** * Editing *)

Definition unput (c : consbuf) : consbuf := c <| cs_e ::= (fun e => u32 (e - 1)) |>.

Lemma unput_n c : 0 < edit_n c -> edit_n (unput c) = edit_n c - 1.
Proof.
  intros H. pose proof (dist_range 32 ltac:(lia) (cs_w c) (cs_e c)). fold (edit_n c) in *.
  apply (dist_hi 32 ltac:(lia) (cs_w c) (cs_e c) (-1)). fold (edit_n c). lia.
Qed.

Lemma removelast_ring N data lo n : removelast (ring N data lo (S n)) = ring N data lo n.
Proof.
  replace (S n) with (n + 1)%nat by lia. rewrite ring_app. rewrite removelast_app by (unfold ring; done).
  unfold ring at 2. simpl. by rewrite app_nil_r.
Qed.

Lemma unput_editing c : 0 < edit_n c -> editing (unput c) = removelast (editing c).
Proof.
  intros H. unfold editing. rewrite unput_n by done. simpl.
  replace (Z.to_nat (edit_n c)) with (S (Z.to_nat (edit_n c - 1))) by lia. by rewrite removelast_ring.
Qed.

Lemma elem_of_removelast {A} (x : A) l : x ∈ removelast l -> x ∈ l.
Proof.
  induction l as [|y [|z l] IH]; simpl; [done|by rewrite elem_of_nil|].
  rewrite !(elem_of_cons _ _ y). intros [->|H]; [by left|right]. by apply IH.
Qed.

Lemma unput_ok c : cons_ok c -> 0 < edit_n c -> cons_ok (unput c).
Proof.
  intros H Hn. split; try apply H; [apply u32_range| |].
  - rewrite unput_n by done. pose proof (co_size c H). change (ready_n (unput c)) with (ready_n c). lia.
  - rewrite unput_editing by done. intros Hin. apply elem_of_removelast in Hin. by apply (co_line c H).
Qed.

(** The test of the erasing code. *)
Lemma editing_test c : cons_ok c -> (cs_e c =? cs_w c) = bool_decide (edit_n c = 0).
Proof.
  intros [_ _ Hw He _ _]. pose proof (dist_zero 32 ltac:(lia) _ _ Hw He) as Hz. fold (edit_n c) in Hz.
  destruct (Z.eqb_spec (cs_e c) (cs_w c)) as [E|E]; case_bool_decide as Hd; try done.
  - exfalso. by apply Hd, Hz.
  - exfalso. apply E. symmetry. by apply Hz.
Qed.

(** The last character typed is the one before the edit index. *)
Lemma last_slot c : cons_ok c -> 0 < edit_n c ->
  exists x, cs_buf c !! Z.to_nat (u32 (cs_e c - 1) mod INPUT_BUF_SIZE) = Some x /\ x <> 10.
Proof.
  intros H Hn. pose proof (dist_mod 32 ltac:(lia) (cs_w c) (cs_e c) INPUT_BUF_SIZE ltac:(done) buf_divides) as Hm.
  fold (edit_n c) in Hm.
  assert (Es : Z.to_nat (u32 (cs_e c - 1) mod INPUT_BUF_SIZE) = slot INPUT_BUF_SIZE (cs_w c + Z.of_nat (Z.to_nat (edit_n c - 1)))).
  { unfold slot, u32. rewrite slot_wrap by (done || apply buf_divides || lia). f_equal.
    rewrite <- Zminus_mod_idemp_l, Hm, Zminus_mod_idemp_l. f_equal. lia. }
  rewrite Es. destruct (lookup_lt_is_Some_2 (cs_buf c) (slot INPUT_BUF_SIZE (cs_w c + Z.of_nat (Z.to_nat (edit_n c - 1))))) as [x Hx].
  { rewrite (co_len c H). by apply slot_lt. }
  exists x. split; [done|]. intros ->. apply (co_line c H). apply list_elem_of_lookup.
  exists (Z.to_nat (edit_n c - 1)). unfold editing. rewrite ring_lookup by lia. by rewrite Hx.
Qed.

(** ^U erases the line being edited. *)
Lemma kill_line_run n : forall s e,
  cons_ok (k_cons s) -> (Z.to_nat (edit_n (k_cons s)) < n)%nat ->
  exists u c, kill_line n (mkW s e) = Ok tt (mkW (s <| k_cons := c |> <| k_uart := u |>) e) /\
    cons_ok c /\ ready c = ready (k_cons s) /\ editing c = [].
Proof.
  induction n as [|n IH]; intros s e H Hn; [lia|]. cbn [kill_line]. unfold getcons, setcons. krun. simpl wk.
  rewrite editing_test by done. pose proof (edit_n_nonneg (k_cons s)). case_bool_decide as Hz; cbn [negb].
  - exists (k_uart s), (k_cons s). split_and!; [kret|done|done|]. apply nil_length_inv. rewrite length_editing, Hz. done.
  - destruct (last_slot _ H ltac:(lia)) as (x & Hx & Hne). rewrite Hx. cbn [the]. krun.
    rewrite (proj2 (Z.eqb_neq x 10) Hne). cbn [negb]. krun. simpl wk.
    destruct (prints_putc BACKSPACE (mkW (s <| k_cons ::= unput |>) e)) as [u E]. simpl in E.
    fold unput. rewrite (bind_ok _ _ _ _ _ E).
    destruct (IH (s <| k_cons ::= unput |> <| k_uart := u |>) e) as (u' & c & E' & Hok & Hr & He).
    { simpl. apply unput_ok; [done|lia]. }
    { simpl. rewrite unput_n by lia. lia. }
    exists u', c. rewrite E'. split_and!; [kret|done|by rewrite Hr|done].
Qed.

(** * Typing *)

Definition put (x : Z) (c : consbuf) : consbuf :=
  c <| cs_buf ::= <[Z.to_nat (cs_e c mod INPUT_BUF_SIZE) := u8 x]> |> <| cs_e ::= (fun e => u32 (e + 1)) |>.
Definition commit_line (c : consbuf) : consbuf := c <| cs_w := cs_e c |>.

Section typing.
Context (c : consbuf) (Hok : cons_ok c) (x : Z) (Hroom : ready_n c + edit_n c < INPUT_BUF_SIZE).

Lemma put_slot k lo : (cs_e c mod INPUT_BUF_SIZE = (lo + k) mod INPUT_BUF_SIZE) ->
  Z.to_nat (cs_e c mod INPUT_BUF_SIZE) = slot INPUT_BUF_SIZE (lo + k).
Proof. intros E. unfold slot. by rewrite E. Qed.

Lemma put_edit_n : edit_n (put x c) = edit_n c + 1.
Proof using Hroom.
  pose proof (ready_n_nonneg c). pose proof (edit_n_nonneg c). unfold INPUT_BUF_SIZE in Hroom.
  apply (dist_hi 32 ltac:(lia) (cs_w c) (cs_e c) 1). fold (edit_n c). lia.
Qed.

Lemma put_editing : 0 <= x < 256 -> editing (put x c) = editing c ++ [x].
Proof using Hok Hroom.
  intros Hx. pose proof (ready_n_nonneg c). pose proof (edit_n_nonneg c). unfold editing at 1. rewrite put_edit_n.
  replace (Z.to_nat (edit_n c + 1)) with (S (Z.to_nat (edit_n c))) by lia. simpl. rewrite u8_small by done.
  rewrite (put_slot (Z.of_nat (Z.to_nat (edit_n c))) (cs_w c)).
  - apply ring_snoc; [done|apply Hok|lia].
  - rewrite Z2Nat.id by done. apply (dist_mod 32), buf_divides; done.
Qed.

Lemma put_ready : ready (put x c) = ready c.
Proof using Hok Hroom.
  pose proof (ready_n_nonneg c). pose proof (edit_n_nonneg c). unfold ready at 1. simpl.
  change (ready_n (put x c)) with (ready_n c).
  rewrite (put_slot (ready_n c + edit_n c) (cs_r c)).
  - apply ring_insert_out; [done|lia].
  - rewrite <- (total_n c Hok). apply (dist_mod 32), buf_divides; done.
Qed.

Lemma put_ok : 0 <= x < 256 -> x <> 10 -> cons_ok (put x c).
Proof using Hok Hroom.
  intros Hx Hne. split; simpl; [by rewrite length_insert; apply Hok|apply Hok|apply Hok|apply u32_range| |].
  - rewrite put_edit_n. change (ready_n (put x c)) with (ready_n c). lia.
  - rewrite put_editing by done. pose proof (co_line c Hok). set_solver.
Qed.

(** Finishing the line. *)
Lemma commit_total : ready_n (commit_line (put x c)) = ready_n c + edit_n c + 1.
Proof using Hok Hroom.
  pose proof (ready_n_nonneg c). pose proof (edit_n_nonneg c). unfold INPUT_BUF_SIZE in Hroom.
  pose proof (total_n c Hok) as Ht. rewrite <- Ht. apply (dist_hi 32 ltac:(lia) (cs_r c) (cs_e c) 1). lia.
Qed.

Lemma commit_edit_n : edit_n (commit_line (put x c)) = 0.
Proof. unfold edit_n, dist. simpl. by rewrite Z.sub_diag. Qed.

Lemma commit_editing : editing (commit_line (put x c)) = [].
Proof. apply nil_length_inv. by rewrite length_editing, commit_edit_n. Qed.

Lemma commit_ready : 0 <= x < 256 -> ready (commit_line (put x c)) = ready c ++ editing c ++ [x].
Proof using Hok Hroom.
  intros Hx. pose proof (ready_n_nonneg c). pose proof (edit_n_nonneg c).
  rewrite <- put_editing, <- put_ready by done. unfold ready at 1. rewrite commit_total.
  replace (Z.to_nat (ready_n c + edit_n c + 1)) with (Z.to_nat (ready_n c) + Z.to_nat (edit_n c + 1))%nat by lia.
  rewrite ring_app. f_equal. unfold editing. rewrite put_edit_n. apply ring_congr; [done|]. simpl.
  symmetry. rewrite Z2Nat.id by done. apply (dist_mod 32), buf_divides; done.
Qed.

Lemma commit_ok : cons_ok (commit_line (put x c)).
Proof using Hok Hroom.
  split; simpl; [by rewrite length_insert; apply Hok|apply Hok|apply u32_range|apply u32_range| |].
  - rewrite commit_total, commit_edit_n. lia.
  - rewrite commit_editing. apply not_elem_of_nil.
Qed.
End typing.

(** * Listing processes *)

(** Process ids are ints. *)
Definition pids_ok (s : kst) : Prop := Forall (fun p => - 2 ^ 31 <= p_pid p < 2 ^ 31) (k_procs s).

Lemma printf_d f rest v ap :
  printf_loop (S f) (37 :: 100 :: rest) (VInt v :: ap) = (printint v 10 true;; printf_loop f rest ap).
Proof. reflexivity. Qed.
Lemma printf_s f rest str ap :
  printf_loop (S f) (37 :: 115 :: rest) (VStr (Some str) :: ap) = (forK str consputc;; printf_loop f rest ap).
Proof. reflexivity. Qed.
Lemma printf_c f c rest ap :
  c <> 37 -> printf_loop (S f) (c :: rest) ap = (consputc c;; printf_loop f rest ap).
Proof. intros H. cbn [printf_loop]. by rewrite (proj2 (Z.eqb_neq c 37) H). Qed.

Lemma procdump_line pid st name w :
  - 2 ^ 31 <= pid < 2 ^ 31 ->
  prints (printf_loop (S (length (chars "%d %s %s"))) (chars "%d %s %s") [VInt pid; VStr (Some st); VStr (Some name)]) w.
Proof.
  intros Hp. change (chars "%d %s %s") with [37; 100; 32; 37; 115; 32; 37; 115]. cbn [length].
  rewrite printf_d. apply prints_bind; [apply prints_int; [by left|lia]|intros u1].
  rewrite printf_c by done. apply prints_bind; [apply prints_putc|intros u2].
  rewrite printf_s. apply prints_bind; [apply prints_forK; intros; apply prints_putc|intros u3].
  rewrite printf_c by done. apply prints_bind; [apply prints_putc|intros u4].
  rewrite printf_s. apply prints_bind; [apply prints_forK; intros; apply prints_putc|intros u5].
  apply prints_ret.
Qed.

Lemma newline_line w : prints (printf_loop (S (length [10])) [10] []) w.
Proof.
  cbn [length]. rewrite printf_c by done. apply prints_bind; [apply prints_putc|intros u]. apply prints_ret.
Qed.

Lemma procdump_loop l : forall s e,
  LPr ∉ k_held s -> pids_ok s -> Forall (fun i => (i < length (k_procs s))%nat) l ->
  prints (forK l (fun i =>
    p ← getp i;
    when (negb (bool_decide (p_state p = UNUSED)))
      (printf (chars "%d %s %s") [VInt (p_pid p); VStr (Some (chars (state_name (p_state p)))); VStr (Some (cstr (p_name p)))];;
       printf [10] [];;
       mret tt))) (mkW s e).
Proof.
  induction l as [|i l IH]; intros s e Hh Hp Hl; cbn [forK]; [apply prints_ret|].
  apply Forall_cons in Hl as [Hi Hl]. destruct (lookup_lt_is_Some_2 _ _ Hi) as [p Ep].
  apply prints_bind; [|intros u; by apply IH].
  unfold getp. unfold prints. setoid_rewrite bind_assoc. setoid_rewrite bind_gets. setoid_rewrite bind_the; [|exact Ep].
  change (prints (when (negb (bool_decide (p_state p = UNUSED)))
      (printf (chars "%d %s %s") [VInt (p_pid p); VStr (Some (chars (state_name (p_state p)))); VStr (Some (cstr (p_name p)))];;
       printf [10] [];; mret tt)) (mkW s e)).
  destruct (negb _); [|apply prints_ret].
  destruct (prints_printf (chars "%d %s %s") [VInt (p_pid p); VStr (Some (chars (state_name (p_state p)))); VStr (Some (cstr (p_name p)))]
    (mkW s e) Hh) as [u1 E1].
  { intros w. apply procdump_line. unfold pids_ok in Hp. rewrite Forall_forall in Hp. apply Hp. by eapply list_elem_of_lookup_2. }
  pose (s1 := s <| k_uart := u1 |>).
  destruct (prints_printf [10] [] (mkW s1 e) Hh newline_line) as [u2 E2].
  cbn [wk wenv] in E1, E2. exists u2. unfold when. rewrite (bind_ok _ _ _ _ _ E1). fold s1.
  rewrite (bind_ok _ _ _ _ _ E2). reflexivity.
Qed.

Lemma procdump_prints s e :
  LPr ∉ k_held s -> pids_ok s -> table_ok s -> prints procdump (mkW s e).
Proof.
  intros Hh Hp Ht. unfold procdump.
  destruct (prints_printf [10] [] (mkW s e) Hh newline_line) as [u E].
  cbn [wk wenv] in E. destruct (procdump_loop procs (s <| k_uart := u |>) e) as [u' E']; [done|done| |].
  - apply Forall_forall. intros i Hi. simpl. rewrite Ht. unfold procs in Hi. apply elem_of_seq in Hi. lia.
  - exists u'. rewrite (bind_ok _ _ _ _ _ E). rewrite E'. reflexivity.
Qed.

(** * The interrupt handler *)

(** What the handler relies on: its locks are free, the tables are sound. *)
Record cons_env (s : kst) : Prop := {
  ce_ok : cons_ok (k_cons s);
  ce_cons : LCons ∉ k_held s;
  ce_pr : LPr ∉ k_held s;
  ce_plocks : plocks_free s;
  ce_table : table_ok s;
  ce_pids : pids_ok s;
}.

(** The state after a key: new input buffer and output, readers woken if a line
    was finished. *)
Definition after_key (s : kst) (c : consbuf) (u : uart) (woken : bool) : kst :=
  s <| k_cons := c |> <| k_uart := u |> <| k_procs ::= if woken then wake (Some ChCons) (k_cur s) else id |>.

(** The part of consoleintr that stores a character. *)
Lemma store_char x s e :
  cons_ok (k_cons s) -> plocks_free s -> table_ok s -> 0 <= x < 256 ->
  room (view (k_cons s)) ->
  exists c, (setcons (fun cb => cb <| cs_buf ::= <[Z.to_nat (cs_e cb mod INPUT_BUF_SIZE) := u8 x]> |>
                                   <| cs_e ::= (fun e => u32 (e + 1)) |>);;
             cb ← getcons;
             when ((x =? 10) || (x =? 4) || (u32 (cs_e cb - cs_r cb) =? INPUT_BUF_SIZE))
               (setcons (fun cb => cb <| cs_w := cs_e cb |>);;
                wakeup (Some ChCons))) (mkW s e) =
      Ok tt (mkW (after_key s c (k_uart s) (finishes x (view (k_cons s)))) e) /\
    cons_ok c /\
    view c = (let l := view (k_cons s) in
              if finishes x l then mkLine (l_ready l ++ l_edit l ++ [x]) [] else mkLine (l_ready l) (l_edit l ++ [x])).
Proof.
  intros Hok Hpf Ht Hx Hr. unfold room in Hr. simpl in Hr. rewrite length_ready, length_editing in Hr.
  pose proof (ready_n_nonneg (k_cons s)). pose proof (edit_n_nonneg (k_cons s)).
  assert (Hroom : ready_n (k_cons s) + edit_n (k_cons s) < INPUT_BUF_SIZE) by (unfold INPUT_BUF_SIZE; lia).
  assert (Hfin : (x =? 10) || (x =? 4) || (u32 (cs_e (put x (k_cons s)) - cs_r (put x (k_cons s))) =? INPUT_BUF_SIZE)
                 = finishes x (view (k_cons s))).
  { unfold finishes. f_equal. simpl. rewrite length_ready, length_editing.
    change (u32 (u32 (cs_e (k_cons s) + 1) - cs_r (k_cons s))) with (ready_n (commit_line (put x (k_cons s)))).
    rewrite commit_total by done. unfold INPUT_BUF_SIZE.
    destruct (Z.eqb_spec (ready_n (k_cons s) + edit_n (k_cons s) + 1) 128); case_bool_decide; (done || lia). }
  unfold setcons, getcons. krun. cbn [wk wenv]. fold (put x). cbn [k_cons fset set_k_cons]. rewrite Hfin.
  destruct (finishes x (view (k_cons s))) eqn:Ef.
  - exists (commit_line (put x (k_cons s))). cbn [when]. krun. split_and!.
    + rewrite wakeup_eq by done. kret.
    + by apply commit_ok.
    + unfold view. simpl. by rewrite commit_ready, commit_editing.
  - exists (put x (k_cons s)). split_and!.
    + kret.
    + apply put_ok; [done|done|done|]. intros ->. done.
    + unfold view. simpl. by rewrite put_ready, put_editing.
Qed.

(** Acquiring the console's lock and releasing it around a body. *)
Lemma around_lock (m : K unit) s e c u woken :
  LCons ∉ k_held s ->
  m (mkW (s <| k_held ::= cons LCons |>) e) = Ok tt (mkW (after_key (s <| k_held ::= cons LCons |>) c u woken) e) ->
  (acquire LCons;; m;; release LCons) (mkW s e) = Ok tt (mkW (after_key s c u woken) e).
Proof.
  intros Hh E. rewrite bind_acquire by done. cbn [wk wenv]. rewrite (bind_ok _ _ _ _ _ E).
  rewrite release_ok by (simpl; set_solver). kret. by rewrite filter_cons_self.
Qed.

Lemma not_room c : cons_ok c -> (u32 (cs_e c - cs_r c) <? INPUT_BUF_SIZE) = bool_decide (room (view c)).
Proof.
  intros H. change (u32 (cs_e c - cs_r c)) with (dist 32 (cs_r c) (cs_e c)). rewrite total_n by done.
  unfold room. simpl. pose proof (ready_n_nonneg c). pose proof (edit_n_nonneg c).
  destruct (Z.ltb_spec (ready_n c + edit_n c) INPUT_BUF_SIZE); case_bool_decide as Hd; try done;
    rewrite length_ready, length_editing in Hd; unfold INPUT_BUF_SIZE in *; lia.
Qed.

(** A body run under the console's lock does to the input what the discipline
    says of key [k]. *)
Section body.
Context (s : kst) (e : list (kst -> kst)) (Henv : cons_env s).
Definition locked : kst := s <| k_held ::= cons LCons |>.
Definition handles (k : Z) (m : K unit) : Prop :=
  exists c u, let l := view (k_cons s) in
    m (mkW locked e) = Ok tt (mkW (after_key locked c u (bool_decide (l_ready (key k l) <> l_ready l))) e) /\
    cons_ok c /\ view c = key k l.

(** A key that leaves the finished input alone wakes nobody. *)
Lemma handles_quiet k m c u :
  m (mkW locked e) = Ok tt (mkW (after_key locked c u false) e) -> cons_ok c -> view c = key k (view (k_cons s)) ->
  ready c = ready (k_cons s) -> handles k m.
Proof.
  intros E Hc Hv Hr. exists c, u. cbv zeta. rewrite <- Hv. simpl.
  rewrite bool_decide_eq_false_2 by naive_solver. by rewrite E.
Qed.

Lemma handles_list : handles 16 procdump.
Proof using Henv.
  destruct Henv as [Hok Hh Hpr Hpf Ht Hpid]. assert (Hpr1 : LPr ∉ k_held locked) by (simpl; set_solver).
  destruct (procdump_prints locked e Hpr1 Hpid Ht) as [u E].
  apply (handles_quiet 16 _ (k_cons s) u); [rewrite E; kret|done..].
Qed.

Lemma handles_kill :
  handles 21 (cb ← getcons; kill_line (S (Z.to_nat (u32 (cs_e cb - cs_w cb))))).
Proof using Henv.
  destruct (kill_line_run (S (Z.to_nat (edit_n (k_cons s)))) locked e (ce_ok s Henv) ltac:(simpl; lia)) as (u & c & E & Hc & Hr & He).
  apply (handles_quiet 21 _ c u); [|done|unfold view, key; simpl; by rewrite Hr, He|done].
  unfold getcons. krun. cbn [wk wenv].
  change (u32 (cs_e (k_cons locked) - cs_w (k_cons locked))) with (edit_n (k_cons s)). rewrite E. kret.
Qed.

Lemma key_erase k l : (k =? 8) || (k =? 127) = true -> key k l = mkLine (l_ready l) (removelast (l_edit l)).
Proof.
  intros H. unfold key. rewrite H. apply orb_true_iff in H. rewrite !Z.eqb_eq in H. destruct H as [-> | ->]; done.
Qed.

Lemma handles_erase k :
  (k =? 8) || (k =? 127) = true ->
  handles k (cb ← getcons;
             when (negb (cs_e cb =? cs_w cb))
               (setcons (fun cb => cb <| cs_e ::= (fun e => u32 (e - 1)) |>);; consputc BACKSPACE)).
Proof using Henv.
  intros Hk. pose proof (ce_ok s Henv) as Hok. unfold getcons, setcons. pose proof (edit_n_nonneg (k_cons s)).
  destruct (decide (edit_n (k_cons s) = 0)) as [Hz|Hz].
  - assert (En : editing (k_cons s) = []) by (apply nil_length_inv; by rewrite length_editing, Hz).
    apply (handles_quiet k _ (k_cons s) (k_uart s)); [|done|rewrite key_erase by done; unfold view; simpl; by rewrite En|done].
    krun. cbn [wk wenv]. change (k_cons locked) with (k_cons s). rewrite editing_test, bool_decide_eq_true_2 by done. kret.
  - destruct (prints_putc BACKSPACE (mkW (locked <| k_cons ::= unput |>) e)) as [u E].
    apply (handles_quiet k _ (unput (k_cons s)) u); [|apply unput_ok; [done|lia]| |done].
    + krun. cbn [wk wenv]. change (k_cons locked) with (k_cons s). rewrite editing_test, bool_decide_eq_false_2 by done.
      cbn [negb when]. krun. fold unput. cbn [wk wenv] in *. rewrite E. kret.
    + rewrite key_erase by done. unfold view. simpl. by rewrite unput_editing by lia.
Qed.

Lemma key_char k l :
  k <> 16 -> k <> 21 -> (k =? 8) || (k =? 127) = false ->
  key k l = (if negb (k =? 0) && bool_decide (room l) then
    let c := if k =? 13 then 10 else k in
    if finishes c l then mkLine (l_ready l ++ l_edit l ++ [c]) [] else mkLine (l_ready l) (l_edit l ++ [c])
    else l).
Proof. intros H1 H2 H3. unfold key. by rewrite (proj2 (Z.eqb_neq _ _) H1), (proj2 (Z.eqb_neq _ _) H2), H3. Qed.

Lemma handles_char k :
  k <> 16 -> k <> 21 -> (k =? 8) || (k =? 127) = false -> 0 <= k < 256 ->
  handles k (cb ← getcons;
     when (negb (k =? 0) && (u32 (cs_e cb - cs_r cb) <? INPUT_BUF_SIZE))
       (let c := if k =? 13 then 10 else k in
        consputc c;;
        setcons (fun cb => cb <| cs_buf ::= <[Z.to_nat (cs_e cb mod INPUT_BUF_SIZE) := u8 c]> |>
                              <| cs_e ::= (fun e => u32 (e + 1)) |>);;
        cb ← getcons;
        when ((c =? 10) || (c =? 4) || (u32 (cs_e cb - cs_r cb) =? INPUT_BUF_SIZE))
          (setcons (fun cb => cb <| cs_w := cs_e cb |>);;
           wakeup (Some ChCons)))).
Proof using Henv.
  intros H1 H2 H3 Hk. pose proof (key_char k (view (k_cons s)) H1 H2 H3) as Ekey.
  destruct Henv as [Hok Hh Hpr Hpf Ht Hpid].
  assert (Hpf1 : plocks_free locked) by (intros i Hi; apply elem_of_cons in Hi as [|]; [done|by apply Hpf]).
  destruct (negb (k =? 0) && bool_decide (room (view (k_cons s)))) eqn:Er.
  2: { apply (handles_quiet k _ (k_cons s) (k_uart s)); [|done..].
       unfold getcons. krun. cbn [wk wenv]. change (k_cons locked) with (k_cons s). rewrite not_room, Er by done. kret. }
  apply andb_true_iff in Er as [Ek Er]. apply bool_decide_eq_true in Er.
  set (x := if k =? 13 then 10 else k) in *. assert (Hx : 0 <= x < 256) by (unfold x; destruct (k =? 13); lia).
  destruct (prints_putc x (mkW locked e)) as [u E]. cbn [wk wenv] in E. pose (s2 := locked <| k_uart := u |>).
  destruct (store_char x s2 e Hok Hpf1 Ht Hx Er) as (c & E' & Hc & Ev).
  exists c, u. cbv zeta in *. rewrite Ekey. split_and!; [|done|done].
  replace (bool_decide (l_ready _ <> _)) with (finishes x (view (k_cons s))).
  - unfold getcons in E' |- *. rewrite bind_gets. cbn [wk wenv]. change (k_cons locked) with (k_cons s).
    rewrite not_room, Ek, (bool_decide_eq_true_2 (room _)) by done. cbn [andb when].
    rewrite (bind_ok _ _ _ _ _ E). fold s2. rewrite E'. kret.
  - destruct (finishes x (view (k_cons s))); simpl; symmetry.
    + apply bool_decide_eq_true_2. intros Heq. apply (f_equal length) in Heq. rewrite !length_app in Heq. simpl in Heq. lia.
    + apply bool_decide_eq_false_2. naive_solver.
Qed.
End body.

(** C15: The console's interrupt handler implements a line discipline.  For every
    key it keeps the input buffer well formed, whatever the values of its
    wrapping indices, and changes the finished input and the line being edited as
    the discipline says: ^U erases the line, backspace and delete its last
    character, any other key is appended (carriage return as newline) while there
    is room, and newline, ^D or a full buffer finish the line and wake the
    readers; nothing but that, the echo and, for ^P, the process list happens. *)
Theorem consoleintr_discipline k s e :
  cons_env s -> 0 <= k < 256 ->
  exists c u, let l := view (k_cons s) in
    consoleintr k (mkW s e) = Ok tt (mkW (after_key s c u (bool_decide (l_ready (key k l) <> l_ready l))) e) /\
    cons_ok c /\ view c = key k l.
Proof.
  intros H Hk. unfold consoleintr.
  match goal with |- context [(?m;; release LCons)] => assert (handles s e k m) as (c & u & E & Hc & Hv) end.
  { destruct (Z.eqb_spec k 16) as [->|H16]; [by apply handles_list|].
    destruct (Z.eqb_spec k 21) as [->|H21]; [by apply handles_kill|].
    destruct ((k =? 8) || (k =? 0x7f)) eqn:Ebs; [by apply handles_erase|by apply handles_char]. }
  exists c, u. cbv zeta in *. split_and!; [|done|done]. by apply around_lock; [apply H|].
Qed.

Lemma empty_cons_ok n : 0 <= n < 2 ^ 32 -> cons_ok (mkCons (replicate 128 0) n n n).
Proof.
  intros Hn. assert (E : dist 32 n n = 0) by (unfold dist; by rewrite Z.sub_diag).
  split; try done; unfold ready_n, edit_n, editing; simpl; [by rewrite E|].
  unfold edit_n. simpl. rewrite E. apply not_elem_of_nil.
Qed.

Definition demo_cons : kst :=
  demo_sched <| k_cons := mkCons (replicate 128 0) (2 ^ 32 - 1) (2 ^ 32 - 1) (2 ^ 32 - 1) |>.

Lemma consoleintr_discipline_witness :
  exists c u, consoleintr 97 (mkW demo_cons []) = Ok tt (mkW (after_key demo_cons c u false) []) /\
    cons_ok c /\ view c = mkLine [] [97].
Proof.
  destruct (consoleintr_discipline 97 demo_cons []) as (c & u & E & Hc & Hv).
  - split; try (simpl; apply not_elem_of_nil); try reflexivity.
    + by apply empty_cons_ok.
    + intros i Hi. by apply elem_of_nil in Hi.
    + unfold pids_ok. change (k_procs demo_cons) with demo_procs. apply Forall_cons. split; [simpl; lia|].
      apply Forall_replicate. simpl. lia.
  - lia.
  - exists c, u. split; [exact E|]. split; [exact Hc|]. rewrite Hv. by vm_compute.
Defined.
