(* ===== verification/File.v ===== *)
(** kernel/file.c: open files, and pipealloc of kernel/pipe.c. *)

From S2P Require Import Prelude Riscv Bytes State Kalloc Vm Sched Sleeplock Bio Log Fs Pipe Console.

Definition getf (f : nat) : K file := t ← gets k_ftable; the (t !! f).
Definition setf (f : nat) (g : file -> file) : K unit :=
  modify (fun s => s <| k_ftable ::= alter g f |>).

(** struct file* filealloc(void) *)
Fixpoint filealloc_loop (l : list nat) : K (option nat) :=
  match l with
  | [] => release LFtable;; mret None
  | f :: l' =>
      x ← getf f;
      if f_ref x =? 0 then
        setf f (fun x => x <| f_ref := 1 |>);;
        release LFtable;;
        mret (Some f)
      else filealloc_loop l'
  end.
Definition filealloc : K (option nat) :=
  acquire LFtable;; filealloc_loop (seq 0 (Z.to_nat NFILE)).

(** struct file* filedup(struct file *f) *)
Definition filedup (f : nat) : K nat :=
  acquire LFtable;;
  x ← getf f;
  when (f_ref x <? 1) (panic "filedup");;
  setf f (fun x => x <| f_ref ::= Z.succ |>);;
  release LFtable;;
  mret f.

(** void fileclose(struct file *f) *)
Definition fileclose (f : nat) : K unit :=
  acquire LFtable;;
  x ← getf f;
  when (f_ref x <? 1) (panic "fileclose");;
  setf f (fun x => x <| f_ref ::= Z.pred |>);;
  ff ← getf f;
  if f_ref ff >? 0 then release LFtable
  else
    setf f (fun x => x <| f_ref := 0 |>);;
    setf f (fun x => x <| f_type := FD_NONE |>);;
    release LFtable;;
    match f_type ff with
    | FD_PIPE => pipeclose (f_pipe ff) (negb (f_writable ff =? 0))
    | FD_INODE | FD_DEVICE =>
        begin_op;;
        ip ← the (f_ip ff);
        iput ip;;
        end_op
    | FD_NONE => mret tt
    end.

(** struct stat as bytes: int dev, uint ino, short type, short nlink, 4 bytes of
    padding, uint64 size.  The padding is what the kernel stack holds. *)
Definition stat_bytes (pad : list Z) (st : stat) : list Z :=
  enc 4 (st_dev st) ++ enc 4 (st_ino st) ++ enc 2 (st_type st) ++ enc 2 (st_nlink st) ++ pad ++ enc 8 (st_size st).

(** int filestat(struct file *f, uint64 addr) *)
Definition filestat (pad : list Z) (f : nat) (addr : Z) : K Z :=
  me ← myproc;
  p ← the me;
  x ← getf f;
  if bool_decide (f_type x = FD_INODE \/ f_type x = FD_DEVICE) then
    ilock (f_ip x);;
    ip ← the (f_ip x);
    st ← stati ip;
    iunlock (f_ip x);;
    pr ← getp p;
    r ← copyout (p_pagetable pr) addr (stat_bytes pad st);
    mret (if r <? 0 then -1 else 0)
  else mret (-1).

(** The test of a device file's major number against devsw. *)
Definition dev_ok (major : Z) : K bool :=
  sw ← gets k_devsw;
  mret (negb ((major <? 0) || (major >=? NDEV)) && default false (sw !! Z.to_nat major)).

(** int fileread(struct file *f, uint64 addr, int n) *)
Definition fileread (f : nat) (addr n : Z) : K Z :=
  x ← getf f;
  if f_readable x =? 0 then mret (-1)
  else
    match f_type x with
    | FD_PIPE => piperead (f_pipe x) addr n
    | FD_DEVICE =>
        ok ← dev_ok (f_major x);
        if negb ok then mret (-1) else '(r, _) ← consoleread (DUser addr) n; mret r
    | FD_INODE =>
        ilock (f_ip x);;
        ip ← the (f_ip x);
        x ← getf f;
        '(r, _) ← readi ip (DUser addr) (f_off x) (u32 n);
        when (r >? 0) (setf f (fun x => x <| f_off ::= (fun o => u32 (o + r)) |>));;
        iunlock (f_ip x);;
        mret r
    | FD_NONE => panic "fileread"
    end.

(** The loop of filewrite over an inode: a few blocks per transaction. *)
Definition filewrite_max : Z := ((MAXOPBLOCKS - 1 - 1 - 2) / 2) * BSIZE.
Fixpoint filewrite_loop (fuel : nat) (f : nat) (addr n i : Z) : K Z :=
  match fuel with
  | O => diverge
  | S fuel' =>
      if i <? n then
        let n1 := if n - i >? filewrite_max then filewrite_max else n - i in
        begin_op;;
        x ← getf f;
        ilock (f_ip x);;
        ip ← the (f_ip x);
        x ← getf f;
        r ← writei ip (SUser (u64 (addr + i))) (f_off x) n1;
        when (r >? 0) (setf f (fun x => x <| f_off ::= (fun o => u32 (o + r)) |>));;
        iunlock (f_ip x);;
        end_op;;
        if negb (r =? n1) then mret i else filewrite_loop fuel' f addr n (i + r)
      else mret i
  end.

(** int filewrite(struct file *f, uint64 addr, int n) *)
Definition filewrite (f : nat) (addr n : Z) : K Z :=
  x ← getf f;
  if f_writable x =? 0 then mret (-1)
  else
    match f_type x with
    | FD_PIPE => pipewrite (f_pipe x) addr n
    | FD_DEVICE =>
        ok ← dev_ok (f_major x);
        if negb ok then mret (-1) else consolewrite (SUser addr) n
    | FD_INODE =>
        i ← filewrite_loop (S (Z.to_nat n)) f addr n 0;
        mret (if i =? n then n else -1)
    | FD_NONE => panic "filewrite"
    end.

(** int pipealloc(struct file **f0, struct file **f1): the two files on success *)
Definition pipealloc : K (option (nat * nat)) :=
  f0 ← filealloc;
  match f0 with
  | None => mret None
  | Some f0 =>
      f1 ← filealloc;
      match f1 with
      | None => fileclose f0;; mret None
      | Some f1 =>
          pa ← kalloc;
          if pa =? 0 then fileclose f0;; fileclose f1;; mret None
          else
            data ← gets (fun s => Memory.mbytes (Z.to_nat PIPESIZE) (pa + 24) (k_mem s));
            modify (fun s => s <| k_pipes ::= <[pa := mkPipe data 0 0 1 1]> |>);;
            setf f0 (fun x => x <| f_type := FD_PIPE |> <| f_readable := 1 |> <| f_writable := 0 |> <| f_pipe := pa |>);;
            setf f1 (fun x => x <| f_type := FD_PIPE |> <| f_readable := 0 |> <| f_writable := 1 |> <| f_pipe := pa |>);;
            mret (Some (f0, f1))
      end
  end.
