(* ===== verification/Proc.v ===== *)
(** kernel/proc.c, the life of a process: procinit, allocproc, freeproc,
    userinit, growproc, fork, exit, wait, and the scheduler's round.  The part
    that blocks and wakes threads is Sched.v. *)

From S2P Require Import Prelude Riscv Memory CString Bytes State Kalloc Vm Sched Sleeplock Bio Log Printf Fs Dir File.

(** * Trap frames

    struct trapframe (proc.h) as the offsets of its fields in the page
    p->trapframe points to. *)

Definition TF_kernel_satp : Z := 0.
Definition TF_kernel_sp : Z := 8.
Definition TF_kernel_trap : Z := 16.
Definition TF_epc : Z := 24.
Definition TF_kernel_hartid : Z := 32.
Definition TF_ra : Z := 40.
Definition TF_sp : Z := 48.
Definition TF_gp : Z := 56.
Definition TF_tp : Z := 64.
Definition TF_t (i : Z) : Z := if i <? 3 then 72 + 8 * i else 256 + 8 * (i - 3).
Definition TF_s (i : Z) : Z := if i <? 2 then 96 + 8 * i else 176 + 8 * (i - 2).
Definition TF_a (i : Z) : Z := 112 + 8 * i.
Definition sizeof_trapframe : Z := 288.

(** p->trapframe->f, read and assigned *)
Definition tf_get (p : nat) (f : Z) : K Z := pr ← getp p; rd64 (p_trapframe pr + f).
Definition tf_set (p : nat) (f v : Z) : K unit := pr ← getp p; wr64 (p_trapframe pr + f) v.

(** * The process table *)

(** void procinit(void) *)
Definition procinit : K unit :=
  forK procs (fun i =>
    setp i (fun p => p <| p_state := UNUSED |>);;
    setp i (fun p => p <| p_kstack := KSTACK (Z.of_nat i) |>)).

(** pagetable_t proc_pagetable(struct proc *p) *)
Definition proc_pagetable (p : nat) : K Z :=
  pagetable ← uvmcreate;
  if pagetable =? 0 then mret 0
  else
    tramp ← gets k_trampoline;
    r ← mappages pagetable TRAMPOLINE PGSIZE tramp (Z.lor PTE_R PTE_X);
    if r <? 0 then uvmfree pagetable 0;; mret 0
    else
      pr ← getp p;
      r ← mappages pagetable TRAPFRAME PGSIZE (p_trapframe pr) (Z.lor PTE_R PTE_W);
      if r <? 0 then
        uvmunmap pagetable TRAMPOLINE 1 false;;
        uvmfree pagetable 0;;
        mret 0
      else mret pagetable.

(** void proc_freepagetable(pagetable_t pagetable, uint64 sz) *)
Definition proc_freepagetable (pagetable sz : Z) : K unit :=
  uvmunmap pagetable TRAMPOLINE 1 false;;
  uvmunmap pagetable TRAPFRAME 1 false;;
  uvmfree pagetable sz.

(** static void freeproc(struct proc *p) *)
Definition freeproc (p : nat) : K unit :=
  pr ← getp p;
  when (negb (p_trapframe pr =? 0)) (kfree (p_trapframe pr));;
  setp p (fun pr => pr <| p_trapframe := 0 |>);;
  pr ← getp p;
  when (negb (p_pagetable pr =? 0)) (proc_freepagetable (p_pagetable pr) (p_sz pr));;
  setp p (fun pr => pr <| p_pagetable := 0 |> <| p_sz := 0 |> <| p_pid := 0 |> <| p_parent := None |>
                       <| p_name ::= <[0%nat := 0]> |> <| p_chan := None |> <| p_killed := 0 |>
                       <| p_xstate := 0 |> <| p_state := UNUSED |>).

(** static struct proc* allocproc(void): the code at [found], and the search *)
Definition allocproc_found (p : nat) : K (option nat) :=
  pid ← allocpid;
  setp p (fun pr => pr <| p_pid := pid |>);;
  setp p (fun pr => pr <| p_state := USED |>);;
  tf ← kalloc;
  setp p (fun pr => pr <| p_trapframe := tf |>);;
  if tf =? 0 then
    freeproc p;;
    release (LProc p);;
    mret None
  else
    pagetable ← proc_pagetable p;
    setp p (fun pr => pr <| p_pagetable := pagetable |>);;
    if pagetable =? 0 then
      freeproc p;;
      release (LProc p);;
      mret None
    else
      forkret ← gets (fun s => sym_forkret (k_sym s));
      setp p (fun pr => pr <| p_context := zero_context |>);;
      setp p (fun pr => pr <| p_context ::= (fun c => c <| c_ra := forkret |>) |>);;
      setp p (fun pr => pr <| p_context ::= (fun c => c <| c_sp := u64 (p_kstack pr + PGSIZE) |>) |>);;
      mret (Some p).
Fixpoint allocproc_loop (l : list nat) : K (option nat) :=
  match l with
  | [] => mret None
  | p :: l' =>
      acquire (LProc p);;
      pr ← getp p;
      if decide (p_state pr = UNUSED) then allocproc_found p
      else release (LProc p);; allocproc_loop l'
  end.
Definition allocproc : K (option nat) := allocproc_loop procs.

(** uchar initcode[] *)
Definition initcode : list Z := [
  0x17; 0x05; 0x00; 0x00; 0x13; 0x05; 0x45; 0x02;
  0x97; 0x05; 0x00; 0x00; 0x93; 0x85; 0x35; 0x02;
  0x93; 0x08; 0x70; 0x00; 0x73; 0x00; 0x00; 0x00;
  0x93; 0x08; 0x20; 0x00; 0x73; 0x00; 0x00; 0x00;
  0xef; 0xf0; 0x9f; 0xff; 0x2f; 0x69; 0x6e; 0x69;
  0x74; 0x00; 0x00; 0x24; 0x00; 0x00; 0x00; 0x00;
  0x00; 0x00; 0x00; 0x00
].

(** void userinit(void) *)
Definition userinit : K unit :=
  r ← allocproc;
  modify (fun s => s <| k_initproc := r |>);;
  p ← the r;
  pr ← getp p;
  uvmfirst (p_pagetable pr) initcode;;
  setp p (fun pr => pr <| p_sz := PGSIZE |>);;
  tf_set p TF_epc 0;;
  tf_set p TF_sp PGSIZE;;
  setp p (fun pr => pr <| p_name ::= (fun n => safestrcpy n (chars "initcode") 16) |>);;
  cwd ← namei (chars "/");
  setp p (fun pr => pr <| p_cwd := cwd |>);;
  setp p (fun pr => pr <| p_state := RUNNABLE |>);;
  release (LProc p).

(** int growproc(int n) *)
Definition growproc (n : Z) : K Z :=
  me ← myproc;
  p ← the me;
  pr ← getp p;
  let sz := p_sz pr in
  if n >? 0 then
    sz ← uvmalloc (p_pagetable pr) sz (u64 (sz + n)) PTE_W;
    if sz =? 0 then mret (-1)
    else setp p (fun pr => pr <| p_sz := sz |>);; mret 0
  else if n <? 0 then
    sz ← uvmdealloc (p_pagetable pr) sz (u64 (sz + n));
    setp p (fun pr => pr <| p_sz := sz |>);; mret 0
  else setp p (fun pr => pr <| p_sz := sz |>);; mret 0.

(** *(np->trapframe) = *(p->trapframe) *)
Definition copy_trapframe (np p : nat) : K unit :=
  forK (seq 0 (Z.to_nat (sizeof_trapframe / 8))) (fun k =>
    v ← tf_get p (8 * Z.of_nat k);
    tf_set np (8 * Z.of_nat k) v).

(** The loop of fork over the open files. *)
Definition dup_ofiles (np p : nat) : K unit :=
  forK (seq 0 (Z.to_nat NOFILE)) (fun i =>
    pr ← getp p;
    f ← the (p_ofile pr !! i);
    match f with
    | None => mret tt
    | Some f =>
        f' ← filedup f;
        setp np (fun q => q <| p_ofile ::= <[i := Some f']> |>)
    end).

(** int fork(void) *)
Definition fork : K Z :=
  me ← myproc;
  p ← the me;
  r ← allocproc;
  match r with
  | None => mret (-1)
  | Some np =>
      pr ← getp p;
      q ← getp np;
      r ← uvmcopy (p_pagetable pr) (p_pagetable q) (p_sz pr);
      if r <? 0 then
        freeproc np;;
        release (LProc np);;
        mret (-1)
      else
        setp np (fun q => q <| p_sz := p_sz pr |>);;
        copy_trapframe np p;;
        tf_set np (TF_a 0) 0;;
        dup_ofiles np p;;
        pr ← getp p;
        cwd ← the (p_cwd pr);
        cwd ← idup cwd;
        setp np (fun q => q <| p_cwd := Some cwd |>);;
        setp np (fun q => q <| p_name ::= (fun n => safestrcpy n (p_name pr) 16) |>);;
        q ← getp np;
        let pid := p_pid q in
        release (LProc np);;
        acquire LWait;;
        setp np (fun q => q <| p_parent := Some p |>);;
        release LWait;;
        acquire (LProc np);;
        setp np (fun q => q <| p_state := RUNNABLE |>);;
        release (LProc np);;
        mret pid
  end.

(** void reparent(struct proc *p) *)
Definition reparent (p : nat) : K unit :=
  forK procs (fun pp =>
    q ← getp pp;
    when (bool_decide (p_parent q = Some p))
      (init ← gets k_initproc;
       setp pp (fun q => q <| p_parent := init |>);;
       wakeup (ChProc <$> init))).

(** The loop of exit over the open files. *)
Definition close_ofiles (p : nat) : K unit :=
  forK (seq 0 (Z.to_nat NOFILE)) (fun fd =>
    pr ← getp p;
    f ← the (p_ofile pr !! fd);
    match f with
    | None => mret tt
    | Some f => fileclose f;; setp p (fun pr => pr <| p_ofile ::= <[fd := None]> |>)
    end).

(** The last call of sched by a thread.  freeproc ends its process, and a
    process that reuses the slot starts at forkret with a new context, so
    nothing the other threads do resumes this one. *)
Definition sched_last : K unit := fun w => sched (mkW (wk w) []).

(** void exit(int status) *)
Definition exit (status : Z) : K unit :=
  me ← myproc;
  p ← the me;
  init ← gets k_initproc;
  when (bool_decide (me = init)) (panic "init exiting");;
  close_ofiles p;;
  begin_op;;
  pr ← getp p;
  cwd ← the (p_cwd pr);
  iput cwd;;
  end_op;;
  setp p (fun pr => pr <| p_cwd := None |>);;
  acquire LWait;;
  reparent p;;
  pr ← getp p;
  wakeup (ChProc <$> p_parent pr);;
  acquire (LProc p);;
  setp p (fun pr => pr <| p_xstate := status |>);;
  setp p (fun pr => pr <| p_state := ZOMBIE |>);;
  release LWait;;
  sched_last;;
  panic "zombie exit".

(** The scan of wait over the process table: the value to return, or whether
    there are children. *)
Fixpoint wait_scan (l : list nat) (p : nat) (addr : Z) (havekids : bool) : K (Z + bool) :=
  match l with
  | [] => mret (inr havekids)
  | pp :: l' =>
      q ← getp pp;
      if decide (p_parent q = Some p) then
        acquire (LProc pp);;
        q ← getp pp;
        if decide (p_state q = ZOMBIE) then
          let pid := p_pid q in
          pr ← getp p;
          r ← (if negb (addr =? 0) then copyout (p_pagetable pr) addr (enc 4 (p_xstate q)) else mret 0);
          if r <? 0 then
            release (LProc pp);;
            release LWait;;
            mret (inl (-1))
          else
            freeproc pp;;
            release (LProc pp);;
            release LWait;;
            mret (inl pid)
        else
          release (LProc pp);;
          wait_scan l' p addr true
      else wait_scan l' p addr havekids
  end.

(** int wait(uint64 addr) *)
Fixpoint wait_loop (fuel : nat) (p : nat) (addr : Z) : K Z :=
  match fuel with
  | O => diverge
  | S fuel' =>
      r ← wait_scan procs p addr false;
      match r with
      | inl v => mret v
      | inr havekids =>
          stop ← (if negb havekids then mret true else k ← killed p; mret (negb (k =? 0)));
          if stop : bool then
            release LWait;;
            mret (-1)
          else
            sleep (ChProc p) LWait;;
            wait_loop fuel' p addr
      end
  end.
Definition wait (addr : Z) : K Z :=
  me ← myproc;
  p ← the me;
  acquire LWait;;
  ((fun w => wait_loop (S (length (wenv w))) p addr w) : K Z).

(** swtch to process p: [run p] is what it and the other harts do until it switches
    back, its lock held; a process that never gives the CPU back leaves the scheduler
    waiting. *)
Definition swtch_to (run : nat -> kst -> option kst) (p : nat) : K unit :=
  fun w => match run p (wk w) with Some s => Ok tt (mkW s (wenv w)) | None => Asleep w end.

(** One round of the loop of scheduler over the process table; [others p] is what the
    other harts do until this one has the lock of p.  The result is [found]. *)
Fixpoint scheduler_round (others : nat -> kst -> kst) (run : nat -> kst -> option kst) (l : list nat) (found : bool) : K bool :=
  match l with
  | [] => mret found
  | p :: l' =>
      modify (others p);;
      acquire (LProc p);;
      pr ← getp p;
      if decide (p_state pr = RUNNABLE) then
        setp p (fun pr => pr <| p_state := RUNNING |>);;
        modify (fun s => s <| k_cur := Some p |>);;
        swtch_to run p;;
        modify (fun s => s <| k_cur := None |>);;
        release (LProc p);;
        scheduler_round others run l' true
      else
        release (LProc p);;
        scheduler_round others run l' found
  end.

(** void scheduler(void), its first round; [intr] is what the interrupts do that
    are taken between intr_on and intr_off.  wfi only waits. *)
Definition scheduler (intr : kst -> kst) (others : nat -> kst -> kst) (run : nat -> kst -> option kst) : K bool :=
  modify (fun s => s <| k_cur := None |>);;
  intr_on;;
  modify intr;;
  intr_off;;
  scheduler_round others run procs false.
