(* ===== verification/Args.v ===== *)
(** kernel/syscall.c, how a system call fetches its arguments. *)

From S2P Require Import Prelude Riscv CString Bytes State Vm Sched Console Proc.

(** int fetchaddr(uint64 addr, uint64 *ip): None for -1 *)
Definition fetchaddr (addr : Z) : K (option Z) :=
  me ← myproc;
  p ← the me;
  pr ← getp p;
  if (addr >=? p_sz pr) || (u64 (addr + 8) >? p_sz pr) then mret None
  else
    '(r, bs) ← copyin (p_pagetable pr) addr 8;
    mret (if negb (r =? 0) then None else Some (dec bs)).

(** int fetchstr(uint64 addr, char *buf, int max): the result and what is
    stored in [buf] *)
Definition fetchstr (addr max : Z) : K (Z * list Z) :=
  me ← myproc;
  p ← the me;
  pr ← getp p;
  '(r, buf) ← copyinstr (p_pagetable pr) addr max;
  mret (if r <? 0 then -1 else strlen buf, buf).

(** static uint64 argraw(int n) *)
Definition argraw (n : Z) : K Z :=
  me ← myproc;
  p ← the me;
  if (0 <=? n) && (n <? 6) then tf_get p (TF_a n) else panic "argraw".

(** void argint(int n, int *ip) *)
Definition argint (n : Z) : K Z := v ← argraw n; mret (i32 v).

(** void argaddr(int n, uint64 *ip) *)
Definition argaddr (n : Z) : K Z := argraw n.

(** int argstr(int n, char *buf, int max): the string, or None for -1 *)
Definition argstr (n max : Z) : K (option (list Z)) :=
  addr ← argaddr n;
  '(r, buf) ← fetchstr addr max;
  mret (if r <? 0 then None else Some (cstr buf)).
