(* ===== verification/Exec.v ===== *)
(** kernel/exec.c: replacing the user image of a process by a program. *)

From S2P Require Import Prelude Riscv Memory CString Bytes State Kalloc Vm Sched Log Fs Dir Console Proc.

Definition ELF_MAGIC : Z := 0x464C457F.
Definition ELF_PROG_LOAD : Z := 1.

(** struct elfhdr and struct proghdr (elf.h), as fields of their bytes *)
Definition sizeof_elfhdr : Z := 64.
Definition elf_magic (e : list Z) : Z := get 4 0 e.
Definition elf_entry (e : list Z) : Z := get 8 24 e.
Definition elf_phoff (e : list Z) : Z := get 8 32 e.
Definition elf_phnum (e : list Z) : Z := get 2 56 e.
Definition sizeof_proghdr : Z := 56.
Definition ph_type (h : list Z) : Z := get 4 0 h.
Definition ph_flags (h : list Z) : Z := get 4 4 h.
Definition ph_off (h : list Z) : Z := get 8 8 h.
Definition ph_vaddr (h : list Z) : Z := get 8 16 h.
Definition ph_filesz (h : list Z) : Z := get 8 32 h.
Definition ph_memsz (h : list Z) : Z := get 8 40 h.

(** int flags2perm(int flags) *)
Definition flags2perm (flags : Z) : Z :=
  let perm := if negb (Z.land flags 0x1 =? 0) then PTE_X else 0 in
  if negb (Z.land flags 0x2 =? 0) then Z.lor perm PTE_W else perm.

(** static int loadseg(pagetable_t pagetable, uint64 va, struct inode *ip, uint offset, uint sz) *)
Fixpoint loadseg_loop (fuel : nat) (pagetable va : Z) (ip : nat) (offset sz i : Z) : K Z :=
  match fuel with
  | O => diverge
  | S fuel' =>
      if i <? sz then
        pa ← walkaddr pagetable (u64 (va + i));
        when (pa =? 0) (panic "loadseg: address should exist");;
        let n := if sz - i <? PGSIZE then sz - i else PGSIZE in
        '(r, bs) ← readi ip DKern (u32 (offset + i)) n;
        modify (fun s => s <| k_mem ::= mstore pa bs |>);;
        if negb (r =? n) then mret (-1)
        else loadseg_loop fuel' pagetable va ip offset sz (u32 (i + PGSIZE))
      else mret 0
  end.
Definition loadseg (pagetable va : Z) (ip : nat) (offset sz : Z) : K Z :=
  loadseg_loop (S (S (Z.to_nat (sz / PGSIZE)))) pagetable va ip offset sz 0.

(** The loop of exec over the program headers: whether it went through, and sz. *)
Fixpoint load_segments (k : nat) (ip : nat) (pagetable off sz : Z) : K (bool * Z) :=
  match k with
  | O => mret (true, sz)
  | S k' =>
      '(r, ph) ← readi ip DKern (u32 off) sizeof_proghdr;
      if negb (r =? sizeof_proghdr) then mret (false, sz)
      else if negb (ph_type ph =? ELF_PROG_LOAD) then
        load_segments k' ip pagetable (i32 (off + sizeof_proghdr)) sz
      else if ph_memsz ph <? ph_filesz ph then mret (false, sz)
      else if u64 (ph_vaddr ph + ph_memsz ph) <? ph_vaddr ph then mret (false, sz)
      else if negb (ph_vaddr ph mod PGSIZE =? 0) then mret (false, sz)
      else
        sz1 ← uvmalloc pagetable sz (u64 (ph_vaddr ph + ph_memsz ph)) (flags2perm (ph_flags ph));
        if sz1 =? 0 then mret (false, sz)
        else
          r ← loadseg pagetable (ph_vaddr ph) ip (u32 (ph_off ph)) (u32 (ph_filesz ph));
          if r <? 0 then mret (false, sz1)
          else load_segments k' ip pagetable (i32 (off + sizeof_proghdr)) sz1
  end.

(** The code of exec at [bad]. *)
Definition exec_bad (pagetable sz : Z) (ip : option nat) : K Z :=
  when (negb (pagetable =? 0)) (proc_freepagetable pagetable sz);;
  match ip with
  | Some ip => iunlockput ip;; end_op
  | None => mret tt
  end;;
  mret (-1).

(** The loop of exec that pushes the argument strings, which are at the
    addresses [argv]: the stack pointer and ustack. *)
Fixpoint push_args (argv : list Z) (argc pagetable sp stackbase : Z) (ustack : list Z) : K (option (Z * list Z)) :=
  match argv with
  | [] => mret (Some (sp, ustack))
  | a :: argv' =>
      if argc >=? MAXARG then mret None
      else
        str ← gets (fun s => cstr (mbytes (Z.to_nat PGSIZE) a (k_mem s)));
        let sp := u64 (sp - (strlen str + 1)) in
        let sp := sp - sp mod 16 in
        if sp <? stackbase then mret None
        else
          r ← copyout pagetable sp (str ++ [0]);
          if r <? 0 then mret None
          else push_args argv' (argc + 1) pagetable sp stackbase (ustack ++ [sp])
  end.

(** The loop of exec that finds the last element of the path. *)
Fixpoint last_elem (s last : list Z) : list Z :=
  match s with
  | [] => last
  | c :: s' => last_elem s' (if c =? 47 then s' else last)
  end.

(** exec from the point where the program is loaded *)
Definition exec_image (p : nat) (path argv : list Z) (elf : list Z) (pagetable sz : Z) : K Z :=
  pr ← getp p;
  let oldsz := p_sz pr in
  let sz := PGROUNDUP sz in
  sz1 ← uvmalloc pagetable sz (u64 (sz + (USERSTACK + 1) * PGSIZE)) PTE_W;
  if sz1 =? 0 then exec_bad pagetable sz None
  else
    let sz := sz1 in
    uvmclear pagetable (u64 (sz - (USERSTACK + 1) * PGSIZE));;
    let stackbase := u64 (sz - USERSTACK * PGSIZE) in
    r ← push_args argv 0 pagetable sz stackbase [];
    match r with
    | None => exec_bad pagetable sz None
    | Some (sp, ustack) =>
        let argc := Z.of_nat (length ustack) in
        let sp := u64 (sp - (argc + 1) * 8) in
        let sp := sp - sp mod 16 in
        if sp <? stackbase then exec_bad pagetable sz None
        else
          r ← copyout pagetable sp (mjoin (enc 8 <$> (ustack ++ [0])));
          if r <? 0 then exec_bad pagetable sz None
          else
            tf_set p (TF_a 1) sp;;
            setp p (fun pr => pr <| p_name ::= (fun n => safestrcpy n (last_elem path path) 16) |>);;
            pr ← getp p;
            let oldpagetable := p_pagetable pr in
            setp p (fun pr => pr <| p_pagetable := pagetable |>);;
            setp p (fun pr => pr <| p_sz := sz |>);;
            tf_set p TF_epc (elf_entry elf);;
            tf_set p TF_sp sp;;
            proc_freepagetable oldpagetable oldsz;;
            mret argc
    end.

(** int exec(char *path, char **argv) *)
Definition exec (path argv : list Z) : K Z :=
  me ← myproc;
  p ← the me;
  begin_op;;
  r ← namei path;
  match r with
  | None => end_op;; mret (-1)
  | Some ip =>
      ilock (Some ip);;
      '(r, elf) ← readi ip DKern 0 sizeof_elfhdr;
      if negb (r =? sizeof_elfhdr) then exec_bad 0 0 (Some ip)
      else if negb (elf_magic elf =? ELF_MAGIC) then exec_bad 0 0 (Some ip)
      else
        pagetable ← proc_pagetable p;
        if pagetable =? 0 then exec_bad 0 0 (Some ip)
        else
          '(ok, sz) ← load_segments (Z.to_nat (elf_phnum elf)) ip pagetable (i32 (elf_phoff elf)) 0;
          if negb ok then exec_bad pagetable sz (Some ip)
          else
            iunlockput ip;;
            end_op;;
            exec_image p path argv elf pagetable sz
  end.
