(* ===== verification/Sysfile.v ===== *)
(** kernel/sysfile.c: the system calls on files. *)

From S2P Require Import Prelude Riscv Memory CString Bytes State Kalloc Vm Sched Log Printf Fs Dir Console File Proc Args Exec.

(** The current process's index. *)
Definition self : K nat := me ← myproc; the me.

(** p->ofile[fd] = f *)
Definition set_ofile (p : nat) (fd : Z) (f : option nat) : K unit :=
  setp p (fun pr => pr <| p_ofile ::= <[Z.to_nat fd := f]> |>).

(** static int argfd(int n, int *pfd, struct file **pf): None for -1 *)
Definition argfd (n : Z) : K (option (Z * nat)) :=
  fd ← argint n;
  if (fd <? 0) || (fd >=? NOFILE) then mret None
  else
    p ← self;
    pr ← getp p;
    f ← the (p_ofile pr !! Z.to_nat fd);
    mret (f ← f; Some (fd, f)).

(** static int fdalloc(struct file *f) *)
Fixpoint fdalloc_loop (l : list nat) (p f : nat) : K Z :=
  match l with
  | [] => mret (-1)
  | fd :: l' =>
      pr ← getp p;
      o ← the (p_ofile pr !! fd);
      match o with
      | None => set_ofile p (Z.of_nat fd) (Some f);; mret (Z.of_nat fd)
      | Some _ => fdalloc_loop l' p f
      end
  end.
Definition fdalloc (f : nat) : K Z :=
  p ← self;
  fdalloc_loop (seq 0 (Z.to_nat NOFILE)) p f.

(** uint64 sys_dup(void) *)
Definition sys_dup : K Z :=
  r ← argfd 0;
  match r with
  | None => mret (-1)
  | Some (_, f) =>
      fd ← fdalloc f;
      if fd <? 0 then mret (-1)
      else filedup f;; mret fd
  end.

(** uint64 sys_read(void) *)
Definition sys_read : K Z :=
  p ← argaddr 1;
  n ← argint 2;
  r ← argfd 0;
  match r with
  | None => mret (-1)
  | Some (_, f) => fileread f p n
  end.

(** uint64 sys_write(void) *)
Definition sys_write : K Z :=
  p ← argaddr 1;
  n ← argint 2;
  r ← argfd 0;
  match r with
  | None => mret (-1)
  | Some (_, f) => filewrite f p n
  end.

(** uint64 sys_close(void) *)
Definition sys_close : K Z :=
  r ← argfd 0;
  match r with
  | None => mret (-1)
  | Some (fd, f) =>
      p ← self;
      set_ofile p fd None;;
      fileclose f;;
      mret 0
  end.

(** uint64 sys_fstat(void) *)
Definition sys_fstat (pad : list Z) : K Z :=
  st ← argaddr 1;
  r ← argfd 0;
  match r with
  | None => mret (-1)
  | Some (_, f) => filestat pad f st
  end.

(** The code of sys_link at [bad]. *)
Definition link_bad (ip : nat) : K Z :=
  ilock (Some ip);;
  seti ip (fun x => x <| i_nlink ::= (fun l => i16 (l - 1)) |>);;
  iupdate ip;;
  iunlockput ip;;
  end_op;;
  mret (-1).

(** uint64 sys_link(void) *)
Definition sys_link : K Z :=
  old ← argstr 0 MAXPATH;
  match old with
  | None => mret (-1)
  | Some old =>
      new ← argstr 1 MAXPATH;
      match new with
      | None => mret (-1)
      | Some new =>
          begin_op;;
          r ← namei old;
          match r with
          | None => end_op;; mret (-1)
          | Some ip =>
              ilock (Some ip);;
              i ← geti ip;
              if i_type i =? T_DIR then
                iunlockput ip;;
                end_op;;
                mret (-1)
              else
                seti ip (fun x => x <| i_nlink ::= (fun l => i16 (l + 1)) |>);;
                iupdate ip;;
                iunlock (Some ip);;
                r ← nameiparent new;
                match r with
                | None => link_bad ip
                | Some (dp, name) =>
                    ilock (Some dp);;
                    d ← geti dp;
                    i ← geti ip;
                    bad ← (if negb (i_dev d =? i_dev i) then mret true
                           else r ← dirlink dp name (i_inum i); mret (r <? 0));
                    if bad : bool then iunlockput dp;; link_bad ip
                    else
                      iunlockput dp;;
                      iput ip;;
                      end_op;;
                      mret 0
                end
          end
      end
  end.

(** static int isdirempty(struct inode *dp) *)
Fixpoint isdirempty_loop (fuel : nat) (dp : nat) (off : Z) : K bool :=
  match fuel with
  | O => diverge
  | S fuel' =>
      d ← geti dp;
      if u32 off <? i_size d then
        '(r, de) ← readi dp DKern (u32 off) sizeof_dirent;
        when (negb (r =? sizeof_dirent)) (panic "isdirempty: readi");;
        if negb (de_inum de =? 0) then mret false
        else isdirempty_loop fuel' dp (i32 (off + sizeof_dirent))
      else mret true
  end.
Definition isdirempty (dp : nat) : K bool :=
  d ← geti dp;
  isdirempty_loop (S (Z.to_nat (i_size d / sizeof_dirent + 1))) dp (2 * sizeof_dirent).

(** The code of sys_unlink at [bad]. *)
Definition unlink_bad (dp : nat) : K Z := iunlockput dp;; end_op;; mret (-1).

(** uint64 sys_unlink(void) *)
Definition sys_unlink : K Z :=
  path ← argstr 0 MAXPATH;
  match path with
  | None => mret (-1)
  | Some path =>
      begin_op;;
      r ← nameiparent path;
      match r with
      | None => end_op;; mret (-1)
      | Some (dp, name) =>
          ilock (Some dp);;
          if (namecmp name (chars ".") =? 0) || (namecmp name (chars "..") =? 0) then unlink_bad dp
          else
            r ← dirlookup dp name;
            match r with
            | None => unlink_bad dp
            | Some (ip, off) =>
                ilock (Some ip);;
                i ← geti ip;
                when (i_nlink i <? 1) (panic "unlink: nlink < 1");;
                full ← (if i_type i =? T_DIR then e ← isdirempty ip; mret (negb e) else mret false);
                if full : bool then iunlockput ip;; unlink_bad dp
                else
                  r ← writei dp (SKern (replicate (Z.to_nat sizeof_dirent) 0)) off sizeof_dirent;
                  when (negb (r =? sizeof_dirent)) (panic "unlink: writei");;
                  i ← geti ip;
                  when (i_type i =? T_DIR)
                    (seti dp (fun x => x <| i_nlink ::= (fun l => i16 (l - 1)) |>);;
                     iupdate dp);;
                  iunlockput dp;;
                  seti ip (fun x => x <| i_nlink ::= (fun l => i16 (l - 1)) |>);;
                  iupdate ip;;
                  iunlockput ip;;
                  end_op;;
                  mret 0
            end
      end
  end.

(** The code of create at [fail]. *)
Definition create_fail (dp ip : nat) : K (option nat) :=
  seti ip (fun x => x <| i_nlink := 0 |>);;
  iupdate ip;;
  iunlockput ip;;
  iunlockput dp;;
  mret None.

(** static struct inode* create(char *path, short type, short major, short minor) *)
Definition create (path : list Z) (type major minor : Z) : K (option nat) :=
  r ← nameiparent path;
  match r with
  | None => mret None
  | Some (dp, name) =>
      ilock (Some dp);;
      r ← dirlookup dp name;
      match r with
      | Some (ip, _) =>
          iunlockput dp;;
          ilock (Some ip);;
          i ← geti ip;
          if (type =? T_FILE) && ((i_type i =? T_FILE) || (i_type i =? T_DEVICE)) then mret (Some ip)
          else iunlockput ip;; mret None
      | None =>
          d ← geti dp;
          r ← ialloc (i_dev d) type;
          match r with
          | None => iunlockput dp;; mret None
          | Some ip =>
              ilock (Some ip);;
              seti ip (fun x => x <| i_major := major |> <| i_minor := minor |> <| i_nlink := 1 |>);;
              iupdate ip;;
              i ← geti ip;
              d ← geti dp;
              bad ← (if type =? T_DIR then
                       r ← dirlink ip (chars ".") (i_inum i);
                       if r <? 0 then mret true
                       else r ← dirlink ip (chars "..") (i_inum d); mret (r <? 0)
                     else mret false);
              if bad : bool then create_fail dp ip
              else
                r ← dirlink dp name (i_inum i);
                if r <? 0 then create_fail dp ip
                else
                  when (type =? T_DIR)
                    (seti dp (fun x => x <| i_nlink ::= (fun l => i16 (l + 1)) |>);;
                     iupdate dp);;
                  iunlockput dp;;
                  mret (Some ip)
          end
      end
  end.

(** sys_open from the point where the inode is locked *)
Definition open_locked (ip : nat) (omode : Z) : K Z :=
  i ← geti ip;
  if (i_type i =? T_DEVICE) && ((i_major i <? 0) || (i_major i >=? NDEV)) then
    iunlockput ip;;
    end_op;;
    mret (-1)
  else
    f ← filealloc;
    match f with
    | None => iunlockput ip;; end_op;; mret (-1)
    | Some f =>
        fd ← fdalloc f;
        if fd <? 0 then
          fileclose f;;
          iunlockput ip;;
          end_op;;
          mret (-1)
        else
          i ← geti ip;
          (if i_type i =? T_DEVICE then
             setf f (fun x => x <| f_type := FD_DEVICE |> <| f_major := i_major i |>)
           else
             setf f (fun x => x <| f_type := FD_INODE |> <| f_off := 0 |>));;
          setf f (fun x => x <| f_ip := Some ip |>);;
          setf f (fun x => x <| f_readable := if Z.land omode O_WRONLY =? 0 then 1 else 0 |>);;
          setf f (fun x => x <| f_writable :=
            if negb (Z.land omode O_WRONLY =? 0) || negb (Z.land omode O_RDWR =? 0) then 1 else 0 |>);;
          when (negb (Z.land omode O_TRUNC =? 0) && (i_type i =? T_FILE)) (itrunc ip);;
          iunlock (Some ip);;
          end_op;;
          mret fd
    end.

(** uint64 sys_open(void) *)
Definition sys_open : K Z :=
  omode ← argint 1;
  path ← argstr 0 MAXPATH;
  match path with
  | None => mret (-1)
  | Some path =>
      begin_op;;
      if negb (Z.land omode O_CREATE =? 0) then
        r ← create path T_FILE 0 0;
        match r with
        | None => end_op;; mret (-1)
        | Some ip => open_locked ip omode
        end
      else
        r ← namei path;
        match r with
        | None => end_op;; mret (-1)
        | Some ip =>
            ilock (Some ip);;
            i ← geti ip;
            if (i_type i =? T_DIR) && negb (omode =? O_RDONLY) then
              iunlockput ip;;
              end_op;;
              mret (-1)
            else open_locked ip omode
        end
  end.

(** create(path, type, major, minor) on the path in argument 0, as sys_mkdir and
    sys_mknod call it, and what they do with the inode *)
Definition create_arg (type major minor : Z) : K Z :=
  path ← argstr 0 MAXPATH;
  r ← (match path with None => mret None | Some path => create path type major minor end);
  match r with
  | None => end_op;; mret (-1)
  | Some ip => iunlockput ip;; end_op;; mret 0
  end.

(** uint64 sys_mkdir(void) *)
Definition sys_mkdir : K Z :=
  begin_op;;
  create_arg T_DIR 0 0.

(** uint64 sys_mknod(void) *)
Definition sys_mknod : K Z :=
  begin_op;;
  major ← argint 1;
  minor ← argint 2;
  create_arg T_DEVICE (i16 major) (i16 minor).

(** uint64 sys_chdir(void) *)
Definition sys_chdir : K Z :=
  p ← self;
  begin_op;;
  path ← argstr 0 MAXPATH;
  r ← (match path with None => mret None | Some path => namei path end);
  match r with
  | None => end_op;; mret (-1)
  | Some ip =>
      ilock (Some ip);;
      i ← geti ip;
      if negb (i_type i =? T_DIR) then
        iunlockput ip;;
        end_op;;
        mret (-1)
      else
        iunlock (Some ip);;
        pr ← getp p;
        cwd ← the (p_cwd pr);
        iput cwd;;
        end_op;;
        setp p (fun pr => pr <| p_cwd := Some ip |>);;
        mret 0
  end.

(** The loop of sys_exec that fetches the arguments into new pages: whether it
    went through, and the pages of argv. *)
Fixpoint fetch_args (fuel : nat) (i uargv : Z) (argv : list Z) : K (bool * list Z) :=
  match fuel with
  | O => diverge
  | S fuel' =>
      if i >=? MAXARG then mret (false, argv)
      else
        uarg ← fetchaddr (u64 (uargv + 8 * i));
        match uarg with
        | None => mret (false, argv)
        | Some uarg =>
            if uarg =? 0 then mret (true, argv)
            else
              a ← kalloc;
              if a =? 0 then mret (false, argv)
              else
                '(r, bs) ← fetchstr uarg PGSIZE;
                modify (fun s => s <| k_mem ::= mstore a bs |>);;
                if r <? 0 then mret (false, argv ++ [a])
                else fetch_args fuel' (i + 1) uargv (argv ++ [a])
        end
  end.

(** uint64 sys_exec(void) *)
Definition sys_exec : K Z :=
  uargv ← argaddr 1;
  path ← argstr 0 MAXPATH;
  match path with
  | None => mret (-1)
  | Some path =>
      '(ok, argv) ← fetch_args (S (Z.to_nat MAXARG)) 0 uargv [];
      if ok : bool then
        ret ← exec path argv;
        forK argv kfree;;
        mret ret
      else
        forK argv kfree;;
        mret (-1)
  end.

(** uint64 sys_pipe(void) *)
Definition sys_pipe : K Z :=
  p ← self;
  fdarray ← argaddr 0;
  r ← pipealloc;
  match r with
  | None => mret (-1)
  | Some (rf, wf) =>
      fd0 ← fdalloc rf;
      if fd0 <? 0 then fileclose rf;; fileclose wf;; mret (-1)
      else
        fd1 ← fdalloc wf;
        if fd1 <? 0 then
          set_ofile p fd0 None;;
          fileclose rf;;
          fileclose wf;;
          mret (-1)
        else
          pr ← getp p;
          r ← copyout (p_pagetable pr) fdarray (enc 4 fd0);
          bad ← (if r <? 0 then mret true
                 else r ← copyout (p_pagetable pr) (u64 (fdarray + 4)) (enc 4 fd1); mret (r <? 0));
          if bad : bool then
            set_ofile p fd0 None;;
            set_ofile p fd1 None;;
            fileclose rf;;
            fileclose wf;;
            mret (-1)
          else mret 0
  end.
