(* ===== verification/Sysproc.v ===== *)
(** kernel/sysproc.c: the system calls on processes. *)

From S2P Require Import Prelude Riscv State Sched Proc Args Sysfile.

(** uint64 sys_exit(void) *)
Definition sys_exit : K Z := n ← argint 0; exit n;; mret 0.

(** uint64 sys_getpid(void) *)
Definition sys_getpid : K Z := p ← self; pr ← getp p; mret (p_pid pr).

(** uint64 sys_fork(void) *)
Definition sys_fork : K Z := fork.

(** uint64 sys_wait(void) *)
Definition sys_wait : K Z := p ← argaddr 0; wait p.

(** uint64 sys_sbrk(void) *)
Definition sys_sbrk : K Z :=
  n ← argint 0;
  p ← self;
  pr ← getp p;
  let addr := p_sz pr in
  r ← growproc n;
  mret (if r <? 0 then -1 else addr).

(** uint64 sys_sleep(void); every round of the loop sleeps *)
Fixpoint sys_sleep_loop (fuel : nat) (n ticks0 : Z) : K Z :=
  match fuel with
  | O => diverge
  | S fuel' =>
      ticks ← gets k_ticks;
      if u32 (ticks - ticks0) <? n then
        p ← self;
        k ← killed p;
        if negb (k =? 0) then release LTicks;; mret (-1)
        else sleep ChTicks LTicks;; sys_sleep_loop fuel' n ticks0
      else release LTicks;; mret 0
  end.
Definition sys_sleep : K Z :=
  n ← argint 0;
  let n := if n <? 0 then 0 else n in
  acquire LTicks;;
  ticks0 ← gets k_ticks;
  ((fun w => sys_sleep_loop (S (length (wenv w))) n ticks0 w) : K Z).

(** uint64 sys_kill(void) *)
Definition sys_kill : K Z := pid ← argint 0; kill pid.

(** uint64 sys_uptime(void) *)
Definition sys_uptime : K Z :=
  acquire LTicks;;
  xticks ← gets k_ticks;
  release LTicks;;
  mret xticks.
