(* ===== verification/Syscall.v ===== *)
(** kernel/syscall.c: dispatching a system call by its number (syscall.h). *)

From S2P Require Import Prelude Numeral Riscv State Sched Printf Console Proc Args Sysfile Sysproc.

Definition SYS_fork : Z := 1.
Definition SYS_exit : Z := 2.
Definition SYS_wait : Z := 3.
Definition SYS_pipe : Z := 4.
Definition SYS_read : Z := 5.
Definition SYS_kill : Z := 6.
Definition SYS_exec : Z := 7.
Definition SYS_fstat : Z := 8.
Definition SYS_chdir : Z := 9.
Definition SYS_dup : Z := 10.
Definition SYS_getpid : Z := 11.
Definition SYS_sbrk : Z := 12.
Definition SYS_sleep : Z := 13.
Definition SYS_uptime : Z := 14.
Definition SYS_open : Z := 15.
Definition SYS_write : Z := 16.
Definition SYS_mknod : Z := 17.
Definition SYS_unlink : Z := 18.
Definition SYS_link : Z := 19.
Definition SYS_mkdir : Z := 20.
Definition SYS_close : Z := 21.

(** static uint64 ( *syscalls[])(void); [pad] is what sys_fstat finds in the
    padding of its struct stat *)
Definition syscalls (pad : list Z) : list (Z * K Z) := [
  (SYS_fork, sys_fork);
  (SYS_exit, sys_exit);
  (SYS_wait, sys_wait);
  (SYS_pipe, sys_pipe);
  (SYS_read, sys_read);
  (SYS_kill, sys_kill);
  (SYS_exec, sys_exec);
  (SYS_fstat, sys_fstat pad);
  (SYS_chdir, sys_chdir);
  (SYS_dup, sys_dup);
  (SYS_getpid, sys_getpid);
  (SYS_sbrk, sys_sbrk);
  (SYS_sleep, sys_sleep);
  (SYS_uptime, sys_uptime);
  (SYS_open, sys_open);
  (SYS_write, sys_write);
  (SYS_mknod, sys_mknod);
  (SYS_unlink, sys_unlink);
  (SYS_link, sys_link);
  (SYS_mkdir, sys_mkdir);
  (SYS_close, sys_close)
].
Fixpoint lookup_call (num : Z) (l : list (Z * K Z)) : option (K Z) :=
  match l with
  | [] => None
  | (k, f) :: l' => if k =? num then Some f else lookup_call num l'
  end.

(** void syscall(void) *)
Definition syscall (pad : list Z) : K unit :=
  p ← self;
  a7 ← tf_get p (TF_a 7);
  let num := i32 a7 in
  match lookup_call num (syscalls pad) with
  | Some f =>
      r ← f;
      tf_set p (TF_a 0) (u64 r)
  | None =>
      pr ← getp p;
      printf (chars "%d %s: unknown sys call %d" ++ [10]) [VInt (p_pid pr); VStr (Some (cstr (p_name pr))); VInt num];;
      tf_set p (TF_a 0) (u64 (-1))
  end.
