(* ===== verification/Virtio.v ===== *)
(** kernel/virtio_disk.c: the driver of the disk.

    The device works on the same structures: it takes the head of a descriptor
    chain from the avail ring, transfers the block the chain describes, writes
    the status byte and puts the head in the used ring (VirtioSpec.v says what
    the driver relies on).  It runs while the thread that asked for the transfer
    sleeps, as does the interrupt handler. *)

From S2P Require Import Prelude Memory CString Riscv State Kalloc Sched Uart Bio.

Definition NUM : Z := 8.
Definition VRING_DESC_F_NEXT : Z := 1.
Definition VRING_DESC_F_WRITE : Z := 2.
Definition VIRTIO_BLK_T_IN : Z := 0.
Definition VIRTIO_BLK_T_OUT : Z := 1.
Definition sizeof_blk_req : Z := 16.

Definition getv : K vdisk := gets k_vdisk.
Definition setv (f : vdisk -> vdisk) : K unit := modify (fun s => s <| k_vdisk ::= f |>).
Definition setdesc (i : nat) (f : vdesc -> vdesc) : K unit := setv (fun v => v <| vd_desc ::= alter f i |>).

(** * Initialisation *)

Definition VIRTIO_MMIO_MAGIC_VALUE : Z := 0x000.
Definition VIRTIO_MMIO_VERSION : Z := 0x004.
Definition VIRTIO_MMIO_DEVICE_ID : Z := 0x008.
Definition VIRTIO_MMIO_VENDOR_ID : Z := 0x00c.
Definition VIRTIO_MMIO_DEVICE_FEATURES : Z := 0x010.
Definition VIRTIO_MMIO_DRIVER_FEATURES : Z := 0x020.
Definition VIRTIO_MMIO_QUEUE_SEL : Z := 0x030.
Definition VIRTIO_MMIO_QUEUE_NUM_MAX : Z := 0x034.
Definition VIRTIO_MMIO_QUEUE_NUM : Z := 0x038.
Definition VIRTIO_MMIO_QUEUE_READY : Z := 0x044.
Definition VIRTIO_MMIO_QUEUE_NOTIFY : Z := 0x050.
Definition VIRTIO_MMIO_INTERRUPT_STATUS : Z := 0x060.
Definition VIRTIO_MMIO_INTERRUPT_ACK : Z := 0x064.
Definition VIRTIO_MMIO_STATUS : Z := 0x070.
Definition VIRTIO_MMIO_QUEUE_DESC_LOW : Z := 0x080.
Definition VIRTIO_MMIO_QUEUE_DESC_HIGH : Z := 0x084.
Definition VIRTIO_MMIO_DRIVER_DESC_LOW : Z := 0x090.
Definition VIRTIO_MMIO_DRIVER_DESC_HIGH : Z := 0x094.
Definition VIRTIO_MMIO_DEVICE_DESC_LOW : Z := 0x0a0.
Definition VIRTIO_MMIO_DEVICE_DESC_HIGH : Z := 0x0a4.

Definition VIRTIO_CONFIG_S_ACKNOWLEDGE : Z := 1.
Definition VIRTIO_CONFIG_S_DRIVER : Z := 2.
Definition VIRTIO_CONFIG_S_DRIVER_OK : Z := 4.
Definition VIRTIO_CONFIG_S_FEATURES_OK : Z := 8.

(** VIRTIO_BLK_F_RO, _SCSI, _CONFIG_WCE, _MQ, VIRTIO_F_ANY_LAYOUT,
    VIRTIO_RING_F_EVENT_IDX, _INDIRECT_DESC: features the driver refuses *)
Definition refused_features : list Z := [5; 7; 11; 12; 27; 29; 28].

(** *R(r), read and assigned *)
Definition readR (r : Z) : K Z := v ← getv; mret (u32 (vd_reg v r)).
Definition writeR (r x : Z) : K unit := mmio (VIRTIO0 + r) (u32 x).

Definition negotiate (features : Z) : Z :=
  foldl (fun f k => Z.land f (u64 (Z.lnot (Z.shiftl 1 k)))) features refused_features.

(** void virtio_disk_init(void); the queue that the device and the driver share is kept
    as fields of [k_vdisk], which memset clears together with its pages *)
Definition virtio_disk_init : K unit :=
  magic ← readR VIRTIO_MMIO_MAGIC_VALUE;
  version ← readR VIRTIO_MMIO_VERSION;
  device ← readR VIRTIO_MMIO_DEVICE_ID;
  vendor ← readR VIRTIO_MMIO_VENDOR_ID;
  when (negb (magic =? 0x74726976) || negb (version =? 2) || negb (device =? 2) || negb (vendor =? 0x554d4551))
    (panic "could not find virtio disk");;
  writeR VIRTIO_MMIO_STATUS 0;;
  let status := Z.lor 0 VIRTIO_CONFIG_S_ACKNOWLEDGE in
  writeR VIRTIO_MMIO_STATUS status;;
  let status := Z.lor status VIRTIO_CONFIG_S_DRIVER in
  writeR VIRTIO_MMIO_STATUS status;;
  features ← readR VIRTIO_MMIO_DEVICE_FEATURES;
  writeR VIRTIO_MMIO_DRIVER_FEATURES (negotiate features);;
  let status := Z.lor status VIRTIO_CONFIG_S_FEATURES_OK in
  writeR VIRTIO_MMIO_STATUS status;;
  status ← readR VIRTIO_MMIO_STATUS;
  when (Z.land status VIRTIO_CONFIG_S_FEATURES_OK =? 0) (panic "virtio disk FEATURES_OK unset");;
  writeR VIRTIO_MMIO_QUEUE_SEL 0;;
  ready ← readR VIRTIO_MMIO_QUEUE_READY;
  when (negb (ready =? 0)) (panic "virtio disk should not be ready");;
  max ← readR VIRTIO_MMIO_QUEUE_NUM_MAX;
  when (max =? 0) (panic "virtio disk has no queue 0");;
  when (max <? NUM) (panic "virtio disk max queue too short");;
  desc ← kalloc;
  avail ← kalloc;
  used ← kalloc;
  when ((desc =? 0) || (avail =? 0) || (used =? 0)) (panic "virtio disk kalloc");;
  modify (fun s => s <| k_mem ::= memset desc 0 PGSIZE |>);;
  setv (fun v => v <| vd_desc := replicate 8 zero_vdesc |>);;
  modify (fun s => s <| k_mem ::= memset avail 0 PGSIZE |>);;
  setv (fun v => v <| vd_avail_idx := 0 |> <| vd_avail_ring := replicate 8 0 |>);;
  modify (fun s => s <| k_mem ::= memset used 0 PGSIZE |>);;
  setv (fun v => v <| vd_usedr_idx := 0 |> <| vd_usedr_ring := replicate 8 0 |>);;
  writeR VIRTIO_MMIO_QUEUE_NUM NUM;;
  writeR VIRTIO_MMIO_QUEUE_DESC_LOW desc;;
  writeR VIRTIO_MMIO_QUEUE_DESC_HIGH (Z.shiftr desc 32);;
  writeR VIRTIO_MMIO_DRIVER_DESC_LOW avail;;
  writeR VIRTIO_MMIO_DRIVER_DESC_HIGH (Z.shiftr avail 32);;
  writeR VIRTIO_MMIO_DEVICE_DESC_LOW used;;
  writeR VIRTIO_MMIO_DEVICE_DESC_HIGH (Z.shiftr used 32);;
  writeR VIRTIO_MMIO_QUEUE_READY 0x1;;
  forK (seq 0 (Z.to_nat NUM)) (fun i => setv (fun v => v <| vd_free ::= <[i := 1]> |>));;
  let status := Z.lor status VIRTIO_CONFIG_S_DRIVER_OK in
  writeR VIRTIO_MMIO_STATUS status.

(** * Descriptors *)

(** static int alloc_desc() *)
Fixpoint alloc_desc_loop (l : list nat) : K (option nat) :=
  match l with
  | [] => mret None
  | i :: l' =>
      v ← getv;
      f ← the (vd_free v !! i);
      if negb (f =? 0) then setv (fun v => v <| vd_free ::= <[i := 0]> |>);; mret (Some i)
      else alloc_desc_loop l'
  end.
Definition alloc_desc : K (option nat) := alloc_desc_loop (seq 0 (Z.to_nat NUM)).

(** static void free_desc(int i) *)
Definition free_desc (i : nat) : K unit :=
  when (Z.of_nat i >=? NUM) (panic "free_desc 1");;
  v ← getv;
  f ← the (vd_free v !! i);
  when (negb (f =? 0)) (panic "free_desc 2");;
  setdesc i (fun d => d <| d_addr := DNull |> <| d_len := 0 |> <| d_flags := 0 |> <| d_next := 0 |>);;
  setv (fun v => v <| vd_free ::= <[i := 1]> |>);;
  wakeup (Some ChDiskFree).

(** static void free_chain(int i); a chain has at most NUM descriptors, since
    freeing one twice panics *)
Fixpoint free_chain_loop (fuel : nat) (i : nat) : K unit :=
  match fuel with
  | O => diverge
  | S fuel' =>
      v ← getv;
      d ← the (vd_desc v !! i);
      free_desc i;;
      if negb (Z.land (d_flags d) VRING_DESC_F_NEXT =? 0) then free_chain_loop fuel' (Z.to_nat (d_next d))
      else mret tt
  end.
Definition free_chain (i : nat) : K unit := free_chain_loop (S (Z.to_nat NUM)) i.

(** static int alloc3_desc(int *idx): the three indices, or None for -1 *)
Fixpoint alloc_descs (k : nat) (idx : list nat) : K (option (list nat)) :=
  match k with
  | O => mret (Some idx)
  | S k' =>
      r ← alloc_desc;
      match r with
      | Some i => alloc_descs k' (idx ++ [i])
      | None => forK idx free_desc;; mret None
      end
  end.
Definition alloc3_desc : K (option (list nat)) := alloc_descs 3 [].

(** * Transfers *)

(** The first loop of virtio_disk_rw. *)
Fixpoint rw_alloc (fuel : nat) : K (list nat) :=
  match fuel with
  | O => diverge
  | S fuel' =>
      r ← alloc3_desc;
      match r with
      | Some idx => mret idx
      | None => sleep ChDiskFree LVdisk;; rw_alloc fuel'
      end
  end.

(** Formatting the three descriptors. *)
Definition rw_format (i0 i1 i2 b : nat) (write : bool) (sector : Z) : K unit :=
  setv (fun v => v <| vd_ops ::= <[i0 := mkVreq (if write then VIRTIO_BLK_T_OUT else VIRTIO_BLK_T_IN) 0 sector]> |>);;
  setdesc i0 (fun _ => mkVdesc (DOp i0) sizeof_blk_req VRING_DESC_F_NEXT (Z.of_nat i1));;
  setdesc i1 (fun _ => mkVdesc (DData b) BSIZE
    (Z.lor (if write then 0 else VRING_DESC_F_WRITE) VRING_DESC_F_NEXT) (Z.of_nat i2));;
  setv (fun v => v <| vd_info_status ::= <[i0 := 0xff]> |>);;
  setdesc i2 (fun _ => mkVdesc (DStatus i0) 1 VRING_DESC_F_WRITE 0).

(** The last loop of virtio_disk_rw. *)
Fixpoint rw_wait (fuel : nat) (b : nat) : K unit :=
  match fuel with
  | O => diverge
  | S fuel' =>
      x ← getb b;
      if b_disk x =? 1 then sleep (ChBuf b) LVdisk;; rw_wait fuel' b
      else mret tt
  end.

(** void virtio_disk_rw(struct buf *b, int write) *)
Definition virtio_rw (b : nat) (write : bool) : K unit :=
  x ← getb b;
  let sector := u32 (b_blockno x * (BSIZE / 512)) in
  acquire LVdisk;;
  idx ← ((fun w => rw_alloc (S (length (wenv w))) w) : K (list nat));
  i0 ← the (idx !! 0%nat);
  i1 ← the (idx !! 1%nat);
  i2 ← the (idx !! 2%nat);
  rw_format i0 i1 i2 b write sector;;
  setb b (fun x => x <| b_disk := 1 |>);;
  setv (fun v => v <| vd_info_b ::= <[i0 := Some b]> |>);;
  setv (fun v => v <| vd_avail_ring ::= <[Z.to_nat (vd_avail_idx v mod NUM) := Z.of_nat i0]> |>);;
  setv (fun v => v <| vd_avail_idx ::= (fun i => u16 (i + 1)) |>);;
  writeR VIRTIO_MMIO_QUEUE_NOTIFY 0;;
  ((fun w => rw_wait (S (length (wenv w))) b w) : K unit);;
  setv (fun v => v <| vd_info_b ::= <[i0 := None]> |>);;
  free_chain i0;;
  release LVdisk.

(** void virtio_disk_intr() *)
Fixpoint intr_loop (fuel : nat) : K unit :=
  match fuel with
  | O => diverge
  | S fuel' =>
      v ← getv;
      if negb (vd_used_idx v =? vd_usedr_idx v) then
        id ← the (vd_usedr_ring v !! Z.to_nat (vd_used_idx v mod NUM));
        st ← the (vd_info_status v !! Z.to_nat id);
        when (negb (st =? 0)) (panic "virtio_disk_intr status");;
        o ← the (vd_info_b v !! Z.to_nat id);
        b ← the o;
        setb b (fun x => x <| b_disk := 0 |>);;
        wakeup (Some (ChBuf b));;
        setv (fun v => v <| vd_used_idx ::= (fun i => u16 (i + 1)) |>);;
        intr_loop fuel'
      else mret tt
  end.
Definition virtio_disk_intr : K unit :=
  acquire LVdisk;;
  st ← readR VIRTIO_MMIO_INTERRUPT_STATUS;
  writeR VIRTIO_MMIO_INTERRUPT_ACK (Z.land st 0x3);;
  v ← getv;
  intr_loop (S (Z.to_nat (u16 (vd_usedr_idx v - vd_used_idx v))));;
  release LVdisk.
