(* ===== verification/VirtioSpec.v ===== *)
(** A transfer with the virtio disk is atomic: the driver's queue protocol, the
    device and the interrupt handler together do what [virtio_disk_rw] says, at
    the moment the device serves the request. *)

From S2P Require Import Prelude Riscv State Sched Bio Virtio.

(** * The device *)

(** The chain of three descriptors that asks for a transfer of buffer [b], with
    its head at [i0] (VirtIO 1.1, section 5.2.6). *)
Record request (v : vdisk) (i0 i1 i2 b : nat) (write : bool) (sector : Z) : Prop := {
  rq_op : vd_desc v !! i0 = Some (mkVdesc (DOp i0) sizeof_blk_req VRING_DESC_F_NEXT (Z.of_nat i1));
  rq_data : vd_desc v !! i1 = Some (mkVdesc (DData b) BSIZE
    (Z.lor (if write then 0 else VRING_DESC_F_WRITE) VRING_DESC_F_NEXT) (Z.of_nat i2));
  rq_status : vd_desc v !! i2 = Some (mkVdesc (DStatus i0) 1 VRING_DESC_F_WRITE 0);
  rq_req : vd_ops v !! i0 = Some (mkVreq (if write then VIRTIO_BLK_T_OUT else VIRTIO_BLK_T_IN) 0 sector);
}.

(** The head is one of the last two put in the avail ring; with eight descriptors
    there are never more than two requests. *)
Definition offered (v : vdisk) (i0 : nat) : Prop :=
  exists j, 0 <= j < 2 /\ vd_avail_ring v !! Z.to_nat ((vd_avail_idx v - 1 - j) mod NUM) = Some (Z.of_nat i0).

(** Moving block [n] of the disk to or from buffer [b]. *)
Definition moved (b : nat) (write : bool) (n : Z) (s : kst) : kst :=
  if write then s <| k_disk ::= <[n := default zero_block (b_data <$> k_bufs s !! b)]> |>
  else s <| k_bufs ::= alter (fun x => x <| b_data := dread (k_disk s) n |>) b |>.

(** The device says that it is done: status 0, and the head in the used ring. *)
Definition used (i0 : nat) (v : vdisk) : vdisk :=
  v <| vd_info_status ::= <[i0 := 0]> |>
    <| vd_usedr_ring ::= <[Z.to_nat (vd_usedr_idx v mod NUM) := Z.of_nat i0]> |>
    <| vd_usedr_idx := u16 (vd_usedr_idx v + 1) |>.

(** What the driver relies on: the device carries out a request that is offered.
    A block has two sectors. *)
Definition blk_device (dev : nat -> kst -> kst) : Prop :=
  forall i0 i1 i2 b write n s,
    request (k_vdisk s) i0 i1 i2 b write (2 * n) -> offered (k_vdisk s) i0 ->
    dev i0 s = moved b write n s <| k_vdisk ::= used i0 |>.

(** The device serves the request at [i0] and interrupts. *)
Definition complete (dev : nat -> kst -> kst) (i0 : nat) (s : kst) : kst :=
  match virtio_disk_intr (mkW (dev i0 s) []) with Ok _ w => wk w | _ => s end.

(** * Requests in flight *)

Definition nfree (l : list Z) : nat := length (filter (.≠ 0) l).

Record driver_ok (v : vdisk) : Prop := {
  do_desc : length (vd_desc v) = 8%nat;
  do_avail : length (vd_avail_ring v) = 8%nat;
  do_usedr : length (vd_usedr_ring v) = 8%nat;
  do_free : length (vd_free v) = 8%nat;
  do_infob : length (vd_info_b v) = 8%nat;
  do_status : length (vd_info_status v) = 8%nat;
  do_ops : length (vd_ops v) = 8%nat;
  do_idx : vd_used_idx v = vd_usedr_idx v;
  do_range : 0 <= vd_used_idx v < 2 ^ 16;
}.

Record in_flight (b : nat) (x : buf) (write : bool) (i0 i1 i2 : nat) (s : kst) : Prop := {
  fl_buf : k_bufs s !! b = Some (x <| b_disk := 1 |>);
  fl_power : k_power s = None;
  fl_table : table_ok s;
  fl_driver : driver_ok (k_vdisk s);
  fl_req : request (k_vdisk s) i0 i1 i2 b write (2 * b_blockno x);
  fl_offered : offered (k_vdisk s) i0;
  fl_info : vd_info_b (k_vdisk s) !! i0 = Some (Some b);
  fl_free : Forall (fun i => vd_free (k_vdisk s) !! i = Some 0) [i0; i1; i2];
}.

(** The same while the process that waits for it is not running. *)
Record pending (p b : nat) (x : buf) (write : bool) (i0 i1 i2 : nat) (s : kst) : Prop := {
  pd_flight : in_flight b x write i0 i1 i2 s;
  pd_held : k_held s = [];
  pd_cur : k_cur s <> Some p;
  pd_proc : exists pr, k_procs s !! p = Some pr /\
    (p_state pr = RUNNABLE \/ (p_state pr = SLEEPING /\ p_chan pr = Some (ChBuf b)));
}.

(** * Descriptors *)

Lemma nfree_insert l i f : l !! i = Some f -> f <> 0 -> nfree l = S (nfree (<[i := 0]> l)).
Proof.
  intros Hi Hf. unfold nfree. rewrite <- (take_drop_middle l i f Hi) at 1.
  rewrite insert_take_drop by (by eapply lookup_lt_Some).
  rewrite !filter_app, filter_cons_True by done. rewrite (filter_cons_False _ 0) by naive_solver.
  rewrite !length_app. simpl. lia.
Qed.

Lemma alloc_desc_loop_run n : forall k s,
  length (vd_free (k_vdisk s)) = (k + n)%nat ->
  (exists i f, (k <= i)%nat /\ vd_free (k_vdisk s) !! i = Some f /\ f <> 0) ->
  exists i f, vd_free (k_vdisk s) !! i = Some f /\ f <> 0 /\ forall e,
    alloc_desc_loop (seq k n) (mkW s e) = Ok (Some i) (mkW (s <| k_vdisk ::= fset vd_free <[i := 0]> |>) e).
Proof.
  induction n as [|n IH]; intros k s Hl (i & f & Hk & Hi & Hf); cbn [seq alloc_desc_loop].
  { apply lookup_lt_Some in Hi. lia. }
  destruct (lookup_lt_is_Some_2 (vd_free (k_vdisk s)) k) as [g Hg]; [lia|].
  destruct (Z.eqb_spec g 0) as [->|Hne].
  - destruct (IH (S k) s) as (i' & f' & Hi' & Hf' & E); [lia| |].
    { exists i, f. split_and!; [|done|done]. destruct (decide (i = k)) as [->|]; [congruence|lia]. }
    exists i', f'. split_and!; [done|done|]. intros e. unfold getv. rewrite bind_gets. cbn [wk]. rewrite Hg. exact (E e).
  - exists k, g. split_and!; [done|done|]. intros e. unfold getv. rewrite bind_gets. cbn [wk]. rewrite Hg. cbn [the].
    rewrite bind_ret. by rewrite (proj2 (Z.eqb_neq g 0) Hne).
Qed.

Lemma nfree_pos l : (0 < nfree l)%nat -> exists i f, l !! i = Some f /\ f <> 0.
Proof.
  unfold nfree. intros H. destruct (filter (.≠ 0) l) as [|f r] eqn:E; [simpl in H; lia|].
  assert (Hin : f ∈ filter (.≠ 0) l) by (rewrite E; left). apply list_elem_of_filter in Hin as [Hf Hin].
  apply list_elem_of_lookup in Hin as [i Hi]. by exists i, f.
Qed.

Lemma alloc_desc_run s :
  length (vd_free (k_vdisk s)) = 8%nat -> (0 < nfree (vd_free (k_vdisk s)))%nat ->
  exists i f, vd_free (k_vdisk s) !! i = Some f /\ f <> 0 /\ forall e,
    alloc_desc (mkW s e) = Ok (Some i) (mkW (s <| k_vdisk ::= fset vd_free <[i := 0]> |>) e).
Proof.
  intros Hl (i & f & Hi & Hf)%nfree_pos. apply (alloc_desc_loop_run 8 0); [done|]. exists i, f. split_and!; [lia|done|done].
Qed.

Definition taken (i0 i1 i2 : nat) (s : kst) : kst :=
  s <| k_vdisk ::= fset vd_free (fun l => <[i2 := 0]> (<[i1 := 0]> (<[i0 := 0]> l))) |>.

Lemma alloc3_desc_run s :
  length (vd_free (k_vdisk s)) = 8%nat -> (3 <= nfree (vd_free (k_vdisk s)))%nat ->
  exists i0 i1 i2, NoDup [i0; i1; i2] /\
    Forall (fun i => exists f, vd_free (k_vdisk s) !! i = Some f /\ f <> 0) [i0; i1; i2] /\
    forall e, alloc3_desc (mkW s e) = Ok (Some [i0; i1; i2]) (mkW (taken i0 i1 i2 s) e).
Proof.
  intros Hl Hn. destruct (alloc_desc_run s) as (i0 & f0 & H0 & Hf0 & E0); [done|lia|].
  rewrite (nfree_insert _ _ _ H0 Hf0) in Hn. pose (s1 := s <| k_vdisk ::= fset vd_free <[i0 := 0]> |>).
  destruct (alloc_desc_run s1) as (i1 & f1 & H1 & Hf1 & E1); [by simpl; rewrite length_insert|simpl; lia|].
  simpl in H1. rewrite (nfree_insert _ _ _ H1 Hf1) in Hn. pose (s2 := s1 <| k_vdisk ::= fset vd_free <[i1 := 0]> |>).
  destruct (alloc_desc_run s2) as (i2 & f2 & H2 & Hf2 & E2); [by simpl; rewrite !length_insert|simpl; lia|].
  simpl in H2.
  assert (N10 : i1 <> i0) by (intros ->; apply list_lookup_insert_Some in H1; naive_solver).
  rewrite list_lookup_insert_ne in H1 by done.
  assert (N21 : i2 <> i1) by (intros ->; apply list_lookup_insert_Some in H2; naive_solver).
  rewrite list_lookup_insert_ne in H2 by done.
  assert (N20 : i2 <> i0) by (intros ->; apply list_lookup_insert_Some in H2; naive_solver).
  rewrite list_lookup_insert_ne in H2 by done.
  exists i0, i1, i2. split_and!; [repeat constructor; set_solver|repeat constructor; by eexists|].
  intros e. unfold alloc3_desc. cbn [alloc_descs]. rewrite (bind_ok _ _ _ _ _ (E0 e)).
  rewrite (bind_ok _ _ _ _ _ (E1 e)). by rewrite (bind_ok _ _ _ _ _ (E2 e)).
Qed.

(** Freeing a descriptor and a chain. *)
Definition freed (i : nat) (s : kst) : kst :=
  s <| k_vdisk ::= (fun v => v <| vd_desc ::= alter (fun d => d <| d_addr := DNull |> <| d_len := 0 |> <| d_flags := 0 |> <| d_next := 0 |>) i |>
                               <| vd_free ::= <[i := 1]> |>) |>
    <| k_procs ::= wake (Some ChDiskFree) (k_cur s) |>.

Lemma wake_length ch me ps : length (wake ch me ps) = length ps.
Proof. apply length_imap. Qed.

Lemma free_desc_run i s e :
  (i < 8)%nat -> vd_free (k_vdisk s) !! i = Some 0 -> plocks_free s -> table_ok s ->
  free_desc i (mkW s e) = Ok tt (mkW (freed i s) e).
Proof.
  intros Hi Hf Hp Ht. unfold free_desc, getv, setv, setdesc, setv, NUM.
  rewrite Z.geb_leb, (proj2 (Z.leb_gt _ _)) by lia. krun. cbn [wk]. rewrite Hf. cbn [the]. krun. cbn [Z.eqb negb]. krun.
  match goal with |- wakeup _ (mkW ?t _) = _ => rewrite (wakeup_eq (Some ChDiskFree) t e Hp Ht) end.
  kret.
Qed.

Lemma free_chain_step k i d s e :
  vd_desc (k_vdisk s) !! i = Some d ->
  (i < 8)%nat -> vd_free (k_vdisk s) !! i = Some 0 -> plocks_free s -> table_ok s ->
  free_chain_loop (S k) i (mkW s e) =
    (if negb (Z.land (d_flags d) VRING_DESC_F_NEXT =? 0) then free_chain_loop k (Z.to_nat (d_next d)) else mret tt)
      (mkW (freed i s) e).
Proof.
  intros Hd Hi Hf Hp Ht. cbn [free_chain_loop]. unfold getv. krun. cbn [wk]. rewrite Hd. cbn [the]. krun.
  by rewrite (bind_ok _ _ _ _ _ (free_desc_run i s e Hi Hf Hp Ht)).
Qed.

Lemma NoDup3 {A} (x y z : A) : NoDup [x; y; z] -> x <> y /\ x <> z /\ y <> z.
Proof. rewrite !NoDup_cons. set_solver. Qed.

Lemma freed_table i s : table_ok s -> table_ok (freed i s).
Proof. intros H. unfold table_ok. simpl. by rewrite wake_length. Qed.

Lemma free_chain_run i0 i1 i2 b write n s e :
  NoDup [i0; i1; i2] -> request (k_vdisk s) i0 i1 i2 b write n -> driver_ok (k_vdisk s) ->
  Forall (fun i => vd_free (k_vdisk s) !! i = Some 0) [i0; i1; i2] -> plocks_free s -> table_ok s ->
  free_chain i0 (mkW s e) = Ok tt (mkW (freed i2 (freed i1 (freed i0 s))) e).
Proof.
  intros (N01 & N02 & N12)%NoDup3 [R0 R1 R2 _] Hd F Hp Ht. rewrite !Forall_cons in F. destruct F as (F0 & F1 & F2 & _).
  assert (B : forall i f, vd_free (k_vdisk s) !! i = Some f -> (i < 8)%nat)
    by (intros i f Hi; apply lookup_lt_Some in Hi; by rewrite (do_free _ Hd) in Hi).
  unfold free_chain. change (S (Z.to_nat NUM)) with 9%nat.
  rewrite (free_chain_step _ _ _ _ _ R0) by eauto. cbn [d_flags d_next]. rewrite Nat2Z.id.
  change (negb _) with true. cbn beta iota.
  assert (R1' : vd_desc (k_vdisk (freed i0 s)) !! i1 = vd_desc (k_vdisk s) !! i1)
    by (simpl; by rewrite list_lookup_alter_ne).
  rewrite R1 in R1'. rewrite (free_chain_step _ _ _ _ _ R1');
    [|by eauto|simpl; by rewrite list_lookup_insert_ne|done|by apply freed_table].
  cbn [d_flags d_next]. rewrite Nat2Z.id.
  replace (negb _) with true by (by destruct write). cbn beta iota.
  assert (R2' : vd_desc (k_vdisk (freed i1 (freed i0 s))) !! i2 = vd_desc (k_vdisk s) !! i2)
    by (simpl; by rewrite !list_lookup_alter_ne).
  rewrite R2 in R2'. rewrite (free_chain_step _ _ _ _ _ R2');
    [done|by eauto|simpl; by rewrite !list_lookup_insert_ne|done|by do 2 apply freed_table].
Qed.

(** * Submitting *)

Lemma offered_new a ring i0 :
  0 <= a -> length ring = 8%nat ->
  <[Z.to_nat (a mod NUM) := Z.of_nat i0]> ring !! Z.to_nat ((u16 (a + 1) - 1 - 0) mod NUM) = Some (Z.of_nat i0).
Proof.
  intros Ha Hl. replace ((u16 (a + 1) - 1 - 0) mod NUM) with (a mod NUM).
  - apply list_lookup_insert_eq. rewrite Hl. unfold NUM. pose proof (Z.mod_pos_bound a 8). lia.
  - unfold u16, NUM. rewrite Z.sub_0_r, <- Zminus_mod_idemp_l.
    rewrite <- (Znumtheory.Zmod_div_mod 8 (2 ^ 16)) by (done || by exists (2 ^ 13)).
    rewrite Zminus_mod_idemp_l. f_equal. lia.
Qed.

(** The state in which the request is submitted. *)
Definition submitted (i0 i1 i2 b : nat) (write : bool) (sector : Z) (s : kst) : kst :=
  s <| k_vdisk ::= (fun v => v
        <| vd_ops ::= <[i0 := mkVreq (if write then VIRTIO_BLK_T_OUT else VIRTIO_BLK_T_IN) 0 sector]> |>
        <| vd_desc ::= alter (fun _ => mkVdesc (DOp i0) sizeof_blk_req VRING_DESC_F_NEXT (Z.of_nat i1)) i0 |>
        <| vd_desc ::= alter (fun _ => mkVdesc (DData b) BSIZE
             (Z.lor (if write then 0 else VRING_DESC_F_WRITE) VRING_DESC_F_NEXT) (Z.of_nat i2)) i1 |>
        <| vd_info_status ::= <[i0 := 0xff]> |>
        <| vd_desc ::= alter (fun _ => mkVdesc (DStatus i0) 1 VRING_DESC_F_WRITE 0) i2 |>
        <| vd_info_b ::= <[i0 := Some b]> |>
        <| vd_avail_ring ::= <[Z.to_nat (vd_avail_idx v mod NUM) := Z.of_nat i0]> |>
        <| vd_avail_idx ::= (fun i => u16 (i + 1)) |>) |>
    <| k_bufs ::= alter (fun x => x <| b_disk := 1 |>) b |>
    <| k_mmio ::= cons (VIRTIO0 + VIRTIO_MMIO_QUEUE_NOTIFY, 0) |>.

Lemma submit_flight i0 i1 i2 b x write s :
  NoDup [i0; i1; i2] -> driver_ok (k_vdisk s) -> 0 <= vd_avail_idx (k_vdisk s) -> table_ok s -> k_power s = None ->
  k_bufs s !! b = Some x -> (forall i, i ∈ [i0; i1; i2] -> (i < 8)%nat) ->
  in_flight b x write i0 i1 i2 (submitted i0 i1 i2 b write (2 * b_blockno x) (taken i0 i1 i2 s)).
Proof.
  intros (N01 & N02 & N12)%NoDup3 [] Ha Ht Hpw Hb HB.
  pose proof (HB i0 ltac:(set_solver)). pose proof (HB i1 ltac:(set_solver)). pose proof (HB i2 ltac:(set_solver)).
  split; simpl; try done.
  - by rewrite list_lookup_alter_eq, Hb.
  - split; simpl; rewrite ?length_insert, ?length_alter; done.
  - split; simpl; rewrite ?list_lookup_insert_eq by lia; try done.
    + rewrite !list_lookup_alter_ne by done. rewrite list_lookup_alter_eq.
      by destruct (lookup_lt_is_Some_2 (vd_desc (k_vdisk s)) i0 ltac:(lia)) as [d ->].
    + rewrite list_lookup_alter_ne by done. rewrite list_lookup_alter_eq, list_lookup_alter_ne by done.
      by destruct (lookup_lt_is_Some_2 (vd_desc (k_vdisk s)) i1 ltac:(lia)) as [d ->].
    + rewrite list_lookup_alter_eq, !list_lookup_alter_ne by done.
      by destruct (lookup_lt_is_Some_2 (vd_desc (k_vdisk s)) i2 ltac:(lia)) as [d ->].
  - exists 0. split; [lia|]. by apply offered_new.
  - by rewrite list_lookup_insert_eq by lia.
  - rewrite !Forall_cons. split_and!; [| | |by constructor].
    + rewrite !list_lookup_insert_ne by done. by rewrite list_lookup_insert_eq by lia.
    + rewrite list_lookup_insert_ne by done. by rewrite list_lookup_insert_eq by (rewrite length_insert; lia).
    + by rewrite list_lookup_insert_eq by (rewrite !length_insert; lia).
Qed.

(** * Completion *)

Lemma u16_next u : 0 <= u < 2 ^ 16 -> u <> u16 (u + 1) /\ u16 (u16 (u + 1) - u) = 1.
Proof.
  intros Hu. unfold u16. split.
  - destruct (decide (u + 1 = 2 ^ 16)) as [E|]; [rewrite E, Z.mod_same by lia; lia|]. rewrite Z.mod_small by lia. lia.
  - rewrite Zminus_mod_idemp_l. replace (u + 1 - u) with 1 by lia. done.
Qed.

(** One entry of the used ring. *)
Lemma intr_loop_one (id b : nat) t e :
  vd_used_idx (k_vdisk t) <> vd_usedr_idx (k_vdisk t) ->
  u16 (vd_used_idx (k_vdisk t) + 1) = vd_usedr_idx (k_vdisk t) ->
  vd_usedr_ring (k_vdisk t) !! Z.to_nat (vd_used_idx (k_vdisk t) mod NUM) = Some (Z.of_nat id) ->
  vd_info_status (k_vdisk t) !! id = Some 0 -> vd_info_b (k_vdisk t) !! id = Some (Some b) ->
  plocks_free t -> table_ok t ->
  intr_loop 2 (mkW t e) = Ok tt (mkW (t <| k_bufs ::= alter (fun x => x <| b_disk := 0 |>) b |>
    <| k_procs ::= wake (Some (ChBuf b)) (k_cur t) |> <| k_vdisk ::= fset vd_used_idx (fun i => u16 (i + 1)) |>) e).
Proof.
  intros Hne Hnx Hr Hs Hb Hp Ht. cbn [intr_loop]. unfold getv, setv, setb. krun. cbn [wk wenv].
  rewrite (proj2 (Z.eqb_neq _ _) Hne). cbn [negb]. rewrite Hr. cbn [the]. krun. rewrite Nat2Z.id, Hs. cbn [the]. krun.
  cbn [Z.eqb negb]. krun. rewrite Hb. cbn [the]. krun. cbn [the]. krun. cbn [wk wenv].
  match goal with |- context [(wakeup _ ≫= _) (mkW ?t' _)] =>
    rewrite (bind_ok _ _ _ _ _ (wakeup_eq (Some (ChBuf b)) t' e Hp Ht)) end.
  krun. match goal with |- context [?a =? ?b'] => rewrite (proj2 (Z.eqb_eq a b') Hnx) end. cbn [negb]. kret.
Qed.

Lemma moved_vdisk b write n s :
  k_vdisk (moved b write n s) = k_vdisk s /\ k_held (moved b write n s) = k_held s /\
  k_cur (moved b write n s) = k_cur s /\ k_procs (moved b write n s) = k_procs s.
Proof. by destruct write. Qed.

Definition handled (b : nat) (t : kst) : kst :=
  t <| k_mmio ::= cons (VIRTIO0 + VIRTIO_MMIO_INTERRUPT_ACK,
                        u32 (Z.land (u32 (vd_reg (k_vdisk t) VIRTIO_MMIO_INTERRUPT_STATUS)) 0x3)) |>
    <| k_bufs ::= alter (fun x => x <| b_disk := 0 |>) b |>
    <| k_procs ::= wake (Some (ChBuf b)) (k_cur t) |>
    <| k_vdisk ::= fset vd_used_idx (fun i => u16 (i + 1)) |>.

Lemma virtio_disk_intr_run (id b : nat) t e :
  0 <= vd_used_idx (k_vdisk t) < 2 ^ 16 -> vd_usedr_idx (k_vdisk t) = u16 (vd_used_idx (k_vdisk t) + 1) ->
  vd_usedr_ring (k_vdisk t) !! Z.to_nat (vd_used_idx (k_vdisk t) mod NUM) = Some (Z.of_nat id) ->
  vd_info_status (k_vdisk t) !! id = Some 0 -> vd_info_b (k_vdisk t) !! id = Some (Some b) ->
  k_held t = [] -> table_ok t ->
  virtio_disk_intr (mkW t e) = Ok tt (mkW (handled b t) e).
Proof.
  intros Hr Hu Hid Hs Hb Hh Ht. destruct (u16_next _ Hr) as [Hne Hone].
  unfold virtio_disk_intr, readR, writeR, mmio, getv. rewrite bind_acquire by (simpl; rewrite Hh; set_solver). krun. cbn [wk wenv].
  match goal with |- context [Z.to_nat (u16 ?a)] => replace (u16 a) with 1 by (simpl; by rewrite Hu, Hone) end.
  change (S (Z.to_nat 1)) with 2%nat.
  match goal with |- context [(intr_loop 2 ≫= _) (mkW ?t' ?e)] => pose (t1 := t') end.
  assert (Hp : plocks_free t1) by (intros i; simpl; rewrite Hh; set_solver).
  rewrite (bind_ok _ _ _ _ _ (intr_loop_one id b t1 e ltac:(simpl; by rewrite Hu) (eq_sym Hu) Hid Hs Hb Hp Ht)).
  rewrite release_ok by (simpl; set_solver). cbn [wk wenv].
  do 2 f_equal. unfold handled, t1. kst_eq. rewrite Hh. by rewrite filter_cons_False by naive_solver.
Qed.

Definition completed (i0 b : nat) (write : bool) (n : Z) (s : kst) : kst :=
  handled b (moved b write n s <| k_vdisk ::= used i0 |>).

Lemma complete_run dev p b x write i0 i1 i2 s :
  blk_device dev -> pending p b x write i0 i1 i2 s ->
  complete dev i0 s = completed i0 b write (b_blockno x) s.
Proof.
  intros Hdev [[_ _ Ht [] Hrq Hof Hin _] Hh _ _]. unfold complete, completed. rewrite (Hdev _ _ _ _ _ _ _ Hrq Hof).
  destruct (moved_vdisk b write (b_blockno x) s) as (Ev & Eh & Ec & Ep).
  rewrite (virtio_disk_intr_run i0 b); [done|..]; simpl; rewrite ?Ev; simpl; rewrite <- ?do_idx0; try done.
  - apply list_lookup_insert_eq. rewrite do_usedr0. unfold NUM. pose proof (Z.mod_pos_bound (vd_used_idx (k_vdisk s)) 8). lia.
  - apply list_lookup_insert_eq. apply lookup_lt_Some in Hin. lia.
  - by rewrite Eh.
  - unfold table_ok. simpl. by rewrite Ep.
Qed.

(** * Waiting *)

Section wait.
Context (dev : nat -> kst -> kst) (Hdev : blk_device dev).
Context (p b : nat) (x : buf) (write : bool) (i0 i1 i2 : nat) (rest : list (kst -> kst)).

Local Notation pend := (pending p b x write i0 i1 i2).
Local Notation flight := (in_flight b x write i0 i1 i2).
Local Notation fin := (completed i0 b write (b_blockno x)).

(** What other threads do does not touch the request. *)
Definition keeps (fs : list (kst -> kst)) : Prop := Forall (fun f => forall t, pend t -> pend (f t)) fs.

Lemma flight_frame s s' :
  flight s -> k_bufs s' = k_bufs s -> k_power s' = k_power s -> k_vdisk s' = k_vdisk s ->
  length (k_procs s') = length (k_procs s) -> flight s'.
Proof. intros [] Eb Ep Ev El. unfold table_ok in *. split; unfold table_ok; rewrite ?Eb, ?Ep, ?Ev, ?El; done. Qed.

Lemma flight_asleep s pr : flight s -> k_procs s !! p = Some pr -> pend (asleep_on p (ChBuf b) s).
Proof.
  intros Hf Hp. split; [|done|done|].
  - eapply flight_frame; [done|done|done|done|]. simpl. apply length_alter.
  - simpl. rewrite list_lookup_alter_eq, Hp. eexists. split; [done|]. by right.
Qed.

Lemma pending_resume s : pend s -> flight (awake p LVdisk (resume p s)).
Proof. intros [Hf _ _ _]. eapply flight_frame; [done|done|done|done|]. simpl. by rewrite !length_alter. Qed.

(** The interrupt wakes the process. *)
Lemma completed_wakes s : pend s -> exists pr, k_procs (fin s) !! p = Some pr /\ p_state pr = RUNNABLE.
Proof.
  intros [_ _ Hc (pr & Hp & Hst)]. simpl.
  destruct (moved_vdisk b write (b_blockno x) s) as (_ & _ & -> & ->). unfold wake. rewrite list_lookup_imap, Hp. simpl.
  rewrite bool_decide_eq_false_2 by naive_solver. eexists. split; [done|]. unfold wake1.
  destruct Hst as [Hst|[Hst Hch]].
  - by rewrite bool_decide_eq_false_2 by (by rewrite Hst).
  - by rewrite !bool_decide_eq_true_2.
Qed.

Lemma switch_pending : forall fs t, pend t -> keeps fs ->
  (exists s1, pend s1 /\ (fs = [] -> s1 = t) /\
     switch_env p (fs ++ complete dev i0 :: rest) t = Ok tt (mkW (resume p (fin s1)) rest)) \/
  (exists t' fs', pend t' /\ keeps fs' /\ (length fs' < length fs)%nat /\
     switch_env p (fs ++ complete dev i0 :: rest) t = Ok tt (mkW (resume p t') (fs' ++ complete dev i0 :: rest))).
Proof using Hdev.
  induction fs as [|f fs IH]; intros t Ht Hk; cbn [app switch_env].
  - left. exists t. split_and!; [done|done|]. rewrite (complete_run dev p b x write i0 i1 i2 t Hdev Ht).
    destruct (completed_wakes t Ht) as (pr & -> & Hst). by rewrite decide_True.
  - apply Forall_cons in Hk as [Hf Hk]. pose proof (Hf t Ht) as Ht'. destruct (pd_proc _ _ _ _ _ _ _ _ Ht') as (pr & Hp & _).
    rewrite Hp. case_decide.
    + right. exists (f t), fs. split_and!; [done|done|simpl; lia|done].
    + destruct (IH (f t) Ht' Hk) as [(s1 & H1 & _ & E)|(t' & fs' & H1 & H2 & H3 & E)]; [left|right].
      * exists s1. by split_and!.
      * exists t', fs'. split_and!; [done|done|simpl; lia|done].
Qed.

Lemma rw_wait_step k y s e : k_bufs s !! b = Some y ->
  rw_wait (S k) b (mkW s e) =
    (if b_disk y =? 1 then sleep (ChBuf b) LVdisk;; rw_wait k b else mret tt) (mkW s e).
Proof. intros Hy. cbn [rw_wait]. unfold getb. krun. cbn [wk]. by rewrite Hy. Qed.

Lemma completed_buf s : pend s -> exists y, k_bufs (fin s) !! b = Some y /\ b_disk y = 0.
Proof.
  intros [[Hb _ _ _ _ _ _ _] _ _ _]. unfold completed, moved. destruct write; simpl.
  - rewrite list_lookup_alter_eq, Hb. by eexists.
  - rewrite !list_lookup_alter_eq, Hb. by eexists.
Qed.

Lemma woken_bufs s : k_bufs (awake p LVdisk (resume p s)) = k_bufs s.
Proof. done. Qed.

Lemma rw_wait_run : forall fuel fs s pr,
  (length fs < fuel)%nat -> flight s -> k_cur s = Some p -> k_held s = [LVdisk] -> k_procs s !! p = Some pr -> keeps fs ->
  exists s1, pend s1 /\ (fs = [] -> s1 = asleep_on p (ChBuf b) s) /\
    rw_wait (S fuel) b (mkW s (fs ++ complete dev i0 :: rest)) = Ok tt (mkW (awake p LVdisk (resume p (fin s1))) rest).
Proof using Hdev.
  induction fuel as [|fuel IH]; intros fs s pr Hfu Hs Hc Hh Hp Hk; [lia|].
  rewrite (rw_wait_step _ _ _ _ (fl_buf _ _ _ _ _ _ _ Hs)). change (b_disk (x <| b_disk := 1 |>) =? 1) with true. cbn beta iota.
  pose proof (sleep_run p (ChBuf b) LVdisk s (fs ++ complete dev i0 :: rest) pr Hc Hh ltac:(done) Hp) as Es.
  destruct (switch_pending fs _ (flight_asleep s pr Hs Hp) Hk) as [(s1 & H1 & H2 & E)|(t' & fs' & H1 & H2 & H3 & E)];
    rewrite E in Es; cbn [wk wenv] in Es; rewrite (bind_ok _ _ _ _ _ Es).
  - exists s1. split_and!; [done|done|]. destruct (completed_buf s1 H1) as (y & Hy & Hd).
    rewrite (rw_wait_step fuel y) by (by rewrite woken_bufs).
    rewrite Hd. by generalize (awake p LVdisk (resume p (fin s1))).
  - destruct (pd_proc _ _ _ _ _ _ _ _ H1) as (pr' & Hp' & _).
    destruct (IH fs' (awake p LVdisk (resume p t')) (pr' <| p_state := RUNNING |> <| p_chan := None |>)) as (s1 & G1 & _ & G3);
      [lia|by apply pending_resume|done|done| |done|].
    { simpl. by rewrite !list_lookup_alter_eq, Hp'. }
    exists s1. split_and!; [done| |done]. intros ->. simpl in H3. lia.
Qed.
End wait.

(** * The whole transfer *)

Lemma completed_driver i0 b write n s : driver_ok (k_vdisk s) -> driver_ok (k_vdisk (completed i0 b write n s)).
Proof.
  intros []. unfold completed. simpl. rewrite (proj1 (moved_vdisk b write n s)).
  split; simpl; rewrite ?length_insert; try done; [by rewrite do_idx0|]. unfold u16. apply Z.mod_pos_bound. lia.
Qed.

Lemma rw_format_run i0 i1 i2 b write n (k : K unit) s e :
  (rw_format i0 i1 i2 b write n;;
   setb b (fun x => x <| b_disk := 1 |>);;
   setv (fun v => v <| vd_info_b ::= <[i0 := Some b]> |>);;
   setv (fun v => v <| vd_avail_ring ::= <[Z.to_nat (vd_avail_idx v mod NUM) := Z.of_nat i0]> |>);;
   setv (fun v => v <| vd_avail_idx ::= (fun i => u16 (i + 1)) |>);;
   writeR VIRTIO_MMIO_QUEUE_NOTIFY 0;; k) (mkW s e) = k (mkW (submitted i0 i1 i2 b write n s) e).
Proof. reflexivity. Qed.

(** The state after the descriptors are given back. *)
Definition released (i0 i1 i2 : nat) (s : kst) : kst :=
  freed i2 (freed i1 (freed i0 (s <| k_vdisk ::= fset vd_info_b <[i0 := None]> |>))) <| k_held := [] |>.

Lemma rw_release i0 i1 i2 b write n s e p :
  NoDup [i0; i1; i2] -> request (k_vdisk s) i0 i1 i2 b write n -> driver_ok (k_vdisk s) ->
  Forall (fun i => vd_free (k_vdisk s) !! i = Some 0) [i0; i1; i2] -> k_held s = [LVdisk] -> k_cur s = Some p -> table_ok s ->
  (setv (fun v => v <| vd_info_b ::= <[i0 := None]> |>);; free_chain i0;; release LVdisk) (mkW s e) =
    Ok tt (mkW (released i0 i1 i2 s) e).
Proof.
  intros Hnd Hr Hd Hf Hh Hc Ht. unfold setv. rewrite bind_modify. cbn [wk wenv].
  pose (t := s <| k_vdisk ::= fset vd_info_b <[i0 := None]> |>).
  assert (E : free_chain i0 (mkW t e) = Ok tt (mkW (freed i2 (freed i1 (freed i0 t))) e)).
  { apply (free_chain_run i0 i1 i2 b write n); [done|by destruct Hr| |done| |done].
    - destruct Hd. split; simpl; rewrite ?length_insert; done.
    - intros i. simpl. rewrite Hh. set_solver. }
  rewrite (bind_ok _ _ _ _ _ E). rewrite release_ok by (simpl; rewrite Hh; set_solver). cbn [wk wenv].
  do 2 f_equal. unfold released. kst_eq. rewrite Hh. by rewrite filter_cons_False by naive_solver.
Qed.

Lemma nfree_release l i : l !! i = Some 0 -> nfree (<[i := 1]> l) = S (nfree l).
Proof.
  intros Hi. rewrite (nfree_insert _ i 1) by (by rewrite ?list_lookup_insert_eq by (by eapply lookup_lt_Some)).
  by rewrite list_insert_insert_eq, list_insert_id.
Qed.

Lemma released_driver i0 i1 i2 s :
  NoDup [i0; i1; i2] -> driver_ok (k_vdisk s) -> Forall (fun i => vd_free (k_vdisk s) !! i = Some 0) [i0; i1; i2] ->
  driver_ok (k_vdisk (released i0 i1 i2 s)) /\
  nfree (vd_free (k_vdisk (released i0 i1 i2 s))) = (3 + nfree (vd_free (k_vdisk s)))%nat.
Proof.
  intros (N01 & N02 & N12)%NoDup3 [] F. rewrite !Forall_cons in F. destruct F as (F0 & F1 & F2 & _). split.
  - split; simpl; rewrite ?length_insert, ?length_alter, ?length_insert; done.
  - simpl. rewrite nfree_release by (by rewrite !list_lookup_insert_ne). rewrite nfree_release by (by rewrite !list_lookup_insert_ne).
    by rewrite nfree_release.
Qed.

Lemma virtio_disk_rw_run b x write s e :
  k_bufs s !! b = Some x -> k_power s = None ->
  virtio_disk_rw b write (mkW s e) = Ok tt (mkW (moved b write (b_blockno x) s) e).
Proof.
  intros Hb Hp. unfold virtio_disk_rw, disk_write, getb, setb, moved. krun. cbn [wk]. rewrite Hb. cbn [the]. krun.
  destruct write; cbn [wk wenv].
  - rewrite Hp. kret; by rewrite ?Hb, ?Hp.
  - krun. unfold modify. kret. by apply list_alter_ext; [|done]; intros y Hy; rewrite Hb in Hy; injection Hy as <-.
Qed.

(** Only the disk, its buffers and driver, and the scheduling of threads differ. *)
Definition only_io (s s' : kst) : Prop :=
  s' = s <| k_disk := k_disk s' |> <| k_bufs := k_bufs s' |> <| k_vdisk := k_vdisk s' |> <| k_procs := k_procs s' |>
         <| k_mmio := k_mmio s' |> <| k_held := k_held s' |> <| k_cur := k_cur s' |>.

Lemma only_io_trans s1 s2 s3 : only_io s1 s2 -> only_io s2 s3 -> only_io s1 s3.
Proof. destruct s1, s2, s3. unfold only_io. cbv. intros [=] [=]. by subst. Qed.

Lemma only_io_moved b write n s : only_io s (moved b write n s).
Proof. destruct write; unfold only_io, moved; kst_eq. Qed.

Lemma only_io_handled b f s : only_io s (handled b (s <| k_vdisk ::= f |>)).
Proof. unfold only_io, handled. kst_eq. Qed.

Lemma only_io_woken p s : only_io s (awake p LVdisk (resume p s)).
Proof. unfold only_io, awake, resume. kst_eq. Qed.

Lemma only_io_freed i s : only_io s (freed i s).
Proof. unfold only_io, freed. kst_eq. Qed.

Lemma only_io_released i0 i1 i2 s : only_io s (released i0 i1 i2 s).
Proof.
  unfold released. set (t := s <| k_vdisk ::= _ |>). assert (Ht : only_io s t) by (unfold only_io, t; kst_eq).
  assert (Hf : only_io s (freed i2 (freed i1 (freed i0 t)))) 
    by (do 3 (eapply only_io_trans; [|apply only_io_freed]); exact Ht).
  eapply only_io_trans; [exact Hf|]. generalize (freed i2 (freed i1 (freed i0 t))). intros u. unfold only_io. kst_eq.
Qed.

Lemma transfer_frame i0 i1 i2 p b write n s :
  only_io s (released i0 i1 i2 (awake p LVdisk (resume p (completed i0 b write n s)))).
Proof.
  unfold completed. eapply only_io_trans; [apply (only_io_moved b write n)|]. eapply only_io_trans; [apply only_io_handled|].
  eapply only_io_trans; [apply only_io_woken|]. apply only_io_released.
Qed.

Lemma released_io i0 i1 i2 s :
  k_disk (released i0 i1 i2 s) = k_disk s /\ k_bufs (released i0 i1 i2 s) = k_bufs s /\ k_cur (released i0 i1 i2 s) = k_cur s.
Proof. done. Qed.

Lemma completed_io i0 b write n s :
  k_disk (completed i0 b write n s) = k_disk (moved b write n s) /\
  k_bufs (completed i0 b write n s) = alter (fun y => y <| b_disk := 0 |>) b (k_bufs (moved b write n s)).
Proof. unfold completed. by generalize (moved b write n s). Qed.

Lemma rw_alloc_run k idx s t e :
  alloc3_desc (mkW s e) = Ok (Some idx) (mkW t e) -> rw_alloc (S k) (mkW s e) = Ok idx (mkW t e).
Proof. intros E. cbn [rw_alloc]. by rewrite (bind_ok _ _ _ _ _ E). Qed.

(** A completed request still has its descriptors. *)
Lemma woken_request p i0 i1 i2 b x write s :
  in_flight b x write i0 i1 i2 s ->
  let s3 := awake p LVdisk (resume p (completed i0 b write (b_blockno x) s)) in
  request (k_vdisk s3) i0 i1 i2 b write (2 * b_blockno x) /\ driver_ok (k_vdisk s3) /\
  vd_free (k_vdisk s3) = vd_free (k_vdisk s) /\ table_ok s3 /\
  k_disk s3 = k_disk (moved b write (b_blockno x) s) /\
  k_bufs s3 = alter (fun y => y <| b_disk := 0 |>) b (k_bufs (moved b write (b_blockno x) s)).
Proof.
  intros [_ _ Ht Hd Hr _ _ _]. pose proof (completed_driver i0 b write (b_blockno x) s Hd) as Hd'.
  destruct (completed_io i0 b write (b_blockno x) s) as (Ed & Eb).
  destruct (moved_vdisk b write (b_blockno x) s) as (Ev & _ & _ & Ep).
  assert (Hc : request (k_vdisk (completed i0 b write (b_blockno x) s)) i0 i1 i2 b write (2 * b_blockno x) /\
    vd_free (k_vdisk (completed i0 b write (b_blockno x) s)) = vd_free (k_vdisk s) /\
    length (k_procs (completed i0 b write (b_blockno x) s)) = length (k_procs s)).
  { unfold completed. simpl. rewrite Ev, Ep, wake_length. by destruct Hr. }
  destruct Hc as (Hr' & Hf' & Hl). revert Hd' Ed Eb Hr' Hf' Hl. generalize (completed i0 b write (b_blockno x) s). intros t ? <- <- ? <- ?.
  split_and!; try done. unfold table_ok in *. simpl. rewrite !length_alter. congruence.
Qed.

(** The parts of virtio_disk_rw put together. *)
Lemma virtio_rw_run i0 i1 i2 b x write s s0 s1 env s3 s' rest :
  k_bufs s !! b = Some x -> 0 <= b_blockno x < 2 ^ 31 -> k_held s = [] -> s0 = s <| k_held ::= cons LVdisk |> ->
  alloc3_desc (mkW s0 env) = Ok (Some [i0; i1; i2]) (mkW s1 env) ->
  rw_wait (S (length env)) b (mkW (submitted i0 i1 i2 b write (2 * b_blockno x) s1) env) = Ok tt (mkW s3 rest) ->
  (setv (fun v => v <| vd_info_b ::= <[i0 := None]> |>);; free_chain i0;; release LVdisk) (mkW s3 rest) = Ok tt (mkW s' rest) ->
  virtio_rw b write (mkW s env) = Ok tt (mkW s' rest).
Proof.
  intros Hb Hbn Hh Hs0 Eal Ew Erl. unfold virtio_rw, getb. rewrite bind_assoc, bind_gets.
  rewrite (bind_the _ _ _ x Hb), bind_acquire by (cbn [wk]; rewrite Hh; set_solver). cbn [wk wenv].
  replace (u32 (b_blockno x * (BSIZE / 512))) with (2 * b_blockno x).
  2:{ change (BSIZE / 512) with 2. unfold u32. rewrite Z.mod_small; lia. }
  rewrite <- Hs0.
  rewrite (bind_ok (fun w => rw_alloc (S (length (wenv w))) w) _ _ _ _ (rw_alloc_run _ _ _ _ _ Eal)).
  rewrite (bind_the _ _ _ i0), (bind_the _ _ _ i1), (bind_the _ _ _ i2) by done.
  rewrite rw_format_run.
  rewrite (bind_ok (fun w => rw_wait (S (length (wenv w))) b w) _ _ _ _ Ew). exact Erl.
Qed.


(** A device that follows the chain from its head. *)
Definition demo_device (i0 : nat) (s : kst) : kst :=
  let v := k_vdisk s in
  match vd_ops v !! i0, vd_desc v !! i0 with
  | Some q, Some d =>
      match d_addr <$> vd_desc v !! Z.to_nat (d_next d) with
      | Some (DData b) => moved b (q_type q =? VIRTIO_BLK_T_OUT) (q_sector q / 2) s <| k_vdisk ::= used i0 |>
      | _ => s
      end
  | _, _ => s
  end.

Lemma demo_device_ok : blk_device demo_device.
Proof.
  intros i0 i1 i2 b write n s [R0 R1 _ R3] _. unfold demo_device. rewrite R3, R0. cbn [d_next]. rewrite Nat2Z.id, R1.
  cbn [fmap option_fmap option_map d_addr q_type q_sector]. rewrite Z.mul_comm, Z.div_mul by lia. by destruct write.
Qed.

Definition demo_disk : kst :=
  demo_sched <| k_vdisk ::= fset vd_free (fun _ => replicate 8 1) |> <| k_bufs ::= alter (fun x => x <| b_blockno := 5 |>) 3%nat |>.
Definition demo_other (s : kst) : kst := s <| k_ticks ::= Z.succ |>.

Lemma demo_other_keeps p b x write i0 i1 i2 : keeps p b x write i0 i1 i2 [demo_other].
Proof.
  constructor; [|constructor]. intros t [Hf Hh Hc Hp]. split; [|done|done|done]. by eapply flight_frame.
Qed.

