(* ===== verification/Trap.v ===== *)
(** kernel/trap.c with kernel/plic.c: traps from user space and from the kernel,
    device and timer interrupts; and forkret of kernel/proc.c.

    [k_csr] holds the supervisor registers of the running CPU.  Its SIE bit
    follows intr_on and intr_off; the locks of State.v keep interrupts off by
    themselves (Spinlock.v). *)

From S2P Require Import Prelude Numeral Riscv State Sched Printf Fs Console Proc Virtio Syscall.

(** * The interrupt controller *)

Definition PLIC_SENABLE (hart : Z) : Z := PLIC + 0x2080 + hart * 0x100.
Definition PLIC_SPRIORITY (hart : Z) : Z := PLIC + 0x201000 + hart * 0x2000.
Definition PLIC_SCLAIM (hart : Z) : Z := PLIC + 0x201004 + hart * 0x2000.

(** void plicinit(void) *)
Definition plicinit : K unit :=
  mmio (PLIC + UART0_IRQ * 4) 1;;
  mmio (PLIC + VIRTIO0_IRQ * 4) 1.

(** void plicinithart(void) *)
Definition plicinithart : K unit :=
  hart ← cpuid;
  mmio (PLIC_SENABLE hart) (Z.lor (Z.shiftl 1 UART0_IRQ) (Z.shiftl 1 VIRTIO0_IRQ));;
  mmio (PLIC_SPRIORITY hart) 0.

(** int plic_claim(void); a read of the claim register takes the interrupt *)
Definition plic_claim : K Z :=
  irqs ← gets k_irqs;
  match irqs with
  | [] => mret 0
  | irq :: rest => modify (fun s => s <| k_irqs := rest |>);; mret (i32 irq)
  end.

(** void plic_complete(int irq) *)
Definition plic_complete (irq : Z) : K unit :=
  hart ← cpuid;
  mmio (PLIC_SCLAIM hart) (u32 irq).

(** * Traps *)

(** void trapinithart(void) *)
Definition trapinithart : K unit :=
  v ← gets (fun s => sym_kernelvec (k_sym s));
  setcsr (w_stvec v).

(** void clockintr() *)
Definition clockintr : K unit :=
  id ← cpuid;
  when (id =? 0)
    (acquire LTicks;;
     modify (fun s => s <| k_ticks ::= (fun t => u32 (t + 1)) |>);;
     wakeup (Some ChTicks);;
     release LTicks);;
  setcsr (fun c => w_stimecmp (u64 (r_time c + 1000000)) c).

(** int devintr() *)
Definition devintr : K Z :=
  scause ← getcsr r_scause;
  if scause =? 0x8000000000000009 then
    irq ← plic_claim;
    (if irq =? UART0_IRQ then uartintr
     else if irq =? VIRTIO0_IRQ then virtio_disk_intr
     else when (negb (irq =? 0))
            (printf (chars "unexpected interrupt irq=%d" ++ [10]) [VInt irq];; mret tt));;
    when (negb (irq =? 0)) (plic_complete irq);;
    mret 1
  else if scause =? 0x8000000000000005 then
    clockintr;;
    mret 2
  else mret 0.

(** void usertrapret(void); the result is the argument userret is called with *)
Definition usertrapret : K Z :=
  me ← myproc;
  p ← the me;
  intr_off;;
  tramp ← gets k_trampoline;
  sym ← gets k_sym;
  setcsr (w_stvec (u64 (TRAMPOLINE + (sym_uservec sym - tramp))));;
  satp ← getcsr r_satp;
  tf_set p TF_kernel_satp satp;;
  pr ← getp p;
  tf_set p TF_kernel_sp (u64 (p_kstack pr + PGSIZE));;
  tf_set p TF_kernel_trap (sym_usertrap sym);;
  tp ← getcsr r_tp;
  tf_set p TF_kernel_hartid tp;;
  x ← getcsr r_sstatus;
  let x := Z.land x (u64 (Z.lnot SSTATUS_SPP)) in
  let x := Z.lor x SSTATUS_SPIE in
  setcsr (w_sstatus x);;
  epc ← tf_get p TF_epc;
  setcsr (w_sepc epc);;
  pr ← getp p;
  mret (MAKE_SATP (p_pagetable pr)).

(** The messages of usertrap about an unexpected trap. *)
Definition unexpected_trap (p : nat) : K unit :=
  scause ← getcsr r_scause;
  pr ← getp p;
  printf (chars "usertrap(): unexpected scause 0x%lx pid=%d" ++ [10]) [VU64 scause; VInt (p_pid pr)];;
  sepc ← getcsr r_sepc;
  stval ← getcsr r_stval;
  printf (chars "            sepc=0x%lx stval=0x%lx" ++ [10]) [VU64 sepc; VU64 stval];;
  mret tt.

(** void usertrap(void) *)
Definition usertrap (pad : list Z) : K Z :=
  sstatus ← getcsr r_sstatus;
  when (negb (Z.land sstatus SSTATUS_SPP =? 0)) (panic "usertrap: not from user mode");;
  trapinithart;;
  me ← myproc;
  p ← the me;
  sepc ← getcsr r_sepc;
  tf_set p TF_epc sepc;;
  scause ← getcsr r_scause;
  which_dev ←
    (if scause =? 8 then
       k ← killed p;
       when (negb (k =? 0)) (exit (-1));;
       epc ← tf_get p TF_epc;
       tf_set p TF_epc (u64 (epc + 4));;
       intr_on;;
       syscall pad;;
       mret 0
     else
       d ← devintr;
       when (d =? 0) (unexpected_trap p;; setkilled p);;
       mret d);
  k ← killed p;
  when (negb (k =? 0)) (exit (-1));;
  when (which_dev =? 2) yield;;
  usertrapret.

(** void kerneltrap() *)
Definition kerneltrap : K unit :=
  sepc ← getcsr r_sepc;
  sstatus ← getcsr r_sstatus;
  scause ← getcsr r_scause;
  when (Z.land sstatus SSTATUS_SPP =? 0) (panic "kerneltrap: not from supervisor mode");;
  on ← intr_get;
  when on (panic "kerneltrap: interrupts enabled");;
  which_dev ← devintr;
  when (which_dev =? 0)
    (sepc ← getcsr r_sepc;
     stval ← getcsr r_stval;
     printf (chars "scause=0x%lx sepc=0x%lx stval=0x%lx" ++ [10]) [VU64 scause; VU64 sepc; VU64 stval];;
     panic "kerneltrap");;
  me ← myproc;
  when ((which_dev =? 2) && bool_decide (is_Some me)) yield;;
  setcsr (w_sepc sepc);;
  setcsr (w_sstatus sstatus).

(** void forkret(void) *)
Definition forkret : K Z :=
  me ← myproc;
  p ← the me;
  release (LProc p);;
  first ← gets k_first;
  when (negb (first =? 0))
    (fsinit ROOTDEV;;
     modify (fun s => s <| k_first := 0 |>));;
  usertrapret.
