(* ===== verification/ProcSpec.v ===== *)
(** Processes make progress: a pass of the scheduler, with the schedulers of other harts
    beside it, runs every process that stays ready, and a process that sleeps for n
    ticks goes on at the n-th. *)

From S2P Require Import Prelude Riscv Memory State Sched Proc Args Sysfile Sysproc Trap.

(** * The scheduler *)

(** Process [q] is ready. *)
Definition ready (s : kst) (q : nat) : Prop := exists pr, k_procs s !! q = Some pr /\ p_state pr = RUNNABLE.

#[export] Instance ready_dec s q : Decision (ready s q).
Proof.
  refine (match k_procs s !! q as o return k_procs s !! q = o -> _ with
    | Some pr => fun E => match decide (p_state pr = RUNNABLE) with left H => left _ | right H => right _ end
    | None => fun E => right _
    end eq_refl); [by exists pr|intros (pr' & E' & H'); congruence..|intros (pr' & E' & _); congruence].
Defined.

(** One process's turn, and a pass over a list of processes that gives a turn to
    each that is ready when it is reached: who got a turn, and the state after it, if
    all turns end. *)
Section pass.
Context (others : nat -> kst -> kst) (run : nat -> kst -> option kst).

Definition chosen (p : nat) (s : kst) : kst :=
  s <| k_held := [LProc p] |> <| k_procs ::= alter (fun pr => pr <| p_state := RUNNING |>) p |> <| k_cur := Some p |>.
Definition back (s : kst) : kst := s <| k_cur := None |> <| k_held := [] |>.
Fixpoint pass (l : list nat) (s : kst) : list nat * option kst :=
  match l with
  | [] => ([], Some s)
  | p :: l' =>
      if decide (ready (others p s) p) then
        match run p (chosen p (others p s)) with
        | Some s1 => let '(ran, r) := pass l' (back s1) in (p :: ran, r)
        | None => ([p], None)
        end
      else pass l' (others p s)
  end.
End pass.

(** What the other threads and harts may do.  A thread comes back with its own lock
    held and no other; other harts leave this hart's locks and current process alone.
    The schedulers of other harts may take the processes in [T] while the round runs; a
    ready process not in [T] stays ready until it is chosen here. *)
Record harts_ok (T : nat -> Prop) (others : nat -> kst -> kst) (run : nat -> kst -> option kst) : Prop := {
  ho_run_held : forall p s s', run p s = Some s' -> k_held s = [LProc p] -> k_held s' = [LProc p];
  ho_run_table : forall p s s', run p s = Some s' -> table_ok s -> table_ok s';
  ho_run_ready : forall p q s s', run p s = Some s' -> q <> p -> ~ T q -> ready s q -> ready s' q;
  ho_held : forall p s, k_held (others p s) = k_held s;
  ho_cur : forall p s, k_cur (others p s) = k_cur s;
  ho_table : forall p s, table_ok s -> table_ok (others p s);
  ho_ready : forall p q s, ~ T q -> ready s q -> ready (others p s) q;
}.

Section scheduler.
Context (T : nat -> Prop) (others : nat -> kst -> kst) (run : nat -> kst -> option kst).
Context (Hok : harts_ok T others run).

Lemma chosen_table p s : table_ok s -> table_ok (chosen p s).
Proof. intros Ht. unfold table_ok. simpl. by rewrite length_alter. Qed.

Lemma chosen_ready p q s : q <> p -> ready s q -> ready (chosen p s) q.
Proof. intros Hne (pr & E & H). exists pr. simpl. by rewrite list_lookup_alter_ne. Qed.

(** The code does what [pass] says. *)
Lemma scheduler_round_pass l : forall found s e,
  table_ok s -> k_held s = [] -> k_cur s = None -> Forall (fun p => (p < Z.to_nat NPROC)%nat) l ->
  match pass others run l s with
  | (ran, Some s') =>
      scheduler_round others run l found (mkW s e) = Ok (found || bool_decide (ran <> [])) (mkW s' e) /\
      table_ok s' /\ k_held s' = [] /\ k_cur s' = None
  | (ran, None) => exists p s1, scheduler_round others run l found (mkW s e) = Asleep (mkW s1 e) /\
      last ran = Some p /\ k_cur s1 = Some p /\ run p s1 = None
  end.
Proof using Hok.
  induction l as [|p l IH]; intros found s e Ht Hh Hc Hl; cbn [pass scheduler_round].
  { rewrite bool_decide_eq_false_2 by naive_solver. by rewrite orb_false_r. }
  apply Forall_cons in Hl as [Hp Hl]. set (s0 := others p s).
  assert (Ht0 : table_ok s0) by (by apply (ho_table _ _ _ Hok)). assert (Hh0 : k_held s0 = []) by (by rewrite <- Hh; apply (ho_held _ _ _ Hok)).
  assert (Hc0 : k_cur s0 = None) by (by rewrite <- Hc; apply (ho_cur _ _ _ Hok)).
  destruct (lookup_lt_is_Some_2 (k_procs s0) p) as [pr Hpr]; [by rewrite Ht0|].
  rewrite bind_modify. cbn [wk wenv]. fold s0. unfold getp, setp. rewrite bind_acquire by (simpl; rewrite Hh0; set_solver).
  krun. cbn [wk wenv]. simpl k_procs. rewrite Hpr. cbn [the]. krun.
  destruct (decide (p_state pr = RUNNABLE)) as [Hst|Hst].
  - rewrite (decide_True _ _ (ex_intro _ pr (conj Hpr Hst) : ready s0 p)). krun. cbn [wk wenv].
    replace (s0 <| k_held ::= cons (LProc p) |> <| k_procs ::= alter (fun pr => pr <| p_state := RUNNING |>) p |> <| k_cur := Some p |>)
      with (chosen p s0) by (unfold chosen; kst_eq; by rewrite Hh0).
    destruct (run p (chosen p s0)) as [s1|] eqn:Er.
    2: { exists p, (chosen p s0). split_and!; [|done..]. unfold mbind, K_bind, swtch_to. cbn [wk]. by rewrite Er. }
    rewrite (bind_ok _ _ _ tt (mkW s1 e)) by (unfold swtch_to; cbn [wk]; by rewrite Er).
    pose proof (ho_run_held _ _ _ Hok _ _ _ Er eq_refl) as Hh1. pose proof (ho_run_table _ _ _ Hok _ _ _ Er (chosen_table p s0 Ht0)) as Ht1.
    specialize (IH true (back s1) e Ht1 eq_refl eq_refl Hl). krun. rewrite bind_release by (simpl; rewrite Hh1; set_solver). cbn [wk wenv].
    match goal with |- context [scheduler_round _ _ _ _ (mkW ?t _)] => replace t with (back s1) end.
    2: { unfold back. kst_eq. by rewrite Hh1, filter_cons_False by naive_solver. }
    destruct (pass others run l (back s1)) as [ran [s'|]].
    + destruct IH as (E & IH). split; [|done]. rewrite E. f_equal. cbn [orb]. by rewrite (bool_decide_eq_true_2 (p :: ran <> [])), orb_true_r by done.
    + destruct IH as (p' & s2 & E & El & IH). exists p', s2. split_and!; [done| |apply IH..]. by destruct ran.
  - rewrite (decide_False (P := ready s0 p)) by (intros (pr' & E' & H'); congruence).
    specialize (IH found s0 e Ht0 Hh0 Hc0 Hl). rewrite bind_release by (simpl; set_solver). cbn [wk wenv].
    rewrite held_restore by (rewrite Hh0; set_solver). exact IH.
Qed.

(** Who gets a turn. *)
Lemma pass_ran l : forall s, NoDup l ->
  NoDup (pass others run l s).1 /\ (pass others run l s).1 ⊆ l /\
  (is_Some (pass others run l s).2 -> forall p, p ∈ l -> ~ T p -> ready s p -> p ∈ (pass others run l s).1).
Proof using Hok.
  induction l as [|q l IH]; intros s Hn; cbn [pass].
  { split_and!; [constructor|done|]. intros _ p Hp. by apply elem_of_nil in Hp. }
  apply NoDup_cons in Hn as [Hq Hn]. case_decide as Hr.
  - destruct (run q (chosen q (others q s))) as [s1|] eqn:Er.
    + destruct (IH (back s1) Hn) as (H1 & H2 & H3). destruct (pass others run l (back s1)) as [ran r]. simpl in *.
      split_and!; [by constructor; [set_solver|]|set_solver|].
      intros Hs p Hp HT Hrp. apply elem_of_cons in Hp as [->|Hp]; [left|right]. apply (H3 Hs p Hp HT).
      assert (Hne : p <> q) by (by intros ->).
      apply (ho_run_ready _ _ _ Hok q p _ s1 Er Hne HT), chosen_ready, (ho_ready _ _ _ Hok); done.
    + simpl. split_and!; [apply NoDup_singleton|set_solver|by intros [? ?]].
  - destruct (IH (others q s) Hn) as (H1 & H2 & H3). split_and!; [done|set_solver|].
    intros Hs p Hp HT Hrp. pose proof (ho_ready _ _ _ Hok q p s HT Hrp) as Hrp'.
    apply elem_of_cons in Hp as [->|Hp]; [done|]. by apply (H3 Hs p).
Qed.
End scheduler.

(** The interrupts between two rounds, and what other harts do meanwhile: handlers
    return without locks, and make no process wait that is ready. *)
Record intr_ok (T : nat -> Prop) (intr : kst -> kst) : Prop := {
  io_held : forall s, k_held s = [] -> k_held (intr s) = [];
  io_cur : forall s, k_cur s = None -> k_cur (intr s) = None;
  io_table : forall s, table_ok s -> table_ok (intr s);
  io_ready : forall q s, ~ T q -> ready s q -> ready (intr s) q;
}.

(** The state in which the round over the table starts. *)
Definition at_round (intr : kst -> kst) (s : kst) : kst :=
  intr (s <| k_cur := None |> <| k_csr ::= fset csr_sstatus (fun x => Z.lor x SSTATUS_SIE) |>)
    <| k_csr ::= fset csr_sstatus (fun x => Z.land x (u64 (Z.lnot SSTATUS_SIE))) |>.

(** C26: The scheduler of a hart is fair, with other harts running theirs at the same
    time.  A round of its loop gives no process two turns.  If every process it chooses
    gives the CPU back, the round ends, in a state in which the next can start, and
    every process that was ready when it began and that no other hart took meanwhile
    (the set [T]) got exactly one turn; otherwise the scheduler waits for the process
    it chose last, which keeps the CPU. *)
Theorem scheduler_fair T intr others run s e :
  intr_ok T intr -> harts_ok T others run -> table_ok s -> k_held s = [] ->
  let '(ran, r) := pass others run procs (at_round intr s) in
  NoDup ran /\
  match scheduler intr others run (mkW s e) with
  | Ok found w => r = Some (wk w) /\ wenv w = e /\ found = bool_decide (ran <> []) /\
      table_ok (wk w) /\ k_held (wk w) = [] /\ k_cur (wk w) = None /\
      forall p, ready s p -> ~ T p -> p ∈ ran
  | Asleep w => r = None /\ exists p, last ran = Some p /\ k_cur (wk w) = Some p /\ run p (wk w) = None
  | _ => False
  end.
Proof.
  intros [Ih Ic It Ir] Hr Ht Hh. unfold scheduler, intr_on, intr_off, setcsr, w_sstatus, r_sstatus. rewrite !bind_modify. cbn [wk wenv].
  change (scheduler_round others run procs false (mkW _ e)) with (scheduler_round others run procs false (mkW (at_round intr s) e)).
  pose (s0 := s <| k_cur := None |> <| k_csr ::= fset csr_sstatus (fun x => Z.lor x SSTATUS_SIE) |>).
  pose proof (scheduler_round_pass T others run Hr procs false (at_round intr s) e (It s0 Ht) (Ih s0 Hh) (Ic s0 eq_refl)) as H.
  destruct (pass_ran T others run Hr procs (at_round intr s) ltac:(apply NoDup_seq)) as (H1 & _ & H3).
  destruct (pass others run procs (at_round intr s)) as [ran [s'|]]; (split; [exact H1|]).
  - destruct H as (E & Ht' & Hh' & Hc'); [apply Forall_forall; intros p Hp; apply elem_of_seq in Hp; lia|].
    rewrite E. split_and!; try done. intros p Hp HT. apply (H3 ltac:(by eexists) p); [|done|by apply (Ir p s0 HT)].
    destruct Hp as (pr & Hp & _). apply elem_of_seq. apply lookup_lt_Some in Hp. rewrite Ht in Hp. lia.
  - destruct H as (p & s1 & E & H); [apply Forall_forall; intros p Hp; apply elem_of_seq in Hp; lia|].
    rewrite E. split; [done|]. by exists p.
Qed.

(** Processes that use up their time slice each time, while another hart takes process
    6. *)
Definition demo_turn (p : nat) (s : kst) : option kst :=
  Some (s <| k_procs ::= alter (fun pr => pr <| p_state := RUNNABLE |>) p |>).
Definition demo_others (p : nat) (s : kst) : kst :=
  s <| k_procs ::= alter (fun pr => pr <| p_state := RUNNING |>) 6%nat |>.

Lemma demo_harts_ok : harts_ok (fun q => q = 6%nat) demo_others demo_turn.
Proof.
  split.
  - by intros p s s' [= <-].
  - intros p s s' [= <-] Ht. unfold table_ok. simpl. by rewrite length_alter.
  - intros p q s s' [= <-] Hne _ (pr & Hq & Hst). exists pr. simpl. by rewrite list_lookup_alter_ne.
  - done.
  - done.
  - intros p s Ht. unfold table_ok. simpl. by rewrite length_alter.
  - intros p q s Hne (pr & Hq & Hst). exists pr. simpl. by rewrite list_lookup_alter_ne.
Qed.

Definition demo_ready : kst :=
  demo_sched <| k_cur := None |> <| k_procs ::= alter (fun pr => pr <| p_state := RUNNABLE |>) 5%nat |>
    <| k_procs ::= alter (fun pr => pr <| p_state := RUNNABLE |>) 6%nat |>.

Definition demo_intr (s : kst) : kst := s <| k_ticks ::= Z.succ |>.

Lemma demo_intr_ok : intr_ok (fun q => q = 6%nat) demo_intr.
Proof. by split. Qed.

Lemma scheduler_fair_witness :
  exists (ran : list nat) w, scheduler demo_intr demo_others demo_turn (mkW demo_ready []) = Ok true w /\ 5%nat ∈ ran /\
    ran = (pass demo_others demo_turn procs (at_round demo_intr demo_ready)).1.
Proof.
  pose proof (scheduler_fair (fun q => q = 6%nat) demo_intr demo_others demo_turn demo_ready [] demo_intr_ok demo_harts_ok
    eq_refl eq_refl) as H.
  assert (Hok : match scheduler demo_intr demo_others demo_turn (mkW demo_ready []) with Ok b _ => b = true | _ => False end)
    by (vm_compute; reflexivity).
  destruct (pass demo_others demo_turn procs (at_round demo_intr demo_ready)) as [ran r].
  destruct (scheduler demo_intr demo_others demo_turn (mkW demo_ready [])) as [b w| | | | |]; try contradiction.
  destruct H as (_ & _ & _ & _ & _ & _ & _ & H). exists ran, w. subst b. split; [reflexivity|]. split; [|reflexivity].
  apply H; [|discriminate]. eexists. split; reflexivity.
Defined.

(** * Sleeping for a number of ticks *)

(** A timer interrupt on CPU 0 while nothing else runs. *)
Definition tick (s : kst) : kst := match clockintr (mkW s []) with Ok _ w => wk w | _ => s end.

Definition ticked (s : kst) : kst :=
  s <| k_ticks ::= (fun t => u32 (t + 1)) |> <| k_procs ::= wake (Some ChTicks) (k_cur s) |>
    <| k_csr ::= (fun c => c <| csr_stimecmp := u64 (csr_time c + 1000000) |>) |>.

(** CPU 0, with the lock of the ticks and the process locks free. *)
Record clock_ok (s : kst) : Prop := {
  ck_cpu : i32 (csr_tp (k_csr s)) = 0;
  ck_ticks : LTicks ∉ k_held s;
  ck_plocks : plocks_free s;
  ck_table : table_ok s;
}.

Lemma clockintr_run s e : clock_ok s -> clockintr (mkW s e) = Ok tt (mkW (ticked s) e).
Proof.
  intros [Hc Hh Hp Ht]. unfold clockintr, cpuid, getcsr, setcsr, r_tp, w_stimecmp, r_time. krun. cbn [wk wenv]. rewrite Hc. cbn [Z.eqb when]. krun.
  match goal with |- context [(wakeup _ ≫= _) (mkW ?t _)] =>
    assert (Hpf : plocks_free t) by (intros i Hi; apply elem_of_cons in Hi as [|]; [done|by apply Hp]);
    rewrite (bind_ok _ _ _ _ _ (wakeup_eq (Some ChTicks) t e Hpf Ht)) end.
  krun. unfold modify. kret. by rewrite filter_cons_self.
Qed.

Lemma tick_eq s : clock_ok s -> tick s = ticked s.
Proof. intros H. unfold tick. by rewrite clockintr_run. Qed.

Section sleeping.
Context (p : nat).

(** Process [p] in sys_sleep, holding the lock of the ticks. *)
Record sleeper (s : kst) : Prop := {
  sp_cpu : i32 (csr_tp (k_csr s)) = 0;
  sp_cur : k_cur s = Some p;
  sp_held : k_held s = [LTicks];
  sp_table : table_ok s;
  sp_proc : exists pr, k_procs s !! p = Some pr /\ p_killed pr = 0;
}.

(** One round: it sleeps, the clock ticks, it is woken and goes on. *)
Lemma sleep_tick s env :
  sleeper s -> exists s', sleep ChTicks LTicks (mkW s (tick :: env)) = Ok tt (mkW s' env) /\
    sleeper s' /\ k_ticks s' = u32 (k_ticks s + 1).
Proof.
  intros [Hc0 Hc Hh Ht (pr & Hp & Hk)]. pose (s1 := asleep_on p ChTicks s).
  assert (Hck : clock_ok s1).
  { split; [done|simpl; set_solver|intros i Hi; simpl in Hi; by apply elem_of_nil in Hi|].
    unfold table_ok. simpl. by rewrite length_alter. }
  assert (Hp1 : k_procs (ticked s1) !! p = Some (pr <| p_chan := Some ChTicks |> <| p_state := RUNNABLE |>)).
  { simpl. unfold wake. rewrite list_lookup_imap, list_lookup_alter_eq, Hp. simpl.
    reflexivity. }
  rewrite (sleep_run p ChTicks LTicks s _ pr) by done. cbn [switch_env]. fold s1. rewrite (tick_eq s1 Hck), Hp1.
  rewrite decide_True by done. cbn [wk wenv]. eexists. split; [done|]. split; [|done]. split; try done.
  - unfold table_ok. simpl. unfold wake. by rewrite !length_alter, length_imap, length_alter.
  - simpl in Hp1 |- *. rewrite !list_lookup_alter_eq, Hp1. simpl. eexists. split; [done|]. done.
Qed.

Lemma u32_next t t0 a : 0 <= a -> a + 1 < 2 ^ 32 -> u32 (t - t0) = a -> u32 (u32 (t + 1) - t0) = a + 1.
Proof.
  intros H0 H1 E. unfold u32 in *. rewrite Zminus_mod_idemp_l. replace (t + 1 - t0) with (t - t0 + 1) by lia.
  rewrite <- Zplus_mod_idemp_l, E. apply Z.mod_small. lia.
Qed.

Lemma sys_sleep_loop_ticks n t0 env k : forall fuel s,
  0 <= n < 2 ^ 31 -> Z.of_nat k <= n -> sleeper s -> u32 (k_ticks s - t0) = n - Z.of_nat k -> (k < fuel)%nat ->
  exists s', sys_sleep_loop fuel n t0 (mkW s (replicate k tick ++ env)) = Ok 0 (mkW s' env) /\
    k_held s' = [] /\ k_cur s' = Some p /\ u32 (k_ticks s' - t0) = n.
Proof.
  induction k as [|k IH]; intros fuel s Hn Hk Hs Ht Hf; (destruct fuel as [|fuel]; [lia|]); cbn [sys_sleep_loop].
  all: rewrite bind_gets; cbn [wk].
  - rewrite (proj2 (Z.ltb_ge _ _)) by lia. pose proof (sp_held s Hs) as Hh. rewrite bind_release by (simpl; rewrite Hh; set_solver).
    eexists. split; [done|]. simpl. rewrite Hh, filter_cons_False by naive_solver.
    split_and!; [done|apply Hs|lia].
  - rewrite (proj2 (Z.ltb_lt _ _)) by lia. destruct (sp_proc s Hs) as (pr & Hp & Hkl).
    unfold self, myproc. krun. cbn [wk]. rewrite (sp_cur s Hs). cbn [the]. krun.
    assert (Ek : killed p (mkW s (replicate (S k) tick ++ env)) = Ok 0 (mkW s (replicate (S k) tick ++ env))).
    { unfold killed, getp. rewrite bind_acquire by (simpl; rewrite (sp_held s Hs); set_solver). krun. simpl k_procs.
      rewrite Hp. cbn [the]. krun. simpl. rewrite Hkl. kret. rewrite (sp_held s Hs).
      rewrite filter_cons_False by naive_solver. by rewrite filter_cons_True by naive_solver. }
    rewrite (bind_ok _ _ _ _ _ Ek). cbn [Z.eqb negb]. simpl replicate. cbn [app].
    destruct (sleep_tick s (replicate k tick ++ env) Hs) as (s1 & E1 & Hs1 & Ht1). rewrite (bind_ok _ _ _ _ _ E1).
    destruct (IH fuel s1) as (s' & E & H'); [done|lia|done| |lia|by exists s'].
    rewrite Ht1. rewrite (u32_next _ _ (n - Z.of_nat (S k))); lia.
Qed.
End sleeping.

(** C31: sleep(n) ends at the n-th clock tick.  A process that calls sys_sleep
    with argument n and is not killed returns 0, without any lock, as soon as n
    timer interrupts have come on CPU 0, however the tick counter wraps, and not
    before: it uses up just these n steps of the other threads. *)
Theorem sys_sleep_ticks p pr (n : nat) s env :
  i32 (csr_tp (k_csr s)) = 0 -> k_cur s = Some p -> k_held s = [] -> table_ok s ->
  k_procs s !! p = Some pr -> p_killed pr = 0 -> Z.of_nat n < 2 ^ 31 ->
  i32 (load64 (p_trapframe pr + TF_a 0) (k_mem s)) = Z.of_nat n -> 0 <= k_ticks s < 2 ^ 32 ->
  exists s', sys_sleep (mkW s (replicate n tick ++ env)) = Ok 0 (mkW s' env) /\
    k_held s' = [] /\ k_cur s' = Some p /\ u32 (k_ticks s' - k_ticks s) = Z.of_nat n.
Proof.
  intros Hcpu Hc Hh Ht Hp Hk Hn Ha Htk. unfold sys_sleep, argint, argraw, tf_get, rd64, getp, myproc. krun. cbn [wk wenv].
  rewrite Hc. cbn [the]. krun. cbn [wk]. change ((0 <=? 0) && (0 <? 6)) with true. cbn beta iota. krun. cbn [wk wenv].
  rewrite Hp. cbn [the]. krun. cbn [wk wenv]. rewrite Ha, (proj2 (Z.ltb_ge _ _)) by lia.
  rewrite bind_acquire by (simpl; rewrite Hh; set_solver). krun. cbn [wk wenv].
  pose (s1 := s <| k_held ::= cons LTicks |>). fold s1.
  destruct (sys_sleep_loop_ticks p (Z.of_nat n) (k_ticks s) env n (S (length (replicate n tick ++ env))) s1) as (s' & E & H').
  - lia.
  - lia.
  - split; [done|done|simpl; by rewrite Hh|done|by exists pr].
  - simpl. rewrite !Z.sub_diag. done.
  - rewrite length_app, length_replicate. lia.
  - by exists s'.
Qed.

Definition demo_sleep : kst := demo_sched <| k_mem := store64 112 3 ∅ |> <| k_ticks := 2 ^ 32 - 2 |>.

Lemma sys_sleep_ticks_witness :
  exists s', sys_sleep (mkW demo_sleep [tick; tick; tick]) = Ok 0 (mkW s' []) /\
    k_held s' = [] /\ k_cur s' = Some 1%nat /\ u32 (k_ticks s' - k_ticks demo_sleep) = 3.
Proof.
  apply (sys_sleep_ticks 1%nat (zero_proc <| p_state := RUNNING |>) 3 demo_sleep []); try reflexivity.
  split; [by apply Z.leb_le|reflexivity].
Defined.
