(* ===== verification/TrapSpec.v ===== *)
(** The return from a trap: what the C side leaves for the assembly. *)

From S2P Require Import Prelude Riscv Memory State Sched Proc Trap ProcSpec.

(** * Returning to user space *)

(** The words of the trap frame, with the fields usertrapret sets. *)
Definition tf_word (s : kst) (pr : proc) (f : Z) : Z := load64 (p_trapframe pr + f) (k_mem s).

Lemma tf_set_run p f v s e pr :
  k_procs s !! p = Some pr -> tf_set p f v (mkW s e) = Ok tt (mkW (s <| k_mem ::= store64 (p_trapframe pr + f) v |>) e).
Proof. intros Hp. unfold tf_set, getp, wr64. krun. cbn [wk]. rewrite Hp. reflexivity. Qed.

Lemma tf_get_run p f s e pr :
  k_procs s !! p = Some pr -> tf_get p f (mkW s e) = Ok (tf_word s pr f) (mkW s e).
Proof. intros Hp. unfold tf_get, getp, rd64. krun. cbn [wk]. rewrite Hp. reflexivity. Qed.

(** Bits of the status register after usertrapret. *)
Lemma status_bits x n :
  0 <= n -> Z.testbit (Z.lor (Z.land (Z.land x (u64 (Z.lnot SSTATUS_SIE))) (u64 (Z.lnot SSTATUS_SPP))) SSTATUS_SPIE) n =
    if n =? 5 then true else if (n =? 1) || (n =? 8) then false else Z.testbit (u64 x) n.
Proof.
  intros Hn. rewrite Z.lor_spec, !Z.land_spec. unfold u64.
  destruct (Z.lt_ge_cases n 64) as [Hlt|Hge].
  - rewrite !Z.mod_pow2_bits_low, !Z.lnot_spec by lia. unfold SSTATUS_SIE, SSTATUS_SPP, SSTATUS_SPIE.
    rewrite !Z.shiftl_1_l, !Z.pow2_bits_eqb by lia.
    destruct (Z.eqb_spec n 5) as [->|]; [by rewrite orb_true_r|].
    rewrite (Z.eqb_sym 1 n), (Z.eqb_sym 8 n), (proj2 (Z.eqb_neq 5 n)) by lia. rewrite orb_false_r.
    destruct (n =? 1), (n =? 8), (Z.testbit x n); done.
  - rewrite !Z.mod_pow2_bits_high by lia. rewrite !andb_false_r, orb_false_l.
    unfold SSTATUS_SPIE. rewrite Z.shiftl_1_l, Z.pow2_bits_eqb by lia.
    rewrite (proj2 (Z.eqb_neq 5 n)), (proj2 (Z.eqb_neq n 5)) by lia.
    by rewrite (proj2 (Z.eqb_neq n 1)), (proj2 (Z.eqb_neq n 8)) by lia.
Qed.

(** The memory and registers usertrapret leaves. *)
Definition tf_ready (s : kst) (pr : proc) : mem :=
  store64 (p_trapframe pr + TF_kernel_hartid) (csr_tp (k_csr s))
    (store64 (p_trapframe pr + TF_kernel_trap) (sym_usertrap (k_sym s))
      (store64 (p_trapframe pr + TF_kernel_sp) (u64 (p_kstack pr + PGSIZE))
        (store64 (p_trapframe pr + TF_kernel_satp) (csr_satp (k_csr s)) (k_mem s)))).
Definition csr_ready (s : kst) (pr : proc) : csrs :=
  k_csr s <| csr_stvec := u64 (TRAMPOLINE + (sym_uservec (k_sym s) - k_trampoline s)) |>
    <| csr_sstatus ::= (fun x => Z.lor (Z.land (Z.land x (u64 (Z.lnot SSTATUS_SIE))) (u64 (Z.lnot SSTATUS_SPP))) SSTATUS_SPIE) |>
    <| csr_sepc := load64 (p_trapframe pr + TF_epc) (tf_ready s pr) |>.

Lemma usertrapret_run p pr s e :
  k_cur s = Some p -> k_procs s !! p = Some pr ->
  usertrapret (mkW s e) =
    Ok (MAKE_SATP (p_pagetable pr)) (mkW (s <| k_mem := tf_ready s pr |> <| k_csr := csr_ready s pr |>) e).
Proof.
  intros Hc Hp. unfold usertrapret, myproc, intr_off, getcsr, setcsr, w_stvec, w_sstatus, w_sepc, r_satp, r_tp, r_sstatus, getp, tf_set, tf_get, getp, wr64, rd64.
  unfold the, mbind, K_bind, gets, modify.
  assert (Hps : forall t, k_procs t = k_procs s -> k_procs t !! p = Some pr) by (by intros t ->).
  cbn [wk wenv]. rewrite Hc. unfold mret, K_ret. cbn [wk wenv].
  do 8 (rewrite ?Hps by reflexivity; cbn [wk wenv]). reflexivity.
Qed.

(** C28: usertrapret leaves what the trampoline needs: traps go to uservec in the
    trampoline page, the trap frame holds the kernel's page table, the top of the
    process's kernel stack, usertrap and the hart's id, its saved registers and pc
    are untouched; sret will go to the saved pc in user mode with interrupts on,
    which are off until then; and userret gets the process's page table. *)
Theorem usertrapret_ready p pr s e :
  k_cur s = Some p -> k_procs s !! p = Some pr ->
  exists s' c, usertrapret (mkW s e) = Ok (MAKE_SATP (p_pagetable pr)) (mkW s' e) /\
    s' = s <| k_mem := k_mem s' |> <| k_csr := c |> /\
    csr_stvec c = u64 (TRAMPOLINE + (sym_uservec (k_sym s) - k_trampoline s)) /\
    csr_sepc c = tf_word s pr TF_epc /\
    (forall n, 0 <= n -> Z.testbit (csr_sstatus c) n =
       if n =? 5 then true else if (n =? 1) || (n =? 8) then false else Z.testbit (u64 (csr_sstatus (k_csr s))) n) /\
    tf_word s' pr TF_kernel_satp = u64 (csr_satp (k_csr s)) /\
    tf_word s' pr TF_kernel_sp = u64 (p_kstack pr + PGSIZE) /\
    tf_word s' pr TF_kernel_trap = u64 (sym_usertrap (k_sym s)) /\
    tf_word s' pr TF_kernel_hartid = u64 (csr_tp (k_csr s)) /\
    tf_word s' pr TF_epc = tf_word s pr TF_epc /\
    forall f, TF_ra <= f -> tf_word s' pr f = tf_word s pr f.
Proof.
  intros Hc Hp. do 2 eexists. split; [by apply (usertrapret_run p)|].
  assert (Hout : forall f, TF_kernel_hartid + 8 <= f \/ TF_kernel_trap + 8 <= f < TF_kernel_hartid - 7 ->
    load64 (p_trapframe pr + f) (tf_ready s pr) = load64 (p_trapframe pr + f) (k_mem s)).
  { intros f Hf. unfold tf_ready, TF_kernel_hartid, TF_kernel_trap, TF_kernel_sp, TF_kernel_satp in *.
    rewrite !load_store_ne by lia. done. }
  assert (Hepc : load64 (p_trapframe pr + TF_epc) (tf_ready s pr) = load64 (p_trapframe pr + TF_epc) (k_mem s)).
  { apply Hout. unfold TF_kernel_hartid, TF_kernel_trap, TF_epc. lia. }
  unfold tf_word. simpl. split_and!; try done.
  - intros n Hn. by apply status_bits.
  - unfold tf_ready, TF_kernel_hartid, TF_kernel_trap, TF_kernel_sp, TF_kernel_satp.
    rewrite !load_store_ne by lia. apply load_store.
  - unfold tf_ready, TF_kernel_hartid, TF_kernel_trap, TF_kernel_sp, TF_kernel_satp.
    rewrite 2!load_store_ne by lia. rewrite load_store. apply Z.mod_mod. lia.
  - unfold tf_ready, TF_kernel_hartid, TF_kernel_trap. rewrite load_store_ne by lia. apply load_store.
  - apply load_store.
  - intros f Hf. apply Hout. left. unfold TF_kernel_hartid, TF_ra in *. lia.
Qed.

Lemma usertrapret_ready_witness :
  exists s' c, usertrapret (mkW demo_sched []) = Ok (MAKE_SATP 0) (mkW s' []) /\
    csr_stvec c = TRAMPOLINE /\ s' = demo_sched <| k_mem := k_mem s' |> <| k_csr := c |>.
Proof.
  destruct (usertrapret_ready 1%nat (zero_proc <| p_state := RUNNING |>) demo_sched []) as (s' & c & E & Es & Ev & _);
    [reflexivity|reflexivity|].
  exists s', c. split; [exact E|]. split; [rewrite Ev; reflexivity|exact Es].
Defined.
