(* ===== verification/Boot.v ===== *)
(** kernel/start.c and kernel/main.c: from machine mode to the scheduler. *)

From S2P Require Import Prelude Numeral Riscv State Kalloc Vm Sched Bio Printf Fs Console Proc Virtio Trap.

(** * Machine mode *)

(** The machine-mode registers of a hart.  sie has no field: it is the part of mie
    that mideleg delegates.  sstatus, a view of mstatus on the hardware, is a field of
    its own in [csrs]: start only changes MPP, which sstatus does not show. *)
Record mcsrs := mkMcsrs {
  m_mstatus : Z;
  m_mepc : Z;
  m_medeleg : Z;
  m_mideleg : Z;
  m_pmpaddr0 : Z;
  m_pmpcfg0 : Z;
  m_mie : Z;
  m_menvcfg : Z;
  m_mcounteren : Z;
  m_mhartid : Z;
}.
#[export] Instance set_m_mstatus : Setter m_mstatus := fun g x =>
  mkMcsrs (g (m_mstatus x)) (m_mepc x) (m_medeleg x) (m_mideleg x) (m_pmpaddr0 x) (m_pmpcfg0 x) (m_mie x) (m_menvcfg x) (m_mcounteren x) (m_mhartid x).
#[export] Instance set_m_mepc : Setter m_mepc := fun g x =>
  mkMcsrs (m_mstatus x) (g (m_mepc x)) (m_medeleg x) (m_mideleg x) (m_pmpaddr0 x) (m_pmpcfg0 x) (m_mie x) (m_menvcfg x) (m_mcounteren x) (m_mhartid x).
#[export] Instance set_m_medeleg : Setter m_medeleg := fun g x =>
  mkMcsrs (m_mstatus x) (m_mepc x) (g (m_medeleg x)) (m_mideleg x) (m_pmpaddr0 x) (m_pmpcfg0 x) (m_mie x) (m_menvcfg x) (m_mcounteren x) (m_mhartid x).
#[export] Instance set_m_mideleg : Setter m_mideleg := fun g x =>
  mkMcsrs (m_mstatus x) (m_mepc x) (m_medeleg x) (g (m_mideleg x)) (m_pmpaddr0 x) (m_pmpcfg0 x) (m_mie x) (m_menvcfg x) (m_mcounteren x) (m_mhartid x).
#[export] Instance set_m_pmpaddr0 : Setter m_pmpaddr0 := fun g x =>
  mkMcsrs (m_mstatus x) (m_mepc x) (m_medeleg x) (m_mideleg x) (g (m_pmpaddr0 x)) (m_pmpcfg0 x) (m_mie x) (m_menvcfg x) (m_mcounteren x) (m_mhartid x).
#[export] Instance set_m_pmpcfg0 : Setter m_pmpcfg0 := fun g x =>
  mkMcsrs (m_mstatus x) (m_mepc x) (m_medeleg x) (m_mideleg x) (m_pmpaddr0 x) (g (m_pmpcfg0 x)) (m_mie x) (m_menvcfg x) (m_mcounteren x) (m_mhartid x).
#[export] Instance set_m_mie : Setter m_mie := fun g x =>
  mkMcsrs (m_mstatus x) (m_mepc x) (m_medeleg x) (m_mideleg x) (m_pmpaddr0 x) (m_pmpcfg0 x) (g (m_mie x)) (m_menvcfg x) (m_mcounteren x) (m_mhartid x).
#[export] Instance set_m_menvcfg : Setter m_menvcfg := fun g x =>
  mkMcsrs (m_mstatus x) (m_mepc x) (m_medeleg x) (m_mideleg x) (m_pmpaddr0 x) (m_pmpcfg0 x) (m_mie x) (g (m_menvcfg x)) (m_mcounteren x) (m_mhartid x).
#[export] Instance set_m_mcounteren : Setter m_mcounteren := fun g x =>
  mkMcsrs (m_mstatus x) (m_mepc x) (m_medeleg x) (m_mideleg x) (m_pmpaddr0 x) (m_pmpcfg0 x) (m_mie x) (m_menvcfg x) (g (m_mcounteren x)) (m_mhartid x).

Definition MSTATUS_MPP_MASK : Z := Z.shiftl 3 11.
Definition MSTATUS_MPP_S : Z := Z.shiftl 1 11.
Definition SIE_SEIE : Z := Z.shiftl 1 9.
Definition SIE_STIE : Z := Z.shiftl 1 5.
Definition MIE_STIE : Z := Z.shiftl 1 5.

(** riscv.h: the accessors of the machine-mode registers, each one instruction. *)
Definition r_mhartid (m : mcsrs) : Z := m_mhartid m.
Definition r_mstatus (m : mcsrs) : Z := m_mstatus m.
Definition r_medeleg (m : mcsrs) : Z := m_medeleg m.
Definition r_mideleg (m : mcsrs) : Z := m_mideleg m.
Definition r_mie (m : mcsrs) : Z := m_mie m.
Definition r_menvcfg (m : mcsrs) : Z := m_menvcfg m.
Definition r_mcounteren (m : mcsrs) : Z := m_mcounteren m.
Definition w_mstatus (x : Z) (m : mcsrs) : mcsrs := m <| m_mstatus := x |>.
Definition w_mepc (x : Z) (m : mcsrs) : mcsrs := m <| m_mepc := x |>.
Definition w_medeleg (x : Z) (m : mcsrs) : mcsrs := m <| m_medeleg := x |>.
Definition w_mideleg (x : Z) (m : mcsrs) : mcsrs := m <| m_mideleg := x |>.
Definition w_pmpaddr0 (x : Z) (m : mcsrs) : mcsrs := m <| m_pmpaddr0 := x |>.
Definition w_pmpcfg0 (x : Z) (m : mcsrs) : mcsrs := m <| m_pmpcfg0 := x |>.
Definition w_mie (x : Z) (m : mcsrs) : mcsrs := m <| m_mie := x |>.
Definition w_menvcfg (x : Z) (m : mcsrs) : mcsrs := m <| m_menvcfg := x |>.
Definition w_mcounteren (x : Z) (m : mcsrs) : mcsrs := m <| m_mcounteren := x |>.
Definition r_sie (m : mcsrs) : Z := Z.land (m_mie m) (m_mideleg m).
Definition w_sie (x : Z) (m : mcsrs) : mcsrs :=
  m <| m_mie := Z.lor (Z.ldiff (m_mie m) (m_mideleg m)) (Z.land x (m_mideleg m)) |>.

(** void timerinit() *)
Definition timerinit (m : mcsrs) (c : csrs) : mcsrs * csrs :=
  let m := w_mie (Z.lor (r_mie m) MIE_STIE) m in
  let m := w_menvcfg (Z.lor (r_menvcfg m) (Z.shiftl 1 63)) m in
  let m := w_mcounteren (Z.lor (r_mcounteren m) 2) m in
  let c := w_stimecmp (u64 (r_time c + 1000000)) c in
  (m, c).

(** void start(), up to its mret; [main] is the address of main *)
Definition start (main : Z) (m : mcsrs) (c : csrs) : mcsrs * csrs :=
  let x := r_mstatus m in
  let x := Z.land x (u64 (Z.lnot MSTATUS_MPP_MASK)) in
  let x := Z.lor x MSTATUS_MPP_S in
  let m := w_mstatus x m in
  let m := w_mepc main m in
  let c := w_satp 0 c in
  let m := w_medeleg 0xffff m in
  let m := w_mideleg 0xffff m in
  let m := w_sie (Z.lor (Z.lor (r_sie m) SIE_SEIE) SIE_STIE) m in
  let m := w_pmpaddr0 0x3fffffffffffff m in
  let m := w_pmpcfg0 0xf m in
  let '(m, c) := timerinit m c in
  let id := i32 (r_mhartid m) in
  let c := w_tp (u64 id) c in
  (m, c).

(** * main *)

(** void kvminithart() *)
Definition kvminithart : K unit :=
  pt ← gets k_kpagetable;
  setcsr (w_satp (MAKE_SATP pt)).

(** void main(), up to the call of scheduler: the new value of the variable
    [started], whose value the hart sees is the argument; a hart other than 0
    does not go on while it is not set.  The initialisation of the spinlocks is
    part of the state main starts in. *)
Definition main (started : bool) : K bool :=
  id ← cpuid;
  if id =? 0 then
    consoleinit;;
    printfinit;;
    print (String (Ascii.ascii_of_nat 10) EmptyString);;
    println "xv6 kernel is booting";;
    print (String (Ascii.ascii_of_nat 10) EmptyString);;
    kinit;;
    kvminit;;
    kvminithart;;
    procinit;;
    trapinithart;;
    plicinit;;
    plicinithart;;
    binit;;
    iinit;;
    virtio_disk_init;;
    userinit;;
    mret true
  else if negb started then diverge
  else
    printf (chars "hart %d starting" ++ [10]) [VInt id];;
    kvminithart;;
    trapinithart;;
    plicinithart;;
    mret started.

(** * What start leaves *)

(** The mode mret goes to: 1 is supervisor mode. *)
Definition mret_mode (m : mcsrs) : Z := Z.land (Z.shiftr (m_mstatus m) 11) 3.

Lemma mpp_bits x n : 0 <= n < 64 ->
  Z.testbit (Z.lor (Z.land x (u64 (Z.lnot MSTATUS_MPP_MASK))) MSTATUS_MPP_S) n =
    if n =? 11 then true else if n =? 12 then false else Z.testbit x n.
Proof.
  intros Hn. rewrite Z.lor_spec, Z.land_spec. unfold u64. rewrite Z.mod_pow2_bits_low, Z.lnot_spec by lia.
  unfold MSTATUS_MPP_MASK, MSTATUS_MPP_S. change (Z.shiftl 3 11) with (Z.lor (2 ^ 11) (2 ^ 12)). change (Z.shiftl 1 11) with (2 ^ 11).
  rewrite Z.lor_spec, !Z.pow2_bits_eqb by lia. rewrite (Z.eqb_sym n 11), (Z.eqb_sym n 12).
  destruct (Z.eqb_spec 11 n) as [<-|]; [by rewrite orb_true_r|]. destruct (Z.eqb_spec 12 n) as [<-|]; [by rewrite andb_false_r|].
  by rewrite andb_true_r, orb_false_r.
Qed.

(** C30: start makes a hart ready for main.  Its mret goes to main in supervisor mode,
    without paging, with the other bits of mstatus as they were; the sixteen exceptions
    and interrupts are delegated, the supervisor sees its external and timer interrupts
    enabled, the first timer interrupt is a million ticks away, stimecmp and time may be
    used, and cpuid in main returns the number of the hart. *)
Theorem start_ready main m c s e :
  0 <= m_mhartid m < 2 ^ 31 ->
  let '(m', c') := start main m c in
  mret_mode m' = 1 /\ m_mepc m' = main /\ csr_satp c' = 0 /\
  (forall n, 0 <= n < 64 -> n <> 11 -> n <> 12 -> Z.testbit (m_mstatus m') n = Z.testbit (m_mstatus m) n) /\
  (forall n, 0 <= n < 16 -> Z.testbit (m_medeleg m') n = true /\ Z.testbit (m_mideleg m') n = true) /\
  Z.testbit (r_sie m') 9 = true /\ Z.testbit (r_sie m') 5 = true /\
  (forall n, 0 <= n -> n <> 9 -> n <> 5 -> Z.testbit (m_mie m') n = Z.testbit (m_mie m) n) /\
  csr_stimecmp c' = u64 (csr_time c + 1000000) /\ Z.testbit (m_menvcfg m') 63 = true /\ Z.testbit (m_mcounteren m') 1 = true /\
  cpuid (mkW (s <| k_csr := c' |>) e) = Ok (m_mhartid m) (mkW (s <| k_csr := c' |>) e).
Proof.
  intros Hh. destruct m as [ms me md mi pa pc mie mv mc id]. cbn [m_mhartid] in Hh.
  set (ie := Z.lor (Z.lor (Z.ldiff mie 65535) (Z.land (Z.lor (Z.lor (Z.land mie 65535) SIE_SEIE) SIE_STIE) 65535)) MIE_STIE).
  change (start main _ c) with
    (mkMcsrs (Z.lor (Z.land ms (u64 (Z.lnot MSTATUS_MPP_MASK))) MSTATUS_MPP_S) main 65535 65535 0x3fffffffffffff 15
       ie (Z.lor mv (Z.shiftl 1 63)) (Z.lor mc 2) id,
     c <| csr_satp := 0 |> <| csr_stimecmp := u64 (csr_time c + 1000000) |> <| csr_tp := u64 (i32 id) |>).
  unfold mret_mode, r_sie. cbn beta iota. cbn [m_mstatus m_mepc m_medeleg m_mideleg m_mie m_menvcfg m_mcounteren m_mhartid].
  split_and!; [|done|done| | | | | |done|rewrite Z.lor_spec; apply orb_true_r..|].
  - apply Z.bits_inj'. intros n Hn. rewrite Z.land_spec, Z.shiftr_spec by done.
    destruct (decide (n < 2)); [rewrite mpp_bits by lia|].
    + assert (n = 0 \/ n = 1) as [-> | ->] by lia; done.
    + rewrite (Z.bits_above_log2 3), (Z.bits_above_log2 1) by (simpl; lia). apply andb_false_r.
  - intros n Hn H1 H2. rewrite mpp_bits by done. by rewrite (proj2 (Z.eqb_neq n 11)), (proj2 (Z.eqb_neq n 12)) by done.
  - intros n Hn. change 65535 with (Z.ones 16). by rewrite Z.ones_spec_low by lia.
  - unfold ie. rewrite Z.land_spec, !Z.lor_spec, Z.land_spec, !Z.lor_spec.
    change (Z.testbit SIE_SEIE 9) with true. change (Z.testbit 65535 9) with true. by rewrite !orb_true_r.
  - unfold ie. rewrite Z.land_spec, !Z.lor_spec. change (Z.testbit MIE_STIE 5) with true. by rewrite !orb_true_r.
  - intros n Hn H9 H5. unfold ie. rewrite !Z.lor_spec, Z.ldiff_spec, Z.land_spec, !Z.lor_spec, Z.land_spec.
    unfold MIE_STIE, SIE_SEIE, SIE_STIE. rewrite !Z.shiftl_1_l, !Z.pow2_bits_false by lia.
    destruct (Z.testbit mie n), (Z.testbit 65535 n); done.
  - unfold cpuid, getcsr. krun. unfold mret, K_ret. f_equal.
    change (i32 (u64 (i32 id)) = id). unfold i32. by rewrite (sext_small 32 id), u64_small, sext_small by lia.
Qed.

(** Hart 2 from reset, where nothing is delegated yet. *)
Lemma start_ready_witness : exists s,
  let m := mkMcsrs 0x1800 0 0 0 0 0 0 0 0 2 in
  let c := mkCsrs 0 0 0 0 0 0 0 500 0 in
  r_sie m = 0 /\ r_sie (fst (start 0x80000e00 m c)) = 0x220 /\
  cpuid (mkW (s <| k_csr := snd (start 0x80000e00 m c) |>) []) = Ok 2 (mkW (s <| k_csr := snd (start 0x80000e00 m c) |>) []).
Proof.
  exists (bss 0x80020000 0x80008000 0x80007000 demo_syms demo_reg ∅ ∅). cbv zeta.
  split; [reflexivity|]. split; [reflexivity|].
  apply (start_ready 0x80000e00 (mkMcsrs 0x1800 0 0 0 0 0 0 0 0 2) (mkCsrs 0 0 0 0 0 0 0 500 0)). cbn. lia.
Defined.
