(* ===== verification/Asm.v ===== *)
(** The assembly of the kernel: trampoline.S, kernelvec.S, swtch.S, entry.S.

    Each routine is the list of its instructions, run on a hart's registers and
    the memory at the virtual addresses it uses.  A routine that ends in a jump
    runs up to it.  The page table changes of trampoline.S only come after the
    last store to, or before the first load from, the trap frame, which the user
    page table maps at TRAPFRAME. *)

From stdpp Require Import functions.
From S2P Require Import Prelude Riscv Memory.

(** * Instructions *)

Inductive reg :=
| ra | sp | gp | tp | t0 | t1 | t2 | t3 | t4 | t5 | t6
| s0 | s1 | s2 | s3 | s4 | s5 | s6 | s7 | s8 | s9 | s10 | s11
| a0 | a1 | a2 | a3 | a4 | a5 | a6 | a7.
#[export] Instance reg_eq_dec : EqDecision reg.
Proof. solve_decision. Defined.

Inductive csr := sscratch | satp | mhartid.
#[export] Instance csr_eq_dec : EqDecision csr.
Proof. solve_decision. Defined.

Inductive instr :=
| sd (rs : reg) (off : Z) (base : reg)
| ld (rd : reg) (off : Z) (base : reg)
| li (rd : reg) (imm : Z)
| addi (rd rs : reg) (imm : Z)
| add (rd rs rs' : reg)
| mul (rd rs rs' : reg)
| csrw (c : csr) (rs : reg)
| csrr (rd : reg) (c : csr)
| sfence_vma
| jr (rs : reg)
| sret
| ret.

Record hart := mkHart { h_reg : reg -> Z; h_csr : csr -> Z; h_mem : mem; h_pc : option Z }.

(** One instruction; [h_pc] is where a jump goes. *)
Definition step (i : instr) (h : hart) : hart :=
  let r := h_reg h in
  match i with
  | sd rs off base => mkHart r (h_csr h) (store64 (u64 (r base + off)) (r rs) (h_mem h)) (h_pc h)
  | ld rd off base => mkHart (<[rd := load64 (u64 (r base + off)) (h_mem h)]> r) (h_csr h) (h_mem h) (h_pc h)
  | li rd imm => mkHart (<[rd := u64 imm]> r) (h_csr h) (h_mem h) (h_pc h)
  | addi rd rs imm => mkHart (<[rd := u64 (r rs + imm)]> r) (h_csr h) (h_mem h) (h_pc h)
  | add rd rs rs' => mkHart (<[rd := u64 (r rs + r rs')]> r) (h_csr h) (h_mem h) (h_pc h)
  | mul rd rs rs' => mkHart (<[rd := u64 (r rs * r rs')]> r) (h_csr h) (h_mem h) (h_pc h)
  | csrw c rs => mkHart r (<[c := r rs]> (h_csr h)) (h_mem h) (h_pc h)
  | csrr rd c => mkHart (<[rd := h_csr h c]> r) (h_csr h) (h_mem h) (h_pc h)
  | sfence_vma | sret => h
  | jr rs => mkHart r (h_csr h) (h_mem h) (Some (r rs))
  | ret => mkHart r (h_csr h) (h_mem h) (Some (r ra))
  end.
Definition exec_code (l : list instr) (h : hart) : hart := foldl (fun h i => step i h) h l.

(** * The routines *)

(** trampoline.S: uservec *)
Definition uservec : list instr := [
  csrw sscratch a0;
  li a0 TRAPFRAME;
  sd ra 40 a0; sd sp 48 a0; sd gp 56 a0; sd tp 64 a0;
  sd t0 72 a0; sd t1 80 a0; sd t2 88 a0;
  sd s0 96 a0; sd s1 104 a0;
  sd a1 120 a0; sd a2 128 a0; sd a3 136 a0; sd a4 144 a0; sd a5 152 a0; sd a6 160 a0; sd a7 168 a0;
  sd s2 176 a0; sd s3 184 a0; sd s4 192 a0; sd s5 200 a0; sd s6 208 a0; sd s7 216 a0;
  sd s8 224 a0; sd s9 232 a0; sd s10 240 a0; sd s11 248 a0;
  sd t3 256 a0; sd t4 264 a0; sd t5 272 a0; sd t6 280 a0;
  csrr t0 sscratch;
  sd t0 112 a0;
  ld sp 8 a0;
  ld tp 32 a0;
  ld t0 16 a0;
  ld t1 0 a0;
  sfence_vma;
  csrw satp t1;
  sfence_vma;
  jr t0
].

(** trampoline.S: userret *)
Definition userret : list instr := [
  sfence_vma;
  csrw satp a0;
  sfence_vma;
  li a0 TRAPFRAME;
  ld ra 40 a0; ld sp 48 a0; ld gp 56 a0; ld tp 64 a0;
  ld t0 72 a0; ld t1 80 a0; ld t2 88 a0;
  ld s0 96 a0; ld s1 104 a0;
  ld a1 120 a0; ld a2 128 a0; ld a3 136 a0; ld a4 144 a0; ld a5 152 a0; ld a6 160 a0; ld a7 168 a0;
  ld s2 176 a0; ld s3 184 a0; ld s4 192 a0; ld s5 200 a0; ld s6 208 a0; ld s7 216 a0;
  ld s8 224 a0; ld s9 232 a0; ld s10 240 a0; ld s11 248 a0;
  ld t3 256 a0; ld t4 264 a0; ld t5 272 a0; ld t6 280 a0;
  ld a0 112 a0;
  sret
].

(** kernelvec.S: before and after the call of kerneltrap *)
Definition kernelvec_entry : list instr := [
  addi sp sp (-256);
  sd ra 0 sp; sd sp 8 sp; sd gp 16 sp; sd tp 24 sp; sd t0 32 sp; sd t1 40 sp; sd t2 48 sp;
  sd a0 72 sp; sd a1 80 sp; sd a2 88 sp; sd a3 96 sp; sd a4 104 sp; sd a5 112 sp; sd a6 120 sp; sd a7 128 sp;
  sd t3 216 sp; sd t4 224 sp; sd t5 232 sp; sd t6 240 sp
].
Definition kernelvec_exit : list instr := [
  ld ra 0 sp; ld sp 8 sp; ld gp 16 sp; ld t0 32 sp; ld t1 40 sp; ld t2 48 sp;
  ld a0 72 sp; ld a1 80 sp; ld a2 88 sp; ld a3 96 sp; ld a4 104 sp; ld a5 112 sp; ld a6 120 sp; ld a7 128 sp;
  ld t3 216 sp; ld t4 224 sp; ld t5 232 sp; ld t6 240 sp;
  addi sp sp 256;
  sret
].

(** swtch.S *)
Definition swtch_code : list instr := [
  sd ra 0 a0; sd sp 8 a0;
  sd s0 16 a0; sd s1 24 a0; sd s2 32 a0; sd s3 40 a0; sd s4 48 a0; sd s5 56 a0;
  sd s6 64 a0; sd s7 72 a0; sd s8 80 a0; sd s9 88 a0; sd s10 96 a0; sd s11 104 a0;
  ld ra 0 a1; ld sp 8 a1;
  ld s0 16 a1; ld s1 24 a1; ld s2 32 a1; ld s3 40 a1; ld s4 48 a1; ld s5 56 a1;
  ld s6 64 a1; ld s7 72 a1; ld s8 80 a1; ld s9 88 a1; ld s10 96 a1; ld s11 104 a1;
  ret
].

(** entry.S, up to the call of start; [stack0] is the address of the stacks *)
Definition entry (stack0 : Z) : list instr := [
  li sp stack0;
  li a0 (1024 * 4);
  csrr a1 mhartid;
  addi a1 a1 1;
  mul a0 a0 a1;
  add sp sp a0
].

(** * Saving and loading a list of registers *)

Lemma exec_app l k h : exec_code (l ++ k) h = exec_code k (exec_code l h).
Proof. apply foldl_app. Qed.

Definition saves (b : reg) (l : list (reg * Z)) : list instr := (fun '(r, o) => sd r o b) <$> l.
Definition loads (b : reg) (l : list (reg * Z)) : list instr := (fun '(r, o) => ld r o b) <$> l.

(** The slots of a save area of [n] bytes: in range, 8 bytes apart. *)
Definition slots_ok (n : Z) (l : list (reg * Z)) : bool :=
  forallb (fun x : reg * Z => let o := x.2 in (0 <=? o) && (o + 8 <=? n) && (o mod 8 =? 0)) l.
Definition offs_nodup (l : list (reg * Z)) : bool := bool_decide (NoDup l.*2).
Definition regs_nodup (l : list (reg * Z)) : bool := bool_decide (NoDup l.*1).

(** A test that all slots of a list pass. *)
Lemma slot_test (P : reg * Z -> bool) l r o : forallb P l = true -> (r, o) ∈ l -> P (r, o) = true.
Proof. rewrite forallb_forall. intros H Hin. by apply H, list_elem_of_In. Qed.

Lemma slot_fst (l : list (reg * Z)) b : forallb (fun x => bool_decide (x.1 <> b)) l = true -> b ∉ l.*1.
Proof.
  intros H Hin. apply list_elem_of_fmap in Hin as [[r o] [-> Hin]].
  apply (slot_test _ _ _ _ H) in Hin. by apply bool_decide_eq_true in Hin.
Qed.

Section save_area.
Context (b : reg) (n base : Z).
Context (Hbase : 0 <= base) (Htop : base + n <= 2 ^ 64).

Lemma slot_addr l r o : slots_ok n l = true -> (r, o) ∈ l -> u64 (base + o) = base + o /\ o mod 8 = 0.
Proof.
  unfold slots_ok. rewrite forallb_forall. intros H Hin. apply list_elem_of_In in Hin.
  specialize (H _ Hin). simpl in H. rewrite !andb_true_iff, !Z.leb_le, Z.eqb_eq in H.
  split; [apply u64_small|]; lia.
Qed.

(** Saving leaves registers alone, and memory outside the slots. *)
Lemma saves_spec l : forall h,
  slots_ok n l = true -> offs_nodup l = true -> h_reg h b = base ->
  exists m, exec_code (saves b l) h = mkHart (h_reg h) (h_csr h) m (h_pc h) /\
    (forall r o, (r, o) ∈ l -> load64 (base + o) m = u64 (h_reg h r)) /\
    (forall a, (forall r o, (r, o) ∈ l -> a + 8 <= base + o \/ base + o + 8 <= a) ->
       load64 a m = load64 a (h_mem h)).
Proof.
  induction l as [|[r o] l IH]; intros h Hs Hd Hb.
  - exists (h_mem h). split; [by destruct h|]. split; [set_solver|done].
  - pose proof (slot_addr _ r o Hs ltac:(left)) as [Hu Hm].
    assert (Hs' : slots_ok n l = true) by (simpl in Hs; apply andb_true_iff in Hs; apply Hs).
    unfold offs_nodup in Hd. apply bool_decide_eq_true in Hd. simpl in Hd. apply NoDup_cons in Hd as [Hno Hd].
    destruct (IH (step (sd r o b) h) Hs' ltac:(by apply bool_decide_eq_true) Hb) as (m & E & Hin & Hout).
    exists m. split; [exact E|]. simpl in Hin, Hout. rewrite Hb, Hu in Hout. split.
    + intros r' o' Hro. apply elem_of_cons in Hro as [[= -> ->]|Hro]; [|by apply Hin].
      rewrite Hout. { by rewrite load_store. }
      intros r2 o2 H2. assert (o2 <> o).
      { intros ->. apply Hno, list_elem_of_fmap. by exists (r2, o). }
      destruct (slot_addr l r2 o2 Hs' H2) as [_ Hm2].
      pose proof (Z.div_mod o 8 ltac:(lia)). pose proof (Z.div_mod o2 8 ltac:(lia)). lia.
    + intros a Ha. rewrite Hout by (intros r' o' H'; apply (Ha r' o'); by right).
      apply load_store_ne. destruct (Ha r o ltac:(left)); lia.
Qed.

(** Loading sets the registers of the list from their slots. *)
Lemma loads_spec l : forall h,
  slots_ok n l = true -> regs_nodup l = true -> b ∉ l.*1 -> h_reg h b = base ->
  exists f, exec_code (loads b l) h = mkHart f (h_csr h) (h_mem h) (h_pc h) /\
    (forall r o, (r, o) ∈ l -> f r = load64 (base + o) (h_mem h)) /\
    (forall r, r ∉ l.*1 -> f r = h_reg h r).
Proof.
  induction l as [|[r o] l IH]; intros h Hs Hd Hnb Hb.
  - exists (h_reg h). split; [by destruct h|]. split; [set_solver|done].
  - pose proof (slot_addr _ r o Hs ltac:(left)) as [Hu Hm].
    assert (Hs' : slots_ok n l = true) by (simpl in Hs; apply andb_true_iff in Hs; apply Hs).
    unfold regs_nodup in Hd. apply bool_decide_eq_true in Hd. simpl in Hd. apply NoDup_cons in Hd as [Hno Hd].
    simpl in Hnb. apply not_elem_of_cons in Hnb as [Hbr Hnb].
    destruct (IH (step (ld r o b) h) Hs' ltac:(by apply bool_decide_eq_true) Hnb) as (f & E & Hin & Hout).
    { simpl. by rewrite fn_lookup_insert_ne. }
    exists f. split; [exact E|]. simpl in Hin, Hout. rewrite Hb, Hu in Hout. split.
    + intros r' o' Hro. apply elem_of_cons in Hro as [[= -> ->]|Hro]; [|by apply Hin].
      rewrite Hout by done. by rewrite fn_lookup_insert.
    + intros r' Hr'. simpl in Hr'. apply not_elem_of_cons in Hr' as [Hne Hr'].
      rewrite Hout by done. by rewrite fn_lookup_insert_ne.
Qed.
End save_area.

(** * Traps from user space *)

Definition tf_slots : list (reg * Z) := [
  (ra, 40); (sp, 48); (gp, 56); (tp, 64); (t0, 72); (t1, 80); (t2, 88); (s0, 96); (s1, 104);
  (a1, 120); (a2, 128); (a3, 136); (a4, 144); (a5, 152); (a6, 160); (a7, 168);
  (s2, 176); (s3, 184); (s4, 192); (s5, 200); (s6, 208); (s7, 216); (s8, 224); (s9, 232); (s10, 240); (s11, 248);
  (t3, 256); (t4, 264); (t5, 272); (t6, 280)].

(** The registers of a hart hold 64-bit values. *)
Definition regs_ok (f : reg -> Z) : Prop := forall r, 0 <= f r < 2 ^ 64.

Lemma tf_slots_ok : slots_ok 288 tf_slots = true.
Proof. reflexivity. Qed.

Lemma tf_slot_of r : r <> a0 -> exists o, (r, o) ∈ tf_slots.
Proof. destruct r; intros H; (congruence || (eexists; repeat first [left | right])). Qed.

Lemma uservec_saves h :
  regs_ok (h_reg h) ->
  exists m, h_mem (exec_code uservec h) = m /\
    (forall r o, (r, o) ∈ tf_slots -> load64 (TRAPFRAME + o) m = h_reg h r) /\
    load64 (TRAPFRAME + 112) m = h_reg h a0 /\
    (forall a, a + 8 <= TRAPFRAME + 40 -> load64 a m = load64 a (h_mem h)) /\
    h_reg (exec_code uservec h) sp = load64 (TRAPFRAME + 8) m /\
    h_reg (exec_code uservec h) tp = load64 (TRAPFRAME + 32) m /\
    h_csr (exec_code uservec h) satp = load64 (TRAPFRAME + 0) m /\
    h_pc (exec_code uservec h) = Some (load64 (TRAPFRAME + 16) m).
Proof.
  intros Hr. assert (HT : TRAPFRAME = 274877898752) by reflexivity.
  set (h1 := exec_code [csrw sscratch a0; li a0 TRAPFRAME] h).
  assert (Hb : h_reg h1 a0 = TRAPFRAME) by reflexivity.
  destruct (saves_spec a0 288 TRAPFRAME ltac:(lia) ltac:(lia) tf_slots h1 eq_refl eq_refl Hb)
    as (m & E & Hin & Hout).
  assert (E' : exec_code uservec h =
    exec_code [csrr t0 sscratch; sd t0 112 a0; ld sp 8 a0; ld tp 32 a0; ld t0 16 a0; ld t1 0 a0;
               sfence_vma; csrw satp t1; sfence_vma; jr t0] (exec_code (saves a0 tf_slots) h1)).
  { reflexivity. }
  exists (store64 (TRAPFRAME + 112) (h_reg h a0) m). rewrite E', E.
  split; [reflexivity|]. split; [|split; [|split; [|repeat split; reflexivity]]].
  - intros r o Hro. assert (o <> 112).
    { intros ->. by apply (slot_test (fun x => negb (x.2 =? 112))) in Hro. }
    destruct (slot_addr 288 TRAPFRAME ltac:(lia) ltac:(lia) tf_slots r o tf_slots_ok Hro) as [_ Hm].
    rewrite load_store_ne by (pose proof (Z.div_mod o 8 ltac:(lia)); lia).
    rewrite (Hin r o Hro). assert (r <> a0).
    { intros ->. by apply (slot_test (fun x => bool_decide (x.1 <> a0))) in Hro. }
    unfold h1. simpl. rewrite fn_lookup_insert_ne by done. apply u64_small, Hr.
  - rewrite load_store. apply Z.mod_small, Hr.
  - intros a Ha. rewrite load_store_ne by lia. rewrite Hout; [reflexivity|].
    intros r o Hro. apply (slot_test (fun x => 40 <=? x.2)) in Hro; [simpl in Hro; lia|reflexivity].
Qed.

Lemma userret_loads h :
  let h' := exec_code userret h in
  (forall r o, (r, o) ∈ tf_slots -> h_reg h' r = load64 (TRAPFRAME + o) (h_mem h)) /\
  h_reg h' a0 = load64 (TRAPFRAME + 112) (h_mem h) /\
  h_csr h' satp = h_reg h a0.
Proof.
  intros h'. assert (HT : TRAPFRAME = 274877898752) by reflexivity.
  set (h1 := exec_code [sfence_vma; csrw satp a0; sfence_vma; li a0 TRAPFRAME] h).
  assert (Hb : h_reg h1 a0 = TRAPFRAME) by reflexivity.
  assert (Ha : a0 ∉ tf_slots.*1) by (by apply slot_fst).
  destruct (loads_spec a0 288 TRAPFRAME ltac:(lia) ltac:(lia) tf_slots h1 eq_refl eq_refl Ha Hb)
    as (f & E & Hin & Hout).
  assert (E' : h' = exec_code [ld a0 112 a0; sret] (exec_code (loads a0 tf_slots) h1)) by reflexivity.
  assert (Hfa : f a0 = TRAPFRAME) by (by rewrite Hout).
  rewrite E', E. simpl. rewrite Hfa. split; [|split].
  - intros r o Hro. rewrite fn_lookup_insert_ne; [by apply Hin|].
    intros <-. apply Ha, list_elem_of_fmap. by exists (a0, o).
  - by rewrite fn_lookup_insert.
  - reflexivity.
Qed.

(** C11: A trap does not change a user program's registers.  Whatever the kernel
    does in between, if it leaves the saved registers in the trap frame alone
    then after uservec and a later userret, run from any registers, all 31 user
    registers hold what they held; the kernel is entered at kernel_trap with
    kernel_sp, kernel_hartid and kernel_satp loaded, and userret installs the
    page table it was called with. *)
Theorem trap_roundtrip h h2 :
  regs_ok (h_reg h) ->
  (forall o, 40 <= o < 288 -> load64 (TRAPFRAME + o) (h_mem h2) = load64 (TRAPFRAME + o) (h_mem (exec_code uservec h))) ->
  (forall r, h_reg (exec_code userret h2) r = h_reg h r) /\
  h_csr (exec_code userret h2) satp = h_reg h2 a0 /\
  h_reg (exec_code uservec h) sp = load64 (TRAPFRAME + 8) (h_mem h) /\
  h_reg (exec_code uservec h) tp = load64 (TRAPFRAME + 32) (h_mem h) /\
  h_csr (exec_code uservec h) satp = load64 (TRAPFRAME + 0) (h_mem h) /\
  h_pc (exec_code uservec h) = Some (load64 (TRAPFRAME + 16) (h_mem h)).
Proof.
  intros Hr Hm. destruct (uservec_saves h Hr) as (m & Em & Hs & Ha & Hlow & Hent). rewrite Em in Hm.
  destruct (userret_loads h2) as (Hl & Hl0 & Hsatp).
  split.
  { intros r. destruct (decide (r = a0)) as [->|Hne].
    - rewrite Hl0, Hm by lia. done.
    - destruct (tf_slot_of r Hne) as [o Ho]. rewrite (Hl _ _ Ho), Hm; [by apply Hs|].
      apply (slot_test (fun x => (40 <=? x.2) && (x.2 <? 288))) in Ho; [simpl in Ho; lia|reflexivity]. }
  split; [done|].
  rewrite <- !Hlow by lia. exact Hent.
Qed.

Definition demo_hart : hart := mkHart (fun _ => 7) (fun _ => 0) ∅ None.

Lemma trap_roundtrip_witness :
  h_reg (exec_code userret (exec_code uservec demo_hart)) s5 = 7.
Proof.
  refine (proj1 (trap_roundtrip demo_hart (exec_code uservec demo_hart) _ _) s5).
  - intros r. split; [done|by apply (Z.pow_lt_mono_r 2 3 64)].
  - done.
Defined.

(** * Switching contexts *)

Definition ctx_slots : list (reg * Z) := [
  (ra, 0); (sp, 8); (s0, 16); (s1, 24); (s2, 32); (s3, 40); (s4, 48); (s5, 56);
  (s6, 64); (s7, 72); (s8, 80); (s9, 88); (s10, 96); (s11, 104)].

(** A struct context lies in memory. *)
Definition ctx_at (c : Z) : Prop := 0 <= c /\ c + 112 <= 2 ^ 64.
Definition ctx_disjoint (c d : Z) : Prop := c + 112 <= d \/ d + 112 <= c.

Lemma swtch_spec h :
  regs_ok (h_reg h) -> ctx_at (h_reg h a0) -> ctx_at (h_reg h a1) -> ctx_disjoint (h_reg h a0) (h_reg h a1) ->
  (forall r o, (r, o) ∈ ctx_slots -> load64 (h_reg h a0 + o) (h_mem (exec_code swtch_code h)) = h_reg h r) /\
  (forall r o, (r, o) ∈ ctx_slots -> h_reg (exec_code swtch_code h) r = load64 (h_reg h a1 + o) (h_mem h)) /\
  (forall r, r ∉ ctx_slots.*1 -> h_reg (exec_code swtch_code h) r = h_reg h r) /\
  h_pc (exec_code swtch_code h) = Some (load64 (h_reg h a1) (h_mem h)).
Proof.
  intros Hr [Ho Ho'] [Hn Hn'] Hd.
  destruct (saves_spec a0 112 _ Ho Ho' ctx_slots h eq_refl eq_refl eq_refl) as (m & E & Hin & Hout).
  set (h1 := mkHart (h_reg h) (h_csr h) m (h_pc h)) in E.
  destruct (loads_spec a1 112 _ Hn Hn' ctx_slots h1 eq_refl eq_refl ltac:(by apply slot_fst) eq_refl)
    as (f & E1 & Hin1 & Hout1).
  assert (E' : exec_code swtch_code h = exec_code [ret] (exec_code (loads a1 ctx_slots) (exec_code (saves a0 ctx_slots) h)))
    by reflexivity.
  rewrite E', E, E1. simpl.
  assert (Hnew : forall r o, (r, o) ∈ ctx_slots -> load64 (h_reg h a1 + o) m = load64 (h_reg h a1 + o) (h_mem h)).
  { intros r o Hro. apply Hout. intros r2 o2 H2.
    apply (slot_test (fun x => (0 <=? x.2) && (x.2 <? 112 - 7))) in Hro; [|reflexivity].
    apply (slot_test (fun x => (0 <=? x.2) && (x.2 <? 112 - 7))) in H2; [|reflexivity].
    simpl in Hro, H2. unfold ctx_disjoint in Hd. lia. }
  split; [|split; [|split]].
  - intros r o Hro. rewrite (Hin r o Hro). apply u64_small, Hr.
  - intros r o Hro. rewrite (Hin1 r o Hro). by apply (Hnew r).
  - done.
  - f_equal. rewrite (Hin1 ra 0) by left. simpl. rewrite (Hnew ra 0) by left. by rewrite Z.add_0_r.
Qed.

(** C32: A kernel thread that switches away with swtch and is switched back to
    later, by a swtch from any other context to the one it was saved in, goes on
    after its call with its return address, stack pointer and all callee-saved
    registers as they were, if the context was left alone meanwhile. *)
Theorem swtch_roundtrip h h2 :
  regs_ok (h_reg h) -> ctx_at (h_reg h a0) -> ctx_at (h_reg h a1) -> ctx_disjoint (h_reg h a0) (h_reg h a1) ->
  regs_ok (h_reg h2) -> ctx_at (h_reg h2 a0) -> h_reg h2 a1 = h_reg h a0 ->
  ctx_disjoint (h_reg h2 a0) (h_reg h a0) ->
  (forall o, 0 <= o < 112 -> load64 (h_reg h a0 + o) (h_mem h2) = load64 (h_reg h a0 + o) (h_mem (exec_code swtch_code h))) ->
  (forall r, r ∈ [ra; sp; s0; s1; s2; s3; s4; s5; s6; s7; s8; s9; s10; s11] ->
     h_reg (exec_code swtch_code h2) r = h_reg h r) /\
  h_pc (exec_code swtch_code h2) = Some (h_reg h ra).
Proof.
  intros Hr Ho Hn Hd Hr2 Ho2 E Hd2 Hm.
  destruct (swtch_spec h Hr Ho Hn Hd) as (Hsave & _).
  destruct (swtch_spec h2 Hr2 Ho2 ltac:(by rewrite E) ltac:(by rewrite E)) as (_ & Hload & _ & Hpc).
  rewrite E in Hload, Hpc. split.
  - intros r Hin. assert (exists o, (r, o) ∈ ctx_slots) as [o Hro].
    { change (r ∈ ctx_slots.*1) in Hin. apply list_elem_of_fmap in Hin as [[r' o] [-> Hin]]. by exists o. }
    rewrite (Hload r o Hro), Hm; [by apply Hsave|].
    apply (slot_test (fun x => (0 <=? x.2) && (x.2 <? 112))) in Hro; [simpl in Hro; lia|reflexivity].
  - rewrite Hpc. f_equal. specialize (Hm 0 ltac:(lia)). rewrite Z.add_0_r in Hm. rewrite Hm.
    rewrite <- (Hsave ra 0) by left. by rewrite Z.add_0_r.
Qed.

Definition demo_switch (x y : Z) (m : mem) : hart :=
  mkHart (<[a0 := x]> (<[a1 := y]> (fun _ => 7))) (fun _ => 0) m None.

Lemma demo_switch_regs x y m : 0 <= x < 2 ^ 64 -> 0 <= y < 2 ^ 64 -> regs_ok (h_reg (demo_switch x y m)).
Proof. intros Hx Hy r. simpl. unfold insert, fn_insert. repeat case_decide; lia. Qed.

Lemma swtch_roundtrip_witness :
  let h := demo_switch 4096 8192 ∅ in
  let h2 := demo_switch 8192 4096 (h_mem (exec_code swtch_code h)) in
  h_pc (exec_code swtch_code h2) = Some 7.
Proof.
  intros h h2.
  refine (proj2 (swtch_roundtrip h h2 _ _ _ _ _ _ _ _ _)).
  - apply demo_switch_regs; lia.
  - change (ctx_at 4096). unfold ctx_at. lia.
  - change (ctx_at 8192). unfold ctx_at. lia.
  - change (ctx_disjoint 4096 8192). unfold ctx_disjoint. lia.
  - apply demo_switch_regs; lia.
  - change (ctx_at 8192). unfold ctx_at. lia.
  - reflexivity.
  - change (ctx_disjoint 8192 4096). unfold ctx_disjoint. lia.
  - done.
Defined.

(** * Traps in the kernel *)

Definition kv_slots : list (reg * Z) := [
  (gp, 16); (t0, 32); (t1, 40); (t2, 48); (a0, 72); (a1, 80); (a2, 88); (a3, 96); (a4, 104); (a5, 112);
  (a6, 120); (a7, 128); (t3, 216); (t4, 224); (t5, 232); (t6, 240)].
Definition kv_saved : list (reg * Z) := [
  (ra, 0); (sp, 8); (gp, 16); (tp, 24); (t0, 32); (t1, 40); (t2, 48); (a0, 72); (a1, 80); (a2, 88); (a3, 96);
  (a4, 104); (a5, 112); (a6, 120); (a7, 128); (t3, 216); (t4, 224); (t5, 232); (t6, 240)].

Lemma kernelvec_saves h :
  regs_ok (h_reg h) -> 256 <= h_reg h sp ->
  let h1 := exec_code kernelvec_entry h in
  h_reg h1 sp = h_reg h sp - 256 /\
  (forall r, r <> sp -> h_reg h1 r = h_reg h r) /\
  (forall r o, (r, o) ∈ kv_saved -> load64 (h_reg h sp - 256 + o) (h_mem h1) = h_reg h1 r).
Proof.
  intros Hr Hsp h1. pose proof (Hr sp) as Hrsp.
  set (h0 := step (addi sp sp (-256)) h).
  assert (Hb : h_reg h0 sp = h_reg h sp - 256) by (simpl; rewrite fn_lookup_insert; apply u64_small; lia).
  destruct (saves_spec sp 256 (h_reg h sp - 256) ltac:(lia) ltac:(lia) kv_saved h0 eq_refl eq_refl Hb)
    as (m & E & Hin & _).
  assert (E' : h1 = exec_code (saves sp kv_saved) h0) by reflexivity.
  rewrite E', E. simpl. split; [done|]. split.
  - intros r Hne. by rewrite fn_lookup_insert_ne.
  - intros r o Hro. rewrite (Hin r o Hro). apply u64_small.
    simpl. unfold insert, fn_insert. case_decide; [apply u64_range|apply Hr].
Qed.

(** kernelvec's epilogue, when the save area holds its own stack pointer. *)
Lemma kernelvec_restores h base :
  0 <= base -> base + 256 < 2 ^ 64 -> h_reg h sp = base -> load64 (base + 8) (h_mem h) = base ->
  let h' := exec_code kernelvec_exit h in
  h_reg h' sp = base + 256 /\ h_reg h' ra = load64 (base + 0) (h_mem h) /\
  (forall r o, (r, o) ∈ kv_slots -> h_reg h' r = load64 (base + o) (h_mem h)) /\
  (forall r, r <> sp -> r <> ra -> r ∉ kv_slots.*1 -> h_reg h' r = h_reg h r).
Proof.
  intros Hb0 Htop Hb Hsp h'.
  set (h1 := mkHart (<[sp := base]> (<[ra := load64 (base + 0) (h_mem h)]> (h_reg h))) (h_csr h) (h_mem h) (h_pc h)).
  assert (E1 : exec_code [ld ra 0 sp; ld sp 8 sp] h = h1).
  { unfold exec_code, h1. simpl. rewrite fn_lookup_insert_ne by done. rewrite Hb.
    rewrite !u64_small by lia. by rewrite Hsp. }
  destruct (loads_spec sp 256 base Hb0 ltac:(lia) kv_slots h1 eq_refl eq_refl ltac:(by apply slot_fst))
    as (f & E & Hin & Hout).
  { simpl. by rewrite fn_lookup_insert. }
  assert (E' : h' = exec_code [addi sp sp 256; sret] (exec_code (loads sp kv_slots) (exec_code [ld ra 0 sp; ld sp 8 sp] h)))
    by reflexivity.
  rewrite E', E1, E. simpl.
  assert (Hfsp : f sp = base) by (rewrite Hout by (by apply slot_fst); by simpl; rewrite fn_lookup_insert).
  assert (Hfra : f ra = load64 (base + 0) (h_mem h)).
  { rewrite Hout by (by apply slot_fst). simpl. rewrite fn_lookup_insert_ne by done. by rewrite fn_lookup_insert. }
  split; [|split; [|split]].
  - rewrite fn_lookup_insert, Hfsp. apply u64_small. lia.
  - by rewrite fn_lookup_insert_ne.
  - intros r o Hro. rewrite fn_lookup_insert_ne; [by apply Hin|].
    intros <-. by apply (slot_test (fun x => bool_decide (x.1 <> sp))) in Hro.
  - intros r H1 H2 H3. rewrite fn_lookup_insert_ne by done. rewrite Hout by done. simpl.
    by rewrite !fn_lookup_insert_ne.
Qed.

(** C33: An interrupt is invisible to the kernel code it interrupts: if kerneltrap
    obeys the calling convention (it returns with the stack pointer and the
    callee-saved registers it was called with) and leaves the 256 bytes kernelvec
    pushed alone, then after kernelvec every register but tp is what it was; tp
    is what kerneltrap left, since the thread may have moved to another CPU. *)
Theorem kernelvec_transparent h h2 :
  regs_ok (h_reg h) -> 256 <= h_reg h sp ->
  h_reg h2 sp = h_reg (exec_code kernelvec_entry h) sp ->
  (forall r, r ∈ [s0; s1; s2; s3; s4; s5; s6; s7; s8; s9; s10; s11] ->
     h_reg h2 r = h_reg (exec_code kernelvec_entry h) r) ->
  (forall o, 0 <= o < 256 -> load64 (h_reg h2 sp + o) (h_mem h2) = load64 (h_reg h2 sp + o) (h_mem (exec_code kernelvec_entry h))) ->
  (forall r, r <> tp -> h_reg (exec_code kernelvec_exit h2) r = h_reg h r) /\
  h_reg (exec_code kernelvec_exit h2) tp = h_reg h2 tp.
Proof.
  intros Hr Hsp E Hs Hm. destruct (kernelvec_saves h Hr Hsp) as (E1 & Hregs & Hsave). pose proof (Hr sp) as Hrsp.
  rewrite E1 in E. rewrite E in Hm.
  destruct (kernelvec_restores h2 (h_reg h sp - 256) ltac:(lia) ltac:(lia) E) as (Rsp & Rra & Rl & Ro).
  { rewrite Hm by lia. rewrite (Hsave sp 8) by (right; left). done. }
  split; [|by apply Ro; [..|apply slot_fst]].
  intros r Hne. destruct (decide (r = sp)) as [->|Hnsp]; [rewrite Rsp; lia|].
  rewrite <- (Hregs r Hnsp). destruct (decide (r = ra)) as [->|Hnra].
  { rewrite Rra, Hm by lia. by rewrite (Hsave ra 0) by left. }
  destruct (decide (r ∈ kv_slots.*1)) as [Hin|Hout].
  - apply list_elem_of_fmap in Hin as [[r' o] [-> Hin]]. cbn [fst]. rewrite (Rl _ _ Hin), Hm.
    + apply Hsave. apply (slot_test (fun x => bool_decide (x ∈ kv_saved))) in Hin; [|reflexivity].
      by apply bool_decide_eq_true in Hin.
    + apply (slot_test (fun x => (0 <=? x.2) && (x.2 <? 256))) in Hin; [simpl in Hin; lia|reflexivity].
  - rewrite Ro by done. apply Hs. clear - Hne Hnsp Hnra Hout.
    destruct r; try congruence; try (exfalso; apply Hout; by apply (bool_decide_unpack _));
      by apply (bool_decide_unpack _).
Qed.

Definition demo_kernel_hart : hart := mkHart (<[sp := 8192]> (fun _ => 7)) (fun _ => 0) ∅ None.

Lemma kernelvec_transparent_witness :
  h_reg (exec_code kernelvec_exit (exec_code kernelvec_entry demo_kernel_hart)) a3 = 7.
Proof.
  refine (proj1 (kernelvec_transparent demo_kernel_hart (exec_code kernelvec_entry demo_kernel_hart) _ _ _ _ _) a3 _);
    [|by apply Z.leb_le|done..].
  intros r. simpl. unfold insert, fn_insert. case_decide; lia.
Defined.

(** * Entry

    A CPU starts in C with the stack pointer at the end of its own 4096 bytes of
    stack0, that is stack0 + (hartid + 1) * 4096; the comment in entry.S gives
    stack0 + hartid * 4096, the stack's lowest address. *)
Lemma entry_stack stack0 h :
  0 <= stack0 -> 0 <= h_csr h mhartid < NCPU -> stack0 + NCPU * 4096 < 2 ^ 64 ->
  h_reg (exec_code (entry stack0) h) sp = stack0 + (h_csr h mhartid + 1) * 4096.
Proof.
  intros H0 Hid Htop. assert (HN : NCPU = 8) by reflexivity.
  assert (E : h_reg (exec_code (entry stack0) h) sp =
              u64 (u64 stack0 + u64 (u64 4096 * u64 (h_csr h mhartid + 1)))) by reflexivity.
  rewrite E. rewrite (u64_small stack0), (u64_small 4096), (u64_small (h_csr h mhartid + 1)) by lia.
  rewrite (u64_small (4096 * _)) by lia. rewrite u64_small; lia.
Qed.
