(* ===== verification/Initcode.v ===== *)
(** The first process: user/initcode.S, the bytes that kernel/proc.c keeps of it, and
    what they do when a hart runs them in user mode.

    The assembler lays out the instructions and data of initcode.S in two passes, as
    la, li, jal and the directives ask.  How many bytes of padding .p2align puts in front
    of argv is up to the assembler: it is an argument.  The hart fetches, decodes and
    executes 32-bit instructions from memory until an ecall. *)

From stdpp Require Import functions.
From S2P Require Import Prelude Riscv Bytes State Proc Syscall.

(** * Instructions *)

(** The instructions of initcode.S, with the numbers of their registers. *)
Inductive uinstr :=
| UAuipc (rd imm : Z)
| UAddi (rd rs imm : Z)
| UJal (rd imm : Z)
| UEcall.

(** [n] bits of [w] from bit [i] up. *)
Definition field (w i n : Z) : Z := Z.shiftr w i mod 2 ^ n.

(** The 32-bit formats U, I and J. *)
Definition encode (i : uinstr) : Z :=
  match i with
  | UAuipc rd imm => Z.shiftl (field imm 0 20) 12 + Z.shiftl rd 7 + 0x17
  | UAddi rd rs imm => Z.shiftl (field imm 0 12) 20 + Z.shiftl rs 15 + Z.shiftl rd 7 + 0x13
  | UJal rd imm =>
      Z.shiftl (field imm 20 1) 31 + Z.shiftl (field imm 1 10) 21 + Z.shiftl (field imm 11 1) 20 +
      Z.shiftl (field imm 12 8) 12 + Z.shiftl rd 7 + 0x6f
  | UEcall => 0x73
  end.

Definition decode (w : Z) : option uinstr :=
  let rd := field w 7 5 in
  let op := field w 0 7 in
  if op =? 0x17 then Some (UAuipc rd (sext 20 (field w 12 20)))
  else if (op =? 0x13) && (field w 12 3 =? 0) then Some (UAddi rd (field w 15 5) (sext 12 (field w 20 12)))
  else if op =? 0x6f then
    Some (UJal rd (sext 21 (Z.shiftl (field w 31 1) 20 + Z.shiftl (field w 12 8) 12 + Z.shiftl (field w 20 1) 11 + Z.shiftl (field w 21 10) 1)))
  else if w =? 0x73 then Some UEcall
  else None.

(** * Assembly *)

Inductive asm :=
| Label (l : string)
| La (rd : Z) (l : string)
| Li (rd imm : Z)
| Ecall
| Jal (l : string)
| Asciz (s : list Z)
| P2align (n : Z)
| QuadL (l : string)
| Quad (v : Z).

Definition a0 : Z := 10.
Definition a1 : Z := 11.
Definition a7 : Z := 17.
Definition ra : Z := 1.

(** user/initcode.S *)
Definition initcode_S : list asm := [
  Label "start";
  La a0 "init";
  La a1 "argv";
  Li a7 SYS_exec;
  Ecall;
  Label "exit";
  Li a7 SYS_exit;
  Ecall;
  Jal "exit";
  Label "init";
  Asciz (chars "/init" ++ [0]);
  P2align 2;
  Label "argv";
  QuadL "init";
  Quad 0
].

Section assembler.
(** The number of bytes the assembler puts for an alignment to 2^n in code. *)
Context (padding : Z -> Z).

(** The size of a line. *)
Definition size (i : asm) : Z :=
  match i with
  | Label _ => 0
  | La _ _ => 8
  | Li _ _ | Ecall | Jal _ => 4
  | Asciz s => Z.of_nat (length s) + 1
  | P2align n => padding n
  | QuadL _ | Quad _ => 8
  end.

(** The first pass: where the labels are. *)
Fixpoint labels (l : list asm) (at_ : Z) : list (string * Z) :=
  match l with
  | [] => []
  | i :: l' =>
      match i with Label x => [(x, at_)] | _ => [] end ++ labels l' (at_ + size i)
  end.
Definition find (env : list (string * Z)) (x : string) : option Z :=
  snd <$> List.find (fun y => String.eqb y.1 x) env.

(** A distance as the two parts that auipc and addi add. *)
Definition hi20 (d : Z) : Z := (d + 0x800) / 4096.
Definition lo12 (d : Z) : Z := d - 4096 * hi20 d.

(** The second pass: the bytes of a line at [at_]. *)
Definition emit (env : list (string * Z)) (i : asm) (at_ : Z) : option (list Z) :=
  match i with
  | Label _ => Some []
  | La rd x => a ← find env x;
      Some (enc 4 (encode (UAuipc rd (hi20 (a - at_)))) ++ enc 4 (encode (UAddi rd rd (lo12 (a - at_)))))
  | Li rd imm => Some (enc 4 (encode (UAddi rd 0 imm)))
  | Ecall => Some (enc 4 (encode UEcall))
  | Jal x => a ← find env x; Some (enc 4 (encode (UJal ra (a - at_))))
  | Asciz s => Some (s ++ [0])
  | P2align n => Some (replicate (Z.to_nat (padding n)) 0)
  | QuadL x => a ← find env x; Some (enc 8 a)
  | Quad v => Some (enc 8 v)
  end.
Fixpoint emit_all (env : list (string * Z)) (l : list asm) (at_ : Z) : option (list Z) :=
  match l with
  | [] => Some []
  | i :: l' => bs ← emit env i at_; rest ← emit_all env l' (at_ + size i); Some (bs ++ rest)
  end.
Definition assemble (l : list asm) : option (list Z) := emit_all (labels l 0) l 0.
End assembler.

(** * A hart in user mode *)

(** Registers by number, the program counter. *)
Record uhart := mkUhart { u_reg : Z -> Z; u_pc : Z }.

Definition rget (h : uhart) (r : Z) : Z := if r =? 0 then 0 else u_reg h r.
Definition rset (h : uhart) (r v pc : Z) : uhart :=
  mkUhart (if r =? 0 then u_reg h else <[r := u64 v]> (u_reg h)) (u64 pc).

(** The bytes that user code reads, None where it cannot: the page table decides. *)
Abbreviation uview := (Z -> option Z).
Definition uload (m : uview) (n : nat) (a : Z) : option Z :=
  dec <$> mapM (fun i => m (a + Z.of_nat i)) (seq 0 n).

(** What an instruction does: go on, trap into the kernel with an ecall, or a
    fault. *)
Inductive ustep_out := Next (h : uhart) | Trap (h : uhart) | Faulted.
Definition ustep (m : uview) (h : uhart) : ustep_out :=
  let pc := u_pc h in
  match uload m 4 pc ≫= decode with
  | Some (UAuipc rd imm) => Next (rset h rd (pc + 4096 * imm) (pc + 4))
  | Some (UAddi rd rs imm) => Next (rset h rd (rget h rs + imm) (pc + 4))
  | Some (UJal rd imm) => Next (rset h rd (pc + 4) (pc + imm))
  | Some UEcall => Trap h
  | None => Faulted
  end.

(** Run up to the next ecall. *)
Fixpoint urun (fuel : nat) (m : uview) (h : uhart) : ustep_out :=
  match fuel with
  | O => Faulted
  | S fuel' => match ustep m h with Next h' => urun fuel' m h' | o => o end
  end.

(** The kernel returns from a system call: usertrap moves the program counter past
    the ecall, syscall puts the result in a0. *)
Definition sysret (h : uhart) (v : Z) : uhart := mkUhart (<[a0 := u64 v]> (u_reg h)) (u_pc h + 4).

(** * The image *)

(** A page that holds [code], zeros after it: what uvmfirst makes. *)
Definition page (code : list Z) : list Z := take (Z.to_nat PGSIZE) (code ++ replicate (Z.to_nat PGSIZE) 0).
Definition image (code : list Z) (m : uview) : Prop :=
  forall i b, page code !! i = Some b -> m (Z.of_nat i) = Some b.

Lemma uload_image code m n a : image code m -> (a + n <= length (page code))%nat ->
  uload m n (Z.of_nat a) = Some (get n a (page code)).
Proof.
  intros Hi Hl. unfold uload, get.
  assert (E : mapM (fun i => m (Z.of_nat a + Z.of_nat i)) (seq 0 n) = Some (take n (drop a (page code)))); [|by rewrite E].
  apply mapM_Some. apply Forall2_same_length_lookup. split; [rewrite length_seq, length_take, length_drop; lia|].
  intros i x b Hx Hb. apply lookup_seq in Hx as [-> Hx]. rewrite lookup_take_lt in Hb by lia. rewrite lookup_drop in Hb.
  rewrite <- Nat2Z.inj_add. by apply Hi.
Qed.

(** initcode.S with [k] bytes of padding. *)
Definition built (k : nat) : list Z := default [] (assemble (fun _ => Z.of_nat k) initcode_S).

(** The instructions of an image whose argv is at [argv]. *)
Definition text (argv : Z) : list uinstr := [
  UAuipc a0 0; UAddi a0 a0 36;
  UAuipc a1 0; UAddi a1 a1 (argv - 8);
  UAddi a7 0 SYS_exec; UEcall;
  UAddi a7 0 SYS_exit; UEcall;
  UJal ra (-8)
].
Record first_image (code : list Z) (argv : nat) : Prop := {
  fi_text : forall k i, text (Z.of_nat argv) !! k = Some i -> decode (get 4 (4 * k) (page code)) = Some i;
  fi_path : take 6 (drop 36 (page code)) = chars "/init" ++ [0];
  fi_argv : get 8 argv (page code) = 36 /\ get 8 (argv + 8) (page code) = 0;
}.

Lemma initcode_image : first_image initcode 43.
Proof.
  split; [|by vm_compute|by vm_compute].
  intros k i Hk. do 9 (destruct k as [|k]; [simpl in Hk; injection Hk as <-; by vm_compute|]). done.
Qed.
Lemma built_image k : (k < 4)%nat -> first_image (built k) (43 + k).
Proof.
  intros Hk. do 4 (destruct k as [|k]; [split; [|by vm_compute|by vm_compute]; intros j i Hj;
    do 9 (destruct j as [|j]; [simpl in Hj; injection Hj as <-; by vm_compute|]); done|]). lia.
Qed.

Lemma length_page code : length (page code) = Z.to_nat PGSIZE.
Proof. unfold page. rewrite length_take, length_app, length_replicate. lia. Qed.

Section run.
Context (code : list Z) (argv : nat) (m : uview).
Context (Hc : first_image code argv) (Hm : image code m) (Ha : (argv <= 64)%nat).

Lemma fetch k i h : text (Z.of_nat argv) !! k = Some i -> u_pc h = 4 * Z.of_nat k -> uload m 4 (u_pc h) ≫= decode = Some i.
Proof.
  intros Hk E. pose proof (lookup_lt_Some _ _ _ Hk) as Hl. simpl in Hl. rewrite E. replace (4 * Z.of_nat k) with (Z.of_nat (4 * k)) by lia.
  rewrite (uload_image code) by (done || (rewrite length_page; unfold PGSIZE; lia)). by apply (fi_text _ _ Hc).
Qed.

(** One instruction that is not an ecall. *)
Lemma urun_next fuel k i h h' :
  text (Z.of_nat argv) !! k = Some i -> u_pc h = 4 * Z.of_nat k ->
  (match i with
   | UAuipc rd imm => h' = rset h rd (u_pc h + 4096 * imm) (u_pc h + 4)
   | UAddi rd rs imm => h' = rset h rd (rget h rs + imm) (u_pc h + 4)
   | UJal rd imm => h' = rset h rd (u_pc h + 4) (u_pc h + imm)
   | UEcall => False
   end) -> urun (S fuel) m h = urun fuel m h'.
Proof. intros Hk E Hh. cbn [urun]. unfold ustep. rewrite (fetch k i h Hk E). destruct i; by subst. Qed.

Lemma urun_ecall fuel k h :
  text (Z.of_nat argv) !! k = Some UEcall -> u_pc h = 4 * Z.of_nat k -> urun (S fuel) m h = Trap h.
Proof. intros Hk E. cbn [urun]. unfold ustep. by rewrite (fetch k UEcall h Hk E). Qed.

(** From the start to the first system call. *)
Lemma run_start h : u_pc h = 0 ->
  exists h', urun 6 m h = Trap h' /\ u_pc h' = 20 /\ rget h' a7 = SYS_exec /\ rget h' a0 = 36 /\ rget h' a1 = Z.of_nat argv.
Proof.
  intros E. destruct h as [r pc]. simpl in E. subst pc. eexists. split.
  - erewrite (urun_next 5 0) by reflexivity. erewrite (urun_next 4 1) by reflexivity. erewrite (urun_next 3 2) by reflexivity.
    erewrite (urun_next 2 3) by reflexivity. erewrite (urun_next 1 4) by reflexivity. by rewrite (urun_ecall 0 5).
  - unfold rset, rget. cbn -[u64 fn_insert text]. unfold a0, a1, a7.
    rewrite !fn_lookup_insert. rewrite ?fn_lookup_insert_ne, ?fn_lookup_insert by done.
    split_and!; try reflexivity. rewrite fn_lookup_insert_ne, fn_lookup_insert by done.
    change (u64 (u64 (u64 (0 + 4) + 4) + 4096 * 0)) with 8. rewrite u64_small; lia.
Qed.

(** From the return of exec, or of an exit, to the next exit. *)
Lemma run_exit h : u_pc h = 24 \/ u_pc h = 32 ->
  exists h', urun 3 m h = Trap h' /\ u_pc h' = 28 /\ rget h' a7 = SYS_exit.
Proof.
  destruct h as [r pc]. cbn [u_pc]. intros [-> | ->]; eexists; split.
  - erewrite (urun_next 2 6) by reflexivity. by rewrite (urun_ecall 1 7).
  - done.
  - erewrite (urun_next 2 8) by reflexivity. erewrite (urun_next 1 6) by reflexivity. by rewrite (urun_ecall 0 7).
  - done.
Qed.

(** The arguments of the first call. *)
Lemma first_args :
  (forall i b, (chars "/init" ++ [0]) !! i = Some b -> m (36 + Z.of_nat i) = Some b) /\
  uload m 8 (Z.of_nat argv) = Some 36 /\ uload m 8 (Z.of_nat argv + 8) = Some 0.
Proof.
  destruct (fi_argv _ _ Hc) as [E1 E2]. split_and!.
  - intros i b Hi. replace (36 + Z.of_nat i) with (Z.of_nat (36 + i)) by lia. apply Hm.
    rewrite <- (fi_path _ _ Hc) in Hi. pose proof (lookup_lt_Some _ _ _ Hi) as Hl. rewrite length_take in Hl.
    rewrite lookup_take_lt in Hi by lia. by rewrite lookup_drop in Hi.
  - rewrite (uload_image code) by (done || (rewrite length_page; unfold PGSIZE; lia)). by rewrite E1.
  - replace (Z.of_nat argv + 8) with (Z.of_nat (argv + 8)) by lia.
    rewrite (uload_image code) by (done || (rewrite length_page; unfold PGSIZE; lia)). by rewrite E2.
Qed.
End run.

(** * The first process *)

(** The states of the process at its system calls, one after the other, when the
    kernel returns the values [vs]: exec first, and only if that returns, exit. *)
Inductive traps (m : uview) : uhart -> list Z -> list uhart -> Prop :=
| traps_last fuel h h' : urun fuel m h = Trap h' -> traps m h [] [h']
| traps_more fuel h h' v vs hs : urun fuel m h = Trap h' -> traps m (sysret h' v) vs hs -> traps m h (v :: vs) (h' :: hs).

Lemma traps_exit code argv m vs : first_image code argv -> image code m -> (argv <= 64)%nat ->
  forall h, u_pc h = 24 \/ u_pc h = 32 ->
  exists hs, traps m h vs hs /\ length hs = S (length vs) /\ Forall (fun h => rget h a7 = SYS_exit) hs.
Proof.
  intros Hc Hm Ha. induction vs as [|v vs IH]; intros h Hh; destruct (run_exit code argv m Hc Hm Ha h Hh) as (h' & E & Hpc & H7).
  - exists [h']. split_and!; [by eapply traps_last|done|by repeat constructor].
  - destruct (IH (sysret h' v)) as (hs & Ht & Hl & Hf); [right; simpl; lia|].
    exists (h' :: hs). split_and!; [by eapply traps_more|simpl; lia|by constructor].
Qed.

(** C29: The first process does what initcode.S says.  The bytes of initcode[] in proc.c
    are those of initcode.S, up to zeros that the page has anyway, when the assembler puts
    no padding before argv, which is what GNU as does for .p2align 2 where instructions
    have four bytes (-march=rv64g in the Makefile).  And however much padding it puts, a
    hart that starts at address 0 of a page with the image first calls exec with the
    address of the string "/init" and that of the array of that string and a null
    pointer; whatever the calls return, it only calls exit from then on, without a
    fault. *)
Theorem initcode_correct k m h v vs :
  (k < 4)%nat -> image (built k) m -> u_pc h = 0 ->
  (assemble (fun _ => 0) initcode_S = Some (initcode ++ replicate 7 0) /\ page (built 0) = page initcode) /\
  exists h1 hs, traps m h (v :: vs) (h1 :: hs) /\ length hs = S (length vs) /\
    rget h1 a7 = SYS_exec /\ rget h1 a0 = 36 /\ rget h1 a1 = Z.of_nat (43 + k) /\
    (forall i b, (chars "/init" ++ [0]) !! i = Some b -> m (36 + Z.of_nat i) = Some b) /\
    uload m 8 (Z.of_nat (43 + k)) = Some 36 /\ uload m 8 (Z.of_nat (43 + k) + 8) = Some 0 /\
    Forall (fun h => rget h a7 = SYS_exit) hs.
Proof.
  intros Hk Hm Hpc. split; [split; by vm_compute|]. pose proof (built_image k Hk) as Hc.
  assert (Ha : (43 + k <= 64)%nat) by lia.
  destruct (run_start (built k) (43 + k) m Hc Hm Ha h Hpc) as (h1 & E & Hpc1 & H7 & H0 & H1).
  destruct (traps_exit (built k) (43 + k) m vs Hc Hm Ha (sysret h1 v)) as (hs & Ht & Hl & Hf); [left; simpl; lia|].
  destruct (first_args (built k) (43 + k) m Hc Hm Ha) as (Hp & Hv1 & Hv2).
  exists h1, hs. split_and!; try done. by eapply traps_more.
Qed.

(** The bytes of proc.c. *)
Lemma initcode_correct_witness :
  let m := fun a => if a <? 0 then None else page initcode !! Z.to_nat a in
  let h := mkUhart (fun _ => 0) 0 in
  image initcode m /\
  exists h1 hs, traps m h [-1; 0] (h1 :: hs) /\ length hs = 2%nat /\ rget h1 a7 = SYS_exec.
Proof.
  cbv zeta. assert (Hm : image initcode (fun a => if a <? 0 then None else page initcode !! Z.to_nat a)).
  { intros i b Hi. rewrite (proj2 (Z.ltb_ge _ 0)) by lia. by rewrite Nat2Z.id. }
  split; [exact Hm|].
  assert (Hm0 : image (built 0) (fun a => if a <? 0 then None else page initcode !! Z.to_nat a)).
  { intros i b Hi. apply Hm. assert (E : page (built 0) = page initcode) by (vm_compute; reflexivity). rewrite <- E. exact Hi. }
  destruct (initcode_correct 0 _ (mkUhart (fun _ => 0) 0) (-1) [0] ltac:(lia) Hm0 eq_refl)
    as (_ & h1 & hs & H1 & H2 & H3 & _).
  exists h1, hs. exact (conj H1 (conj H2 H3)).
Defined.
