(* ===== verification/ExecArgs.v ===== *)
(** How system calls read their arguments from user memory, and what sys_exec does
    with them: it hands exec copies of the user's strings, or fails without a trace. *)

From S2P Require Import Prelude Riscv Memory Bytes CString State Kalloc Vm PageTable AddrSpace UserMem CopyUser UserIO VmProps Sched Console Proc Args Exec Sysfile Syscall Initcode.

(** * What user memory says *)

(** The word at [a], for a process of size [sz]. *)
Definition uword (m : uview) (sz a : Z) : option Z :=
  if (a >=? sz) || (u64 (a + 8) >? sz) then None else uload m 8 a.

(** The string at [a], if its NUL is among the first [n] bytes. *)
Fixpoint ustring (m : uview) (n : nat) (a : Z) : option (list Z) :=
  match n with
  | O => None
  | S n' =>
      match m a with
      | None => None
      | Some b => if b =? 0 then Some [] else (b ::.) <$> ustring m n' (a + 1)
      end
  end.

(** The strings of the array at [a], if its null pointer is among the first [n]
    entries. *)
Fixpoint uargs (m : uview) (sz : Z) (n : nat) (a i : Z) : option (list (list Z)) :=
  match n with
  | O => None
  | S n' =>
      p ← uword m sz (u64 (a + 8 * i));
      if p =? 0 then Some []
      else
        str ← ustring m (Z.to_nat PGSIZE) p;
        (str ::.) <$> uargs m sz n' a (i + 1)
  end.

(** * Strings *)

Lemma ustring_read m n : forall a bs,
  (forall i b, bs !! i = Some b -> m (a + Z.of_nat i) = Some b) ->
  (forall str, bs = str ++ [0] -> Forall (.≠ 0) str -> (length bs <= n)%nat -> ustring m n a = Some str) /\
  (Forall (.≠ 0) bs -> (length bs <= n)%nat -> (length bs = n \/ m (a + Z.of_nat (length bs)) = None) -> ustring m n a = None).
Proof.
  induction n as [|n IH]; intros a bs Hr.
  { split; [|done]. intros str -> _ Hl. rewrite length_app in Hl. simpl in Hl. lia. }
  assert (Hnext : forall b bs', bs = b :: bs' -> forall i c, bs' !! i = Some c -> m (a + 1 + Z.of_nat i) = Some c).
  { intros b bs' -> i c Hc. replace (a + 1 + Z.of_nat i) with (a + Z.of_nat (S i)) by lia. by apply Hr. }
  cbn [ustring]. split.
  - intros str -> Hnz Hl. destruct str as [|b str].
    + specialize (Hr 0%nat 0 eq_refl). rewrite Z.add_0_r in Hr. by rewrite Hr.
    + pose proof (Hr 0%nat b eq_refl) as Hb. rewrite Z.add_0_r in Hb. rewrite Hb.
      apply Forall_cons in Hnz as [Hb0 Hnz]. rewrite (proj2 (Z.eqb_neq b 0)) by done.
      destruct (IH (a + 1) (str ++ [0]) (Hnext b _ eq_refl)) as [H _]. simpl in Hl. by rewrite (H str) by (done || lia).
  - intros Hnz Hl Hend. destruct bs as [|b bs].
    + destruct Hend as [|Hend]; [done|]. simpl in Hend. rewrite Z.add_0_r in Hend. by rewrite Hend.
    + pose proof (Hr 0%nat b eq_refl) as Hb. rewrite Z.add_0_r in Hb. rewrite Hb.
      apply Forall_cons in Hnz as [Hb0 Hnz]. rewrite (proj2 (Z.eqb_neq b 0)) by done.
      destruct (IH (a + 1) bs (Hnext b _ eq_refl)) as [_ H]. simpl in Hl, Hend.
      rewrite H; [done|done|lia|]. destruct Hend as [?|Hend]; [left; lia|right]. rewrite <- Hend. f_equal. lia.
Qed.

Lemma ustring_props m n : forall a str, ustring m n a = Some str -> Forall (.≠ 0) str /\ (length str < n)%nat.
Proof.
  induction n as [|n IH]; intros a str E; [done|]. cbn [ustring] in E. destruct (m a) as [b|]; [|done].
  destruct (Z.eqb_spec b 0); [injection E as <-; split; [constructor|simpl; lia]|].
  destruct (ustring m n (a + 1)) as [str'|] eqn:E'; [|done]. injection E as <-.
  destruct (IH _ _ E'). split; [by constructor|simpl; lia].
Qed.

Lemma strlen_nul str : Forall (.≠ 0) str -> strlen (str ++ [0]) = Z.of_nat (length str).
Proof.
  intros H. unfold strlen. f_equal. induction H as [|b str Hb _ IH]; [done|]. cbn [app strlen_nat length].
  by rewrite (proj2 (Z.eqb_neq b 0)), IH by done.
Qed.

(** * Fetching *)

(** The running process [p], with the address space [root]. *)
Record running (s : kst) (p : nat) (pr : proc) (root : Z) : Prop := {
  rn_cur : k_cur s = Some p;
  rn_proc : k_procs s !! p = Some pr;
  rn_root : p_pagetable pr = root;
  rn_sz : 0 <= p_sz pr <= MAXVA;
}.

Lemma running_mem_only s s' p pr root : mem_only s s' -> running s p pr root -> running s' p pr root.
Proof. intros (fl & m & ->) [? ? ? ?]. by split. Qed.

Section fetch.
Context (s : kst) (root : Z) (d : dirmap) (l : list Z) (p : nat) (pr : proc) (e : list (kst -> kst)).
Context (Hinv : vm_inv s root d l) (Hrun : running s p pr root).

Lemma fetchaddr_user a : 0 <= a < 2 ^ 64 ->
  fetchaddr a (mkW s e) = Ok (uword (uread s d) (p_sz pr) a) (mkW s e).
Proof.
  intros Ha. destruct Hrun as [Hc Hp Hroot Hsz]. assert (HM : MAXVA = 2 ^ 38) by done.
  unfold fetchaddr, myproc, getp, uword. krun. rewrite Hc. cbn [the]. krun. rewrite Hp. cbn [the]. krun.
  destruct ((a >=? p_sz pr) || (u64 (a + 8) >? p_sz pr)) eqn:Et; [done|].
  apply orb_false_iff in Et as [Et _]. assert (a < p_sz pr) by lia.
  destruct (copyin_loop_spec s root d l Hinv (S (Z.to_nat 8)) e a 8 []) as (r & bs & E & Hr & Hl); [done|lia|lia|lia|done|].
  unfold copyin. rewrite Hroot, (bind_ok _ _ _ _ _ E). simpl in Hr, Hl. rewrite Z.sub_0_r in Hr, Hl. unfold mret, K_ret. do 2 f_equal.
  unfold uload. destruct Hl as [[-> Hl]|(-> & Hl & Hn)]; cbn [negb Z.eqb].
  - erewrite mapM_Some_2; [done|]. apply Forall2_same_length_lookup. split; [rewrite length_seq; lia|].
    intros i x b Hx Hb. apply lookup_seq in Hx as [-> _]. by apply Hr.
  - destruct (mapM _ _) as [l'|] eqn:El; [|done]. exfalso. apply mapM_Some in El.
    assert (Hlt : (length bs < 8)%nat) by lia.
    destruct (Forall2_lookup_l _ _ _ (length bs) (length bs) El) as (x & _ & Hx); [by apply lookup_seq|]. congruence.
Qed.

Lemma copyinstr_user a max : 0 <= a < 2 ^ 64 -> 0 <= max <= PGSIZE ->
  exists r bs, copyinstr root a max (mkW s e) = Ok (r, bs) (mkW s e) /\ Z.of_nat (length bs) <= max /\
    match ustring (uread s d) (Z.to_nat max) a with
    | Some str => r = 0 /\ bs = str ++ [0]
    | None => r = -1
    end.
Proof.
  intros Ha Hm. assert (HM : MAXVA = 2 ^ 38) by done. assert (HP : PGSIZE = 4096) by done.
  destruct (Z.le_gt_cases (a + max) (2 ^ 64)) as [Hw|Hw].
  - destruct (copyinstr_loop_spec s root d l Hinv (S (Z.to_nat max)) e a max []) as (r & bs & E & Hr & Hl & Hc);
      [done|lia|lia|lia|done|done|]. exists r, bs. simpl in Hr, Hl, Hc. rewrite Z.sub_0_r in Hr, Hc.
    destruct (ustring_read (uread s d) (Z.to_nat max) a bs Hr) as [Hs Hn]. split_and!; [exact E|lia|].
    destruct Hc as [(-> & str & Eb & Hnz)|(-> & Hnz & He)].
    + by rewrite (Hs str Eb Hnz ltac:(lia)).
    + rewrite Hn; [done|done|lia|]. destruct He; [left; lia|by right].
  - exists (-1), []. unfold copyinstr. cbn [copyinstr_loop]. rewrite (proj2 (Z.ltb_lt 0 max)) by lia.
    assert (Hbig : MAXVA <= PGROUNDDOWN a) by (rewrite PGROUNDDOWN_eq by lia; pose proof (Z.mod_pos_bound a PGSIZE ltac:(lia)); lia).
    rewrite (bind_ok _ _ _ _ _ (walkaddr_spec s root d l Hinv e (PGROUNDDOWN a) ltac:(lia))).
    unfold uaccess. rewrite (proj2 (Z.ltb_ge _ MAXVA)) by done. split_and!; [done|simpl; lia|].
    destruct (Z.to_nat max) as [|n] eqn:En; [lia|]. cbn [ustring]. unfold uread, uaccess.
    by rewrite (proj2 (Z.ltb_ge a MAXVA)) by lia.
Qed.

Lemma fetchstr_user a max : 0 <= a < 2 ^ 64 -> 0 <= max <= PGSIZE ->
  exists r bs, fetchstr a max (mkW s e) = Ok (r, bs) (mkW s e) /\ Z.of_nat (length bs) <= max /\
    match ustring (uread s d) (Z.to_nat max) a with
    | Some str => r = Z.of_nat (length str) /\ bs = str ++ [0]
    | None => r = -1
    end.
Proof.
  intros Ha Hm. destruct Hrun as [Hc Hp Hroot Hsz]. destruct (copyinstr_user a max Ha Hm) as (r & bs & E & Hl & H).
  exists (if r <? 0 then -1 else strlen bs), bs. unfold fetchstr, myproc, getp. krun. rewrite Hc. cbn [the]. krun.
  rewrite Hp. cbn [the]. krun. rewrite Hroot, (bind_ok _ _ _ _ _ E). split_and!; [done|done|].
  destruct (ustring _ _ a) as [str|] eqn:Es; [|by subst]. destruct H as [-> ->]. split; [|done].
  apply strlen_nul. by apply (ustring_props _ _ _ _ Es).
Qed.

Lemma argraw_user n : 0 <= n < 6 -> argraw n (mkW s e) = Ok (load64 (p_trapframe pr + TF_a n) (k_mem s)) (mkW s e).
Proof.
  intros Hn. destruct Hrun as [Hc Hp _ _]. unfold argraw, myproc, tf_get, getp, rd64. krun. rewrite Hc. cbn [the]. krun.
  rewrite (proj2 (Z.leb_le 0 n)), (proj2 (Z.ltb_lt n 6)) by lia. cbn [andb]. krun. rewrite Hp. cbn [the]. krun. done.
Qed.

(** argstr returns the user's string, or -1 when the user has none of that size. *)
Lemma argstr_user n max : 0 <= n < 6 -> 0 <= max <= PGSIZE ->
  argstr n max (mkW s e) =
  Ok (ustring (uread s d) (Z.to_nat max) (load64 (p_trapframe pr + TF_a n) (k_mem s))) (mkW s e).
Proof.
  intros Hn Hm. unfold argstr, argaddr. rewrite (bind_ok _ _ _ _ _ (argraw_user n Hn)).
  set (a := load64 _ _). pose proof (load_range 8 (p_trapframe pr + TF_a n) (k_mem s)) as Ha. fold a in Ha.
  destruct (fetchstr_user a max Ha Hm) as (r & bs & E & Hl & H). rewrite (bind_ok _ _ _ _ _ E).
  unfold mret, K_ret. do 2 f_equal. destruct (ustring _ _ a) as [str|] eqn:Es; [|by subst].
  destruct H as [-> ->]. rewrite (proj2 (Z.ltb_ge _ 0)) by lia. f_equal. unfold cstr.
  pose proof (strlen_nul str (proj1 (ustring_props _ _ _ _ Es))) as Hs. unfold strlen in Hs.
  apply Nat2Z.inj in Hs. by rewrite Hs, take_app_length.
Qed.
End fetch.

(** * Copies in new pages *)

(** Since [s0], whose free pages were [l0], the pages [pgs] were taken and written;
    the user sees no difference. *)
Record copied (s0 s : kst) (root : Z) (d : dirmap) (l0 pgs l : list Z) : Prop := {
  cp_as : user_as s root d l;
  cp_mem : mem_only s0 s;
  cp_split : l0 = pgs ++ l;
  cp_out : forall b, (forall q, q ∈ pgs -> ~ in_page q b) -> mrd (k_mem s) b = mrd (k_mem s0) b;
  cp_leaf : forall va, 0 <= va -> leaf s d va = leaf s0 d va;
}.

(** The string [str] and its NUL are at the start of the page [q]. *)
Definition holds (s : kst) (q : Z) (str : list Z) : Prop :=
  forall i b, (str ++ [0]) !! i = Some b -> mrd (k_mem s) (q + Z.of_nat i) = b.

Lemma free_page s root d l q : vm_inv s root d l -> q ∈ l -> page_ok s q /\ forall x a, d !! x = Some a -> a <> q.
Proof.
  intros H Hq. pose proof (fl_pages _ _ (vi_free _ _ _ _ H)) as Hf. rewrite Forall_forall in Hf. split; [by apply Hf|].
  intros x a Hx ->. by apply (vi_disj _ _ _ _ H) in Hx.
Qed.

(** A user byte is not in a free page. *)
Lemma upa_not_free s root d l va q : user_as s root d l -> 0 <= va -> uaccess s d va = true -> q ∈ l -> ~ in_page q (upa s d va).
Proof.
  intros [V A] Hva Hu Hq. destruct (as_page _ _ _ A va Hva Hu) as (Hp & Hn & _).
  destruct (free_page _ _ _ _ _ V Hq) as [Hpq _].
  apply (in_page_ne s (PTE2PA (leaf s d va))); [done|done|by intros <-|].
  unfold upa, in_page. pose proof (vpn_split va). lia.
Qed.

Section copies.
Context (s0 : kst) (root : Z) (d : dirmap) (l0 : list Z) (H0 : user_as s0 root d l0).

Lemma copied_start : copied s0 s0 root d l0 [] l0.
Proof. by split. Qed.

(** The user sees no difference when only free pages change. *)
Lemma read_frame s : (forall b, (forall q, q ∈ l0 -> ~ in_page q b) -> mrd (k_mem s) b = mrd (k_mem s0) b) ->
  (forall va, 0 <= va -> leaf s d va = leaf s0 d va) -> forall va, 0 <= va -> uread s d va = uread s0 d va.
Proof.
  intros Ho L va Hva. destruct (uaccess_leaf s0 s d L va Hva) as (E1 & _ & E3).
  unfold uread. rewrite E1, E3, L by done. destruct (uaccess s0 d va) eqn:Hu; [|done]. cbn [andb].
  destruct (negb _); [|done]. f_equal. apply Ho. intros q Hq. by apply (upa_not_free s0 root d l0).
Qed.

Lemma copied_read s pgs l va : copied s0 s root d l0 pgs l -> 0 <= va -> uread s d va = uread s0 d va.
Proof.
  intros [_ _ El Ho L]. apply read_frame; [|done]. intros b Hb. apply Ho. intros q Hq. apply Hb. rewrite El. set_solver.
Qed.

(** Writing to a page that is in use by nobody else. *)
Lemma copied_write s pgs q l bs : copied s0 s root d l0 (pgs ++ [q]) l -> Z.of_nat (length bs) <= PGSIZE ->
  copied s0 (s <| k_mem ::= mstore q bs |>) root d l0 (pgs ++ [q]) l.
Proof.
  intros [[V A] Hm El Ho L] Hl.
  assert (Hq : q ∈ l0) by (rewrite El; set_solver).
  destruct (free_page _ _ _ _ _ (ua_vm _ _ _ _ H0) Hq) as [Hpo Hdir].
  assert (Hpo' : page_ok s q) by by rewrite (mem_only_page_ok _ _ _ Hm).
  assert (Hnin : q ∉ l).
  { pose proof (fl_nodup _ _ (vi_free _ _ _ _ (ua_vm _ _ _ _ H0))) as Hnd. rewrite El in Hnd.
    apply NoDup_app in Hnd as (_ & Hnd & _). apply Hnd. set_solver. }
  assert (Hout : forall b, ~ in_page q b -> mrd (mstore q bs (k_mem s)) b = mrd (k_mem s) b).
  { intros b Hb. rewrite mrd_mstore. destruct (bs !! Z.to_nat (b - q)) eqn:Eb; [|done]. case_decide; [|done].
    destruct Hb. apply lookup_lt_Some in Eb. unfold in_page. lia. }
  assert (Hmo : mem_only s (s <| k_mem ::= mstore q bs |>)) by (eexists (k_freelist s), _; kst_eq).
  destruct (vm_inv_frame s (s <| k_mem ::= mstore q bs |>) root d l l) as [V' L']; [done|done| |apply V| |].
  { apply (free_list_frame s); [apply V|done|done|]. intros x b Hx Hb. apply Hout.
    pose proof (fl_pages _ _ (vi_free _ _ _ _ V)) as Hf. rewrite Forall_forall in Hf.
    apply (in_page_ne s x q b); [by apply Hf|done|by intros ->|done]. }
  { intros b Hd. apply Hout. by eapply dir_mem_apart. }
  split; [split; [done|by eapply as_ok_leaf]|by etrans|done| |intros va Hva; by rewrite L', L].
  intros b Hb. transitivity (mrd (k_mem s) b); [apply Hout, Hb; set_solver|by apply Ho].
Qed.

(** kalloc gives the next free page. *)
Lemma copied_alloc s pgs q l e : copied s0 s root d l0 pgs (q :: l) ->
  exists s', kalloc (mkW s e) = Ok q (mkW s' e) /\ copied s0 s' root d l0 (pgs ++ [q]) l /\ q <> 0 /\
    forall b, ~ in_page q b -> mrd (k_mem s') b = mrd (k_mem s) b.
Proof.
  intros [[V A] Hm El Ho L]. destruct (vm_kalloc e s root d q l V) as (s' & E & V' & Hm' & Ho' & L' & Hpo & _ & _).
  exists s'. split_and!; [done| |pose proof (page_ok_range _ _ (fl_end _ _ (vi_free _ _ _ _ V)) Hpo); lia|done]. split.
  - split; [done|]. apply (as_ok_leaf s); [|done|done]. destruct A as [A1 A2]. split; [|done].
    intros va Hva Hu. destruct (A1 va Hva Hu) as (? & Hn & ?). split_and!; [done|set_solver|done].
  - by etrans.
  - by rewrite <- app_assoc.
  - intros b Hb. rewrite Ho' by (apply Hb; set_solver). apply Ho. set_solver.
  - intros va Hva. by rewrite L', L.
Qed.

(** The pages taken go back: the same pages are free, in another order. *)
Lemma copied_free e : forall pgs s l, copied s0 s root d l0 pgs l ->
  exists s' l', forK pgs kfree (mkW s e) = Ok tt (mkW s' e) /\ l' ≡ₚ l0 /\ user_as s' root d l' /\ mem_only s0 s' /\
    forall va, 0 <= va -> uread s' d va = uread s0 d va.
Proof.
  assert (HND := fl_nodup _ _ (vi_free _ _ _ _ (ua_vm _ _ _ _ H0))).
  assert (Hgen : forall pgs s l, user_as s root d l -> mem_only s0 s -> pgs ++ l ≡ₚ l0 ->
    (forall b, (forall q, q ∈ l0 -> ~ in_page q b) -> mrd (k_mem s) b = mrd (k_mem s0) b) ->
    (forall va, 0 <= va -> leaf s d va = leaf s0 d va) ->
    exists s' l', forK pgs kfree (mkW s e) = Ok tt (mkW s' e) /\ l' ≡ₚ l0 /\ user_as s' root d l' /\ mem_only s0 s' /\
      (forall b, (forall q, q ∈ l0 -> ~ in_page q b) -> mrd (k_mem s') b = mrd (k_mem s0) b) /\
      forall va, 0 <= va -> leaf s' d va = leaf s0 d va).
  { induction pgs as [|q pgs IH]; intros s l [V A] Hm Hp Ho L; [by exists s, l|].
    assert (Hq : q ∈ l0) by (rewrite <- Hp; set_solver).
    destruct (free_page _ _ _ _ _ (ua_vm _ _ _ _ H0) Hq) as [Hpo Hdir].
    assert (Hn : q ∉ l) by (rewrite <- Hp in HND; apply NoDup_cons in HND as [? _]; set_solver).
    destruct (vm_kfree e s root d q l V) as (s1 & E & V1 & Hm1 & Ho1 & L1); [by rewrite (mem_only_page_ok _ _ _ Hm)|done|done|].
    cbn [forK]. rewrite (bind_ok _ _ _ _ _ E). apply (IH s1 (q :: l)).
    - split; [done|]. apply (as_ok_leaf s); [|done|done]. destruct A as [A1 A2]. split; [|done]. intros va Hva Hu.
      destruct (A1 va Hva Hu) as (? & ? & ?). split_and!; [done| |done]. apply not_elem_of_cons. split; [|done].
      destruct (uaccess_leaf s0 s d L va Hva) as (E1 & _ & _). rewrite E1 in Hu. rewrite L by done.
      intros Eq. by destruct (as_page _ _ _ (ua_as _ _ _ _ H0) va Hva Hu) as (_ & Hn' & _); rewrite Eq in Hn'.
    - by etrans.
    - by rewrite <- Hp, <- Permutation_middle.
    - intros b Hb. rewrite Ho1 by by apply Hb. by apply Ho.
    - intros va Hva. by rewrite L1, L. }
  intros pgs s l [Has Hm El Ho L].
  destruct (Hgen pgs s l) as (s' & l' & E & Hp & Has' & Hm' & Ho' & L'); [done|done|by rewrite El| |done|].
  { intros b Hb. apply Ho. intros q Hq. apply Hb. rewrite El. set_solver. }
  exists s', l'. split_and!; [done..|]. by apply read_frame.
Qed.

(** The pages [pgs] hold the strings [strs]. *)
Definition stored (s : kst) (pgs : list Z) (strs : list (list Z)) : Prop :=
  Forall2 (fun q str => holds s q str /\ Z.of_nat (length str) < PGSIZE) pgs strs.

Lemma stored_frame s s' pgs strs :
  (forall q b, q ∈ pgs -> in_page q b -> mrd (k_mem s') b = mrd (k_mem s) b) -> stored s pgs strs -> stored s' pgs strs.
Proof.
  intros Hf Hs. induction Hs as [|q str pgs strs [Hh Hl] _ IH]; constructor; [|apply IH; set_solver].
  split; [|done]. intros i b Hi. rewrite (Hf q); [by apply Hh|set_solver|].
  apply lookup_lt_Some in Hi. rewrite length_app in Hi. simpl in Hi. unfold in_page. lia.
Qed.

(** The strings stay when only another page changes. *)
Lemma stored_other s s' pgs q l strs : l0 = pgs ++ q :: l -> (forall b, ~ in_page q b -> mrd (k_mem s') b = mrd (k_mem s) b) ->
  stored s pgs strs -> stored s' pgs strs.
Proof.
  intros El Ho. apply stored_frame. intros x b Hx Hi. apply Ho.
  pose proof (fl_nodup _ _ (vi_free _ _ _ _ (ua_vm _ _ _ _ H0))) as Hnd. rewrite El in Hnd.
  apply NoDup_app in Hnd as (_ & Hnd & _). specialize (Hnd x Hx).
  apply (in_page_ne s0 x); [| |set_solver|done]; (eapply free_page; [apply H0|rewrite El; set_solver]).
Qed.

Lemma stored_write s pgs q l strs str : l0 = pgs ++ q :: l -> stored s pgs strs ->
  Z.of_nat (length str) < PGSIZE -> Forall (fun b => 0 <= b < 2 ^ 8) str ->
  stored (s <| k_mem ::= mstore q (str ++ [0]) |>) (pgs ++ [q]) (strs ++ [str]).
Proof.
  intros El Hst Hl Hb. apply Forall2_app; [|constructor; [|constructor]].
  - apply (stored_other s _ pgs q l); [done| |done]. intros b Hn. cbn. rewrite mrd_mstore.
    destruct (_ !! _) eqn:Eb; [|done]. case_decide; [|done]. destruct Hn. apply lookup_lt_Some in Eb.
    rewrite length_app in Eb. simpl in Eb. unfold in_page. lia.
  - split; [|done]. intros i b Hi. cbn. rewrite mrd_mstore.
    replace (Z.to_nat (q + Z.of_nat i - q)) with i by lia. rewrite Hi, decide_True by lia. apply u8_small.
    assert (HF : Forall (fun b => 0 <= b < 2 ^ 8) (str ++ [0])) by (apply Forall_app; split; [done|by repeat constructor]).
    by eapply Forall_lookup_1 in HF.
Qed.
End copies.

(** * Fetching the arguments *)

Section ext.
Context (m m' : uview) (Hext : forall va, 0 <= va -> m va = m' va).

Lemma ustring_ext n : forall a, 0 <= a -> ustring m n a = ustring m' n a.
Proof. induction n as [|n IH]; intros a Ha; [done|]. cbn [ustring]. by rewrite Hext, IH by lia. Qed.

Lemma uword_ext sz a : 0 <= a -> uword m sz a = uword m' sz a.
Proof.
  intros Ha. unfold uword, uload. destruct (_ || _); [done|]. f_equal.
  induction (seq 0 8) as [|i l IH]; [done|]. cbn [mapM mbind option_bind]. by rewrite Hext, IH by lia.
Qed.
End ext.

Lemma ustring_bytes m n : (forall a b, m a = Some b -> 0 <= b < 2 ^ 8) ->
  forall a str, ustring m n a = Some str -> Forall (fun b => 0 <= b < 2 ^ 8) str.
Proof.
  intros Hm. induction n as [|n IH]; intros a str E; [done|]. cbn [ustring] in E. destruct (m a) as [b|] eqn:Eb; [|done].
  destruct (b =? 0); [by injection E as <-|]. destruct (ustring m n (a + 1)) as [str'|] eqn:E'; [|done].
  injection E as <-. constructor; [by eapply Hm|by eapply IH].
Qed.

Lemma uread_byte s d a b : uread s d a = Some b -> 0 <= b < 2 ^ 8.
Proof. unfold uread. destruct (_ && _); [|done]. intros [= <-]. apply mrd_range. Qed.

Lemma uword_range s d sz a v : uword (uread s d) sz a = Some v -> 0 <= v < 2 ^ 64.
Proof.
  unfold uword, uload. destruct (_ || _); [done|]. destruct (mapM _ _) as [bs|] eqn:E; [|done]. intros [= <-].
  apply mapM_Some in E. pose proof (Forall2_length _ _ _ E) as Hl. rewrite length_seq in Hl.
  pose proof (dec_range bs) as Hd. rewrite <- Hl in Hd. apply Hd. apply Forall_forall. intros b Hb.
  apply list_elem_of_lookup in Hb as [i Hi]. destruct (Forall2_lookup_r _ _ _ _ _ E Hi) as (x & _ & Hx). by eapply uread_byte.
Qed.

Section args.
Context (s0 : kst) (root : Z) (d : dirmap) (l0 : list Z) (p : nat) (pr : proc) (e : list (kst -> kst)).
Context (H0 : user_as s0 root d l0) (Hrun : running s0 p pr root).

(** The loop: it goes on while the user's array has strings and there are pages. *)
Lemma fetch_args_spec uargv : forall n i s pgs l strs, i + Z.of_nat n = MAXARG ->
  copied s0 s root d l0 pgs l -> stored s pgs strs ->
  exists ok pgs' l' s', fetch_args (S n) i uargv pgs (mkW s e) = Ok (ok, pgs') (mkW s' e) /\
    copied s0 s' root d l0 pgs' l' /\
    match uargs (uread s0 d) (p_sz pr) n uargv i with
    | Some more => if decide (length more <= length l)%nat then ok = true /\ stored s' pgs' (strs ++ more) else ok = false
    | None => ok = false
    end.
Proof.
  induction n as [|n IH]; intros i s pgs l strs Hi Hc Hst; cbn [fetch_args].
  { rewrite (proj2 (Z.geb_le _ _)) by lia. by exists false, pgs, l, s. }
  rewrite Z.geb_leb, (proj2 (Z.leb_gt _ _)) by lia.
  pose proof (cp_as _ _ _ _ _ _ _ Hc) as [V _]. pose proof (running_mem_only _ _ _ _ _ (cp_mem _ _ _ _ _ _ _ Hc) Hrun) as Hrun1.
  assert (Hext : forall va, 0 <= va -> uread s d va = uread s0 d va) by (intros; by eapply copied_read).
  pose proof (u64_range (uargv + 8 * i)) as Ha.
  rewrite (bind_ok _ _ _ _ _ (fetchaddr_user s root d l p pr e V Hrun1 _ Ha)), (uword_ext _ _ Hext) by lia.
  cbn [uargs mbind option_bind]. destruct (uword _ _ _) as [a|] eqn:Ew; cbn [mbind option_bind]; [|by exists false, pgs, l, s].
  pose proof (uword_range _ _ _ _ _ Ew) as Har.
  destruct (a =? 0). { exists true, pgs, l, s. rewrite decide_True by (simpl; lia). by rewrite app_nil_r. }
  destruct l as [|q l].
  { rewrite (bind_ok _ _ _ _ _ (kalloc_none (mkW s e) (vi_held _ _ _ _ V) (vi_free _ _ _ _ V))). cbn [Z.eqb].
    exists false, pgs, [], s. split_and!; [done|done|]. destruct (ustring _ _ _); [|done]. cbn [mbind option_bind].
    by destruct (uargs _ _ _ _ _). }
  destruct (copied_alloc s0 root d l0 H0 s pgs q l e Hc) as (s1 & E & Hc1 & Hq & Ho).
  rewrite (bind_ok _ _ _ _ _ E), (proj2 (Z.eqb_neq q 0)) by done.
  pose proof (cp_split _ _ _ _ _ _ _ Hc) as El. pose proof (stored_other s0 root d l0 H0 s s1 pgs q l strs El Ho Hst) as Hst1.
  assert (Hext1 : forall va, 0 <= va -> uread s1 d va = uread s0 d va) by (intros; by eapply copied_read).
  destruct (fetchstr_user s1 root d l p pr e (ua_vm _ _ _ _ (cp_as _ _ _ _ _ _ _ Hc1))
    (running_mem_only _ _ _ _ _ (cp_mem _ _ _ _ _ _ _ Hc1) Hrun) a PGSIZE Har ltac:(done)) as (r & bs & Ef & Hl & Hr).
  rewrite (bind_ok _ _ _ _ _ Ef). krun. rewrite (ustring_ext _ _ Hext1) in Hr by lia.
  pose proof (copied_write s0 root d l0 H0 s1 pgs q l bs Hc1 Hl) as Hc2.
  destruct (ustring _ _ a) as [str|] eqn:Es; cbn [mbind option_bind].
  2:{ subst r. cbn. by exists false, (pgs ++ [q]), l, (s1 <| k_mem ::= mstore q bs |>). }
  destruct Hr as [-> ->]. rewrite (proj2 (Z.ltb_ge _ 0)) by lia. rewrite length_app in Hl. simpl in Hl.
  destruct (IH (i + 1) _ _ _ (strs ++ [str]) ltac:(lia) Hc2) as (ok & pgs' & l' & s' & E' & Hc' & H').
  { apply (stored_write s0 root d l0 H0 s1 pgs q l); [done|done|lia|]. eapply ustring_bytes; [apply uread_byte|exact Es]. }
  exists ok, pgs', l', s'. split_and!; [exact E'|done|]. destruct (uargs _ _ _ _ _) as [more|]; [|done]. cbn [fmap option_fmap option_map length].
  rewrite <- app_assoc in H'. destruct (decide (length more <= length l)%nat); [rewrite decide_True by lia|rewrite decide_False by lia]; done.
Qed.
End args.

(** * sys_exec *)

(** The arguments of the system call, in the trap frame. *)
Definition arg_reg (s : kst) (pr : proc) (n : Z) : Z := load64 (p_trapframe pr + TF_a n) (k_mem s).

(** sys_exec failed and left no trace: the same pages are free and the user's memory
    is as it was. *)
Definition exec_failed (s : kst) (root : Z) (d : dirmap) (l : list Z) (e : list (kst -> kst)) : Prop :=
  exists s' l', sys_exec (mkW s e) = Ok (-1) (mkW s' e) /\ l' ≡ₚ l /\ user_as s' root d l' /\ mem_only s s' /\
    forall va, 0 <= va -> uread s' d va = uread s d va.

(** sys_exec calls exec with [path] and pages of its own that hold [args], and gives
    the pages back after it. *)
Definition exec_called (s : kst) (root : Z) (d : dirmap) (l : list Z) (e : list (kst -> kst)) (path : list Z)
    (args : list (list Z)) : Prop :=
  exists pgs l' s', copied s s' root d l pgs l' /\ stored s' pgs args /\
    sys_exec (mkW s e) = (ret ← exec path pgs; forK pgs kfree;; mret ret) (mkW s' e).

Lemma sys_exec_start s root d l p pr e : vm_inv s root d l -> running s p pr root ->
  sys_exec (mkW s e) =
  match ustring (uread s d) (Z.to_nat MAXPATH) (arg_reg s pr 0) with
  | None => Ok (-1) (mkW s e)
  | Some path =>
      ('(ok, argv) ← fetch_args (S (Z.to_nat MAXARG)) 0 (arg_reg s pr 1) [];
       if ok : bool then ret ← exec path argv; forK argv kfree;; mret ret else forK argv kfree;; mret (-1)) (mkW s e)
  end.
Proof.
  intros V Hrun. unfold sys_exec, argaddr. rewrite (bind_ok _ _ _ _ _ (argraw_user s root p pr e Hrun 1 ltac:(done))).
  rewrite (bind_ok _ _ _ _ _ (argstr_user s root d l p pr e V Hrun 0 MAXPATH ltac:(done) ltac:(done))).
  fold (arg_reg s pr 0) (arg_reg s pr 1). by destruct (ustring _ _ _).
Qed.

Lemma sys_exec_spec s root d l p pr e :
  user_as s root d l -> running s p pr root ->
  match ustring (uread s d) (Z.to_nat MAXPATH) (arg_reg s pr 0),
        uargs (uread s d) (p_sz pr) (Z.to_nat MAXARG) (arg_reg s pr 1) 0 with
  | Some path, Some args =>
      if decide (length args <= length l)%nat then exec_called s root d l e path args else exec_failed s root d l e
  | _, _ => exec_failed s root d l e
  end.
Proof.
  intros Hu Hrun. pose proof (sys_exec_start s root d l p pr e (ua_vm _ _ _ _ Hu) Hrun) as Hs.
  destruct (fetch_args_spec s root d l p pr e Hu Hrun (arg_reg s pr 1) (Z.to_nat MAXARG) 0 s [] l [] ltac:(done)
    (copied_start s root d l Hu) (List.Forall2_nil _)) as (ok & pgs & l' & s' & E & Hc & H).
  destruct (copied_free s root d l Hu e pgs s' l' Hc) as (s'' & l'' & Ef & Hf).
  assert (Hbad : ok = false -> exec_failed s root d l e).
  { intros ->. unfold exec_failed. rewrite Hs. destruct (ustring _ _ (arg_reg s pr 0)) as [path|]; [|by exists s, l].
    exists s'', l''. split; [|done]. rewrite (bind_ok _ _ _ _ _ E). cbn beta iota. by rewrite (bind_ok _ _ _ _ _ Ef). }
  destruct (uargs _ _ _ _ _) as [args|]; [|destruct (ustring _ _ _); by apply Hbad].
  destruct (ustring _ _ (arg_reg s pr 0)) as [path|]; [|unfold exec_failed; rewrite Hs; by exists s, l].
  destruct (decide _) as [_|_]; [|by apply Hbad]. destruct H as [-> Hst].
  exists pgs, l', s'. split_and!; [done|done|]. by rewrite Hs, (bind_ok _ _ _ _ _ E).
Qed.

(** * The first process *)

Definition first_perm : Z := Z.lor (Z.lor PTE_R PTE_U) (Z.lor PTE_W PTE_X).

(** Page 0 of the user, when its entry is for [q]. *)
Lemma first_page s d q : leaf s d 0 = mk_pte q first_perm -> 0 < q < 2 ^ 56 -> q mod PGSIZE = 0 ->
  forall va, 0 <= va < PGSIZE -> uwritable s d va = true /\ upa s d va = q + va /\ PTE2PA (leaf s d va) = q.
Proof.
  intros Hlq Hqs Hqa va Hva. assert (Hqr : 0 <= q < 2 ^ 56) by lia.
  assert (E : leaf s d va = mk_pte q first_perm).
  { rewrite <- Hlq. apply leaf_vpn; [lia|done|]. unfold vpn. by rewrite Z.div_small. }
  destruct (user_pte_bits (Z.lor PTE_W PTE_X) q ltac:(clear; done) (conj Hqr Hqa)) as (Bv & Bu & Bp).
  fold first_perm in Bv, Bu, Bp. unfold uwritable, uaccess, upa. rewrite E, Bv, Bu, Bp, Z.mod_small by exact Hva.
  split_and!; [|reflexivity|reflexivity]. rewrite mk_pte_eq. change PTE_W with (Z.shiftl 1 2).
  rewrite land_flag_make; [|exact Hqr|clear; done|clear; done].
  rewrite (proj2 (Z.ltb_lt _ _)); [reflexivity|]. change MAXVA with (2 ^ 38). unfold PGSIZE in Hva. lia.
Qed.

Lemma page_lookup code i b : page code !! i = Some b ->
  0 <= Z.of_nat i < PGSIZE /\ (code !! i = Some b \/ code !! i = None /\ b = 0).
Proof.
  unfold page. intros H. apply lookup_take_Some in H as [H Hi]. split; [lia|].
  apply lookup_app_Some in H as [H|[Hl H]]; [by left|right]. apply lookup_replicate in H as [-> _].
  split; [by apply lookup_ge_None|done].
Qed.

(** uvmfirst puts the image at address 0, unless pages ran out. *)
Lemma uvmfirst_image s root d q l e code :
  user_as s root d (q :: l) -> (forall va, 0 <= va < PGSIZE -> unmapped s d va) ->
  bytes code -> Z.of_nat (length code) < PGSIZE ->
  exists s', uvmfirst root code (mkW s e) = Ok tt (mkW s' e) /\
    (k_freelist s' <> 0 -> exists d' l', user_as s' root d' l' /\ l' <> [] /\ image code (uread s' d')).
Proof.
  intros [V A] Hun Hb Hl. assert (H00 : 0 <= 0 < PGSIZE) by (clear; done).
  assert (Hlf : forall x, 0 <= x < 2 ^ 56 -> is_leaf (mk_pte x first_perm)) by (intros; by apply user_pte_leaf).
  destruct (uvmalloc_round s d (q :: l) root 0 PGSIZE first_perm ltac:(done) ltac:(done) ltac:(done) ltac:(done) Hlf e 0 s d q l)
    as (s1 & r & s3 & d3 & l3 & E1 & Eq & E3 & Hr); [by apply grow_start|done|].
  exists (s3 <| k_mem ::= mstore q code |>). split.
  { unfold uvmfirst. rewrite (proj2 (Z.leb_gt _ _)) by done. krun. rewrite (bind_ok _ _ _ _ _ E1), Eq. krun.
    rewrite (bind_ok _ _ _ _ _ E3). done. }
  cbn. intros Hfl. destruct Hr as [(_ & Hlq & Hg)|(_ & Hz & _)]; [|destruct (Hfl Hz)].
  assert (A3 : as_ok s3 d3 l3) by (by eapply (grow_as_ok s d (q :: l) root 0 PGSIZE first_perm 1)).
  pose proof (ga_vm _ _ _ _ _ _ _ _ _ _ _ Hg) as V3.
  assert (Hl3 : l3 <> []) by (intros ->; apply Hfl, (fl_chain _ _ (vi_free _ _ _ _ V3))). clear Hfl.
  change (0 + PGSIZE * Z.of_nat 0) with 0 in Hlq.
  destruct (free_page _ _ _ _ q V ltac:(left)) as [Hqo _].
  destruct (page_ok_small s q (fl_end _ _ (vi_free _ _ _ _ V)) Hqo) as [Hqs Hqa].
  pose proof (first_page s3 d3 q Hlq Hqs Hqa) as Hp. destruct (Hp 0 H00) as (Hw0 & Hp0 & _).
  destruct (copyout_chunk s3 root d3 l3 0 code V3 A3 ltac:(reflexivity) Hw0 ltac:(rewrite Z.mod_0_l by (clear; done); lia)) as [V' W].
  rewrite Hp0, Z.add_0_r in V', W. exists d3, l3. split_and!.
  - split; [exact V'|]. eapply as_ok_leaf; [exact A3|apply W|apply W].
  - exact Hl3.
  - intros i b Hi. apply page_lookup in Hi as [Hr Hi]. destruct (Hp _ Hr) as (Hw & Hpa & Hpe). apply andb_prop in Hw as [Hac _].
    destruct (uaccess_leaf s3 _ d3 (wr_leaf _ _ _ _ _ W) (Z.of_nat i) ltac:(lia)) as (U1 & _ & U3).
    unfold uread. rewrite U1, U3, Hac, (wr_leaf _ _ _ _ _ W), Hpe, (wr_user _ _ _ _ _ W), Z.sub_0_r, Nat2Z.id by (lia || exact Hac).
    rewrite (proj2 (Z.eqb_neq q 0)) by lia. cbn [andb negb]. f_equal. destruct Hi as [Hc|[-> ->]].
    + rewrite Hc, decide_True by lia. apply u8_small. eapply Forall_lookup_1 in Hc; [|exact Hb]. simpl in Hc. lia.
    + rewrite Hpa. apply (ga_zero _ _ _ _ _ _ _ _ _ _ _ Hg q); [|unfold in_page; lia]. cbn [upages].
      destruct (Hp 0 H00) as (_ & _ & ->). left.
Qed.

(** The strings at the addresses initcode passes. *)
Lemma first_strings m : image initcode m ->
  ustring m (Z.to_nat MAXPATH) 36 = Some (chars "/init") /\
  uargs m PGSIZE (Z.to_nat MAXARG) 43 0 = Some [chars "/init"].
Proof.
  intros Hm. destruct (first_args initcode 43 m initcode_image Hm ltac:(lia)) as (Hp & Hv1 & Hv2).
  assert (Hs : forall n, (6 <= n)%nat -> ustring m n 36 = Some (chars "/init")).
  { intros n Hn. apply (ustring_read m n 36 (chars "/init" ++ [0]) Hp); [done|by repeat constructor|done]. }
  split; [apply Hs; by vm_compute; lia|].
  change (Z.to_nat MAXARG) with (S (S 30)). cbn [uargs]. unfold uword.
  change (u64 (43 + 8 * 0)) with 43. change (u64 (43 + 8 * (0 + 1))) with 51.
  change (43 >=? PGSIZE) with false. change (u64 (43 + 8) >? PGSIZE) with false.
  change (51 >=? PGSIZE) with false. change (u64 (51 + 8) >? PGSIZE) with false. cbn [orb].
  change (Z.of_nat 43) with 43 in Hv1, Hv2. change (43 + 8) with 51 in Hv2. rewrite Hv1, Hv2. cbn [mbind option_bind].
  change (36 =? 0) with false. change (0 =? 0) with true. cbn beta iota. rewrite Hs by (apply Nat2Z.inj_le; rewrite Z2Nat.id; done). done.
Qed.

(** Every address space can be that of a running process with given arguments: here
    the trap frame is at physical address 0. *)
Lemma call_state s root d l a b : user_as s root d l -> 0 <= a < 2 ^ 64 -> 0 <= b < 2 ^ 64 ->
  exists s' p pr, user_as s' root d l /\ (forall va, 0 <= va -> uread s' d va = uread s d va) /\ running s' p pr root /\
    p_sz pr = PGSIZE /\ arg_reg s' pr 0 = a /\ arg_reg s' pr 1 = b.
Proof.
  intros H Ha Hb. set (s1 := s <| k_mem ::= fun m => store64 120 b (store64 112 a m) |>).
  assert (Ho : forall x, ~ 112 <= x < 128 -> mrd (k_mem s1) x = mrd (k_mem s) x).
  { intros x Hx. change (k_mem s1) with (store 8 120 b (store 8 112 a (k_mem s))). by rewrite !mrd_store by lia. }
  assert (Hpg : forall q x, page_ok s q -> in_page q x -> ~ 112 <= x < 128).
  { intros q x Hq Hx. destruct (page_ok_small s q (fl_end _ _ (vi_free _ _ _ _ (ua_vm _ _ _ _ H))) Hq) as [Hq1 Hq2].
    apply Z.mod_divide in Hq2 as [k ->]; [|done]. unfold in_page in Hx. unfold PGSIZE in *. lia. }
  destruct H as [V A]. assert (Hm : mem_only s s1) by (eexists (k_freelist s), _; subst s1; kst_eq).
  destruct (vm_inv_frame s s1 root d l l) as [V1 L1]; [done|done| |apply V| |].
  { apply (free_list_frame s); [apply V|done|done|]. intros q x Hq Hx. apply Ho, (Hpg q); [|done].
    by apply (free_page s root d l). }
  { intros x (y & q & Hq & Hx). apply Ho, (Hpg q); [|done]. by eapply pt_page; [apply V|]. }
  set (pr := zero_proc <| p_pagetable := root |> <| p_sz := PGSIZE |>).
  exists (s1 <| k_cur := Some 0%nat |> <| k_procs := [pr] |>), 0%nat, pr.
  set (s2 := s1 <| k_cur := Some 0%nat |> <| k_procs := [pr] |>).
  assert (Hs : same_mem s1 s2) by (split; [done|done|done|apply V]).
  split_and!.
  - apply (user_as_same s1); [done|]. split; [done|by eapply as_ok_leaf].
  - intros va Hva. rewrite (uread_same s1) by done. destruct (uaccess_leaf s s1 d L1 va Hva) as (E1 & _ & E3).
    unfold uread. rewrite E1, E3, L1 by done. destruct (uaccess s d va) eqn:Hu; [|done]. cbn [andb].
    destruct (negb _); [|done]. f_equal. apply Ho, (Hpg (PTE2PA (leaf s d va))); [by apply (as_page _ _ _ A)|].
    unfold in_page, upa. pose proof (vpn_split va). lia.
  - split; [done|done|done|]. split; by vm_compute.
  - done.
  - unfold arg_reg. change (load 8 112 (store 8 120 b (store 8 112 a (k_mem s))) = a).
    rewrite load_store_ne, load_store by lia. by apply Z.mod_small.
  - unfold arg_reg. change (load 8 120 (store 8 120 b (store 8 112 a (k_mem s))) = b).
    rewrite load_store. by apply Z.mod_small.
Qed.

(** C12: sys_exec reads its arguments exactly or fails without a trace.  When the
    user's first argument is the address of a string of fewer than MAXPATH bytes, and
    the second that of an array of fewer than MAXARG pointers to strings of fewer than
    PGSIZE bytes and a null pointer, and there is a free page for each string, sys_exec
    calls exec with that path and with new pages that hold those strings, and frees the
    pages after it.  In every other case - an address outside the process, a string or
    an array that does not end, no page left - it returns -1; the pages it took are free
    again, and neither the user's memory nor anything else but free pages changed. *)
Theorem sys_exec_args s root d l p pr e :
  user_as s root d l -> running s p pr root ->
  match ustring (uread s d) (Z.to_nat MAXPATH) (arg_reg s pr 0),
        uargs (uread s d) (p_sz pr) (Z.to_nat MAXARG) (arg_reg s pr 1) 0 with
  | Some path, Some args =>
      if decide (length args <= length l)%nat then exec_called s root d l e path args else exec_failed s root d l e
  | _, _ => exec_failed s root d l e
  end.
Proof. apply sys_exec_spec. Qed.

(** A path the user cannot read. *)
Lemma sys_exec_args_witness :
  exists s root d l p pr, user_as s root d l /\ running s p pr root /\ exec_failed s root d l [].
Proof.
  destruct demo_space as (s & root & d & l & V & A & _).
  destruct (call_state s root d l (2 ^ 63) 0 (Build_user_as _ _ _ _ V A)) as (s' & p & pr & Hu & _ & Hr & _ & E0 & _); [lia|lia|].
  exists s', root, d, l, p, pr. split; [exact Hu|]. split; [exact Hr|].
  pose proof (sys_exec_args s' root d l p pr [] Hu Hr) as H. rewrite E0 in H.
  assert (E : ustring (uread s' d) (Z.to_nat MAXPATH) (2 ^ 63) = None) by reflexivity.
  rewrite E in H. exact H.
Defined.


Definition first_run : K unit := kinit;; root ← uvmcreate; uvmfirst root initcode.

(** The free pages after kinit and a page table from uvmcreate. *)
Lemma first_space_gen w p0 p1 :
  LKmem ∉ k_held (wk w) -> k_freelist (wk w) = 0 -> 0 < k_end (wk w) <= PHYSTOP ->
  page_ok (wk w) p0 -> page_ok (wk w) p1 -> p0 <> p1 ->
  match first_run w with Ok _ w' => negb (k_freelist (wk w') =? 0) | _ => false end = true ->
  exists s root d q l e,
    user_as s root d (q :: l) /\ (forall va, 0 <= va < PGSIZE -> unmapped s d va) /\
    forall s1, uvmfirst root initcode (mkW s e) = Ok tt (mkW s1 e) -> k_freelist s1 <> 0.
Proof.
  intros Hh Hf He Hp0 Hp1 Hne Hres.
  destruct (kinit_spec w Hh Hf He) as (s1 & l1 & E1 & Hl1 & Hm1 & Hpg). apply Hpg in Hp0, Hp1.
  destruct l1 as [|root [|q l]]; [set_solver|set_solver|].
  destruct (uvmcreate_spec (wenv w) s1 root (q :: l)) as (s2 & E2 & Hm2 & V2 & _ & Hlf); [by rewrite (mem_only_held _ _ Hm1)|done|].
  exists s2, root, {[ [] := root ]}, q, l, (wenv w). split_and!.
  - assert (Hno : forall va, 0 <= va -> uaccess s2 {[ [] := root ]} va <> true).
    { intros va Hva Hu. unfold uaccess in Hu. rewrite Hlf in Hu by done. by rewrite andb_false_r in Hu. }
    split; [done|split]; [intros va Hva Hu|intros va va' Hva _ Hu]; by destruct (Hno va Hva).
  - intros va Hva. unfold unmapped. by rewrite Hlf by lia.
  - intros s3 E3. unfold first_run in Hres. rewrite (bind_ok _ _ _ _ _ E1), (bind_ok _ _ _ _ _ E2), E3 in Hres.
    apply negb_true_iff, Z.eqb_neq in Hres. exact Hres.
Qed.

Lemma first_run_free : match first_run demo_world with Ok _ w => negb (k_freelist (wk w) =? 0) | _ => false end = true.
Proof. vm_compute. reflexivity. Qed.

Lemma first_space : exists s root d q l e,
  user_as s root d (q :: l) /\ (forall va, 0 <= va < PGSIZE -> unmapped s d va) /\
  forall s1, uvmfirst root initcode (mkW s e) = Ok tt (mkW s1 e) -> k_freelist s1 <> 0.
Proof.
  apply (first_space_gen demo_world (PHYSTOP - PGSIZE) (PHYSTOP - 2 * PGSIZE));
    [apply not_elem_of_nil|reflexivity|by vm_compute|by vm_compute|by vm_compute|by vm_compute|exact first_run_free].
Qed.

