(* ===== verification/Uprog.v ===== *)
(** User programs.

    A user program reaches the world only through system calls.  [U A] is the
    type of programs that return an [A]: a tree of the calls they make, with a
    continuation on what the kernel answers, namely the value the call returns
    and the bytes it stored through the pointer it was given.  The kernel may
    answer anything, so a theorem about a program quantifies over the answers.
    fork answers 0 in the child and the pid in the parent: each process is a run
    of its own.  A call that does not return (exec when it succeeds, a read
    nobody serves) is where the answers end.

    A program that hands the kernel an address it made up, or loads and stores
    through one, makes a raw call, a load or a store: whether the page is there is
    the kernel's answer too, and a process that is killed gets none. *)

From S2P Require Import Prelude Bytes.

(** * System calls (user/user.h) *)

(** An argument of a call that is given by its address: an int, an address, the
    address of a string, the address of an array. *)
Inductive rarg := RInt (v : Z) | RPtr (a : Z) | RStr (s : list Z) | RArr (l : list rarg).

Inductive call :=
| Cfork
| Cwait
| Cpipe
| Cwrite (fd : Z) (bs : list Z)
| Cread (fd n : Z)
| Cclose (fd : Z)
| Ckill (pid : Z)
| Cexec (path : list Z) (argv : list (list Z))
| Copen (path : list Z) (mode : Z)
| Cmknod (path : list Z) (major minor : Z)
| Cunlink (path : list Z)
| Cfstat (fd : Z)
| Clink (old new : list Z)
| Cmkdir (path : list Z)
| Cchdir (path : list Z)
| Cdup (fd : Z)
| Cgetpid
| Csbrk (n : Z)
| Csleep (n : Z)
| Cuptime
| Craw (num : Z) (args : list rarg)
| Cload (w : nat) (a : Z)
| Cstore (w : nat) (a v : Z).

(** What the kernel answers: the value returned, the bytes stored. *)
Abbreviation answer := (Z * list Z)%type.

(** * Programs *)

Inductive U (A : Type) : Type :=
| Ret (a : A)
| Sys (c : call) (k : answer -> U A)
| Exit (status : Z)
| Fault
| OutOfFuel.
Arguments Ret {A} a.
Arguments Sys {A} c k.
Arguments Exit {A} status.
Arguments Fault {A}.
Arguments OutOfFuel {A}.

#[export] Instance U_ret : MRet U := @Ret.
#[export] Instance U_bind : MBind U := fun A B f =>
  fix bind (p : U A) : U B :=
    match p with
    | Ret a => f a
    | Sys c k => Sys c (fun r => bind (k r))
    | Exit st => Exit st
    | Fault => Fault
    | OutOfFuel => OutOfFuel
    end.

(** A call for the value it returns, and with the bytes it stores. *)
Definition sys (c : call) : U Z := Sys c (fun r => Ret r.1).
Definition sys_data (c : call) : U answer := Sys c Ret.

Definition fork : U Z := sys Cfork.
Definition exit {A} (status : Z) : U A := Exit status.
Definition wait : U Z := sys Cwait.
Definition wait_status : U answer := sys_data Cwait.
Definition pipe : U answer := sys_data Cpipe.
Definition write (fd : Z) (bs : list Z) : U Z := sys (Cwrite fd bs).
Definition read (fd n : Z) : U answer := sys_data (Cread fd n).
Definition close (fd : Z) : U Z := sys (Cclose fd).
Definition kill (pid : Z) : U Z := sys (Ckill pid).
Definition exec (path : list Z) (argv : list (list Z)) : U Z := sys (Cexec path argv).
Definition open (path : list Z) (mode : Z) : U Z := sys (Copen path mode).
Definition mknod (path : list Z) (major minor : Z) : U Z := sys (Cmknod path major minor).
Definition unlink (path : list Z) : U Z := sys (Cunlink path).
Definition fstat (fd : Z) : U answer := sys_data (Cfstat fd).
Definition link (old new : list Z) : U Z := sys (Clink old new).
Definition mkdir (path : list Z) : U Z := sys (Cmkdir path).
Definition chdir (path : list Z) : U Z := sys (Cchdir path).
Definition dup (fd : Z) : U Z := sys (Cdup fd).
Definition getpid : U Z := sys Cgetpid.
Definition sbrk (n : Z) : U Z := sys (Csbrk n).
Definition sleep (n : Z) : U Z := sys (Csleep n).
Definition uptime : U Z := sys Cuptime.
Definition raw (num : Z) (args : list rarg) : U Z := sys (Craw num args).
Definition load_at (w : nat) (a : Z) : U Z := sys (Cload w a).
Definition store_at (w : nat) (a v : Z) : U unit := sys (Cstore w a v);; mret tt.

(** The ints that pipe and wait store. *)
Definition fd_of (i : nat) (bs : list Z) : Z := i32 (get 4 (4 * i) bs).

Definition whenU (b : bool) (p : U unit) : U unit := if b then p else mret tt.
Fixpoint forU {A} (l : list A) (f : A -> U unit) : U unit :=
  match l with [] => mret tt | x :: l' => f x;; forU l' f end.

(** * Runs *)

(** How a run ends: with a result, with exit, in a call the kernel does not
    answer, or not properly. *)
Inductive uout (A : Type) : Type :=
| UDone (a : A)
| UExit (status : Z)
| UWait (c : call)
| UFault
| UFuel.
Arguments UDone {A} a.
Arguments UExit {A} status.
Arguments UWait {A} c.
Arguments UFault {A}.
Arguments UFuel {A}.

(** The calls a program makes when the kernel answers [rs], how it ends, and the
    answers it did not use. *)
Fixpoint feed {A} (p : U A) (rs : list answer) : list call * uout A * list answer :=
  match p with
  | Ret a => ([], UDone a, rs)
  | Sys c k =>
      match rs with
      | [] => ([c], UWait c, [])
      | r :: rs' => let '(tr, o, rest) := feed (k r) rs' in (c :: tr, o, rest)
      end
  | Exit st => ([], UExit st, rs)
  | Fault => ([], UFault, rs)
  | OutOfFuel => ([], UFuel, rs)
  end.

(** * Laws *)

Lemma ubind_ret {A B} (a : A) (f : A -> U B) : mret a ≫= f = f a.
Proof. done. Qed.
Lemma ubind_sys {A B} c (k : answer -> U A) (f : A -> U B) : Sys c k ≫= f = Sys c (fun r => k r ≫= f).
Proof. done. Qed.

(** A run of [p] that ends with a result goes on with what follows. *)
Lemma feed_bind {A B} (p : U A) (f : A -> U B) : forall rs tr a rest,
  feed p rs = (tr, UDone a, rest) ->
  feed (p ≫= f) rs = let '(tr', o, rest') := feed (f a) rest in (tr ++ tr', o, rest').
Proof.
  induction p as [a0|c k IH| | |]; intros rs tr a rest E; simpl in E; simplify_eq.
  - rewrite ubind_ret. by destruct (feed (f a) rest) as [[? ?] ?].
  - destruct rs as [|r rs]; [done|]. rewrite ubind_sys. simpl.
    destruct (feed (k r) rs) as [[tr1 o1] rest1] eqn:E1. simplify_eq.
    rewrite (IH r rs tr1 a rest E1). by destruct (feed (f a) rest) as [[? ?] ?].
Qed.

(** A call, then what follows. *)
Lemma feed_sys {A} c (f : Z -> U A) v bs rs tr o rest :
  feed (f v) rs = (tr, o, rest) -> feed (sys c ≫= f) ((v, bs) :: rs) = (c :: tr, o, rest).
Proof. intros E. unfold sys. rewrite ubind_sys. cbn [feed]. rewrite ubind_ret. cbn [fst]. by rewrite E. Qed.
Lemma feed_data {A} c (f : answer -> U A) r rs tr o rest :
  feed (f r) rs = (tr, o, rest) -> feed (sys_data c ≫= f) (r :: rs) = (c :: tr, o, rest).
Proof. intros E. unfold sys_data. rewrite ubind_sys. cbn [feed]. rewrite ubind_ret. by rewrite E. Qed.
Lemma feed_seq {A B} (p : U A) (f : A -> U B) rs tr a rest tr' o rest' :
  feed p rs = (tr, UDone a, rest) -> feed (f a) rest = (tr', o, rest') -> feed (p ≫= f) rs = (tr ++ tr', o, rest').
Proof. intros E E'. by rewrite (feed_bind _ _ _ _ _ _ E), E'. Qed.

(** More answers do not change a run that ended with a result. *)
Lemma feed_app {A} (p : U A) : forall rs tr a rest more,
  feed p rs = (tr, UDone a, rest) -> feed p (rs ++ more) = (tr, UDone a, rest ++ more).
Proof.
  induction p as [a0|c k IH| | |]; intros rs tr a rest more E; simpl in E; simplify_eq/=; [done|].
  destruct rs as [|r rs]; [done|]. simpl.
  destruct (feed (k r) rs) as [[tr1 o1] rest1] eqn:E1. simplify_eq.
  by rewrite (IH r rs tr1 a rest more E1).
Qed.

(** The bytes a run sends to a file descriptor. *)
Definition sent_to (fd : Z) (c : call) : list Z :=
  match c with Cwrite fd' bs => if fd' =? fd then bs else [] | _ => [] end.
Definition output (fd : Z) (tr : list call) : list Z := mjoin (sent_to fd <$> tr).

Lemma output_app fd tr tr' : output fd (tr ++ tr') = output fd tr ++ output fd tr'.
Proof. unfold output. by rewrite fmap_app, join_app. Qed.

(** * Programs that write *)

(** [p] returns after writing [bs] to [fd], one byte a call, whatever the writes
    return. *)
Definition writes {A} (p : U A) (fd : Z) (bs : list Z) (a : A) : Prop :=
  forall ws rest, length ws = length bs ->
  feed p (ws ++ rest) = ((fun b => Cwrite fd [b]) <$> bs, UDone a, rest).

Lemma writes_ret {A} fd (a : A) : writes (mret a) fd [] a.
Proof. by intros [|] rest E. Qed.

Lemma writes_bind {A B} (p : U A) (f : A -> U B) fd bs bs' a b :
  writes p fd bs a -> writes (f a) fd bs' b -> writes (p ≫= f) fd (bs ++ bs') b.
Proof.
  intros H H' ws rest E. rewrite length_app in E.
  rewrite <- (take_drop (length bs) ws), <- app_assoc.
  rewrite (feed_bind _ _ _ _ _ _ (H (take (length bs) ws) _ ltac:(rewrite length_take; lia))).
  rewrite H' by (rewrite length_drop; lia). by rewrite fmap_app.
Qed.

Lemma writes_byte fd b r : writes (write fd [b];; mret r) fd [b] (r : unit).
Proof. intros [|w [|]] rest E; simplify_eq/=. done. Qed.

Lemma writes_forU {A} (f : A -> U unit) fd (g : A -> list Z) l :
  (forall x, x ∈ l -> writes (f x) fd (g x) tt) -> writes (forU l f) fd (mjoin (g <$> l)) tt.
Proof.
  induction l as [|x l IH]; intros H; cbn [forU fmap list_fmap mjoin list_join]; [apply writes_ret|].
  apply (writes_bind _ _ _ _ _ tt); [apply H; left|]. apply IH. intros y Hy. apply H. by right.
Qed.

Lemma output_writes fd fd' bs : output fd ((fun b => Cwrite fd' [b]) <$> bs) = if fd' =? fd then bs else [].
Proof.
  unfold output. induction bs as [|b bs IH]; simpl; [by destruct (fd' =? fd)|].
  destruct (fd' =? fd); simpl; [by f_equal|done].
Qed.

Lemma writes_output {A} (p : U A) fd bs a ws rest :
  writes p fd bs a -> length ws = length bs ->
  exists tr, feed p (ws ++ rest) = (tr, UDone a, rest) /\ output fd tr = bs.
Proof. intros H E. eexists. split; [by apply H|]. by rewrite output_writes, Z.eqb_refl. Qed.
