(* ===== verification/Ulib.v ===== *)
(** user/ulib.c: the C library of the user programs.

    A pointer into a character array is the list of the characters from that
    position on; the mem functions act on a byte memory (as in CString.v, whose
    copying loops memmove shares). *)

From S2P Require Import Prelude Memory CString State Uprog.

(** void start(): what runs in front of main *)
Definition start (main : U Z) : U unit := main;; exit 0.

(** char* strcpy(char *s, const char *t): the array [s] after the call *)
Fixpoint strcpy_bytes (t : list Z) : list Z :=
  match t with
  | [] => [0]
  | c :: t' => if c =? 0 then [0] else c :: strcpy_bytes t'
  end.
Definition strcpy (s t : list Z) : list Z := splice 0 (strcpy_bytes t) s.

(** int strcmp(const char *p, const char *q) *)
Fixpoint strcmp (p q : list Z) : Z :=
  match p with
  | [] => u8 0 - u8 (chr q)
  | c :: p' => if negb (c =? 0) && (c =? chr q) then strcmp p' (tl q) else u8 c - u8 (chr q)
  end.

(** uint strlen(const char *s): the loop is that of the kernel's strlen *)
Definition strlen (s : list Z) : Z := u32 (Z.of_nat (strlen_nat s)).

(** void* memset(void *dst, int c, uint n) *)
Definition memset (dst c n : Z) (m : mem) : mem := memset_loop (Z.to_nat n) 0 dst c m.

(** char* strchr(const char *s, char c): the string from the first [c] on *)
Fixpoint strchr (s : list Z) (c : Z) : option (list Z) :=
  match s with
  | [] => None
  | x :: s' => if x =? 0 then None else if x =? c then Some s else strchr s' c
  end.

(** char* gets(char *buf, int max): the line read; [k] more characters fit *)
Fixpoint gets_loop (k : nat) : U (list Z) :=
  match k with
  | O => mret []
  | S k' =>
      '(cc, bs) ← read 0 1;
      if cc <? 1 then mret []
      else
        let c := chr bs in
        if (c =? 10) || (c =? 13) then mret [c]
        else l ← gets_loop k'; mret (c :: l)
  end.
Definition gets (buf : list Z) (max : Z) : U (list Z) :=
  l ← gets_loop (Z.to_nat (max - 1));
  mret (splice 0 (l ++ [0]) buf).

(** int stat(const char *n, struct stat *st): the result, and what is stored *)
Definition stat (n : list Z) : U answer :=
  fd ← open n O_RDONLY;
  if fd <? 0 then mret (-1, [])
  else
    r ← fstat fd;
    close fd;;
    mret r.

(** int atoi(const char *s) *)
Fixpoint atoi_loop (s : list Z) (n : Z) : Z :=
  match s with
  | [] => n
  | c :: s' => if (48 <=? c) && (c <=? 57) then atoi_loop s' (i32 (n * 10 + c - 48)) else n
  end.
Definition atoi (s : list Z) : Z := atoi_loop s 0.

(** void* memmove(void *vdst, const void *vsrc, int n) *)
Definition memmove (vdst vsrc n : Z) (m : mem) : mem :=
  if vsrc >? vdst then copy_up (Z.to_nat n) vdst vsrc m
  else copy_down (Z.to_nat n) (vdst + n) (vsrc + n) m.

(** int memcmp(const void *s1, const void *s2, uint n) *)
Definition memcmp (s1 s2 n : Z) (m : mem) : Z := memcmp_loop (Z.to_nat n) s1 s2 m.

(** void *memcpy(void *dst, const void *src, uint n); n becomes an int *)
Definition memcpy (dst src n : Z) (m : mem) : mem := memmove dst src (i32 n) m.

(** * Strings *)

(** The characters of the string an array holds. *)
Definition cstring (s : list Z) : list Z := take (strlen_nat s) s.

Lemma cstring_cons c s : cstring (c :: s) = if c =? 0 then [] else c :: cstring s.
Proof. unfold cstring. simpl. by destruct (c =? 0). Qed.

(** A list without NUL is a string of itself. *)
Definition nonul (s : list Z) : Prop := Forall (fun c => c <> 0) s.

Lemma strlen_nat_app s t : nonul s -> strlen_nat (s ++ t) = (length s + strlen_nat t)%nat.
Proof.
  induction 1 as [|c s Hc _ IH]; [done|]. simpl. rewrite (proj2 (Z.eqb_neq c 0) Hc). by rewrite IH.
Qed.

Lemma cstring_nul s t : nonul s -> cstring (s ++ 0 :: t) = s.
Proof.
  intros H. unfold cstring. rewrite strlen_nat_app by done. simpl. rewrite Nat.add_0_r. apply take_app_length.
Qed.

Lemma cstring_id s : nonul s -> cstring s = s.
Proof.
  intros H. unfold cstring. replace (strlen_nat s) with (length s); [by rewrite firstn_all|].
  rewrite <- (app_nil_r s) at 2. rewrite strlen_nat_app by done. simpl. lia.
Qed.

Lemma cstring_nonul s : nonul (cstring s).
Proof.
  induction s as [|c s IH]; [constructor|]. rewrite cstring_cons.
  destruct (Z.eqb_spec c 0); [constructor|by constructor].
Qed.

(** strcmp tells whether two strings are equal. *)
Lemma strcmp_zero p : forall q,
  Forall is_char p -> Forall is_char q -> strcmp p q = 0 <-> cstring p = cstring q.
Proof.
  unfold is_char.
  induction p as [|c p IH]; intros q Hp Hq.
  - simpl. destruct q as [|d q]; simpl; [done|]. inversion_clear Hq as [|? ? Hd _].
    rewrite cstring_cons. rewrite (u8_small d) by lia. change (u8 0) with 0.
    destruct (Z.eqb_spec d 0) as [->|]; [done|]. split; [lia|done].
  - inversion_clear Hp as [|? ? Hc Hp']. rewrite cstring_cons. simpl.
    destruct q as [|d q]; simpl.
    + rewrite (u8_small c) by lia. change (u8 0) with 0.
      destruct (Z.eqb_spec c 0) as [->|]; [done|]. simpl. split; [lia|done].
    + inversion_clear Hq as [|? ? Hd Hq']. rewrite cstring_cons, !u8_small by lia.
      destruct (Z.eqb_spec c 0) as [->|]; simpl.
      { destruct (Z.eqb_spec d 0) as [->|]; [done|]. split; [lia|done]. }
      destruct (Z.eqb_spec c d) as [->|].
      { rewrite (proj2 (Z.eqb_neq d 0)) by done. rewrite IH by done. split; [by intros ->|by intros [= ->]]. }
      destruct (d =? 0); (split; [lia|]); [done|]. by intros [= ? _].
Qed.

(** strchr finds the first occurrence in the string. *)
Lemma strchr_some s c r :
  c <> 0 -> strchr s c = Some r <-> exists l t, s = l ++ r /\ r = c :: t /\ nonul l /\ c ∉ l.
Proof.
  intros Hc. revert r. induction s as [|x s IH]; intros r; simpl.
  - split; [done|]. intros ([|] & t & E & -> & _); done.
  - destruct (Z.eqb_spec x 0) as [->|Hx].
    { split; [done|]. intros ([|y l] & t & E & -> & Hl & _); simplify_eq/=. by inversion_clear Hl. }
    destruct (Z.eqb_spec x c) as [->|Hxc].
    + split.
      * intros [= <-]. exists [], s. split_and!; [done..|constructor|set_solver].
      * intros ([|y l] & t & E & -> & _ & Hl); simplify_eq/=; [done|set_solver].
    + rewrite IH. split.
      * intros (l & t & -> & -> & Hl & Hn). exists (x :: l), t. split_and!; [done..|by constructor|set_solver].
      * intros ([|y l] & t & E & -> & Hl & Hn); simplify_eq/=. exists l, t.
        inversion_clear Hl. split_and!; [done..|set_solver].
Qed.

Lemma strchr_none s c : c <> 0 -> strchr s c = None <-> c ∉ cstring s.
Proof.
  intros Hc. induction s as [|x s IH]; simpl; [split; [intros _; apply not_elem_of_nil|done]|].
  rewrite cstring_cons. destruct (Z.eqb_spec x 0) as [->|Hx]; [split; [intros _; apply not_elem_of_nil|done]|].
  destruct (Z.eqb_spec x c) as [->|Hxc]; [split; [done|set_solver]|]. rewrite IH. set_solver.
Qed.

(** * memmove *)

(** The two directions of the user's memmove copy what the source held before
    the call, like the kernel's, which has a different test. *)
Lemma umemmove_kernel dst src n m a :
  0 <= n -> mrd (memmove dst src n m) a = mrd (CString.memmove dst src n m) a.
Proof.
  intros Hn. rewrite memmove_spec by done. unfold memmove. destruct (Z.gtb_spec src dst).
  - rewrite copy_up_spec by lia. by rewrite Z2Nat.id by done.
  - rewrite copy_down_spec by lia. rewrite Z2Nat.id by done.
    repeat case_decide; try lia; try done; f_equal; lia.
Qed.

(** * gets *)

(** The line gets makes of the input: up to and including the first end of line,
    at most [k] characters. *)
Fixpoint line_of (k : nat) (input : list Z) : list Z :=
  match k, input with
  | S k', c :: input' => if (c =? 10) || (c =? 13) then [c] else c :: line_of k' input'
  | _, _ => []
  end.

(** The kernel's answers when it delivers [input] a byte at a time and then says
    that there is no more. *)
Definition bytewise (input : list Z) : list answer := (fun c => (1, [c])) <$> input.

(** gets reads a byte a call and returns that line. *)
Lemma gets_loop_line k : forall input rest,
  exists n rest', feed (gets_loop k) (bytewise input ++ (0, []) :: rest) =
    (replicate n (Cread 0 1), UDone (line_of k input), rest').
Proof.
  induction k as [|k IH]; intros input rest.
  { exists 0%nat. eexists. by destruct input. }
  destruct input as [|c input].
  { exists 1%nat. eexists. done. }
  cbn [gets_loop line_of]. unfold read, sys_data. rewrite ubind_sys. cbn [bytewise fmap list_fmap app feed].
  rewrite ubind_ret. change (1 <? 1) with false. cbn [chr hd].
  destruct ((c =? 10) || (c =? 13)).
  { exists 1%nat. eexists. done. }
  destruct (IH input rest) as (n & rest' & E). exists (S n), rest'.
  change (list_fmap _ _) with (fmap (M := list) (fun c : Z => (1, [c]))).
  rewrite (feed_bind _ _ _ _ _ _ E). simpl. by rewrite app_nil_r.
Qed.
