(* ===== verification/Uprintf.v ===== *)
(** user/printf.c: formatted output of the user programs. *)

From S2P Require Import Prelude Numeral Bytes CString Uprog Ulib.

Definition digits : list Z := chars "0123456789ABCDEF".
Definition digit (i : Z) : Z := default 0 (digits !! Z.to_nat i).

(** static void putc(int fd, char c) *)
Definition putc (fd c : Z) : U unit := write fd [u8 c];; mret tt.

(** static void printint(int fd, long long xx, int base, int sgn): the contents of
    buf, which has room for 20 characters and is printed backwards; the local
    variable x is a uint *)
Definition printint_buf (xx base : Z) (sgn : bool) : list Z :=
  let neg := sgn && (xx <? 0) in
  let x := if neg then u32 (- xx) else u32 xx in
  do_digits digit 32 x base ++ (if neg then [45] else []).
Definition printint (fd xx base : Z) (sgn : bool) : U unit :=
  let buf := printint_buf xx base sgn in
  if 20 <? Z.of_nat (length buf) then Fault else forU (rev buf) (putc fd).

(** static void printptr(int fd, uint64 x) *)
Definition printptr (fd x : Z) : U unit :=
  putc fd 48;;
  putc fd 120;;
  forU (seq 0 16) (fun i => putc fd (digit (Z.shiftr (u64 (Z.shiftl x (4 * Z.of_nat i))) 60))).

(** va_arg(ap, int) and va_arg(ap, uint64), which becomes a long long *)
Definition arg_int (ap : list varg) : U (Z * list varg) :=
  match ap with VInt v :: ap' => mret (v, ap') | _ => Fault end.
Definition arg_u64 (ap : list varg) : U (Z * list varg) :=
  match ap with VU64 v :: ap' => mret (v, ap') | _ => Fault end.

(** One conversion of vprintf: [c0] after the percent sign, then [rest]; what is
    left of the format and of the arguments. *)
Definition conversion (fd c0 : Z) (rest : list Z) (ap : list varg) : U (list Z * list varg) :=
  let c1 := if c0 =? 0 then 0 else chr rest in
  let c2 := if c1 =? 0 then 0 else chr (drop 1 rest) in
  if c0 =? 100 then '(v, ap) ← arg_int ap; printint fd v 10 true;; mret (rest, ap)
  else if (c0 =? 108) && (c1 =? 100) then
    '(v, ap) ← arg_u64 ap; printint fd (i64 v) 10 true;; mret (drop 1 rest, ap)
  else if (c0 =? 108) && (c1 =? 108) && (c2 =? 100) then
    '(v, ap) ← arg_u64 ap; printint fd (i64 v) 10 true;; mret (drop 2 rest, ap)
  else if c0 =? 117 then '(v, ap) ← arg_int ap; printint fd v 10 false;; mret (rest, ap)
  else if (c0 =? 108) && (c1 =? 117) then
    '(v, ap) ← arg_u64 ap; printint fd (i64 v) 10 false;; mret (drop 1 rest, ap)
  else if (c0 =? 108) && (c1 =? 108) && (c2 =? 117) then
    '(v, ap) ← arg_u64 ap; printint fd (i64 v) 10 false;; mret (drop 2 rest, ap)
  else if c0 =? 120 then '(v, ap) ← arg_int ap; printint fd v 16 false;; mret (rest, ap)
  else if (c0 =? 108) && (c1 =? 120) then
    '(v, ap) ← arg_u64 ap; printint fd (i64 v) 16 false;; mret (drop 1 rest, ap)
  else if (c0 =? 108) && (c1 =? 108) && (c2 =? 120) then
    '(v, ap) ← arg_u64 ap; printint fd (i64 v) 16 false;; mret (drop 2 rest, ap)
  else if c0 =? 112 then '(v, ap) ← arg_u64 ap; printptr fd v;; mret (rest, ap)
  else if c0 =? 115 then
    match ap with
    | VStr s :: ap' => forU (cstring (default (chars "(null)") s)) (putc fd);; mret (rest, ap')
    | _ => Fault
    end
  else if c0 =? 37 then putc fd 37;; mret (rest, ap)
  else putc fd 37;; putc fd c0;; mret (rest, ap).

(** void vprintf(int fd, const char *fmt, va_list ap); [state] is 0 or a percent
    sign *)
Fixpoint vprintf_loop (fuel : nat) (fd : Z) (fmt : list Z) (state : Z) (ap : list varg) : U unit :=
  match fuel with
  | O => OutOfFuel
  | S fuel' =>
      match fmt with
      | [] => mret tt
      | c0 :: rest =>
          if c0 =? 0 then mret tt
          else if state =? 0 then
            if c0 =? 37 then vprintf_loop fuel' fd rest 37 ap
            else putc fd c0;; vprintf_loop fuel' fd rest 0 ap
          else
            '(rest, ap) ← conversion fd c0 rest ap;
            vprintf_loop fuel' fd rest 0 ap
      end
  end.
Definition vprintf (fd : Z) (fmt : list Z) (ap : list varg) : U unit :=
  vprintf_loop (S (length fmt)) fd fmt 0 ap.

(** void fprintf(int fd, const char *fmt, ...) *)
Definition fprintf (fd : Z) (fmt : list Z) (ap : list varg) : U unit := vprintf fd fmt ap.

(** void printf(const char *fmt, ...) *)
Definition printf (fmt : list Z) (ap : list varg) : U unit := vprintf 1 fmt ap.

(** * What printint prints *)

Definition digit_val (c : Z) : Z := if c <? 58 then c - 48 else c - 55.

#[global] Arguments do_digits : simpl never.

Lemma udigit_ok i : 0 <= i < 16 -> digit_val (digit i) = i /\ 48 <= digit i < 71.
Proof.
  intros H. assert (forallb (fun n => let i := Z.of_nat n in
    (digit_val (digit i) =? i) && (48 <=? digit i) && (digit i <? 71)) (seq 0 16) = true) as F by reflexivity.
  rewrite forallb_forall in F. specialize (F (Z.to_nat i)). rewrite Z2Nat.id in F by lia.
  rewrite !andb_true_iff, Z.eqb_eq, Z.leb_le, Z.ltb_lt in F. apply and_assoc, F, in_seq. lia.
Qed.

(** The digits of an unsigned 32-bit number. *)
Lemma udigits_ok base x :
  base = 10 \/ base = 16 -> 0 <= x < 2 ^ 32 ->
  let cs := do_digits digit 32 x base in
  read_with digit_val base (rev cs) = x /\ (0 < length cs <= 10)%nat /\ Forall (fun c => 48 <= c < 71) cs.
Proof.
  intros Hb Hx. apply do_digits_ok with (k := 9%nat); [lia| |..|lia].
  - intros i Hi. apply udigit_ok. lia.
  - split; [lia|]. apply Z.lt_trans with (2 ^ 32); [lia|]. by destruct Hb as [-> | ->].
Qed.

Lemma writes_putc fd c : writes (putc fd c) fd [u8 c] tt.
Proof. apply writes_byte. Qed.

Lemma writes_puts fd cs : Forall (fun c => 0 <= c < 256) cs -> writes (forU cs (putc fd)) fd cs tt.
Proof.
  intros H. replace cs with (mjoin ((fun c => [u8 c]) <$> cs)) at 2.
  - apply writes_forU. intros c _. apply writes_putc.
  - induction H as [|c cs Hc _ IH]; [done|].
    change (u8 c :: mjoin ((fun c => [u8 c]) <$> cs) = c :: cs). by rewrite IH, u8_small by lia.
Qed.

(** The number printint prints for [xx]. *)
Definition printed (xx : Z) (sgn : bool) : Z :=
  if sgn && (xx <? 0) then - u32 (- xx) else u32 xx.

Lemma ubuf_ok xx base sgn :
  base = 10 \/ base = 16 ->
  let buf := printint_buf xx base sgn in
  (length buf <= 11)%nat /\ Forall (fun c => 0 <= c < 256) (rev buf) /\
  read_signed digit_val base (rev buf) = printed xx sgn.
Proof.
  intros Hb. unfold printint_buf, printed. cbv zeta. destruct (sgn && (xx <? 0)).
  - destruct (udigits_ok base (u32 (- xx)) Hb (u32_range _)) as (Hr & Hl & Hall).
    generalize dependent (do_digits digit 32 (u32 (- xx)) base). intros cs Hr Hl Hall.
    rewrite length_app, rev_app_distr. simpl. rewrite Hr. split; [lia|]. split; [|done].
    constructor; [lia|]. apply Forall_rev. eapply Forall_impl; [exact Hall|]. simpl. lia.
  - destruct (udigits_ok base (u32 xx) Hb (u32_range _)) as (Hr & Hl & Hall).
    generalize dependent (do_digits digit 32 (u32 xx) base). intros cs Hr Hl Hall.
    rewrite app_nil_r. split; [lia|]. rewrite (read_signed_digits _ _ 71) by done.
    split; [|done]. apply Forall_rev. eapply Forall_impl; [exact Hall|]. simpl. lia.
Qed.

Lemma writes_printint fd xx base sgn :
  base = 10 \/ base = 16 -> writes (printint fd xx base sgn) fd (rev (printint_buf xx base sgn)) tt.
Proof.
  intros Hb. destruct (ubuf_ok xx base sgn Hb) as (Hl & Hall & _). unfold printint.
  rewrite (proj2 (Z.ltb_ge 20 _)) by lia. by apply writes_puts.
Qed.

(** * What printf prints *)

(** The bytes a format of plain characters, %d, %s stands for. *)
Fixpoint fmt_bytes (fmt : list Z) (ap : list varg) : option (list Z) :=
  match fmt with
  | [] => Some []
  | 37 :: c :: fmt' =>
      match ap with
      | VInt v :: ap' => if c =? 100 then (rev (printint_buf v 10 true) ++.) <$> fmt_bytes fmt' ap' else None
      | VStr (Some s) :: ap' => if c =? 115 then (cstring s ++.) <$> fmt_bytes fmt' ap' else None
      | _ => None
      end
  | c :: fmt' => if (0 <? c) && (c <? 256) && negb (c =? 37) then (c ::.) <$> fmt_bytes fmt' ap else None
  end.

Definition arg_bytes (a : varg) : Prop := match a with VStr (Some s) => bytes s | _ => True end.

Lemma vprintf_plain fuel fd c fmt ap :
  0 < c < 256 -> c <> 37 -> vprintf_loop (S fuel) fd (c :: fmt) 0 ap = (putc fd c;; vprintf_loop fuel fd fmt 0 ap).
Proof. intros Hc H. cbn [vprintf_loop]. by rewrite (proj2 (Z.eqb_neq c 0)), (proj2 (Z.eqb_neq c 37)) by lia. Qed.

Lemma vprintf_d fuel fd v fmt ap : vprintf_loop (S (S fuel)) fd (37 :: 100 :: fmt) 0 (VInt v :: ap) =
  ('(rest, ap) ← (printint fd v 10 true;; mret (fmt, ap)); vprintf_loop fuel fd rest 0 ap).
Proof. done. Qed.

Lemma vprintf_s fuel fd s fmt ap : vprintf_loop (S (S fuel)) fd (37 :: 115 :: fmt) 0 (VStr (Some s) :: ap) =
  ('(rest, ap) ← (forU (cstring s) (putc fd);; mret (fmt, ap)); vprintf_loop fuel fd rest 0 ap).
Proof. done. Qed.

Lemma writes_seq {B} fd (p : U unit) (q : B) (f : B -> U unit) bs bs' :
  writes p fd bs tt -> writes (f q) fd bs' tt -> writes ((p;; mret q) ≫= f) fd (bs ++ bs') tt.
Proof.
  intros Hp Hf. apply (writes_bind _ _ _ _ _ q); [|done].
  rewrite <- (app_nil_r bs). apply (writes_bind _ _ _ _ _ tt); [done|apply writes_ret].
Qed.

Lemma vprintf_writes fd n : forall fmt ap bs fuel, (length fmt <= n)%nat -> (length fmt < fuel)%nat -> Forall arg_bytes ap ->
  fmt_bytes fmt ap = Some bs -> writes (vprintf_loop fuel fd fmt 0 ap) fd bs tt.
Proof.
  induction n as [|n IH]; intros fmt ap bs fuel Hn Hf Hap E.
  { destruct fmt; [|simpl in Hn; lia]. simplify_eq/=. destruct fuel; [lia|]. apply writes_ret. }
  destruct fmt as [|c fmt]; [simplify_eq/=; destruct fuel; [lia|]; apply writes_ret|].
  destruct fuel as [|fuel]; [lia|]. cbn [length] in *. destruct (decide (c = 37)) as [->|Hc].
  - destruct fmt as [|c fmt]; [done|]. cbn [length] in *. destruct fuel as [|fuel]; [lia|].
    destruct ap as [|[v|v|[s|] ] ap]; try done; inversion_clear Hap as [|? ? Ha Hap'].
    + cbn [fmt_bytes] in E. destruct (Z.eqb_spec c 100) as [->|]; [|done].
      destruct (fmt_bytes fmt ap) as [bs'|] eqn:E'; [|done]. injection E as <-. rewrite vprintf_d.
      apply writes_seq; [apply writes_printint; by left|]. apply IH; [lia|lia|done|done].
    + cbn [fmt_bytes] in E. destruct (Z.eqb_spec c 115) as [->|]; [|done].
      destruct (fmt_bytes fmt ap) as [bs'|] eqn:E'; [|done]. injection E as <-. rewrite vprintf_s.
      apply writes_seq; [apply writes_puts, Forall_take, Ha|]. apply IH; [lia|lia|done|done].
  - assert (E2 : (if (0 <? c) && (c <? 256) && negb (c =? 37) then (c ::.) <$> fmt_bytes fmt ap else None) = Some bs).
    { destruct c as [|p|p]; [done| |done]. repeat (destruct p as [p|p|]; try exact E). done. }
    destruct (Z.ltb_spec 0 c) as [H0|]; [|done]. destruct (Z.ltb_spec c 256) as [H1|]; [|done].
    rewrite (proj2 (Z.eqb_neq c 37)) in E2 by done. cbn in E2. destruct (fmt_bytes fmt ap) as [bs'|] eqn:E'; [|done].
    injection E2 as <-. rewrite vprintf_plain by done. apply (writes_bind _ _ _ [c] bs' tt).
    + rewrite <- (u8_small c) at 2 by lia. apply writes_putc.
    + apply IH; [lia|lia|done|done].
Qed.

Lemma fprintf_writes fd fmt ap bs : Forall arg_bytes ap -> fmt_bytes fmt ap = Some bs -> writes (fprintf fd fmt ap) fd bs tt.
Proof. intros Hap E. by apply (vprintf_writes fd (length fmt)); try lia. Qed.

(** * Printing and reading back *)

Lemma atoi_loop_digits cs : forall n,
  Forall (fun c => 48 <= c < 58) cs -> 0 <= n ->
  foldl (fun v c => v * 10 + digit_val c) n cs < 2 ^ 31 ->
  atoi_loop cs n = foldl (fun v c => v * 10 + digit_val c) n cs.
Proof.
  induction cs as [|c cs IH]; intros n H Hn Hb; [done|]. inversion_clear H as [|? ? Hc Hcs]. simpl in *.
  rewrite (proj2 (Z.leb_le 48 c)), (proj2 (Z.leb_le c 57)) by lia. simpl.
  assert (Hv : n * 10 + digit_val c = n * 10 + c - 48).
  { unfold digit_val. rewrite (proj2 (Z.ltb_lt c 58)) by lia. lia. }
  assert (Hm : forall m l, Forall (fun c => 48 <= c < 58) l -> 0 <= m -> m <= foldl (fun v c => v * 10 + digit_val c) m l).
  { clear. intros m l H. revert m. induction H as [|c l Hc _ IH]; intros m Hm; simpl; [lia|].
    assert (0 <= digit_val c) by (unfold digit_val; destruct (Z.ltb_spec c 58); lia).
    etransitivity; [|apply IH]; lia. }
  specialize (Hm (n * 10 + digit_val c) cs Hcs). rewrite Hv in *.
  unfold i32. rewrite sext_small by lia. apply IH; [done|lia|done].
Qed.

Lemma decimal_digits x : 0 <= x < 2 ^ 32 -> Forall (fun c => 48 <= c < 58) (do_digits digit 32 x 10).
Proof.
  intros [Hx Hx2]. refine (proj2 (proj2 (do_digits_ok digit digit_val 10 58 ltac:(lia) _ 9 x 32 _ ltac:(lia)))).
  2: { split; [lia|]. by apply Z.lt_trans with (2 ^ 32). }
  intros i Hi. destruct (udigit_ok i ltac:(lia)) as [Hv Hr]. split; [done|]. split; [lia|].
  assert (F : forallb (fun n => digit (Z.of_nat n) <? 58) (seq 0 10) = true) by reflexivity.
  rewrite forallb_forall in F. specialize (F (Z.to_nat i)). rewrite Z2Nat.id, Z.ltb_lt in F by lia.
  apply F, in_seq. lia.
Qed.

(** printint writes the decimal numeral of an int, INT_MIN included. *)
Lemma printint_decimal x : - 2 ^ 31 <= x < 2 ^ 31 -> rev (printint_buf x 10 true) = decimal x.
Proof.
  intros Hx. assert (Hd : forall i, 0 <= i < 10 -> digit i = 48 + i).
  { intros i Hi. assert (F : forallb (fun n => digit (Z.of_nat n) =? 48 + Z.of_nat n) (seq 0 10) = true) by reflexivity.
    rewrite forallb_forall in F. specialize (F (Z.to_nat i)). rewrite Z2Nat.id, Z.eqb_eq in F by lia. apply F, in_seq. lia. }
  assert (Hb : 2 ^ 32 < 10 ^ Z.of_nat 32) by done.
  unfold printint_buf. destruct (Z.ltb_spec x 0); cbn [andb].
  - rewrite u32_small, rev_app_distr by lia. rewrite (do_digits_decimal digit Hd) by lia.
    unfold decimal. destruct x as [|q|q]; [lia|lia|]. done.
  - rewrite u32_small, app_nil_r by lia. apply (do_digits_decimal digit Hd); lia.
Qed.

(** C38: printf with a %d writes, one character a call, the decimal numeral of any int:
    the digits without leading zeros, after a minus sign if it is negative.  atoi reads
    the numeral of a non-negative int back; it knows no sign and reads a negative one
    as 0. *)
Theorem printf_atoi x ws rest :
  - 2 ^ 31 <= x < 2 ^ 31 -> length ws = length (decimal x) ->
  exists tr, feed (printf (chars "%d") [VInt x]) (ws ++ rest) = (tr, UDone tt, rest) /\
    output 1 tr = decimal x /\ atoi (decimal x) = if x <? 0 then 0 else x.
Proof.
  intros Hx Hw. rewrite <- (printint_decimal x Hx) in Hw |- *.
  assert (H : writes (printf (chars "%d") [VInt x]) 1 (rev (printint_buf x 10 true)) tt).
  { unfold printf, vprintf. cbn -[printint].
    rewrite <- (app_nil_r (rev _)). apply (writes_bind _ _ _ _ _ ([], [])); [|apply writes_ret].
    rewrite <- (app_nil_r (rev _)). apply (writes_bind _ _ _ _ _ tt); [|apply writes_ret].
    apply writes_printint. by left. }
  destruct (writes_output _ _ _ _ ws rest H) as (tr & E & Ho); [done|].
  exists tr. split_and!; [done|done|]. unfold printint_buf. destruct (Z.ltb_spec x 0); cbn [andb].
  - by rewrite rev_app_distr.
  - rewrite app_nil_r, u32_small by lia. destruct (udigits_ok 10 x ltac:(by left) ltac:(lia)) as (Hr & _ & _).
    unfold read_with in Hr. unfold atoi. rewrite atoi_loop_digits; [done| |lia|lia].
    apply Forall_rev, decimal_digits. lia.
Qed.

Lemma printf_atoi_witness :
  exists tr, feed (printf (chars "%d") [VInt (-2005)]) (replicate 5 (1, [])) = (tr, UDone tt, []) /\
    output 1 tr = chars "-2005" /\ atoi (chars "-2005") = 0.
Proof. apply (printf_atoi (-2005) (replicate 5 (1, [])) []); [lia|reflexivity]. Defined.

(** The long conversions go through a 32-bit variable: printf prints a 64-bit
    number modulo 2^32. *)
Lemma printf_long_truncates :
  exists tr, feed (printf (chars "%ld") [VU64 (2 ^ 32 + 7)]) [(1, [])] = (tr, UDone tt, []) /\
    output 1 tr = chars "7".
Proof. eexists. split; vm_compute; reflexivity. Qed.
