(* ===== verification/Umalloc.v ===== *)
(** user/umalloc.c: the storage allocator of Kernighan and Ritchie.

    The heap is the byte memory of the process; a block starts with a header of
    16 bytes, a pointer at offset 0 and the size of the block in units of headers
    at offset 8.  [base] is the address of the static header base, [h_freep] the
    variable freep.  Pointers are 64 bits, sizes 32 bits wide. *)

From S2P Require Import Prelude Memory Uprog.

(** union header *)
Definition sizeof_Header : Z := 16.
Definition hptr (m : mem) (a : Z) : Z := load 8 a m.
Definition hsize (m : mem) (a : Z) : Z := load 4 (a + 8) m.
Definition set_ptr (a v : Z) (m : mem) : mem := store 8 a v m.
Definition set_size (a v : Z) (m : mem) : mem := store 4 (a + 8) v m.

(** Pointer arithmetic on Header*: p + n *)
Definition hadd (p n : Z) : Z := u64 (p + n * sizeof_Header).

(** The memory of the process and the variable freep. *)
Record heap := mkHeap { h_mem : mem; h_freep : Z }.

(** The search loop of free: the block after which bp belongs. *)
Fixpoint free_loop (fuel : nat) (m : mem) (bp p : Z) : option Z :=
  match fuel with
  | O => None
  | S fuel' =>
      if (bp >? p) && (bp <? hptr m p) then Some p
      else if (p >=? hptr m p) && ((bp >? p) || (bp <? hptr m p)) then Some p
      else free_loop fuel' m bp (hptr m p)
  end.

(** Joining bp to its upper neighbour, then to its lower neighbour. *)
Definition join_upper (bp p : Z) (m : mem) : mem :=
  if hadd bp (hsize m bp) =? hptr m p then
    let m := set_size bp (u32 (hsize m bp + hsize m (hptr m p))) m in
    set_ptr bp (hptr m (hptr m p)) m
  else set_ptr bp (hptr m p) m.
Definition join_lower (bp p : Z) (m : mem) : mem :=
  if hadd p (hsize m p) =? bp then
    let m := set_size p (u32 (hsize m p + hsize m bp)) m in
    set_ptr p (hptr m bp) m
  else set_ptr p bp m.

(** void free(void *ap) *)
Definition free (fuel : nat) (ap : Z) (h : heap) : U heap :=
  let bp := hadd ap (-1) in
  match free_loop fuel (h_mem h) bp (h_freep h) with
  | None => OutOfFuel
  | Some p => mret (mkHeap (join_lower bp p (join_upper bp p (h_mem h))) p)
  end.

(** static Header* morecore(uint nu); sbrk takes an int *)
Definition morecore (fuel : nat) (nu : Z) (h : heap) : U (Z * heap) :=
  let nu := if nu <? 4096 then 4096 else nu in
  p ← sbrk (i32 (nu * sizeof_Header));
  if u64 p =? u64 (-1) then mret (0, h)
  else
    let hp := u64 p in
    h ← free fuel (hadd hp 1) (mkHeap (set_size hp nu (h_mem h)) (h_freep h));
    mret (h_freep h, h).

(** The search loop of malloc: the address returned. *)
Fixpoint malloc_loop (fuel : nat) (nunits prevp p : Z) (h : heap) : U (Z * heap) :=
  match fuel with
  | O => OutOfFuel
  | S fuel' =>
      let m := h_mem h in
      if hsize m p >=? nunits then
        if hsize m p =? nunits then
          mret (hadd p 1, mkHeap (set_ptr prevp (hptr m p) m) prevp)
        else
          let m := set_size p (u32 (hsize m p - nunits)) m in
          let p := hadd p (hsize m p) in
          let m := set_size p nunits m in
          mret (hadd p 1, mkHeap m prevp)
      else if p =? h_freep h then
        '(p, h) ← morecore fuel nunits h;
        if p =? 0 then mret (0, h)
        else malloc_loop fuel' nunits p (hptr (h_mem h) p) h
      else malloc_loop fuel' nunits p (hptr m p) h
  end.

(** The number of units malloc looks for. *)
Definition units (nbytes : Z) : Z := u32 ((nbytes + sizeof_Header - 1) / sizeof_Header + 1).

(** void* malloc(uint nbytes) *)
Definition malloc (fuel : nat) (base nbytes : Z) (h : heap) : U (Z * heap) :=
  let nunits := units nbytes in
  let h := if h_freep h =? 0
           then mkHeap (set_size base 0 (set_ptr base base (h_mem h))) base
           else h in
  malloc_loop fuel nunits (h_freep h) (hptr (h_mem h) (h_freep h)) h.
