(* ===== verification/UmallocSpec.v ===== *)
(** The allocator of user/umalloc.c: whatever a program allocates, frees and
    writes, its blocks never overlap, the free list stays sorted and coalesced,
    and no memory is lost. *)

From stdpp Require Import sorting.
From S2P Require Import Prelude Memory Uprog Umalloc.

(** * Headers *)

Lemma hptr_set_ptr a v m : 0 <= v < 2 ^ 64 -> hptr (set_ptr a v m) a = v.
Proof. intros H. unfold hptr, set_ptr. rewrite load_store. by apply Z.mod_small. Qed.
Lemma hsize_set_size a v m : 0 <= v < 2 ^ 32 -> hsize (set_size a v m) a = v.
Proof. intros H. unfold hsize, set_size. rewrite load_store. by apply Z.mod_small. Qed.
Lemma hsize_set_ptr a v m : hsize (set_ptr a v m) a = hsize m a.
Proof. unfold hsize, set_ptr. apply load_store_ne. lia. Qed.
Lemma hptr_set_size a v m : hptr (set_size a v m) a = hptr m a.
Proof. unfold hptr, set_size. apply load_store_ne. lia. Qed.
Lemma hptr_range m a : 0 <= hptr m a < 2 ^ 64.
Proof. apply (load_range 8). Qed.

(** [m'] differs from [m] at most in the headers at the addresses [S]. *)
Definition frame (S : list Z) (m m' : mem) : Prop :=
  forall x, (forall a, a ∈ S -> ~ a <= x < a + 16) -> mrd m' x = mrd m x.

Lemma frame_refl S m : frame S m m.
Proof. by intros x _. Qed.
Lemma frame_trans S m1 m2 m3 : frame S m1 m2 -> frame S m2 m3 -> frame S m1 m3.
Proof. intros H H' x Hx. by rewrite H', H. Qed.
Lemma frame_mono S S' m m' : S ⊆ S' -> frame S m m' -> frame S' m m'.
Proof. intros Hs H x Hx. apply H. intros a Ha. apply Hx. set_solver. Qed.
Lemma frame_set_ptr a v m : frame [a] m (set_ptr a v m).
Proof. intros x Hx. apply mrd_store. specialize (Hx a ltac:(set_solver)). lia. Qed.
Lemma frame_set_size a v m : frame [a] m (set_size a v m).
Proof. intros x Hx. apply mrd_store. specialize (Hx a ltac:(set_solver)). lia. Qed.

Lemma frame_header S m m' b :
  frame S m m' -> (forall a, a ∈ S -> a + 16 <= b \/ b + 16 <= a) -> hptr m' b = hptr m b /\ hsize m' b = hsize m b.
Proof.
  intros H Hb. split; apply load_ext; intros x Hx; apply H; intros a Ha; specialize (Hb a Ha); lia.
Qed.

(** * Lists of blocks *)

(** A block: the address of its header, its size in units. *)
Abbreviation blk := (Z * Z)%type.

(** The address a list of blocks starts at, [z] if it is empty. *)
Definition next (l : list blk) (z : Z) : Z := match l with [] => z | b :: _ => b.1 end.

(** The headers of [l] are linked in this order, the last one to [z]. *)
Fixpoint linked (m : mem) (l : list blk) (z : Z) : Prop :=
  match l with
  | [] => True
  | b :: l' => hptr m b.1 = next l' z /\ hsize m b.1 = b.2 /\ linked m l' z
  end.

Lemma next_app l l' z : next (l ++ l') z = next l (next l' z).
Proof. by destruct l. Qed.

Lemma linked_app m l l' z : linked m (l ++ l') z <-> linked m l (next l' z) /\ linked m l' z.
Proof.
  induction l as [|b l IH]; simpl; [tauto|]. rewrite IH, next_app. tauto.
Qed.

Lemma linked_ext m m' l z :
  (forall b : blk, b ∈ l -> hptr m' b.1 = hptr m b.1 /\ hsize m' b.1 = hsize m b.1) -> linked m l z -> linked m' l z.
Proof.
  induction l as [|b l IH]; intros Hs; simpl; [done|]. intros (Hp & Hn & Hl).
  destruct (Hs b ltac:(left)) as [-> ->]. split_and!; [done..|]. apply IH; [|done]. intros c Hc. apply Hs. by right.
Qed.

Lemma linked_frame S m m' l z :
  frame S m m' -> (forall b a, b ∈ l -> a ∈ S -> a + 16 <= b.1 \/ b.1 + 16 <= a) ->
  linked m l z -> linked m' l z.
Proof. intros Hf Hs. apply linked_ext. intros b Hb. apply (frame_header S); [done|]. intros a. by apply Hs. Qed.

(** Blocks that do not overlap; free blocks that are in order and not adjacent. *)
Definition disj (b c : blk) : Prop := b.1 + 16 * b.2 <= c.1 \/ c.1 + 16 * c.2 <= b.1.
Definition misses (x : Z) (b : blk) : Prop := ~ b.1 <= x < b.1 + 16 * b.2.
Definition gap (b c : blk) : Prop := b.1 + 16 * b.2 < c.1.
Definition inside (start top : Z) (b : blk) : Prop := start <= b.1 /\ 1 <= b.2 /\ b.1 + 16 * b.2 <= top.
Definition total (l : list blk) : Z := foldr (fun b n => b.2 + n) 0 l.

Lemma total_app l l' : total (l ++ l') = total l + total l'.
Proof. unfold total. induction l as [|b l IH]; simpl; [done|]. lia. Qed.

(** * The search loop of free *)

(** The condition on which the loop of free stops at [p]. *)
Definition stops (m : mem) (bp p : Z) : bool :=
  ((bp >? p) && (bp <? hptr m p)) || ((p >=? hptr m p) && ((bp >? p) || (bp <? hptr m p))).

Lemma free_loop_S fuel m bp p :
  free_loop (S fuel) m bp p = if stops m bp p then Some p else free_loop fuel m bp (hptr m p).
Proof. cbn [free_loop]. unfold stops. by destruct (_ && (bp <? _)), (_ && (_ || _)). Qed.

Lemma free_loop_skip m bp s : forall f z,
  linked m s z -> (forall b, b ∈ s -> stops m bp b.1 = false) ->
  free_loop (length s + f) m bp (next s z) = free_loop f m bp z.
Proof.
  induction s as [|b s IH]; intros f z Hl Hs; [done|]. destruct Hl as (Hp & _ & Hl).
  cbn [length Nat.add next]. rewrite free_loop_S, Hs by left. rewrite Hp. apply IH; [done|].
  intros c Hc. apply Hs. by right.
Qed.

Section free_loop.
Context (m : mem) (base bp : Z) (n1 f2 : list blk) (q : blk).
Hypothesis Hlink : linked m (n1 ++ q :: f2) base.
Hypothesis Hsort : StronglySorted (fun b c : blk => b.1 < c.1) (n1 ++ q :: f2).
Hypothesis Hbase : forall b, b ∈ n1 ++ q :: f2 -> base <= b.1.
Hypothesis Hq : q.1 < bp.
Hypothesis Hf2 : forall b, b ∈ f2 -> bp < b.1.

Lemma stops_at : stops m bp q.1 = true.
Proof using Hlink Hsort Hbase Hq Hf2.
  apply linked_app in Hlink as [_ (E & _ & _)]. unfold stops. rewrite E.
  pose proof (Hbase q ltac:(set_solver)). destruct f2 as [|b l]; simpl.
  - apply orb_true_iff. right. apply andb_true_iff. split; [apply Z.geb_le; lia|].
    apply orb_true_iff. left. apply Z.gtb_lt. lia.
  - pose proof (Hf2 b ltac:(left)). apply orb_true_iff. left. apply andb_true_iff.
    split; [apply Z.gtb_lt; lia|apply Z.ltb_lt; lia].
Qed.

(** Elsewhere the loop goes on. *)
Lemma goes_on b : b ∈ n1 ++ f2 -> stops m bp b.1 = false.
Proof using Hlink Hsort Hbase Hq Hf2.
  intros Hb. assert (Hnext : exists l1 l2, n1 ++ q :: f2 = l1 ++ b :: l2 /\ (b ∈ f2 \/ exists c l, l2 = c :: l /\ c.1 <= q.1)).
  { apply elem_of_app in Hb as [Hb|Hb].
    - apply list_elem_of_split in Hb as (l1 & l2 & ->). exists l1, (l2 ++ q :: f2).
      rewrite <- app_assoc. split; [done|]. right. destruct l2 as [|c l2]; [by exists q, f2|].
      exists c, (l2 ++ q :: f2). split; [done|]. rewrite <- app_assoc in Hsort.
      apply StronglySorted_app in Hsort as (_ & _ & Hs). apply StronglySorted_cons in Hs as [_ Hs].
      apply StronglySorted_cons in Hs as [Hs _]. rewrite Forall_forall in Hs.
      specialize (Hs q ltac:(set_solver)). lia.
    - apply list_elem_of_split in Hb as (l1 & l2 & ->). exists (n1 ++ q :: l1), l2.
      rewrite <- app_assoc. split; [done|]. left. set_solver. }
  destruct Hnext as (l1 & l2 & E & Hc). rewrite E in Hlink, Hsort.
  pose proof (Hbase b ltac:(rewrite E; set_solver)) as Hbb.
  apply linked_app in Hlink as [_ (Ep & _ & _)]. apply StronglySorted_app in Hsort as (_ & _ & Hs).
  apply StronglySorted_cons in Hs as [Hs _]. rewrite Forall_forall in Hs.
  unfold stops. rewrite Ep. destruct Hc as [Hin|(c & l & -> & Hcq)].
  - pose proof (Hf2 b Hin). rewrite Z.gtb_ltb, (proj2 (Z.ltb_ge b.1 bp)) by lia. simpl.
    destruct l2 as [|c l2]; simpl.
    + rewrite (proj2 (Z.ltb_ge bp base)); [by rewrite andb_false_r|]. specialize (Hbase q ltac:(set_solver)). lia.
    + specialize (Hs c ltac:(left)). rewrite Z.geb_leb, (proj2 (Z.leb_gt c.1 b.1)) by lia. done.
  - specialize (Hs c ltac:(left)). simpl. rewrite (proj2 (Z.ltb_ge bp c.1)) by lia.
    rewrite Z.geb_leb, (proj2 (Z.leb_gt c.1 b.1)) by lia. by rewrite andb_false_r.
Qed.

(** From any block of the list, the loop finds the last one below bp. *)
Lemma free_loop_finds p f :
  p ∈ (n1 ++ q :: f2).*1 -> next (n1 ++ q :: f2) base = base -> (length (n1 ++ q :: f2) < f)%nat ->
  free_loop f m bp p = Some q.1.
Proof using Hlink Hsort Hbase Hq Hf2.
  intros Hp Hhd Hf. pose proof Hlink as Hl. apply linked_app in Hl as [Hl1 Hl2]. simpl in Hl1, Hl2.
  rewrite length_app in Hf. simpl in Hf.
  assert (Hfirst : forall u1 u2 g, n1 = u1 ++ u2 -> (length u2 < g)%nat -> free_loop g m bp (next u2 q.1) = Some q.1).
  { intros u1 u2 g En Hg. replace g with (length u2 + S (g - length u2 - 1))%nat by lia.
    rewrite free_loop_skip; [by rewrite free_loop_S, stops_at| |].
    - rewrite En in Hl1. by apply linked_app in Hl1 as [_ Hl1].
    - intros b Hb. apply goes_on. rewrite En. set_solver. }
  rewrite list_elem_of_fmap in Hp. destruct Hp as (b & -> & [Hb|Hb]%elem_of_app).
  - apply list_elem_of_split in Hb as (u1 & u2 & E). apply (Hfirst u1 (b :: u2)); [done|].
    rewrite E, length_app in Hf. simpl in *. lia.
  - apply elem_of_cons in Hb as [->|Hb].
    + apply (Hfirst n1 []); [by rewrite app_nil_r|simpl; lia].
    + apply list_elem_of_split in Hb as (v1 & v2 & E).
      replace f with (length (b :: v2) + (f - length (b :: v2)))%nat
        by (rewrite E, length_app in Hf; simpl in *; lia).
      change b.1 with (next (b :: v2) base). rewrite free_loop_skip.
      * rewrite next_app in Hhd. simpl in Hhd. rewrite <- Hhd. apply (Hfirst [] n1); [done|].
        rewrite E, length_app in Hf. simpl in *. lia.
      * destruct Hl2 as (_ & _ & Hl2). rewrite E in Hl2. by apply linked_app in Hl2 as [_ Hl2].
      * intros c Hc. apply goes_on. rewrite E. set_solver.
Qed.
End free_loop.

(** * Joining a block to its neighbours *)

(** What join_upper and join_lower make of the list of free blocks. *)
Definition join_up (b : blk) (l : list blk) : list blk :=
  match l with
  | [] => [b]
  | c :: l' => if b.1 + 16 * b.2 =? c.1 then (b.1, b.2 + c.2) :: l' else b :: l
  end.
Definition join_low (q : blk) (l : list blk) : list blk :=
  match l with
  | [] => [q]
  | c :: l' => if q.1 + 16 * q.2 =? c.1 then (q.1, q.2 + c.2) :: l' else q :: l
  end.

Lemma join_up_next b l z : next (join_up b l) z = b.1.
Proof. destruct l as [|c l]; [done|]. simpl. by destruct (_ =? _). Qed.

Lemma hadd_small p n : 0 <= p -> 0 <= n -> p + 16 * n <= 2 ^ 36 -> hadd p n = p + 16 * n.
Proof. intros Hp Hn H. unfold hadd, sizeof_Header. rewrite u64_small; lia. Qed.

Lemma join_upper_ok m base q b f2 :
  hptr m q = next f2 base -> linked m f2 base -> hsize m b.1 = b.2 ->
  0 <= base -> base + 16 <= b.1 -> q + 16 <= b.1 -> 1 <= b.2 -> b.1 + 16 * b.2 <= 2 ^ 36 ->
  (forall c, c ∈ f2 -> b.1 + 16 * b.2 <= c.1 /\ 1 <= c.2 /\ c.1 + 16 * c.2 <= 2 ^ 36) ->
  linked (join_upper b.1 q m) (join_up b f2) base /\ frame [b.1] m (join_upper b.1 q m).
Proof.
  intros Hq Hl Hs H0 Hb Hqb Hn Htop Hf. unfold join_upper. rewrite Hs, Hq, hadd_small by lia.
  assert (Hfr : forall m' l, frame [b.1] m m' -> (forall c, c ∈ l -> c ∈ f2) -> linked m l base -> linked m' l base).
  { intros m' l Hm Hin. apply linked_frame with (1 := Hm). intros c a Hc Ha%list_elem_of_singleton. subst a.
    destruct (Hf c (Hin c Hc)). lia. }
  destruct f2 as [|c l]; cbn [next join_up].
  - rewrite (proj2 (Z.eqb_neq _ base)) by lia. split; [|apply frame_set_ptr].
    simpl. rewrite hptr_set_ptr, hsize_set_ptr by lia. done.
  - destruct (Hf c ltac:(left)) as (Hc1 & Hc2 & Hc3). destruct Hl as (Hcp & Hcs & Hl).
    destruct (Z.eqb_spec (b.1 + 16 * b.2) c.1) as [E|E].
    + rewrite Hcs. rewrite u32_small by lia.
      assert (Hf1 : frame [b.1] m (set_size b.1 (b.2 + c.2) m)) by apply frame_set_size.
      destruct (frame_header _ _ _ q Hf1) as [Eq _]; [set_solver by lia|].
      destruct (frame_header _ _ _ c.1 Hf1) as [Ec _]; [set_solver by lia|].
      rewrite Eq, Hq. cbn [next]. rewrite Ec, Hcp.
      assert (Hf2 : frame [b.1] m (set_ptr b.1 (next l base) (set_size b.1 (b.2 + c.2) m))).
      { apply frame_trans with (1 := Hf1). apply frame_set_ptr. }
      split; [|done]. cbn [linked fst snd]. rewrite hptr_set_ptr, hsize_set_ptr, hsize_set_size.
      * split_and!; [done..|]. apply Hfr; [done|set_solver|done].
      * lia.
      * rewrite <- Hcp. apply hptr_range.
    + split; [|apply frame_set_ptr]. cbn [linked]. rewrite hptr_set_ptr, hsize_set_ptr by lia.
      split; [done|]. split; [done|]. apply (Hfr (set_ptr b.1 c.1 m) (c :: l)); [apply frame_set_ptr|set_solver|done].
Qed.

Lemma join_lower_ok m base q b l :
  hsize m q.1 = q.2 -> linked m (b :: l) base ->
  0 < q.1 -> 0 <= q.2 -> q.1 + 16 * q.2 <= b.1 -> q.1 + 16 <= b.1 -> 1 <= b.2 -> b.1 + 16 * b.2 <= 2 ^ 36 ->
  (forall c, c ∈ l -> b.1 <= c.1) ->
  linked (join_lower b.1 q.1 m) (join_low q (b :: l)) base /\ frame [q.1] m (join_lower b.1 q.1 m).
Proof.
  intros Hs Hl H0 H1 Hqb Hqb' Hn Htop Hf. unfold join_lower, join_low. rewrite Hs, hadd_small by lia.
  assert (Hfr : forall m' l', frame [q.1] m m' -> (forall c, c ∈ l' -> c ∈ b :: l) -> linked m l' base -> linked m' l' base).
  { intros m' l' Hm Hin. apply linked_frame with (1 := Hm). intros c a Hc Ha%list_elem_of_singleton. subst a.
    apply Hin, elem_of_cons in Hc as [->|Hc]; [lia|]. specialize (Hf c Hc). lia. }
  pose proof Hl as (Hbp & Hbs & Hl').
  destruct (Z.eqb_spec (q.1 + 16 * q.2) b.1) as [E|E].
  - rewrite Hbs, u32_small by lia.
    assert (Hf1 : frame [q.1] m (set_size q.1 (q.2 + b.2) m)) by apply frame_set_size.
    destruct (frame_header _ _ _ b.1 Hf1) as [Eb _]; [set_solver by lia|]. rewrite Eb, Hbp.
    assert (Hf2 : frame [q.1] m (set_ptr q.1 (next l base) (set_size q.1 (q.2 + b.2) m))).
    { apply frame_trans with (1 := Hf1). apply frame_set_ptr. }
    split; [|done]. cbn [linked fst snd]. rewrite hptr_set_ptr, hsize_set_ptr, hsize_set_size.
    + split_and!; [done..|]. apply Hfr; [done|set_solver|done].
    + lia.
    + rewrite <- Hbp. apply hptr_range.
  - split; [|apply frame_set_ptr]. cbn [linked]. rewrite hptr_set_ptr, hsize_set_ptr by lia.
    split; [done|]. split; [done|]. apply (Hfr (set_ptr q.1 b.1 m) (b :: l)); [apply frame_set_ptr|set_solver|done].
Qed.

(** Joining keeps the blocks in order, separate, and loses nothing. *)
Lemma join_up_gap b l :
  StronglySorted gap l -> (forall c, c ∈ l -> b.1 + 16 * b.2 <= c.1 /\ 1 <= c.2) ->
  StronglySorted gap (join_up b l).
Proof.
  intros Hs Hf. destruct l as [|c l]; cbn [join_up]; [by repeat constructor|].
  pose proof (Hf c ltac:(left)) as [Hc1 Hc2].
  pose proof Hs as [Hcl Hl]%StronglySorted_cons. rewrite Forall_forall in Hcl.
  destruct (Z.eqb_spec (b.1 + 16 * b.2) c.1) as [E|E]; apply StronglySorted_cons.
  - split; [|done]. apply Forall_forall. intros d Hd. specialize (Hcl d Hd). unfold gap in *. simpl. lia.
  - split; [|done]. apply Forall_forall. intros d [->|Hd]%elem_of_cons; unfold gap in *; [lia|].
    specialize (Hcl d Hd). simpl in *. lia.
Qed.

Lemma join_low_gap f q b l :
  StronglySorted gap (f ++ [q]) -> StronglySorted gap (b :: l) -> q.1 + 16 * q.2 <= b.1 -> 0 <= q.2 -> 1 <= b.2 ->
  StronglySorted gap (f ++ join_low q (b :: l)).
Proof.
  intros (Hx & Hf & _)%StronglySorted_app Hs Hq Hq2 Hb. pose proof Hs as [Hbl Hl]%StronglySorted_cons.
  rewrite Forall_forall in Hbl. unfold join_low. apply StronglySorted_app. split_and!; [|done|].
  - intros x y Hx' Hy. specialize (Hx x q Hx' ltac:(set_solver)). unfold gap in *.
    assert (q.1 <= y.1); [|lia]. destruct (_ =? _); apply elem_of_cons in Hy as [->|Hy]; simpl; try lia.
    + specialize (Hbl y Hy). simpl in Hbl. lia.
    + apply elem_of_cons in Hy as [->|Hy]; [lia|]. specialize (Hbl y Hy). simpl in Hbl. lia.
  - destruct (Z.eqb_spec (q.1 + 16 * q.2) b.1) as [E|E]; apply StronglySorted_cons; (split; [|done]);
      apply Forall_forall; unfold gap in *; simpl.
    + intros d Hd. specialize (Hbl d Hd). simpl in Hbl. lia.
    + intros d [->|Hd]%elem_of_cons; [lia|]. specialize (Hbl d Hd). simpl in Hbl. lia.
Qed.

Lemma join_up_total b l : total (join_up b l) = b.2 + total l.
Proof. destruct l as [|c l]; [done|]. cbn. destruct (_ =? _); simpl; lia. Qed.
Lemma join_low_total q l : total (join_low q l) = q.2 + total l.
Proof. destruct l as [|c l]; [done|]. cbn. destruct (_ =? _); simpl; lia. Qed.

(** A block that avoids two adjacent blocks avoids their union; a range that
    holds both holds their union. *)
Lemma join_up_disj d b l :
  1 <= d.2 -> disj d b -> Forall (disj d) l -> Forall (disj d) (join_up b l).
Proof.
  intros Hd Hb Hl. destruct l as [|c l]; cbn [join_up]; [by constructor|].
  inversion_clear Hl as [|? ? Hc Hl']. destruct (Z.eqb_spec (b.1 + 16 * b.2) c.1); constructor; try done.
  - unfold disj in *. simpl. lia.
  - by constructor.
Qed.
Lemma join_up_misses x b l : misses x b -> Forall (misses x) l -> Forall (misses x) (join_up b l).
Proof.
  intros Hb Hl. destruct l as [|c l]; cbn [join_up]; [by constructor|].
  inversion_clear Hl as [|? ? Hc Hl']. destruct (Z.eqb_spec (b.1 + 16 * b.2) c.1); constructor; try done.
  - unfold misses in *. simpl. lia.
  - by constructor.
Qed.
Lemma join_low_disj d q l :
  1 <= d.2 -> disj d q -> Forall (disj d) l -> Forall (disj d) (join_low q l).
Proof. apply join_up_disj. Qed.

Lemma join_up_inside start top b l :
  inside start top b -> Forall (inside start top) l -> Forall (inside start top) (join_up b l).
Proof.
  intros Hb Hl. destruct l as [|c l]; cbn [join_up]; [by constructor|].
  inversion_clear Hl as [|? ? Hc Hl']. destruct (Z.eqb_spec (b.1 + 16 * b.2) c.1); constructor; try done.
  - unfold inside in *. simpl. lia.
  - by constructor.
Qed.

(** * free *)

(** The free list: linked from base and back, in order, coalesced, in the heap. *)
Record flist (base start top : Z) (h : heap) (l : list blk) : Prop := mkFlist {
  fl_link : linked (h_mem h) ((base, 0) :: l) base;
  fl_gap : StronglySorted gap l;
  fl_in : Forall (inside start top) l;
  fl_freep : h_freep h ∈ ((base, 0) :: l).*1;
  fl_base : 0 < base /\ base + 16 <= start /\ top <= 2 ^ 36;
}.

Lemma gap_split b l :
  StronglySorted gap l -> Forall (disj b) l -> 1 <= b.2 -> Forall (fun c => 1 <= c.2) l ->
  exists f1 f2, l = f1 ++ f2 /\ (forall c, c ∈ f1 -> c.1 + 16 * c.2 <= b.1) /\ (forall c, c ∈ f2 -> b.1 + 16 * b.2 <= c.1).
Proof.
  intros Hs Hd Hb Hn. induction l as [|c l IH]; [by exists [], []; set_solver|].
  apply StronglySorted_cons in Hs as [Hcl Hs]. inversion_clear Hd as [|? ? Hc Hd']. inversion_clear Hn as [|? ? Hcn Hn'].
  destruct (decide (c.1 + 16 * c.2 <= b.1)) as [Hle|Hgt].
  - destruct (IH Hs Hd' Hn') as (f1 & f2 & -> & H1 & H2). exists (c :: f1), f2. split; [done|]. set_solver.
  - exists [], (c :: l). split; [done|]. split; [set_solver|]. unfold disj in Hc.
    rewrite Forall_forall in Hcl. unfold gap in Hcl.
    intros d [->|Hd]%elem_of_cons; [lia|]. specialize (Hcl d Hd). simpl in Hcl. lia.
Qed.

Lemma flist_sorted base start top h l :
  flist base start top h l -> StronglySorted (fun b c : blk => b.1 + 16 <= c.1) ((base, 0) :: l).
Proof.
  intros [_ Hg Hi _ Hb]. rewrite Forall_forall in Hi. apply StronglySorted_cons. split.
  - apply Forall_forall. intros c Hc. destruct (Hi c Hc). simpl. lia.
  - clear Hb. induction Hg as [|c l Hg IH Hc]; constructor.
    + apply IH. set_solver.
    + rewrite Forall_forall in *. intros d Hd. specialize (Hc d Hd). unfold gap in Hc.
      destruct (Hi c ltac:(left)) as (_ & ? & _). lia.
Qed.

Lemma sorted_lt (l : list blk) :
  StronglySorted (fun b c : blk => b.1 + 16 <= c.1) l -> StronglySorted (fun b c : blk => b.1 < c.1) l.
Proof.
  induction 1 as [|c l Hl IH Hc]; constructor; [done|]. eapply Forall_impl; [done|]. simpl. lia.
Qed.

Lemma join_up_head b l :
  1 <= b.2 -> b.1 + 16 * b.2 <= 2 ^ 36 ->
  (forall c, c ∈ l -> b.1 + 16 * b.2 <= c.1 /\ 1 <= c.2 /\ c.1 + 16 * c.2 <= 2 ^ 36) ->
  exists b' l', join_up b l = b' :: l' /\ b'.1 = b.1 /\ 1 <= b'.2 /\ b'.1 + 16 * b'.2 <= 2 ^ 36 /\ forall c, c ∈ l' -> b.1 <= c.1.
Proof.
  intros Hb Ht Hl. destruct l as [|c l]; cbn [join_up].
  { exists b, []. split; [done|]. split_and!; [lia..|set_solver]. }
  pose proof (Hl c ltac:(left)). destruct (Z.eqb_spec (b.1 + 16 * b.2) c.1); eexists _, _; (split; [done|]).
  - simpl. split_and!; try lia. intros d Hd. destruct (Hl d ltac:(by right)); lia.
  - split_and!; try lia. intros d Hd. destruct (Hl d Hd); lia.
Qed.

(** The memory after free, with the list split where the block belongs. *)
Lemma free_mem base start top h l b n1 q f2 fuel :
  flist base start top h l -> (base, 0) :: l = n1 ++ q :: f2 ->
  hsize (h_mem h) b.1 = b.2 -> inside start top b ->
  (forall c, c ∈ n1 ++ [q] -> c.1 + 16 * c.2 <= b.1) -> (forall c, c ∈ f2 -> b.1 + 16 * b.2 <= c.1) ->
  (S (length l) < fuel)%nat ->
  exists m', free fuel (hadd b.1 1) h = mret (mkHeap m' q.1) /\
    linked m' (n1 ++ join_low q (join_up b f2)) base /\ frame [q.1; b.1] (h_mem h) m'.
Proof.
  intros Hfl EN Hs (Hb1 & Hb2 & Hb3) Hlo Hhi Hf. pose proof (flist_sorted _ _ _ _ _ Hfl) as Hsort.
  destruct Hfl as [Hl _ Hi Hp (H0 & Hst & Htop)]. pose proof (f_equal length EN) as Hlen. simpl in Hlen.
  rewrite EN in Hl, Hsort, Hp.
  assert (Hin : forall c, c ∈ n1 ++ q :: f2 -> c = (base, 0) \/ inside start top c).
  { intros c Hc. rewrite <- EN in Hc. rewrite Forall_forall in Hi. set_solver. }
  assert (Hlow : forall c, c ∈ n1 ++ [q] -> 0 < c.1 /\ c.1 + 16 <= b.1 /\ 0 <= c.2).
  { intros c Hc. specialize (Hlo c Hc). destruct (Hin c ltac:(set_solver)) as [->|(? & ? & ?)]; simpl in *; lia. }
  destruct (Hlow q ltac:(set_solver)) as (Hq0 & Hq1 & Hq2). specialize (Hlo q ltac:(set_solver)).
  assert (Hup : forall c, c ∈ f2 -> b.1 + 16 * b.2 <= c.1 /\ 1 <= c.2 /\ c.1 + 16 * c.2 <= 2 ^ 36).
  { intros c Hc. specialize (Hhi c Hc). destruct (Hin c ltac:(set_solver)) as [->|(? & ? & ?)]; simpl in *; lia. }
  unfold free. rewrite (hadd_small b.1 1) by lia. unfold hadd, sizeof_Header. rewrite u64_small by lia.
  replace (b.1 + 16 * 1 + -1 * 16) with b.1 by lia.
  rewrite (free_loop_finds (h_mem h) base b.1 n1 f2 q);
    [|done|by apply sorted_lt| |lia|intros c Hc; destruct (Hup c Hc); lia|done|by rewrite <- EN|lia].
  2: { intros c Hc. destruct (Hin c Hc) as [->|(? & ? & ?)]; simpl; lia. }
  apply linked_app in Hl as [Hl1 (Eq & Eqs & Hl2)].
  destruct (join_upper_ok (h_mem h) base q.1 b f2) as [Hlu Hfu]; [done|done|done|lia..|done|].
  eexists. split; [done|].
  pose proof (join_up_head b f2 Hb2 ltac:(lia) Hup) as Hj.
  destruct Hj as (b' & l' & Ej & Eb & Hb'1 & Hb'2 & Hl'). rewrite Ej in *. rewrite <- Eb.
  destruct (frame_header _ _ _ q.1 Hfu) as [_ Eq2]; [set_solver by lia|].
  destruct (join_lower_ok (join_upper b.1 q.1 (h_mem h)) base q b' l') as [Hll Hfl'];
    [by rewrite Eq2|done|lia|lia|lia|lia|lia|lia|by rewrite Eb|].
  assert (Hfr : frame [q.1; b'.1] (h_mem h) (join_lower b'.1 q.1 (join_upper b.1 q.1 (h_mem h)))).
  { apply frame_trans with (join_upper b.1 q.1 (h_mem h)); (eapply frame_mono; [|done]); set_solver. }
  split; [|by rewrite Eb in *].
  rewrite Eb in *. apply linked_app. split; [|done].
  replace (next (join_low q (b' :: l')) base) with q.1 by (cbn; by destruct (_ =? _)).
  apply (linked_frame _ _ _ _ _ Hfr); [|done]. intros c a Hc Ha.
  apply StronglySorted_app in Hsort as (Hcq & _ & _). specialize (Hcq c q Hc ltac:(set_solver)).
  destruct (Hlow c ltac:(set_solver)). set_solver by lia.
Qed.

(** The list after free. *)
Lemma free_shape base start top l b f1 f2 :
  l = f1 ++ f2 -> StronglySorted gap l -> Forall (inside start top) l -> inside start top b -> base + 16 <= start ->
  (forall c, c ∈ f1 -> c.1 + 16 * c.2 <= b.1) -> (forall c, c ∈ f2 -> b.1 + 16 * b.2 <= c.1) ->
  exists n1 q l', (base, 0) :: f1 = n1 ++ [q] /\ n1 ++ join_low q (join_up b f2) = (base, 0) :: l' /\
    StronglySorted gap l' /\ Forall (inside start top) l' /\ total l' = total l + b.2 /\
    (forall d, 1 <= d.2 -> disj d b -> Forall (disj d) l -> Forall (disj d) l') /\
    (forall x, misses x b -> Forall (misses x) l -> Forall (misses x) l') /\
    Exists (fun c => b.2 <= c.2) l'.
Proof.
  intros -> Hg [Hi1 Hi2]%Forall_app Hb Hst Hlo Hhi.
  pose proof Hg as (_ & Hg1 & Hg2)%StronglySorted_app. pose proof Hb as (Hb1 & Hb2 & Hb3).
  assert (Hf2 : forall c, c ∈ f2 -> b.1 + 16 * b.2 <= c.1 /\ 1 <= c.2).
  { intros c Hc. rewrite Forall_forall in Hi2. destruct (Hi2 c Hc) as (? & ? & ?). auto. }
  pose proof (join_up_gap b f2 Hg2 Hf2) as Hgu. pose proof (join_up_inside _ _ _ _ Hb Hi2) as Hiu.
  assert (Hju : exists b' r, join_up b f2 = b' :: r /\ b'.1 = b.1 /\ b.2 <= b'.2).
  { destruct f2 as [|c f2]; cbn [join_up]; [by eexists _, _|].
    destruct (Hf2 c ltac:(left)). destruct (_ =? _); eexists _, _; (split; [done|]); simpl; lia. }
  destruct Hju as (b' & r & Ej & Eb & Hbb).
  destruct f1 as [|q f1 _] using rev_ind.
  - exists [], (base, 0), (join_up b f2). split; [done|]. split_and!; [|done|done|rewrite join_up_total; simpl; lia| | |].
    + rewrite Ej. cbn. by rewrite (proj2 (Z.eqb_neq _ _)) by lia.
    + intros d Hd Hdb Hdl. by apply join_up_disj.
    + intros x Hxb Hxl. by apply join_up_misses.
    + rewrite Ej. by constructor.
  - exists ((base, 0) :: f1), q, (f1 ++ join_low q (join_up b f2)). split; [done|]. split; [done|].
    specialize (Hlo q ltac:(set_solver)). apply Forall_app in Hi1 as [Hi1 Hiq]. inversion_clear Hiq as [|? ? Hq _].
    pose proof Hq as (Hq1 & Hq2 & Hq3). split_and!.
    + rewrite Ej in *. apply join_low_gap; [done|done|lia|lia|lia].
    + apply Forall_app. split; [done|]. by apply (join_up_inside start top q).
    + rewrite total_app, join_low_total, join_up_total, !total_app. simpl. lia.
    + intros d Hd Hdb [[Hd1 Hdq]%Forall_app Hd2]%Forall_app. inversion_clear Hdq. apply Forall_app. split; [done|].
      apply join_low_disj; [done|done|]. by apply join_up_disj.
    + intros x Hxb [[Hx1 Hxq]%Forall_app Hx2]%Forall_app. inversion_clear Hxq. apply Forall_app. split; [done|].
      apply (join_up_misses x q); [done|]. by apply join_up_misses.
    + apply Exists_app. right. rewrite Ej. cbn. destruct (_ =? _); [apply Exists_cons_hd; simpl; lia|].
      by apply Exists_cons_tl, Exists_cons_hd.
Qed.

Lemma free_ok base start top h l b fuel :
  flist base start top h l -> hsize (h_mem h) b.1 = b.2 -> inside start top b -> Forall (disj b) l ->
  (S (length l) < fuel)%nat ->
  exists h' l', free fuel (hadd b.1 1) h = mret h' /\ flist base start top h' l' /\
    total l' = total l + b.2 /\ frame (base :: b.1 :: l.*1) (h_mem h) (h_mem h') /\
    (forall d, 1 <= d.2 -> disj d b -> Forall (disj d) l -> Forall (disj d) l') /\
    (forall x, misses x b -> Forall (misses x) l -> Forall (misses x) l') /\
    Exists (fun c => b.2 <= c.2) l' /\ (length l' <= S (length l))%nat.
Proof.
  intros Hfl Hs Hb Hd Hf. pose proof Hfl as [Hl Hg Hi Hp Hbase].
  destruct (gap_split b l Hg Hd) as (f1 & f2 & El & Hlo & Hhi); [apply Hb| |].
  { eapply Forall_impl; [exact Hi|]. by intros c (_ & ? & _). }
  destruct (free_shape base start top l b f1 f2 El Hg Hi Hb) as (n1 & q & l' & En & El' & Hg' & Hi' & Ht & Hd' & Hm' & He);
    [lia|done|done|].
  assert (Hlow : forall c, c ∈ n1 ++ [q] -> c.1 + 16 * c.2 <= b.1).
  { intros c Hc. rewrite <- En in Hc. apply elem_of_cons in Hc as [->|Hc]; [|by apply Hlo].
    destruct Hb as (? & _). simpl. lia. }
  destruct (free_mem base start top h l b n1 q f2 fuel) as (m' & E & Hl' & Hfr); [done| |done..|].
  { change (((base, 0) :: l) = n1 ++ [q] ++ f2). rewrite app_assoc, <- En, El. done. }
  exists (mkHeap m' q.1), l'. split; [done|]. split_and!; [|done| |done|done|done|].
  - split; cbn [h_mem h_freep]; [by rewrite <- El'|done|done| |done]. rewrite <- El', fmap_app. apply elem_of_app. right.
    destruct (join_up b f2) as [|b' r]; simpl; [set_solver|]. destruct (_ =? _); set_solver.
  - eapply frame_mono; [|exact Hfr]. assert (Hq : q ∈ (base, 0) :: f1) by (rewrite En; set_solver).
    apply elem_of_cons in Hq as [->|Hq]; [set_solver|].
    intros a [->|Ha]%elem_of_cons; [|set_solver]. rewrite El, fmap_app. right. right. apply elem_of_app. left.
    by apply list_elem_of_fmap_2.
  - apply (f_equal length) in El', En. rewrite El. rewrite !length_app in *. simpl in *.
    assert (length (join_up b f2) <= S (length f2))%nat by (destruct f2; simpl; [lia|destruct (_ =? _); simpl; lia]).
    assert (length (join_low q (join_up b f2)) <= S (length (join_up b f2)))%nat
      by (destruct (join_up b f2); simpl; [lia|destruct (_ =? _); simpl; lia]). lia.
Qed.
