(* ===== verification/UmallocProps.v ===== *)
(** malloc and free of user/umalloc.c under any sequence of calls a program makes:
    the allocated blocks stay apart, keep their contents, and together with the
    free blocks make up exactly the memory sbrk gave. *)

From stdpp Require Import sorting.
From S2P Require Import Prelude Memory Uprog Umalloc UmallocSpec.

(** * The search loop of malloc *)

(** The block before the end of a walk over [s] from [prev]. *)
Fixpoint lastp (prev : Z) (s : list blk) : Z :=
  match s with [] => prev | b :: s' => lastp b.1 s' end.

Lemma lastp_next m s : forall prev z, hptr m prev = next s z -> linked m s z -> hptr m (lastp prev s) = z.
Proof. induction s as [|b s IH]; intros prev z Hp Hl; [done|]. destruct Hl as (E & _ & Hl). by apply IH. Qed.

Lemma lastp_in s : forall prev, lastp prev s ∈ prev :: s.*1.
Proof. induction s as [|b s IH]; intros prev; simpl; [set_solver|]. specialize (IH b.1). set_solver. Qed.

Lemma malloc_skip nunits h s : forall f prev z,
  linked (h_mem h) s z -> (forall b, b ∈ s -> b.2 < nunits /\ b.1 <> h_freep h) ->
  malloc_loop (length s + f) nunits prev (next s z) h = malloc_loop f nunits (lastp prev s) z h.
Proof.
  induction s as [|b s IH]; intros f prev z Hl Hs; [done|]. destruct Hl as (Hp & Hn & Hl).
  destruct (Hs b ltac:(left)) as [Hb Hf]. cbn [length Nat.add next malloc_loop lastp].
  rewrite Hn, Z.geb_leb, (proj2 (Z.leb_gt nunits b.2)) by done. rewrite (proj2 (Z.eqb_neq b.1 _)) by done.
  rewrite Hp. apply IH; [done|]. intros c Hc. apply Hs. by right.
Qed.

(** Addresses identify the blocks of the list. *)
Lemma flist_addr base start top h l b c :
  flist base start top h l -> b ∈ (base, 0) :: l -> c ∈ (base, 0) :: l -> b.1 = c.1 -> b = c.
Proof.
  intros Hfl Hb Hc E. pose proof (flist_sorted _ _ _ _ _ Hfl) as Hs. revert Hb Hc Hs.
  generalize ((base, 0) :: l). intros N. induction N as [|d N IH]; intros Hb Hc Hs; [by apply elem_of_nil in Hb|].
  apply StronglySorted_cons in Hs as [Hd Hs]. rewrite Forall_forall in Hd.
  apply elem_of_cons in Hb as [->|Hb], Hc as [->|Hc]; [done| | |by apply IH].
  - specialize (Hd c Hc). simpl in Hd. lia.
  - specialize (Hd b Hb). simpl in Hd. lia.
Qed.

Lemma flist_pred base start top h l c x :
  flist base start top h l -> c ∈ ((base, 0) :: l).*1 -> x ∈ l -> hptr (h_mem h) c = x.1 ->
  exists n1 c' n2, (base, 0) :: l = n1 ++ c' :: x :: n2 /\ c'.1 = c.
Proof.
  intros Hfl Hc Hx E. rewrite list_elem_of_fmap in Hc. destruct Hc as (c' & -> & Hc).
  apply list_elem_of_split in Hc as (n1 & v & EN). pose proof Hfl as [Hl _ Hi _ Hb].
  rewrite EN in Hl. apply linked_app in Hl as [_ (Ec & _ & _)]. rewrite Ec in E.
  destruct v as [|y v]; simpl in E.
  - rewrite Forall_forall in Hi. destruct (Hi x Hx) as (? & _). lia.
  - exists n1, c', v. rewrite (flist_addr base start top h l x y); [done|done|set_solver| |done].
    rewrite EN. set_solver.
Qed.

Section scan.
Context (base start top nunits : Z) (h : heap) (l : list blk).
Hypothesis Hfl : flist base start top h l.
Hypothesis Hn : 1 <= nunits.

(** The blocks in the order malloc looks at them: after freep, to the end, from
    base up to freep. *)
Lemma scan_order :
  exists G f, (base, 0) :: l ≡ₚ G ++ [f] /\ f.1 = h_freep h /\ linked (h_mem h) G f.1 /\
    hptr (h_mem h) f.1 = next G f.1 /\ hsize (h_mem h) f.1 = f.2 /\ forall b, b ∈ G -> b.1 <> f.1.
Proof using Hfl.
  pose proof Hfl as [Hl _ _ Hp _]. pose proof (flist_sorted _ _ _ _ _ Hfl) as Hs.
  rewrite list_elem_of_fmap in Hp. destruct Hp as (f & -> & Hf). apply list_elem_of_split in Hf as (l1 & l2 & EN).
  assert (Hhd : next l1 f.1 = base).
  { change f.1 with (next (f :: l2) base). rewrite <- next_app, <- EN. done. }
  rewrite EN in Hl, Hs. apply linked_app in Hl as [Hl1 (Ef & Efs & Hl2)].
  exists (l2 ++ l1), f. split_and!; [|done| | |done|].
  - rewrite EN, <- Permutation_middle, (Permutation_app_comm l1). apply Permutation_cons_append.
  - apply linked_app. by rewrite Hhd.
  - by rewrite next_app, Hhd.
  - intros b Hb E. apply StronglySorted_app in Hs as (H1 & _ & H2). apply StronglySorted_cons in H2 as [H2 _].
    rewrite Forall_forall in H2. apply elem_of_app in Hb as [Hb|Hb].
    + specialize (H2 b Hb). simpl in H2. lia.
    + specialize (H1 b f Hb ltac:(left)). simpl in H1. lia.
Qed.

(** If a block fits, the loop arrives at one, with its predecessor in prevp. *)
Lemma scan_fit fuel :
  Exists (fun b => nunits <= b.2) l -> (S (length l) < fuel)%nat ->
  exists k n1 c x n2, (base, 0) :: l = n1 ++ c :: x :: n2 /\ nunits <= x.2 /\
    malloc_loop fuel nunits (h_freep h) (hptr (h_mem h) (h_freep h)) h = malloc_loop (S k) nunits c.1 x.1 h.
Proof using Hfl Hn.
  intros Hex Hf. destruct scan_order as (G & f & HP & Ef & HG & Hfp & Hfs & HGf).
  assert (HR : Exists (fun b => nunits <= b.2) (G ++ [f])) by (rewrite <- HP; by apply Exists_cons_tl).
  assert (Hlen : length (G ++ [f]) = S (length l)) by (by rewrite <- HP).
  destruct (list_find (fun b : blk => nunits <= b.2) (G ++ [f])) as [[i x]|] eqn:Efind.
  2: { apply list_find_None in Efind. apply Exists_exists in HR as (b & Hb & ?).
       rewrite Forall_forall in Efind. by destruct (Efind b Hb). }
  apply list_find_Some in Efind as (Hi & Hx & Hbefore).
  set (s := take i (G ++ [f])) in *.
  assert (Hil : (i < length (G ++ [f]))%nat) by (by apply lookup_lt_Some in Hi).
  rewrite length_app in Hil, Hlen. simpl in Hil, Hlen.
  assert (Hs : s = take i G) by (apply take_app_le; lia).
  assert (HGs : next G f.1 = next s x.1 /\ linked (h_mem h) s x.1).
  { rewrite <- (take_drop i G) in HG. rewrite <- (take_drop i G) at 1. rewrite Hs.
    apply linked_app in HG as [HG1 HG2]. rewrite next_app.
    assert (Ez : next (drop i G) f.1 = x.1); [|by rewrite <- Ez].
    destruct (decide (i < length G)%nat) as [Hlt|Hge].
    - rewrite lookup_app_l in Hi by done. by rewrite (drop_S _ _ _ Hi).
    - rewrite drop_ge by lia. rewrite lookup_app_r in Hi by lia.
      replace (i - length G)%nat with 0%nat in Hi by lia. by simplify_eq/=. }
  destruct HGs as [HGs HGl].
  assert (Hsk : forall b, b ∈ s -> b.2 < nunits /\ b.1 <> h_freep h).
  { intros b Hb. rewrite <- Ef. split.
    - apply list_elem_of_lookup in Hb as [j Hj]. apply lookup_take_Some in Hj as [Hj Hji].
      specialize (Hbefore j b Hj Hji). lia.
    - apply HGf. rewrite Hs in Hb. by apply subseteq_take in Hb. }
  assert (Hls : length s = i) by (rewrite Hs, length_take; lia).
  clearbody s.
  assert (E : malloc_loop fuel nunits f.1 (next s x.1) h = malloc_loop (S (fuel - i - 1)) nunits (lastp f.1 s) x.1 h).
  { replace fuel with (length s + S (fuel - i - 1))%nat at 1 by lia. by apply malloc_skip. }
  exists (fuel - i - 1)%nat. rewrite <- Ef, Hfp, HGs, E.
  assert (Hxl : x ∈ l).
  { assert (Hx' : x ∈ (base, 0) :: l) by (rewrite HP; by apply list_elem_of_lookup_2 in Hi).
    apply elem_of_cons in Hx' as [->|]; [simpl in Hx; lia|done]. }
  destruct (flist_pred base start top h l (lastp f.1 s) x Hfl) as (n1 & c & n2 & EN & Ec); [|done| |].
  - rewrite HP, fmap_app. pose proof (lastp_in s f.1) as [Hin|Hin]%elem_of_cons; [rewrite Hin; set_solver|].
    apply elem_of_app. left. rewrite Hs, list_elem_of_fmap in Hin. destruct Hin as (b & Eb & Hb). rewrite Hs, Eb.
    apply list_elem_of_fmap_2. by apply subseteq_take in Hb.
  - apply lastp_next; [by rewrite Hfp, HGs|done].
  - exists n1, c, x, n2. by rewrite Ec.
Qed.

(** If none fits, the loop arrives at freep after a full circle. *)
Lemma scan_none fuel :
  Forall (fun b => b.2 < nunits) l -> (S (length l) < fuel)%nat ->
  exists k prev, (fuel = length l + S k)%nat /\ hsize (h_mem h) (h_freep h) < nunits /\
    malloc_loop fuel nunits (h_freep h) (hptr (h_mem h) (h_freep h)) h = malloc_loop (S k) nunits prev (h_freep h) h.
Proof using Hfl Hn.
  intros Hno Hf. destruct scan_order as (G & f & HP & Ef & HG & Hfp & Hfs & HGf).
  assert (HR : Forall (fun b : blk => b.2 < nunits) (G ++ [f])).
  { rewrite <- HP. constructor; [simpl; lia|done]. }
  apply Forall_app in HR as [HR Hff]. inversion_clear Hff as [|? ? Hff' _]. rewrite Forall_forall in HR.
  assert (Hlen : length (G ++ [f]) = S (length l)) by (by rewrite <- HP). rewrite length_app in Hlen. simpl in Hlen.
  exists (fuel - length l - 1)%nat, (lastp f.1 G). rewrite <- Ef, Hfs, Hfp. split_and!; [lia|done|].
  replace fuel with (length G + S (fuel - length l - 1))%nat at 1 by lia. apply malloc_skip; [done|].
  intros b Hb. rewrite <- Ef. split; [by apply HR|by apply HGf].
Qed.
End scan.

(** * Taking a block *)

(** [m'] differs from [m] at most in base and in the blocks [l]. *)
Definition rframe (base : Z) (l : list blk) (m m' : mem) : Prop :=
  forall x, ~ base <= x < base + 16 -> Forall (misses x) l -> mrd m' x = mrd m x.

Lemma frame_rframe base l S m m' :
  frame S m m' -> (forall a, a ∈ S -> a = base \/ exists b, b ∈ l /\ b.1 <= a /\ a + 16 <= b.1 + 16 * b.2) ->
  rframe base l m m'.
Proof.
  intros H HS x Hx Hl. apply H. intros a Ha Hin. destruct (HS a Ha) as [->|(b & Hb & Hba)]; [done|].
  rewrite Forall_forall in Hl. apply (Hl b Hb). lia.
Qed.

Lemma rframe_trans base l m1 m2 m3 : rframe base l m1 m2 -> rframe base l m2 m3 -> rframe base l m1 m3.
Proof. intros H H' x Hx Hl. by rewrite H', H. Qed.

(** What malloc has done when it returns a block of [nunits] units at [p]. *)
Record taken (base start top nunits p : Z) (h h' : heap) (l l' : list blk) : Prop := mkTaken {
  tk_list : flist base start top h' l';
  tk_in : inside start top (p, nunits);
  tk_size : hsize (h_mem h') p = nunits;
  tk_disj : Forall (disj (p, nunits)) l';
  tk_total : total l = nunits + total l';
  tk_frame : rframe base l (h_mem h) (h_mem h');
  tk_others : forall d, 1 <= d.2 -> Forall (disj d) l -> disj d (p, nunits) /\ Forall (disj d) l';
}.

Section take.
Context (base start top nunits : Z) (h : heap) (n1 n2 g : list blk) (c x : blk).
Hypothesis Hfl : flist base start top h (g ++ x :: n2).
Hypothesis Hg : (base, 0) :: g = n1 ++ [c].
Hypothesis Hn : 1 <= nunits <= x.2.

(** The list and its blocks around [x]. *)
Lemma take_facts :
  linked (h_mem h) n1 c.1 /\ (hptr (h_mem h) c.1 = x.1 /\ hsize (h_mem h) c.1 = c.2) /\
  (hptr (h_mem h) x.1 = next n2 base /\ hsize (h_mem h) x.1 = x.2) /\ linked (h_mem h) n2 base /\
  (forall b, b ∈ n1 ++ [c] -> b.1 + 16 <= x.1) /\ (forall b, b ∈ n2 -> x.1 + 16 * x.2 < b.1) /\
  (forall b, b ∈ g -> b.1 + 16 * b.2 < x.1) /\ (forall b, b ∈ n1 -> b.1 + 16 <= c.1) /\ inside start top x.
Proof using Hfl Hg Hn.
  pose proof (flist_sorted _ _ _ _ _ Hfl) as Hs. destruct Hfl as [Hl Hgap Hi _ _].
  change (linked (h_mem h) (((base, 0) :: g) ++ x :: n2) base) in Hl.
  change (StronglySorted (fun b c : blk => b.1 + 16 <= c.1) (((base, 0) :: g) ++ x :: n2)) in Hs.
  rewrite Hg in Hl, Hs. rewrite <- app_assoc in Hl. apply linked_app in Hl as [Hl1 (E1 & E2 & E3 & E4 & Hl2)].
  apply StronglySorted_app in Hs as (Hs1 & Hs2 & _). apply StronglySorted_app in Hs2 as (Hs2 & _ & _).
  apply StronglySorted_app in Hgap as (Hg1 & _ & Hg2). apply StronglySorted_cons in Hg2 as [Hg2 _].
  rewrite Forall_forall in Hg2, Hi. split_and!; try done.
  - intros b Hb. apply (Hs1 b x Hb). left.
  - intros b Hb. apply (Hg1 b x Hb). left.
  - intros b Hb. apply (Hs2 b c Hb). left.
  - apply Hi. set_solver.
Qed.

(** The list without [x], and with the end of [x] cut off. *)
Lemma without_sorted : StronglySorted gap (g ++ n2).
Proof using Hfl.
  destruct Hfl as [_ H _ _ _]. apply StronglySorted_app in H as (H1 & H2 & H3). apply StronglySorted_cons in H3 as [_ H3].
  apply StronglySorted_app. split_and!; [|done|done]. intros b d Hb Hd. apply H1; [done|by right].
Qed.

Lemma cut_sorted k : k <= x.2 -> StronglySorted gap (g ++ (x.1, k) :: n2).
Proof using Hfl.
  intros Hk. destruct Hfl as [_ H _ _ _]. apply StronglySorted_app in H as (H1 & H2 & H3).
  apply StronglySorted_cons in H3 as [Hx H3]. rewrite Forall_forall in Hx.
  apply StronglySorted_app. split_and!; [|done|apply StronglySorted_cons; split; [|done]].
  - intros b d Hb Hd. apply elem_of_cons in Hd as [->|Hd]; [by apply (H1 b x Hb); left|apply H1; [done|by right]].
  - apply Forall_forall. intros d Hd. specialize (Hx d Hd). unfold gap in *. simpl. lia.
Qed.

Lemma freep_in l' : c.1 ∈ ((base, 0) :: g ++ l').*1.
Proof using Hg.
  change ((base, 0) :: g ++ l') with (((base, 0) :: g) ++ l'). rewrite Hg, !fmap_app.
  apply elem_of_app. left. apply elem_of_app. right. left.
Qed.

Lemma c_where : c.1 = base \/ exists b, b ∈ g ++ x :: n2 /\ b.1 <= c.1 /\ c.1 + 16 <= b.1 + 16 * b.2.
Proof using Hfl Hg Hn.
  assert (Hc : c ∈ (base, 0) :: g) by (rewrite Hg; set_solver). apply elem_of_cons in Hc as [->|Hc]; [by left|].
  right. exists c. destruct Hfl as [_ _ Hi _ _]. rewrite Forall_forall in Hi. destruct (Hi c ltac:(set_solver)) as (_ & ? & _).
  split; [set_solver|lia].
Qed.

(** An exact fit. *)
Lemma take_exact : x.2 = nunits ->
  taken base start top nunits x.1 h (mkHeap (set_ptr c.1 (hptr (h_mem h) x.1) (h_mem h)) c.1) (g ++ x :: n2) (g ++ n2).
Proof using Hfl Hg Hn.
  intros Ex. destruct take_facts as (Hl1 & (Ec1 & Ec2) & (Ex1 & Ex2) & Hl2 & Hlo & Hhi & Hgx & Hnc & Hxi).
  pose proof Hfl as [_ _ Hi _ Hb]. apply Forall_app in Hi as [Hi1 Hi2]. inversion_clear Hi2 as [|? ? _ Hi3].
  pose proof (frame_set_ptr c.1 (hptr (h_mem h) x.1) (h_mem h)) as Hfr.
  pose proof (Hlo c ltac:(set_solver)) as Hcx. destruct Hxi as (Hx1 & Hx2 & Hx3).
  split; cbn [h_mem].
  - split; [|apply without_sorted|by apply Forall_app|apply freep_in|done]. cbn [h_mem].
    change (linked (set_ptr c.1 (hptr (h_mem h) x.1) (h_mem h)) (((base, 0) :: g) ++ n2) base).
    rewrite Hg, <- app_assoc. apply linked_app. split; [|cbn [linked app]; split_and!].
    + apply (linked_frame _ _ _ _ _ Hfr); [|done]. intros b a Hb' Ha%list_elem_of_singleton. subst a. specialize (Hnc b Hb'). lia.
    + by rewrite hptr_set_ptr by apply hptr_range.
    + by rewrite hsize_set_ptr.
    + apply (linked_frame _ _ _ _ _ Hfr); [|done]. intros b a Hb' Ha%list_elem_of_singleton. subst a. specialize (Hhi b Hb'). lia.
  - unfold inside. simpl. lia.
  - destruct (frame_header _ _ _ x.1 Hfr) as [_ E]; [set_solver by lia|]. by rewrite E, Ex2.
  - rewrite <- Ex. apply Forall_forall. intros b [Hb'|Hb']%elem_of_app; unfold disj; simpl.
    + specialize (Hgx b Hb'). lia.
    + specialize (Hhi b Hb'). lia.
  - rewrite !total_app. simpl. lia.
  - apply (frame_rframe _ _ _ _ _ Hfr). intros a ->%list_elem_of_singleton. apply c_where.
  - intros d Hd [Hd1 Hd2]%Forall_app. inversion_clear Hd2 as [|? ? Hdx Hd3]. rewrite <- Ex, <- surjective_pairing.
    split; [done|by apply Forall_app].
Qed.

(** A larger block gives up its end. *)
Lemma take_tail : nunits < x.2 ->
  let p := x.1 + 16 * (x.2 - nunits) in
  taken base start top nunits p h
    (mkHeap (set_size p nunits (set_size x.1 (x.2 - nunits) (h_mem h))) c.1) (g ++ x :: n2) (g ++ (x.1, x.2 - nunits) :: n2).
Proof using Hfl Hg Hn.
  intros Hlt p. destruct take_facts as (Hl1 & (Ec1 & Ec2) & (Ex1 & Ex2) & Hl2 & Hlo & Hhi & Hgx & Hnc & Hxi).
  pose proof Hfl as [_ _ Hi _ Hb]. apply Forall_app in Hi as [Hi1 Hi2]. inversion_clear Hi2 as [|? ? _ Hi3].
  pose proof Hxi as (Hx1 & Hx2 & Hx3). set (m1 := set_size x.1 (x.2 - nunits) (h_mem h)).
  assert (Hf1 : frame [x.1; p] (h_mem h) m1) by (eapply frame_mono; [|apply frame_set_size]; set_solver).
  assert (Hf2 : frame [p] m1 (set_size p nunits m1)) by apply frame_set_size.
  assert (Hfr : frame [x.1; p] (h_mem h) (set_size p nunits m1)).
  { apply frame_trans with (1 := Hf1). eapply frame_mono; [|exact Hf2]. set_solver. }
  assert (Hout : forall b a, b ∈ (n1 ++ [c]) ++ n2 -> a ∈ [x.1; p] -> a + 16 <= b.1 \/ b.1 + 16 <= a).
  { intros b a [Hb'|Hb']%elem_of_app Ha; [specialize (Hlo b Hb')|specialize (Hhi b Hb')]; subst p; set_solver by lia. }
  destruct (frame_header _ _ _ x.1 Hf2) as [Exp Exs]; [subst p; set_solver by lia|].
  destruct (frame_header _ _ _ c.1 Hfr) as [Ecp Ecs]; [intros a; apply Hout; set_solver|].
  split; cbn [h_mem].
  - split; [|apply cut_sorted; lia| |apply freep_in|done]; cbn [h_mem].
    + change (linked (set_size p nunits m1) (((base, 0) :: g) ++ (x.1, x.2 - nunits) :: n2) base).
      rewrite Hg, <- app_assoc. apply linked_app. split; [|cbn [linked app next fst snd]; split_and!].
      * apply (linked_frame _ _ _ _ _ Hfr); [|done]. intros b a Hb'. apply Hout. set_solver.
      * by rewrite Ecp.
      * by rewrite Ecs.
      * unfold m1 in Exp |- *. by rewrite Exp, hptr_set_size.
      * unfold m1 in Exs |- *. rewrite Exs, hsize_set_size by lia. done.
      * apply (linked_frame _ _ _ _ _ Hfr); [|done]. intros b a Hb'. apply Hout. set_solver.
    + apply Forall_app. split; [done|]. constructor; [|done]. unfold inside. simpl. lia.
  - unfold inside, p. simpl. lia.
  - by rewrite hsize_set_size by lia.
  - apply Forall_forall. unfold disj, p. simpl. intros b [Hb'|[->|Hb']%elem_of_cons]%elem_of_app.
    + specialize (Hgx b Hb'). lia.
    + simpl. lia.
    + specialize (Hhi b Hb'). lia.
  - rewrite !total_app. simpl. lia.
  - apply (frame_rframe _ _ _ _ _ Hfr). intros a Ha. right. exists x. split; [set_solver|]. subst p. set_solver by lia.
  - intros d Hd [Hd1 Hd2]%Forall_app. inversion_clear Hd2 as [|? ? Hdx Hd3]. unfold disj in Hdx |- *. subst p. simpl.
    split; [lia|]. apply Forall_app. split; [done|]. constructor; [unfold disj; simpl; lia|done].
Qed.
End take.

(** A fitting block is taken from the list. *)
Lemma malloc_found base start top nunits h l fuel :
  flist base start top h l -> 1 <= nunits -> Exists (fun b => nunits <= b.2) l -> (S (length l) < fuel)%nat ->
  exists p h' l', malloc_loop fuel nunits (h_freep h) (hptr (h_mem h) (h_freep h)) h = mret (hadd p 1, h') /\
    taken base start top nunits p h h' l l'.
Proof.
  intros Hfl Hn Hex Hf. destruct (scan_fit base start top nunits h l Hfl Hn fuel Hex Hf) as (k & n1 & c & x & n2 & EN & Hx & E).
  assert (Hg : exists g, (base, 0) :: g = n1 ++ [c] /\ l = g ++ x :: n2).
  { destruct n1 as [|b n1]; simplify_eq/=; [by exists []|]. exists (n1 ++ [c]). by rewrite <- app_assoc. }
  destruct Hg as (g & Hg & ->). rewrite E.
  destruct (take_facts base start top nunits h n1 n2 g c x Hfl Hg ltac:(lia)) as (_ & _ & (_ & Ex) & _ & _ & _ & _ & _ & Hxi).
  pose proof Hxi as (Hx1 & Hx2 & Hx3). pose proof (fl_base _ _ _ _ _ Hfl) as (Hb1 & Hb2 & Hb3).
  cbn [malloc_loop]. rewrite Ex, Z.geb_leb, (proj2 (Z.leb_le nunits x.2)) by done.
  destruct (Z.eqb_spec x.2 nunits) as [En|En].
  - eexists _, _, _. split; [done|]. by apply take_exact with n1.
  - rewrite u32_small by lia. rewrite hsize_set_size, (hadd_small x.1) by lia.
    eexists _, _, _. split; [done|]. apply (take_tail base start top nunits h n1 n2 g c x); [done|done|lia|lia].
Qed.

(** * Getting more memory *)

(** The units morecore asks for. *)
Definition more (nunits : Z) : Z := if nunits <? 4096 then 4096 else nunits.

Lemma flist_more base start top top' h l v :
  flist base start top h l -> start <= top -> top <= top' <= 2 ^ 36 ->
  flist base start top' (mkHeap (set_size top v (h_mem h)) (h_freep h)) l.
Proof.
  intros [Hl Hg Hi Hp Hb] Ht Htop. split; [|done| |done|lia]; cbn [h_mem].
  - apply (linked_frame _ _ _ _ _ (frame_set_size top v (h_mem h))); [|done].
    intros b a Hb' ->%list_elem_of_singleton. right. rewrite Forall_forall in Hi.
    apply elem_of_cons in Hb' as [->|Hb']; [simpl; lia|]. destruct (Hi b Hb') as (? & ? & ?). lia.
  - eapply Forall_impl; [exact Hi|]. unfold inside. intros b ?. lia.
Qed.

Lemma morecore_denied fuel nunits h d rs :
  0 <= nunits -> more nunits * 16 < 2 ^ 31 ->
  feed (morecore fuel nunits h) ((-1, d) :: rs) = ([Csbrk (more nunits * 16)], UDone (0, h), rs).
Proof.
  intros Hn Hm. unfold morecore, sbrk, sys. fold (more nunits). rewrite ubind_sys. cbn [feed]. rewrite ubind_ret.
  cbn [fst]. rewrite Z.eqb_refl. unfold sizeof_Header, i32. rewrite sext_small; [done|lia|].
  unfold more in *. destruct (nunits <? 4096); lia.
Qed.

Lemma morecore_granted base start top nunits h l fuel d rs :
  flist base start top h l -> start <= top -> 1 <= nunits -> more nunits * 16 < 2 ^ 31 ->
  top + more nunits * 16 <= 2 ^ 36 -> (S (length l) < fuel)%nat ->
  let b := (top, more nunits) in
  exists h' l', feed (morecore fuel nunits h) ((top, d) :: rs) = ([Csbrk (more nunits * 16)], UDone (h_freep h', h'), rs) /\
    flist base start (top + more nunits * 16) h' l' /\ total l' = total (b :: l) /\
    rframe base (b :: l) (h_mem h) (h_mem h') /\
    (forall d, 1 <= d.2 -> Forall (disj d) (b :: l) -> Forall (disj d) l') /\
    (forall x, Forall (misses x) (b :: l) -> Forall (misses x) l') /\
    Exists (fun c => nunits <= c.2) l' /\ (length l' <= S (length l))%nat.
Proof.
  intros Hfl Hst Hn Hm Htop Hf b. assert (Hm1 : nunits <= more nunits /\ 4096 <= more nunits).
  { unfold more. destruct (Z.ltb_spec nunits 4096); lia. }
  pose proof (fl_base _ _ _ _ _ Hfl) as (Hb1 & Hb2 & Hb3). pose proof (fl_in _ _ _ _ _ Hfl) as Hi.
  set (h1 := mkHeap (set_size top (more nunits) (h_mem h)) (h_freep h)).
  destruct (free_ok base start (top + more nunits * 16) h1 l b fuel) as (h' & l' & E & Hfl' & Ht & Hfr & Hd & Hx & He & Hlen).
  - apply (flist_more base start top); [done|done|lia].
  - unfold b, h1. simpl. apply hsize_set_size. lia.
  - unfold inside, b. simpl. lia.
  - eapply Forall_impl; [exact Hi|]. unfold inside, disj, b. simpl. intros c ?. lia.
  - done.
  - exists h', l'. split_and!; [|done|change (total (b :: l)) with (b.2 + total l); lia| | | | |done].
    + unfold morecore, sbrk, sys. fold (more nunits). rewrite ubind_sys. cbn [feed]. rewrite ubind_ret.
      cbn [fst]. rewrite (u64_small top), (proj2 (Z.eqb_neq top _)); [|change (u64 (-1)) with (2 ^ 64 - 1); lia|lia].
      unfold b in E. cbn [fst] in E. fold h1. rewrite E. unfold sizeof_Header, i32. rewrite sext_small; [done|lia|lia].
    + apply rframe_trans with (h_mem h1).
      * apply (frame_rframe _ _ _ _ _ (frame_set_size top (more nunits) (h_mem h))).
        intros a ->%list_elem_of_singleton. right. exists b. split; [left|]. simpl. lia.
      * apply (frame_rframe _ _ _ _ _ Hfr). intros a [->|Ha]%elem_of_cons; [by left|]. right.
        change (b.1 :: l.*1) with ((b :: l).*1) in Ha. rewrite list_elem_of_fmap in Ha. destruct Ha as (c & -> & Hc).
        exists c. split; [done|]. rewrite Forall_forall in Hi.
        apply elem_of_cons in Hc as [->|Hc]; [simpl; lia|]. destruct (Hi c Hc) as (_ & ? & _). lia.
    + intros c Hc Hcl. inversion_clear Hcl. by apply Hd.
    + intros x Hxl. inversion_clear Hxl. by apply Hx.
    + eapply Exists_impl; [exact He|]. simpl. lia.
Qed.
