(* ===== verification/UmallocClient.v ===== *)
(** A program that uses the allocator of user/umalloc.c, and what it can rely on. *)

From stdpp Require Import sorting.
From S2P Require Import Prelude Memory Uprog Umalloc UmallocSpec UmallocProps.

(** * The program *)

(** The allocator's heap, the blocks the program holds, the program break. *)
Record ust := mkUst { us_heap : heap; us_used : list blk; us_top : Z }.

(** What the program does: malloc, where the kernel grants more memory or not,
    free of a block it holds, a write into a block it holds. *)
Inductive uop := OMalloc (nbytes : Z) (grant : bool) | OFree (i : nat) | OWrite (i : nat) (off v : Z).

(** The bytes malloc asks the kernel for when it finds no block. *)
Definition need (nbytes : Z) : Z := more (units nbytes) * 16.

Definition op_ok (st : ust) (op : uop) : Prop :=
  match op with
  | OMalloc n _ => 0 <= n < 2 ^ 32 /\ need n < 2 ^ 31 /\ us_top st + need n <= 2 ^ 36
  | OFree i => is_Some (us_used st !! i)
  | OWrite i off _ => exists b, us_used st !! i = Some b /\ 0 <= off < 16 * (b.2 - 1)
  end.

(** The break after a call of malloc. *)
Definition new_top (tr : list call) (grant : bool) (top : Z) : Z :=
  match tr with Csbrk n :: _ => if grant then top + n else top | _ => top end.

(** One more round than the blocks the heap can be cut into, for two searches. *)
Definition fuel_of (start : Z) (st : ust) : nat := (2 * Z.to_nat ((us_top st - start) / 16) + 8)%nat.

Definition do_uop (base start : Z) (op : uop) (st : ust) : option ust :=
  let fuel := fuel_of start st in
  match op with
  | OMalloc n g =>
      match feed (malloc fuel base n (us_heap st)) [(if g then us_top st else -1, [])] with
      | (tr, UDone (p, h'), _) =>
          Some (mkUst h' (if p =? 0 then us_used st else (hadd p (-1), units n) :: us_used st)
                  (new_top tr g (us_top st)))
      | _ => None
      end
  | OFree i =>
      b ← us_used st !! i;
      match feed (free fuel (hadd b.1 1) (us_heap st)) [] with
      | (_, UDone h', _) => Some (mkUst h' (delete i (us_used st)) (us_top st))
      | _ => None
      end
  | OWrite i off v =>
      b ← us_used st !! i;
      let h := us_heap st in
      Some (mkUst (mkHeap (mwr (b.1 + 16 + off) v (h_mem h)) (h_freep h)) (us_used st) (us_top st))
  end.

(** The states a program reaches that starts with freep = 0 and the break at
    [start]; base is in the data segment, below the heap. *)
Inductive ureach (base start : Z) : ust -> Prop :=
| ureach_init m : 0 < base -> base + 16 <= start -> start <= 2 ^ 36 -> ureach base start (mkUst (mkHeap m 0) [] start)
| ureach_op st op st' : ureach base start st -> op_ok st op -> do_uop base start op st = Some st' -> ureach base start st'.

(** * The invariant *)

Record uinv (base start : Z) (st : ust) (l : list blk) : Prop := mkUinv {
  ui_list : flist base start (us_top st) (us_heap st) l;
  ui_top : start <= us_top st;
  ui_in : Forall (inside start (us_top st)) (us_used st);
  ui_size : Forall (fun b => hsize (h_mem (us_heap st)) b.1 = b.2) (us_used st);
  ui_disj : StronglySorted disj (us_used st);
  ui_free : forall b, b ∈ us_used st -> Forall (disj b) l;
  ui_total : start + 16 * (total l + total (us_used st)) = us_top st;
}.

(** The heap as malloc finds it, base initialised. *)
Definition primed (base : Z) (h : heap) : heap :=
  if h_freep h =? 0 then mkHeap (set_size base 0 (set_ptr base base (h_mem h))) base else h.
Definition prime (base : Z) (st : ust) : ust := mkUst (primed base (us_heap st)) (us_used st) (us_top st).

Lemma malloc_primed fuel base n h : base <> 0 -> malloc fuel base n h = malloc fuel base n (primed base h).
Proof.
  intros Hb. unfold malloc, primed. destruct (Z.eqb_spec (h_freep h) 0) as [E|E]; cbn [h_freep].
  - by rewrite (proj2 (Z.eqb_neq base 0)).
  - by rewrite (proj2 (Z.eqb_neq _ 0)) by done.
Qed.

Lemma prime_frame base st : rframe base [] (h_mem (us_heap st)) (h_mem (us_heap (prime base st))).
Proof.
  unfold prime, primed. destruct (_ =? _); cbn [us_heap h_mem]; [|by intros x].
  apply (frame_rframe _ _ [base]); [|set_solver].
  apply frame_trans with (set_ptr base base (h_mem (us_heap st))); [apply frame_set_ptr|apply frame_set_size].
Qed.

Lemma prime_fresh base start st :
  0 < base -> base + 16 <= start -> start <= 2 ^ 36 -> h_freep (us_heap st) = 0 -> us_used st = [] -> us_top st = start ->
  uinv base start (prime base st) [].
Proof.
  intros Hb Hs Ht E Eu Et. unfold prime, primed. rewrite E, Z.eqb_refl, Eu, Et.
  split; cbn [us_heap us_used us_top]; [|lia|constructor|constructor|constructor|set_solver|simpl; lia].
  split; cbn [h_mem h_freep]; [|constructor|constructor|set_solver|lia]. cbn [linked next fst snd].
  rewrite hptr_set_size, hptr_set_ptr, hsize_set_size by lia. done.
Qed.

Lemma inside_length start top l : Forall (inside start top) l -> Z.of_nat (length l) <= total l.
Proof. induction 1 as [|b l (_ & Hb & _) _ IH]; simpl; [lia|]. unfold total in *. simpl. lia. Qed.

Lemma uinv_fuel base start st l : uinv base start st l -> (2 * length l + 8 <= fuel_of start st)%nat.
Proof.
  intros [Hl Ht Hi _ _ _ Htot]. pose proof (inside_length _ _ _ (fl_in _ _ _ _ _ Hl)) as H1.
  pose proof (inside_length _ _ _ Hi) as H2. unfold fuel_of.
  replace (us_top st - start) with ((total l + total (us_used st)) * 16) by lia. rewrite Z.div_mul by lia. lia.
Qed.

(** * malloc *)

Lemma units_ok n : 0 <= n < 2 ^ 32 -> 1 <= units n /\ n <= 16 * (units n - 1).
Proof.
  intros Hn. unfold units, sizeof_Header.
  pose proof (Z.div_mod (n + 16 - 1) 16 ltac:(lia)) as Hd. pose proof (Z.mod_pos_bound (n + 16 - 1) 16 ltac:(lia)).
  assert (0 <= (n + 16 - 1) / 16) by (apply Z.div_pos; lia). rewrite u32_small by lia. lia.
Qed.

Lemma freep_nonzero base start top h l : flist base start top h l -> h_freep h <> 0.
Proof.
  intros [_ _ Hi Hp Hb]. rewrite list_elem_of_fmap in Hp. destruct Hp as (b & -> & Hin). rewrite Forall_forall in Hi.
  apply elem_of_cons in Hin as [->|Hin]; [simpl; lia|]. destruct (Hi b Hin). lia.
Qed.

(** What a call of malloc does, in the three cases: a block is found; there is
    none and the kernel refuses; there is none and the kernel gives more. *)
Lemma malloc_live base start top n h l fuel d :
  flist base start top h l -> start <= top -> 1 <= units n -> need n < 2 ^ 31 -> top + need n <= 2 ^ 36 ->
  (2 * length l + 8 <= fuel)%nat ->
  (exists p h' l', (forall rs, feed (malloc fuel base n h) rs = ([], UDone (hadd p 1, h'), rs)) /\
     taken base start top (units n) p h h' l l') \/
  (feed (malloc fuel base n h) [(-1, d)] = ([Csbrk (need n)], UDone (0, h), []) /\
   exists p h' l', feed (malloc fuel base n h) [(top, d)] = ([Csbrk (need n)], UDone (hadd p 1, h'), []) /\
     taken base start (top + need n) (units n) p h h' ((top, more (units n)) :: l) l').
Proof.
  intros Hfl Hst Hn Hneed Htop Hf. pose proof (fl_base _ _ _ _ _ Hfl) as (Hb & Hb2 & Hb3).
  pose proof (freep_nonzero _ _ _ _ _ Hfl) as Hp0.
  unfold malloc. rewrite (proj2 (Z.eqb_neq _ 0) Hp0). set (nu := units n) in *. unfold need in *. fold nu in Hneed, Htop |- *.
  destruct (decide (Exists (fun b => nu <= b.2) l)) as [Hex|Hno].
  - left. destruct (malloc_found base start top nu h l fuel Hfl Hn Hex ltac:(lia)) as (p & h' & l' & E & Ht).
    exists p, h', l'. split; [|done]. intros rs. by rewrite E.
  - right. rewrite <- Forall_Exists_neg in Hno.
    assert (Hno' : Forall (fun b : blk => b.2 < nu) l) by (eapply Forall_impl; [exact Hno|]; simpl; lia).
    destruct (scan_none base start top nu h l Hfl Hn fuel Hno' ltac:(lia)) as (k & prev & Ek & Hs & E). rewrite E.
    cbn [malloc_loop]. rewrite Z.geb_leb, (proj2 (Z.leb_gt nu _)) by done. rewrite Z.eqb_refl. split.
    + by rewrite (feed_bind _ _ _ _ _ _ (morecore_denied (S k) nu h d [] ltac:(lia) Hneed)).
    + destruct (morecore_granted base start top nu h l (S k) d [] Hfl Hst Hn Hneed Htop ltac:(lia))
        as (h1 & l1 & E1 & Hfl1 & Ht1 & Hr1 & Hd1 & Hx1 & He1 & Hlen).
      rewrite (feed_bind _ _ _ _ _ _ E1).
      destruct (malloc_found base start (top + more nu * 16) nu h1 l1 k Hfl1 Hn He1 ltac:(lia)) as (p & h' & l' & E2 & Ht2).
      pose proof (freep_nonzero _ _ _ _ _ Hfl1) as Hp1.
      rewrite (proj2 (Z.eqb_neq _ 0) Hp1), E2. exists p, h', l'. split; [done|].
      destruct Ht2 as [? ? ? ? Htt Htf Hto]. split; [done..| | |].
      * by rewrite <- Ht1.
      * intros x Hxb Hxl. rewrite Htf by auto. by apply Hr1.
      * intros c Hc Hcl. auto.
Qed.

(** * Any sequence of operations *)

Definition uok (base start : Z) (st : ust) : Prop :=
  (0 < base /\ base + 16 <= start) /\ (h_freep (us_heap st) = 0 -> us_used st = []) /\
  exists l, uinv base start (prime base st) l.

Lemma prime_live base start st l : uinv base start st l -> prime base st = st.
Proof.
  intros [Hl _ _ _ _ _ _]. apply freep_nonzero in Hl. unfold prime, primed.
  rewrite (proj2 (Z.eqb_neq _ 0) Hl). by destruct st.
Qed.

Lemma uinv_uok base start st l : uinv base start st l -> uok base start st.
Proof.
  intros H. pose proof (freep_nonzero _ _ _ _ _ (ui_list _ _ _ _ H)) as Hp.
  pose proof (fl_base _ _ _ _ _ (ui_list _ _ _ _ H)) as (? & ? & _). split; [done|]. split; [done|].
  exists l. by rewrite (prime_live _ _ _ _ H).
Qed.

Lemma disj_misses b c x : disj b c -> b.1 <= x < b.1 + 16 * b.2 -> misses x c.
Proof. unfold disj, misses. lia. Qed.

Lemma used_safe base start st l b x :
  uinv base start st l -> b ∈ us_used st -> b.1 <= x < b.1 + 16 * b.2 ->
  ~ base <= x < base + 16 /\ Forall (misses x) l /\ x < us_top st.
Proof.
  intros H Hb Hx. pose proof (ui_in _ _ _ _ H) as Hi. rewrite Forall_forall in Hi. destruct (Hi b Hb) as (? & ? & ?).
  pose proof (fl_base _ _ _ _ _ (ui_list _ _ _ _ H)) as (? & ? & ?). split; [lia|]. split; [|lia].
  eapply Forall_impl; [exact (ui_free _ _ _ _ H b Hb)|]. intros c Hc. by apply (disj_misses b).
Qed.

(** [h'] agrees with the heap of [st] on the blocks the program holds. *)
Definition keeps (st : ust) (h' : heap) : Prop :=
  forall b x, b ∈ us_used st -> b.1 <= x < b.1 + 16 * b.2 -> mrd (h_mem h') x = mrd (h_mem (us_heap st)) x.

Lemma keeps_size st h' base start l :
  uinv base start st l -> keeps st h' -> Forall (fun b => hsize (h_mem h') b.1 = b.2) (us_used st).
Proof.
  intros H Hk. apply Forall_forall. intros b Hb. pose proof (ui_size _ _ _ _ H) as Hs. rewrite Forall_forall in Hs.
  pose proof (ui_in _ _ _ _ H) as Hi. rewrite Forall_forall in Hi. destruct (Hi b Hb) as (_ & ? & _).
  rewrite <- (Hs b Hb). apply load_ext. intros x Hx. apply (Hk b); [done|lia].
Qed.

Lemma uinv_malloc base start st l n top' p h' l0 l' :
  uinv base start st l -> us_top st <= top' -> 1 <= units n ->
  taken base start top' (units n) p (us_heap st) h' l0 l' ->
  (forall d x, d ∈ us_used st -> d.1 <= x < d.1 + 16 * d.2 -> Forall (misses x) l0) ->
  (forall d, d ∈ us_used st -> Forall (disj d) l0) -> top' - us_top st = 16 * (total l0 - total l) ->
  uinv base start (mkUst h' ((p, units n) :: us_used st) top') l' /\ keeps st h'.
Proof.
  intros H Ht Hn [Hl Hi Hs Hd Htot Hf Ho] Hm Hdl Htt.
  assert (Hk : keeps st h').
  { intros b x Hb Hx. apply Hf; [|by apply (Hm b)]. by destruct (used_safe _ _ _ _ b x H Hb Hx). }
  split; [|done]. pose proof (ui_in _ _ _ _ H) as Hin. pose proof Hin as Hin'. rewrite Forall_forall in Hin'.
  assert (Ho' : forall b, b ∈ us_used st -> disj b (p, units n) /\ Forall (disj b) l').
  { intros b Hb. apply Ho; [|by apply Hdl]. by destruct (Hin' b Hb) as (_ & ? & _). }
  split; cbn [us_heap us_used us_top]; [done|pose proof (ui_top _ _ _ _ H); lia| | | | |].
  - constructor; [done|]. eapply Forall_impl; [exact Hin|]. unfold inside. intros b ?. lia.
  - constructor; [done|]. by apply (keeps_size st h' base start l).
  - apply StronglySorted_cons. split; [|apply (ui_disj _ _ _ _ H)]. apply Forall_forall. intros b Hb.
    destruct (Ho' b Hb) as [Hd' _]. unfold disj in *. simpl in *. lia.
  - intros b [->|Hb]%elem_of_cons; [done|]. by apply Ho'.
  - pose proof (ui_total _ _ _ _ H). change (total ((p, units n) :: us_used st)) with (units n + total (us_used st)). lia.
Qed.

(** What an operation does for the program. *)
Definition op_effect (op : uop) (st st' : ust) : Prop :=
  match op with
  | OMalloc n g =>
      (g = false /\ us_used st' = us_used st) \/
      exists p, us_used st' = (p, units n) :: us_used st /\ n <= 16 * (units n - 1)
  | OFree i => us_used st' = delete i (us_used st)
  | OWrite i off v => us_used st' = us_used st
  end.

(** The contents of the blocks the program keeps, but for the byte it writes. *)
Definition op_keeps (op : uop) (st st' : ust) : Prop :=
  forall b x, b ∈ us_used st -> b ∈ us_used st' -> b.1 <= x < b.1 + 16 * b.2 ->
  mrd (h_mem (us_heap st')) x =
    match op with
    | OWrite i off v => if decide (Some x = (fun c : blk => c.1 + 16 + off) <$> us_used st !! i) then u8 v else mrd (h_mem (us_heap st)) x
    | _ => mrd (h_mem (us_heap st)) x
    end.

Lemma uok_malloc base start st n g :
  uok base start st -> op_ok st (OMalloc n g) ->
  exists st', do_uop base start (OMalloc n g) st = Some st' /\ uok base start st' /\
    op_effect (OMalloc n g) st st' /\ op_keeps (OMalloc n g) st st'.
Proof.
  intros ((Hb & Hb2) & _ & l & H) (Hn & Hneed & Htop). cbn [do_uop].
  rewrite malloc_primed by lia. set (st1 := prime base st) in *.
  destruct (units_ok n Hn) as [Hu1 Hu2]. pose proof (ui_top _ _ _ _ H) as Hst. change (us_top st) with (us_top st1) in *.
  assert (Hk1 : forall h', keeps st1 h' -> forall b x, b ∈ us_used st -> b.1 <= x < b.1 + 16 * b.2 ->
    mrd (h_mem h') x = mrd (h_mem (us_heap st)) x).
  { intros h' Hk b x Hb' Hx. rewrite (Hk b x Hb' Hx). apply prime_frame; [|constructor].
    by destruct (used_safe _ _ _ _ b x H Hb' Hx). }
  assert (Hpp : forall top' p h' l0 l', taken base start top' (units n) p (us_heap st1) h' l0 l' ->
    hadd p 1 <> 0 /\ hadd (hadd p 1) (-1) = p).
  { intros top' p h' l0 l' [Hl (Hi1 & Hi2 & Hi3) _ _ _ _ _]. pose proof (fl_base _ _ _ _ _ Hl) as (? & ? & ?). simpl in *.
    rewrite (hadd_small p 1) by lia. split; [lia|]. unfold hadd, sizeof_Header. rewrite u64_small; lia. }
  assert (Hself : forall d x, d ∈ us_used st1 -> d.1 <= x < d.1 + 16 * d.2 -> Forall (misses x) l).
  { intros d x Hd Hx. by destruct (used_safe _ _ _ _ d x H Hd Hx) as (_ & ? & _). }
  pose proof (uinv_fuel _ _ _ _ H) as Hf. change (fuel_of start st1) with (fuel_of start st) in Hf.
  change (primed base (us_heap st)) with (us_heap st1).
  destruct (malloc_live base start (us_top st1) n (us_heap st1) l (fuel_of start st) [] (ui_list _ _ _ _ H) Hst Hu1 Hneed Htop Hf)
    as [(p & h' & l' & E & Ht)|(E0 & p & h' & l' & E & Ht)].
  - rewrite E. destruct (Hpp _ _ _ _ _ Ht) as [Hp0 Hp1]. rewrite (proj2 (Z.eqb_neq _ 0) Hp0), Hp1. eexists. split; [done|].
    destruct (uinv_malloc base start st1 l n (us_top st1) p h' l l' H) as [H' Hk]; [lia|done|done|done|apply (ui_free _ _ _ _ H)|lia|].
    split; [by apply uinv_uok in H'|]. split; [right; eauto|]. intros b x Hb' _ Hx. by apply (Hk1 h' Hk b).
  - destruct g.
    + rewrite E. destruct (Hpp _ _ _ _ _ Ht) as [Hp0 Hp1]. rewrite (proj2 (Z.eqb_neq _ 0) Hp0), Hp1. eexists. split; [done|].
      destruct (uinv_malloc base start st1 l n (us_top st1 + need n) p h' ((us_top st1, more (units n)) :: l) l' H) as [H' Hk].
      * unfold need, more. destruct (_ <? _); lia.
      * done.
      * done.
      * intros d x Hd Hx. constructor; [|by apply (Hself d)]. unfold misses. cbn [fst snd].
        destruct (used_safe _ _ _ _ d x H Hd Hx) as (_ & _ & ?). lia.
      * intros d Hd. constructor; [|by apply (ui_free _ _ _ _ H)]. pose proof (ui_in _ _ _ _ H) as Hi. rewrite Forall_forall in Hi.
        destruct (Hi d Hd) as (_ & _ & ?). unfold disj. cbn [fst snd]. lia.
      * unfold need. change (total (_ :: l)) with (more (units n) + total l). lia.
      * split; [by apply uinv_uok in H'|]. split; [right; eauto|]. intros b x Hb' _ Hx. by apply (Hk1 h' Hk b).
    + rewrite E0. eexists. split; [done|]. change (if 0 =? 0 then us_used st else _) with (us_used st1).
      cbn [new_top]. split; [|split; [by left|]].
      * apply (uinv_uok _ _ _ l). by destruct st1.
      * intros b x Hb' _ Hx. apply (Hk1 (us_heap st1)) with b; [|done|done]. by intros c y.
Qed.

Lemma uok_free base start st i :
  uok base start st -> op_ok st (OFree i) ->
  exists st', do_uop base start (OFree i) st = Some st' /\ uok base start st' /\
    op_effect (OFree i) st st' /\ op_keeps (OFree i) st st'.
Proof.
  intros ((Hb & Hb2) & Hz & l & H) [b Eb].
  assert (Hp : h_freep (us_heap st) <> 0) by (intros E; by rewrite (Hz E) in Eb).
  replace (prime base st) with st in H.
  2: { unfold prime, primed. rewrite (proj2 (Z.eqb_neq _ 0) Hp). by destruct st. }
  pose proof (list_elem_of_lookup_2 _ _ _ Eb) as Hbin.
  pose proof (ui_in _ _ _ _ H) as Hi. pose proof (ui_size _ _ _ _ H) as Hs. pose proof (ui_disj _ _ _ _ H) as Hd.
  destruct (free_ok base start (us_top st) (us_heap st) l b (fuel_of start st)) as (h' & l' & E & Hfl & Ht & Hfr & Ho & _ & _ & _).
  { apply (ui_list _ _ _ _ H). } { rewrite Forall_forall in Hs. by apply Hs. } { rewrite Forall_forall in Hi. by apply Hi. }
  { by apply (ui_free _ _ _ _ H). } { pose proof (uinv_fuel _ _ _ _ H). lia. }
  cbn [do_uop]. rewrite Eb. cbn [mbind option_bind]. rewrite E. eexists. split; [done|].
  rewrite (delete_take_drop (us_used st) i). set (u1 := take i (us_used st)) in *. set (u2 := drop (S i) (us_used st)) in *.
  assert (Eu : us_used st = u1 ++ b :: u2) by (symmetry; by apply take_drop_middle).
  rewrite Eu in Hi, Hs, Hd. apply Forall_app in Hi as [Hi1 Hi2]. inversion_clear Hi2 as [|? ? Hib Hi3].
  apply StronglySorted_app in Hd as (Hd1 & Hd2 & Hd3). apply StronglySorted_cons in Hd3 as [Hd3 Hd4]. rewrite Forall_forall in Hd3.
  assert (Hdb : forall c, c ∈ u1 ++ u2 -> disj c b).
  { intros c [Hc|Hc]%elem_of_app; [apply Hd1; [done|left]|]. specialize (Hd3 c Hc). unfold disj in *. lia. }
  assert (Hk : keeps (mkUst (us_heap st) (u1 ++ u2) (us_top st)) h').
  { intros c x Hc Hx. cbn [us_used us_heap] in *. assert (Hc' : c ∈ us_used st) by (rewrite Eu; set_solver).
    destruct (used_safe _ _ _ _ c x H Hc' Hx) as (Hxb & Hxl & _). apply Hfr. intros a [->|Ha]%elem_of_cons; [done|].
    pose proof (disj_misses c b x (Hdb c Hc) Hx) as Hxm. unfold misses in Hxm. destruct Hib as (_ & ? & _).
    apply elem_of_cons in Ha as [->|Ha]; [lia|]. rewrite list_elem_of_fmap in Ha. destruct Ha as (d & -> & Hdl).
    rewrite Forall_forall in Hxl. specialize (Hxl d Hdl). unfold misses in Hxl.
    pose proof (fl_in _ _ _ _ _ (ui_list _ _ _ _ H)) as Hil. rewrite Forall_forall in Hil. destruct (Hil d Hdl) as (_ & ? & _). lia. }
  assert (H' : uinv base start (mkUst h' (u1 ++ u2) (us_top st)) l').
  { split; cbn [us_heap us_used us_top]; [done|apply (ui_top _ _ _ _ H)|by apply Forall_app| | | |].
    - apply Forall_forall. intros c Hc. rewrite Forall_forall in Hs. rewrite <- (Hs c ltac:(set_solver)).
      apply load_ext. intros x Hx. apply (Hk c); [done|].
      assert (inside start (us_top st) c) as (_ & ? & _); [|lia].
      apply elem_of_app in Hc as [Hc|Hc]; [rewrite Forall_forall in Hi1|rewrite Forall_forall in Hi3]; auto.
    - apply StronglySorted_app. split_and!; [|done|done]. intros c d Hc Hdd. apply Hd1; [done|by right].
    - intros c Hc. assert (Hc' : c ∈ us_used st) by (rewrite Eu; set_solver). apply Ho; [|by apply Hdb|by apply (ui_free _ _ _ _ H)].
      assert (inside start (us_top st) c) as (_ & ? & _); [|lia].
      apply elem_of_app in Hc as [Hc|Hc]; [rewrite Forall_forall in Hi1|rewrite Forall_forall in Hi3]; auto.
    - pose proof (ui_total _ _ _ _ H) as Htt. rewrite Eu in Htt. rewrite !total_app in *. simpl in Htt. fold (total u2) in Htt. lia. }
  split; [by apply uinv_uok in H'|]. split; [symmetry; apply delete_take_drop|]. intros c x Hc Hc' Hx. by apply (Hk c).
Qed.

Lemma pairwise_disj (l : list blk) i j b c :
  StronglySorted disj l -> l !! i = Some b -> l !! j = Some c -> i <> j -> disj b c.
Proof.
  intros Hs. revert i j. induction Hs as [|d l Hs IH Hd]; intros i j Hi Hj Hij; [done|].
  rewrite Forall_forall in Hd. destruct i as [|i], j as [|j]; simplify_eq/=; [|..|apply (IH i j); [done|done|lia]].
  - apply Hd. by apply list_elem_of_lookup_2 in Hj.
  - apply list_elem_of_lookup_2, Hd in Hi. unfold disj in *. lia.
Qed.

Lemma uok_write base start st i off v :
  uok base start st -> op_ok st (OWrite i off v) ->
  exists st', do_uop base start (OWrite i off v) st = Some st' /\ uok base start st' /\
    op_effect (OWrite i off v) st st' /\ op_keeps (OWrite i off v) st st'.
Proof.
  intros ((Hb & Hb2) & Hz & l & H) (b & Eb & Hoff).
  assert (Hp : h_freep (us_heap st) <> 0) by (intros E; by rewrite (Hz E) in Eb).
  replace (prime base st) with st in H.
  2: { unfold prime, primed. rewrite (proj2 (Z.eqb_neq _ 0) Hp). by destruct st. }
  pose proof (list_elem_of_lookup_2 _ _ _ Eb) as Hbin. cbn [do_uop]. rewrite Eb. cbn [mbind option_bind]. eexists. split; [done|].
  set (a := b.1 + 16 + off). assert (Ha : b.1 + 16 <= a < b.1 + 16 * b.2) by (subst a; lia).
  set (m' := mwr a v (h_mem (us_heap st))).
  assert (Hm : forall x, x <> a -> mrd m' x = mrd (h_mem (us_heap st)) x).
  { intros x Hx. unfold m'. rewrite mrd_mwr. by rewrite decide_False. }
  destruct (used_safe _ _ _ _ b a H Hbin ltac:(lia)) as (Hab & Hal & _). rewrite Forall_forall in Hal.
  assert (Hhdr : forall c : blk, (c.1 <= a < c.1 + 16 -> False) -> hptr m' c.1 = hptr (h_mem (us_heap st)) c.1 /\ hsize m' c.1 = hsize (h_mem (us_heap st)) c.1).
  { intros c Hc. split; apply load_ext; intros x Hx; apply Hm; intros ->; lia. }
  split.
  - apply (uinv_uok _ _ _ l). pose proof H as [Hfl Ht Hi Hs Hd Hf Htt].
    split; cbn [us_heap us_used us_top h_mem]; try done.
    + destruct Hfl as [Hl Hg Hil Hfp Hbb]. split; cbn [h_mem h_freep]; try done.
      assert (Hn : forall c, c ∈ (base, 0) :: l -> c.1 <= a < c.1 + 16 -> False).
      { intros c [->|Hc]%elem_of_cons; [done|]. specialize (Hal c Hc). rewrite Forall_forall in Hil.
        destruct (Hil c Hc) as (_ & ? & _). unfold misses in Hal. lia. }
      apply (linked_ext (h_mem (us_heap st))); [|done]. intros c Hc. by apply Hhdr, Hn.
    + apply Forall_forall. intros c Hc. rewrite Forall_forall in Hs. rewrite <- (Hs c Hc). apply Hhdr. intros Hca.
      apply list_elem_of_lookup in Hc as [j Ej]. destruct (decide (j = i)) as [->|Hji]; [simplify_eq; lia|].
      assert (Hbc : disj b c); [|unfold disj in Hbc; rewrite Forall_forall in Hi;
        destruct (Hi c (list_elem_of_lookup_2 _ _ _ Ej)) as (_ & ? & _); lia].
      by apply (pairwise_disj (us_used st) i j).
  - split; [done|]. intros c x Hc _ Hx. cbn [us_heap h_mem]. rewrite Eb. simpl. unfold m'. rewrite mrd_mwr. fold a.
    repeat case_decide; simplify_eq; try done; by subst.
Qed.

Lemma uok_op base start st op :
  uok base start st -> op_ok st op ->
  exists st', do_uop base start op st = Some st' /\ uok base start st' /\ op_effect op st st' /\ op_keeps op st st'.
Proof. destruct op; [apply uok_malloc|apply uok_free|apply uok_write]. Qed.

Lemma ureach_uok base start st : ureach base start st -> uok base start st.
Proof.
  induction 1 as [m Hb Hs Ht|st op st' _ IH Hop E].
  - split; [done|]. split; [done|]. exists []. by apply prime_fresh.
  - destruct (uok_op base start st op IH Hop) as (st'' & E' & H & _). by simplify_eq.
Qed.

(** C7: whatever sequence of malloc, free and writes to its blocks a program makes, as
    long as no single request makes malloc ask the kernel for 2^31 bytes or more and the
    break stays below 2^36, and whether the kernel grants more memory or not: the blocks
    the program holds do not overlap and lie between the start of the heap and the break;
    together with the free blocks, which are sorted and coalesced, they make up all the
    memory sbrk gave.  The next operation within these bounds returns: malloc with a
    block of at least the size asked for, unless the kernel refuses memory; and it leaves
    the contents of every block the program still holds as they were, but for the byte it
    writes.  The first bound is where malloc is right at all: sbrk takes an int, so a
    larger request gets less memory than it needs ([malloc_huge] below). *)
Theorem umalloc_client base start st :
  ureach base start st ->
  (StronglySorted disj (us_used st) /\ Forall (inside start (us_top st)) (us_used st) /\
   exists l, flist base start (us_top st) (primed base (us_heap st)) l /\
     start + 16 * (total l + total (us_used st)) = us_top st) /\
  forall op, op_ok st op ->
    exists st', do_uop base start op st = Some st' /\ op_effect op st st' /\ op_keeps op st st'.
Proof.
  intros H%ureach_uok. split.
  - destruct H as (_ & _ & l & H). split; [exact (ui_disj _ _ _ _ H)|]. split; [exact (ui_in _ _ _ _ H)|].
    exists l. split; [exact (ui_list _ _ _ _ H)|exact (ui_total _ _ _ _ H)].
  - intros op Hop. destruct (uok_op base start st op H Hop) as (st' & ? & _ & ? & ?). eauto.
Qed.

Lemma umalloc_client_witness :
  exists st, ureach 0x2000 0x4000 st /\ (exists p, us_used st = [(p, 8)]) /\ op_ok st (OFree 0) /\
    exists st', do_uop 0x2000 0x4000 (OFree 0) st = Some st' /\ op_effect (OFree 0) st st' /\ op_keeps (OFree 0) st st'.
Proof.
  pose (st0 := mkUst (mkHeap ∅ 0) [] 0x4000).
  assert (H0 : ureach 0x2000 0x4000 st0) by (apply ureach_init; lia).
  assert (Hop : op_ok st0 (OMalloc 100 true)) by (vm_compute; intuition congruence).
  destruct (proj2 (umalloc_client _ _ _ H0) _ Hop) as (st & E & [[? _]|(p & Eu & _)] & _); [done|].
  change (units 100) with 8 in Eu. exists st.
  assert (H1 : ureach 0x2000 0x4000 st) by (exact (ureach_op _ _ _ _ _ H0 Hop E)).
  assert (Hop1 : op_ok st (OFree 0)) by (cbn; rewrite Eu; by eexists).
  split; [exact H1|]. split; [by exists p|]. split; [exact Hop1|].
  exact (proj2 (umalloc_client _ _ _ H1) _ Hop1).
Defined.

(** A size of 2^31 bytes or more reaches sbrk as an int: malloc(2^32 - 16) asks
    for no memory at all, and hands out a block of 4 GB that starts at the break. *)
Lemma malloc_huge :
  let h := mkHeap ∅ 0 in
  exists h', feed (malloc 8 0x2000 (2 ^ 32 - 16) h) [(0x4000, [])] = ([Csbrk 0], UDone (0x4010, h'), []) .
Proof. eexists. vm_compute. reflexivity. Qed.
