(* ===== verification/Sh.v ===== *)
(** user/sh.c: the shell.

    The parser works on the input buffer and keeps pointers into it, which are
    positions here; the command structs it allocates are in a store, a pointer to
    one is its index.  malloc gives fresh memory (UmallocClient.v), so a new
    struct goes at the end of the store; it may fail, [mem i] says whether the
    allocation of struct [i] succeeds.  panic prints and exits; inside the parser it
    is an outcome.  A load or a store through a null pointer or outside of the buffer
    or of an array is a fault. *)

From S2P Require Import Prelude Numeral Memory CString Bytes State Uprog Ulib Uprintf.

Definition MAXARGS : nat := 10.

(** struct execcmd, redircmd, pipecmd, listcmd, backcmd *)
Inductive cmd :=
| EXEC (argv eargv : list (option nat))
| REDIR (c : nat) (file efile : nat) (mode fd : Z)
| PIPE (left right : nat)
| LIST (left right : nat)
| BACK (c : nat).

(** * Parsing *)

(** The position *ps and the structs allocated so far. *)
Record pst := mkPst { p_s : nat; p_cmds : list cmd }.

Inductive pout (A : Type) := POk (a : A) (st : pst) | PPanic (msg : string) | PFault | PFuel.
Arguments POk {A} a st.
Arguments PPanic {A} msg.
Arguments PFault {A}.
Arguments PFuel {A}.

Definition P (A : Type) : Type := pst -> pout A.
#[export] Instance P_ret : MRet P := fun A a st => POk a st.
#[export] Instance P_bind : MBind P := fun A B f m st =>
  match m st with POk a st' => f a st' | PPanic msg => PPanic msg | PFault => PFault | PFuel => PFuel end.

Definition ppanic {A} (msg : string) : P A := fun _ => PPanic msg.
Definition pfuel {A} : P A := fun _ => PFuel.
Definition get_s : P nat := fun st => POk (p_s st) st.
Definition set_s (s : nat) : P unit := fun st => POk tt (mkPst s (p_cmds st)).
Definition pwhen (b : bool) (m : P unit) : P unit := if b then m else mret tt.

Section alloc.
(** Whether malloc returns memory for a struct, by the number of structs before it. *)
Context (mem : nat -> bool).

(** malloc and memset, which stores through the pointer whatever malloc returned *)
Definition new_cmd (c : cmd) : P nat :=
  fun st => if mem (length (p_cmds st)) then POk (length (p_cmds st)) (mkPst (p_s st) (p_cmds st ++ [c])) else PFault.

(** Constructors *)
Definition execcmd : P nat := new_cmd (EXEC (replicate MAXARGS None) (replicate MAXARGS None)).
Definition redircmd (subcmd file efile : nat) (mode fd : Z) : P nat := new_cmd (REDIR subcmd file efile mode fd).
Definition pipecmd (left right : nat) : P nat := new_cmd (PIPE left right).
Definition listcmd (left right : nat) : P nat := new_cmd (LIST left right).
Definition backcmd (subcmd : nat) : P nat := new_cmd (BACK subcmd).
End alloc.

(** cmd->argv[argc] = q; cmd->eargv[argc] = eq *)
Definition set_arg (i argc : nat) (q eq : option nat) : P unit :=
  fun st =>
    match p_cmds st !! i with
    | Some (EXEC argv eargv) =>
        if (argc <? MAXARGS)%nat
        then POk tt (mkPst (p_s st) (<[i := EXEC (<[argc := q]> argv) (<[argc := eq]> eargv)]> (p_cmds st)))
        else PFault
    | _ => PFault
    end.

Definition whitespace : list Z := [32; 9; 13; 10; 11].
Definition symbols : list Z := chars "<|>&;()".
Definition found (s : list Z) (c : Z) : bool := match strchr s c with Some _ => true | None => false end.

Section parser.
(** What malloc does; the buffer, and the position es of its end. *)
Context (mem : nat -> bool) (buf : list Z) (es : nat).

(** *s *)
Definition load (s : nat) : P Z := fun st => match buf !! s with Some c => POk c st | None => PFault end.

(** while(s < es && strchr(whitespace, *s)) s++; at most [k] rounds *)
Fixpoint skip_space (k s : nat) : P nat :=
  match k with
  | O => mret s
  | S k' =>
      if (s <? es)%nat then
        c ← load s;
        if found whitespace c then skip_space k' (S s) else mret s
      else mret s
  end.

(** while(s < es && !strchr(whitespace, *s) && !strchr(symbols, *s)) s++ *)
Fixpoint skip_word (k s : nat) : P nat :=
  match k with
  | O => mret s
  | S k' =>
      if (s <? es)%nat then
        c ← load s;
        if negb (found whitespace c) && negb (found symbols c) then skip_word k' (S s) else mret s
      else mret s
  end.

(** The switch of gettoken: ret and s after it *)
Definition scan (s : nat) : P (Z * nat) :=
  c ← load s;
  if c =? 0 then mret (c, s)
  else if (c =? 124) || (c =? 40) || (c =? 41) || (c =? 59) || (c =? 38) || (c =? 60) then mret (c, S s)
  else if c =? 62 then
    d ← load (S s);
    mret (if d =? 62 then (43, S (S s)) else (c, S s))
  else
    s ← skip_word (es - s) s;
    mret (97, s).

(** int gettoken(char **ps, char *es, char **q, char **eq): the token, q and eq *)
Definition gettoken : P (Z * nat * nat) :=
  s ← get_s;
  q ← skip_space (es - s) s;
  '(ret, eq) ← scan q;
  s ← skip_space (es - eq) eq;
  set_s s;;
  mret (ret, q, eq).

(** int peek(char **ps, char *es, char *toks) *)
Definition peek (toks : list Z) : P bool :=
  s ← get_s;
  s ← skip_space (es - s) s;
  set_s s;;
  c ← load s;
  mret (negb (c =? 0) && found toks c).

(** struct cmd* parseredirs(struct cmd *cmd, char **ps, char *es) *)
Fixpoint parseredirs_loop (fuel : nat) (cmd : nat) : P nat :=
  match fuel with
  | O => pfuel
  | S fuel' =>
      b ← peek (chars "<>");
      if b : bool then
        '(tok, _, _) ← gettoken;
        '(t, q, eq) ← gettoken;
        pwhen (negb (t =? 97)) (ppanic "missing file for redirection");;
        cmd ← (if tok =? 60 then redircmd mem cmd q eq O_RDONLY 0
               else if tok =? 62 then redircmd mem cmd q eq (Z.lor (Z.lor O_WRONLY O_CREATE) O_TRUNC) 1
               else if tok =? 43 then redircmd mem cmd q eq (Z.lor O_WRONLY O_CREATE) 1
               else mret cmd);
        parseredirs_loop fuel' cmd
      else mret cmd
  end.
Definition parseredirs (cmd : nat) : P nat := parseredirs_loop (S es) cmd.

(** The loop of parseexec over the arguments: ret and argc. *)
Fixpoint parseargs_loop (fuel : nat) (cmd ret argc : nat) : P (nat * nat) :=
  match fuel with
  | O => pfuel
  | S fuel' =>
      b ← peek (chars "|)&;");
      if b : bool then mret (ret, argc)
      else
        '(tok, q, eq) ← gettoken;
        if tok =? 0 then mret (ret, argc)
        else
          pwhen (negb (tok =? 97)) (ppanic "syntax");;
          set_arg cmd argc (Some q) (Some eq);;
          let argc := S argc in
          pwhen (MAXARGS <=? argc)%nat (ppanic "too many args");;
          ret ← parseredirs ret;
          parseargs_loop fuel' cmd ret argc
  end.

(** parseexec when the command is not a block *)
Definition parsesimple : P nat :=
  cmd ← execcmd mem;
  ret ← parseredirs cmd;
  '(ret, argc) ← parseargs_loop (S es) cmd ret 0;
  set_arg cmd argc None None;;
  mret ret.

(** The loop of parseline over the ampersands. *)
Fixpoint parseback_loop (fuel : nat) (cmd : nat) : P nat :=
  match fuel with
  | O => pfuel
  | S fuel' =>
      b ← peek (chars "&");
      if b : bool then
        gettoken;;
        cmd ← backcmd mem cmd;
        parseback_loop fuel' cmd
      else mret cmd
  end.

(** struct cmd* parseline(char **ps, char *es), parsepipe, parseexec, parseblock *)
Fixpoint parseline (fuel : nat) : P nat :=
  match fuel with
  | O => pfuel
  | S fuel' =>
      cmd ← parsepipe fuel';
      cmd ← parseback_loop (S es) cmd;
      b ← peek (chars ";");
      if b : bool then
        gettoken;;
        right ← parseline fuel';
        listcmd mem cmd right
      else mret cmd
  end
with parsepipe (fuel : nat) : P nat :=
  match fuel with
  | O => pfuel
  | S fuel' =>
      cmd ← parseexec fuel';
      b ← peek (chars "|");
      if b : bool then
        gettoken;;
        right ← parsepipe fuel';
        pipecmd mem cmd right
      else mret cmd
  end
with parseexec (fuel : nat) : P nat :=
  match fuel with
  | O => pfuel
  | S fuel' =>
      b ← peek (chars "(");
      if b : bool then parseblock fuel' else parsesimple
  end
with parseblock (fuel : nat) : P nat :=
  match fuel with
  | O => pfuel
  | S fuel' =>
      b ← peek (chars "(");
      pwhen (negb b) (ppanic "parseblock");;
      gettoken;;
      cmd ← parseline fuel';
      b ← peek (chars ")");
      pwhen (negb b) (ppanic "syntax - missing )");;
      gettoken;;
      parseredirs cmd
  end.
End parser.

(** The recursion takes four calls for each character at most. *)
Definition parse_fuel (es : nat) : nat := (4 * es + 8)%nat.

(** * After parsing *)

(** *p = 0 *)
Definition put_nul (p : nat) (buf : list Z) : U (list Z) :=
  if (p <? length buf)%nat then mret (<[p := 0]> buf) else Fault.

(** The loop of nulterminate over the arguments. *)
Fixpoint nul_args (argv eargv : list (option nat)) (buf : list Z) : U (list Z) :=
  match argv with
  | None :: _ => mret buf
  | Some _ :: argv' =>
      match eargv with
      | Some e :: eargv' => buf ← put_nul e buf; nul_args argv' eargv' buf
      | _ => Fault
      end
  | [] => Fault
  end.

(** struct cmd* nulterminate(struct cmd *cmd): the buffer *)
Fixpoint nulterminate (fuel : nat) (cmds : list cmd) (c : nat) (buf : list Z) : U (list Z) :=
  match fuel with
  | O => OutOfFuel
  | S fuel' =>
      match cmds !! c with
      | None => Fault
      | Some (EXEC argv eargv) => nul_args argv eargv buf
      | Some (REDIR c' _ efile _ _) => buf ← nulterminate fuel' cmds c' buf; put_nul efile buf
      | Some (PIPE l r) | Some (LIST l r) => buf ← nulterminate fuel' cmds l buf; nulterminate fuel' cmds r buf
      | Some (BACK c') => nulterminate fuel' cmds c' buf
      end
  end.

(** void panic(char *s) *)
Definition panic {A} (s : list Z) : U A :=
  fprintf 2 (chars "%s" ++ [10]) [VStr (Some s)];;
  exit 1.

(** struct cmd* parsecmd(char *s): the structs, the command, the buffer *)
Definition parsecmd (mem : nat -> bool) (buf : list Z) : U (list cmd * nat * list Z) :=
  let es := strlen_nat buf in
  match (c ← parseline mem buf es (parse_fuel es); peek buf es [];; mret c) (mkPst 0 []) with
  | PFuel => OutOfFuel
  | PFault => Fault
  | PPanic msg => panic (chars msg)
  | POk c st =>
      if negb (p_s st =? es)%nat then
        fprintf 2 (chars "leftovers: %s" ++ [10]) [VStr (Some (drop (p_s st) buf))];;
        panic (chars "syntax")
      else
        buf ← nulterminate (S (length (p_cmds st))) (p_cmds st) c buf;
        mret (p_cmds st, c, buf)
  end.

(** * Running commands *)

(** int fork1(void) *)
Definition fork1 : U Z :=
  pid ← fork;
  if pid =? -1 then panic (chars "fork") else mret pid.

(** The string at a position of the buffer; the strings of an argv. *)
Definition str_at (buf : list Z) (p : nat) : list Z := cstring (drop p buf).
Fixpoint strs_at (buf : list Z) (argv : list (option nat)) : list (list Z) :=
  match argv with
  | Some p :: argv' => str_at buf p :: strs_at buf argv'
  | _ => []
  end.

(** void runcmd(struct cmd *cmd) *)
Fixpoint runcmd (fuel : nat) (cmds : list cmd) (buf : list Z) (c : nat) : U unit :=
  match fuel with
  | O => OutOfFuel
  | S fuel' =>
      match cmds !! c with
      | None => Fault
      | Some (EXEC argv _) =>
          match strs_at buf argv with
          | [] => exit 1
          | arg0 :: _ =>
              exec arg0 (strs_at buf argv);;
              fprintf 2 (chars "exec %s failed" ++ [10]) [VStr (Some arg0)];;
              exit 0
          end
      | Some (REDIR c' file _ mode fd) =>
          close fd;;
          r ← open (str_at buf file) mode;
          if r <? 0 then
            fprintf 2 (chars "open %s failed" ++ [10]) [VStr (Some (str_at buf file))];;
            exit 1
          else runcmd fuel' cmds buf c';; exit 0
      | Some (LIST l r) =>
          pid ← fork1;
          whenU (pid =? 0) (runcmd fuel' cmds buf l);;
          wait;;
          runcmd fuel' cmds buf r;;
          exit 0
      | Some (PIPE l r) =>
          '(res, p) ← pipe;
          whenU (res <? 0) (panic (chars "pipe"));;
          pid ← fork1;
          whenU (pid =? 0)
            (close 1;;
             dup (fd_of 1 p);;
             close (fd_of 0 p);;
             close (fd_of 1 p);;
             runcmd fuel' cmds buf l);;
          pid ← fork1;
          whenU (pid =? 0)
            (close 0;;
             dup (fd_of 0 p);;
             close (fd_of 0 p);;
             close (fd_of 1 p);;
             runcmd fuel' cmds buf r);;
          close (fd_of 0 p);;
          close (fd_of 1 p);;
          wait;;
          wait;;
          exit 0
      | Some (BACK c') =>
          pid ← fork1;
          whenU (pid =? 0) (runcmd fuel' cmds buf c');;
          exit 0
      end
  end.

(** * The main loop *)

(** int getcmd(char *buf, int nbuf): the result and the buffer, 100 bytes *)
Definition nbuf : Z := 100.
Definition getcmd (buf : list Z) : U (Z * list Z) :=
  write 2 (chars "$ ");;
  let buf := replicate (Z.to_nat nbuf) 0 in
  buf ← gets buf nbuf;
  mret (if chr buf =? 0 then -1 else 0, buf).

(** Run a line in a child, as main does. *)
Definition run_line (mem : nat -> bool) (buf : list Z) : U unit :=
  '(cmds, c, buf) ← parsecmd mem buf;
  runcmd (S (length cmds)) cmds buf c.

(** The chdir of main: the buffer after chopping its last character *)
Definition chop (buf : list Z) : list Z := <[(strlen_nat buf - 1)%nat := 0]> buf.
Definition is_cd (buf : list Z) : bool :=
  match buf with c0 :: c1 :: c2 :: _ => (c0 =? 99) && (c1 =? 100) && (c2 =? 32) | _ => false end.

(** The loop of main, for at most [fuel] lines; what malloc does in the child of a
    line, by the lines that are left *)
Fixpoint main_loop (mem : nat -> nat -> bool) (fuel : nat) (buf : list Z) : U unit :=
  match fuel with
  | O => OutOfFuel
  | S fuel' =>
      '(r, buf) ← getcmd buf;
      if negb (r >=? 0) then exit 0
      else if is_cd buf then
        let buf := chop buf in
        r ← chdir (cstring (drop 3 buf));
        whenU (r <? 0) (fprintf 2 (chars "cannot cd %s" ++ [10]) [VStr (Some (cstring (drop 3 buf)))]);;
        main_loop mem fuel' buf
      else
        pid ← fork1;
        whenU (pid =? 0) (run_line (mem fuel') buf);;
        wait;;
        main_loop mem fuel' buf
  end.

(** while((fd = open("console", O_RDWR)) >= 0), for at most [k] rounds *)
Fixpoint open_console (k : nat) : U unit :=
  match k with
  | O => OutOfFuel
  | S k' =>
      fd ← open (chars "console") O_RDWR;
      if fd >=? 0 then
        if fd >=? 3 then close fd;; mret tt else open_console k'
      else mret tt
  end.

(** int main(void) *)
Definition main (mem : nat -> nat -> bool) (fuel : nat) : U unit :=
  open_console fuel;;
  main_loop mem fuel (replicate (Z.to_nat nbuf) 0).
