(* ===== verification/ShLex.v ===== *)
(** The tokens of the shell (user/sh.c): gettoken and peek against a reference
    tokenizer. *)

From S2P Require Import Prelude Memory CString Uprog Ulib Sh.

(** * Tokens *)

Inductive token := Word (w : list Z) | Sym (c : Z) | App.

Definition spacec (c : Z) : bool := found whitespace c.
Definition symc (c : Z) : bool := found symbols c.
Definition wordc (c : Z) : bool := negb (c =? 0) && negb (spacec c) && negb (symc c).

(** The tokens of a text without NUL. *)
Fixpoint tokenize (s : list Z) : list token :=
  match s with
  | [] => []
  | c :: r =>
      if spacec c then tokenize r
      else if c =? 62 then
        match r with
        | d :: r' => if d =? 62 then App :: tokenize r' else Sym c :: tokenize r
        | [] => [Sym c]
        end
      else if symc c then Sym c :: tokenize r
      else if wordc (chr r) then
        match tokenize r with Word x :: ts => Word (c :: x) :: ts | ts => Word [c] :: ts end
      else Word [c] :: tokenize r
  end.

Definition spaces (w : list Z) : Prop := Forall (fun c => spacec c = true) w.
Definition wordcs (w : list Z) : Prop := Forall (fun c => wordc c = true) w.

Lemma spaces_nil : spaces [].
Proof. constructor. Qed.
#[local] Hint Resolve spaces_nil : core.

(** The same as a relation, a token at a time. *)
Inductive lex : list Z -> list token -> Prop :=
| lex_end w : spaces w -> lex w []
| lex_sym w c r ts : spaces w -> symc c = true -> (c = 62 -> chr r <> 62) -> lex r ts -> lex (w ++ c :: r) (Sym c :: ts)
| lex_app w r ts : spaces w -> lex r ts -> lex (w ++ 62 :: 62 :: r) (App :: ts)
| lex_word w x r ts :
    spaces w -> x <> [] -> wordcs x -> wordc (chr r) = false -> lex r ts -> lex (w ++ x ++ r) (Word x :: ts).

Lemma found_nonzero l c : found l c = true -> c <> 0.
Proof.
  unfold found. destruct (strchr l c) eqn:E; [|done]. intros _ ->. revert E. induction l as [|x l IH]; [done|]. simpl.
  by destruct (x =? 0).
Qed.

Lemma space_not_sym c : spacec c = true -> symc c = false /\ wordc c = false /\ c <> 62.
Proof.
  intros H. assert (Hs : c ∈ whitespace).
  { destruct (decide (c ∈ whitespace)) as [|Hn]; [done|exfalso].
    pose proof (found_nonzero _ _ H) as Hz. unfold spacec, found in H.
    by rewrite (proj2 (strchr_none whitespace c Hz)) in H. }
  unfold wordc. rewrite H. unfold whitespace in Hs. rewrite !elem_of_cons, elem_of_nil in Hs.
  destruct Hs as [->|[->|[->|[->|[->|[]]]]]]; by vm_compute.
Qed.

Lemma sym_not_word c : symc c = true -> wordc c = false.
Proof. intros H. unfold wordc. by rewrite H, andb_false_r. Qed.

Lemma lex_cons_space c r ts : spacec c = true -> lex r ts -> lex (c :: r) ts.
Proof.
  intros Hc H. destruct H as [w Hw|w d r ts Hw|w r ts Hw|w x r ts Hw].
  - apply lex_end. by constructor.
  - apply (lex_sym (c :: w)); [|done..]. by constructor.
  - apply (lex_app (c :: w)); [|done..]. by constructor.
  - apply (lex_word (c :: w)); [|done..]. by constructor.
Qed.

(** Leading white space does not matter. *)
Lemma lex_uncons_space c r ts : spacec c = true -> lex (c :: r) ts -> lex r ts.
Proof.
  intros Hc H. remember (c :: r) as s eqn:Es. destruct (space_not_sym c Hc) as (Hn1 & Hn2 & Hn3).
  destruct H as [w Hw|w d r' ts Hw Hd|w r' ts Hw|w x r' ts Hw Hx Hwx].
  - subst w. inversion_clear Hw. by apply lex_end.
  - destruct w as [|a w]; simplify_eq/=; try congruence. inversion_clear Hw. by apply lex_sym.
  - destruct w as [|a w]; simplify_eq/=; try congruence. inversion_clear Hw. by apply lex_app.
  - destruct w as [|a w]; simpl in Es.
    + destruct x as [|b x]; [done|]. simplify_eq/=. inversion_clear Hwx as [|? ? Hb _].
      congruence.
    + simplify_eq/=. inversion_clear Hw. by apply lex_word.
Qed.

Lemma lex_tokenize_aux n : forall s, (length s <= n)%nat -> nonul s -> lex s (tokenize s).
Proof.
  induction n as [|n IH]; intros s Hn Hs; (destruct s as [|c r]; [by apply lex_end|]); [simpl in Hn; lia|].
  simpl in Hn. inversion_clear Hs as [|? ? Hc Hr]. cbn [tokenize].
  destruct (spacec c) eqn:Ec; [apply lex_cons_space; [done|]; apply IH; [lia|done]|].
  destruct (Z.eqb_spec c 62) as [->|H62].
  - destruct r as [|d r']; [by apply (lex_sym [] 62 []); [..|apply lex_end]|].
    inversion_clear Hr as [|? ? Hd Hr']. simpl in Hn. destruct (Z.eqb_spec d 62) as [->|Hd62].
    + apply (lex_app []); [done|]. apply IH; [lia|done].
    + apply (lex_sym []); [done..|by intros _|]. apply IH; [simpl; lia|by constructor].
  - destruct (symc c) eqn:Es; [apply (lex_sym []); [done|done|done|apply IH; [lia|done]]|].
    assert (Hwc : wordc c = true) by (unfold wordc; by rewrite Ec, Es, (proj2 (Z.eqb_neq c 0) Hc)).
    specialize (IH r ltac:(lia) Hr). destruct (wordc (chr r)) eqn:Er.
    + revert IH. generalize (tokenize r). intros ts IH. destruct IH as [w Hw|w d r' ts Hw Hd|w r' ts Hw|w x r' ts Hw Hx Hwx Hr'].
      all: destruct w as [|a w]; [|inversion_clear Hw as [|? ? Ha _]; destruct (space_not_sym a Ha) as (_ & Ha' & _); simpl in Er; congruence].
      * done.
      * simpl in Er. rewrite sym_not_word in Er by done. done.
      * done.
      * apply (lex_word [] (c :: x) r' ts); [done|done| |done|done]. by constructor.
    + apply (lex_word [] [c]); [done|done| |done|done]. by constructor.
Qed.

Lemma lex_tokenize s : nonul s -> lex s (tokenize s).
Proof. by apply lex_tokenize_aux with (length s). Qed.

(** Each token has a character of its own. *)
Lemma lex_length s ts : lex s ts -> (length ts <= length s)%nat.
Proof.
  induction 1 as [| | |w x r ts _ Hx _ _ _ IH]; rewrite ?length_app; simpl; try lia.
  destruct x; [done|]. simpl. lia.
Qed.

(** * The scanner on a buffer *)

Lemma pbind_ok {A B} (m : P A) (f : A -> P B) st a st' : m st = POk a st' -> (m ≫= f) st = f a st'.
Proof. intros E. unfold mbind, P_bind. by rewrite E. Qed.

Section scanner.
Context (text junk : list Z).
Hypothesis Htext : nonul text.
Let buf := text ++ 0 :: junk.
Let es := length text.

Lemma load_ok s st : (s <= es)%nat -> load buf s st = POk (chr (drop s text)) st.
Proof using.
  intros Hs. unfold load, buf, chr. destruct (decide (s < es)%nat) as [Hlt|Hge].
  - rewrite lookup_app_l by done. destruct (lookup_lt_is_Some_2 text s Hlt) as [c Hc].
    by rewrite Hc, (drop_S _ _ _ Hc).
  - rewrite drop_ge by (fold es; lia). rewrite lookup_app_r by (fold es; lia).
    replace (s - length text)%nat with 0%nat by (fold es; lia). done.
Qed.

Lemma drop_length s r w : drop s text = w ++ r -> (s <= es)%nat -> drop (s + length w) text = r /\ (s + length w <= es)%nat.
Proof using.
  intros E Hs. split; [by rewrite <- drop_drop, E, drop_app_length|].
  apply (f_equal length) in E. rewrite length_drop, length_app in E. unfold es in *. lia.
Qed.

Lemma skip_space_ok w st : forall k s r,
  drop s text = w ++ r -> (s <= es)%nat -> spaces w -> spacec (chr r) = false -> (length w <= k)%nat ->
  skip_space buf es k s st = POk (s + length w)%nat st.
Proof using.
  induction w as [|c w IH]; intros k s r E Hs Hw Hr Hk.
  - rewrite Nat.add_0_r. destruct k as [|k]; [done|]. cbn [skip_space]. destruct (s <? es)%nat; [|done].
    rewrite (pbind_ok _ _ _ _ _ (load_ok s st Hs)), E. cbn [app]. fold (spacec (chr r)). by rewrite Hr.
  - destruct k as [|k]; [simpl in Hk; lia|]. inversion_clear Hw as [|? ? Hc Hw']. cbn [skip_space].
    destruct (drop_length s (w ++ r) [c] E Hs) as [E' Hs']. simpl in E', Hs'. rewrite Nat.add_1_r in E', Hs'.
    rewrite (proj2 (Nat.ltb_lt s es)) by lia. rewrite (pbind_ok _ _ _ _ _ (load_ok s st Hs)), E.
    cbn [chr hd app]. fold (spacec c). rewrite Hc.
    rewrite (IH k (S s) r) by (try done; simpl in Hk; lia). f_equal. simpl. lia.
Qed.

Lemma skip_word_ok x st : forall k s r,
  drop s text = x ++ r -> (s <= es)%nat -> wordcs x -> wordc (chr r) = false -> (length x <= k)%nat ->
  skip_word buf es k s st = POk (s + length x)%nat st.
Proof using Htext.
  induction x as [|c x IH]; intros k s r E Hs Hx Hr Hk.
  - rewrite Nat.add_0_r. destruct k as [|k]; [done|]. cbn [skip_word].
    destruct (Nat.ltb_spec s es) as [Hlt|]; [|done]. rewrite (pbind_ok _ _ _ _ _ (load_ok s st Hs)), E. cbn [app].
    fold (spacec (chr r)) (symc (chr r)). unfold wordc in Hr. destruct (Z.eqb_spec (chr r) 0) as [E0|]; simpl in Hr; [|by rewrite Hr].
    exfalso. destruct (lookup_lt_is_Some_2 text s Hlt) as [c Hc]. rewrite (drop_S _ _ _ Hc) in E. simpl in E. subst r.
    simpl in E0. subst c. unfold nonul in Htext. rewrite Forall_forall in Htext. by apply (Htext 0 (list_elem_of_lookup_2 _ _ _ Hc)).
  - destruct k as [|k]; [simpl in Hk; lia|]. inversion_clear Hx as [|? ? Hc Hx']. cbn [skip_word].
    destruct (drop_length s (x ++ r) [c] E Hs) as [E' Hs']. simpl in E', Hs'. rewrite Nat.add_1_r in E', Hs'.
    rewrite (proj2 (Nat.ltb_lt s es)) by lia. rewrite (pbind_ok _ _ _ _ _ (load_ok s st Hs)), E.
    cbn [chr hd app]. fold (spacec c) (symc c).
    unfold wordc in Hc. apply andb_true_iff in Hc as [[_ Hc1]%andb_true_iff Hc2]. rewrite Hc1, Hc2. cbn [andb].
    rewrite (IH k (S s) r) by (try done; simpl in Hk; lia). f_equal. simpl. lia.
Qed.

(** What is left to read: its leading white space, and the rest. *)
Lemma strip_split (r : list Z) : exists w r', r = w ++ r' /\ spaces w /\ spacec (chr r') = false.
Proof using.
  induction r as [|c r IH]; [by exists [], []|]. destruct (spacec c) eqn:E; [|by exists [], (c :: r)].
  destruct IH as (w & r' & -> & Hw & Hr). exists (c :: w), r'. split; [done|]. split; [by constructor|done].
Qed.

Lemma lex_strip w r ts : spaces w -> lex (w ++ r) ts -> lex r ts.
Proof using.
  induction 1 as [|c w Hc _ IH]; [done|]. intros H. apply IH. by apply (lex_uncons_space c).
Qed.

(** The parser is at a position from which the tokens [ts] follow. *)
Definition At (st : pst) (ts : list token) : Prop := (p_s st <= es)%nat /\ lex (drop (p_s st) text) ts.

(** Skipping white space at such a position. *)
Lemma skip_At s ts st : (s <= es)%nat -> lex (drop s text) ts ->
  exists s', skip_space buf es (es - s) s st = POk s' st /\
    (s <= s' <= es)%nat /\ lex (drop s' text) ts /\ spacec (chr (drop s' text)) = false.
Proof using.
  intros Hs Hl. destruct (strip_split (drop s text)) as (w & r & E & Hw & Hr).
  destruct (drop_length s r w E Hs) as [E' Hs']. exists (s + length w)%nat. split.
  { apply (skip_space_ok w _ _ _ r); [done|done|done|done|]. apply (f_equal length) in E. rewrite length_drop, length_app in E. unfold es. lia. }
  rewrite E'. rewrite E in Hl. split; [lia|]. split; [by apply (lex_strip w)|done].
Qed.

(** The word [x] is at the positions from [q] to [e]. *)
Definition word_at (q e : nat) (x : list Z) : Prop :=
  (e <= es)%nat /\ drop q text = x ++ drop e text /\ e = (q + length x)%nat /\ wordcs x /\ wordc (chr (drop e text)) = false.

(** What gettoken returns for a token. *)
Definition kind (t : token) : Z := match t with Word _ => 97 | Sym c => c | App => 43 end.

(** Whether a token starts with one of the symbols [l]. *)
Definition starts (l : list Z) (t : token) : bool :=
  match t with Word _ => false | Sym c => found l c | App => found l 62 end.

Lemma lex_inv r ts : spacec (chr r) = false -> lex r ts ->
  match ts with
  | [] => r = []
  | Sym c :: ts' => exists r', r = c :: r' /\ symc c = true /\ (c = 62 -> chr r' <> 62) /\ lex r' ts'
  | App :: ts' => exists r', r = 62 :: 62 :: r' /\ lex r' ts'
  | Word x :: ts' => exists r', r = x ++ r' /\ x <> [] /\ wordcs x /\ wordc (chr r') = false /\ lex r' ts'
  end.
Proof using.
  intros Hr H. destruct H as [w Hw|w c r ts Hw|w r ts Hw|w x r ts Hw]; (destruct w as [|a w]; [|inversion_clear Hw as [|? ? Ha _]; simpl in Hr; congruence]).
  - done.
  - by exists r.
  - by exists r.
  - by exists r.
Qed.

(** The character that peek sees. *)
Lemma peek_char l st ts : At st ts ->
  exists s', peek buf es l st = POk (negb (chr (drop s' text) =? 0) && found l (chr (drop s' text))) (mkPst s' (p_cmds st)) /\
    (s' <= es)%nat /\ lex (drop s' text) ts /\ spacec (chr (drop s' text)) = false.
Proof using.
  intros [Hs Hl]. destruct (skip_At _ _ st Hs Hl) as (s' & E & [Hs1 Hs2] & Hl' & Hsp). exists s'. split; [|done].
  unfold peek. rewrite (pbind_ok get_s _ st (p_s st) st eq_refl), (pbind_ok _ _ _ _ _ E).
  rewrite (pbind_ok (set_s s') _ st tt (mkPst s' (p_cmds st)) eq_refl). by rewrite (pbind_ok _ _ _ _ _ (load_ok s' _ Hs2)).
Qed.

Lemma peek_ok l st ts :
  At st ts -> (forall c, found l c = true -> symc c = true) ->
  exists s', peek buf es l st = POk (match ts with [] => false | t :: _ => starts l t end) (mkPst s' (p_cmds st)) /\
    At (mkPst s' (p_cmds st)) ts.
Proof using.
  intros Hat Hsub. destruct (peek_char l st ts Hat) as (s' & E & Hs' & Hl' & Hsp). exists s'. rewrite E. split; [|done]. f_equal.
  pose proof (lex_inv _ _ Hsp Hl') as Hi. destruct ts as [|[x|c|] ts].
  - by rewrite Hi.
  - destruct Hi as (r & -> & Hx & Hw & _). destruct x as [|c x]; [done|]. inversion_clear Hw as [|? ? Hc _]. simpl.
    destruct (found l c) eqn:Ef; [|by rewrite andb_false_r]. apply Hsub in Ef. apply sym_not_word in Ef. congruence.
  - destruct Hi as (r & -> & Hc & _ & _). simpl. pose proof (found_nonzero _ _ Hc). by rewrite (proj2 (Z.eqb_neq c 0)) by done.
  - by destruct Hi as (r & -> & _).
Qed.

Lemma sym_cases c : symc c = true ->
  c = 62 \/ ((c =? 124) || (c =? 40) || (c =? 41) || (c =? 59) || (c =? 38) || (c =? 60)) = true.
Proof using.
  intros H. assert (Hs : c ∈ symbols).
  { destruct (decide (c ∈ symbols)) as [|Hn]; [done|exfalso]. pose proof (found_nonzero _ _ H) as Hz.
    unfold symc, found in H. by rewrite (proj2 (strchr_none symbols c Hz)) in H. }
  change symbols with [60; 124; 62; 38; 59; 40; 41] in Hs. rewrite !elem_of_cons, elem_of_nil in Hs.
  destruct Hs as [->|[->|[->|[->|[->|[->|[->|[]]]]]]]]; auto.
Qed.

Lemma word_branch c : wordc c = true ->
  c <> 0 /\ c <> 62 /\ ((c =? 124) || (c =? 40) || (c =? 41) || (c =? 59) || (c =? 38) || (c =? 60)) = false.
Proof using.
  intros H. split; [by intros ->|]. split; [by intros ->|].
  destruct (_ || (c =? 60)) eqn:E; [|done]. rewrite !orb_true_iff, !Z.eqb_eq in E.
  destruct E as [[[[[->| ->]| ->]| ->]| ->]| ->]; done.
Qed.

(** The switch: a token, and where it ends. *)
Lemma scan_ok q t ts st : (q <= es)%nat -> lex (drop q text) (t :: ts) -> spacec (chr (drop q text)) = false ->
  exists e, scan buf es q st = POk (kind t, e) st /\ (q <= e <= es)%nat /\ lex (drop e text) ts /\
    forall x, t = Word x -> word_at q e x.
Proof using Htext.
  intros Hs2 Hl' Hsp. unfold scan. rewrite (pbind_ok _ _ _ _ _ (load_ok q st Hs2)).
  pose proof (lex_inv _ _ Hsp Hl') as Hi. destruct t as [x|c|].
  - destruct Hi as (r & E & Hx & Hw & Hr & Hlr). destruct x as [|c x]; [done|].
    pose proof Hw as Hw0. inversion_clear Hw0 as [|? ? Hc _]. rewrite E. cbn [chr hd app].
    destruct (word_branch c Hc) as (H0 & H62 & Hb). rewrite (proj2 (Z.eqb_neq c 0)), Hb, (proj2 (Z.eqb_neq c 62)) by done.
    destruct (drop_length q r (c :: x) E Hs2) as [Er Hre].
    rewrite (pbind_ok _ _ _ _ _ (skip_word_ok (c :: x) st (es - q) q r E Hs2 Hw Hr ltac:(lia))).
    eexists. split; [done|]. split; [lia|]. split; [by rewrite Er|]. intros y [= <-].
    split; [done|]. rewrite Er. done.
  - destruct Hi as (r & E & Hc & H62 & Hlr). rewrite E. cbn [chr hd]. pose proof (found_nonzero _ _ Hc) as H0.
    rewrite (proj2 (Z.eqb_neq c 0)) by done. destruct (drop_length q r [c] E Hs2) as [Er Hre].
    simpl in Er, Hre. rewrite Nat.add_1_r in Er, Hre. exists (S q). split; [|split; [lia|]; split; [by rewrite Er|done]].
    destruct (sym_cases c Hc) as [E62|Eb]; [subst c|by rewrite Eb]. cbn [kind].
    change ((62 =? 124) || _ || _ || _ || _ || _) with false. cbv beta iota. rewrite (Z.eqb_refl 62).
    rewrite (pbind_ok _ _ _ _ _ (load_ok (S q) st Hre)), Er. by rewrite (proj2 (Z.eqb_neq _ 62)) by auto.
  - destruct Hi as (r & E & Hlr). rewrite E. cbn [chr hd].
    destruct (drop_length q (62 :: r) [62] E Hs2) as [Er Hre]. simpl in Er, Hre. rewrite Nat.add_1_r in Er, Hre.
    destruct (drop_length q r [62; 62] E Hs2) as [Er2 Hre2]. simpl in Er2, Hre2.
    replace (q + 2)%nat with (S (S q)) in Er2, Hre2 by lia. exists (S (S q)). split; [|split; [lia|]; split; [by rewrite Er2|done]].
    change (62 =? 0) with false. change ((62 =? 124) || _ || _ || _ || _ || _) with false. cbv beta iota. rewrite (Z.eqb_refl 62).
    by rewrite (pbind_ok _ _ _ _ _ (load_ok (S q) st Hre)), Er.
Qed.

Lemma gettoken_ok st t ts : At st (t :: ts) ->
  exists s' q e, gettoken buf es st = POk (kind t, q, e) (mkPst s' (p_cmds st)) /\ At (mkPst s' (p_cmds st)) ts /\
    forall x, t = Word x -> word_at q e x.
Proof using Htext.
  intros [Hs Hl]. destruct (skip_At _ _ st Hs Hl) as (q & Eq & [Hs1 Hs2] & Hl' & Hsp).
  destruct (scan_ok q t ts st Hs2 Hl' Hsp) as (e & Ee & [He1 He2] & Hle & Hw).
  destruct (skip_At e ts st He2 Hle) as (s' & Es & [Hs3 Hs4] & Hl3 & _). exists s', q, e. split; [|done].
  unfold gettoken. rewrite (pbind_ok get_s _ st (p_s st) st eq_refl), (pbind_ok _ _ _ _ _ Eq), (pbind_ok _ _ _ _ _ Ee).
  by rewrite (pbind_ok _ _ _ _ _ Es).
Qed.

Lemma gettoken_end st : At st [] ->
  exists s' q e, gettoken buf es st = POk (0, q, e) (mkPst s' (p_cmds st)) /\ At (mkPst s' (p_cmds st)) [].
Proof using.
  intros [Hs Hl]. destruct (skip_At _ _ st Hs Hl) as (q & Eq & [Hs1 Hs2] & Hl' & Hsp).
  destruct (skip_At q [] st Hs2 Hl') as (s' & Es & [Hs3 Hs4] & Hl3 & _). exists s', q, q. split; [|done].
  pose proof (lex_inv _ _ Hsp Hl') as Hi. simpl in Hi.
  unfold gettoken. rewrite (pbind_ok get_s _ st (p_s st) st eq_refl), (pbind_ok _ _ _ _ _ Eq).
  rewrite (pbind_ok (scan buf es q) _ st (0, q) st); [by rewrite (pbind_ok _ _ _ _ _ Es)|].
  unfold scan. by rewrite (pbind_ok _ _ _ _ _ (load_ok q st Hs2)), Hi.
Qed.

(** At the end of the text peek stops at es. *)
Lemma peek_end l st : At st [] -> peek buf es l st = POk false (mkPst es (p_cmds st)).
Proof using.
  intros Hat. destruct (peek_char l st [] Hat) as (s' & -> & Hs' & Hl' & Hsp).
  pose proof (lex_inv _ _ Hsp Hl') as Hi. simpl in Hi. rewrite Hi. simpl.
  apply (f_equal length) in Hi. rewrite length_drop in Hi. simpl in Hi.
  replace s' with es by (unfold es in *; lia). done.
Qed.
End scanner.
