(* ===== verification/ShParse.v ===== *)
(** The parser of the shell (user/sh.c): every line of the grammar is parsed to
    its command, and on every line the parser returns or panics. *)

From S2P Require Import Prelude Memory CString State Uprog Ulib Uprintf Sh ShLex.

(** * The grammar

    line ::= pipeline { & } [ ; line ], pipeline ::= command [ | pipeline ],
    command ::= ( line ) redirs or redirs { word redirs } *)

Inductive rkind := RIn | ROut | RApp.
Record redir := mkRedir { r_kind : rkind; r_file : list Z }.
Inductive line :=
| LDone (p : pline) (bg : nat)
| LSeq (p : pline) (bg : nat) (l : line)
with pline :=
| PDone (e : simple)
| PPipe (e : simple) (p : pline)
with simple :=
| EBlock (l : line) (rs : list redir)
| ESimple (rs : list redir) (args : list (list Z * list redir)).

(** The tokens of a line. *)
Definition toks_redir (r : redir) : list token :=
  [match r_kind r with RIn => Sym 60 | ROut => Sym 62 | RApp => App end; Word (r_file r)].
Definition toks_redirs (rs : list redir) : list token := rs ≫= toks_redir.
Definition toks_args (args : list (list Z * list redir)) : list token :=
  args ≫= (fun a => Word a.1 :: toks_redirs a.2).
Fixpoint toks_line (l : line) : list token :=
  match l with
  | LDone p bg => toks_pline p ++ replicate bg (Sym 38)
  | LSeq p bg l => toks_pline p ++ replicate bg (Sym 38) ++ Sym 59 :: toks_line l
  end
with toks_pline (p : pline) : list token :=
  match p with
  | PDone e => toks_simple e
  | PPipe e p => toks_simple e ++ Sym 124 :: toks_pline p
  end
with toks_simple (e : simple) : list token :=
  match e with
  | EBlock l rs => Sym 40 :: toks_line l ++ Sym 41 :: toks_redirs rs
  | ESimple rs args => toks_redirs rs ++ toks_args args
  end.

(** At most 9 words a command: the tenth entry of argv is the null pointer. *)
Fixpoint line_ok (l : line) : Prop :=
  match l with LDone p _ => pline_ok p | LSeq p _ l => pline_ok p /\ line_ok l end
with pline_ok (p : pline) : Prop :=
  match p with PDone e => simple_ok e | PPipe e p => simple_ok e /\ pline_ok p end
with simple_ok (e : simple) : Prop :=
  match e with EBlock l _ => line_ok l | ESimple _ args => (length args < MAXARGS)%nat end.

(** The command a line stands for. *)
Inductive ast :=
| AExec (argv : list (list Z))
| ARedir (a : ast) (file : list Z) (mode fd : Z)
| APipe (l r : ast)
| AList (l r : ast)
| ABack (a : ast).

Definition r_mode (k : rkind) : Z :=
  match k with
  | RIn => O_RDONLY
  | ROut => Z.lor (Z.lor O_WRONLY O_CREATE) O_TRUNC
  | RApp => Z.lor O_WRONLY O_CREATE
  end.
Definition r_fd (k : rkind) : Z := match k with RIn => 0 | _ => 1 end.
Definition wrap (a : ast) (rs : list redir) : ast :=
  foldl (fun a r => ARedir a (r_file r) (r_mode (r_kind r)) (r_fd (r_kind r))) a rs.

Fixpoint den_line (l : line) : ast :=
  match l with
  | LDone p bg => Nat.iter bg ABack (den_pline p)
  | LSeq p bg l => AList (Nat.iter bg ABack (den_pline p)) (den_line l)
  end
with den_pline (p : pline) : ast :=
  match p with
  | PDone e => den_simple e
  | PPipe e p => APipe (den_simple e) (den_pline p)
  end
with den_simple (e : simple) : ast :=
  match e with
  | EBlock l rs => wrap (den_line l) rs
  | ESimple rs args => wrap (AExec args.*1) (rs ++ mjoin args.*2)
  end.

Fixpoint nodes (a : ast) : nat :=
  match a with
  | AExec _ => 1
  | ARedir a _ _ _ | ABack a => S (nodes a)
  | APipe l r | AList l r => S (nodes l + nodes r)
  end.

(** * The store represents a command *)

(** One round of each function of the parser. *)
Lemma parseline_S mem buf es f : parseline mem buf es (S f) =
  (cmd ← parsepipe mem buf es f;
   cmd ← parseback_loop mem buf es (S es) cmd;
   b ← peek buf es (chars ";");
   if b : bool then gettoken buf es;; right ← parseline mem buf es f; listcmd mem cmd right else mret cmd).
Proof. done. Qed.
Lemma parsepipe_S mem buf es f : parsepipe mem buf es (S f) =
  (cmd ← parseexec mem buf es f;
   b ← peek buf es (chars "|");
   if b : bool then gettoken buf es;; right ← parsepipe mem buf es f; pipecmd mem cmd right else mret cmd).
Proof. done. Qed.
Lemma parseexec_S mem buf es f : parseexec mem buf es (S f) =
  (b ← peek buf es (chars "("); if b : bool then parseblock mem buf es f else parsesimple mem buf es).
Proof. done. Qed.
Lemma parseblock_S mem buf es f : parseblock mem buf es (S f) =
  (b ← peek buf es (chars "(");
   pwhen (negb b) (ppanic "parseblock");;
   gettoken buf es;;
   cmd ← parseline mem buf es f;
   b ← peek buf es (chars ")");
   pwhen (negb b) (ppanic "syntax - missing )");;
   gettoken buf es;;
   parseredirs mem buf es cmd).
Proof. done. Qed.

Lemma length_toks_redirs rs : length (toks_redirs rs) = (2 * length rs)%nat.
Proof.
  induction rs as [|r rs IH]; [done|]. change (toks_redirs (r :: rs)) with (toks_redir r ++ toks_redirs rs).
  rewrite length_app, IH. simpl. lia.
Qed.

Lemma insert_arg {A} (l : list A) k (x : A) :
  <[length l := Some x]> ((Some <$> l) ++ replicate (S k) None) = (Some <$> (l ++ [x])) ++ replicate k None.
Proof.
  rewrite <- (length_fmap Some l) at 1. rewrite insert_app_r_alt, Nat.sub_diag by lia.
  by rewrite fmap_app, <- app_assoc.
Qed.

Lemma found_elem l c : found l c = true -> c ∈ l.
Proof.
  intros H. destruct (decide (c ∈ l)) as [|Hn]; [done|exfalso]. pose proof (found_nonzero _ _ H) as Hz.
  unfold found in H. rewrite (proj2 (strchr_none l c Hz)) in H; [done|]. intros Hc. apply Hn.
  by apply subseteq_take in Hc.
Qed.

Lemma sub_symbols l : forallb symc l = true -> forall c, found l c = true -> symc c = true.
Proof. intros Hl c Hc%found_elem. rewrite forallb_forall in Hl. by apply Hl, list_elem_of_In. Qed.

Section parse.
Context (text junk : list Z).
Hypothesis Htext : nonul text.
Let buf := text ++ 0 :: junk.
Let es := length text.
(** malloc does not fail. *)
Let mem : nat -> bool := fun _ => true.

Inductive args_at : list (option nat) -> list (option nat) -> list (list Z) -> Prop :=
| args_nil argv eargv : args_at (None :: argv) eargv []
| args_cons q e x argv eargv xs :
    word_at text q e x -> args_at argv eargv xs -> args_at (Some q :: argv) (Some e :: eargv) (x :: xs).

Inductive rep (cs : list cmd) : nat -> ast -> Prop :=
| rep_exec c argv eargv xs : cs !! c = Some (EXEC argv eargv) -> args_at argv eargv xs -> rep cs c (AExec xs)
| rep_redir c c' q e mode fd a x :
    cs !! c = Some (REDIR c' q e mode fd) -> word_at text q e x -> rep cs c' a -> rep cs c (ARedir a x mode fd)
| rep_pipe c l r a b : cs !! c = Some (PIPE l r) -> rep cs l a -> rep cs r b -> rep cs c (APipe a b)
| rep_list c l r a b : cs !! c = Some (LIST l r) -> rep cs l a -> rep cs r b -> rep cs c (AList a b)
| rep_back c c' a : cs !! c = Some (BACK c') -> rep cs c' a -> rep cs c (ABack a).

Lemma rep_app cs cs' c a : rep cs c a -> rep (cs ++ cs') c a.
Proof.
  induction 1; [eapply rep_exec|eapply rep_redir|eapply rep_pipe|eapply rep_list|eapply rep_back]; eauto;
    by apply lookup_app_l_Some.
Qed.

Lemma rep_app_mid cs cs1 cs2 cs3 c a : rep (cs ++ cs1) c a -> rep ((cs ++ cs1 ++ cs2) ++ cs3) c a.
Proof. intros H. apply rep_app. rewrite app_assoc. by apply rep_app. Qed.

(** [m] reads the tokens of the command [a], up to [ts], and builds it. *)
Definition parses (m : P nat) (st : pst) (a : ast) (ts : list token) : Prop :=
  exists c s' new, m st = POk c (mkPst s' (p_cmds st ++ new)) /\ At text (mkPst s' (p_cmds st ++ new)) ts /\
    rep (p_cmds st ++ new) c a /\ length new = nodes a.

(** The answer of peek at the tokens [ts]. *)
Definition next_is (l : list Z) (ts : list token) : bool := match ts with [] => false | t :: _ => starts l t end.
(** The tokens [ts] are at an end, or go on with one of the symbols [l]. *)
Definition stop (l : list Z) (ts : list token) : Prop :=
  match ts with [] => True | Sym c :: _ => c ∈ l | _ => False end.

Lemma stop_next l l' ts : stop l ts -> forallb (fun c => negb (found l' c)) l = true -> next_is l' ts = false.
Proof.
  intros H F. rewrite forallb_forall in F. destruct ts as [|[x|c|] ts]; [done|done| |done].
  apply list_elem_of_In, F in H. simpl. by destruct (found l' c).
Qed.

Lemma stop_weaken l l' ts : stop l ts -> l ⊆ l' -> stop l' ts.
Proof. intros H Hs. destruct ts as [|[x|c|] ts]; [done|done|by apply Hs|done]. Qed.

(** peek, as the parser uses it. *)
Lemma peek_at l st ts :
  At text st ts -> forallb symc l = true ->
  exists s', peek buf es l st = POk (next_is l ts) (mkPst s' (p_cmds st)) /\ At text (mkPst s' (p_cmds st)) ts.
Proof. intros H Hl. apply (peek_ok text junk l st ts H). by apply sub_symbols. Qed.

Lemma tok_at st t ts : At text st (t :: ts) ->
  exists s' q e, gettoken buf es st = POk (kind t, q, e) (mkPst s' (p_cmds st)) /\ At text (mkPst s' (p_cmds st)) ts /\
    forall x, t = Word x -> word_at text q e x.
Proof. by apply gettoken_ok. Qed.

Lemma At_length st ts : At text st ts -> (length ts <= es)%nat.
Proof. intros [_ H]. apply lex_length in H. rewrite length_drop in H. unfold es. lia. Qed.

(** * Redirections *)

(** From [c] to [p] the structs are the redirections [rs]. *)
Inductive wraps (cs : list cmd) : nat -> nat -> list redir -> Prop :=
| wraps_nil c : wraps cs c c []
| wraps_cons c p1 p q e r rs :
    cs !! p1 = Some (REDIR c q e (r_mode (r_kind r)) (r_fd (r_kind r))) -> word_at text q e (r_file r) ->
    wraps cs p1 p rs -> wraps cs c p (r :: rs).

Lemma wraps_rep cs c p rs : wraps cs c p rs -> forall a, rep cs c a -> rep cs p (wrap a rs).
Proof.
  induction 1 as [c|c p1 p q e r rs E Hx _ IH]; intros a Ha; [done|]. cbn [wrap foldl]. apply IH. by eapply rep_redir.
Qed.

Lemma wraps_mono cs cs' c p rs :
  (forall i c q e m f, cs !! i = Some (REDIR c q e m f) -> cs' !! i = Some (REDIR c q e m f)) ->
  wraps cs c p rs -> wraps cs' c p rs.
Proof. intros H. induction 1; [apply wraps_nil|]. eapply wraps_cons; eauto. Qed.

Lemma wraps_app cs c p p' rs rs' : wraps cs c p rs -> wraps cs p p' rs' -> wraps cs c p' (rs ++ rs').
Proof. induction 1; [done|]. intros H'. simpl. eapply wraps_cons; eauto. Qed.

Lemma redirs_loop_ok rs : forall fuel st c ts,
  (length rs < fuel)%nat -> At text st (toks_redirs rs ++ ts) -> next_is (chars "<>") ts = false ->
  exists p s' new, parseredirs_loop mem buf es fuel c st = POk p (mkPst s' (p_cmds st ++ new)) /\
    At text (mkPst s' (p_cmds st ++ new)) ts /\ wraps (p_cmds st ++ new) c p rs /\ length new = length rs.
Proof.
  induction rs as [|r rs IH]; intros fuel st c ts Hf Hat Hn; (destruct fuel as [|fuel]; [lia|]); cbn [parseredirs_loop].
  - destruct (peek_at (chars "<>") st ts Hat eq_refl) as (s' & E & Hat'). rewrite (pbind_ok _ _ _ _ _ E), Hn.
    exists c, s', []. rewrite app_nil_r. split; [done|]. split; [done|]. split; [apply wraps_nil|done].
  - simpl in Hf. destruct (peek_at (chars "<>") st _ Hat eq_refl) as (s1 & E1 & Hat1). rewrite (pbind_ok _ _ _ _ _ E1).
    replace (next_is (chars "<>") _) with true by (by destruct r as [[] ?]).
    destruct (tok_at _ _ _ Hat1) as (s2 & q2 & e2 & E2 & Hat2 & _). rewrite (pbind_ok _ _ _ _ _ E2).
    destruct (tok_at _ _ _ Hat2) as (s3 & q & e & E3 & Hat3 & Hx). rewrite (pbind_ok _ _ _ _ _ E3). cbn [kind].
    change (97 =? 97) with true. cbn [negb pwhen].
    set (nd := REDIR c q e (r_mode (r_kind r)) (r_fd (r_kind r))).
    set (st4 := mkPst s3 (p_cmds st ++ [nd])).
    assert (Hat4 : At text st4 (toks_redirs rs ++ ts)) by done.
    destruct (IH fuel st4 (length (p_cmds st)) ts ltac:(lia) Hat4 Hn) as (p & s' & new & E & Hat' & Hw & Hl).
    exists p, s', (nd :: new). cbn [p_cmds st4] in *. rewrite <- app_assoc in *. cbn [app] in *.
    split; [|split; [done|split; [|simpl; lia]]].
    + rewrite <- E. by destruct r as [[] ?].
    + eapply wraps_cons; [|by apply Hx|exact Hw]. by apply list_lookup_middle.
Qed.

Lemma redirs_ok rs st c ts :
  At text st (toks_redirs rs ++ ts) -> next_is (chars "<>") ts = false ->
  exists p s' new, parseredirs mem buf es c st = POk p (mkPst s' (p_cmds st ++ new)) /\
    At text (mkPst s' (p_cmds st ++ new)) ts /\ wraps (p_cmds st ++ new) c p rs /\ length new = length rs.
Proof.
  intros Hat Hn. apply redirs_loop_ok; [|done|done]. apply At_length in Hat. rewrite length_app, length_toks_redirs in Hat. lia.
Qed.

(** * Simple commands *)

(** The struct at [e] has the words at the positions [ps] as its arguments. *)
Definition exec_node (cs : list cmd) (e : nat) (ps : list (nat * nat)) : Prop :=
  exists k, cs !! e = Some (EXEC ((Some <$> ps.*1) ++ replicate k None) ((Some <$> ps.*2) ++ replicate k None)) /\
    (length ps + k)%nat = MAXARGS.

Lemma set_arg_ok st e ps q eq :
  exec_node (p_cmds st) e ps -> (S (length ps) < MAXARGS)%nat ->
  exists cs', set_arg e (length ps) (Some q) (Some eq) st = POk tt (mkPst (p_s st) cs') /\ exec_node cs' e (ps ++ [(q, eq)]) /\
    length cs' = length (p_cmds st) /\ (forall i, i <> e -> cs' !! i = p_cmds st !! i).
Proof.
  intros (k & E & Hk) Hl. unfold set_arg. rewrite E, (proj2 (Nat.ltb_lt _ _)) by lia.
  eexists. split; [done|]. split_and!; [|by rewrite length_insert|intros i Hi; by apply list_lookup_insert_ne].
  destruct k as [|k]; [lia|]. exists k. split; [|rewrite length_app; simpl; lia].
  rewrite list_lookup_insert_eq by (by apply lookup_lt_Some in E). do 2 f_equal.
  - rewrite (fmap_app fst). change ([(q, eq)].*1) with [q]. by rewrite <- insert_arg, length_fmap.
  - rewrite (fmap_app snd). change ([(q, eq)].*2) with [eq]. by rewrite <- insert_arg, length_fmap.
Qed.

Lemma end_arg_ok st e ps :
  exec_node (p_cmds st) e ps -> (length ps < MAXARGS)%nat ->
  set_arg e (length ps) None None st = POk tt st.
Proof.
  intros (k & E & Hk) Hl. destruct k as [|k]; [lia|]. unfold set_arg. destruct st as [s cs]. cbn [p_s p_cmds] in *.
  rewrite E, (proj2 (Nat.ltb_lt _ _)) by done. do 2 f_equal. apply list_insert_id. rewrite E. do 2 f_equal; symmetry.
  - apply list_insert_id. rewrite lookup_app_r; rewrite !length_fmap; [|done]. by rewrite Nat.sub_diag.
  - apply list_insert_id. rewrite lookup_app_r; rewrite !length_fmap; [|done]. by rewrite Nat.sub_diag.
Qed.

Lemma args_rep cs e ps xs : exec_node cs e ps -> (length ps < MAXARGS)%nat ->
  Forall2 (fun p x => word_at text p.1 p.2 x) ps xs -> rep cs e (AExec xs).
Proof.
  intros (k & E & Hk) Hl H. eapply rep_exec; [exact E|]. destruct k as [|k]; [lia|]. clear E Hk Hl.
  induction H as [|p x ps xs Hx _ IH]; simpl; [apply args_nil|by apply args_cons].
Qed.

Lemma redir_kept (cs cs' : list cmd) e ps :
  exec_node cs e ps -> (forall i, i <> e -> cs' !! i = cs !! i) ->
  forall i c q f m d, cs !! i = Some (REDIR c q f m d) -> cs' !! i = Some (REDIR c q f m d).
Proof. intros (k & E & _) H i c q f m d Ei. rewrite H; [done|]. intros ->. congruence. Qed.

Lemma stop_redir ts : stop (chars "|)&;") ts -> next_is (chars "<>") ts = false.
Proof. intros H. by apply (stop_next _ _ _ H). Qed.

Lemma args_loop_ok args : forall fuel st ret e ps rs ts,
  (length args < fuel)%nat -> (length ps + length args < MAXARGS)%nat ->
  At text st (toks_args args ++ ts) -> stop (chars "|)&;") ts ->
  exec_node (p_cmds st) e ps -> (e < length (p_cmds st))%nat -> wraps (p_cmds st) e ret rs ->
  exists p s' cs' ps', parseargs_loop mem buf es fuel e ret (length ps) st = POk (p, length (ps ++ ps')) (mkPst s' cs') /\
    At text (mkPst s' cs') ts /\ exec_node cs' e (ps ++ ps') /\ Forall2 (fun p x => word_at text p.1 p.2 x) ps' args.*1 /\
    wraps cs' e p (rs ++ mjoin args.*2) /\ length cs' = (length (p_cmds st) + length (mjoin args.*2))%nat /\
    forall i, i <> e -> (i < length (p_cmds st))%nat -> cs' !! i = p_cmds st !! i.
Proof.
  induction args as [|[x xr] args IH]; intros fuel st ret e ps rs ts Hf Hn Hat Hst He Hel Hw; (destruct fuel as [|fuel]; [simpl in Hf; lia|]);
    cbn [parseargs_loop].
  - simpl in Hat. destruct (peek_at (chars "|)&;") st ts Hat eq_refl) as (s1 & E1 & Hat1). rewrite (pbind_ok _ _ _ _ _ E1).
    assert (Hend : forall s, At text (mkPst s (p_cmds st)) ts -> exists p s' cs' ps',
      @POk (nat * nat) (ret, length ps) (mkPst s (p_cmds st)) = POk (p, length (ps ++ ps')) (mkPst s' cs') /\
      At text (mkPst s' cs') ts /\ exec_node cs' e (ps ++ ps') /\ Forall2 (fun p x => word_at text p.1 p.2 x) ps' [] /\
      wraps cs' e p (rs ++ []) /\ length cs' = (length (p_cmds st) + 0)%nat /\
      forall i, i <> e -> (i < length (p_cmds st))%nat -> cs' !! i = p_cmds st !! i).
    { intros s Hs. exists ret, s, (p_cmds st), []. rewrite !app_nil_r, Nat.add_0_r. by split_and!. }
    destruct ts as [|[y|c|] ts]; try done; cbn [next_is starts].
    + destruct (gettoken_end text junk _ Hat1) as (s2 & q & f & E2 & Hat2).
      rewrite (pbind_ok _ _ _ _ _ E2). change (0 =? 0) with true. by apply Hend.
    + replace (found (chars "|)&;") c) with true; [by apply Hend|].
      simpl in Hst. rewrite !elem_of_cons, elem_of_nil in Hst. by destruct Hst as [->|[->|[->|[->|[]]]]].
  - simpl in Hf, Hn. change (toks_args ((x, xr) :: args)) with (Word x :: toks_redirs xr ++ toks_args args) in Hat.
    cbn [app] in Hat. rewrite <- app_assoc in Hat.
    destruct (peek_at (chars "|)&;") st _ Hat eq_refl) as (s1 & E1 & Hat1). rewrite (pbind_ok _ _ _ _ _ E1). cbn [next_is starts].
    destruct (tok_at _ _ _ Hat1) as (s2 & q & f & E2 & Hat2 & Hx). rewrite (pbind_ok _ _ _ _ _ E2). cbn [kind p_cmds] in *.
    change (97 =? 0) with false. change (97 =? 97) with true. cbn [negb pwhen]. rewrite (pbind_ok _ _ _ tt (mkPst s2 (p_cmds st))) by done.
    destruct (set_arg_ok (mkPst s2 (p_cmds st)) e ps q f He ltac:(lia)) as (cs3 & E3 & He3 & Hl3 & Hi3). cbn [p_s p_cmds] in *.
    rewrite (pbind_ok _ _ _ _ _ E3). rewrite (proj2 (Nat.leb_gt MAXARGS (S (length ps)))) by lia.
    cbn [pwhen]. rewrite (pbind_ok _ _ _ tt (mkPst s2 cs3)) by done.
    destruct (redirs_ok xr (mkPst s2 cs3) ret (toks_args args ++ ts)) as (p4 & s4 & new & E4 & Hat4 & Hw4 & Hl4); [exact Hat2| |].
    { destruct args as [|[y yr] args]; [by apply stop_redir|done]. }
    rewrite (pbind_ok _ _ _ _ _ E4). cbn [p_cmds] in *.
    assert (He4 : exec_node (cs3 ++ new) e (ps ++ [(q, f)])).
    { destruct He3 as (k & Ek & Hk). exists k. split; [by apply lookup_app_l_Some|done]. }
    destruct (IH fuel (mkPst s4 (cs3 ++ new)) p4 e (ps ++ [(q, f)]) (rs ++ xr) ts) as (p & s' & cs' & ps' & E & Ha & Hex & Hws & Hwr & Hlen & Hk);
      [lia|rewrite length_app; simpl; lia|done|done|done|cbn [p_cmds]; rewrite length_app; lia| |].
    { eapply wraps_app; [|exact Hw4]. apply (wraps_mono (p_cmds st)); [|done].
      intros i c q' f' m d Ei. apply lookup_app_l_Some. by apply (redir_kept (p_cmds st) cs3 e ps). }
    rewrite length_app, Nat.add_1_r in E. rewrite E. cbn [p_cmds] in *.
    exists p, s', cs', ((q, f) :: ps'). rewrite <- app_assoc in *. cbn [app] in *.
    split; [by rewrite !length_app|]. split; [done|]. split; [done|]. split; [constructor; [by apply Hx|done]|].
    change (mjoin ((x, xr) :: args).*2) with (xr ++ mjoin args.*2). split; [done|].
    rewrite length_app in Hlen. split; [rewrite length_app; lia|].
    intros i Hi Hil. rewrite Hk, lookup_app_l by (try done; rewrite ?length_app; lia). by apply Hi3.
Qed.

Lemma nodes_wrap rs : forall a, nodes (wrap a rs) = (nodes a + length rs)%nat.
Proof. induction rs as [|r rs IH]; intros a; simpl; [lia|]. unfold wrap in IH. rewrite IH. simpl. lia. Qed.

Lemma length_toks_args args : (length args <= length (toks_args args))%nat.
Proof.
  induction args as [|[x xr] args IH]; [done|]. change (toks_args ((x, xr) :: args)) with (Word x :: toks_redirs xr ++ toks_args args).
  simpl. rewrite length_app. lia.
Qed.

Lemma simple_parses rs args st ts :
  (length args < MAXARGS)%nat -> At text st ((toks_redirs rs ++ toks_args args) ++ ts) -> stop (chars "|)&;") ts ->
  parses (parsesimple mem buf es) st (wrap (AExec args.*1) (rs ++ mjoin args.*2)) ts.
Proof.
  intros Hn Hat Hst. rewrite <- app_assoc in Hat. set (e := length (p_cmds st)).
  set (st1 := mkPst (p_s st) (p_cmds st ++ [EXEC (replicate MAXARGS None) (replicate MAXARGS None)])).
  assert (He : exec_node (p_cmds st1) e []).
  { exists MAXARGS. split; [|done]. by apply list_lookup_middle. }
  destruct (redirs_ok rs st1 e (toks_args args ++ ts)) as (p2 & s2 & new & E2 & Hat2 & Hw2 & Hl2); [exact Hat| |].
  { destruct args as [|[y yr] args]; [by apply stop_redir|done]. }
  destruct (args_loop_ok args (S es) (mkPst s2 (p_cmds st1 ++ new)) p2 e [] rs ts)
    as (p & s' & cs' & ps' & E3 & Hat3 & He3 & Hws & Hw3 & Hl3 & Hk3); [|done|done|done| | |done|].
  { apply At_length in Hat2. rewrite length_app in Hat2. pose proof (length_toks_args args). lia. }
  { destruct He as (k & Ek & Hk). exists k. split; [by apply lookup_app_l_Some|done]. }
  { unfold st1. cbn [p_cmds]. rewrite !length_app. simpl. unfold e. lia. }
  cbn [p_cmds app length] in *. pose proof (Forall2_length _ _ _ Hws) as Hlp. rewrite length_fmap in Hlp.
  assert (Hcs : cs' = p_cmds st ++ drop e cs').
  { rewrite <- (take_drop e cs') at 1. f_equal. apply list_eq. intros i. destruct (decide (i < e)%nat) as [Hi|Hi].
    - unfold st1 in Hk3. cbn [p_cmds] in Hk3. rewrite !length_app in Hk3. fold e in Hk3.
      rewrite lookup_take_lt, Hk3 by (try done; lia). by rewrite <- app_assoc, lookup_app_l.
    - rewrite lookup_take_ge, lookup_ge_None_2 by (unfold e in *; lia). done. }
  exists p, s', (drop e cs'). rewrite <- Hcs. split; [|split; [done|split]].
  - unfold parsesimple. rewrite (pbind_ok _ _ st e st1) by done. rewrite (pbind_ok _ _ _ _ _ E2), (pbind_ok _ _ _ _ _ E3).
    by rewrite (pbind_ok _ _ _ _ _ (end_arg_ok (mkPst s' cs') e ps' He3 ltac:(lia))).
  - apply (wraps_rep _ e); [done|]. apply (args_rep _ _ ps'); [done|lia|done].
  - rewrite length_drop, Hl3, nodes_wrap, length_app. unfold st1. cbn [p_cmds]. rewrite !length_app. simpl. unfold e. lia.
Qed.

Lemma back_ok bg : forall fuel st c a ts,
  (bg < fuel)%nat -> At text st (replicate bg (Sym 38) ++ ts) -> next_is (chars "&") ts = false -> rep (p_cmds st) c a ->
  exists p s' new, parseback_loop mem buf es fuel c st = POk p (mkPst s' (p_cmds st ++ new)) /\
    At text (mkPst s' (p_cmds st ++ new)) ts /\ rep (p_cmds st ++ new) p (Nat.iter bg ABack a) /\ length new = bg.
Proof.
  induction bg as [|bg IH]; intros fuel st c a ts Hf Hat Hn Ha; (destruct fuel as [|fuel]; [lia|]); cbn [parseback_loop].
  - destruct (peek_at (chars "&") st _ Hat eq_refl) as (s1 & E1 & Hat1). rewrite (pbind_ok _ _ _ _ _ E1).
    change (replicate 0 (Sym 38) ++ ts) with ts in *. rewrite Hn. exists c, s1, []. by rewrite app_nil_r.
  - destruct (peek_at (chars "&") st _ Hat eq_refl) as (s1 & E1 & Hat1). rewrite (pbind_ok _ _ _ _ _ E1).
    destruct (tok_at _ _ _ Hat1) as (s2 & q & e & E2 & Hat2 & _). change (next_is _ _) with true. cbn match. rewrite (pbind_ok _ _ _ _ _ E2).
    set (st3 := mkPst s2 (p_cmds st ++ [BACK c])). cbn [p_cmds] in *. rewrite (pbind_ok _ _ _ (length (p_cmds st)) st3) by done.
    destruct (IH fuel st3 (length (p_cmds st)) (ABack a) ts) as (p & s' & new & E & Hat' & Hr & Hl); [lia|done|done| |].
    { eapply rep_back; [by apply list_lookup_middle|by apply rep_app]. }
    exists p, s', (BACK c :: new). unfold st3 in *. cbn [p_cmds] in *. rewrite <- app_assoc in *. rewrite E. split; [done|].
    split; [done|]. split; [|simpl; lia]. by rewrite Nat.iter_succ_r.
Qed.

(** * Lines *)

Lemma length_app_cons {A} (l l' : list A) (x : A) : length (l ++ x :: l') = S (length l + length l')%nat.
Proof. rewrite length_app. simpl. lia. Qed.

Lemma nodes_back bg a : nodes (Nat.iter bg ABack a) = (bg + nodes a)%nat.
Proof. induction bg as [|bg IH]; [done|]. simpl. by rewrite IH. Qed.

Section step.
Context (f : nat).
Hypothesis IHline : forall l st ts, (4 * length (toks_line l) + 4 <= f)%nat -> line_ok l ->
  At text st (toks_line l ++ ts) -> stop (chars ")") ts -> parses (parseline mem buf es f) st (den_line l) ts.
Hypothesis IHpline : forall p st ts, (4 * length (toks_pline p) + 3 <= f)%nat -> pline_ok p ->
  At text st (toks_pline p ++ ts) -> stop (chars ")&;") ts -> parses (parsepipe mem buf es f) st (den_pline p) ts.
Hypothesis IHsimple : forall e st ts, (4 * length (toks_simple e) + 2 <= f)%nat -> simple_ok e ->
  At text st (toks_simple e ++ ts) -> stop (chars "|)&;") ts -> parses (parseexec mem buf es f) st (den_simple e) ts.
Hypothesis IHblock : forall l rs st ts, (4 * length (toks_simple (EBlock l rs)) + 1 <= f)%nat -> line_ok l ->
  At text st (toks_simple (EBlock l rs) ++ ts) -> next_is (chars "<>") ts = false ->
  parses (parseblock mem buf es f) st (den_simple (EBlock l rs)) ts.

(** A pipeline followed by ampersands. *)
Lemma pline_back p bg st ts :
  (4 * length (toks_pline p) + 3 <= f)%nat -> pline_ok p ->
  At text st (toks_pline p ++ replicate bg (Sym 38) ++ ts) -> stop (chars ");") ts ->
  parses (c ← parsepipe mem buf es f; parseback_loop mem buf es (S es) c) st (Nat.iter bg ABack (den_pline p)) ts.
Proof.
  intros Hf Hp Hat Hst.
  destruct (IHpline p st (replicate bg (Sym 38) ++ ts) Hf Hp Hat) as (c & s1 & new & E1 & Hat1 & Hr1 & Hl1).
  { destruct bg as [|bg]; simpl; [|set_solver]. apply (stop_weaken (chars ");")); [done|set_solver]. }
  destruct (back_ok bg (S es) (mkPst s1 (p_cmds st ++ new)) c (den_pline p) ts) as (p' & s' & new' & E2 & Hat2 & Hr2 & Hl2); [|done| |done|].
  { apply At_length in Hat1. rewrite length_app, length_replicate in Hat1. lia. }
  { by apply (stop_next (chars ");")). }
  cbn [p_cmds] in *. rewrite <- app_assoc in *. exists p', s', (new ++ new'). split; [|split; [done|split; [done|]]].
  - by rewrite (pbind_ok _ _ _ _ _ E1).
  - rewrite length_app, nodes_back. lia.
Qed.

Lemma step_line l st ts : (4 * length (toks_line l) + 4 <= S f)%nat -> line_ok l ->
  At text st (toks_line l ++ ts) -> stop (chars ")") ts -> parses (parseline mem buf es (S f)) st (den_line l) ts.
Proof.
  intros Hf Hok Hat Hst.
  assert (Hassoc : forall st', parseline mem buf es (S f) st' =
    (cmd ← (c ← parsepipe mem buf es f; parseback_loop mem buf es (S es) c);
     b ← peek buf es (chars ";");
     if b : bool then gettoken buf es;; right ← parseline mem buf es f; listcmd mem cmd right else mret cmd) st').
  { intros st'. rewrite parseline_S. unfold mbind, P_bind. by destruct (parsepipe mem buf es f st'). }
  destruct l as [p bg|p bg l]; cbn [toks_line line_ok den_line] in *; rewrite <- ?app_assoc in Hat.
  - rewrite length_app in Hf. destruct (pline_back p bg st ts) as (c & s1 & new & E1 & Hat1 & Hr1 & Hl1); [lia|done|done| |].
    { apply (stop_weaken (chars ")")); [done|set_solver]. }
    destruct (peek_at (chars ";") _ _ Hat1 eq_refl) as (s2 & E2 & Hat2).
    exists c, s2, new. split; [|done]. rewrite Hassoc, (pbind_ok _ _ _ _ _ E1), (pbind_ok _ _ _ _ _ E2).
    by rewrite (stop_next _ _ _ Hst).
  - rewrite !length_app in Hf. simpl in Hf. destruct Hok as [Hp Hok].
    destruct (pline_back p bg st (Sym 59 :: toks_line l ++ ts)) as (c & s1 & new & E1 & Hat1 & Hr1 & Hl1); [lia|done|done|simpl; set_solver|].
    destruct (peek_at (chars ";") _ _ Hat1 eq_refl) as (s2 & E2 & Hat2).
    destruct (tok_at _ _ _ Hat2) as (s3 & q & e & E3 & Hat3 & _). cbn [p_cmds] in *.
    destruct (IHline l _ ts ltac:(lia) Hok Hat3 Hst) as (c' & s4 & new' & E4 & Hat4 & Hr4 & Hl4). cbn [p_cmds] in *.
    rewrite <- app_assoc in *. exists (length (p_cmds st ++ new ++ new')), s4, (new ++ new' ++ [LIST c c']).
    replace (p_cmds st ++ new ++ new' ++ [LIST c c']) with ((p_cmds st ++ new ++ new') ++ [LIST c c']) by (by rewrite <- !app_assoc).
    split; [|split; [done|split]].
    + rewrite Hassoc, (pbind_ok _ _ _ _ _ E1), (pbind_ok _ _ _ _ _ E2). change (next_is _ _) with true. cbn match.
      by rewrite (pbind_ok _ _ _ _ _ E3), (pbind_ok _ _ _ _ _ E4).
    + eapply rep_list; [by apply list_lookup_middle| |by apply rep_app].
      by apply rep_app_mid.
    + rewrite !length_app. simpl. lia.
Qed.

Lemma step_pline p st ts : (4 * length (toks_pline p) + 3 <= S f)%nat -> pline_ok p ->
  At text st (toks_pline p ++ ts) -> stop (chars ")&;") ts -> parses (parsepipe mem buf es (S f)) st (den_pline p) ts.
Proof.
  intros Hf Hok Hat Hst. destruct p as [e|e p]; rewrite parsepipe_S; cbn [toks_pline pline_ok den_pline] in *.
  - destruct (IHsimple e st ts) as (c & s1 & new & E1 & Hat1 & Hr1 & Hl1); [lia|done|done| |].
    { apply (stop_weaken (chars ")&;")); [done|set_solver]. }
    destruct (peek_at (chars "|") _ _ Hat1 eq_refl) as (s2 & E2 & Hat2).
    exists c, s2, new. split; [|done]. rewrite (pbind_ok _ _ _ _ _ E1), (pbind_ok _ _ _ _ _ E2).
    by rewrite (stop_next _ _ _ Hst).
  - rewrite length_app_cons in Hf. rewrite <- app_assoc in Hat. cbn [app] in Hat. destruct Hok as [He Hok].
    destruct (IHsimple e st (Sym 124 :: toks_pline p ++ ts)) as (c & s1 & new & E1 & Hat1 & Hr1 & Hl1); [lia|done|done|simpl; set_solver|].
    destruct (peek_at (chars "|") _ _ Hat1 eq_refl) as (s2 & E2 & Hat2).
    destruct (tok_at _ _ _ Hat2) as (s3 & q & e' & E3 & Hat3 & _). cbn [p_cmds] in *.
    destruct (IHpline p _ ts ltac:(lia) Hok Hat3 Hst) as (c' & s4 & new' & E4 & Hat4 & Hr4 & Hl4). cbn [p_cmds] in *.
    rewrite <- app_assoc in *. exists (length (p_cmds st ++ new ++ new')), s4, (new ++ new' ++ [PIPE c c']).
    replace (p_cmds st ++ new ++ new' ++ [PIPE c c']) with ((p_cmds st ++ new ++ new') ++ [PIPE c c']) by (by rewrite <- !app_assoc).
    split; [|split; [done|split]].
    + rewrite (pbind_ok _ _ _ _ _ E1), (pbind_ok _ _ _ _ _ E2). change (next_is _ _) with true. cbn match.
      by rewrite (pbind_ok _ _ _ _ _ E3), (pbind_ok _ _ _ _ _ E4).
    + eapply rep_pipe; [by apply list_lookup_middle| |by apply rep_app].
      by apply rep_app_mid.
    + rewrite !length_app. simpl. lia.
Qed.

Lemma step_simple e st ts : (4 * length (toks_simple e) + 2 <= S f)%nat -> simple_ok e ->
  At text st (toks_simple e ++ ts) -> stop (chars "|)&;") ts -> parses (parseexec mem buf es (S f)) st (den_simple e) ts.
Proof.
  intros Hf Hok Hat Hst. rewrite parseexec_S. destruct (peek_at (chars "(") _ _ Hat eq_refl) as (s1 & E1 & Hat1).
  destruct e as [l rs|rs args]; cbn [simple_ok den_simple] in *.
  - destruct (IHblock l rs (mkPst s1 (p_cmds st)) ts ltac:(lia) Hok Hat1) as (c & s2 & new & E2 & Hr); [by apply stop_redir|].
    exists c, s2, new. split; [|done]. by rewrite (pbind_ok _ _ _ _ _ E1).
  - destruct (simple_parses rs args (mkPst s1 (p_cmds st)) ts Hok Hat1 Hst) as (c & s2 & new & E2 & Hr).
    exists c, s2, new. split; [|done]. rewrite (pbind_ok _ _ _ _ _ E1).
    replace (next_is (chars "(") _) with false; [done|]. cbn [toks_simple].
    destruct rs as [|[[] x] rs]; [|done..]. destruct args as [|[x xr] args]; [|done]. simpl.
    symmetry. by apply (stop_next _ _ _ Hst).
Qed.

Lemma step_block l rs st ts : (4 * length (toks_simple (EBlock l rs)) + 1 <= S f)%nat -> line_ok l ->
  At text st (toks_simple (EBlock l rs) ++ ts) -> next_is (chars "<>") ts = false ->
  parses (parseblock mem buf es (S f)) st (den_simple (EBlock l rs)) ts.
Proof.
  intros Hf Hok Hat Hn. rewrite parseblock_S. cbn [toks_simple den_simple] in *. cbn [app] in Hat. rewrite <- app_assoc in Hat. cbn [app] in Hat.
  cbn [length] in Hf. rewrite length_app_cons in Hf.
  destruct (peek_at (chars "(") _ _ Hat eq_refl) as (s1 & E1 & Hat1).
  destruct (tok_at _ _ _ Hat1) as (s2 & q & e & E2 & Hat2 & _). cbn [p_cmds] in *.
  destruct (IHline l _ (Sym 41 :: toks_redirs rs ++ ts) ltac:(lia) Hok Hat2 ltac:(simpl; set_solver)) as (c & s3 & new & E3 & Hat3 & Hr3 & Hl3).
  cbn [p_cmds] in *. destruct (peek_at (chars ")") _ _ Hat3 eq_refl) as (s4 & E4 & Hat4).
  destruct (tok_at _ _ _ Hat4) as (s5 & q' & e' & E5 & Hat5 & _). cbn [p_cmds] in *.
  destruct (redirs_ok rs _ c ts Hat5 Hn) as (p & s6 & new' & E6 & Hat6 & Hw & Hl6). cbn [p_cmds] in *.
  exists p, s6, (new ++ new'). rewrite app_assoc. split; [|split; [done|split]].
  - rewrite (pbind_ok _ _ _ _ _ E1). change (next_is _ _) with true. cbn [negb pwhen].
    rewrite (pbind_ok _ _ _ tt (mkPst s1 (p_cmds st))) by done.
    rewrite (pbind_ok _ _ _ _ _ E2), (pbind_ok _ _ _ _ _ E3), (pbind_ok _ _ _ _ _ E4). change (next_is _ _) with true. cbn [negb pwhen].
    rewrite (pbind_ok _ _ _ tt (mkPst s4 (p_cmds st ++ new))) by done. by rewrite (pbind_ok _ _ _ _ _ E5), E6.
  - apply (wraps_rep _ c); [done|]. by apply rep_app.
  - rewrite nodes_wrap, length_app. lia.
Qed.
End step.

Lemma parse_all f :
  (forall l st ts, (4 * length (toks_line l) + 4 <= f)%nat -> line_ok l ->
    At text st (toks_line l ++ ts) -> stop (chars ")") ts -> parses (parseline mem buf es f) st (den_line l) ts) /\
  (forall p st ts, (4 * length (toks_pline p) + 3 <= f)%nat -> pline_ok p ->
    At text st (toks_pline p ++ ts) -> stop (chars ")&;") ts -> parses (parsepipe mem buf es f) st (den_pline p) ts) /\
  (forall e st ts, (4 * length (toks_simple e) + 2 <= f)%nat -> simple_ok e ->
    At text st (toks_simple e ++ ts) -> stop (chars "|)&;") ts -> parses (parseexec mem buf es f) st (den_simple e) ts) /\
  (forall l rs st ts, (4 * length (toks_simple (EBlock l rs)) + 1 <= f)%nat -> line_ok l ->
    At text st (toks_simple (EBlock l rs) ++ ts) -> next_is (chars "<>") ts = false ->
    parses (parseblock mem buf es f) st (den_simple (EBlock l rs)) ts).
Proof.
  induction f as [|f (H1 & H2 & H3 & H4)]; [split_and!; intros; lia|].
  split_and!; intros; [by apply step_line|by apply step_pline|by apply step_simple|by apply step_block].
Qed.
End parse.
