(* ===== verification/ShSpec.v ===== *)
(** What the shell of user/sh.c makes of a line: the parsed command and the
    strings nulterminate leaves in the buffer. *)

From S2P Require Import Prelude Memory CString State Uprog Ulib Uprintf Sh ShLex ShParse.

(** The command that structs and buffer stand for, as runcmd reads them. *)
Fixpoint ast_of (fuel : nat) (cs : list cmd) (buf : list Z) (c : nat) : option ast :=
  match fuel with
  | O => None
  | S fuel' =>
      x ← cs !! c;
      match x with
      | EXEC argv _ => Some (AExec (strs_at buf argv))
      | REDIR c' file _ mode fd => a ← ast_of fuel' cs buf c'; Some (ARedir a (str_at buf file) mode fd)
      | PIPE l r => a ← ast_of fuel' cs buf l; b ← ast_of fuel' cs buf r; Some (APipe a b)
      | LIST l r => a ← ast_of fuel' cs buf l; b ← ast_of fuel' cs buf r; Some (AList a b)
      | BACK c' => a ← ast_of fuel' cs buf c'; Some (ABack a)
      end
  end.

Section nul.
Context (text junk : list Z).
Hypothesis Htext : nonul text.
Let buf := text ++ 0 :: junk.
Let es := length text.

(** The buffer [b] has the words of the text where they were. *)
Definition keeps (b : list Z) : Prop :=
  length b = length buf /\ forall i c, text !! i = Some c -> wordc c = true -> b !! i = Some c.

(** [b'] has the NULs of [b]. *)
Definition nuls (b b' : list Z) : Prop := forall i, b !! i = Some 0 -> b' !! i = Some 0.

Lemma put_nul_ok e b : (e <= es)%nat -> wordc (chr (drop e text)) = false -> keeps b ->
  exists b', put_nul e b = mret b' /\ keeps b' /\ nuls b b' /\ b' !! e = Some 0.
Proof.
  intros He Hw [Hl Hk]. assert (Hlt : (e < length b)%nat) by (rewrite Hl; unfold buf; rewrite length_app; simpl; fold es; lia).
  unfold put_nul. rewrite (proj2 (Nat.ltb_lt _ _) Hlt). eexists. split_and!; [done| | |].
  - split; [by rewrite length_insert|]. intros i c Hi Hc. rewrite list_lookup_insert_ne; [by apply Hk|].
    intros <-. rewrite (drop_S _ _ _ Hi) in Hw. simpl in Hw. congruence.
  - intros i Hi. destruct (decide (e = i)) as [<-|Hne]; [by rewrite list_lookup_insert_eq|]. by rewrite list_lookup_insert_ne.
  - by rewrite list_lookup_insert_eq.
Qed.

Lemma word_str q e x b : word_at text q e x -> keeps b -> b !! e = Some 0 -> str_at b q = x.
Proof.
  intros (He & Ed & Ee & Hx & _) [Hl Hk] H0. unfold str_at.
  assert (Hpre : take (length x) (drop q b) = x).
  { apply list_eq. intros i. destruct (decide (i < length x)%nat) as [Hi|Hi].
    - rewrite lookup_take_lt, lookup_drop by done. destruct (lookup_lt_is_Some_2 x i Hi) as [c Hc]. rewrite Hc.
      apply Hk.
      + rewrite <- lookup_drop, Ed. by apply lookup_app_l_Some.
      + unfold wordcs in Hx. rewrite Forall_forall in Hx. by apply Hx, list_elem_of_lookup_2 with i.
    - rewrite lookup_take_ge by lia. symmetry. apply lookup_ge_None_2. lia. }
  rewrite <- (take_drop (length x) (drop q b)), Hpre, drop_drop, <- Ee, (drop_S _ _ _ H0).
  apply cstring_nul. eapply Forall_impl; [exact Hx|]. by intros c Hc ->.
Qed.

Lemma nul_args_ok argv eargv xs : args_at text argv eargv xs -> forall b, keeps b ->
  exists b1, nul_args argv eargv b = mret b1 /\ keeps b1 /\ nuls b b1 /\
  forall b', keeps b' -> nuls b1 b' -> strs_at b' argv = xs.
Proof.
  induction 1 as [argv eargv|q e x argv eargv xs Hx _ IH]; intros b Hb; cbn [nul_args].
  - exists b. split; [done|]. split; [done|]. split; [by intros i|]. done.
  - pose proof Hx as (He & _ & _ & _ & Hw). destruct (put_nul_ok e b He Hw Hb) as (b0 & -> & Hk & Hn & H0).
    destruct (IH _ Hk) as (b1 & E1 & Hk' & Hn' & Hs). exists b1. rewrite ubind_ret.
    split; [done|]. split; [done|]. split; [intros i Hi; by apply Hn', Hn|].
    intros b' Hb' Hnb. cbn [strs_at]. rewrite (word_str q e x) by (try done; by apply Hnb, Hn'). f_equal. by apply Hs.
Qed.

(** nulterminate ends every string of the command [a] in the buffer [b], and no
    other. *)
Definition cuts (fuel : nat) (cs : list cmd) (c : nat) (a : ast) (b : list Z) : Prop :=
  exists b', nulterminate fuel cs c b = mret b' /\ keeps b' /\ nuls b b' /\
    forall fuel' b'', (nodes a <= fuel')%nat -> keeps b'' -> nuls b' b'' -> ast_of fuel' cs b'' c = Some a.

Lemma cuts_two fuel cs l r a1 a2 b : cuts fuel cs l a1 b -> (forall b1, keeps b1 -> cuts fuel cs r a2 b1) ->
  exists b', (nulterminate fuel cs l b ≫= nulterminate fuel cs r) = mret b' /\ keeps b' /\ nuls b b' /\
    forall fuel' b'', (nodes a1 + nodes a2 <= fuel')%nat -> keeps b'' -> nuls b' b'' ->
      ast_of fuel' cs b'' l = Some a1 /\ ast_of fuel' cs b'' r = Some a2.
Proof.
  intros (b1 & -> & Hk1 & Hn1 & Ha1) H2. destruct (H2 b1 Hk1) as (b2 & E2 & Hk2 & Hn2 & Ha2).
  exists b2. rewrite ubind_ret. split; [done|]. split; [done|]. split; [intros i Hi; by apply Hn2, Hn1|].
  intros fuel' b'' Hf' Hk' Hn'. split; [apply Ha1; [lia|done|intros i Hi; by apply Hn', Hn2]|apply Ha2; [lia|done|done]].
Qed.

Lemma nulterminate_ok cs c a : rep text cs c a -> forall fuel b, (nodes a <= fuel)%nat -> keeps b -> cuts fuel cs c a b.
Proof.
  unfold cuts.
  induction 1 as [c argv eargv xs E Hargs|c c' q e mode fd a x E Hx _ IH|c l r a1 a2 E _ IH1 _ IH2|c l r a1 a2 E _ IH1 _ IH2|c c' a E _ IH];
    intros fuel b Hf Hb; (destruct fuel as [|fuel]; [simpl in Hf; lia|]); cbn [nulterminate nodes] in *; rewrite E.
  - destruct (nul_args_ok _ _ _ Hargs b Hb) as (b1 & -> & Hk & Hn & Hs). exists b1. split; [done|]. split; [done|]. split; [done|].
    intros [|fuel'] b'' Hf' Hk' Hn'; [lia|]. cbn [ast_of]. rewrite E. cbn [mbind option_bind]. by rewrite Hs.
  - destruct (IH fuel b ltac:(lia) Hb) as (b1 & E1 & Hk1 & Hn1 & Ha). rewrite E1, ubind_ret.
    pose proof Hx as (He & _ & _ & _ & Hw). destruct (put_nul_ok e b1 He Hw Hk1) as (b2 & -> & Hk & Hn & H0).
    exists b2. split; [done|]. split; [done|]. split; [intros i Hi; by apply Hn, Hn1|].
    intros [|fuel'] b'' Hf' Hk' Hn'; [lia|]. cbn [ast_of]. rewrite E. cbn [mbind option_bind].
    rewrite Ha by (try done; try lia; intros i Hi; by apply Hn', Hn). cbn [mbind option_bind].
    by rewrite (word_str q e x) by (try done; by apply Hn').
  - destruct (cuts_two fuel cs l r a1 a2 b) as (b2 & E2 & Hk2 & Hn2 & Ha); [apply IH1; [lia|done]|intros; apply IH2; [lia|done]|].
    exists b2. split; [done|]. split; [done|]. split; [done|]. intros [|fuel'] b'' Hf' Hk' Hn'; [lia|]. cbn [ast_of]. rewrite E.
    destruct (Ha fuel' b'') as [Ha1 Ha2]; [lia|done|done|]. cbn [mbind option_bind]. by rewrite Ha1, Ha2.
  - destruct (cuts_two fuel cs l r a1 a2 b) as (b2 & E2 & Hk2 & Hn2 & Ha); [apply IH1; [lia|done]|intros; apply IH2; [lia|done]|].
    exists b2. split; [done|]. split; [done|]. split; [done|]. intros [|fuel'] b'' Hf' Hk' Hn'; [lia|]. cbn [ast_of]. rewrite E.
    destruct (Ha fuel' b'') as [Ha1 Ha2]; [lia|done|done|]. cbn [mbind option_bind]. by rewrite Ha1, Ha2.
  - destruct (IH fuel b ltac:(lia) Hb) as (b1 & E1 & Hk1 & Hn1 & Ha). exists b1. split; [done|]. split; [done|]. split; [done|].
    intros [|fuel'] b'' Hf' Hk' Hn'; [lia|]. cbn [ast_of]. rewrite E. cbn [mbind option_bind]. by rewrite Ha by (try done; lia).
Qed.

Lemma keeps_buf : keeps buf.
Proof. split; [done|]. intros i c Hi _. by apply lookup_app_l_Some. Qed.
End nul.

(** A line of the shell's grammar, however its tokens are spaced, is parsed
    to the command it stands for: parsecmd returns, the structs it builds have
    the structure of the line, and every word and file name reads back as written
    once nulterminate has cut the buffer into strings. *)
Lemma parsecmd_complete l text junk :
  nonul text -> tokenize text = toks_line l -> line_ok l ->
  exists cs c buf', parsecmd (fun _ => true) (text ++ 0 :: junk) = mret (cs, c, buf') /\
    ast_of (S (length cs)) cs buf' c = Some (den_line l).
Proof.
  intros Hn Ht Hok. unfold parsecmd. rewrite strlen_nat_app by done. cbn [strlen_nat]. rewrite Z.eqb_refl, Nat.add_0_r.
  set (es := length text). set (buf := text ++ 0 :: junk).
  assert (Hat : At text (mkPst 0 []) (toks_line l ++ [])).
  { split; [simpl; lia|]. rewrite app_nil_r, <- Ht. by apply lex_tokenize. }
  destruct (proj1 (parse_all text junk Hn (parse_fuel es)) l (mkPst 0 []) []) as (c & s1 & new & E1 & Hat1 & Hr & Hl); [|done|done|done|].
  { apply At_length in Hat. rewrite app_nil_r in Hat. unfold parse_fuel, es. lia. }
  cbn [p_cmds app] in *.
  rewrite (pbind_ok _ _ _ _ _ E1), (pbind_ok _ _ _ _ _ (peek_end text junk [] _ Hat1)).
  unfold mret at 1, P_ret. cbn [p_s p_cmds]. fold es. rewrite Nat.eqb_refl. cbn [negb].
  destruct (nulterminate_ok text junk new c (den_line l) Hr (S (length new)) buf) as (b' & E2 & Hk & _ & Ha); [lia|apply keeps_buf|].
  rewrite E2, ubind_ret. exists new, c, b'. split; [done|]. apply Ha; [lia|done|by intros i].
Qed.
