(* ===== verification/ShTotal.v ===== *)
(** The parser of the shell (user/sh.c) on any line: it returns well-formed structs
    or panics; it never loops, and faults only where malloc fails. *)

From S2P Require Import Prelude Numeral Memory CString State Uprog Ulib Uprintf Sh ShLex ShParse ShSpec.

(** A struct at index [i], for a line of [es] characters: its parts are older, an argv
    ends in a null pointer, and every argument and file name ends within the line. *)
Definition node_ok (es i : nat) (x : cmd) : Prop :=
  match x with
  | EXEC argv eargv =>
      length argv = MAXARGS /\ length eargv = MAXARGS /\ argv !! 9%nat = Some None /\
      forall k q, argv !! k = Some (Some q) -> exists e, eargv !! k = Some (Some e) /\ (e <= es)%nat
  | REDIR c _ e _ _ => (c < i)%nat /\ (e <= es)%nat
  | BACK c => (c < i)%nat
  | PIPE l r | LIST l r => (l < i)%nat /\ (r < i)%nat
  end.
Definition store_ok (es : nat) (cs : list cmd) : Prop := forall i x, cs !! i = Some x -> node_ok es i x.

Lemma store_ok_snoc es cs x : store_ok es cs -> node_ok es (length cs) x -> store_ok es (cs ++ [x]).
Proof.
  intros H Hx i y Hi. apply lookup_app_Some in Hi as [Hi|[Hl Hi]]; [by apply H|].
  apply list_lookup_singleton_Some in Hi as [Hi <-]. by replace i with (length cs) by lia.
Qed.

Section total.
Context (mem : nat -> bool) (text junk : list Z).
Hypothesis Htext : nonul text.
Let buf := text ++ 0 :: junk.
Let es := length text.
(** Each token costs two structs at most, and a command of no token one. *)
Hypothesis Hmem : forall i, (i <= 2 * es)%nat -> mem i = true.

(** The struct of a simple command. *)
Definition is_exec (e : nat) (st : pst) : Prop := exists argv eargv, p_cmds st !! e = Some (EXEC argv eargv).

(** The store grows, and simple commands stay such. *)
Definition grows (st st' : pst) : Prop :=
  (length (p_cmds st) <= length (p_cmds st'))%nat /\ forall e, is_exec e st -> is_exec e st'.
#[local] Instance grows_preorder : PreOrder grows.
Proof.
  split; [by split|]. intros st1 st2 st3 [H1 H2] [H3 H4]. split; [lia|auto].
Qed.

(** There is memory for what the tokens [ts] need, and for [k] more structs. *)
Definition room (st : pst) (ts : list token) (k : nat) : Prop :=
  (length (p_cmds st) + 2 * length ts + k <= 2 * es + 1)%nat.

(** [m] panics, or returns with no more tokens left than [n], with room for [k]
    structs, and with a well-formed store. *)
Definition fine {A} (m : P A) (st : pst) (n k : nat) (Q : A -> pst -> Prop) : Prop :=
  match m st with
  | PFuel | PFault => False
  | PPanic _ => True
  | POk a st' =>
      store_ok es (p_cmds st') /\ grows st st' /\
      (exists ts, At text st' ts /\ (length ts <= n)%nat /\ room st' ts k) /\ Q a st'
  end.

Lemma fine_bind {A B} (m : P A) (f : A -> P B) st n' k' n k Q R :
  fine m st n' k' Q ->
  (forall a st' ts, store_ok es (p_cmds st') -> grows st st' ->
     At text st' ts -> (length ts <= n')%nat -> room st' ts k' -> Q a st' -> fine (f a) st' n k R) ->
  fine (m ≫= f) st n k R.
Proof.
  intros Hm Hf. unfold fine in *. unfold mbind, P_bind. destruct (m st) as [a st'| | |]; [|done..].
  destruct Hm as (Hs & Hl & (ts & Hat & Hts & Hr) & HQ). specialize (Hf a st' ts Hs Hl Hat Hts Hr HQ).
  destruct (f a st') as [b st''| | |]; [|done..]. destruct Hf as (? & ? & ? & ?). split_and!; [done|by transitivity st'|done|done].
Qed.

Lemma fine_pwhen {A} b msg (f : unit -> P A) st n k Q :
  (b = false -> fine (f tt) st n k Q) -> fine (pwhen b (ppanic msg) ≫= f) st n k Q.
Proof. intros H. destruct b; [done|]. by apply H. Qed.

Lemma fine_mono {A} (m : P A) st n n' k k' Q : fine m st n k Q -> (n <= n')%nat -> (k' <= k)%nat -> fine m st n' k' Q.
Proof.
  unfold fine, room. destruct (m st); [|done..]. intros (? & ? & (ts & ? & ? & ?) & ?) Hn Hk. split_and!; [done|done| |done].
  exists ts. split_and!; [done|lia|lia].
Qed.

(** A command that is in the store. *)
Definition is_cmd (c : nat) (st : pst) : Prop := (c < length (p_cmds st))%nat.

Lemma fine_ret c st ts n k :
  store_ok es (p_cmds st) -> At text st ts -> room st ts k -> (length ts <= n)%nat -> is_cmd c st -> fine (mret c) st n k is_cmd.
Proof. intros. unfold fine. simpl. split_and!; [done|done|by exists ts|done]. Qed.

Lemma fine_new x st ts n k :
  store_ok es (p_cmds st) -> At text st ts -> room st ts (S k) -> (length ts <= n)%nat ->
  node_ok es (length (p_cmds st)) x -> fine (new_cmd mem x) st n k is_cmd.
Proof.
  intros Hs Hat Hr Hn Hx. unfold room in Hr. unfold fine, new_cmd, is_cmd, room. rewrite Hmem by lia. cbn [p_cmds]. rewrite length_app. simpl.
  split_and!; [by apply store_ok_snoc| |exists ts; split_and!; [done|done|lia]|lia].
  split; cbn [p_cmds]; [rewrite length_app; lia|]. intros e (a1 & a2 & E). exists a1, a2. by apply lookup_app_l_Some.
Qed.

(** peek, then one of two continuations; gettoken uses up a token, if there is one. *)
Lemma fine_peek {A} l (f : bool -> P A) st ts n k Q :
  At text st ts -> forallb symc l = true ->
  (forall st', At text st' ts -> p_cmds st' = p_cmds st -> fine (f (next_is l ts)) st' n k Q) ->
  fine (b ← peek buf es l; f b) st n k Q.
Proof.
  intros Hat Hl Hf. destruct (peek_at text junk l st ts Hat Hl) as (s' & E & Hat'). unfold fine.
  rewrite (pbind_ok _ _ _ _ _ E). exact (Hf _ Hat' eq_refl).
Qed.

Lemma token_end st t ts q e : At text st (t :: ts) -> (forall x, t = Word x -> word_at text q e x) -> kind t = 97 -> (e <= es)%nat.
Proof.
  intros [_ Hl] Hw Hk. destruct t as [x|c|]; [by destruct (Hw x eq_refl)| |done]. simpl in Hk. subst c.
  inversion Hl as [|? ? ? ? _ Hc| |]. by vm_compute in Hc.
Qed.

Lemma fine_token {A} (f : Z * nat * nat -> P A) st ts n k Q :
  At text st ts ->
  (forall t st', At text st' (tl ts) -> p_cmds st' = p_cmds st -> (t.1.1 = 0 \/ ts <> []) -> (t.1.1 = 97 -> (t.2 <= es)%nat) ->
     fine (f t) st' n k Q) ->
  fine (t ← gettoken buf es; f t) st n k Q.
Proof.
  intros Hat Hf. unfold fine. destruct ts as [|t ts].
  - destruct (gettoken_end text junk st Hat) as (s' & q & e & E & Hat'). rewrite (pbind_ok _ _ _ _ _ E).
    apply (Hf (0, q, e) _ Hat' eq_refl); [by left|done].
  - destruct (tok_at text junk Htext st t ts Hat) as (s' & q & e & E & Hat' & Hw). rewrite (pbind_ok _ _ _ _ _ E).
    apply (Hf (kind t, q, e) _ Hat' eq_refl); [by right|]. intros Hk. by apply (token_end st t ts q).
Qed.

Lemma next_is_nonempty l ts : next_is l ts = true -> (S (length (tl ts)) = length ts)%nat.
Proof. by destruct ts. Qed.

Lemma tl_length {A} (l : list A) : (length (tl l) <= length l)%nat.
Proof. destruct l; simpl; lia. Qed.

(** Room is counted by the structs. *)
Lemma room_same st st' ts ts' k k' : p_cmds st' = p_cmds st -> room st ts k -> (2 * length ts' + k' <= 2 * length ts + k)%nat -> room st' ts' k'.
Proof. unfold room. intros ->. lia. Qed.

Lemma fine_redirs fuel k : forall st c ts,
  (length ts < fuel)%nat -> store_ok es (p_cmds st) -> is_cmd c st -> At text st ts -> room st ts k ->
  fine (parseredirs_loop mem buf es fuel c) st (length ts) k is_cmd.
Proof.
  induction fuel as [|fuel IH]; intros st c ts Hf Hs Hc Hat Hr; [lia|]. cbn [parseredirs_loop]. unfold is_cmd in Hc.
  apply (fine_peek _ _ _ ts); [done|done|]. intros st1 Hat1 E1. rewrite <- E1 in Hs, Hc.
  destruct (next_is _ ts) eqn:En; [|apply fine_ret with ts; [done|done|by apply (room_same st _ ts _ k)|done|done] ]. apply next_is_nonempty in En.
  apply (fine_token _ _ ts); [done|]. intros [[tok ?] ?] st2 Hat2 E2 _ _.
  apply (fine_token _ _ (tl ts)); [done|]. intros [[t q] e] st3 Hat3 E3 _ He. cbn [fst snd] in He.
  pose proof (tl_length (tl ts)) as Hlen.
  assert (Hr3 : room st3 (tl (tl ts)) (S k)) by (apply (room_same st _ ts _ k); [by rewrite E3, E2|done|lia]).
  rewrite <- E2, <- E3 in Hs, Hc. apply fine_pwhen. intros Ht%negb_false_iff%Z.eqb_eq.
  apply (fine_bind _ _ _ (length (tl (tl ts))) k _ _ is_cmd).
  { destruct (tok =? 60); [|destruct (tok =? 62); [|destruct (tok =? 43)]];
      try (apply fine_new with (tl (tl ts)); [done|done|done|done|split; auto]).
    apply fine_ret with (tl (tl ts)); [done|done|unfold room in *; lia|done|done]. }
  intros c' st4 ts4 Hs4 _ Hat4 Hl4 Hr4 Hc4. apply fine_mono with (length ts4) k; [|lia|lia]. apply IH; [lia|done..].
Qed.

Lemma fine_parseredirs st c ts k :
  store_ok es (p_cmds st) -> is_cmd c st -> At text st ts -> room st ts k -> fine (parseredirs mem buf es c) st (length ts) k is_cmd.
Proof. intros Hs Hc Hat Hr. apply fine_redirs; [|done..]. apply At_length in Hat. unfold es. lia. Qed.

Lemma fine_back fuel k : forall st c ts,
  (length ts < fuel)%nat -> store_ok es (p_cmds st) -> is_cmd c st -> At text st ts -> room st ts k ->
  fine (parseback_loop mem buf es fuel c) st (length ts) k is_cmd.
Proof.
  induction fuel as [|fuel IH]; intros st c ts Hf Hs Hc Hat Hr; [lia|]. cbn [parseback_loop]. unfold is_cmd in Hc.
  apply (fine_peek _ _ _ ts); [done|done|]. intros st1 Hat1 E1. rewrite <- E1 in Hs, Hc.
  destruct (next_is _ ts) eqn:En; [|apply fine_ret with ts; [done|done|by apply (room_same st _ ts _ k)|done|done] ]. apply next_is_nonempty in En.
  apply (fine_token _ _ ts); [done|]. intros t st2 Hat2 E2 _ _.
  assert (Hr2 : room st2 (tl ts) (S k)) by (apply (room_same st _ ts _ k); [by rewrite E2|done|lia]). rewrite <- E2 in Hs, Hc.
  apply (fine_bind _ _ _ (length (tl ts)) k _ _ is_cmd); [by apply fine_new with (tl ts)|].
  intros c' st4 ts4 Hs4 _ Hat4 Hl4 Hr4 Hc4. apply fine_mono with (length ts4) k; [|lia|lia]. apply IH; [lia|done..].
Qed.

Lemma set_arg_runs e k q f st : store_ok es (p_cmds st) -> is_exec e st -> (k < MAXARGS)%nat ->
  exists cs', set_arg e k q f st = POk tt (mkPst (p_s st) cs') /\ length cs' = length (p_cmds st) /\ grows st (mkPst (p_s st) cs') /\
    ((q = None \/ (k < 9)%nat /\ is_Some q /\ exists e', f = Some e' /\ (e' <= es)%nat) -> store_ok es cs').
Proof.
  intros Hs (argv & eargv & E) Hk. unfold set_arg. rewrite E, (proj2 (Nat.ltb_lt _ _) Hk). eexists. split; [done|].
  pose proof (lookup_lt_Some _ _ _ E) as Hlt. split; [by rewrite length_insert|]. split.
  { split; cbn [p_cmds]; [by rewrite length_insert|]. intros i (a1 & a2 & Ei). unfold is_exec. cbn [p_cmds].
    destruct (decide (i = e)) as [->|Hie]; [rewrite list_lookup_insert_eq by done; by eexists _, _|].
    rewrite list_lookup_insert_ne by done. by exists a1, a2. }
  intros Hq i x Hi. destruct (decide (i = e)) as [->|Hie]; [|rewrite list_lookup_insert_ne in Hi by done; by apply Hs].
  rewrite list_lookup_insert_eq in Hi by done. injection Hi as <-. destruct (Hs e _ E) as (H1 & H2 & H3 & H4). cbn [node_ok].
  rewrite !length_insert. split_and!; [done|done| |].
  - destruct (decide (k = 9%nat)) as [->|Hk9]; [|by rewrite list_lookup_insert_ne].
    destruct Hq as [->|[? _]]; [|lia]. by rewrite list_lookup_insert_eq by (rewrite H1; unfold MAXARGS; lia).
  - intros j p Hj. destruct (decide (k = j)) as [<-|Hjk].
    + rewrite list_lookup_insert_eq in Hj by lia. injection Hj as ->. destruct Hq as [|(_ & _ & e' & -> & He')]; [done|].
      exists e'. by rewrite list_lookup_insert_eq by lia.
    + rewrite list_lookup_insert_ne in Hj by done. rewrite list_lookup_insert_ne by done. by apply (H4 j p).
Qed.

Lemma fine_set_arg e j q f st ts n k :
  store_ok es (p_cmds st) -> At text st ts -> room st ts k -> (length ts <= n)%nat -> is_exec e st -> (j < MAXARGS)%nat ->
  q = None \/ (j < 9)%nat /\ is_Some q /\ (exists e', f = Some e' /\ (e' <= es)%nat) ->
  fine (set_arg e j q f) st n k (fun _ _ => True).
Proof.
  intros Hs Hat Hr Hn He Hj Hq. destruct (set_arg_runs e j q f st Hs He Hj) as (cs' & E & Hl & Hg & Hs'). unfold fine. rewrite E.
  split_and!; [by apply Hs'|done| |done]. exists ts. split_and!; [done|done|]. unfold room in *. cbn [p_cmds]. lia.
Qed.

Lemma fine_args fuel k : forall st e ret argc ts,
  (length ts < fuel)%nat -> store_ok es (p_cmds st) -> is_exec e st -> is_cmd ret st -> (argc < MAXARGS)%nat -> At text st ts -> room st ts k ->
  fine (parseargs_loop mem buf es fuel e ret argc) st (length ts) k (fun r st' => is_cmd r.1 st' /\ (r.2 < MAXARGS)%nat).
Proof.
  induction fuel as [|fuel IH]; intros st e ret argc ts Hf Hs He Hc Ha Hat Hr; [lia|]. cbn [parseargs_loop].
  assert (Hret : forall st' ts', p_cmds st' = p_cmds st -> At text st' ts' -> (length ts' <= length ts)%nat ->
    fine (mret (ret, argc)) st' (length ts) k (fun r st' => is_cmd r.1 st' /\ (r.2 < MAXARGS)%nat)).
  { intros st' ts' E' Hat' Hl'. unfold fine. simpl. unfold is_cmd, room in *. rewrite E'.
    split_and!; [done|done|exists ts'; split_and!; [done|done|lia]|done|done]. }
  apply (fine_peek _ _ _ ts); [done|done|]. intros st1 Hat1 E1. destruct (next_is _ ts) eqn:En; [by apply Hret with ts|].
  apply (fine_token _ _ ts); [done|]. intros [ [tok q] f] st2 Hat2 E2 Ht Hend. cbn [fst snd] in Ht, Hend. pose proof (tl_length ts) as Htl.
  rewrite E1 in E2. destruct (Z.eqb_spec tok 0) as [->|Htok]; [by apply Hret with (tl ts)|].
  assert (Hts : (length (tl ts) < length ts)%nat) by (destruct Ht as [|Hts]; [done|]; destruct ts; [done|simpl; lia]).
  apply fine_pwhen. intros Hw%negb_false_iff%Z.eqb_eq.
  assert (He2 : is_exec e st2) by (unfold is_exec in *; by rewrite E2).
  assert (Hs2 : store_ok es (p_cmds st2)) by by rewrite E2.
  destruct (decide (argc < 9)%nat) as [Ha9|Ha9].
  - apply (fine_bind _ _ _ (length (tl ts)) k _ _ (fun _ _ => True)).
    { apply fine_set_arg with (tl ts); [done|done|apply (room_same st _ ts _ k); [done|done|lia]|done|done|done|]. right. split_and!; [done|done|]. exists f. auto. }
    intros _ st3 ts3 Hs3 [Hg1 Hg2] Hat3 Hl3 Hr3 _. apply fine_pwhen. intros _.
    apply (fine_bind _ _ _ (length ts3) k _ _ is_cmd).
    { apply fine_parseredirs; [done| |done|done]. unfold is_cmd in *. rewrite E2 in Hg1. lia. }
    intros ret4 st4 ts4 Hs4 [_ Hg4] Hat4 Hl4 Hr4 Hc4. apply fine_mono with (length ts4) k; [|lia|lia].
    apply IH; [lia|done| |done|unfold MAXARGS in *; lia|done|done]. by apply Hg4, Hg2.
  - destruct (set_arg_runs e argc (Some q) (Some f) st2 Hs2 He2 Ha) as (cs' & E & _). unfold fine. rewrite (pbind_ok _ _ _ _ _ E).
    by rewrite (proj2 (Nat.leb_le MAXARGS (S argc))) by (unfold MAXARGS in *; lia).
Qed.

Lemma fine_execcmd st ts k :
  store_ok es (p_cmds st) -> At text st ts -> room st ts (S k) ->
  fine (execcmd mem) st (length ts) k (fun e st' => is_cmd e st' /\ is_exec e st').
Proof.
  intros Hs Hat Hr.
  assert (Hn : node_ok es (length (p_cmds st)) (EXEC (replicate MAXARGS None) (replicate MAXARGS None))).
  { split_and!; [done|done|done|]. intros j q [Hj _]%lookup_replicate. done. }
  pose proof (fine_new _ st ts (length ts) k Hs Hat Hr ltac:(lia) Hn) as H. revert H.
  unfold fine, execcmd, new_cmd. destruct (mem _); [|done]. intros (H1 & H2 & H3 & H4). split_and!; [done..|].
  eexists _, _. by apply list_lookup_middle.
Qed.

Lemma fine_simple st ts k :
  store_ok es (p_cmds st) -> At text st ts -> room st ts (S k) -> fine (parsesimple mem buf es) st (length ts) k is_cmd.
Proof.
  intros Hs Hat Hr. unfold parsesimple. apply (fine_bind _ _ _ (length ts) k _ _ (fun e st' => is_cmd e st' /\ is_exec e st')); [by apply fine_execcmd|].
  intros e st1 ts1 Hs1 _ Hat1 Hl1 Hr1 [Hc1 He1]. apply (fine_bind _ _ _ (length ts1) k _ _ is_cmd); [by apply fine_parseredirs|].
  intros ret st2 ts2 Hs2 [_ Hg2] Hat2 Hl2 Hr2 Hc2.
  apply (fine_bind _ _ _ (length ts2) k _ _ (fun r st' => is_cmd r.1 st' /\ (r.2 < MAXARGS)%nat)).
  { apply fine_args; [|done|by apply Hg2|done|unfold MAXARGS; lia|done|done]. apply At_length in Hat2. unfold es. lia. }
  intros [p argc] st3 ts3 Hs3 [_ Hg3] Hat3 Hl3 Hr3 [Hc3 Ha3]. cbn [fst snd] in *.
  apply (fine_bind _ _ _ (length ts3) k _ _ (fun _ _ => True)); [apply fine_set_arg with ts3; auto|].
  intros _ st4 ts4 Hs4 [Hg4 _] Hat4 Hl4 Hr4 _. apply fine_ret with ts4; [done|done|done|lia|]. unfold is_cmd in *. lia.
Qed.

(** A binary operator after its left side: its token, its right side, its struct. *)
Lemma fine_right (mk : nat -> nat -> P nat) (right : P nat) c st ts k node :
  (forall l r, mk l r = new_cmd mem (node l r)) -> (forall i l r, (l < i)%nat -> (r < i)%nat -> node_ok es i (node l r)) ->
  ts <> [] -> store_ok es (p_cmds st) -> At text st ts -> room st ts k -> is_cmd c st ->
  (forall st' k, store_ok es (p_cmds st') -> At text st' (tl ts) -> room st' (tl ts) (S k) -> fine right st' (length (tl ts)) k is_cmd) ->
  fine (gettoken buf es;; r ← right; mk c r) st (length ts) k is_cmd.
Proof.
  intros Hmk Hnode Hne Hs Hat Hr Hc Hright. assert (Hlt : S (length (tl ts)) = length ts) by by destruct ts.
  apply (fine_token _ _ ts); [done|]. intros t st4 Hat4 E4 _ _.
  assert (Hr4 : room st4 (tl ts) (S (S k))) by (apply (room_same st _ ts _ k); [done|done|lia]).
  unfold is_cmd in Hc. rewrite <- E4 in Hs, Hc.
  apply (fine_bind _ _ _ (length (tl ts)) (S k) _ _ is_cmd); [by apply Hright|].
  intros c5 st5 ts5 Hs5 [Hg5 _] Hat5 Hl5 Hr5 Hc5. rewrite Hmk. unfold is_cmd in Hc5.
  apply fine_new with ts5; [done|done|done|lia|]. apply Hnode; lia.
Qed.

Lemma fine_all f : forall k,
  (forall st ts, (4 * length ts + 4 <= f)%nat -> store_ok es (p_cmds st) -> At text st ts -> room st ts (S k) -> fine (parseline mem buf es f) st (length ts) k is_cmd) /\
  (forall st ts, (4 * length ts + 3 <= f)%nat -> store_ok es (p_cmds st) -> At text st ts -> room st ts (S k) -> fine (parsepipe mem buf es f) st (length ts) k is_cmd) /\
  (forall st ts, (4 * length ts + 2 <= f)%nat -> store_ok es (p_cmds st) -> At text st ts -> room st ts (S k) -> fine (parseexec mem buf es f) st (length ts) k is_cmd) /\
  (forall st ts, (4 * length ts + 1 <= f)%nat -> store_ok es (p_cmds st) -> At text st ts -> room st ts (S k) -> fine (parseblock mem buf es f) st (length ts) k is_cmd).
Proof.
  induction f as [|f IH]; intros k; [split_and!; intros; lia|]. destruct (IH k) as (Hline & Hpipe & Hexec & Hblock). split_and!; intros st ts Hf Hs Hat Hr.
  - rewrite parseline_S. apply (fine_bind _ _ _ (length ts) k _ _ is_cmd); [apply Hpipe; [lia|done..]|].
    intros c st1 ts1 Hs1 _ Hat1 Hl1 Hr1 Hc1. apply (fine_bind _ _ _ (length ts1) k _ _ is_cmd).
    { apply fine_back; [|done..]. apply At_length in Hat1. unfold es. lia. }
    intros c2 st2 ts2 Hs2 _ Hat2 Hl2 Hr2 Hc2. apply (fine_peek _ _ _ ts2); [done|done|]. intros st3 Hat3 E3.
    assert (Hr3 : room st3 ts2 k) by (by apply (room_same st2 _ ts2 _ k)). rewrite <- E3 in Hs2. unfold is_cmd in Hc2. rewrite <- E3 in Hc2.
    destruct (next_is _ ts2) eqn:En; [|apply fine_ret with ts2; [done|done|done|lia|done]].
    apply fine_mono with (length ts2) k; [|lia|lia]. apply (fine_right (listcmd mem) _ _ _ _ _ LIST); try done; [by destruct ts2|].
    apply next_is_nonempty in En. intros st' k' Hs' Hat' Hr'. apply (proj1 (IH k')); [lia|done..].
  - rewrite parsepipe_S. apply (fine_bind _ _ _ (length ts) k _ _ is_cmd); [apply Hexec; [lia|done..]|].
    intros c2 st2 ts2 Hs2 _ Hat2 Hl2 Hr2 Hc2. apply (fine_peek _ _ _ ts2); [done|done|]. intros st3 Hat3 E3.
    assert (Hr3 : room st3 ts2 k) by (by apply (room_same st2 _ ts2 _ k)). rewrite <- E3 in Hs2. unfold is_cmd in Hc2. rewrite <- E3 in Hc2.
    destruct (next_is _ ts2) eqn:En; [|apply fine_ret with ts2; [done|done|done|lia|done]].
    apply fine_mono with (length ts2) k; [|lia|lia]. apply (fine_right (pipecmd mem) _ _ _ _ _ PIPE); try done; [by destruct ts2|].
    apply next_is_nonempty in En. intros st' k' Hs' Hat' Hr'. apply (proj1 (proj2 (IH k'))); [lia|done..].
  - rewrite parseexec_S. apply (fine_peek _ _ _ ts); [done|done|]. intros st1 Hat1 E1.
    assert (Hr1 : room st1 ts (S k)) by (by apply (room_same st _ ts _ (S k))). rewrite <- E1 in Hs.
    destruct (next_is _ ts); [apply Hblock; [lia|done..]|by apply fine_simple].
  - rewrite parseblock_S. apply (fine_peek _ _ _ ts); [done|done|]. intros st1 Hat1 E1.
    apply fine_pwhen. intros En%negb_false_iff%next_is_nonempty.
    apply (fine_token _ _ ts); [done|]. intros t st2 Hat2 E2 _ _.
    assert (Hr2 : room st2 (tl ts) (S k)) by (apply (room_same st _ ts _ (S k)); [by rewrite E2|done|lia]). rewrite <- E1, <- E2 in Hs.
    apply (fine_bind _ _ _ (length (tl ts)) k _ _ is_cmd); [apply Hline; [lia|done..]|].
    intros c3 st3 ts3 Hs3 _ Hat3 Hl3 Hr3 Hc3. apply (fine_peek _ _ _ ts3); [done|done|]. intros st4 Hat4 E4.
    apply fine_pwhen. intros _. apply (fine_token _ _ ts3); [done|]. intros t' st5 Hat5 E5 _ _. pose proof (tl_length ts3).
    assert (Hr5 : room st5 (tl ts3) k) by (apply (room_same st3 _ ts3 _ k); [by rewrite E5|done|lia]).
    unfold is_cmd in Hc3. rewrite <- E4, <- E5 in Hs3, Hc3.
    apply fine_mono with (length (tl ts3)) k; [|lia|lia]. by apply fine_parseredirs.
Qed.

(** The parser on the whole line. *)
Lemma fine_line : fine (c ← parseline mem buf es (parse_fuel es); peek buf es [];; mret c) (mkPst 0 []) es 0 is_cmd.
Proof.
  assert (Hat : At text (mkPst 0 []) (tokenize text)) by (split; [simpl; lia|by apply lex_tokenize]).
  pose proof (At_length _ _ _ Hat) as Hl. fold es in Hl.
  apply (fine_bind _ _ _ (length (tokenize text)) 0 _ _ is_cmd).
  { apply (proj1 (fine_all _ 0)); [unfold parse_fuel; lia|by intros i x Hi|done|unfold room; simpl; lia]. }
  intros c st1 ts1 Hs1 _ Hat1 Hl1 Hr1 Hc1. apply (fine_peek _ _ _ ts1); [done|done|]. intros st2 Hat2 E2.
  apply fine_ret with ts1; [by rewrite E2|done|by apply (room_same st1 _ ts1 _ 0)|lia|]. unfold is_cmd in *. by rewrite E2.
Qed.
End total.

(** * Memory that suffices *)

Section limited.
Context (mem : nat -> bool) (buf : list Z) (es : nat).
Let all : nat -> bool := fun _ => true.

(** What runs with some memory faults, or runs as with all memory. *)
Definition limited {A} (m m' : P A) : Prop := forall st, m st = PFault \/ m st = m' st.

Lemma limited_refl {A} (m : P A) : limited m m.
Proof. intros st. by right. Qed.
Lemma limited_bind {A B} (m m' : P A) (f f' : A -> P B) :
  limited m m' -> (forall a, limited (f a) (f' a)) -> limited (m ≫= f) (m' ≫= f').
Proof.
  intros Hm Hf st. unfold mbind, P_bind. destruct (Hm st) as [->|E]; [by left|]. rewrite E.
  destruct (m' st) as [a st'| | |]; [apply Hf|by right..].
Qed.
Lemma limited_new c : limited (new_cmd mem c) (new_cmd all c).
Proof. intros st. unfold new_cmd. destruct (mem _); [by right|by left]. Qed.

Ltac limited := unfold execcmd, redircmd, pipecmd, listcmd, backcmd; repeat first
  [ match goal with |- limited ?m ?m' => constr_eq m m'; apply limited_refl end
  | match goal with |- limited (new_cmd _ _) _ => apply limited_new end
  | match goal with |- limited (_ ≫= _) _ => apply limited_bind; [|intros ?] end
  | match goal with |- limited (let '(_, _) := ?x in _) _ => destruct x end
  | match goal with |- limited (if ?b then _ else _) _ => destruct b end ].

Lemma limited_redirs fuel : forall c, limited (parseredirs_loop mem buf es fuel c) (parseredirs_loop all buf es fuel c).
Proof. induction fuel as [|fuel IH]; intros c; cbn [parseredirs_loop]; limited. apply IH. Qed.
Lemma limited_args fuel : forall c r n, limited (parseargs_loop mem buf es fuel c r n) (parseargs_loop all buf es fuel c r n).
Proof. induction fuel as [|fuel IH]; intros c r n; cbn [parseargs_loop]; limited; [apply limited_redirs|apply IH]. Qed.
Lemma limited_back fuel : forall c, limited (parseback_loop mem buf es fuel c) (parseback_loop all buf es fuel c).
Proof. induction fuel as [|fuel IH]; intros c; cbn [parseback_loop]; limited. apply IH. Qed.
Lemma limited_simple : limited (parsesimple mem buf es) (parsesimple all buf es).
Proof. unfold parsesimple. limited; [apply limited_redirs|apply limited_args]. Qed.

Lemma limited_all f :
  limited (parseline mem buf es f) (parseline all buf es f) /\ limited (parsepipe mem buf es f) (parsepipe all buf es f) /\
  limited (parseexec mem buf es f) (parseexec all buf es f) /\ limited (parseblock mem buf es f) (parseblock all buf es f).
Proof.
  induction f as [|f (H1 & H2 & H3 & H4)]; [split_and!; apply limited_refl|]. split_and!.
  - rewrite !parseline_S. limited; [done|apply limited_back|done].
  - rewrite !parsepipe_S. limited; done.
  - rewrite !parseexec_S. limited; [done|apply limited_simple].
  - rewrite !parseblock_S. limited; [done|apply limited_redirs].
Qed.
End limited.

(** With memory for its structs a line is parsed as with all the memory there is. *)
Lemma parsecmd_memory mem text junk : nonul text -> (forall i, (i <= 2 * length text)%nat -> mem i = true) ->
  parsecmd mem (text ++ 0 :: junk) = parsecmd (fun _ => true) (text ++ 0 :: junk).
Proof.
  intros Hn Hm. pose proof (fine_line mem text junk Hn Hm) as Hf. unfold parsecmd. rewrite strlen_nat_app by done.
  cbn [strlen_nat]. rewrite Z.eqb_refl, Nat.add_0_r. cbv zeta. set (es := length text) in *. set (buf := text ++ 0 :: junk) in *.
  assert (Hl : limited (c ← parseline mem buf es (parse_fuel es); peek buf es [];; mret c)
                       (c ← parseline (fun _ => true) buf es (parse_fuel es); peek buf es [];; mret c)).
  { apply limited_bind; [apply limited_all|]. intros c. apply limited_refl. }
  destruct (Hl (mkPst 0 [])) as [E|E]; [|by rewrite E]. unfold fine in Hf. by rewrite E in Hf.
Qed.

(** * nulterminate *)

(** [b'] is [b] with NULs in the line of [es] characters. *)
Definition cut (es : nat) (b b' : list Z) : Prop :=
  length b' = length b /\ forall i, b' !! i = b !! i \/ (i <= es)%nat /\ b' !! i = Some 0.
#[local] Instance cut_preorder es : PreOrder (cut es).
Proof.
  split; [intros b; split; [done|by left]|]. intros b1 b2 b3 [L1 H1] [L2 H2]. split; [congruence|].
  intros i. destruct (H2 i) as [->|?]; [apply H1|by right].
Qed.

Lemma put_nul_cut es e b : (e <= es)%nat -> (es < length b)%nat -> exists b', put_nul e b = mret b' /\ cut es b b'.
Proof.
  intros He Hb. unfold put_nul. rewrite (proj2 (Nat.ltb_lt _ _)) by lia. eexists. split; [done|].
  split; [by rewrite length_insert|]. intros i. destruct (decide (e = i)) as [<-|Hne].
  - right. rewrite list_lookup_insert_eq by lia. done.
  - left. by rewrite list_lookup_insert_ne.
Qed.

Lemma nul_args_cut es argv : forall eargv b k, argv !! k = Some None -> (es < length b)%nat ->
  (forall j q, argv !! j = Some (Some q) -> exists e, eargv !! j = Some (Some e) /\ (e <= es)%nat) ->
  exists b', nul_args argv eargv b = mret b' /\ cut es b b'.
Proof.
  induction argv as [|[q|] argv IH]; intros eargv b k Hk Hb He; [done| |by exists b].
  destruct k as [|k]; [done|]. destruct (He 0%nat q eq_refl) as (e & E & Hle). destruct eargv as [|x eargv]; [done|].
  injection E as ->. cbn [nul_args]. destruct (put_nul_cut es e b Hle Hb) as (b1 & -> & H1). rewrite ubind_ret.
  destruct (IH eargv b1 k Hk) as (b2 & -> & H2); [by rewrite (proj1 H1)|intros j p Hj; by apply (He (S j) p)|].
  exists b2. split; [done|by transitivity b1].
Qed.

(** nulterminate follows the structs down, and stores NULs in the line. *)
Lemma nulterminate_total es cs : store_ok es cs -> forall fuel c b, (c < fuel)%nat -> (c < length cs)%nat -> (es < length b)%nat ->
  exists b', nulterminate fuel cs c b = mret b' /\ cut es b b'.
Proof.
  intros Hs. induction fuel as [|fuel IH]; intros c b Hf Hc Hb; [lia|]. cbn [nulterminate].
  assert (Htwo : forall l r, (l < c)%nat -> (r < c)%nat -> exists b', (nulterminate fuel cs l b ≫= nulterminate fuel cs r) = mret b' /\ cut es b b').
  { intros l r Hl Hr. destruct (IH l b) as (b1 & -> & H1); [lia|lia|done|]. rewrite ubind_ret.
    destruct (IH r b1) as (b2 & -> & H2); [lia|lia|by rewrite (proj1 H1)|]. exists b2. split; [done|by transitivity b1]. }
  destruct (lookup_lt_is_Some_2 cs c Hc) as [x E]. rewrite E. specialize (Hs c x E).
  destruct x as [argv eargv|c' q e mode fd|l r|l r|c']; simpl in Hs.
  - destruct Hs as (_ & _ & H9 & He). by apply (nul_args_cut es argv eargv b 9).
  - destruct (IH c' b) as (b1 & -> & H1); [lia|lia|done|]. rewrite ubind_ret.
    destruct (put_nul_cut es e b1) as (b2 & -> & H2); [lia|by rewrite (proj1 H1)|]. exists b2. split; [done|by transitivity b1].
  - destruct Hs. by apply Htwo.
  - destruct Hs. by apply Htwo.
  - apply IH; [lia|lia|done].
Qed.

(** [p] writes to the standard error, whatever the writes return, and then goes on
    as [f] says, or exits with status 1. *)
Fixpoint complains {A} (p : U A) (f : A -> Prop) : Prop :=
  match p with
  | Ret a => f a
  | Sys (Cwrite 2 _) k => forall r, complains (k r) f
  | Exit 1 => True
  | _ => False
  end.

Lemma complains_bind {A B} (p : U A) (g : A -> U B) f : complains p (fun a => complains (g a) f) -> complains (p ≫= g) f.
Proof.
  induction p as [a|c k IH|st| |]; intros H; [done| |done|done|done].
  destruct c; try done. destruct fd as [|[|[]|]|]; try done. simpl in *. intros r. by apply IH.
Qed.

Lemma complains_forU l (f : unit -> Prop) : f tt -> complains (forU l (putc 2)) f.
Proof. intros Hf. induction l as [|c l IH]; [done|]. simpl. intros r. exact IH. Qed.

Lemma complains_plain fuel cs : forall fmt ap f, Forall (fun c => 0 < c < 256 /\ c <> 37) cs ->
  complains (vprintf_loop fuel 2 fmt 0 ap) f -> complains (vprintf_loop (length cs + fuel) 2 (cs ++ fmt) 0 ap) f.
Proof.
  induction cs as [|c cs IH]; intros fmt ap f Hcs H; [done|]. apply Forall_cons in Hcs as [[Hc Hp] Hcs].
  cbn [length app Nat.add]. rewrite vprintf_plain by done. simpl. intros _. by apply IH.
Qed.

Lemma complains_s fuel s (f : unit -> Prop) : f tt -> complains (vprintf_loop (S (S (S (S fuel)))) 2 (chars "%s" ++ [10]) 0 [VStr (Some s)]) f.
Proof.
  intros Hf. change (chars "%s" ++ [10]) with [37; 115; 10]. rewrite vprintf_s. apply complains_bind, complains_bind, complains_forU.
  simpl. by intros _.
Qed.

Lemma panic_complains {A} s (f : A -> Prop) : complains (panic s) f.
Proof. apply complains_bind. by apply (complains_s 0). Qed.

Lemma leftovers_complains s (f : unit -> Prop) : f tt -> complains (fprintf 2 (chars "leftovers: %s" ++ [10]) [VStr (Some s)]) f.
Proof.
  intros Hf. apply (complains_plain 4 (chars "leftovers: ") (chars "%s" ++ [10])); [|by apply (complains_s 0)].
  vm_compute. repeat constructor; discriminate.
Qed.

(** C27: the parser is total.  On any line, malformed ones included, and with memory for
    two structs a character and one more, parsecmd either returns structs that are well
    formed (every argv has MAXARGS slots and ends in a null pointer, every part of a
    command was built before the command, every string ends within the line), or
    complains on the standard error and exits with status 1.  It never loops, and it
    never faults: no load or store is outside of the buffer, outside of an argv or
    through a null pointer, and what it stores in the buffer are NULs, within the
    line. *)
Theorem parsecmd_total mem text junk :
  nonul text -> (forall i, (i <= 2 * length text)%nat -> mem i = true) ->
  complains (parsecmd mem (text ++ 0 :: junk)) (fun '(cs, c, buf') =>
    store_ok (length text) cs /\ (c < length cs)%nat /\ cut (length text) (text ++ 0 :: junk) buf').
Proof.
  intros Hn Hm. pose proof (fine_line mem text junk Hn Hm) as Hf. unfold parsecmd. rewrite strlen_nat_app by done.
  cbn [strlen_nat]. rewrite Z.eqb_refl, Nat.add_0_r. cbv zeta. set (es := length text) in *. set (buf := text ++ 0 :: junk) in *.
  unfold fine in Hf. destruct ((c ← parseline mem buf es (parse_fuel es); peek buf es [];; mret c) (mkPst 0 [])) as [c st|msg| |]; [|apply panic_complains|done..].
  destruct Hf as (Hs & _ & _ & Hc). destruct (negb _); [apply complains_bind, leftovers_complains, panic_complains|].
  destruct (nulterminate_total es _ Hs (S (length (p_cmds st))) c buf) as (b' & -> & Hl); [unfold is_cmd in Hc; lia|done| |done].
  unfold buf. rewrite length_app. simpl. fold es. lia.
Qed.

(** A line with three errors, in a child that has memory for 25 structs. *)
Lemma parsecmd_total_witness :
  complains (parsecmd (fun i => i <? 25)%nat (chars "ls | ; (grep" ++ 0 :: [])) (fun '(cs, c, buf') =>
    store_ok 12 cs /\ (c < length cs)%nat /\ cut 12 (chars "ls | ; (grep" ++ 0 :: []) buf').
Proof.
  apply (parsecmd_total (fun i => i <? 25)%nat (chars "ls | ; (grep") []).
  - unfold nonul. vm_compute. repeat constructor; discriminate.
  - change (length (chars "ls | ; (grep")) with 12%nat. intros i Hi. apply Nat.ltb_lt. lia.
Defined.
