(* ===== verification/ShRun.v ===== *)
(** What a command line runs: the processes that runcmd of user/sh.c creates and
    the descriptors each of them has when it calls exec.

    A process is known by its position in the tree of forks; the kernel answers
    every call successfully, with the descriptors of kernel/sysfile.c: dup, open and
    pipe take the lowest free ones. *)

From S2P Require Import Prelude Numeral Bytes Memory CString State Uprog Ulib Uprintf Sh ShLex ShParse ShSpec ShTotal.

(** * Processes and descriptors *)

(** What a descriptor stands for: one the shell was started with, a file that was
    opened, an end of the pipe that a process created. *)
Inductive obj := Inherited (n : nat) | File (path : list Z) (mode : Z) | PipeRead (id : list nat) | PipeWrite (id : list nat).
Abbreviation fdtable := (list (option obj)).

Definition free_slot (T : fdtable) : option nat := fst <$> list_find (fun o => o = None) T.
Definition install (o : obj) (T : fdtable) : option (nat * fdtable) := i ← free_slot T; Some (i, <[i := Some o]> T).
Definition drop_fd (fd : Z) (T : fdtable) : fdtable := if fd <? 0 then T else <[Z.to_nat fd := None]> T.
Definition fd_obj (fd : Z) (T : fdtable) : option obj := if fd <? 0 then None else mjoin (T !! Z.to_nat fd).

(** A program that a process has become: the path and arguments of exec, the
    descriptors. *)
Record started := mkStarted { x_path : list Z; x_argv : list (list Z); x_fds : fdtable }.

Section run.
(** The pid that fork returns in a process, what wait returns. *)
Context (pid waited : list nat -> Z).

(** The programs that [p] starts, from the process [id] with descriptors [T]. *)
Fixpoint spawn {A} (p : U A) (id : list nat) (T : fdtable) : list started :=
  match p with
  | Sys Cfork k => spawn (k (0, [])) (0%nat :: id) T ++ spawn (k (pid id, [])) (1%nat :: id) T
  | Sys (Cexec path argv) _ => [mkStarted path argv T]
  | Sys (Cclose fd) k => spawn (k (0, [])) id (drop_fd fd T)
  | Sys (Cdup fd) k =>
      match fd_obj fd T ≫= fun o => install o T with
      | Some (i, T') => spawn (k (Z.of_nat i, [])) id T'
      | None => spawn (k (-1, [])) id T
      end
  | Sys (Copen path mode) k =>
      match install (File path mode) T with
      | Some (i, T') => spawn (k (Z.of_nat i, [])) id T'
      | None => spawn (k (-1, [])) id T
      end
  | Sys Cpipe k =>
      match install (PipeRead id) T with
      | Some (r, T') =>
          match install (PipeWrite id) T' with
          | Some (w, T'') => spawn (k (0, enc 4 (Z.of_nat r) ++ enc 4 (Z.of_nat w))) (2%nat :: id) T''
          | None => spawn (k (-1, [])) id T
          end
      | None => spawn (k (-1, [])) id T
      end
  | Sys Cwait k => spawn (k (waited id, [])) id T
  | Sys _ k => spawn (k (0, [])) id T
  | _ => []
  end.

(** * What a command means *)

(** Standard input, output and error; no other descriptor is open. *)
Definition std (i o e : obj) : fdtable := [Some i; Some o; Some e] ++ replicate 13 None.

(** The programs of a command with their standard descriptors: a redirection
    replaces one, a pipe joins the output of the left to the input of the right. *)
Fixpoint launch (a : ast) (id : list nat) (i o e : obj) : list started :=
  match a with
  | AExec [] => []
  | AExec (arg0 :: args) => [mkStarted arg0 (arg0 :: args) (std i o e)]
  | ARedir a' file mode fd =>
      if fd =? 0 then launch a' id (File file mode) o e else launch a' id i (File file mode) e
  | APipe l r =>
      launch l (0%nat :: 2%nat :: id) i (PipeWrite id) e ++
      launch r (0%nat :: 1%nat :: 2%nat :: id) (PipeRead id) o e
  | AList l r => launch l (0%nat :: id) i o e ++ launch r (1%nat :: id) i o e
  | ABack a' => launch a' (0%nat :: id) i o e
  end.

(** * Runs *)

(** A program that does not return. *)
Fixpoint noret {A} (p : U A) : Prop :=
  match p with Ret _ => False | Sys _ k => forall r, noret (k r) | _ => True end.

Lemma spawn_noret {A B} (p : U A) (f : A -> U B) : noret p -> forall id T, spawn (p ≫= f) id T = spawn p id T.
Proof using Type.
  induction p as [a|c k IH|st| |]; intros Hp id T; [done| |done|done|done]. simpl in Hp. rewrite ubind_sys.
  destruct c; cbn [spawn]; try (by rewrite !IH by done); try done.
  - destruct (install _ T) as [ [r T'] |]; [|by apply IH]. destruct (install _ T') as [ [w T''] |]; by apply IH.
  - destruct (install _ T) as [ [r T'] |]; by apply IH.
  - destruct (_ ≫= _) as [ [r T'] |]; by apply IH.
Qed.

Lemma noret_bind {A B} (p : U A) (f : A -> U B) : (forall a, noret (f a)) -> noret (p ≫= f).
Proof using Type. intros Hf. induction p as [a|c k IH|st| |]; [apply Hf| |done..]. rewrite ubind_sys. simpl. intros r. apply IH. Qed.

Lemma runcmd_noret fuel cmds buf : forall c, noret (runcmd fuel cmds buf c).
Proof using Type.
  induction fuel as [|fuel IH]; intros c; [done|]. cbn [runcmd]. destruct (cmds !! c) as [ [argv eargv|c' q e m fd|l r|l r|c'] |]; [..|done].
  - destruct (strs_at buf argv); [done|]. apply noret_bind. intros _. by apply noret_bind.
  - apply noret_bind. intros _. apply noret_bind. intros r. destruct (r <? 0); by apply noret_bind.
  - apply noret_bind. intros [res p]. do 9 (apply noret_bind; intros ?). done.
  - do 4 (apply noret_bind; intros ?). done.
  - do 2 (apply noret_bind; intros ?). done.
Qed.

Hypothesis pid_pos : forall id, 0 < pid id.

Lemma spawn_fork1 {A} (f : Z -> U A) id T :
  spawn (fork1 ≫= f) id T = spawn (f 0) (0%nat :: id) T ++ spawn (f (pid id)) (1%nat :: id) T.
Proof using pid_pos.
  unfold fork1, fork, sys. rewrite !ubind_sys. cbn [spawn fst]. rewrite !ubind_ret. change (0 =? -1) with false. cbn match.
  pose proof (pid_pos id). rewrite (proj2 (Z.eqb_neq (pid id) (-1))) by lia. done.
Qed.

Lemma spawn_child {B} (c : U unit) (f : unit -> U B) (x : Z) id T : noret c ->
  spawn (whenU (x =? 0) c ≫= f) id T = if x =? 0 then spawn c id T else spawn (f tt) id T.
Proof using Type. intros Hc. destruct (x =? 0); [by apply spawn_noret|done]. Qed.

(** The descriptors while a pipe is set up. *)
Definition piped (p : list nat) (i o e : obj) : fdtable :=
  [Some i; Some o; Some e; Some (PipeRead p); Some (PipeWrite p)] ++ replicate 11 None.
Definition pipe_fds : list Z := enc 4 3 ++ enc 4 4.

Lemma spawn_pipe {A} (f : answer -> U A) id i o e :
  spawn (pipe ≫= f) id (std i o e) = spawn (f (0, pipe_fds)) (2%nat :: id) (piped id i o e).
Proof using Type. reflexivity. Qed.

Lemma spawn_left {A} (c : U A) id p i o e :
  spawn (close 1;; dup (fd_of 1 pipe_fds);; close (fd_of 0 pipe_fds);; close (fd_of 1 pipe_fds);; c) id (piped p i o e) =
    spawn c id (std i (PipeWrite p) e).
Proof using Type. reflexivity. Qed.

Lemma spawn_right {A} (c : U A) id p i o e :
  spawn (close 0;; dup (fd_of 0 pipe_fds);; close (fd_of 0 pipe_fds);; close (fd_of 1 pipe_fds);; c) id (piped p i o e) =
    spawn c id (std (PipeRead p) o e).
Proof using Type. reflexivity. Qed.

(** Redirections are of the standard input or output. *)
Fixpoint redirs_ok (a : ast) : Prop :=
  match a with
  | AExec _ => True
  | ARedir a' _ _ fd => (fd = 0 \/ fd = 1) /\ redirs_ok a'
  | APipe l r | AList l r => redirs_ok l /\ redirs_ok r
  | ABack a' => redirs_ok a'
  end.

Lemma noret_child (c : U unit) a b d e : noret c -> noret (close a;; dup b;; close d;; close e;; c).
Proof using Type. intros H. by repeat (apply noret_bind; intros ?). Qed.

Lemma runcmd_spawn fuel cs buf : forall c a id i o e,
  ast_of fuel cs buf c = Some a -> redirs_ok a ->
  spawn (runcmd fuel cs buf c) id (std i o e) = launch a id i o e.
Proof using pid_pos.
  induction fuel as [|fuel IH]; intros c a id i o e Ha Hr; [done|]. cbn [ast_of runcmd] in *.
  destruct (cs !! c) as [ [argv eargv|c' q f m fd|l r|l r|c'] |]; [..|done]; cbn [mbind option_bind] in Ha.
  - simplify_eq. destruct (strs_at buf argv) as [|arg0 args]; done.
  - destruct (ast_of fuel cs buf c') as [a'|] eqn:E; [|done]. injection Ha as <-. destruct Hr as [Hfd Hr].
    transitivity (spawn (runcmd fuel cs buf c';; exit 0 : U unit) id
      (if fd =? 0 then std (File (str_at buf q) m) o e else std i (File (str_at buf q) m) e)); [by destruct Hfd as [-> | ->]|].
    rewrite spawn_noret by apply runcmd_noret. cbn [launch]. destruct Hfd as [-> | ->]; by apply IH.
  - destruct (ast_of fuel cs buf l) as [a1|] eqn:E1; [|done]. cbn [mbind option_bind] in Ha.
    destruct (ast_of fuel cs buf r) as [a2|] eqn:E2; [|done]. injection Ha as <-. destruct Hr as [Hr1 Hr2].
    rewrite spawn_pipe. cbv beta iota. change (0 <? 0) with false. cbn [whenU]. rewrite ubind_ret.
    rewrite spawn_fork1, !spawn_child by (apply noret_child, runcmd_noret). rewrite Z.eqb_refl, spawn_left, (IH l a1) by done.
    pose proof (pid_pos (2%nat :: id)). rewrite (proj2 (Z.eqb_neq (pid _) 0)) by lia.
    rewrite spawn_fork1, !spawn_child by (apply noret_child, runcmd_noret). rewrite Z.eqb_refl, spawn_right, (IH r a2) by done.
    pose proof (pid_pos (1%nat :: 2%nat :: id)). rewrite (proj2 (Z.eqb_neq (pid _) 0)) by lia. cbn [launch]. f_equal. apply app_nil_r.
  - destruct (ast_of fuel cs buf l) as [a1|] eqn:E1; [|done]. cbn [mbind option_bind] in Ha.
    destruct (ast_of fuel cs buf r) as [a2|] eqn:E2; [|done]. injection Ha as <-. destruct Hr as [Hr1 Hr2].
    rewrite spawn_fork1, !spawn_child by apply runcmd_noret. rewrite Z.eqb_refl, (IH l a1) by done.
    pose proof (pid_pos id). rewrite (proj2 (Z.eqb_neq (pid id) 0)) by lia. cbn [launch]. f_equal.
    transitivity (spawn (runcmd fuel cs buf r;; exit 0 : U unit) (1%nat :: id) (std i o e)); [done|].
    rewrite spawn_noret by apply runcmd_noret. by apply IH.
  - destruct (ast_of fuel cs buf c') as [a'|] eqn:E; [|done]. injection Ha as <-.
    rewrite spawn_fork1, !spawn_child by apply runcmd_noret. rewrite Z.eqb_refl, (IH c' a') by done.
    pose proof (pid_pos id). rewrite (proj2 (Z.eqb_neq (pid id) 0)) by lia. cbn [launch]. apply app_nil_r.
Qed.
End run.

(** * Command lines *)

Lemma iter_back_ok n a : redirs_ok a -> redirs_ok (Nat.iter n ABack a).
Proof. induction n; [done|]. simpl. auto. Qed.

Lemma wrap_ok rs : forall a, redirs_ok a -> redirs_ok (wrap a rs).
Proof.
  unfold wrap. induction rs as [|r rs IH]; intros a Ha; [done|]. cbn [foldl]. apply IH. split; [|done]. destruct (r_kind r); [by left|by right..].
Qed.

Fixpoint den_line_ok (l : line) : redirs_ok (den_line l) :=
  match l return redirs_ok (den_line l) with
  | LDone p bg => iter_back_ok bg _ (den_pline_ok p)
  | LSeq p bg l' => conj (iter_back_ok bg _ (den_pline_ok p)) (den_line_ok l')
  end
with den_pline_ok (p : pline) : redirs_ok (den_pline p) :=
  match p return redirs_ok (den_pline p) with PDone e => den_simple_ok e | PPipe e p' => conj (den_simple_ok e) (den_pline_ok p') end
with den_simple_ok (e : simple) : redirs_ok (den_simple e) :=
  match e return redirs_ok (den_simple e) with
  | EBlock l rs => wrap_ok rs _ (den_line_ok l)
  | ESimple rs args => wrap_ok (rs ++ mjoin args.*2) (AExec args.*1) I
  end.

(** C8: the shell runs the line it was given.  For a line of the grammar, however
    its tokens are spaced, the child of the shell starts exactly the programs of the
    line, each with its arguments as written and with the standard descriptors that
    its redirections and pipes give it: a pipe joins the output of its left side to
    the input of its right side, and no program is left with another end of a pipe.
    The child needs memory for the structs, at most two for a character of the line
    and one more. *)
Theorem run_line_correct mem pid waited l text junk id i o e :
  (forall i, (i <= 2 * length text)%nat -> mem i = true) ->
  (forall id, 0 < pid id) -> nonul text -> tokenize text = toks_line l -> line_ok l ->
  spawn pid waited (run_line mem (text ++ 0 :: junk)) id (std i o e) = launch (den_line l) id i o e.
Proof.
  intros Hm Hpid Hn Ht Hok. destruct (parsecmd_complete l text junk Hn Ht Hok) as (cs & c & buf & E & Ha).
  unfold run_line. rewrite parsecmd_memory, E, ubind_ret by done. apply runcmd_spawn; [done|done|apply den_line_ok].
Qed.

Lemma run_line_correct_witness :
  let w := chars in let i := Inherited 0 in let o := Inherited 1 in let e := Inherited 2 in
  spawn (fun _ => 7) (fun _ => 7) (run_line (fun i => i <? 100)%nat (w "(ls -l|grep x) >out; cat < out & " ++ [0])) [] (std i o e) =
    [mkStarted (w "ls") [w "ls"; w "-l"] (std i (PipeWrite [0%nat]) e);
     mkStarted (w "grep") [w "grep"; w "x"] (std (PipeRead [0%nat]) (File (w "out") 0x601) e);
     mkStarted (w "cat") [w "cat"] (std (File (w "out") 0) o e)].
Proof.
  apply (run_line_correct (fun i => i <? 100)%nat (fun _ => 7) (fun _ => 7)
    (LSeq (PDone (EBlock (LDone (PPipe (ESimple [] [(chars "ls", []); (chars "-l", [])])
                                       (PDone (ESimple [] [(chars "grep", []); (chars "x", [])]))) 0)
                         [mkRedir ROut (chars "out")])) 0
          (LDone (PDone (ESimple [] [(chars "cat", [mkRedir RIn (chars "out")])])) 1))
    (chars "(ls -l|grep x) >out; cat < out & ") [] [] (Inherited 0) (Inherited 1) (Inherited 2)).
  - change (length (chars "(ls -l|grep x) >out; cat < out & ")) with 33%nat. intros i Hi. apply Nat.ltb_lt. lia.
  - done.
  - unfold nonul. vm_compute. repeat constructor; discriminate.
  - vm_compute. reflexivity.
  - cbn. unfold MAXARGS. lia.
Defined.
