(* ===== verification/Utils.v ===== *)
(** The small user programs (user/cat.c, echo.c, wc.c, kill.c, ln.c, mkdir.c, rm.c,
    zombie.c, init.c, stressfs.c, forktest.c, pingpong.c, two_pipes.c, ls.c).

    A main takes the strings of argv.  A loop that ends when the kernel says so
    takes fuel, one unit a round. *)

From S2P Require Import Prelude Numeral Bytes CString State Uprog Ulib Uprintf.

Definition nl : list Z := [10].

Module Cat.

(** void cat(int fd); [buf] is the global array *)
Fixpoint cat (fuel : nat) (fd : Z) (buf : list Z) : U (list Z) :=
  match fuel with
  | O => OutOfFuel
  | S fuel' =>
      '(n, bs) ← read fd 512;
      let buf := splice 0 bs buf in
      if n >? 0 then
        w ← write 1 (take (Z.to_nat n) buf);
        if negb (w =? n) then fprintf 2 (chars "cat: write error" ++ nl) [];; exit 1
        else cat fuel' fd buf
      else if n <? 0 then fprintf 2 (chars "cat: read error" ++ nl) [];; exit 1
      else mret buf
  end.

(** The loop of main over the files *)
Fixpoint cat_files (fuel : nat) (args : list (list Z)) (buf : list Z) : U unit :=
  match args with
  | [] => mret tt
  | a :: args' =>
      fd ← open a O_RDONLY;
      if fd <? 0 then fprintf 2 (chars "cat: cannot open %s" ++ nl) [VStr (Some a)];; exit 1
      else
        buf ← cat fuel fd buf;
        close fd;;
        cat_files fuel args' buf
  end.

(** int main(int argc, char *argv[]) *)
Definition main (fuel : nat) (argv : list (list Z)) : U unit :=
  let buf := replicate 512 0 in
  if (length argv <=? 1)%nat then cat fuel 0 buf;; exit 0
  else cat_files fuel (tl argv) buf;; exit 0.

End Cat.

Module Echo.

(** The loop of main *)
Fixpoint echo_args (args : list (list Z)) : U unit :=
  match args with
  | [] => mret tt
  | a :: args' =>
      write 1 (take (Z.to_nat (strlen a)) a);;
      (match args' with
       | _ :: _ => write 1 (chars " ")
       | [] => write 1 nl
       end);;
      echo_args args'
  end.

(** int main(int argc, char *argv[]) *)
Definition main (argv : list (list Z)) : U unit := echo_args (tl argv);; exit 0.

End Echo.

Module Wc.

Record counts := mkCounts { l : Z; w : Z; c : Z; inword : bool }.

Definition space (ch : Z) : bool := bool_decide (is_Some (strchr [32; 13; 9; 10; 11] ch)).

(** The body of the loop over the bytes read *)
Definition count (k : counts) (ch : Z) : counts :=
  let c' := i32 (c k + 1) in
  let l' := if ch =? 10 then i32 (l k + 1) else l k in
  if space ch then mkCounts l' (w k) c' false
  else if negb (inword k) then mkCounts l' (i32 (w k + 1)) c' true
  else mkCounts l' (w k) c' (inword k).

(** The read loop of wc *)
Fixpoint wc_loop (fuel : nat) (fd : Z) (buf : list Z) (k : counts) : U (list Z * counts) :=
  match fuel with
  | O => OutOfFuel
  | S fuel' =>
      '(n, bs) ← read fd 512;
      let buf := splice 0 bs buf in
      if n >? 0 then wc_loop fuel' fd buf (foldl count k (take (Z.to_nat n) buf))
      else if n <? 0 then printf (chars "wc: read error" ++ nl) [];; exit 1
      else mret (buf, k)
  end.

(** void wc(int fd, char *name) *)
Definition wc (fuel : nat) (fd : Z) (name buf : list Z) : U (list Z) :=
  '(buf, k) ← wc_loop fuel fd buf (mkCounts 0 0 0 false);
  printf (chars "%d %d %d %s" ++ nl) [VInt (l k); VInt (w k); VInt (c k); VStr (Some name)];;
  mret buf.

(** The loop of main over the files *)
Fixpoint wc_files (fuel : nat) (args : list (list Z)) (buf : list Z) : U unit :=
  match args with
  | [] => mret tt
  | a :: args' =>
      fd ← open a O_RDONLY;
      if fd <? 0 then printf (chars "wc: cannot open %s" ++ nl) [VStr (Some a)];; exit 1
      else
        buf ← wc fuel fd a buf;
        close fd;;
        wc_files fuel args' buf
  end.

(** int main(int argc, char *argv[]) *)
Definition main (fuel : nat) (argv : list (list Z)) : U unit :=
  let buf := replicate 512 0 in
  if (length argv <=? 1)%nat then wc fuel 0 [] buf;; exit 0
  else wc_files fuel (tl argv) buf;; exit 0.

End Wc.

Module Kill.

(** int main(int argc, char **argv) *)
Definition main (argv : list (list Z)) : U unit :=
  if (length argv <? 2)%nat then fprintf 2 (chars "usage: kill pid..." ++ nl) [];; exit 1
  else forU (tl argv) (fun a => kill (atoi a);; mret tt);; exit 0.

End Kill.

Module Ln.

(** int main(int argc, char *argv[]) *)
Definition main (argv : list (list Z)) : U unit :=
  match argv with
  | [_; old; new] =>
      r ← link old new;
      whenU (r <? 0) (fprintf 2 (chars "link %s %s: failed" ++ nl) [VStr (Some old); VStr (Some new)]);;
      exit 0
  | _ => fprintf 2 (chars "Usage: ln old new" ++ nl) [];; exit 1
  end.

End Ln.

Module Mkdir.

(** The loop of main *)
Fixpoint make_all (args : list (list Z)) : U unit :=
  match args with
  | [] => mret tt
  | a :: args' =>
      r ← mkdir a;
      if r <? 0 then fprintf 2 (chars "mkdir: %s failed to create" ++ nl) [VStr (Some a)]
      else make_all args'
  end.

(** int main(int argc, char *argv[]) *)
Definition main (argv : list (list Z)) : U unit :=
  if (length argv <? 2)%nat then fprintf 2 (chars "Usage: mkdir files..." ++ nl) [];; exit 1
  else make_all (tl argv);; exit 0.

End Mkdir.

Module Rm.

(** The loop of main *)
Fixpoint remove_all (args : list (list Z)) : U unit :=
  match args with
  | [] => mret tt
  | a :: args' =>
      r ← unlink a;
      if r <? 0 then fprintf 2 (chars "rm: %s failed to delete" ++ nl) [VStr (Some a)]
      else remove_all args'
  end.

(** int main(int argc, char *argv[]) *)
Definition main (argv : list (list Z)) : U unit :=
  if (length argv <? 2)%nat then fprintf 2 (chars "Usage: rm files..." ++ nl) [];; exit 1
  else remove_all (tl argv);; exit 0.

End Rm.

Module Zombie.

(** int main(void) *)
Definition main : U unit :=
  pid ← fork;
  whenU (pid >? 0) (sleep 5;; mret tt);;
  exit 0.

End Zombie.

Module Init.

Definition argv : list (list Z) := [chars "sh"].
Definition CONSOLE : Z := 1.

(** The inner loop of main: wait until the shell [pid] exits *)
Fixpoint wait_shell (fuel : nat) (pid : Z) : U unit :=
  match fuel with
  | O => OutOfFuel
  | S fuel' =>
      wpid ← wait;
      if wpid =? pid then mret tt
      else if wpid <? 0 then printf (chars "init: wait returned an error" ++ nl) [];; exit 1
      else wait_shell fuel' pid
  end.

(** The outer loop, for at most [rounds] shells *)
Fixpoint main_loop (rounds fuel : nat) : U unit :=
  match rounds with
  | O => OutOfFuel
  | S rounds' =>
      printf (chars "init: starting sh" ++ nl) [];;
      pid ← fork;
      whenU (pid <? 0) (printf (chars "init: fork failed" ++ nl) [];; exit 1);;
      whenU (pid =? 0)
        (exec (chars "sh") argv;;
         printf (chars "init: exec sh failed" ++ nl) [];;
         exit 1);;
      wait_shell fuel pid;;
      main_loop rounds' fuel
  end.

(** int main(void) *)
Definition main (rounds fuel : nat) : U unit :=
  r ← open (chars "console") O_RDWR;
  whenU (r <? 0)
    (mknod (chars "console") CONSOLE 0;;
     open (chars "console") O_RDWR;;
     mret tt);;
  dup 0;;
  dup 0;;
  main_loop rounds fuel.

End Init.

Module Stressfs.

(** for(i = 0; i < 4; i++) if(fork() > 0) break; the value of i after it *)
Fixpoint fork_loop (k : nat) (i : Z) : U Z :=
  match k with
  | O => mret i
  | S k' =>
      pid ← fork;
      if pid >? 0 then mret i else fork_loop k' (i + 1)
  end.

(** int main(int argc, char *argv[]) *)
Definition main : U unit :=
  printf (chars "stressfs starting" ++ nl) [];;
  let data := replicate 512 97 in
  i ← fork_loop 4 0;
  printf (chars "write %d" ++ nl) [VInt i];;
  let path := chars "stressfs" ++ [u8 (48 + i)] in
  fd ← open path (Z.lor O_CREATE O_RDWR);
  forU (seq 0 20) (fun _ => write fd data;; mret tt);;
  close fd;;
  printf (chars "read" ++ nl) [];;
  fd ← open path O_RDONLY;
  forU (seq 0 20) (fun _ => read fd 512;; mret tt);;
  close fd;;
  wait;;
  exit 0.

End Stressfs.

Module Forktest.

Definition N : nat := 1000.

(** void print(const char *s) *)
Definition print (s : list Z) : U unit := write 1 (take (Z.to_nat (strlen s)) s);; mret tt.

(** The loop that forks: n after it *)
Fixpoint fork_loop (k n : nat) : U nat :=
  match k with
  | O => mret n
  | S k' =>
      pid ← fork;
      if pid <? 0 then mret n
      else
        whenU (pid =? 0) (exit 0);;
        fork_loop k' (S n)
  end.

(** for(; n > 0; n--) *)
Fixpoint wait_loop (n : nat) : U unit :=
  match n with
  | O => mret tt
  | S n' =>
      r ← wait;
      whenU (r <? 0) (print (chars "wait stopped early" ++ nl);; exit 1);;
      wait_loop n'
  end.

(** void forktest(void) *)
Definition forktest : U unit :=
  print (chars "fork test" ++ nl);;
  n ← fork_loop N 0;
  whenU (n =? N)%nat (print (chars "fork claimed to work N times!" ++ nl);; exit 1);;
  wait_loop n;;
  r ← wait;
  whenU (negb (r =? -1)) (print (chars "wait got too many" ++ nl);; exit 1);;
  print (chars "fork test OK" ++ nl).

(** int main(void) *)
Definition main : U unit := forktest;; exit 0.

End Forktest.

Module Pingpong.

(** The bytes of an array on the stack, as a string: a fault without a NUL *)
Definition as_string (buf : list Z) : U (list Z) :=
  if (strlen_nat buf <? length buf)%nat then mret (cstring buf) else Fault.

(** The message of round [j] *)
Definition message (j : nat) : list Z := if (j mod 2 =? 0)%nat then chars "ping" else chars "pong".

Definition child (w : Z) : U unit := forU (seq 0 5) (fun j => write w (message j);; mret tt);; exit 0.

(** The loop of the parent *)
Fixpoint receive (k : nat) (r : Z) (buf : list Z) : U unit :=
  match k with
  | O => mret tt
  | S k' =>
      '(_, bs) ← read r 4;
      let buf := splice 0 bs buf in
      pid ← getpid;
      s ← as_string buf;
      printf (chars "%d: received %s" ++ nl) [VInt pid; VStr (Some s)];;
      receive k' r buf
  end.

(** int main(int argc, char *argv[]); [p0] and [buf0] are what the stack holds
    in p and buf, which main does not initialise *)
Definition main (p0 buf0 : list Z) : U unit :=
  '(_, bs) ← pipe;
  let p := splice 0 bs p0 in
  let r := fd_of 0 p in
  let w := fd_of 1 p in
  pid ← fork;
  if pid =? 0 then child w
  else
    receive 5 r buf0;;
    close r;;
    close w;;
    wait;;
    exit 0.

End Pingpong.

Module TwoPipes.

(** int main(int argc, char *argv[]): both branches are still empty *)
Definition main : U Z :=
  pipe;;
  pipe;;
  pid ← fork;
  mret 0.

End TwoPipes.

(** * user/ls.c: listing a directory *)

Module Ls.

(** DIRSIZ as a count *)
Definition dirsiz : nat := Z.to_nat DIRSIZ.

(** for(p=path+strlen(path); p >= path && *p != '/'; p--) and the p++ after it,
    from position [i] on *)
Fixpoint name_start (path : list Z) (i : nat) : nat :=
  if chr (drop i path) =? 47 then S i else match i with O => O | S i' => name_start path i' end.

(** char* fmtname(char *path): the string, and the static array buf *)
Definition fmtname (path buf : list Z) : list Z * list Z :=
  let p := drop (name_start path (strlen_nat path)) path in
  if (dirsiz <=? strlen_nat p)%nat then (cstring p, buf)
  else
    let buf := splice 0 (take (strlen_nat p) p) buf in
    let buf := splice (strlen_nat p) (replicate (dirsiz - strlen_nat p) 32) buf in
    (cstring buf, buf).

(** struct stat (kernel/stat.h) *)
Definition st_ino (st : list Z) : Z := get 4 4 st.
Definition st_type (st : list Z) : Z := i16 (get 2 8 st).
Definition st_size (st : list Z) : Z := get 8 16 st.

(** The line of a file *)
Definition print_stat (path st nbuf : list Z) : U (list Z) :=
  let '(name, nbuf) := fmtname path nbuf in
  printf (chars "%s %d %d %d" ++ nl) [VStr (Some name); VInt (st_type st); VInt (i32 (st_ino st)); VInt (i32 (st_size st))];;
  mret nbuf.

(** The loop over the entries of a directory; the path of it, with its slash, is
    [p] bytes of [buf] *)
Fixpoint ls_entries (fuel : nat) (fd : Z) (p : nat) (buf nbuf : list Z) : U (list Z) :=
  match fuel with
  | O => OutOfFuel
  | S fuel' =>
      '(n, de) ← read fd 16;
      if n =? 16 then
        if get 2 0 de =? 0 then ls_entries fuel' fd p buf nbuf
        else
          let buf := splice p (take dirsiz (drop 2 de)) buf in
          let buf := <[(p + dirsiz)%nat := 0]> buf in
          '(r, st) ← stat (cstring buf);
          if r <? 0 then
            printf (chars "ls: cannot stat %s" ++ nl) [VStr (Some (cstring buf))];;
            ls_entries fuel' fd p buf nbuf
          else
            nbuf ← print_stat (cstring buf) st nbuf;
            ls_entries fuel' fd p buf nbuf
      else mret nbuf
  end.

(** void ls(char *path); [buf0] is what the stack holds in buf, [nbuf] is the array
    of fmtname *)
Definition ls (fuel : nat) (path buf0 nbuf : list Z) : U (list Z) :=
  fd ← open path O_RDONLY;
  if fd <? 0 then
    fprintf 2 (chars "ls: cannot open %s" ++ nl) [VStr (Some path)];;
    mret nbuf
  else
    '(r, st) ← fstat fd;
    if r <? 0 then
      fprintf 2 (chars "ls: cannot stat %s" ++ nl) [VStr (Some path)];;
      close fd;;
      mret nbuf
    else
      nbuf ←
        (if (st_type st =? T_DEVICE) || (st_type st =? T_FILE) then print_stat path st nbuf
         else if st_type st =? T_DIR then
           if (512 <? strlen_nat path + 1 + dirsiz + 1)%nat then
             printf (chars "ls: path too long" ++ nl) [];;
             mret nbuf
           else
             let buf := strcpy buf0 path in
             let p := strlen_nat buf in
             let buf := <[p := 47]> buf in
             ls_entries fuel fd (S p) buf nbuf
         else mret nbuf);
      close fd;;
      mret nbuf.

(** The loop of main *)
Fixpoint ls_all (fuel : nat) (args : list (list Z)) (buf0 nbuf : list Z) : U unit :=
  match args with
  | [] => mret tt
  | a :: args' =>
      nbuf ← ls fuel a buf0 nbuf;
      ls_all fuel args' buf0 nbuf
  end.

(** int main(int argc, char *argv[]) *)
Definition main (fuel : nat) (argv : list (list Z)) (buf0 : list Z) : U unit :=
  let nbuf := replicate (S dirsiz) 0 in
  if (length argv <? 2)%nat then ls fuel (chars ".") buf0 nbuf;; exit 0
  else ls_all fuel (tl argv) buf0 nbuf;; exit 0.

End Ls.

(** * The names that ls prints *)

Section fmtname.
Import Ls.

(** No slash between [lo] and [i]: the scan goes on down to [lo]. *)
Lemma name_start_skip path lo : forall i, (lo <= i)%nat ->
  (forall j, (lo < j <= i)%nat -> chr (drop j path) <> 47) -> name_start path i = name_start path lo.
Proof.
  induction i as [|i IH]; intros Hi Hj; [by replace lo with 0%nat by lia|].
  destruct (decide (lo = S i)) as [->|Hne]; [done|]. cbn [name_start].
  rewrite (proj2 (Z.eqb_neq _ 47)) by (apply Hj; lia). apply IH; [lia|]. intros j Hj'. apply Hj. lia.
Qed.

Lemma name_start_stop path lo : chr (drop lo path) = 47 -> name_start path lo = S lo.
Proof. intros H. destruct lo; cbn [name_start]; by rewrite H. Qed.

Lemma chr_drop name j : 47 ∉ name -> chr (drop j name) <> 47.
Proof.
  intros Hn E. destruct (drop j name) as [|c r] eqn:Ed; [done|]. change (c = 47) in E. subst c.
  apply Hn. rewrite <- (take_drop j name), Ed. set_solver.
Qed.

(** The last component of a path. *)
Definition component (path name : list Z) : Prop :=
  47 ∉ name /\ (path = name \/ exists dir, path = dir ++ 47 :: name).

Lemma name_start_component path name : nonul path -> component path name ->
  drop (name_start path (strlen_nat path)) path = name.
Proof.
  intros Hp [Hn Hc]. replace (strlen_nat path) with (length path).
  2: { rewrite <- (app_nil_r path) at 2. rewrite strlen_nat_app by done. simpl. lia. }
  destruct Hc as [->|[dir ->] ].
  - rewrite (name_start_skip name 0) by (try lia; intros j _; by apply chr_drop). unfold name_start.
    by rewrite (proj2 (Z.eqb_neq _ 47)) by by apply chr_drop.
  - rewrite (name_start_skip _ (length dir)).
    + rewrite name_start_stop by (by rewrite drop_app_length). replace (S (length dir)) with (length (dir ++ [47%Z])) by (rewrite length_app; simpl; lia).
      change (47 :: name) with ([47] ++ name). by rewrite app_assoc, drop_app_length.
    + rewrite length_app. lia.
    + intros j [Hj _]. rewrite drop_app_ge by lia. replace (j - length dir)%nat with (S (j - length dir - 1)) by lia. rewrite skipn_cons. by apply chr_drop.
Qed.

(** fmtname returns the last component of a path, padded with blanks to the
    width of a directory entry, or as it is when it has that width or more. *)
Theorem fmtname_correct path name buf :
  nonul path -> component path name -> length buf = S dirsiz -> buf !! dirsiz = Some 0 ->
  (fmtname path buf).1 = name ++ replicate (dirsiz - length name) 32 /\
  length (fmtname path buf).2 = S dirsiz /\ (fmtname path buf).2 !! dirsiz = Some 0.
Proof.
  intros Hp Hc Hb H0. pose proof (name_start_component path name Hp Hc) as Hname.
  assert (Hn : nonul name) by (rewrite <- Hname; by apply Forall_drop).
  assert (Hl : strlen_nat name = length name) by (rewrite <- (app_nil_r name) at 1; rewrite strlen_nat_app by done; simpl; lia).
  unfold fmtname. rewrite Hname, Hl. destruct (Nat.leb_spec dirsiz (length name)) as [Hd|Hd]; cbn [fst snd].
  - replace (dirsiz - length name)%nat with 0%nat by lia. rewrite cstring_id, app_nil_r by done. done.
  - rewrite take_ge by lia.
    assert (E : splice (length name) (replicate (dirsiz - length name) 32) (splice 0 name buf) = (name ++ replicate (dirsiz - length name) 32) ++ [0]).
    { unfold splice. rewrite take_0. cbn [app Nat.add]. rewrite take_app_length, length_replicate, <- app_assoc. do 2 f_equal.
      replace (length name + (dirsiz - length name))%nat with dirsiz by lia. rewrite drop_app_ge, drop_drop by lia.
      replace (length name + (dirsiz - length name))%nat with dirsiz by lia.
      rewrite (drop_S _ _ _ H0), drop_ge by lia. done. }
    rewrite E, cstring_nul by (apply Forall_app; split; [done|by apply Forall_replicate]).
    split; [done|]. rewrite !length_app, length_replicate. split; [simpl; lia|].
    apply list_lookup_middle. rewrite length_app, length_replicate. lia.
Qed.

Lemma fmtname_correct_witness :
  (fmtname (chars "dir/README") (replicate 15 0)).1 = chars "README        " /\
  length (fmtname (chars "dir/README") (replicate 15 0)).2 = 15%nat /\
  (fmtname (chars "dir/README") (replicate 15 0)).2 !! 14%nat = Some 0.
Proof.
  apply (fmtname_correct (chars "dir/README") (chars "README") (replicate 15 0)); [repeat constructor; discriminate| |done|done].
  split; [vm_compute; set_solver|]. right. by exists (chars "dir").
Defined.
End fmtname.
