(* ===== verification/UtilsSpec.v ===== *)
(** What cat, wc and echo of the user programs print, however the kernel cuts the
    files into the pieces that read returns. *)

From S2P Require Import Prelude Numeral Bytes CString State Uprog Ulib Uprintf Utils.

(** A piece of a file, as read into a buffer of 512 bytes returns it. *)
Definition piece (ch : list Z) : Prop := (0 < length ch <= 512)%nat.
Definition gives (ch : list Z) : answer := (Z.of_nat (length ch), ch).

Lemma output_cons fd c tr : output fd (c :: tr) = sent_to fd c ++ output fd tr.
Proof. done. Qed.

Lemma take_splice {A} (ch buf : list A) : take (length ch) (splice 0 ch buf) = ch.
Proof. unfold splice. rewrite take_0, app_nil_l. apply take_app_length. Qed.

Lemma splice_length (ch buf : list Z) n : length buf = n -> (length ch <= n)%nat -> length (splice 0 ch buf) = n.
Proof. intros H Hl. rewrite length_splice; lia. Qed.

(** * cat *)

(** A file given to cat: the descriptor open returns, the pieces of its contents. *)
Record file := mkFile { f_fd : Z; f_pieces : list (list Z) }.
Definition file_ok (fuel : nat) (f : file) : Prop :=
  0 <= f_fd f /\ Forall piece (f_pieces f) /\ (length (f_pieces f) < fuel)%nat.
Definition contents (f : file) : list Z := mjoin (f_pieces f).

(** The answers cat gets while it copies: each piece, and the count its write
    returns, then the end of the file. *)
Fixpoint cat_answers (pieces : list (list Z)) : list answer :=
  match pieces with
  | [] => [(0, [])]
  | ch :: pieces' => gives ch :: (Z.of_nat (length ch), []) :: cat_answers pieces'
  end.

Lemma cat_copies fd pieces : forall fuel buf rest,
  Forall piece pieces -> (length pieces < fuel)%nat ->
  exists tr buf', feed (Cat.cat fuel fd buf) (cat_answers pieces ++ rest) = (tr, UDone buf', rest) /\
    output 1 tr = mjoin pieces /\ output 2 tr = [].
Proof.
  induction pieces as [|ch pieces IH]; intros [|fuel] buf rest Hp Hf; try (simpl in Hf; lia).
  { by eexists _, _. }
  apply Forall_cons in Hp as [Hch Hp]. unfold piece in Hch. cbn [cat_answers app length] in *.
  destruct (IH fuel (splice 0 ch buf) rest Hp ltac:(lia)) as (tr & buf' & E & Ho & He).
  exists (Cread fd 512 :: Cwrite 1 ch :: tr), buf'. rewrite !output_cons, Ho, He. split_and!; [|done|done].
  cbn [Cat.cat]. apply feed_data. unfold gives. rewrite (proj2 (Z.gtb_lt _ 0)) by lia.
  rewrite Nat2Z.id, take_splice. apply feed_sys. by rewrite Z.eqb_refl.
Qed.

(** The answers to cat for one file, for all of them. *)
Definition cat_file_answers (f : file) : list answer := (f_fd f, []) :: cat_answers (f_pieces f) ++ [(0, [])].

Lemma cat_files_copies fuel files : forall names buf rest,
  length names = length files -> Forall (file_ok fuel) files ->
  exists tr, feed (Cat.cat_files fuel names buf) (mjoin (cat_file_answers <$> files) ++ rest) = (tr, UDone tt, rest) /\
    output 1 tr = mjoin (contents <$> files) /\ output 2 tr = [].
Proof.
  induction files as [|f files IH]; intros [|a names] buf rest Hl Hf; try done.
  { by eexists. }
  apply Forall_cons in Hf as [(Hfd & Hp & Hn) Hf].
  change (mjoin (cat_file_answers <$> f :: files)) with (cat_file_answers f ++ mjoin (cat_file_answers <$> files)).
  change (mjoin (contents <$> f :: files)) with (contents f ++ mjoin (contents <$> files)).
  unfold cat_file_answers at 1. cbn [app]. rewrite <- !app_assoc. cbn [app].
  destruct (cat_copies (f_fd f) (f_pieces f) fuel buf ((0, []) :: mjoin (cat_file_answers <$> files) ++ rest) Hp Hn)
    as (tr1 & buf' & E1 & Ho1 & He1).
  destruct (IH names buf' rest ltac:(simpl in Hl; lia) Hf) as (tr2 & E2 & Ho2 & He2).
  exists (Copen a O_RDONLY :: tr1 ++ Cclose (f_fd f) :: tr2).
  rewrite !output_cons, !output_app, !output_cons, Ho1, Ho2, He1, He2. split_and!; [|done|done].
  cbn [Cat.cat_files]. apply feed_sys. rewrite (proj2 (Z.ltb_ge (f_fd f) 0)) by lia.
  apply (feed_seq _ _ _ _ _ _ _ _ _ E1). by apply feed_sys.
Qed.

(** cat prints the contents of the files it is given, one after the other,
    byte for byte, in whatever pieces the kernel hands them out; it says nothing
    on the standard error and exits with status 0. *)
Theorem cat_correct fuel prog names files rest :
  names <> [] -> length names = length files -> Forall (file_ok fuel) files ->
  exists tr, feed (Cat.main fuel (prog :: names)) (mjoin (cat_file_answers <$> files) ++ rest) = (tr, UExit 0, rest) /\
    output 1 tr = mjoin (contents <$> files) /\ output 2 tr = [].
Proof.
  intros Hne Hl Hf. destruct (cat_files_copies fuel files names (replicate 512 0) rest Hl Hf) as (tr & E & Ho & He).
  exists tr. split_and!; [|done|done]. unfold Cat.main. destruct names as [|a names]; [done|]. cbn [length Nat.leb tl].
  rewrite <- (app_nil_r tr). by apply (feed_seq _ _ _ _ _ _ _ _ _ E).
Qed.

Lemma cat_correct_witness :
  let answers := mjoin (cat_file_answers <$> [mkFile 3 [[104; 105]; [10]]; mkFile 4 []; mkFile 3 [[33]]]) in
  exists tr, feed (Cat.main 3 [chars "cat"; chars "a"; chars "b"; chars "c"]) (answers ++ []) = (tr, UExit 0, []) /\
    output 1 tr = [104; 105; 10; 33] /\ output 2 tr = [].
Proof.
  apply (cat_correct 3 (chars "cat") [chars "a"; chars "b"; chars "c"] [mkFile 3 [[104; 105]; [10]]; mkFile 4 []; mkFile 3 [[33]]]);
    [done|done|]. repeat constructor; cbn; unfold piece; cbn; lia.
Defined.

(** * wc *)

(** The fields of a text between its blanks - the space, tab, newline, vertical tab and
    carriage return -; its words are the fields that are not empty. *)
Definition blank (ch : Z) : bool := (ch =? 32) || (9 <=? ch) && (ch <=? 11) || (ch =? 13).
Fixpoint fields (s : list Z) : list (list Z) :=
  match s with
  | [] => [[]]
  | ch :: s' =>
      if blank ch then [] :: fields s'
      else match fields s' with [] => [[ch]] | f :: fs => (ch :: f) :: fs end
  end.
Definition nonempty (f : list Z) : bool := negb (bool_decide (f = [])).
Definition words (s : list Z) : Z := Z.of_nat (length (List.filter nonempty (fields s))).
Definition lines (s : list Z) : Z := Z.of_nat (length (List.filter (Z.eqb 10) s)).

(** The words that begin in [s]; in the middle of a word, the first field is the
    rest of it. *)
Definition new_words (inword : bool) (s : list Z) : Z :=
  Z.of_nat (length (List.filter nonempty (if inword then tl (fields s) else fields s))).

Lemma space_blank ch : Wc.space ch = blank ch.
Proof.
  unfold Wc.space. cbn [strchr]. change (32 =? 0) with false. change (13 =? 0) with false. change (9 =? 0) with false.
  change (10 =? 0) with false. change (11 =? 0) with false. cbv iota.
  destruct (Z.eqb_spec 32 ch) as [<-|]; [done|]. destruct (Z.eqb_spec 13 ch) as [<-|]; [done|].
  destruct (Z.eqb_spec 9 ch) as [<-|]; [done|]. destruct (Z.eqb_spec 10 ch) as [<-|]; [done|].
  destruct (Z.eqb_spec 11 ch) as [<-|]; [done|]. rewrite bool_decide_eq_false_2 by (intros [x Hx]; discriminate).
  symmetry. unfold blank. rewrite (proj2 (Z.eqb_neq ch 32)), (proj2 (Z.eqb_neq ch 13)) by lia.
  destruct (Z.leb_spec 9 ch), (Z.leb_spec ch 11); done || lia.
Qed.

Lemma fields_cons s : exists f fs, fields s = f :: fs.
Proof. destruct s as [|ch s]; [by eexists _, _|]. simpl. destruct (blank ch); [by eexists _, _|]. destruct (fields s); by eexists _, _. Qed.

Lemma new_words_step b ch s : new_words b (ch :: s) =
  (if Wc.space ch then new_words false s else (if b then 0 else 1) + new_words true s).
Proof.
  unfold new_words. cbn [fields]. rewrite space_blank. destruct (blank ch); [by destruct b|].
  destruct (fields_cons s) as (f & fs & ->). destruct b; [done|]. cbn [tl List.filter nonempty length negb bool_decide]. simpl length. lia.
Qed.

Lemma count_small n k : 0 <= n -> n + k < 2 ^ 31 -> 0 < k -> i32 (n + 1) = n + 1.
Proof. intros. unfold i32. apply sext_small; lia. Qed.

Lemma count_all s : forall k,
  0 <= Wc.l k <= Wc.c k -> 0 <= Wc.w k <= Wc.c k -> Wc.c k + Z.of_nat (length s) < 2 ^ 31 ->
  let k' := foldl Wc.count k s in
  Wc.l k' = Wc.l k + lines s /\ Wc.w k' = Wc.w k + new_words (Wc.inword k) s /\ Wc.c k' = Wc.c k + Z.of_nat (length s).
Proof.
  induction s as [|ch s IH]; intros k Hl Hw Hc; cbn [foldl]. 
  { unfold lines. simpl. unfold new_words. destruct (Wc.inword k); simpl; lia. }
  cbn [length] in Hc. rewrite new_words_step.
  assert (Hls : lines (ch :: s) = (if ch =? 10 then 1 else 0) + lines s).
  { unfold lines. cbn [List.filter]. rewrite Z.eqb_sym. destruct (ch =? 10); simpl length; lia. }
  assert (E : Wc.count k ch = Wc.mkCounts (Wc.l k + if ch =? 10 then 1 else 0)
    (Wc.w k + if Wc.space ch then 0 else if Wc.inword k then 0 else 1) (Wc.c k + 1) (negb (Wc.space ch))).
  { assert (Hi : forall n, 0 <= n <= Wc.c k -> i32 (n + 1) = n + 1) by (intros n Hn; apply (count_small n 1); lia).
    unfold Wc.count. rewrite !Hi by lia.
    destruct (ch =? 10), (Wc.space ch), (Wc.inword k); cbn [negb]; f_equal; lia. }
  rewrite E, Hls. edestruct IH as (H1 & H2 & H3); [..|rewrite H1, H2, H3]; cbn [Wc.l Wc.w Wc.c Wc.inword length] in *;
    [destruct (ch =? 10); lia|destruct (Wc.space ch), (Wc.inword k); lia|lia|].
  destruct (Wc.space ch); cbn [negb]; destruct (Wc.inword k); lia.
Qed.

Lemma counts_le s : lines s <= Z.of_nat (length s) /\ forall b, 0 <= new_words b s <= Z.of_nat (length s).
Proof.
  split; [unfold lines; pose proof (List.filter_length_le (Z.eqb 10) s); lia|].
  induction s as [|ch s IH]; intros b; [by destruct b|]. rewrite new_words_step. cbn [length].
  pose proof (IH true). pose proof (IH false). destruct (Wc.space ch), b; lia.
Qed.

(** The line wc prints. *)
Definition wc_line (s name : list Z) : list Z :=
  decimal (lines s) ++ [32] ++ decimal (words s) ++ [32] ++ decimal (Z.of_nat (length s)) ++ [32] ++ name ++ [10].

Lemma wc_loop_counts fd pieces : forall fuel buf k rest,
  Forall piece pieces -> (length pieces < fuel)%nat ->
  exists tr buf', feed (Wc.wc_loop fuel fd buf k) ((gives <$> pieces) ++ (0, []) :: rest) =
      (tr, UDone (buf', foldl Wc.count k (mjoin pieces)), rest) /\ output 1 tr = [] /\ output 2 tr = [].
Proof.
  induction pieces as [|ch pieces IH]; intros [|fuel] buf k rest Hp Hf; try (simpl in Hf; lia).
  { by eexists _, _. }
  apply Forall_cons in Hp as [Hch Hp]. unfold piece in Hch. cbn [fmap list_fmap app length] in *.
  destruct (IH fuel (splice 0 ch buf) (foldl Wc.count k ch) rest Hp ltac:(lia)) as (tr & buf' & E & Ho & He).
  exists (Cread fd 512 :: tr), buf'. rewrite !output_cons, Ho, He. split_and!; [|done|done].
  cbn [Wc.wc_loop]. apply feed_data. unfold gives. rewrite (proj2 (Z.gtb_lt _ 0)) by lia.
  rewrite Nat2Z.id, take_splice. change (mjoin (ch :: pieces)) with (ch ++ mjoin pieces). by rewrite foldl_app.
Qed.

Lemma wc_line_fmt s name : nonul name -> Z.of_nat (length s) < 2 ^ 31 ->
  let k := foldl Wc.count (Wc.mkCounts 0 0 0 false) s in
  fmt_bytes (chars "%d %d %d %s" ++ nl) [VInt (Wc.l k); VInt (Wc.w k); VInt (Wc.c k); VStr (Some name)] = Some (wc_line s name).
Proof.
  intros Hn Hs. destruct (count_all s (Wc.mkCounts 0 0 0 false)) as (Hl & Hw & Hc); cbn [Wc.l Wc.w Wc.c Wc.inword] in *; [lia..|].
  cbv zeta. rewrite Hl, Hw, Hc. unfold wc_line. change (new_words false s) with (words s). rewrite !Z.add_0_l.
  destruct (counts_le s) as [B1 B2]. specialize (B2 false). change (new_words false s) with (words s) in B2.
  assert (0 <= lines s) by (unfold lines; lia). rewrite <- !printint_decimal by lia.
  set (a := rev (printint_buf (lines s) 10 true)). set (b := rev (printint_buf (words s) 10 true)).
  set (c := rev (printint_buf (Z.of_nat (length s)) 10 true)).
  change (((a ++.) <$> ((32 ::.) <$> ((b ++.) <$> ((32 ::.) <$> ((c ++.) <$> ((32 ::.) <$> ((cstring name ++.) <$> Some [10]))))))) =
    Some (a ++ [32] ++ b ++ [32] ++ c ++ [32] ++ name ++ [10])).
  by rewrite cstring_id.
Qed.

Lemma wc_prints fuel fd name pieces buf ws rest :
  nonul name -> bytes name -> Forall piece pieces -> (length pieces < fuel)%nat ->
  Z.of_nat (length (mjoin pieces)) < 2 ^ 31 -> length ws = length (wc_line (mjoin pieces) name) ->
  exists tr buf', feed (Wc.wc fuel fd name buf) ((gives <$> pieces) ++ (0, []) :: ws ++ rest) = (tr, UDone buf', rest) /\
    output 1 tr = wc_line (mjoin pieces) name /\ output 2 tr = [].
Proof.
  intros Hn Hb Hp Hf Hl Hws.
  destruct (wc_loop_counts fd pieces fuel buf (Wc.mkCounts 0 0 0 false) (ws ++ rest) Hp Hf) as (tr & buf' & E & Ho & He).
  set (k := foldl Wc.count _ _) in *.
  assert (Hw : writes (printf (chars "%d %d %d %s" ++ nl) [VInt (Wc.l k); VInt (Wc.w k); VInt (Wc.c k); VStr (Some name)])
    1 (wc_line (mjoin pieces) name) tt).
  { apply fprintf_writes; [by repeat constructor|by apply wc_line_fmt]. }
  exists (tr ++ ((fun b => Cwrite 1 [b]) <$> wc_line (mjoin pieces) name)), buf'.
  rewrite !output_app, Ho, He, !output_writes. split_and!; [|done|done].
  unfold Wc.wc. apply (feed_seq _ _ _ _ _ _ _ _ _ E). cbv beta iota. rewrite <- (app_nil_r (_ <$> _)).
  apply (feed_seq _ _ _ _ _ _ _ _ _ (Hw ws rest Hws)). done.
Qed.

(** A file given to wc: its name, its contents, what the writes of its line
    return. *)
Record wc_file := mkWcFile { w_name : list Z; w_file : file; w_writes : list answer }.
Definition wc_file_ok (fuel : nat) (f : wc_file) : Prop :=
  file_ok fuel (w_file f) /\ nonul (w_name f) /\ bytes (w_name f) /\
  Z.of_nat (length (contents (w_file f))) < 2 ^ 31 /\
  length (w_writes f) = length (wc_line (contents (w_file f)) (w_name f)).
Definition wc_file_answers (f : wc_file) : list answer :=
  (f_fd (w_file f), []) :: (gives <$> f_pieces (w_file f)) ++ (0, []) :: w_writes f ++ [(0, [])].
Definition wc_file_line (f : wc_file) : list Z := wc_line (contents (w_file f)) (w_name f).

Lemma wc_files_print fuel files : forall buf rest, Forall (wc_file_ok fuel) files ->
  exists tr, feed (Wc.wc_files fuel (w_name <$> files) buf) (mjoin (wc_file_answers <$> files) ++ rest) = (tr, UDone tt, rest) /\
    output 1 tr = mjoin (wc_file_line <$> files) /\ output 2 tr = [].
Proof.
  induction files as [|f files IH]; intros buf rest Hf.
  { by eexists. }
  apply Forall_cons in Hf as [((Hfd & Hp & Hn) & Hnn & Hb & Hl & Hws) Hf].
  change (mjoin (wc_file_answers <$> f :: files)) with (wc_file_answers f ++ mjoin (wc_file_answers <$> files)).
  change (mjoin (wc_file_line <$> f :: files)) with (wc_file_line f ++ mjoin (wc_file_line <$> files)).
  unfold wc_file_answers at 1. cbn [app]. repeat (rewrite <- app_assoc; cbn [app]).
  destruct (wc_prints fuel (f_fd (w_file f)) (w_name f) (f_pieces (w_file f)) buf (w_writes f)
    ((0, []) :: mjoin (wc_file_answers <$> files) ++ rest) Hnn Hb Hp Hn Hl Hws) as (tr1 & buf' & E1 & Ho1 & He1).
  destruct (IH buf' rest Hf) as (tr2 & E2 & Ho2 & He2).
  exists (Copen (w_name f) O_RDONLY :: tr1 ++ Cclose (f_fd (w_file f)) :: tr2).
  rewrite !output_cons, !output_app, !output_cons, Ho1, Ho2, He1, He2. split_and!; [|done|done].
  cbn [fmap list_fmap Wc.wc_files]. apply feed_sys. rewrite (proj2 (Z.ltb_ge (f_fd (w_file f)) 0)) by lia.
  apply (feed_seq _ _ _ _ _ _ _ _ _ E1). by apply feed_sys.
Qed.

(** C37: wc prints, for every file it is given, the number of newlines, of words
    (the non-empty fields between blanks) and of bytes, and the name; the counts do
    not depend on the pieces in which the kernel hands out the file. *)
Theorem wc_correct fuel prog files rest :
  files <> [] -> Forall (wc_file_ok fuel) files ->
  exists tr, feed (Wc.main fuel (prog :: (w_name <$> files))) (mjoin (wc_file_answers <$> files) ++ rest) = (tr, UExit 0, rest) /\
    output 1 tr = mjoin (wc_file_line <$> files) /\ output 2 tr = [].
Proof.
  intros Hne Hf. destruct (wc_files_print fuel files (replicate 512 0) rest Hf) as (tr & E & Ho & He).
  exists tr. split_and!; [|done|done]. unfold Wc.main. destruct files as [|f files]; [done|]. cbn [fmap list_fmap length Nat.leb tl].
  rewrite <- (app_nil_r tr). by apply (feed_seq _ _ _ _ _ _ _ _ _ E).
Qed.

Definition wc_sample : wc_file :=
  mkWcFile (chars "f") (mkFile 3 [chars " hi the"; chars "re" ++ [10]; [10]]) (replicate 9 (1, [])).
Lemma wc_correct_witness :
  exists tr, feed (Wc.main 4 [chars "wc"; chars "f"]) (mjoin (wc_file_answers <$> [wc_sample]) ++ []) = (tr, UExit 0, []) /\
    output 1 tr = chars "2 2 11 f" ++ [10] /\ output 2 tr = [].
Proof.
  apply (wc_correct 4 (chars "wc") [wc_sample]); [done|]. constructor; [|constructor].
  split_and!; [repeat constructor; cbn; unfold piece; cbn; lia|repeat constructor; done|repeat constructor; done|vm_compute; reflexivity|vm_compute; reflexivity].
Defined.

(** * echo *)

Fixpoint join_words (ws : list (list Z)) : list Z :=
  match ws with [] => [] | [w] => w ++ [10] | w :: ws' => w ++ [32] ++ join_words ws' end.

(** echo prints its arguments with a blank between them and a newline at the end,
    two writes an argument. *)
Lemma echo_correct prog args rs rest :
  Forall (fun a => nonul a /\ Z.of_nat (length a) < 2 ^ 31) args -> length rs = (2 * length args)%nat ->
  exists tr, feed (Echo.main (prog :: args)) (rs ++ rest) = (tr, UExit 0, rest) /\ output 1 tr = join_words args.
Proof.
  intros Ha Hrs. cut (exists tr, feed (Echo.echo_args args) (rs ++ rest) = (tr, UDone tt, rest) /\ output 1 tr = join_words args).
  { intros (tr & E & Ho). exists tr. split; [|done]. rewrite <- (app_nil_r tr). by apply (feed_seq _ _ _ _ _ _ _ _ _ E). }
  revert rs Hrs. induction Ha as [|a args [Hn Hl] _ IH]; intros rs Hrs; [destruct rs; [by eexists|done]|].
  destruct rs as [|[v1 b1] [|[v2 b2] rs] ]; simpl in Hrs; try lia. destruct (IH rs ltac:(lia)) as (tr & E & Ho).
  assert (Hs : take (Z.to_nat (strlen a)) a = a).
  { unfold strlen. rewrite <- (app_nil_r a) at 1. rewrite strlen_nat_app by done. cbn [strlen_nat]. rewrite Nat.add_0_r.
    rewrite u32_small by lia. rewrite Nat2Z.id. by apply take_ge. }
  exists (Cwrite 1 a :: Cwrite 1 (match args with _ :: _ => [32] | [] => [10] end) :: tr).
  rewrite !output_cons, Ho. split; [|by destruct args].
  cbn [Echo.echo_args app]. rewrite Hs. apply feed_sys. destruct args; by apply feed_sys.
Qed.
