(* ===== verification/Grep.v ===== *)
(** user/grep.c: printing the lines that match a pattern. *)

From S2P Require Import Prelude Numeral Bytes CString State Uprog Ulib Uprintf Utils.

Module Grep.

(** int matchstar(int c, char *re, char *text), given matchhere for [re] *)
Fixpoint star_loop (here : list Z -> bool) (c : Z) (text : list Z) : bool :=
  here text ||
  match text with
  | [] => false
  | x :: text' => negb (x =? 0) && ((x =? c) || (c =? 46)) && star_loop here c text'
  end.

(** int matchhere(char *re, char *text) *)
Fixpoint matchhere (re text : list Z) : bool :=
  match re with
  | [] => true
  | c :: re1 =>
      if c =? 0 then true
      else
        let next :=
          if (c =? 36) && (chr re1 =? 0) then chr text =? 0
          else match text with
               | [] => false
               | x :: text' => negb (x =? 0) && ((c =? 46) || (c =? x)) && matchhere re1 text'
               end in
        match re1 with
        | r :: re2 => if r =? 42 then star_loop (matchhere re2) c text else next
        | [] => next
        end
  end.
Definition matchstar (c : Z) (re text : list Z) : bool := star_loop (matchhere re) c text.

(** The loop of match *)
Fixpoint match_loop (re text : list Z) : bool :=
  matchhere re text ||
  match text with
  | [] => false
  | x :: text' => negb (x =? 0) && match_loop re text'
  end.

(** int match(char *re, char *text) *)
Definition matches (re text : list Z) : bool :=
  if chr re =? 94 then matchhere (drop 1 re) text else match_loop re text.

(** while((q = strchr(p, '\n')) != 0): the array and p after it *)
Fixpoint grep_lines (fuel : nat) (pattern buf : list Z) (p : nat) : U (list Z * nat) :=
  match fuel with
  | O => OutOfFuel
  | S fuel' =>
      match strchr (drop p buf) 10 with
      | None => mret (buf, p)
      | Some r =>
          let q := (length buf - length r)%nat in
          let buf := <[q := 0]> buf in
          buf ← (if matches pattern (cstring (drop p buf)) then
                   let buf := <[q := 10]> buf in
                   write 1 (take (q + 1 - p) (drop p buf));;
                   mret buf
                 else mret buf);
          grep_lines fuel' pattern buf (q + 1)
      end
  end.

(** void grep(char *pattern, int fd); [buf] is the global array of 1024 bytes, [m]
    the bytes of it that are in use *)
Fixpoint grep (fuel : nat) (pattern : list Z) (fd : Z) (buf : list Z) (m : nat) : U (list Z) :=
  match fuel with
  | O => OutOfFuel
  | S fuel' =>
      '(n, bs) ← read fd (1024 - Z.of_nat m - 1);
      let buf := splice m bs buf in
      if n >? 0 then
        let m := (m + Z.to_nat n)%nat in
        let buf := <[m := 0]> buf in
        '(buf, p) ← grep_lines (S (length buf)) pattern buf 0;
        let m' := if (0 <? m)%nat then (m - p)%nat else m in
        let buf := if (0 <? m)%nat then splice 0 (take (m - p) (drop p buf)) buf else buf in
        grep fuel' pattern fd buf m'
      else mret buf
  end.

(** The loop of main over the files *)
Fixpoint grep_files (fuel : nat) (pattern : list Z) (args : list (list Z)) (buf : list Z) : U unit :=
  match args with
  | [] => mret tt
  | a :: args' =>
      fd ← open a O_RDONLY;
      if fd <? 0 then printf (chars "grep: cannot open %s" ++ nl) [VStr (Some a)];; exit 1
      else
        buf ← grep fuel pattern fd buf 0;
        close fd;;
        grep_files fuel pattern args' buf
  end.

(** int main(int argc, char *argv[]) *)
Definition main (fuel : nat) (argv : list (list Z)) : U unit :=
  let buf := replicate 1024 0 in
  match argv with
  | _ :: pattern :: args =>
      match args with
      | [] => grep fuel pattern 0 buf 0;; exit 0
      | _ :: _ => grep_files fuel pattern args buf;; exit 0
      end
  | _ => fprintf 2 (chars "usage: grep pattern [file ...]" ++ nl) [];; exit 1
  end.

End Grep.
