(* ===== verification/GrepSpec.v ===== *)
(** grep against a semantics of its patterns: what match finds, and which lines of
    its input grep prints, whatever bytes the input has. *)

From S2P Require Import Prelude Numeral Bytes CString State Uprog Ulib Uprintf Utils UtilsSpec Grep.
Import Grep.

(** * Patterns *)

(** An item stands for one character or for any number of them; a pattern may be
    tied to the beginning and to the end of the line. *)
Inductive item := One (c : Z) | Many (c : Z).
Record pattern := mkPattern { bol : bool; items : list item; eol : bool }.

(** A dot stands for any character. *)
Definition fits_char (c x : Z) : Prop := c = 46 \/ x = c.
Definition item_lang (i : item) (s : list Z) : Prop :=
  match i with One c => exists x, s = [x] /\ fits_char c x | Many c => Forall (fits_char c) s end.
Fixpoint lang (il : list item) (s : list Z) : Prop :=
  match il with
  | [] => s = []
  | i :: il' => exists s1 s2, s = s1 ++ s2 /\ item_lang i s1 /\ lang il' s2
  end.

(** A line has a match of the pattern in it. *)
Definition found_in (p : pattern) (line : list Z) : Prop :=
  exists pre s post, line = pre ++ s ++ post /\ lang (items p) s /\
    (bol p = true -> pre = []) /\ (eol p = true -> post = []).

(** The notation of patterns: a star repeats the character before it, a caret at
    the beginning and a dollar at the end tie the pattern down. *)
Fixpoint parse_items (re : list Z) : list item * bool :=
  match re with
  | [] => ([], false)
  | c :: re1 =>
      match re1 with
      | [] => if c =? 36 then ([], true) else ([One c], false)
      | r :: re2 =>
          if r =? 42 then let '(il, e) := parse_items re2 in (Many c :: il, e)
          else let '(il, e) := parse_items re1 in (One c :: il, e)
      end
  end.
Definition parse_pattern (re : list Z) : pattern :=
  let '(b, re) := match re with c :: re1 => if c =? 94 then (true, re1) else (false, re) | [] => (false, re) end in
  let '(il, e) := parse_items re in mkPattern b il e.

(** A prefix of [text] is in the language, all of it if [e]. *)
Definition prefix_in (il : list item) (e : bool) (text : list Z) : Prop :=
  exists s post, text = s ++ post /\ lang il s /\ (e = true -> post = []).

Lemma prefix_one c il e text :
  prefix_in (One c :: il) e text <-> exists x text', text = x :: text' /\ fits_char c x /\ prefix_in il e text'.
Proof.
  split.
  - intros (s & post & -> & (s1 & s2 & -> & (x & -> & Hx) & Hs2) & He). exists x, (s2 ++ post). split; [done|]. split; [done|].
    by exists s2, post.
  - intros (x & text' & -> & Hx & (s & post & -> & Hs & He)). exists (x :: s), post. split; [done|]. split; [|done].
    exists [x], s. split; [done|]. split; [by exists x|done].
Qed.

Lemma prefix_many c il e text :
  prefix_in (Many c :: il) e text <-> prefix_in il e text \/ exists x text', text = x :: text' /\ fits_char c x /\ prefix_in (Many c :: il) e text'.
Proof.
  split.
  - intros (s & post & -> & (s1 & s2 & -> & Hs1 & Hs2) & He). destruct Hs1 as [|x s1 Hx Hs1].
    + left. by exists s2, post.
    + right. exists x, ((s1 ++ s2) ++ post). split; [done|]. split; [done|]. exists (s1 ++ s2), post. split; [done|]. split; [|done].
      by exists s1, s2.
  - intros [(s & post & -> & Hs & He)|(x & text' & -> & Hx & (s & post & -> & (s1 & s2 & -> & Hs1 & Hs2) & He))].
    + exists s, post. split; [done|]. split; [|done]. exists [], s. split; [done|]. split; [constructor|done].
    + exists (x :: s1 ++ s2), post. split; [done|]. split; [|done]. exists (x :: s1), s2. split; [done|]. split; [by constructor|done].
Qed.

Lemma fits_char_spec c x : (c =? 46) || (c =? x) = true <-> fits_char c x.
Proof. unfold fits_char. rewrite orb_true_iff, !Z.eqb_eq. naive_solver. Qed.

Lemma star_spec here c il e : forall text, nonul text ->
  (forall t, nonul t -> here t = true <-> prefix_in il e t) ->
  star_loop here c text = true <-> prefix_in (Many c :: il) e text.
Proof.
  induction text as [|x text IH]; intros Hn Hh; cbn [star_loop]; rewrite prefix_many, orb_true_iff, Hh by done.
  - split; [intros [?|?]; [by left|done]|intros [?|(x & ? & ? & _)]; [by left|done] ].
  - apply Forall_cons in Hn as [Hx Hn]. rewrite (proj2 (Z.eqb_neq x 0)) by done. cbn [negb andb].
    rewrite andb_true_iff, IH by done. rewrite orb_comm, (Z.eqb_sym x), fits_char_spec. naive_solver.
Qed.

Lemma chr_nonul s : nonul s -> chr s =? 0 = bool_decide (s = []).
Proof. intros [|x s' Hx]; [done|]. simpl. by apply Z.eqb_neq. Qed.

Lemma matchhere_spec n : forall re text, (length re <= n)%nat -> nonul re -> nonul text ->
  matchhere re text = true <-> prefix_in (parse_items re).1 (parse_items re).2 text.
Proof.
  induction n as [|n IH]; intros re text Hl Hre Ht.
  { destruct re; [|simpl in Hl; lia]. simpl. split; [|done]. intros _. by exists [], text. }
  destruct re as [|c re1]; [simpl; split; [|done]; intros _; by exists [], text|].
  apply Forall_cons in Hre as [Hc Hre]. cbn [length] in Hl. cbn [matchhere]. rewrite (proj2 (Z.eqb_neq c 0)) by done.
  assert (Hone : forall il e, (forall t, nonul t -> matchhere re1 t = true <-> prefix_in il e t) ->
    match text with [] => false | x :: text' => negb (x =? 0) && ((c =? 46) || (c =? x)) && matchhere re1 text' end = true <->
    prefix_in (One c :: il) e text).
  { intros il e H. rewrite prefix_one. destruct text as [|x text]; [naive_solver|]. apply Forall_cons in Ht as [Hx Ht].
    rewrite (proj2 (Z.eqb_neq x 0)) by done. cbn [negb andb]. rewrite andb_true_iff, fits_char_spec, H by done. naive_solver. }
  destruct re1 as [|r re2]; cbn [parse_items chr].
  - rewrite Z.eqb_refl, andb_true_r. destruct (Z.eqb_spec c 36) as [->|Hd]; cbn [fst snd].
    + rewrite chr_nonul, bool_decide_eq_true by done. unfold prefix_in. simpl. split; [intros ->; by exists [], []|].
      intros (s & post & -> & -> & He). by rewrite He.
    + apply Hone. intros t _. simpl. split; [|done]. intros _. by exists [], t.
  - apply Forall_cons in Hre as [Hr Hre]. cbn [length] in Hl. destruct (Z.eqb_spec r 42) as [->|Hs].
    + destruct (parse_items re2) as [il e] eqn:E. cbn [fst snd]. apply star_spec; [done|]. intros t Ht'.
      rewrite (IH re2 t) by (done || lia). by rewrite E.
    + change (chr (r :: re2)) with r; rewrite (proj2 (Z.eqb_neq r 0)), andb_false_r by done.
      assert (Hm : forall t, nonul t -> matchhere (r :: re2) t = true <-> prefix_in (parse_items (r :: re2)).1 (parse_items (r :: re2)).2 t).
      { intros t Ht'. apply IH; [simpl; lia|by constructor|done]. }
      destruct (parse_items (r :: re2)) as [il e] eqn:E. cbn [parse_items] in E. rewrite E. cbn [fst snd] in *. by apply Hone.
Qed.

Lemma match_loop_spec re text : nonul re -> nonul text ->
  match_loop re text = true <-> exists pre t, text = pre ++ t /\ prefix_in (parse_items re).1 (parse_items re).2 t.
Proof.
  intros Hre. induction text as [|x text IH]; intros Ht; cbn [match_loop]; rewrite orb_true_iff, (matchhere_spec (length re)) by done.
  - split; [intros [?|?]; [by exists [], []|done]|]. intros (pre & t & E & H). symmetry in E. apply app_nil in E as [-> ->]. by left.
  - apply Forall_cons in Ht as [Hx Ht]. rewrite (proj2 (Z.eqb_neq x 0)) by done. cbn [negb andb]. rewrite IH by done. split.
    + intros [H|(pre & t & -> & H)]; [by exists [], (x :: text)|by exists (x :: pre), t].
    + intros ([|y pre] & t & E & H); simplify_eq/=; [by left|]. right. by exists pre, t.
Qed.

(** C16: match implements the semantics of patterns: it finds a pattern in a line
    exactly when a part of the line is in the language of the pattern, a part at
    the beginning or the end of the line where a caret or a dollar asks for it. *)
Theorem match_correct re text :
  nonul re -> nonul text -> matches re text = true <-> found_in (parse_pattern re) text.
Proof.
  intros Hre Ht. unfold matches, parse_pattern, found_in. destruct re as [|c re1].
  - change (chr []) with 0. cbn [Z.eqb]. rewrite match_loop_spec by done. cbn. split.
    + intros (pre & t & -> & s & post & -> & Hs & He). by exists pre, s, post.
    + intros (pre & s & post & -> & Hs & _ & He). exists pre, (s ++ post). split; [done|]. by exists s, post.
  - change (chr (c :: re1)) with c. change (drop 1 (c :: re1)) with re1. destruct (Z.eqb_spec c 94) as [->|Hc].
    + apply Forall_cons in Hre as [_ Hre]. rewrite (matchhere_spec (length re1)) by done.
      destruct (parse_items re1) as [il e]. cbn. unfold prefix_in. split.
      * intros (s & post & -> & Hs & He). by exists [], s, post.
      * intros (pre & s & post & -> & Hs & Hb & He). rewrite Hb by done. by exists s, post.
    + rewrite match_loop_spec by done. destruct (parse_items (c :: re1)) as [il e]. cbn. unfold prefix_in. split.
      * intros (pre & t & -> & s & post & -> & Hs & He). by exists pre, s, post.
      * intros (pre & s & post & -> & Hs & _ & He). exists pre, (s ++ post). split; [done|]. by exists s, post.
Qed.

Lemma match_correct_witness :
  matches (chars "^a.*c$") (chars "abbc") = true <-> found_in (parse_pattern (chars "^a.*c$")) (chars "abbc").
Proof. apply match_correct; repeat constructor; discriminate. Defined.

(** * Lines *)

(** The lines of a text that end in a newline, and what follows the last one. *)
Fixpoint split_lines (s : list Z) : list (list Z) * list Z :=
  match s with
  | [] => ([], [])
  | c :: s' =>
      let '(ls, t) := split_lines s' in
      if c =? 10 then ([] :: ls, t)
      else match ls with [] => ([], c :: t) | l :: ls' => ((c :: l) :: ls', t) end
  end.

Lemma split_lines_none s : 10 ∉ s -> split_lines s = ([], s).
Proof.
  induction s as [|c s IH]; intros H; [done|]. apply not_elem_of_cons in H as [Hc H]. simpl. rewrite IH by done.
  by rewrite (proj2 (Z.eqb_neq c 10)) by done.
Qed.

Lemma split_lines_line l s : 10 ∉ l -> split_lines (l ++ 10 :: s) = (l :: (split_lines s).1, (split_lines s).2).
Proof.
  induction l as [|c l IH]; intros H; [simpl; by destruct (split_lines s)|]. apply not_elem_of_cons in H as [Hc H].
  simpl. rewrite IH by done. by rewrite (proj2 (Z.eqb_neq c 10)) by done.
Qed.

(** Either there is no newline or there is a first one. *)
Lemma line_cases s : 10 ∉ s \/ exists l s', s = l ++ 10 :: s' /\ 10 ∉ l.
Proof.
  induction s as [|c s [IH|(l & s' & -> & IH)] ]; [left; by apply not_elem_of_nil| |].
  - destruct (decide (c = 10)) as [->|Hc]; [right; exists [], s; split; [done|apply not_elem_of_nil]|]. left. by apply not_elem_of_cons.
  - destruct (decide (c = 10)) as [->|Hc]; [right; exists [], (l ++ 10 :: s'); split; [done|apply not_elem_of_nil]|].
    right. exists (c :: l), s'. split; [done|]. by apply not_elem_of_cons.
Qed.

(** Splitting goes on where it stopped. *)
Lemma split_lines_app n : forall a b, (length a <= n)%nat ->
  split_lines (a ++ b) = ((split_lines a).1 ++ (split_lines ((split_lines a).2 ++ b)).1, (split_lines ((split_lines a).2 ++ b)).2).
Proof.
  induction n as [|n IH]; intros a b Hn.
  { destruct a; [|simpl in Hn; lia]. simpl. by destruct (split_lines b). }
  destruct (line_cases a) as [Ha|(l & a' & -> & Hl)].
  - rewrite (split_lines_none a) by done. simpl. by destruct (split_lines (a ++ b)).
  - rewrite length_app in Hn. cbn [length] in Hn. rewrite <- app_assoc. cbn [app]. rewrite !split_lines_line by done. cbn [fst snd].
    rewrite (IH a' b) by lia. done.
Qed.

Lemma strchr_first l r : nonul l -> 10 ∉ l -> strchr (l ++ 10 :: r) 10 = Some (10 :: r).
Proof.
  induction l as [|c l IH]; intros Hn Hl; [done|]. apply Forall_cons in Hn as [Hc Hn]. apply not_elem_of_cons in Hl as [Hc' Hl].
  simpl. by rewrite (proj2 (Z.eqb_neq c 0)), (proj2 (Z.eqb_neq c 10)), IH by done.
Qed.

Lemma strchr_stop s r : nonul s -> 10 ∉ s -> strchr (s ++ 0 :: r) 10 = None.
Proof.
  induction s as [|c s IH]; intros Hn Hl; [done|]. apply Forall_cons in Hn as [Hc Hn]. apply not_elem_of_cons in Hl as [Hc' Hl].
  simpl. by rewrite (proj2 (Z.eqb_neq c 0)), (proj2 (Z.eqb_neq c 10)), IH by done.
Qed.

Section grep.
Context (pat : list Z) (wr : list Z -> Z).

(** The lines that match, the writes that print them, what the writes return. *)
Definition hits (s : list Z) : list (list Z) := List.filter (matches pat) (split_lines s).1.
Definition hit_writes (ls : list (list Z)) : list call := (fun l => Cwrite 1 (l ++ [10])) <$> ls.
Definition hit_answers (ls : list (list Z)) : list answer := (fun l => (wr l, [])) <$> ls.

Lemma hits_line l s : 10 ∉ l -> hits (l ++ 10 :: s) = if matches pat l then l :: hits s else hits s.
Proof. intros H. unfold hits. by rewrite split_lines_line. Qed.

Lemma grep_lines_ok n : forall pre s junk fuel rest,
  (length s <= n)%nat -> (length s < fuel)%nat -> nonul s ->
  exists pre', feed (grep_lines fuel pat (pre ++ s ++ 0 :: junk) (length pre)) (hit_answers (hits s) ++ rest) =
      (hit_writes (hits s), UDone (pre' ++ (split_lines s).2 ++ 0 :: junk, length pre'), rest) /\
    (length pre' + length (split_lines s).2 = length pre + length s)%nat.
Proof.
  induction n as [|n IH]; intros pre s junk [|fuel] rest Hn Hf Hs; try lia.
  { destruct s; [|simpl in Hn; lia]. exists pre. split; [|done]. cbn [grep_lines]. by rewrite drop_app_length. }
  cbn [grep_lines]. rewrite drop_app_length. destruct (line_cases s) as [H10|(l & s' & -> & Hl)].
  { rewrite strchr_stop by done. unfold hits. rewrite split_lines_none by done. by exists pre. }
  apply Forall_app in Hs as [Hls Hs']. apply Forall_cons in Hs' as [_ Hs'].
  rewrite length_app in Hn, Hf. cbn [length] in Hn, Hf. rewrite <- !app_assoc. cbn [app]. rewrite strchr_first by done.
  set (r := s' ++ 0 :: junk).
  replace (length (pre ++ l ++ 10%Z :: r) - length (10%Z :: r))%nat with (length (pre ++ l)) by (rewrite !length_app; lia).
  assert (Hq : forall x y : Z, <[length (pre ++ l) := y]> (pre ++ l ++ x :: r) = pre ++ l ++ y :: r).
  { intros x y. rewrite !app_assoc. rewrite insert_app_r_alt by done. by rewrite Nat.sub_diag. }
  cbv zeta. rewrite !Hq, !drop_app_length, cstring_nul by done. rewrite hits_line, split_lines_line by done. cbn [fst snd].
  assert (Hrec : forall x : Z, exists pre', feed (grep_lines fuel pat (pre ++ l ++ x :: r) (length (pre ++ l) + 1)) (hit_answers (hits s') ++ rest) =
      (hit_writes (hits s'), UDone (pre' ++ (split_lines s').2 ++ 0 :: junk, length pre'), rest) /\
    (length pre' + length (split_lines s').2 = length pre + (length l + S (length s')))%nat).
  { intros x. destruct (IH (pre ++ l ++ [x]) s' junk fuel rest) as (pre' & E & Hl'); [lia|lia|done|]. exists pre'.
    rewrite !length_app in Hl'. cbn [length] in Hl'. split; [|lia]. rewrite <- E. f_equal.
    rewrite <- !app_assoc. f_equal. rewrite !length_app. simpl. lia. }
  rewrite (length_app l). cbn [length]. destruct (matches pat l).
  - destruct (Hrec 10) as (pre' & E & Hl'). exists pre'. split; [|done].
    replace (length (pre ++ l) + 1 - length pre)%nat with (length (l ++ [10%Z])) by (rewrite !length_app; simpl; lia).
    change (l ++ 10 :: r) with (l ++ [10] ++ r). rewrite (app_assoc l), take_app_length.
    change (hit_writes (l :: hits s')) with ([Cwrite 1 (l ++ [10])] ++ hit_writes (hits s')).
    eapply feed_seq; [by apply feed_sys|]. cbn [app]. rewrite <- app_assoc. exact E.
  - destruct (Hrec 0) as (pre' & E & Hl'). by exists pre'.
Qed.

(** A NUL hides what follows it from strchr: the lines that grep finds in the array,
    and what it leaves there. *)
Definition lines (s : list Z) : list (list Z) := (split_lines (cstring s)).1.
Definition left_over (s : list Z) : list Z := (split_lines (cstring s)).2 ++ drop (length (cstring s)) s.
Definition found (s : list Z) : list (list Z) := List.filter (matches pat) (lines s).

(** What reads return of the bytes [text] that are still to come: a read asks for
    what fits behind the [pending] bytes of the array and returns some of it; the last
    one returns nothing, at the end of the text or when the array is full. *)
Fixpoint delivers (pending text : list Z) (pieces : list (list Z)) : Prop :=
  match pieces with
  | [] => text = [] \/ length pending = 1023%nat
  | ch :: pieces' =>
      ch <> [] /\ (length pending + length ch <= 1023)%nat /\
      exists text', text = ch ++ text' /\ delivers (left_over (pending ++ ch)) text' pieces'
  end.

Fixpoint grep_answers (pending : list Z) (pieces : list (list Z)) : list answer :=
  match pieces with
  | [] => []
  | ch :: pieces' =>
      gives ch :: hit_answers (found (pending ++ ch)) ++ grep_answers (left_over (pending ++ ch)) pieces'
  end.

Lemma nonul_rest s : nonul s -> nonul (split_lines s).2.
Proof.
  remember (length s) as n eqn:E. revert s E. induction (lt_wf n) as [n _ IH]. intros s -> Hs.
  destruct (line_cases s) as [Hn|(l & s' & -> & Hl)]; [by rewrite split_lines_none|]. rewrite split_lines_line by done.
  apply Forall_app in Hs as [_ Hs]. apply Forall_cons in Hs as [_ Hs]. eapply IH; [|done|done]. rewrite length_app. simpl. lia.
Qed.

Lemma split_rest s : split_lines (split_lines s).2 = ([], (split_lines s).2).
Proof.
  remember (length s) as n eqn:E. revert s E. induction (lt_wf n) as [n _ IH]. intros s ->.
  destruct (line_cases s) as [Hn|(l & s' & -> & Hl)]; [rewrite (split_lines_none s) by done; by apply split_lines_none|]. rewrite split_lines_line by done.
  eapply IH; [|done]. rewrite length_app. simpl. lia.
Qed.

(** A string, and what a NUL hides of it. *)
Lemma cstring_cases s : (nonul s /\ cstring s = s) \/ exists t, s = cstring s ++ 0 :: t.
Proof.
  induction s as [|c s IH]; [left; by split; [constructor|]|]. rewrite cstring_cons.
  destruct (Z.eqb_spec c 0) as [->|Hc]; [right; by exists s|]. destruct IH as [[Hn E]|(t & E)].
  - left. split; [by constructor|]. by rewrite E.
  - right. exists t. cbn [app]. by rewrite <- E.
Qed.

Lemma cstring_hides s t : s = cstring s ++ 0 :: t ->
  drop (length (cstring s)) s = 0 :: t /\ forall b, cstring (s ++ b) = cstring s.
Proof.
  intros E. split; [rewrite E at 2; apply drop_app_length|]. intros b. rewrite E at 1. rewrite <- app_assoc.
  apply cstring_nul, cstring_nonul.
Qed.

Lemma cstring_app_nonul a b : nonul a -> cstring (a ++ b) = a ++ cstring b.
Proof. induction 1 as [|x a Hx Ha IH]; [done|]. cbn [app]. by rewrite cstring_cons, (proj2 (Z.eqb_neq x 0)), IH. Qed.

Lemma left_lines s : lines (left_over s) = [].
Proof.
  unfold lines, left_over. pose proof (nonul_rest _ (cstring_nonul s)) as Hn.
  destruct (cstring_cases s) as [[_ E]|(t & E)].
  - rewrite E in Hn |- *. rewrite drop_all, app_nil_r, cstring_id by done. by rewrite split_rest.
  - destruct (cstring_hides s t E) as [-> _]. rewrite cstring_nul by done. by rewrite split_rest.
Qed.

(** Looking for lines goes on where it stopped. *)
Lemma lines_more a b : lines (a ++ b) = lines a ++ lines (left_over a ++ b).
Proof.
  unfold lines, left_over. pose proof (cstring_nonul a) as Hc. pose proof (nonul_rest _ Hc) as Hn.
  destruct (cstring_cases a) as [[Ha E]|(t & E)].
  - rewrite E in Hn |- *. rewrite drop_all, app_nil_r, !cstring_app_nonul by done. by rewrite (split_lines_app (length a)).
  - destruct (cstring_hides a t E) as [-> ->]. rewrite <- app_assoc. cbn [app]. rewrite cstring_nul by done.
    by rewrite split_rest, app_nil_r.
Qed.
Lemma found_more a b : found (a ++ b) = found a ++ found (left_over a ++ b).
Proof. unfold found. by rewrite lines_more, List.filter_app. Qed.

Lemma grep_lines_found s junk rest fuel : (length s < fuel)%nat ->
  exists pre', feed (grep_lines fuel pat (s ++ 0 :: junk) 0) (hit_answers (found s) ++ rest) =
      (hit_writes (found s), UDone (pre' ++ left_over s ++ 0 :: junk, length pre'), rest) /\
    (length pre' + length (left_over s) = length s)%nat.
Proof.
  intros Hf. unfold left_over. destruct (cstring_cases s) as [[Hs E]|(t & E)].
  - destruct (grep_lines_ok (length s) [] s junk fuel rest) as (pre' & Ef & Hl); [lia|done|done|].
    exists pre'. unfold found, lines. rewrite E, drop_all, app_nil_r. split; [exact Ef|exact Hl].
  - assert (Hlen : length s = (length (cstring s) + S (length t))%nat) by (rewrite E at 1; by rewrite length_app).
    destruct (grep_lines_ok (length s) [] (cstring s) (t ++ 0 :: junk) fuel rest) as (pre' & Ef & Hl); [lia|lia|apply cstring_nonul|].
    destruct (cstring_hides s t E) as [-> _]. exists pre'. rewrite E at 1. rewrite <- !app_assoc. split; [exact Ef|].
    rewrite length_app. cbn [length app] in *. lia.
Qed.

(** The lines of the text that come to be complete in the array: those before a NUL
    and before a line of 1023 characters or more. *)
Fixpoint short_lines (ls : list (list Z)) : list (list Z) :=
  match ls with
  | [] => []
  | l :: ls' => if (length l <? 1023)%nat then l :: short_lines ls' else []
  end.

Lemma short_app ls ls' : Forall (fun l => length l < 1023)%nat ls -> short_lines (ls ++ ls') = ls ++ short_lines ls'.
Proof. induction 1 as [|l ls Hl _ IH]; [done|]. cbn [app short_lines]. by rewrite (proj2 (Nat.ltb_lt _ _) Hl), IH. Qed.

Lemma lines_short n : forall s, (length s <= n)%nat -> Forall (fun l => length l < length s)%nat (split_lines s).1.
Proof.
  induction n as [|n IH]; intros s Hs; [destruct s; [constructor|simpl in Hs; lia]|].
  destruct (line_cases s) as [H|(l & s' & -> & Hl)]; [by rewrite split_lines_none|].
  rewrite split_lines_line by done. rewrite length_app in *. cbn [length fst] in *. constructor; [lia|].
  eapply Forall_impl; [apply IH; lia|]. simpl. lia.
Qed.

(** A full array with no line in it: the text has no further line, or a long one. *)
Lemma full_array pending text : length pending = 1023%nat -> lines pending = [] -> short_lines (lines (pending ++ text)) = [].
Proof.
  unfold lines. intros Hl Hn. destruct (cstring_cases pending) as [[Hp E]|(t & E)].
  - rewrite cstring_app_nonul by done. rewrite E in Hn. destruct (line_cases pending) as [H10|(l & s' & -> & H10)].
    + destruct (line_cases (cstring text)) as [Ht|(l & s' & -> & Ht)].
      * rewrite split_lines_none; [done|]. rewrite elem_of_app. tauto.
      * rewrite app_assoc, split_lines_line by (rewrite elem_of_app; tauto). cbn [short_lines fst].
        rewrite (proj2 (Nat.ltb_ge _ _)); [done|]. rewrite length_app. lia.
    + by rewrite split_lines_line in Hn.
  - destruct (cstring_hides pending t E) as [_ ->]. by rewrite Hn.
Qed.

Lemma delivers_lines pieces : forall pending text, lines pending = [] -> delivers pending text pieces ->
  lines (pending ++ mjoin pieces) = short_lines (lines (pending ++ text)).
Proof.
  induction pieces as [|ch pieces IH]; intros pending text Hp H; cbn [delivers] in H.
  - change (mjoin []) with (@nil Z). rewrite app_nil_r. destruct H as [->|H]; [by rewrite app_nil_r, Hp|].
    by rewrite full_array, Hp.
  - destruct H as (_ & Hl & text' & -> & H). change (mjoin (ch :: pieces)) with (ch ++ mjoin pieces).
    rewrite !(app_assoc pending), !(lines_more (pending ++ ch)), (IH _ text' (left_lines _) H), short_app; [done|].
    eapply Forall_impl; [apply (lines_short _ _ (le_n _))|]. intros l Hx. cbv beta in Hx.
    assert (length (cstring (pending ++ ch)) <= length (pending ++ ch))%nat by (unfold cstring; rewrite length_take; lia).
    rewrite length_app in *. lia.
Qed.

(** The array after a read of [ch] behind [pending]. *)
Lemma grep_fill pending ch x : (length pending + length ch <= 1023)%nat -> length (pending ++ x) = 1024%nat ->
  exists junk, <[(length pending + length ch)%nat := 0]> (splice (length pending) ch (pending ++ x)) = (pending ++ ch) ++ 0 :: junk /\
    length ((pending ++ ch) ++ 0%Z :: junk) = 1024%nat.
Proof.
  intros Hl Hx. rewrite length_app in Hx. unfold splice. rewrite take_app_length. rewrite drop_app_ge by lia.
  replace (length pending + length ch - length pending)%nat with (length ch) by lia.
  destruct (drop (length ch) x) as [|y junk] eqn:E.
  { apply (f_equal length) in E. rewrite length_drop in E. simpl in E. lia. }
  exists junk. apply (f_equal length) in E. rewrite length_drop in E. simpl in E.
  rewrite app_assoc. split; [|rewrite !length_app; simpl; lia].
  rewrite insert_app_r_alt by (rewrite length_app; lia). rewrite length_app, Nat.sub_diag. done.
Qed.

(** What a run prints: the matching lines of what is in the array and of what comes. *)
Lemma hit_output fd ls : output fd (hit_writes ls) = if 1 =? fd then mjoin ((fun l => l ++ [10]) <$> ls) else [].
Proof.
  induction ls as [|l ls IH]; [by destruct (1 =? fd)|]. change (hit_writes (l :: ls)) with (Cwrite 1 (l ++ [10]) :: hit_writes ls).
  rewrite output_cons, IH. unfold sent_to. by destruct (1 =? fd).
Qed.

Lemma grep_ok fd pieces : forall fuel pending text x n0 rest,
  (length pieces < fuel)%nat -> lines pending = [] -> length (pending ++ x) = 1024%nat ->
  delivers pending text pieces -> n0 <= 0 ->
  exists tr buf', feed (grep fuel pat fd (pending ++ x) (length pending)) (grep_answers pending pieces ++ (n0, []) :: rest) = (tr, UDone buf', rest) /\
    length buf' = 1024%nat /\ output 1 tr = mjoin ((fun l => l ++ [10]) <$> found (pending ++ mjoin pieces)) /\ output 2 tr = [].
Proof.
  induction pieces as [|ch pieces IH]; intros [|fuel] pending text x n0 rest Hf Hp Hx Hok Hn0; try (simpl in Hf; lia).
  { eexists _, _. split_and!; [cbn [grep grep_answers app]; apply feed_data; cbv beta iota; rewrite Z.gtb_ltb, (proj2 (Z.ltb_ge 0 n0)) by lia; reflexivity| | |done].
    - by rewrite length_splice by (rewrite Hx; rewrite length_app in Hx; simpl; lia).
    - change (mjoin []) with (@nil Z). rewrite app_nil_r. unfold found. by rewrite Hp. }
  destruct Hok as (Hne & Hl & text' & -> & Hok). cbn [length] in Hf.
  destruct (grep_fill pending ch x Hl Hx) as (junk & Efill & Hjl).
  set (tail := left_over (pending ++ ch)) in *.
  set (more := grep_answers tail pieces ++ (n0, []) :: rest).
  destruct (grep_lines_found (pending ++ ch) junk more (S 1024)) as (pre' & E & Hpre); [rewrite length_app; lia|]. fold tail in E, Hpre.
  assert (Hsplit : exists y, splice 0 (take (length tail) (drop (length pre') (pre' ++ tail ++ 0 :: junk))) (pre' ++ tail ++ 0 :: junk) = tail ++ y /\
    length (tail ++ y) = 1024%nat).
  { rewrite drop_app_length, take_app_length. unfold splice. rewrite take_0. cbn [app]. eexists. split; [done|].
    rewrite !length_app, length_drop, !length_app in *. cbn [length] in *. lia. }
  destruct Hsplit as (y & Esplit & Hy).
  destruct (IH fuel tail text' y n0 rest) as (tr & buf' & Erec & Hbuf & Ho1 & Ho2); [lia|apply left_lines|done|done|done|].
  exists (Cread fd (1024 - Z.of_nat (length pending) - 1) :: hit_writes (found (pending ++ ch)) ++ tr), buf'.
  rewrite !output_cons, !output_app, !hit_output, Ho1, Ho2. split_and!; [|done| |done].
  - cbn [grep grep_answers app]. apply feed_data. unfold gives. rewrite (proj2 (Z.gtb_lt _ 0)) by (destruct ch; simpl; [done|lia]).
    rewrite Nat2Z.id. cbv zeta. rewrite Efill, Hjl. fold tail. rewrite <- (app_assoc (hit_answers _)). fold more. eapply feed_seq; [exact E|]. cbv beta iota.
    rewrite <- length_app. rewrite (proj2 (Nat.ltb_lt 0 _)) by (destruct ch; [done|rewrite length_app; simpl; lia]).
    replace (length (pending ++ ch) - length pre')%nat with (length tail) by lia. by rewrite Esplit.
  - change (mjoin (ch :: pieces)) with (ch ++ mjoin pieces). rewrite (app_assoc pending), (found_more (pending ++ ch)), fmap_app, join_app. done.
Qed.
End grep.

(** A file given to grep: its bytes, up to an error of a read if there is one, how the
    reads cut them up, what the last read returns. *)
Record grep_file := mkGrepFile { g_fd : Z; g_text : list Z; g_pieces : list (list Z); g_last : Z }.
Definition grep_file_ok (fuel : nat) (f : grep_file) : Prop :=
  0 <= g_fd f /\ delivers [] (g_text f) (g_pieces f) /\ (length (g_pieces f) < fuel)%nat /\ g_last f <= 0.
Definition grep_file_answers (pat : list Z) (wr : list Z -> Z) (f : grep_file) : list answer :=
  (g_fd f, []) :: grep_answers pat wr [] (g_pieces f) ++ [(g_last f, []); (0, [])].

(** What is printed of a file. *)
Definition grep_file_lines (pat : list Z) (f : grep_file) : list Z :=
  mjoin ((fun l => l ++ [10]) <$> List.filter (matches pat) (short_lines (lines (g_text f)))).

(** Nothing is missed in a file of text with no line of 1023 characters. *)
Lemma short_text text : nonul text -> Forall (fun l => length l < 1023)%nat (split_lines text).1 ->
  short_lines (lines text) = (split_lines text).1.
Proof. intros Hn Hl. unfold lines. rewrite cstring_id by done. rewrite <- (app_nil_r (split_lines text).1), short_app by done. done. Qed.

Lemma grep_files_print pat wr fuel files : forall names buf rest,
  length names = length files -> Forall (grep_file_ok fuel) files -> length buf = 1024%nat ->
  exists tr, feed (grep_files fuel pat names buf) (mjoin (grep_file_answers pat wr <$> files) ++ rest) = (tr, UDone tt, rest) /\
    output 1 tr = mjoin (grep_file_lines pat <$> files) /\ output 2 tr = [].
Proof.
  induction files as [|f files IH]; intros [|a names] buf rest Hl Hf Hb; try done.
  { by eexists. }
  apply Forall_cons in Hf as [(Hfd & Hp & Hn & Hlast) Hf].
  change (mjoin (grep_file_answers pat wr <$> f :: files)) with (grep_file_answers pat wr f ++ mjoin (grep_file_answers pat wr <$> files)).
  change (mjoin (grep_file_lines pat <$> f :: files)) with (grep_file_lines pat f ++ mjoin (grep_file_lines pat <$> files)).
  unfold grep_file_answers at 1. cbn [app]. rewrite <- !app_assoc. cbn [app].
  destruct (grep_ok pat wr (g_fd f) (g_pieces f) fuel [] (g_text f) buf (g_last f) ((0, []) :: mjoin (grep_file_answers pat wr <$> files) ++ rest))
    as (tr1 & buf' & E1 & Hb' & Ho1 & He1); [done|done|done|done|done|].
  destruct (IH names buf' rest ltac:(simpl in Hl; lia) Hf Hb') as (tr2 & E2 & Ho2 & He2).
  unfold found in Ho1. rewrite (delivers_lines pat wr _ [] _ eq_refl Hp) in Ho1.
  exists (Copen a O_RDONLY :: tr1 ++ Cclose (g_fd f) :: tr2).
  rewrite !output_cons, !output_app, !output_cons, Ho1, Ho2, He1, He2. split_and!; [|done|done].
  cbn [grep_files]. apply feed_sys. rewrite (proj2 (Z.ltb_ge (g_fd f) 0)) by lia.
  apply (feed_seq _ _ _ _ _ _ _ _ _ E1). by apply feed_sys.
Qed.

(** C18: what grep prints of any files, whatever bytes they hold.  Of each file it
    prints exactly the newline-terminated lines in which match finds the pattern,
    complete and in order, each in one write, whatever the pieces in which reads
    deliver the file and wherever these cut a line, up to the first NUL byte and up to
    the first line of 1023 characters or more: the NUL ends the string that strchr
    searches, and the long line fills the array, so that the next read asks for no
    byte and grep goes on to the next file.  All lines of a text with neither are
    looked at. *)
Theorem grep_correct pat wr fuel prog names files rest :
  names <> [] -> length names = length files -> Forall (grep_file_ok fuel) files ->
  (exists tr, feed (main fuel (prog :: pat :: names)) (mjoin (grep_file_answers pat wr <$> files) ++ rest) = (tr, UExit 0, rest) /\
    output 1 tr = mjoin (grep_file_lines pat <$> files) /\ output 2 tr = []) /\
  (forall f, nonul (g_text f) -> Forall (fun l => length l < 1023)%nat (split_lines (g_text f)).1 ->
    grep_file_lines pat f = mjoin ((fun l => l ++ [10]) <$> hits pat (g_text f))).
Proof.
  intros Hne Hl Hf. split; [|intros f Hn Hs; unfold grep_file_lines; by rewrite short_text].
  destruct (grep_files_print pat wr fuel files names (replicate 1024 0) rest Hl Hf) as (tr & E & Ho & He); [done|].
  exists tr. split_and!; [|done|done]. unfold main. destruct names as [|a names]; [done|].
  rewrite <- (app_nil_r tr). by apply (feed_seq _ _ _ _ _ _ _ _ _ E).
Qed.

(** A text that reads cut within a line, one with a NUL, one with a long line. *)
Definition grep_sample : grep_file :=
  mkGrepFile 3 (chars "one" ++ [10] ++ chars "two" ++ [10] ++ chars "ten" ++ [10])
    [chars "one" ++ [10] ++ chars "t"; chars "wo" ++ [10]; chars "ten" ++ [10]] 0.
Definition grep_nul : grep_file :=
  mkGrepFile 3 (chars "tar" ++ [10; 0; 10] ++ chars "tea" ++ [10]) [chars "tar" ++ [10; 0; 10] ++ chars "tea" ++ [10]] 0.
Definition grep_long : grep_file :=
  mkGrepFile 3 (chars "tip" ++ [10] ++ replicate 1023 97 ++ [10] ++ chars "top" ++ [10])
    [chars "tip" ++ [10] ++ replicate 1019 97; replicate 4 97] 0.

Lemma grep_correct_witness :
  exists tr, feed (main 4 [chars "grep"; chars "^t"; chars "f"; chars "g"; chars "h"])
      (mjoin (grep_file_answers (chars "^t") (fun _ => 0) <$> [grep_sample; grep_nul; grep_long]) ++ []) = (tr, UExit 0, []) /\
    output 1 tr = chars "two" ++ [10] ++ chars "ten" ++ [10] ++ chars "tar" ++ [10] ++ chars "tip" ++ [10] /\ output 2 tr = [].
Proof.
  refine (proj1 (grep_correct (chars "^t") (fun _ => 0) 4 (chars "grep") [chars "f"; chars "g"; chars "h"] [grep_sample; grep_nul; grep_long] [] _ _ _));
    [done|done|].
  constructor; [|constructor; [|constructor; [|constructor] ] ]; (split_and!; [cbn; lia| |cbn; lia|cbn; lia]).
  - split_and!; [done|vm_compute; lia|]. eexists. split; [reflexivity|]. split_and!; [done|vm_compute; lia|].
    eexists. split; [reflexivity|]. split_and!; [done|vm_compute; lia|]. eexists. split; [|by left]. reflexivity.
  - split_and!; [done|vm_compute; lia|]. eexists. split; [|by left]. by rewrite app_nil_r.
  - split_and!; [done|vm_compute; lia|]. exists (replicate 4 97 ++ [10] ++ chars "top" ++ [10]). split; [reflexivity|].
    split_and!; [done|vm_compute; lia|]. exists ([10] ++ chars "top" ++ [10]). split; [reflexivity|]. right. vm_compute. reflexivity.
Defined.
