(* ===== verification/Mkfs.v ===== *)
(** mkfs/mkfs.c: the program that builds the file-system image.

    The image is a file of blocks; a sector number past its end makes a read fail
    and a write extend the file, as for any file of the host.  mkfs stores integers
    in little-endian order with xshort and xint and reads some of them back without,
    so it is meant for little-endian hosts, and that is the host modelled.  What it
    prints about its progress is left out. *)

From S2P Require Import Prelude Riscv Bytes CString State Fs.

Module Mkfs.

(** fsfd (the image), freeinode, freeblock *)
Record mst := mkMst { img : list block; freeinode : Z; freeblock : Z }.

(** How a run ends: normally, in exit(1) after a message, in a failed assert
    (or out of fuel). *)
Inductive mres (A : Type) : Type :=
| MOk (a : A) (st : mst)
| MDie (s : list Z)
| MAssert
| MFuel.
Arguments MOk {A} a st.
Arguments MDie {A} s.
Arguments MAssert {A}.
Arguments MFuel {A}.

Definition M (A : Type) : Type := mst -> mres A.
#[export] Instance M_ret : MRet M := fun A a st => MOk a st.
#[export] Instance M_bind : MBind M := fun A B f m st =>
  match m st with MOk a st' => f a st' | MDie s => MDie s | MAssert => MAssert | MFuel => MFuel end.

(** void die(const char *s) *)
Definition die {A} (s : list Z) : M A := fun _ => MDie s.
Definition massert (b : bool) : M unit := fun st => if b then MOk tt st else MAssert.

Fixpoint forM {A} (l : list A) (f : A -> M unit) : M unit :=
  match l with [] => mret tt | x :: l' => f x;; forM l' f end.

(** ushort xshort(ushort x), uint xint(uint x): the bytes, read as an integer *)
Definition xshort (x : Z) : Z := get 2 0 [u8 x; u8 (Z.shiftr x 8)].
Definition xint (x : Z) : Z := get 4 0 [u8 x; u8 (Z.shiftr x 8); u8 (Z.shiftr x 16); u8 (Z.shiftr x 24)].

Definition NINODES : Z := 200.
Definition nbitmap : Z := FSSIZE / BPB + 1.
Definition ninodeblocks : Z := NINODES / IPB + 1.
Definition nlog : Z := LOGSIZE.
Definition nmeta : Z := 2 + nlog + ninodeblocks + nbitmap.
Definition nblocks : Z := FSSIZE - nmeta.

(** The super block as main fills it in *)
Definition sb : superblock :=
  mkSb FSMAGIC (xint FSSIZE) (xint nblocks) (xint NINODES) (xint nlog) (xint 2) (xint (2 + nlog)) (xint (2 + nlog + ninodeblocks)).
Definition sb_bytes : list Z :=
  enc 4 (sb_magic sb) ++ enc 4 (sb_size sb) ++ enc 4 (sb_nblocks sb) ++ enc 4 (sb_ninodes sb) ++
  enc 4 (sb_nlog sb) ++ enc 4 (sb_logstart sb) ++ enc 4 (sb_inodestart sb) ++ enc 4 (sb_bmapstart sb).

(** The block of the image at offset sec * BSIZE, a uint *)
Definition sector (sec : Z) : nat := Z.to_nat (u32 (sec * BSIZE) / BSIZE).

(** void wsect(uint sec, void *buf) *)
Definition wsect (sec : Z) (buf : block) : M unit := fun st =>
  let n := sector sec in
  let img' := if (n <? length (img st))%nat then <[n := buf]> (img st)
              else img st ++ replicate (n - length (img st)) zero_block ++ [buf] in
  MOk tt (mkMst img' (freeinode st) (freeblock st)).

(** void rsect(uint sec, void *buf) *)
Definition rsect (sec : Z) : M block := fun st =>
  match img st !! sector sec with
  | Some buf => MOk buf st
  | None => MDie (chars "read")
  end.

(** void winode(uint inum, struct dinode *ip); a dinode is its 64 bytes *)
Definition winode (inum : Z) (ip : list Z) : M unit :=
  let bn := IBLOCK inum sb in
  buf ← rsect bn;
  wsect bn (splice (dip inum) ip buf).

(** void rinode(uint inum, struct dinode *ip) *)
Definition rinode (inum : Z) : M (list Z) :=
  let bn := IBLOCK inum sb in
  buf ← rsect bn;
  mret (take 64 (drop (dip inum) buf)).

(** freeinode++, freeblock++ *)
Definition take_inode : M Z := fun st => MOk (freeinode st) (mkMst (img st) (u32 (freeinode st + 1)) (freeblock st)).
Definition take_block : M Z := fun st => MOk (freeblock st) (mkMst (img st) (freeinode st) (u32 (freeblock st + 1))).

Definition get_freeblock : M Z := fun st => MOk (freeblock st) st.
Definition set_freeblock (b : Z) : M unit := fun st => MOk tt (mkMst (img st) (freeinode st) b).

(** uint ialloc(ushort type) *)
Definition ialloc (type : Z) : M Z :=
  inum ← take_inode;
  let din := replicate 64 0 in
  let din := put 2 0 (xshort type) din in
  let din := put 2 6 (xshort 1) din in
  let din := put 4 8 (xint 0) din in
  winode inum din;;
  mret inum.

(** The loop of balloc: bits 0 to used - 1 *)
Definition balloc_bits (used : nat) : block :=
  foldl (fun buf i => bit_set (Z.of_nat i) buf) zero_block (seq 0 used).

(** void balloc(int used) *)
Definition balloc (used : Z) : M unit :=
  massert (used <? BPB);;
  wsect (sb_bmapstart sb) (balloc_bits (Z.to_nat used)).

(** din.addrs[i] *)
Definition addr (din : list Z) (i : nat) : Z := get 4 (12 + 4 * i) din.
Definition set_addr (din : list Z) (i : nat) (v : Z) : list Z := put 4 (12 + 4 * i) v din.

(** if(xint(din.addrs[i]) == 0) din.addrs[i] = xint(freeblock++); *)
Definition need_addr (din : list Z) (i : nat) : M (list Z) :=
  if xint (addr din i) =? 0 then
    b ← take_block;
    mret (set_addr din i (xint b))
  else mret din.

(** Entry j of the indirect block, allocated if need be *)
Definition indirect_entry (ind : Z) (j : nat) : M Z :=
  indirect ← rsect ind;
  indirect ← (if get 4 (4 * j) indirect =? 0 then
                b ← take_block;
                let indirect := put 4 (4 * j) (xint b) indirect in
                wsect ind indirect;;
                mret indirect
              else mret indirect);
  mret (xint (get 4 (4 * j) indirect)).

(** The block x of the file block fbn, and the dinode *)
Definition file_block (din : list Z) (fbn : Z) : M (Z * list Z) :=
  if fbn <? NDIRECT then
    din ← need_addr din (Z.to_nat fbn);
    mret (xint (addr din (Z.to_nat fbn)), din)
  else
    din ← need_addr din (Z.to_nat NDIRECT);
    x ← indirect_entry (xint (addr din (Z.to_nat NDIRECT))) (Z.to_nat (fbn - NDIRECT));
    mret (x, din).

(** The loop of iappend *)
Fixpoint iappend_loop (fuel : nat) (din : list Z) (off : Z) (p : list Z) : M (list Z * Z) :=
  match p, fuel with
  | [], _ => mret (din, off)
  | _, O => fun _ => MFuel
  | _, S fuel' =>
      let fbn := off / BSIZE in
      massert (fbn <? MAXFILE);;
      '(x, din) ← file_block din fbn;
      let n1 := Z.min (Z.of_nat (length p)) ((fbn + 1) * BSIZE - off) in
      buf ← rsect x;
      wsect x (splice (Z.to_nat (off - fbn * BSIZE)) (take (Z.to_nat n1) p) buf);;
      iappend_loop fuel' din (u32 (off + n1)) (drop (Z.to_nat n1) p)
  end.

(** void iappend(uint inum, void *xp, int n) *)
Definition iappend (inum : Z) (p : list Z) : M unit :=
  din ← rinode inum;
  '(din, off) ← iappend_loop (length p) din (xint (get 4 8 din)) p;
  winode inum (put 4 8 (xint off) din).

(** struct dirent, cleared, then with a number and the bytes of a name *)
Definition dirent (inum : Z) (name : list Z) : list Z := splice 2 name (put 2 0 (xshort inum) (replicate 16 0)).

(** The name of a file in the image: without user/ and without a leading
    underscore *)
Definition strip_user (arg : list Z) : list Z := if strncmp arg (chars "user/") 5 =? 0 then drop 5 arg else arg.
Definition strip_ (name : list Z) : list Z := if chr name =? 95 then drop 1 name else name.

(** The body of the loop of main over the files: an argument, and what open and
    the reads give, if open succeeds *)
Definition add_file (rootino : Z) (f : list Z * option (list (list Z))) : M unit :=
  let '(arg, opened) := f in
  let shortname := strip_user arg in
  massert (negb (existsb (Z.eqb 47) (take (strlen_nat shortname) shortname)));;
  match opened with
  | None => die arg
  | Some pieces =>
      let shortname := strip_ shortname in
      massert (Z.of_nat (strlen_nat shortname) <=? DIRSIZ);;
      inum ← ialloc T_FILE;
      iappend rootino (dirent inum (strncpy_bytes shortname (Z.to_nat DIRSIZ)));;
      forM pieces (iappend inum)
  end.

(** The end of main: the size of the root directory is rounded up *)
Definition fix_root (rootino : Z) : M unit :=
  din ← rinode rootino;
  let off := xint (get 4 8 din) in
  let off := (off / BSIZE + 1) * BSIZE in
  winode rootino (put 4 8 (xint off) din).

(** int main(int argc, char *argv[]), from the opened image on *)
Definition main (files : list (list Z * option (list (list Z)))) : M unit :=
  set_freeblock nmeta;;
  forM (seq 0 (Z.to_nat FSSIZE)) (fun i => wsect (Z.of_nat i) zero_block);;
  wsect 1 (splice 0 sb_bytes zero_block);;
  rootino ← ialloc T_DIR;
  massert (rootino =? ROOTINO);;
  iappend rootino (dirent rootino (chars "." ++ [0]));;
  iappend rootino (dirent rootino (chars ".." ++ [0]));;
  forM files (add_file rootino);;
  fix_root rootino;;
  used ← get_freeblock;
  balloc used.

(** The image before main, freshly truncated *)
Definition start : mst := mkMst [] 1 0.

End Mkfs.
