(* ===== verification/MkfsSpec.v ===== *)
(** The image of mkfs: an invariant that relates it to the files it holds, and
    what each operation does to them. *)

From stdpp Require Import functions.
From S2P Require Import Prelude Riscv Bytes CString State Fs Mkfs.
Import Mkfs.

(** * The image and its files *)

(** A file: the type and size in its inode, its contents, its data blocks in order,
    its indirect block or 0. *)
Record fnode := mkFn { f_type : Z; f_size : Z; f_data : list Z; f_blocks : list Z; f_ind : Z }.

Definition blk (im : list block) (b : Z) : block := default [] (im !! Z.to_nat b).
Definition dino (im : list block) (inum : Z) : list Z := take 64 (drop (dip inum) (blk im (IBLOCK inum sb))).

Definition zeros (n : Z) : list Z := replicate (Z.to_nat n) 0.
Definition len {A} (l : list A) : Z := Z.of_nat (length l).

(** An inode [din] of the image [im] stands for the file [f]; past the contents the
    last block is zero. *)
Record irep (im : list block) (din : list Z) (f : fnode) : Prop := mkIrep {
  ir_len : len din = 64;
  ir_type : di_type 0 din = f_type f;
  ir_nlink : di_nlink 0 din = 1;
  ir_size : di_size 0 din = f_size f;
  ir_direct : forall i, (i < 12)%nat -> addr din i = default 0 (f_blocks f !! i);
  ir_addr12 : addr din 12 = f_ind f;
  ir_ind : f_ind f = 0 -> len (f_blocks f) <= 12;
  ir_max : len (f_blocks f) <= MAXFILE;
  ir_indirect : f_ind f <> 0 -> forall j, (j < 256)%nat -> get 4 (4 * j) (blk im (f_ind f)) = default 0 (f_blocks f !! (12 + j)%nat);
  ir_fits : len (f_data f) <= BSIZE * len (f_blocks f);
  ir_data : mjoin (blk im <$> f_blocks f) = f_data f ++ zeros (BSIZE * len (f_blocks f) - len (f_data f))
}.

(** The blocks of a file. *)
Definition owned (f : fnode) : list Z := (if decide (f_ind f = 0) then [] else [f_ind f]) ++ f_blocks f.

(** An image of FSSIZE blocks, zero from the first free block on. *)
Record shape (st : mst) : Prop := mkShape {
  sh_len : len (img st) = FSSIZE;
  sh_blk : forall b, 0 <= b < FSSIZE -> len (blk (img st) b) = BSIZE;
  sh_free : nmeta <= freeblock st <= FSSIZE;
  sh_zero : forall b, freeblock st <= b < FSSIZE -> blk (img st) b = zero_block
}.

(** The files [fs] are in the image, with [D] for their inodes; no block is in two
    files or twice in one. *)
Record good (st : mst) (D : nat -> list Z) (fs : list fnode) : Prop := mkGood {
  go_shape : shape st;
  go_irep : forall k f, fs !! k = Some f -> irep (img st) (D k) f;
  go_nodup : NoDup (fs ≫= owned);
  go_range : Forall (fun b => nmeta <= b < freeblock st) (fs ≫= owned)
}.

(** The state of mkfs between operations: the inodes are those of the image. *)
Definition inv (st : mst) (fs : list fnode) : Prop :=
  good st (fun k => dino (img st) (Z.of_nat k + 1)) fs /\ freeinode st = len fs + 1 /\ len fs < NINODES.

(** * Sectors *)

Lemma sector_small b : 0 <= b < FSSIZE -> sector b = Z.to_nat b.
Proof. intros H. unfold sector, FSSIZE, BSIZE in *. rewrite u32_small by lia. by rewrite Z.div_mul by lia. Qed.

Lemma xint_id x : 0 <= x < 2 ^ 32 -> xint x = x.
Proof.
  intros H. transitivity (dec (enc 4 x)); [|rewrite dec_enc; apply Z.mod_small; lia].
  unfold xint, get. rewrite drop_0. unfold enc. cbn [take]. f_equal. rewrite !Z.shiftr_div_pow2 by lia.
  rewrite !Z.div_div by lia. done.
Qed.

Lemma blk_insert im b b' x : 0 <= b < len im -> 0 <= b' ->
  blk (<[Z.to_nat b := x]> im) b' = if decide (b' = b) then x else blk im b'.
Proof.
  unfold len. intros Hb Hb'. unfold blk. destruct (decide (b' = b)) as [->|Hne].
  - by rewrite list_lookup_insert_eq by lia.
  - by rewrite list_lookup_insert_ne by lia.
Qed.

Lemma rsect_ok st b : shape st -> 0 <= b < FSSIZE -> rsect b st = MOk (blk (img st) b) st.
Proof.
  intros Hs Hb. unfold rsect. rewrite sector_small by done. unfold blk.
  destruct (img st !! Z.to_nat b) eqn:E; [done|]. apply lookup_ge_None in E. pose proof (sh_len st Hs). unfold len in *. lia.
Qed.

Definition with_img (st : mst) (im : list block) : mst := mkMst im (freeinode st) (freeblock st).

Lemma wsect_ok st b x : shape st -> 0 <= b < FSSIZE -> wsect b x st = MOk tt (with_img st (<[Z.to_nat b := x]> (img st))).
Proof.
  intros Hs Hb. unfold wsect. rewrite sector_small by done.
  rewrite (proj2 (Nat.ltb_lt _ _)); [done|]. pose proof (sh_len st Hs). unfold len in *. lia.
Qed.

(** A write below the free blocks, of a block of the right size. *)
Lemma shape_write st b x : shape st -> 0 <= b < freeblock st -> len x = BSIZE ->
  shape (with_img st (<[Z.to_nat b := x]> (img st))).
Proof.
  intros Hs Hb Hx. pose proof (sh_len st Hs) as Hl. pose proof (sh_free st Hs) as Hf. split; cbn [with_img img freeblock].
  - unfold len in *. by rewrite length_insert.
  - intros b' Hb'. rewrite blk_insert by lia. destruct (decide (b' = b)); [done|by apply Hs].
  - done.
  - intros b' Hb'. rewrite blk_insert by lia. rewrite decide_False by lia. by apply Hs.
Qed.

(** * Frames *)

Lemma irep_ext im im' din f : (forall b, b ∈ owned f -> blk im' b = blk im b) -> irep im din f -> irep im' din f.
Proof.
  intros H []. split; try done.
  - intros Hi j Hj. rewrite H; [by apply ir_indirect0|]. unfold owned. rewrite decide_False by done. set_solver.
  - rewrite <- ir_data0. f_equal. apply list_fmap_ext. intros i b Hb. apply H. unfold owned.
    apply list_elem_of_lookup_2 in Hb. set_solver.
Qed.

Lemma owned_split fs k f : fs !! k = Some f ->
  exists l1 l2, fs = l1 ++ f :: l2 /\ length l1 = k /\ forall g : fnode, <[k := g]> fs = l1 ++ g :: l2.
Proof.
  intros H. exists (take k fs), (drop (S k) fs). pose proof (lookup_lt_Some _ _ _ H) as Hk.
  split_and!; [by rewrite take_drop_middle|rewrite length_take; lia|]. intros g. by rewrite insert_take_drop.
Qed.

(** One file changes: it may take blocks that were free and change its own. *)
Lemma good_update st D fs k f st' din' f' new :
  good st D fs -> fs !! k = Some f -> shape st' -> freeblock st <= freeblock st' ->
  (forall b, b ∉ owned f -> nmeta <= b < freeblock st -> blk (img st') b = blk (img st) b) ->
  irep (img st') din' f' -> owned f' ≡ₚ new ++ owned f -> NoDup new ->
  Forall (fun b => freeblock st <= b < freeblock st') new ->
  good st' (<[k := din']> D) (<[k := f']> fs).
Proof.
  intros [Hs Hi Hn Hr] Hk Hs' Hfb Hframe Hi' Hp Hnew Hnr.
  destruct (owned_split fs k f Hk) as (l1 & l2 & Efs & Hl1 & Eins).
  assert (Hperm : <[k := f']> fs ≫= owned ≡ₚ new ++ (fs ≫= owned)).
  { rewrite Eins, Efs, !bind_app, !bind_cons, Hp. rewrite <- !app_assoc. by rewrite Permutation_app_swap_app. }
  assert (Hother : forall j g, fs !! j = Some g -> j <> k -> forall b, b ∈ owned g -> b ∉ owned f /\ nmeta <= b < freeblock st).
  { intros j g Hj Hjk b Hb. split.
    - intros Hbf. rewrite Efs in Hj, Hn. rewrite bind_app, bind_cons in Hn.
      apply lookup_app_Some in Hj as [Hj|[Hjl Hj] ].
      + apply NoDup_app in Hn as (_ & Hd & _). apply (Hd b); [|set_solver].
        apply list_elem_of_bind. exists g. split; [done|]. by apply list_elem_of_lookup_2 with j.
      + apply NoDup_app in Hn as (_ & _ & Hn). apply NoDup_app in Hn as (_ & Hd & _). apply (Hd b Hbf).
        apply list_elem_of_bind. exists g. split; [done|]. destruct (j - length l1)%nat eqn:E; [lia|]. by apply list_elem_of_lookup_2 with n.
    - rewrite Forall_forall in Hr. apply Hr. apply list_elem_of_bind. exists g. split; [done|]. by apply list_elem_of_lookup_2 with j. }
  split; [done| | |].
  - intros j g Hj. destruct (decide (j = k)) as [->|Hjk].
    + rewrite fn_lookup_insert. rewrite list_lookup_insert_eq in Hj by (by eapply lookup_lt_Some). by simplify_eq.
    + rewrite fn_lookup_insert_ne by done. rewrite list_lookup_insert_ne in Hj by done.
      apply irep_ext with (img st); [|by apply Hi]. intros b Hb. destruct (Hother j g Hj Hjk b Hb). by apply Hframe.
  - rewrite Hperm. apply NoDup_app. split_and!; [done| |done]. intros b Hb Hb'. rewrite Forall_forall in Hr, Hnr.
    specialize (Hr b Hb'). specialize (Hnr b Hb). lia.
  - rewrite Hperm. apply Forall_app. split; [|eapply Forall_impl; [exact Hr|simpl; lia] ].
    eapply Forall_impl; [exact Hnr|]. pose proof (sh_free st Hs). simpl. lia.
Qed.

(** Only the inodes of files matter. *)
Lemma good_ext st D D' fs : (forall k, is_Some (fs !! k) -> D k = D' k) -> good st D fs -> good st D' fs.
Proof. intros H []. split; try done. intros k f Hk. rewrite <- H by (by exists f). by apply go_irep0. Qed.

Lemma fn_same (D : nat -> list Z) k i : (<[k := D k]> D) i = D i.
Proof. destruct (decide (i = k)) as [->|]; [by rewrite fn_lookup_insert|by rewrite fn_lookup_insert_ne]. Qed.

(** * Blocks for a file *)

Definition bump (st : mst) : mst := mkMst (img st) (freeinode st) (freeblock st + 1).
Definition with_blocks (f : fnode) (bl : list Z) : fnode := mkFn (f_type f) (f_size f) (f_data f) bl (f_ind f).
Definition with_ind (f : fnode) (b : Z) : fnode := mkFn (f_type f) (f_size f) (f_data f) (f_blocks f) b.
Definition with_data (f : fnode) (d : list Z) : fnode := mkFn (f_type f) (f_size f) d (f_blocks f) (f_ind f).

Lemma nmeta_val : nmeta = 46.
Proof. reflexivity. Qed.

Lemma MAXFILE_val : MAXFILE = 268.
Proof. reflexivity. Qed.

Lemma take_block_ok st : shape st -> take_block st = MOk (freeblock st) (bump st).
Proof.
  intros Hs. unfold take_block, bump. pose proof (sh_free st Hs). rewrite nmeta_val in *. unfold FSSIZE in *. by rewrite u32_small by lia.
Qed.

Lemma shape_bump st : shape st -> freeblock st < FSSIZE -> shape (bump st).
Proof. intros [Hl Hb Hf Hz] H. split; cbn [bump img freeblock]; [done|done|lia|]. intros b Hb'. apply Hz. lia. Qed.

Lemma addr_set din i j v : len din = 64 -> (i < 13)%nat -> (j < 13)%nat -> 0 <= v < 2 ^ 32 ->
  addr (set_addr din i v) j = if decide (j = i) then v else addr din j.
Proof.
  unfold len. intros Hl Hi Hj Hv. unfold addr, set_addr. destruct (decide (j = i)) as [->|Hne].
  - rewrite get_put by lia. apply Z.mod_small. lia.
  - apply get_put_ne; lia.
Qed.

(** Setting an address changes nothing else in an inode. *)
Lemma set_addr_rest din i v : len din = 64 -> (i < 13)%nat ->
  len (set_addr din i v) = 64 /\ di_type 0 (set_addr din i v) = di_type 0 din /\
  di_nlink 0 (set_addr din i v) = di_nlink 0 din /\ di_size 0 (set_addr din i v) = di_size 0 din.
Proof.
  unfold len. intros Hl Hi. unfold set_addr, di_type, di_nlink, di_size. rewrite length_put by lia.
  rewrite !get_put_ne by lia. done.
Qed.

Lemma need_addr_old din i st : addr din i <> 0 -> 0 <= addr din i < 2 ^ 32 -> need_addr din i st = MOk din st.
Proof. intros Hne Hr. unfold need_addr. rewrite xint_id by done. by rewrite (proj2 (Z.eqb_neq _ 0)). Qed.

Lemma need_addr_new din i st : shape st -> addr din i = 0 -> need_addr din i st = MOk (set_addr din i (freeblock st)) (bump st).
Proof.
  intros Hs H. unfold need_addr. rewrite H. change (xint 0 =? 0) with true. cbn match. unfold mbind, M_bind.
  rewrite take_block_ok by done. pose proof (sh_free st Hs). rewrite nmeta_val in *. unfold FSSIZE in *.
  unfold mret, M_ret. by rewrite xint_id by lia.
Qed.

Lemma zeros_app a b : 0 <= a -> 0 <= b -> zeros a ++ zeros b = zeros (a + b).
Proof. intros. unfold zeros. by rewrite <- replicate_add, Z2Nat.inj_add. Qed.

(** A fresh block at the end of a file. *)
Lemma data_grow im f b : len (f_data f) <= BSIZE * len (f_blocks f) -> blk im b = zero_block ->
  mjoin (blk im <$> f_blocks f) = f_data f ++ zeros (BSIZE * len (f_blocks f) - len (f_data f)) ->
  mjoin (blk im <$> f_blocks f ++ [b]) = f_data f ++ zeros (BSIZE * len (f_blocks f ++ [b]) - len (f_data f)).
Proof.
  intros Hl Hb H. rewrite fmap_app, join_app, H, <- app_assoc. f_equal.
  change (mjoin (blk im <$> [b])) with (blk im b ++ []). rewrite app_nil_r, Hb.
  change zero_block with (zeros BSIZE). rewrite zeros_app by (unfold BSIZE in *; lia). f_equal.
  unfold len. rewrite length_app. simpl length. unfold BSIZE. lia.
Qed.

Lemma owned_range st D fs k f b : good st D fs -> fs !! k = Some f -> b ∈ owned f -> nmeta <= b < freeblock st.
Proof.
  intros H Hk Hb. pose proof (go_range _ _ _ H) as Hr. rewrite Forall_forall in Hr. apply Hr.
  apply list_elem_of_bind. exists f. split; [done|]. by apply list_elem_of_lookup_2 with k.
Qed.

Lemma lookup_snoc_default (l : list Z) b i :
  default 0 ((l ++ [b]) !! i) = if decide (i = length l) then b else default 0 (l !! i).
Proof.
  destruct (decide (i = length l)) as [->|Hne]; [by rewrite list_lookup_middle|].
  destruct (decide (i < length l)%nat); [by rewrite lookup_app_l|].
  rewrite !lookup_ge_None_2; [done|lia|rewrite length_app; simpl; lia].
Qed.

Lemma grow_direct st D fs k f :
  good st D fs -> fs !! k = Some f -> (length (f_blocks f) < 12)%nat -> freeblock st < FSSIZE ->
  good (bump st) (<[k := set_addr (D k) (length (f_blocks f)) (freeblock st)]> D)
    (<[k := with_blocks f (f_blocks f ++ [freeblock st])]> fs).
Proof.
  intros Hg Hk Hn Hfb. pose proof (go_irep _ _ _ Hg k f Hk) as Hi. pose proof (go_shape _ _ _ Hg) as Hs.
  pose proof (sh_free st Hs) as Hfree. rewrite nmeta_val in Hfree. unfold FSSIZE in *.
  destruct (set_addr_rest (D k) (length (f_blocks f)) (freeblock st) (ir_len _ _ _ Hi) ltac:(lia)) as (Hl & Ht & Hnl & Hsz).
  apply good_update with st f [freeblock st]; try done.
  - by apply shape_bump.
  - simpl. lia.
  - destruct Hi. split; cbn [with_blocks f_type f_size f_data f_blocks f_ind]; try congruence.
    + intros i Hlt. rewrite addr_set by (done || lia). rewrite lookup_snoc_default. destruct (decide _); [done|by apply ir_direct0].
    + rewrite addr_set by (done || lia). by rewrite decide_False by lia.
    + intros _. unfold len. rewrite length_app. simpl. lia.
    + rewrite MAXFILE_val. unfold len. rewrite length_app. simpl length. lia.
    + intros Hne j Hj. rewrite lookup_snoc_default, decide_False by lia. by apply ir_indirect0.
    + unfold len in *. rewrite length_app. unfold BSIZE in *. simpl. lia.
    + apply data_grow; [done| |done]. apply Hs. unfold FSSIZE. lia.
  - unfold owned, with_blocks. cbn [f_blocks f_ind]. rewrite app_assoc. by rewrite (Permutation_app_comm _ [freeblock st]).
  - apply NoDup_singleton.
  - repeat constructor; simpl; lia.
Qed.

Lemma get_zeros j n : get 4 (4 * j) (zeros n) = 0.
Proof.
  unfold get, zeros. rewrite drop_replicate, take_replicate.
  generalize (4 `min` (Z.to_nat n - 4 * j))%nat. intros m. induction m as [|m IH]; [done|]. cbn [replicate]. unfold dec in *. fold dec in *. rewrite IH. done.
Qed.

Lemma grow_ind st D fs k f :
  good st D fs -> fs !! k = Some f -> f_ind f = 0 -> freeblock st < FSSIZE ->
  good (bump st) (<[k := set_addr (D k) 12 (freeblock st)]> D) (<[k := with_ind f (freeblock st)]> fs).
Proof.
  intros Hg Hk Hind Hfb. pose proof (go_irep _ _ _ Hg k f Hk) as Hi. pose proof (go_shape _ _ _ Hg) as Hs.
  pose proof (sh_free st Hs) as Hfree. rewrite nmeta_val in Hfree. unfold FSSIZE in *.
  destruct (set_addr_rest (D k) 12 (freeblock st) (ir_len _ _ _ Hi) ltac:(lia)) as (Hl & Ht & Hnl & Hsz).
  apply good_update with st f [freeblock st]; try done.
  - by apply shape_bump.
  - simpl. lia.
  - destruct Hi. split; cbn [with_ind f_type f_size f_data f_blocks f_ind]; try congruence.
    + intros i Hlt. rewrite addr_set by (done || lia). rewrite decide_False by lia. by apply ir_direct0.
    + rewrite addr_set by (done || lia). by rewrite decide_True by done.
    + lia.
    + intros _ j Hj. cbn [bump img]. rewrite (sh_zero st Hs) by (unfold FSSIZE; lia). change zero_block with (zeros BSIZE).
      rewrite get_zeros. specialize (ir_ind0 Hind). unfold len in *. by rewrite lookup_ge_None_2 by lia.
    + exact ir_data0.
  - unfold owned, with_ind. cbn [f_blocks f_ind]. rewrite decide_False by lia. by rewrite decide_True by done.
  - apply NoDup_singleton.
  - repeat constructor; simpl; lia.
Qed.

Lemma get4_put4 j j' v bs : len bs = BSIZE -> (j < 256)%nat -> (j' < 256)%nat -> 0 <= v < 2 ^ 32 ->
  get 4 (4 * j') (put 4 (4 * j) v bs) = if decide (j' = j) then v else get 4 (4 * j') bs.
Proof.
  unfold len, BSIZE. intros Hl Hj Hj' Hv. destruct (decide (j' = j)) as [->|Hne].
  - rewrite get_put by lia. apply Z.mod_small. lia.
  - apply get_put_ne; lia.
Qed.

Lemma grow_indirect st D fs k f j :
  good st D fs -> fs !! k = Some f -> f_ind f <> 0 -> (length (f_blocks f) = 12 + j)%nat -> (j < 256)%nat -> freeblock st < FSSIZE ->
  good (with_img (bump st) (<[Z.to_nat (f_ind f) := put 4 (4 * j) (freeblock st) (blk (img st) (f_ind f))]> (img st))) D
    (<[k := with_blocks f (f_blocks f ++ [freeblock st])]> fs).
Proof.
  intros Hg Hk Hind Hn Hj Hfb. pose proof (go_irep _ _ _ Hg k f Hk) as Hi. pose proof (go_shape _ _ _ Hg) as Hs.
  pose proof (sh_free st Hs) as Hfree. pose proof (sh_len st Hs) as Hlen.
  assert (Hin : f_ind f ∈ owned f) by (unfold owned; rewrite decide_False by done; set_solver).
  pose proof (owned_range _ _ _ _ _ _ Hg Hk Hin) as Hir. rewrite nmeta_val in *. unfold FSSIZE in *.
  pose proof (sh_blk st Hs (f_ind f) ltac:(unfold FSSIZE; lia)) as Hbl.
  assert (Hnotin : f_ind f ∉ f_blocks f).
  { pose proof (go_nodup _ _ _ Hg) as Hnd. destruct (owned_split fs k f Hk) as (l1 & l2 & E & _). rewrite E, bind_app, bind_cons in Hnd.
    apply NoDup_app in Hnd as (_ & _ & Hnd). apply NoDup_app in Hnd as (Hnd & _). unfold owned in Hnd.
    rewrite decide_False in Hnd by done. cbn [app] in Hnd. by apply NoDup_cons in Hnd as [? _]. }
  assert (Hother : forall b, b <> f_ind f -> 0 <= b -> blk (<[Z.to_nat (f_ind f) := put 4 (4 * j) (freeblock st) (blk (img st) (f_ind f))]> (img st)) b = blk (img st) b).
  { intros b Hb H0. rewrite blk_insert by lia. by rewrite decide_False. }
  apply good_ext with (<[k := D k]> D); [intros i _; apply fn_same|].
  apply good_update with st f [freeblock st]; try done.
  - apply (shape_write (bump st)); [by apply shape_bump|simpl; lia|]. unfold len, BSIZE in *. by rewrite length_put by lia.
  - simpl. lia.
  - intros b Hb Hr. rewrite nmeta_val in Hr. apply Hother; [|lia]. by intros ->.
  - assert (Hmj : forall bl : list Z, (forall b, b ∈ bl -> b <> f_ind f /\ 0 <= b) -> blk (<[Z.to_nat (f_ind f) := put 4 (4 * j) (freeblock st) (blk (img st) (f_ind f))]> (img st)) <$> bl = blk (img st) <$> bl).
    { intros bl H. apply list_fmap_ext. intros i b Hb. apply list_elem_of_lookup_2 in Hb. by apply Hother; apply H. }
    destruct Hi. split; cbn [with_blocks with_img img f_type f_size f_data f_blocks f_ind]; try done.
    + intros i Hlt. rewrite lookup_snoc_default, decide_False by lia. by apply ir_direct0.
    + rewrite MAXFILE_val. unfold len. rewrite length_app. simpl length. lia.
    + intros _ j' Hj'. rewrite blk_insert, decide_True by (done || lia). rewrite get4_put4 by (done || lia).
      rewrite lookup_snoc_default, ir_indirect0 by done. destruct (decide (j' = j)), (decide (12 + j' = length (f_blocks f))%nat); (done || lia).
    + unfold len in *. rewrite length_app. unfold BSIZE in *. simpl. lia.
    + rewrite Hmj; [apply data_grow; [done| |done]; apply Hs; unfold FSSIZE; lia|].
      intros b Hb. apply elem_of_app in Hb as [Hb|Hb]; [|apply list_elem_of_singleton in Hb; lia].
      assert (Hbo : b ∈ owned f) by (unfold owned; set_solver). pose proof (owned_range _ _ _ _ _ _ Hg Hk Hbo). rewrite nmeta_val in *.
      split; [by intros ->|lia].
  - unfold owned, with_blocks. cbn [f_blocks f_ind]. rewrite app_assoc. by rewrite (Permutation_app_comm _ [freeblock st]).
  - apply NoDup_singleton.
  - repeat constructor; simpl; lia.
Qed.

(** * The block at an offset *)

Lemma mbind_ok {A B} (m : M A) (g : A -> M B) st a st' : m st = MOk a st' -> (m ≫= g) st = g a st'.
Proof. intros E. unfold mbind, M_bind. by rewrite E. Qed.

Lemma owned_bound st D fs k f b : good st D fs -> fs !! k = Some f -> b ∈ owned f -> 46 <= b < FSSIZE.
Proof.
  intros Hg Hk Hb. pose proof (owned_range _ _ _ _ _ _ Hg Hk Hb). pose proof (sh_free _ (go_shape _ _ _ Hg)).
  rewrite nmeta_val in *. lia.
Qed.

Lemma block_owned f n x : f_blocks f !! n = Some x -> x ∈ owned f.
Proof. intros H. apply list_elem_of_lookup_2 in H. unfold owned. set_solver. Qed.
Lemma ind_owned f : f_ind f <> 0 -> f_ind f ∈ owned f.
Proof. intros H. unfold owned. rewrite decide_False by done. set_solver. Qed.

Lemma file_block_old st D fs k f n x :
  good st D fs -> fs !! k = Some f -> f_blocks f !! n = Some x -> file_block (D k) (Z.of_nat n) st = MOk (x, D k) st.
Proof.
  intros Hg Hk Hx. pose proof (go_irep _ _ _ Hg k f Hk) as Hi. pose proof (go_shape _ _ _ Hg) as Hs.
  pose proof (owned_bound _ _ _ _ _ _ Hg Hk (block_owned _ _ _ Hx)) as Hxr. unfold FSSIZE in Hxr.
  pose proof (lookup_lt_Some _ _ _ Hx) as Hlt. pose proof (ir_max _ _ _ Hi) as Hmax. rewrite MAXFILE_val in Hmax. unfold len in Hmax.
  unfold file_block, NDIRECT. destruct (Z.ltb_spec (Z.of_nat n) 12) as [Hn|Hn]; rewrite ?Nat2Z.id.
  - assert (Ha : addr (D k) n = x) by (rewrite (ir_direct _ _ _ Hi) by lia; by rewrite Hx).
    rewrite (mbind_ok _ _ st (D k) st) by (apply need_addr_old; lia). unfold mret, M_ret. rewrite Ha. by rewrite xint_id by lia.
  - change (Z.to_nat 12) with 12%nat.
    assert (Hind : f_ind f <> 0) by (intros H0; pose proof (ir_ind _ _ _ Hi H0); unfold len in *; lia).
    pose proof (owned_bound _ _ _ _ _ _ Hg Hk (ind_owned f Hind)) as Hir. unfold FSSIZE in Hir.
    pose proof (ir_addr12 _ _ _ Hi) as Ha.
    rewrite (mbind_ok _ _ st (D k) st) by (apply need_addr_old; lia). rewrite Ha, xint_id by lia.
    assert (Hg4 : get 4 (4 * Z.to_nat (Z.of_nat n - 12)) (blk (img st) (f_ind f)) = x).
    { rewrite (ir_indirect _ _ _ Hi Hind) by lia. replace (12 + Z.to_nat (Z.of_nat n - 12))%nat with n by lia. by rewrite Hx. }
    rewrite (mbind_ok _ _ st x st); [done|]. unfold indirect_entry. rewrite (mbind_ok _ _ _ _ _ (rsect_ok st (f_ind f) Hs ltac:(unfold FSSIZE; lia))).
    rewrite (proj2 (Z.eqb_neq _ 0)) by lia. rewrite (mbind_ok _ _ st (blk (img st) (f_ind f)) st) by done.
    unfold mret, M_ret. rewrite Hg4. by rewrite xint_id by lia.
Qed.

(** The blocks that [n] data blocks need. *)
Definition ocount (n : Z) : Z := n + (if 12 <? n then 1 else 0).
Definition tight (f : fnode) : Prop := len (f_blocks f) <= 12 -> f_ind f = 0.

(** What [st'] shares with [st]: the blocks of the file-system layout. *)
Definition same_meta (st st' : mst) : Prop :=
  freeinode st' = freeinode st /\ forall b, 0 <= b < nmeta -> blk (img st') b = blk (img st) b.

Lemma indirect_entry_new st D fs k f j :
  good st D fs -> fs !! k = Some f -> f_ind f <> 0 -> (length (f_blocks f) = 12 + j)%nat -> (j < 256)%nat -> freeblock st < FSSIZE ->
  let st' := with_img (bump st) (<[Z.to_nat (f_ind f) := put 4 (4 * j) (freeblock st) (blk (img st) (f_ind f))]> (img st)) in
  indirect_entry (f_ind f) j st = MOk (freeblock st) st' /\ same_meta st st'.
Proof.
  intros Hg Hk Hind Hn Hj Hfb st'. pose proof (go_irep _ _ _ Hg k f Hk) as Hi. pose proof (go_shape _ _ _ Hg) as Hs.
  pose proof (owned_bound _ _ _ _ _ _ Hg Hk (ind_owned f Hind)) as Hir. pose proof (sh_free st Hs) as Hfree.
  pose proof (sh_len st Hs) as Hlen. pose proof (sh_blk st Hs (f_ind f) ltac:(lia)) as Hbl. rewrite nmeta_val in Hfree. split.
  - unfold indirect_entry. rewrite (mbind_ok _ _ _ _ _ (rsect_ok st (f_ind f) Hs ltac:(lia))).
    rewrite (ir_indirect _ _ _ Hi Hind) by lia. rewrite lookup_ge_None_2 by lia. cbn [default Z.eqb from_option id].
    rewrite (mbind_ok _ _ st (put 4 (4 * j) (freeblock st) (blk (img st) (f_ind f))) st').
    + unfold mret, M_ret. rewrite get4_put4, decide_True by (done || (unfold FSSIZE in *; lia)). by rewrite xint_id by (unfold FSSIZE in *; lia).
    + rewrite (mbind_ok _ _ _ _ _ (take_block_ok st Hs)). rewrite xint_id by (unfold FSSIZE in *; lia).
      rewrite (mbind_ok _ _ _ _ _ (wsect_ok (bump st) (f_ind f) _ (shape_bump st Hs Hfb) ltac:(lia))). done.
  - split; [done|]. intros b Hb. rewrite nmeta_val in Hb. cbn [st' with_img bump img]. rewrite blk_insert by (unfold FSSIZE in *; lia).
    by rewrite decide_False by lia.
Qed.

Lemma same_meta_refl st : same_meta st st.
Proof. by split. Qed.
Lemma same_meta_trans st1 st2 st3 : same_meta st1 st2 -> same_meta st2 st3 -> same_meta st1 st3.
Proof. intros [H1 H2] [H3 H4]. split; [congruence|]. intros b Hb. by rewrite H4, H2. Qed.

(** [f'] is [f] with the block [x] after its last one. *)
Definition extends (f f' : fnode) (x : Z) : Prop :=
  f_type f' = f_type f /\ f_size f' = f_size f /\ f_data f' = f_data f /\ f_blocks f' = f_blocks f ++ [x].

Lemma file_block_new st D fs k f :
  good st D fs -> fs !! k = Some f -> tight f -> len (f_blocks f) < MAXFILE ->
  freeblock st - ocount (len (f_blocks f)) + ocount (len (f_blocks f) + 1) <= FSSIZE ->
  exists x din st' f', file_block (D k) (len (f_blocks f)) st = MOk (x, din) st' /\
    good st' (<[k := din]> D) (<[k := f']> fs) /\ same_meta st st' /\ extends f f' x /\ tight f' /\
    freeblock st' = freeblock st - ocount (len (f_blocks f)) + ocount (len (f_blocks f) + 1).
Proof.
  intros Hg Hk Ht Hmax Hfb. pose proof (go_irep _ _ _ Hg k f Hk) as Hi. pose proof (go_shape _ _ _ Hg) as Hs.
  pose proof (sh_free st Hs) as Hfree. pose proof (lookup_lt_Some _ _ _ Hk) as Hlk. rewrite nmeta_val in Hfree. rewrite MAXFILE_val in Hmax.
  unfold ocount, tight, len in *. unfold file_block, NDIRECT. set (n := length (f_blocks f)) in *.
  destruct (Z.ltb_spec (Z.of_nat n) 12) as [Hn|Hn].
  - destruct (Z.ltb_spec 12 (Z.of_nat n)) as [|_]; [lia|]. destruct (Z.ltb_spec 12 (Z.of_nat n + 1)) as [|_]; [lia|].
    rewrite Nat2Z.id. exists (freeblock st), (set_addr (D k) n (freeblock st)), (bump st), (with_blocks f (f_blocks f ++ [freeblock st])).
    assert (Ha : addr (D k) n = 0) by (rewrite (ir_direct _ _ _ Hi) by lia; by rewrite lookup_ge_None_2 by lia).
    rewrite (mbind_ok _ _ _ _ _ (need_addr_new _ _ st Hs Ha)). unfold mret, M_ret.
    rewrite addr_set, decide_True by (try done; try apply Hi; unfold FSSIZE in *; lia). rewrite xint_id by (unfold FSSIZE in *; lia).
    split_and!; [done|apply grow_direct; [done|done|lia|lia]|by split|by repeat split|cbn [with_blocks f_ind]; auto with lia|cbn [bump freeblock]; lia].
  - change (Z.to_nat 12) with 12%nat. destruct (decide (f_ind f = 0)) as [H0|H0].
    + pose proof (ir_ind _ _ _ Hi H0) as Hle. unfold len in Hle. assert (n = 12%nat) as En by (unfold n in *; lia).
      rewrite En in *. change (12 <? Z.of_nat 12) with false in *. change (12 <? Z.of_nat 12 + 1) with true in *. cbn match in *.
      assert (Ha : addr (D k) 12 = 0) by (by rewrite (ir_addr12 _ _ _ Hi)).
      rewrite (mbind_ok _ _ _ _ _ (need_addr_new _ _ st Hs Ha)).
      rewrite addr_set, decide_True by (try done; try apply Hi; unfold FSSIZE in *; lia). rewrite xint_id by (unfold FSSIZE in *; lia).
      pose proof (grow_ind st D fs k f Hg Hk H0 ltac:(lia)) as Hg1. set (D1 := <[k := _]> D) in *. set (f1 := with_ind f _) in *.
      assert (Hk1 : <[k := f1]> fs !! k = Some f1) by (by apply list_lookup_insert_eq).
      destruct (indirect_entry_new (bump st) D1 _ k f1 0 Hg1 Hk1) as [E Hsm]; [cbn; lia|done|lia|cbn; lia|].
      pose proof (grow_indirect (bump st) D1 _ k f1 0 Hg1 Hk1 ltac:(cbn; lia) ltac:(done) ltac:(lia) ltac:(cbn; lia)) as Hg2.
      rewrite list_insert_insert_eq in Hg2. eexists _, _, _, _. rewrite (mbind_ok _ _ _ _ _ E).
      split_and!; [reflexivity|exact Hg2|eapply same_meta_trans; [|exact Hsm]; by split|by repeat split| |cbn; lia].
      cbn. rewrite length_app. unfold n in En. rewrite En. simpl. lia.
    + assert (Hn13 : (12 < n)%nat) by (destruct (decide (n = 12)%nat); [specialize (Ht ltac:(unfold n in *; lia)); lia|lia]).
      rewrite (proj2 (Z.ltb_lt 12 (Z.of_nat n))), (proj2 (Z.ltb_lt 12 (Z.of_nat n + 1))) in * by lia.
      pose proof (owned_bound _ _ _ _ _ _ Hg Hk (ind_owned f H0)) as Hir. pose proof (ir_addr12 _ _ _ Hi) as Ha.
      rewrite (mbind_ok _ _ st (D k) st) by (apply need_addr_old; unfold FSSIZE in *; lia). rewrite Ha, xint_id by (unfold FSSIZE in *; lia).
      replace (Z.to_nat (Z.of_nat n - 12)) with (n - 12)%nat by lia.
      destruct (indirect_entry_new st D fs k f (n - 12) Hg Hk H0) as [E Hsm]; [unfold n in *; lia|lia|lia|].
      pose proof (grow_indirect st D fs k f (n - 12) Hg Hk H0 ltac:(unfold n in *; lia) ltac:(lia) ltac:(lia)) as Hg2.
      eexists _, (D k), _, (with_blocks f (f_blocks f ++ [freeblock st])). rewrite (mbind_ok _ _ _ _ _ E). split_and!; [reflexivity| |exact Hsm|by repeat split| |cbn; lia].
      * eapply good_ext; [|exact Hg2]. intros i _. by rewrite fn_same.
      * cbn. rewrite length_app. unfold n in Hn13. simpl. lia.
Qed.

(** * Writing at the end of a file *)

Lemma splice_mid {Y} (A B C q : list Y) o : (o + length q <= length B)%nat ->
  A ++ splice o q B ++ C = splice (length A + o) q (A ++ B ++ C).
Proof.
  intros H. unfold splice. rewrite take_app_add, drop_app_ge by lia.
  replace (length A + o + length q - length A)%nat with (o + length q)%nat by lia.
  rewrite (take_app_le B C), (drop_app_le B C) by lia. by rewrite <- !app_assoc.
Qed.

Lemma splice_zeros d q m : len q <= m -> splice (length d) q (d ++ zeros m) = d ++ q ++ zeros (m - len q).
Proof.
  unfold len. intros H. unfold splice. rewrite take_app_length, drop_app_ge by lia. do 2 f_equal.
  unfold zeros. rewrite drop_replicate. f_equal. lia.
Qed.

Lemma join_length im bl : (forall b, b ∈ bl -> len (blk im b) = BSIZE) -> length (mjoin (blk im <$> bl)) = (Z.to_nat BSIZE * length bl)%nat.
Proof.
  unfold len. induction bl as [|b bl IH]; intros H; [simpl; lia|].
  change (mjoin (blk im <$> b :: bl)) with (blk im b ++ mjoin (blk im <$> bl)). rewrite length_app, IH by set_solver.
  specialize (H b ltac:(set_solver)). cbn [length]. unfold BSIZE in *. lia.
Qed.

Lemma block_nodup st D fs k f : good st D fs -> fs !! k = Some f -> NoDup (owned f).
Proof.
  intros Hg Hk. pose proof (go_nodup _ _ _ Hg) as Hnd. destruct (owned_split fs k f Hk) as (l1 & l2 & E & _).
  rewrite E, bind_app, bind_cons in Hnd. apply NoDup_app in Hnd as (_ & _ & Hnd). by apply NoDup_app in Hnd as (Hnd & _).
Qed.

Lemma lookup_split {A} (l : list A) n x : l !! n = Some x -> exists l1 l2, l = l1 ++ x :: l2 /\ length l1 = n.
Proof.
  intros H. exists (take n l), (drop (S n) l). pose proof (lookup_lt_Some _ _ _ H).
  split; [by rewrite take_drop_middle|rewrite length_take; lia].
Qed.

(** The contents after a write of [q] at the end, within the block [x]. *)
Lemma join_write im im' bl x l1 l2 d q :
  bl = l1 ++ x :: l2 -> (forall b, b ∈ bl -> len (blk im b) = BSIZE) -> (forall b, b ∈ l1 \/ b ∈ l2 -> blk im' b = blk im b) ->
  blk im' x = splice (Z.to_nat (len d - BSIZE * len l1)) q (blk im x) ->
  BSIZE * len l1 <= len d -> len d + len q <= BSIZE * (len l1 + 1) ->
  mjoin (blk im <$> bl) = d ++ zeros (BSIZE * len bl - len d) ->
  mjoin (blk im' <$> bl) = (d ++ q) ++ zeros (BSIZE * len bl - len (d ++ q)).
Proof.
  intros -> Hbl Hsame Hx Hlo Hhi H. unfold len in *.
  assert (Hj : forall im0, mjoin (blk im0 <$> l1 ++ x :: l2) = mjoin (blk im0 <$> l1) ++ blk im0 x ++ mjoin (blk im0 <$> l2)).
  { intros im0. by rewrite fmap_app, fmap_cons, join_app. }
  rewrite Hj in *. assert (Hl1 : blk im' <$> l1 = blk im <$> l1) by (apply list_fmap_ext; intros i b Hb; apply Hsame; left; by apply list_elem_of_lookup_2 with i).
  assert (Hl2 : blk im' <$> l2 = blk im <$> l2) by (apply list_fmap_ext; intros i b Hb; apply Hsame; right; by apply list_elem_of_lookup_2 with i).
  pose proof (Hbl x ltac:(set_solver)) as Hbx. rewrite Hl1, Hl2, Hx, splice_mid by lia. rewrite H, join_length by set_solver.
  replace (Z.to_nat BSIZE * length l1 + _)%nat with (length d) by (unfold BSIZE in *; lia).
  rewrite length_app in *. cbn [length] in *. rewrite splice_zeros by (unfold len, BSIZE in *; lia).
  rewrite <- app_assoc. do 3 f_equal. unfold len. rewrite length_app. lia.
Qed.

Lemma write_block st D fs k f n x q :
  good st D fs -> fs !! k = Some f -> f_blocks f !! n = Some x ->
  BSIZE * Z.of_nat n <= len (f_data f) -> len (f_data f) + len q <= BSIZE * (Z.of_nat n + 1) ->
  let st' := with_img st (<[Z.to_nat x := splice (Z.to_nat (len (f_data f) - BSIZE * Z.of_nat n)) q (blk (img st) x)]> (img st)) in
  good st' D (<[k := with_data f (f_data f ++ q)]> fs) /\ same_meta st st'.
Proof.
  intros Hg Hk Hx Hlo Hhi st'. pose proof (go_irep _ _ _ Hg k f Hk) as Hi. pose proof (go_shape _ _ _ Hg) as Hs.
  pose proof (sh_len st Hs) as Hlen. pose proof (owned_range _ _ _ _ _ _ Hg Hk (block_owned _ _ _ Hx)) as Hxr. rewrite nmeta_val in Hxr.
  pose proof (owned_bound _ _ _ _ _ _ Hg Hk (block_owned _ _ _ Hx)) as Hxb. pose proof (sh_blk st Hs x ltac:(lia)) as Hbl.
  assert (Hother : forall b, b <> x -> 0 <= b -> blk (img st') b = blk (img st) b).
  { intros b Hb H0. cbn [st' with_img img]. rewrite blk_insert by lia. by rewrite decide_False. }
  assert (Hsp : len (splice (Z.to_nat (len (f_data f) - BSIZE * Z.of_nat n)) q (blk (img st) x)) = BSIZE).
  { unfold len in *. rewrite length_splice by lia. done. }
  split; [|split; [done|intros b Hb; rewrite nmeta_val in Hb; apply Hother; lia] ].
  apply good_ext with (<[k := D k]> D); [intros i _; apply fn_same|].
  apply good_update with st f []; try done.
  - apply shape_write; [done|lia|done].
  - intros b Hb Hr. rewrite nmeta_val in Hr. apply Hother; [|lia]. intros ->. by apply Hb, block_owned with n.
  - pose proof (block_nodup _ _ _ _ _ Hg Hk) as Hnd. pose proof (fun b => owned_bound st D fs k f b Hg Hk) as Hob.
    pose proof (lookup_lt_Some _ _ _ Hx) as Hnlt. destruct Hi. split; cbn [with_data f_type f_size f_data f_blocks f_ind]; try done.
    + intros Hind j Hj. rewrite Hother; [by apply ir_indirect0| |].
      * intros E. unfold owned in Hnd. rewrite decide_False in Hnd by done. apply NoDup_cons in Hnd as [Hnd _]. apply Hnd.
        rewrite E. by apply list_elem_of_lookup_2 with n.
      * specialize (Hob _ (ind_owned f Hind)). lia.
    + unfold len, BSIZE in *. rewrite length_app. lia.
    + destruct (lookup_split (f_blocks f) n x Hx) as (l1 & l2 & E & Hl1). subst n.
      assert (Hin : forall b, b ∈ l1 \/ b ∈ l2 -> b <> x /\ 0 <= b).
      { unfold owned in Hnd, Hob. rewrite E in Hnd, Hob. apply NoDup_app in Hnd as (_ & _ & Hnd). apply NoDup_app in Hnd as (_ & Hd & Hnd).
        apply NoDup_cons in Hnd as [Hnd _]. intros b Hb. split; [|specialize (Hob b ltac:(set_solver)); lia].
        intros ->. destruct Hb as [Hb|Hb]; [|done]. apply (Hd x Hb). set_solver. }
      apply (join_write (img st) (img st') _ x l1 l2); try done.
      * intros b Hb. apply (sh_blk st Hs). specialize (Hob b ltac:(unfold owned; set_solver)). lia.
      * intros b Hb. by apply Hother; apply Hin.
      * cbn [st' with_img img]. rewrite blk_insert by lia. by rewrite decide_True.
  - constructor.
Qed.

(** * iappend *)

(** The data blocks that [n] bytes take, and all the blocks they need. *)
Definition nblk (n : Z) : Z := (n + BSIZE - 1) / BSIZE.
Definition cost (n : Z) : Z := ocount (nblk n).

(** A file that has no more blocks than its contents need. *)
Definition snug (f : fnode) : Prop := len (f_blocks f) = nblk (len (f_data f)) /\ tight f.

Definition appended (f f' : fnode) (q : list Z) : Prop :=
  f_type f' = f_type f /\ f_size f' = f_size f /\ f_data f' = f_data f ++ q.

Lemma len_app {A} (l l' : list A) : len (l ++ l') = len l + len l'.
Proof. unfold len. rewrite length_app. lia. Qed.

Lemma cost_mono a b : a <= b -> cost a <= cost b.
Proof.
  intros H. assert (nblk a <= nblk b) by (unfold nblk, BSIZE; apply Z.div_le_mono; lia).
  unfold cost, ocount. destruct (Z.ltb_spec 12 (nblk a)), (Z.ltb_spec 12 (nblk b)); lia.
Qed.

(** The file block of an offset, and the blocks in use there. *)
Lemma nblk_cases off n : 0 <= off -> 0 < n -> off + n <= BSIZE * (off / BSIZE + 1) ->
  nblk (off + n) = off / BSIZE + 1 /\ (nblk off = off / BSIZE /\ BSIZE * (off / BSIZE) = off \/ nblk off = off / BSIZE + 1).
Proof.
  intros Ho Hn Hle. unfold nblk, BSIZE in *. pose proof (Z.div_mod off 1024 ltac:(lia)). pose proof (Z.mod_pos_bound off 1024 ltac:(lia)).
  split; [symmetry; apply (Z.div_unique _ _ _ (off + n + 1023 - 1024 * (off / 1024 + 1))); lia|].
  destruct (Z.eq_dec (off mod 1024) 0) as [E|E]; [left|right].
  - split; [symmetry; apply (Z.div_unique _ _ _ 1023); lia|lia].
  - symmetry. apply (Z.div_unique _ _ _ (off mod 1024 - 1)); lia.
Qed.

(** The block of the file at its end, allocated if it is a new one. *)
Lemma file_block_end st D fs k f n : let fbn := len (f_data f) / BSIZE in
  good st D fs -> fs !! k = Some f -> snug f -> 0 < n -> len (f_data f) + n <= BSIZE * (fbn + 1) -> fbn < MAXFILE ->
  freeblock st - cost (len (f_data f)) + cost (len (f_data f) + n) <= FSSIZE ->
  exists x din st0 f0, file_block (D k) fbn st = MOk (x, din) st0 /\ good st0 (<[k := din]> D) (<[k := f0]> fs) /\ same_meta st st0 /\
    f_blocks f0 !! Z.to_nat fbn = Some x /\ appended f f0 [] /\ len (f_blocks f0) = fbn + 1 /\ tight f0 /\
    freeblock st0 = freeblock st - cost (len (f_data f)) + cost (len (f_data f) + n).
Proof.
  intros fbn Hg Hk [Hsn Ht] Hq Hle Hmax Hfb.
  destruct (nblk_cases (len (f_data f)) n ltac:(unfold len; lia) Hq Hle) as (Hn1 & Hcases). fold fbn in Hn1, Hcases.
  assert (H0 : 0 <= fbn) by (unfold fbn, len, BSIZE; apply Z.div_pos; lia).
  unfold cost in *. rewrite Hn1 in *. destruct Hcases as [[Hc Hc'] |Hc]; rewrite Hc in *.
  - destruct (file_block_new st D fs k f Hg Hk Ht) as (x & din & st0 & f0 & E & Hg0 & Hsm & (Hx1 & Hx2 & Hx3 & Hx4) & Ht0 & Hfb0); [by rewrite Hsn|by rewrite Hsn|].
    rewrite Hsn in E, Hfb0. exists x, din, st0, f0. split_and!; try done.
    + rewrite Hx4. apply list_lookup_middle. unfold len in Hsn. lia.
    + by repeat split; rewrite ?app_nil_r.
    + by rewrite Hx4, len_app, Hsn.
  - destruct (lookup_lt_is_Some_2 (f_blocks f) (Z.to_nat fbn)) as [x Hx]; [unfold len in Hsn; lia|].
    pose proof (file_block_old st D fs k f _ x Hg Hk Hx) as E. rewrite Z2Nat.id in E by done.
    exists x, (D k), st, f. split_and!; try done; [|by repeat split; rewrite ?app_nil_r|lia].
    rewrite list_insert_id by done. eapply good_ext; [|exact Hg]. intros i _. by rewrite fn_same.
Qed.

Lemma append_step st D fs k f q : let fbn := len (f_data f) / BSIZE in
  good st D fs -> fs !! k = Some f -> snug f -> 0 < len q -> len (f_data f) + len q <= BSIZE * (fbn + 1) -> fbn < MAXFILE ->
  freeblock st - cost (len (f_data f)) + cost (len (f_data f) + len q) <= FSSIZE ->
  exists x din st0 st1 f1, file_block (D k) fbn st = MOk (x, din) st0 /\ rsect x st0 = MOk (blk (img st0) x) st0 /\
    wsect x (splice (Z.to_nat (len (f_data f) - BSIZE * fbn)) q (blk (img st0) x)) st0 = MOk tt st1 /\
    good st1 (<[k := din]> D) (<[k := f1]> fs) /\ same_meta st st1 /\ appended f f1 q /\ snug f1 /\
    freeblock st1 = freeblock st - cost (len (f_data f)) + cost (len (f_data f) + len q).
Proof.
  intros fbn Hg Hk [Hsn Ht] Hq Hle Hmax Hfb. pose proof (lookup_lt_Some _ _ _ Hk) as Hlk.
  destruct (nblk_cases (len (f_data f)) (len q) ltac:(unfold len; lia) Hq Hle) as (Hn1 & _). fold fbn in Hn1.
  assert (H0 : 0 <= fbn) by (unfold fbn, len, BSIZE; apply Z.div_pos; lia).
  assert (Hlo : BSIZE * fbn <= len (f_data f)) by (unfold fbn, BSIZE; apply Z.mul_div_le; lia).
  destruct (file_block_end st D fs k f (len q) Hg Hk (conj Hsn Ht) Hq Hle Hmax Hfb)
    as (x & din & st0 & f0 & Efb & Hg0 & Hsm & Hx & Ha & Hlb & Ht0 & Hfb0). fold fbn in Efb, Hx, Hlb.
  destruct Ha as (Ha1 & Ha2 & Ha3). rewrite app_nil_r in Ha3.
  assert (Hk0 : <[k := f0]> fs !! k = Some f0) by (by apply list_lookup_insert_eq).
  pose proof (owned_bound _ _ _ _ _ _ Hg0 Hk0 (block_owned _ _ _ Hx)) as Hxb. pose proof (go_shape _ _ _ Hg0) as Hs0.
  destruct (write_block st0 _ _ k f0 (Z.to_nat fbn) x q Hg0 Hk0 Hx) as [Hg1 Hsm1]; [by rewrite Ha3, Z2Nat.id|by rewrite Ha3, Z2Nat.id|].
  rewrite Ha3, Z2Nat.id, list_insert_insert_eq in Hg1 by done. rewrite Ha3, Z2Nat.id in Hsm1 by done.
  eexists x, din, st0, _, (with_data f0 (f_data f ++ q)). split_and!; [done|apply rsect_ok; [done|lia]|apply wsect_ok; [done|lia]|exact Hg1|by eapply same_meta_trans|..].
  - by repeat split.
  - split; [|done]. cbn [with_data f_blocks f_data]. by rewrite len_app, Hn1.
  - done.
Qed.
