(* ===== verification/MkfsMain.v ===== *)
(** mkfs from an empty file to the finished image: the files that iappend builds, the
    bitmap, and the whole run. *)

From stdpp Require Import functions.
From S2P Require Import Prelude Riscv Bytes CString State Fs Mkfs MkfsSpec.
Import Mkfs.

(** * iappend *)

Lemma fn_twice (D : nat -> list Z) k x y i : (<[k := y]> (<[k := x]> D)) i = (<[k := y]> D) i.
Proof. destruct (decide (i = k)) as [->|]; [by rewrite !fn_lookup_insert|by rewrite !fn_lookup_insert_ne]. Qed.

Lemma iappend_loop_ok k : forall fuel p st D fs f,
  good st D fs -> fs !! k = Some f -> snug f -> (length p <= fuel)%nat -> len (f_data f) + len p <= MAXFILE * BSIZE ->
  freeblock st - cost (len (f_data f)) + cost (len (f_data f) + len p) <= FSSIZE ->
  exists din st' f', iappend_loop fuel (D k) (len (f_data f)) p st = MOk (din, len (f_data f) + len p) st' /\
    good st' (<[k := din]> D) (<[k := f']> fs) /\ same_meta st st' /\ appended f f' p /\ snug f' /\
    freeblock st' = freeblock st - cost (len (f_data f)) + cost (len (f_data f) + len p).
Proof.
  induction fuel as [|fuel IH]; intros [|c p] st D fs f Hg Hk Hsn Hf Hmax Hfb; try (simpl in Hf; lia).
  1, 2: exists (D k), st, f; change (len []) with 0; rewrite Z.add_0_r, list_insert_id by done;
    split_and!; [done|eapply good_ext; [|exact Hg]; intros i _; by rewrite fn_same|done|by repeat split; rewrite ?app_nil_r|done|lia].
  cbn [iappend_loop]. set (P := c :: p) in *. assert (HP : 0 < len P) by (unfold len; simpl; lia).
  set (off := len (f_data f)) in *. set (fbn := off / BSIZE) in *. set (n1 := Z.min _ _).
  assert (Hoff : 0 <= off) by (unfold off, len; lia).
  assert (Hdiv : BSIZE * fbn <= off < BSIZE * (fbn + 1)).
  { unfold fbn, BSIZE. pose proof (Z.div_mod off 1024 ltac:(lia)). pose proof (Z.mod_pos_bound off 1024 ltac:(lia)). lia. }
  assert (Hn1 : 0 < n1 <= len P /\ off + n1 <= BSIZE * (fbn + 1)) by (unfold n1, len in *; lia).
  assert (Hfm : fbn < MAXFILE) by (rewrite MAXFILE_val in *; unfold BSIZE in *; lia).
  set (q := take (Z.to_nat n1) P). assert (Hq : len q = n1) by (unfold q, len in *; rewrite length_take; lia).
  assert (HPq : P = q ++ drop (Z.to_nat n1) P) by (unfold q; by rewrite take_drop).
  assert (Hrest : len (drop (Z.to_nat n1) P) = len P - n1) by (unfold len in *; rewrite length_drop; lia).
  assert (Hf' : (length (drop (Z.to_nat n1) P) <= fuel)%nat) by (rewrite length_drop; lia).
  destruct (append_step st D fs k f q Hg Hk Hsn) as (x & din & st0 & st1 & f1 & E1 & E2 & E3 & Hg1 & Hsm & Ha & Hsn1 & Hfb1);
    [lia|fold off fbn; lia|done| |].
  { fold off. rewrite Hq. pose proof (cost_mono (off + n1) (off + len P) ltac:(lia)). lia. }
  fold off fbn in E1, E3, Hfb1. destruct Ha as (Ha1 & Ha2 & Ha3). rewrite Hq in *.
  assert (Hd1 : len (f_data f1) = off + n1) by (rewrite Ha3, len_app; fold off; lia).
  destruct (IH (drop (Z.to_nat n1) P) st1 _ _ f1 Hg1) as (din' & st' & f' & E & Hg' & Hsm' & (Ha4 & Ha5 & Ha6) & Hsn' & Hfb');
    [by apply list_lookup_insert_eq, lookup_lt_is_Some; eexists|done|lia|lia|rewrite Hd1, Hrest; replace (off + n1 + (len P - n1)) with (off + len P) by lia; lia|].
  rewrite Hd1, Hrest in *. replace (off + n1 + (len P - n1)) with (off + len P) in * by lia.
  rewrite list_insert_insert_eq in Hg'. exists din', st', f'. split_and!; [|eapply good_ext; [|exact Hg']; intros i _; apply fn_twice|by eapply same_meta_trans| |done|lia].
  - unfold massert. rewrite (mbind_ok _ _ st tt st) by (by rewrite (proj2 (Z.ltb_lt fbn MAXFILE))).
    rewrite (mbind_ok _ _ _ _ _ E1), (mbind_ok _ _ _ _ _ E2). rewrite (Z.mul_comm fbn), (mbind_ok _ _ _ _ _ E3).
    rewrite fn_lookup_insert in E. rewrite u32_small; [exact E|]. rewrite MAXFILE_val in Hmax. unfold BSIZE in *. lia.
  - split_and!; [congruence|congruence|]. rewrite Ha6, Ha3, <- app_assoc. by rewrite <- HPq.
Qed.

(** * Inodes *)

Definition is_inum (inum : Z) : Prop := 0 <= inum < NINODES.

Lemma iblock_ok inum : is_inum inum -> IBLOCK inum sb = inum / 16 + 32 /\ 32 <= inum / 16 + 32 < 45.
Proof.
  intros H. unfold is_inum, NINODES in H. change (IBLOCK inum sb) with (u32 (inum / 16 + 32)).
  pose proof (Z.div_le_mono 0 inum 16 ltac:(lia) ltac:(lia)). pose proof (Z.div_le_mono inum 199 16 ltac:(lia) ltac:(lia)).
  change (0 / 16) with 0 in *. change (199 / 16) with 12 in *. rewrite u32_small by lia. lia.
Qed.

Lemma dip_ok inum : Z.of_nat (dip inum) = 64 * (inum mod 16) /\ (dip inum + 64 <= 1024)%nat.
Proof.
  unfold dip. change IPB with 16. pose proof (Z.mod_pos_bound inum 16 ltac:(lia)). lia.
Qed.

Lemma rinode_ok st inum : shape st -> is_inum inum -> rinode inum st = MOk (dino (img st) inum) st.
Proof.
  intros Hs Hi. unfold rinode. destruct (iblock_ok inum Hi) as [E Hr].
  rewrite (mbind_ok _ _ _ _ _ (rsect_ok st (IBLOCK inum sb) Hs ltac:(rewrite E; unfold FSSIZE; lia))). done.
Qed.

(** A write of an inode changes that inode. *)
Lemma winode_ok st inum din : shape st -> is_inum inum -> len din = 64 ->
  exists st', winode inum din st = MOk tt st' /\ shape st' /\ dino (img st') inum = din /\
    (forall j, is_inum j -> j <> inum -> dino (img st') j = dino (img st) j) /\
    (forall b, 0 <= b < 32 \/ 45 <= b -> blk (img st') b = blk (img st) b) /\
    freeblock st' = freeblock st /\ freeinode st' = freeinode st.
Proof.
  intros Hs Hi Hl. destruct (iblock_ok inum Hi) as [E Hr]. destruct (dip_ok inum) as [Ed Hd].
  pose proof (sh_free st Hs) as Hfree. rewrite nmeta_val in Hfree. pose proof (sh_len st Hs) as Hlen. unfold FSSIZE in *.
  set (bn := inum / 16 + 32) in *. pose proof (sh_blk st Hs bn ltac:(unfold FSSIZE; lia)) as Hbl. unfold len, BSIZE in Hbl, Hl.
  unfold winode. rewrite E. rewrite (mbind_ok _ _ _ _ _ (rsect_ok st bn Hs ltac:(unfold FSSIZE; lia))).
  rewrite (wsect_ok st bn _ Hs) by (unfold FSSIZE; lia). eexists. split; [done|]. cbn [with_img img freeblock freeinode].
  assert (Hblk : forall b, 0 <= b -> blk (<[Z.to_nat bn := splice (dip inum) din (blk (img st) bn)]> (img st)) b =
    if decide (b = bn) then splice (dip inum) din (blk (img st) bn) else blk (img st) b) by (intros b Hb; apply blk_insert; lia).
  assert (Hsl : length (splice (dip inum) din (blk (img st) bn)) = length (blk (img st) bn)) by (apply length_splice; lia).
  split_and!; [|unfold dino; rewrite E, Hblk, decide_True by (done || lia)|..|done|done].
  - apply shape_write; [done|lia|]. unfold len, BSIZE. lia.
  - unfold splice. rewrite drop_app_ge by (rewrite length_take; lia). rewrite length_take.
    replace (dip inum - dip inum `min` length (blk (img st) bn))%nat with 0%nat by lia. rewrite drop_0.
    rewrite take_app_le by lia. apply take_ge. lia.
  - intros j Hj Hne. unfold dino. destruct (iblock_ok j Hj) as [Ej Hrj]. destruct (dip_ok j) as [Edj Hdj]. rewrite Ej, Hblk by lia.
    destruct (decide (j / 16 + 32 = bn)) as [Ebn|]; [|done]. rewrite Ebn. apply list_eq. intros i.
    destruct (decide (i < 64)%nat) as [Hi64|]; [|by rewrite !lookup_take_ge by lia]. rewrite !lookup_take_lt, !lookup_drop by lia.
    apply lookup_splice_out; [lia|]. unfold bn in Ebn.
    pose proof (Z.div_mod j 16 ltac:(lia)). pose proof (Z.div_mod inum 16 ltac:(lia)). lia.
  - intros b Hb. rewrite Hblk by lia. by rewrite decide_False by lia.
Qed.

Lemma inum_ok (fs : list fnode) k : (k < length fs)%nat -> len fs < NINODES -> is_inum (Z.of_nat k + 1).
Proof. unfold is_inum, len. lia. Qed.

(** The inode of one file is written back. *)
Lemma commit_inode st D fs k :
  good st D fs -> (forall j, (j < length fs)%nat -> j <> k -> D j = dino (img st) (Z.of_nat j + 1)) -> (k < length fs)%nat ->
  len fs < NINODES -> freeinode st = len fs + 1 ->
  exists st', winode (Z.of_nat k + 1) (D k) st = MOk tt st' /\ inv st' fs /\ freeblock st' = freeblock st /\
    forall b, 0 <= b < 32 -> blk (img st') b = blk (img st) b.
Proof.
  intros Hg HD Hk Hfs Hfi. destruct (lookup_lt_is_Some_2 fs k Hk) as [f Hf]. pose proof (go_irep _ _ _ Hg k f Hf) as Hi.
  destruct (winode_ok st (Z.of_nat k + 1) (D k) (go_shape _ _ _ Hg) (inum_ok fs k Hk Hfs) (ir_len _ _ _ Hi))
    as (st' & E & Hs' & Hdk & Hdj & Hb & Hfb & Hfi').
  exists st'. split_and!; [done| |done|intros b Hb'; apply Hb; by left]. split_and!; [|lia|done].
  destruct Hg as [Hs Hir Hnd Hra]. split; [done| |done|by rewrite Hfb].
  intros j g Hj. pose proof (lookup_lt_Some _ _ _ Hj) as Hjl. apply irep_ext with (img st).
  - intros b Hbo. apply Hb. right. rewrite Forall_forall in Hra. specialize (Hra b). rewrite nmeta_val in Hra.
    assert (b ∈ fs ≫= owned); [|specialize (Hra H); lia]. apply list_elem_of_bind. exists g. split; [done|]. by apply list_elem_of_lookup_2 with j.
  - destruct (decide (j = k)) as [->|Hne]; [rewrite Hdk; by apply Hir|]. rewrite Hdj by (try lia; by apply inum_ok with fs).
    rewrite <- HD by done. by apply Hir.
Qed.

Definition with_size (f : fnode) (n : Z) : fnode := mkFn (f_type f) n (f_data f) (f_blocks f) (f_ind f).

Lemma irep_size im din f n : irep im din f -> 0 <= n < 2 ^ 32 -> irep im (put 4 8 n din) (with_size f n).
Proof.
  intros [] Hn. unfold len in *. unfold di_type, di_nlink, di_size, addr in *. split; cbn [with_size f_type f_size f_data f_blocks f_ind]; try done;
    unfold len, di_type, di_nlink, di_size, addr.
  - by rewrite length_put by lia.
  - by rewrite get_put_ne by lia.
  - by rewrite get_put_ne by lia.
  - rewrite get_put by lia. apply Z.mod_small. lia.
  - intros i Hi. rewrite get_put_ne by lia. by apply ir_direct.
  - by rewrite get_put_ne by lia.
Qed.

(** A file whose inode says how long it is. *)
Definition full (f : fnode) : Prop := snug f /\ f_size f = len (f_data f).

Lemma good_size st D fs k f n : good st D fs -> fs !! k = Some f -> 0 <= n < 2 ^ 32 ->
  good st (<[k := put 4 8 n (D k)]> D) (<[k := with_size f n]> fs).
Proof.
  intros Hg Hk Hn. apply good_update with st f []; try done; [apply Hg|apply irep_size; [by apply Hg|done]|constructor].
Qed.

Lemma dino_same st st' j : same_meta st st' -> is_inum j -> dino (img st') j = dino (img st) j.
Proof.
  intros [_ H] Hj. unfold dino. destruct (iblock_ok j Hj) as [E Hr]. rewrite E, H; [done|]. rewrite nmeta_val. lia.
Qed.

(** iappend makes a file longer and leaves the others alone. *)
Lemma iappend_ok st fs k f p :
  inv st fs -> fs !! k = Some f -> full f -> len (f_data f) + len p <= MAXFILE * BSIZE ->
  freeblock st - cost (len (f_data f)) + cost (len (f_data f) + len p) <= FSSIZE ->
  exists st' f', iappend (Z.of_nat k + 1) p st = MOk tt st' /\ inv st' (<[k := f']> fs) /\ full f' /\
    f_type f' = f_type f /\ f_data f' = f_data f ++ p /\
    freeblock st' = freeblock st - cost (len (f_data f)) + cost (len (f_data f) + len p) /\
    forall b, 0 <= b < 32 -> blk (img st') b = blk (img st) b.
Proof.
  intros (Hg & Hfi & Hfs) Hk [Hsn Hsz] Hmax Hfb. pose proof (lookup_lt_Some _ _ _ Hk) as Hkl. set (D := fun k => dino (img st) (Z.of_nat k + 1)) in *.
  pose proof (go_irep _ _ _ Hg k f Hk) as Hi. pose proof Hmax as Hmax'. rewrite MAXFILE_val in Hmax'. unfold BSIZE in Hmax'.
  assert (H0 : 0 <= len (f_data f) /\ 0 <= len p) by (unfold len; lia).
  destruct (iappend_loop_ok k (length p) p st D fs f Hg Hk Hsn ltac:(lia) Hmax Hfb) as (din & st1 & f1 & E1 & Hg1 & Hsm & (Ha1 & Ha2 & Ha3) & Hsn1 & Hfb1).
  set (n := len (f_data f) + len p) in *.
  assert (Hk1 : <[k := f1]> fs !! k = Some f1) by (by apply list_lookup_insert_eq).
  pose proof (good_size st1 _ _ k f1 n Hg1 Hk1 ltac:(lia)) as Hg2. rewrite fn_lookup_insert, list_insert_insert_eq in Hg2.
  destruct (commit_inode st1 _ _ k Hg2) as (st' & E2 & Hinv & Hfb2 & Hlow).
  - intros j Hj Hne. rewrite length_insert in Hj. rewrite !fn_lookup_insert_ne by done. symmetry. apply dino_same; [done|by apply inum_ok with fs].
  - by rewrite length_insert.
  - unfold len. by rewrite length_insert.
  - unfold len. rewrite length_insert. destruct Hsm as [-> _]. done.
  - rewrite fn_lookup_insert in E2. exists st', (with_size f1 n). split_and!; try done.
    + unfold iappend. rewrite (mbind_ok _ _ _ _ _ (rinode_ok st _ (go_shape _ _ _ Hg) (inum_ok fs k Hkl Hfs))). change (dino _ _) with (D k).
      pose proof (ir_size _ _ _ Hi) as Hs. unfold di_size in Hs. change (get 4 (0 + 8) (D k)) with (get 4 8 (D k)) in Hs. rewrite Hs, Hsz, xint_id by lia.
      rewrite (mbind_ok _ _ _ _ _ E1). by rewrite xint_id by lia.
    + split; [done|]. cbn [with_size f_size f_data]. by rewrite Ha3, len_app.
    + lia.
    + intros b Hb. rewrite Hlow by done. apply Hsm. rewrite nmeta_val. lia.
Qed.

(** A new inode. *)
Definition new_file (ty : Z) : fnode := mkFn ty 0 [] [] 0.
Lemma new_inode im ty : ty = T_DIR \/ ty = T_FILE ->
  irep im (put 4 8 (xint 0) (put 2 6 (xshort 1) (put 2 0 (xshort ty) (replicate 64 0)))) (new_file ty).
Proof.
  intros Hty. split; cbn [new_file f_type f_size f_data f_blocks f_ind]; try (destruct Hty as [-> | ->]; reflexivity); try done.
  intros i Hi. destruct Hty as [-> | ->]; do 12 (destruct i as [|i]; [reflexivity|]); lia.
Qed.

Lemma ialloc_ok st fs ty : inv st fs -> len fs + 1 < NINODES -> ty = T_DIR \/ ty = T_FILE ->
  exists st', ialloc ty st = MOk (len fs + 1) st' /\ inv st' (fs ++ [new_file ty]) /\ freeblock st' = freeblock st /\
    forall b, 0 <= b < 32 -> blk (img st') b = blk (img st) b.
Proof.
  intros (Hg & Hfi & Hfs) Hn Hty. set (st1 := mkMst (img st) (freeinode st + 1) (freeblock st)).
  set (din := put 4 8 (xint 0) (put 2 6 (xshort 1) (put 2 0 (xshort ty) (replicate 64 0)))).
  set (D := <[length fs := din]> (fun k => dino (img st) (Z.of_nat k + 1))).
  assert (Hg1 : good st1 D (fs ++ [new_file ty])).
  { destruct Hg as [Hs Hi Hnd Hr]. assert (Eb : (fs ++ [new_file ty]) ≫= owned = fs ≫= owned) by (rewrite bind_app; apply app_nil_r).
    split; [by destruct Hs; split| |by rewrite Eb|by rewrite Eb].
    intros k f Hk. apply lookup_app_Some in Hk as [Hk|[Hl Hk] ].
    - unfold D. rewrite fn_lookup_insert_ne by (apply lookup_lt_Some in Hk; lia). by apply Hi.
    - apply list_lookup_singleton_Some in Hk as [Hk <-]. replace k with (length fs) by lia. unfold D. rewrite fn_lookup_insert. by apply new_inode. }
  destruct (commit_inode st1 D _ (length fs) Hg1) as (st' & E & Hinv & Hfb & Hlow).
  - intros j Hj Hne. unfold D. by rewrite fn_lookup_insert_ne.
  - rewrite length_app. simpl. lia.
  - rewrite len_app. change (len [new_file ty]) with 1. lia.
  - cbn [st1 freeinode]. rewrite Hfi, len_app. change (len [new_file ty]) with 1. lia.
  - exists st'. split_and!; [|done|done|done]. unfold ialloc, take_inode. rewrite (mbind_ok _ _ st (freeinode st) st1).
    + rewrite Hfi. unfold D in E. rewrite fn_lookup_insert in E. change (Z.of_nat (length fs)) with (len fs) in E. by rewrite (mbind_ok _ _ _ _ _ E).
    + unfold st1. rewrite u32_small; [done|]. unfold NINODES, len in *. lia.
Qed.

(** * The bitmap *)

Lemma bit_test_testbit bi bs : 0 <= bi -> bit_test bi bs = Z.testbit (byte_at (bi / 8) bs) (bi mod 8).
Proof.
  intros H. unfold bit_test. generalize (byte_at (bi / 8) bs). intros x. pose proof (Z.mod_pos_bound bi 8 ltac:(lia)) as Hm.
  set (k := bi mod 8) in *. assert (E : Z.land x (Z.shiftl 1 k) = if Z.testbit x k then Z.shiftl 1 k else 0).
  { apply Z.bits_inj'. intros n Hn. rewrite Z.land_spec, Z.shiftl_1_l. destruct (Z.eq_dec n k) as [->|Hne].
    - rewrite Z.pow2_bits_true by lia. rewrite andb_true_r. destruct (Z.testbit x k); [by rewrite Z.pow2_bits_true by lia|by rewrite Z.bits_0].
    - rewrite Z.pow2_bits_false by lia. rewrite andb_false_r. destruct (Z.testbit x k); [by rewrite Z.pow2_bits_false by lia|by rewrite Z.bits_0]. }
  rewrite E. destruct (Z.testbit x k); [|done]. rewrite Z.shiftl_1_l. pose proof (Z.pow_pos_nonneg 2 k ltac:(lia) ltac:(lia)).
  by rewrite (proj2 (Z.eqb_neq _ 0)) by lia.
Qed.

(** Setting a bit of the bitmap sets that bit. *)
Lemma bit_set_test bi bj bs : len bs = BSIZE -> 0 <= bi < BPB -> 0 <= bj < BPB ->
  bit_test bj (bit_set bi bs) = (bj =? bi) || bit_test bj bs.
Proof.
  unfold len, BSIZE. change BPB with 8192. intros Hl Hi Hj. rewrite !bit_test_testbit by lia. unfold bit_set, byte_at at 1.
  pose proof (Z.mod_pos_bound bi 8 ltac:(lia)) as Hmi. pose proof (Z.mod_pos_bound bj 8 ltac:(lia)) as Hmj.
  pose proof (Z.div_mod bi 8 ltac:(lia)) as Edi. pose proof (Z.div_mod bj 8 ltac:(lia)) as Edj.
  destruct (Z.eq_dec (bj / 8) (bi / 8)) as [E|E].
  - rewrite E, list_lookup_insert_eq by lia. cbn [default from_option id]. unfold u8. rewrite Z.mod_pow2_bits_low by lia.
    rewrite Z.lor_spec, Z.shiftl_1_l. rewrite orb_comm. f_equal. destruct (Z.eqb_spec bj bi) as [->|Hne].
    + by rewrite Z.pow2_bits_true by lia.
    + rewrite Z.pow2_bits_false by lia. done.
  - rewrite list_lookup_insert_ne by (pose proof (Z.div_pos bi 8 ltac:(lia) ltac:(lia)); pose proof (Z.div_pos bj 8 ltac:(lia) ltac:(lia)); lia).
    destruct (Z.eqb_spec bj bi) as [->|Hne]; [done|]. done.
Qed.

Lemma balloc_bits_ok used : (Z.of_nat used <= BPB) ->
  len (balloc_bits used) = BSIZE /\ forall b, 0 <= b < BPB -> bit_test b (balloc_bits used) = (b <? Z.of_nat used).
Proof.
  induction used as [|used IH]; intros Hu.
  { split; [reflexivity|]. intros b Hb. change (Z.of_nat 0) with 0. rewrite (proj2 (Z.ltb_ge b 0)) by lia.
    change (balloc_bits 0) with zero_block. rewrite bit_test_testbit by lia.
    assert (E : byte_at (b / 8) zero_block = 0); [|by rewrite E, Z.bits_0].
    unfold byte_at, zero_block. destruct (_ !! _) eqn:E; [|done]. by apply lookup_replicate in E as [-> _]. }
  destruct (IH ltac:(lia)) as [Hl Hb]. unfold balloc_bits in *. rewrite seq_S, foldl_app. cbn [foldl Nat.add].
  clear IH; revert Hl Hb; generalize (foldl (fun buf i => bit_set (Z.of_nat i) buf) zero_block (seq 0 used)). intros bs Hl Hb. split.
  - unfold bit_set, len in *. by rewrite length_insert.
  - intros b Hr. rewrite bit_set_test by (done || lia). rewrite Hb by done.
    destruct (Z.eqb_spec b (Z.of_nat used)), (Z.ltb_spec b (Z.of_nat used)), (Z.ltb_spec b (Z.of_nat (S used))); (done || lia).
Qed.

(** * Files *)

(** [st'] is [st] after [p] was appended to file number [k]. *)
Definition appends (st : mst) (fs : list fnode) (k : nat) (f : fnode) (p : list Z) (st' : mst) (f' : fnode) : Prop :=
  inv st' (<[k := f']> fs) /\ full f' /\ f_type f' = f_type f /\ f_data f' = f_data f ++ p /\
  freeblock st' = freeblock st - cost (len (f_data f)) + cost (len (f_data f) + len p) /\
  forall b, 0 <= b < 32 -> blk (img st') b = blk (img st) b.

Lemma append_all k pieces : forall st fs f,
  inv st fs -> fs !! k = Some f -> full f -> len (f_data f) + len (mjoin pieces) <= MAXFILE * BSIZE ->
  freeblock st - cost (len (f_data f)) + cost (len (f_data f) + len (mjoin pieces)) <= FSSIZE ->
  exists st' f', forM pieces (iappend (Z.of_nat k + 1)) st = MOk tt st' /\ appends st fs k f (mjoin pieces) st' f'.
Proof.
  induction pieces as [|p pieces IH]; intros st fs f Hinv Hk Hf Hmax Hfb.
  { exists st, f. split; [done|]. change (mjoin []) with (@nil Z). change (len []) with 0. unfold appends. rewrite list_insert_id, app_nil_r by done.
    split_and!; try done. rewrite Z.add_0_r. lia. }
  change (mjoin (p :: pieces)) with (p ++ mjoin pieces) in *. rewrite len_app in *.
  assert (Hl : 0 <= len (mjoin pieces)) by (unfold len; lia).
  assert (Hc : cost (len (f_data f) + len p) <= cost (len (f_data f) + (len p + len (mjoin pieces)))) by (apply cost_mono; lia).
  destruct (iappend_ok st fs k f p Hinv Hk Hf ltac:(lia) ltac:(lia)) as (st1 & f1 & E1 & Hinv1 & Hf1 & Ht1 & Hd1 & Hfb1 & Hlow1).
  assert (Hk1 : <[k := f1]> fs !! k = Some f1) by (apply list_lookup_insert_eq; by eapply lookup_lt_Some).
  assert (Hd : len (f_data f1) = len (f_data f) + len p) by (by rewrite Hd1, len_app).
  destruct (IH st1 _ f1 Hinv1 Hk1 Hf1) as (st' & f' & E' & Hinv' & Hf' & Ht' & Hd' & Hfb' & Hlow'); [rewrite Hd; lia|rewrite Hd, <- Z.add_assoc; lia|].
  exists st', f'. cbn [forM]. rewrite (mbind_ok _ _ _ _ _ E1). split; [done|]. rewrite list_insert_insert_eq in Hinv'.
  unfold appends. rewrite len_app. split_and!; try done; [congruence|rewrite Hd', Hd1; by rewrite <- app_assoc| |intros b Hb; rewrite Hlow' by done; by apply Hlow1].
  rewrite Hfb', Hfb1, Hd, <- Z.add_assoc. lia.
Qed.

(** The name of a file in the image, and the entry of the root directory for it. *)
Definition image_name (arg : list Z) : list Z := strip_ (strip_user arg).
Definition name_ok (arg : list Z) : Prop :=
  existsb (Z.eqb 47) (take (strlen_nat (strip_user arg)) (strip_user arg)) = false /\ Z.of_nat (strlen_nat (image_name arg)) <= DIRSIZ.
Definition entry (inum : Z) (arg : list Z) : list Z := dirent inum (strncpy_bytes (image_name arg) (Z.to_nat DIRSIZ)).

Lemma entry_len inum arg : len (entry inum arg) = 16.
Proof.
  unfold entry, dirent, len. rewrite length_splice; [by rewrite length_put by (rewrite length_replicate; lia)|].
  rewrite length_strncpy_bytes, length_put by (rewrite length_replicate; lia). unfold DIRSIZ. rewrite length_replicate. lia.
Qed.

Lemma cost_0 : cost 0 = 0.
Proof. reflexivity. Qed.

Lemma add_file_ok st root rest arg pieces :
  inv st (root :: rest) -> full root -> len rest + 2 < NINODES -> name_ok arg ->
  len (f_data root) + 16 <= MAXFILE * BSIZE -> len (mjoin pieces) <= MAXFILE * BSIZE ->
  freeblock st - cost (len (f_data root)) + cost (len (f_data root) + 16) + cost (len (mjoin pieces)) <= FSSIZE ->
  exists st' root' f, add_file 1 (arg, Some pieces) st = MOk tt st' /\ inv st' (root' :: rest ++ [f]) /\ full root' /\ full f /\
    f_type root' = f_type root /\ f_data root' = f_data root ++ entry (len rest + 2) arg /\
    f_type f = T_FILE /\ f_data f = mjoin pieces /\
    freeblock st' = freeblock st - cost (len (f_data root)) + cost (len (f_data root) + 16) + cost (len (mjoin pieces)) /\
    forall b, 0 <= b < 32 -> blk (img st') b = blk (img st) b.
Proof.
  intros Hinv Hroot Hn [Hslash Hlen] Hmr Hmf Hfb.
  assert (Hl0 : len (root :: rest) = len rest + 1) by (unfold len; simpl length; lia).
  assert (Hc0 : cost 0 <= cost (len (mjoin pieces))) by (apply cost_mono; unfold len; lia). rewrite cost_0 in Hc0.
  destruct (ialloc_ok st (root :: rest) T_FILE Hinv ltac:(lia) ltac:(by right)) as (st1 & E1 & Hinv1 & Hfb1 & Hlow1). rewrite Hl0 in E1.
  replace (len rest + 1 + 1) with (len rest + 2) in E1 by lia.
  destruct (iappend_ok st1 _ 0 root (entry (len rest + 2) arg) Hinv1 eq_refl Hroot) as (st2 & root' & E2 & Hinv2 & Hr2 & Ht2 & Hd2 & Hfb2 & Hlow2);
    [by rewrite entry_len|rewrite entry_len; lia|]. rewrite entry_len in Hfb2. cbn [app] in Hinv2.
  change (<[0%nat := root']> (root :: rest ++ [new_file T_FILE])) with (root' :: rest ++ [new_file T_FILE]) in Hinv2.
  assert (Hk : (root' :: rest ++ [new_file T_FILE]) !! S (length rest) = Some (new_file T_FILE)) by (by apply list_lookup_middle).
  destruct (append_all (S (length rest)) pieces st2 _ (new_file T_FILE) Hinv2 Hk) as (st3 & f & E3 & Hinv3 & Hf3 & Ht3 & Hd3 & Hfb3 & Hlow3).
  { by repeat split. }
  { done. }
  { cbn [new_file f_data]. change (len []) with 0. rewrite cost_0, Z.add_0_l. lia. }
  cbn [new_file f_data f_type app] in Hd3, Ht3, Hfb3. change (len []) with 0 in Hfb3. rewrite cost_0, Z.add_0_l in Hfb3.
  exists st3, root', f. split_and!; try done.
  - unfold add_file. rewrite Hslash. cbn [negb]. unfold massert. rewrite (mbind_ok _ _ st tt st) by done. fold (image_name arg).
    rewrite (mbind_ok _ _ st tt st) by (by rewrite (proj2 (Z.leb_le _ DIRSIZ))). rewrite (mbind_ok _ _ _ _ _ E1).
    fold (entry (len rest + 2) arg). change 1 with (Z.of_nat 0 + 1) at 1. rewrite (mbind_ok _ _ _ _ _ E2).
    replace (len rest + 2) with (Z.of_nat (S (length rest)) + 1) by (unfold len; lia). done.
  - assert (E : <[S (length rest) := f]> (root' :: rest ++ [new_file T_FILE]) = root' :: rest ++ [f]); [|by rewrite E in Hinv3].
    change (root' :: <[length rest := f]> (rest ++ [new_file T_FILE]) = root' :: rest ++ [f]). f_equal.
    by rewrite insert_app_r_alt, Nat.sub_diag by lia.
  - lia.
  - intros b Hb. by rewrite Hlow3, Hlow2, Hlow1.
Qed.

(** * main *)

(** A file to put in: the argument that names it, the pieces its reads return. *)
Abbreviation input := (list Z * list (list Z))%type.
Definition file_data (f : input) : list Z := mjoin f.2.
Definition input_ok (f : input) : Prop := name_ok f.1 /\ len (file_data f) <= MAXFILE * BSIZE.
Definition opened (f : input) : list Z * option (list (list Z)) := (f.1, Some f.2).

(** The entries of the root directory for the files, from an inode number on. *)
Fixpoint entries (inum : Z) (files : list input) : list Z :=
  match files with [] => [] | f :: files' => entry inum f.1 ++ entries (inum + 1) files' end.
Definition total (files : list input) : Z := foldr (fun f n => cost (len (file_data f)) + n) 0 files.

Definition holds (f : input) (x : fnode) : Prop := f_type x = T_FILE /\ f_data x = file_data f /\ full x.

Lemma total_pos files : 0 <= total files.
Proof.
  induction files as [|f files IH]; [done|]. change (total (f :: files)) with (cost (len (file_data f)) + total files).
  assert (cost 0 <= cost (len (file_data f))) by (apply cost_mono; unfold len; lia). rewrite cost_0 in *. lia.
Qed.

Lemma add_files_ok files : forall st root rest,
  inv st (root :: rest) -> full root -> len rest + 1 + len files < NINODES -> Forall input_ok files ->
  len (f_data root) + 16 * len files <= MAXFILE * BSIZE ->
  freeblock st - cost (len (f_data root)) + cost (len (f_data root) + 16 * len files) + total files <= FSSIZE ->
  exists st' root' new, forM (opened <$> files) (add_file 1) st = MOk tt st' /\ inv st' (root' :: rest ++ new) /\ full root' /\
    f_type root' = f_type root /\ f_data root' = f_data root ++ entries (len rest + 2) files /\ Forall2 holds files new /\
    forall b, 0 <= b < 32 -> blk (img st') b = blk (img st) b.
Proof.
  induction files as [|fl files IH]; intros st root rest Hinv Hr Hn Hok Hmr Hfb.
  { exists st, root, []. cbn [entries]. rewrite !app_nil_r. by split_and!. }
  apply Forall_cons in Hok as [[Hname Hmf] Hok]. pose proof (total_pos files) as Ht0.
  change (total (fl :: files)) with (cost (len (file_data fl)) + total files) in Hfb.
  assert (Hl : len (fl :: files) = 1 + len files) by (unfold len; simpl length; lia). rewrite Hl in *.
  assert (Hlf : 0 <= len files) by (unfold len; lia).
  assert (Hc : cost (len (f_data root) + 16) <= cost (len (f_data root) + 16 * (1 + len files))) by (apply cost_mono; lia).
  destruct fl as [arg pieces]. destruct (add_file_ok st root rest arg pieces Hinv Hr ltac:(lia) Hname) as
    (st1 & root1 & f & E1 & Hinv1 & Hr1 & Hf & Ht1 & Hd1 & Htf & Hdf & Hfb1 & Hlow1); [lia|done|unfold file_data in *; cbn [snd] in *; lia|].
  assert (Hd1' : len (f_data root1) = len (f_data root) + 16) by (by rewrite Hd1, len_app, entry_len).
  destruct (IH st1 root1 (rest ++ [f]) Hinv1 Hr1) as (st' & root' & new & E & Hinv' & Hr' & Ht' & Hd' & Hnew & Hlow').
  - rewrite len_app. change (len [f]) with 1. lia.
  - done.
  - lia.
  - rewrite Hd1'. replace (len (f_data root) + 16 + 16 * len files) with (len (f_data root) + 16 * (1 + len files)) by lia.
    unfold file_data in Hfb. cbn [snd] in Hfb. lia.
  - exists st', root', (f :: new). split_and!.
    + rewrite fmap_cons. cbn [forM]. unfold opened at 1. cbn [fst snd]. by rewrite (mbind_ok _ _ _ _ _ E1).
    + rewrite <- app_assoc in Hinv'. done.
    + done.
    + congruence.
    + rewrite Hd', Hd1, <- app_assoc. cbn [entries fst]. rewrite len_app. change (len [f]) with 1. do 3 f_equal. lia.
    + by constructor.
    + intros b Hb. by rewrite Hlow', Hlow1.
Qed.

Lemma zero_image m : forall im fi fb, (length im + m <= 2000)%nat ->
  forM (seq (length im) m) (fun i => wsect (Z.of_nat i) zero_block) (mkMst im fi fb) = MOk tt (mkMst (im ++ replicate m zero_block) fi fb).
Proof.
  induction m as [|m IH]; intros im fi fb H; [by rewrite app_nil_r|]. cbn [seq forM].
  rewrite (mbind_ok _ _ _ tt (mkMst (im ++ [zero_block]) fi fb)).
  - replace (S (length im)) with (length (im ++ [zero_block])) by (rewrite length_app; simpl; lia).
    rewrite IH by (rewrite length_app; simpl; lia). by rewrite <- app_assoc.
  - unfold wsect. cbn [img freeinode freeblock]. rewrite sector_small by (unfold FSSIZE; lia). rewrite Nat2Z.id.
    by rewrite (proj2 (Nat.ltb_ge _ _)), Nat.sub_diag by lia.
Qed.

(** The image with its super block and no file. *)
Definition formatted : mst := mkMst (<[1%nat := splice 0 sb_bytes zero_block]> (replicate (Z.to_nat FSSIZE) zero_block)) 1 nmeta.

Lemma formatted_inv : inv formatted [].
Proof.
  assert (Hb : forall b, 0 <= b < FSSIZE -> blk (img formatted) b = if decide (b = 1) then splice 0 sb_bytes zero_block else zero_block).
  { intros b Hb. cbn [formatted img]. change 1%nat with (Z.to_nat 1). rewrite blk_insert; [|unfold len; rewrite length_replicate; unfold FSSIZE in *; lia|lia].
    destruct (decide (b = 1)); [done|]. unfold blk. rewrite lookup_replicate_2 by lia. done. }
  split_and!; [|done|done]. split; [|done|constructor|constructor]. split.
  - unfold len. cbn [formatted img]. rewrite length_insert, length_replicate. done.
  - intros b Hr. rewrite Hb by done. destruct (decide _); reflexivity.
  - cbn [formatted freeblock]. rewrite nmeta_val. unfold FSSIZE. lia.
  - cbn [formatted freeblock]. rewrite nmeta_val. intros b Hr. rewrite Hb by lia. by rewrite decide_False by lia.
Qed.

Definition dots : list Z := dirent ROOTINO (chars "." ++ [0]) ++ dirent ROOTINO (chars ".." ++ [0]).
Definition root_data (files : list input) : list Z := dots ++ entries 2 files.
Definition root_size (n : Z) : Z := (n / BSIZE + 1) * BSIZE.

(** The beginning of main. *)
Lemma main_root : exists st root, inv st [root] /\ full root /\ f_type root = T_DIR /\ f_data root = dots /\
  freeblock st = nmeta + cost 32 /\ (forall b, 0 <= b < 32 -> blk (img st) b = blk (img formatted) b) /\
  forall files, main files start = (forM files (add_file ROOTINO);; fix_root ROOTINO;; used ← get_freeblock; balloc used) st.
Proof.
  destruct (ialloc_ok formatted [] T_DIR formatted_inv ltac:(done) ltac:(by left)) as (st1 & E1 & Hinv1 & Hfb1 & Hlow1).
  cbn [app] in Hinv1. change (len (@nil fnode) + 1) with ROOTINO in E1.
  assert (Hf1 : full (new_file T_DIR)) by (by repeat split).
  destruct (iappend_ok st1 _ 0 (new_file T_DIR) (dirent ROOTINO (chars "." ++ [0])) Hinv1 eq_refl Hf1)
    as (st2 & f2 & E2 & Hinv2 & Hf2 & Ht2 & Hd2 & Hfb2 & Hlow2); [done|by rewrite Hfb1|]. rewrite Hfb1 in Hfb2.
  change (<[0%nat := f2]> [new_file T_DIR]) with [f2] in Hinv2. change (f_data (new_file T_DIR)) with (@nil Z) in *. cbn [app] in Hd2.
  destruct (iappend_ok st2 _ 0 f2 (dirent ROOTINO (chars ".." ++ [0])) Hinv2 eq_refl Hf2)
    as (st3 & f3 & E3 & Hinv3 & Hf3 & Ht3 & Hd3 & Hfb3 & Hlow3); [by rewrite Hd2|by rewrite Hfb2, Hd2|].
  exists st3, f3. rewrite Hd2 in Hd3, Hfb3. rewrite Hfb2 in Hfb3.
  split_and!; [done|done|by rewrite Ht3, Ht2|done|by rewrite Hfb3|intros b Hb; by rewrite Hlow3, Hlow2, Hlow1|].
  intros files. unfold main, set_freeblock. rewrite (mbind_ok _ _ _ tt (mkMst [] 1 nmeta)) by done.
  rewrite (mbind_ok _ _ _ _ _ (zero_image (Z.to_nat FSSIZE) [] 1 nmeta ltac:(cbn; unfold FSSIZE; lia))).
  rewrite (mbind_ok _ _ _ tt formatted).
  2: { unfold wsect, formatted. cbn [img freeinode freeblock app]. rewrite sector_small by (unfold FSSIZE; lia).
       rewrite (proj2 (Nat.ltb_lt _ _)); [done|]. rewrite length_replicate. unfold FSSIZE. lia. }
  rewrite (mbind_ok _ _ _ _ _ E1). unfold massert. rewrite (mbind_ok _ _ st1 tt st1) by done.
  change ROOTINO with (Z.of_nat 0 + 1) at 1. rewrite (mbind_ok _ _ _ _ _ E2).
  change ROOTINO with (Z.of_nat 0 + 1) at 1. by rewrite (mbind_ok _ _ _ _ _ E3).
Qed.

Lemma fix_root_ok st root rest : inv st (root :: rest) -> full root -> len (f_data root) <= (MAXFILE - 1) * BSIZE ->
  exists st', fix_root ROOTINO st = MOk tt st' /\ inv st' (with_size root (root_size (len (f_data root))) :: rest) /\
    freeblock st' = freeblock st /\ forall b, 0 <= b < 32 -> blk (img st') b = blk (img st) b.
Proof.
  intros (Hg & Hfi & Hfs) [Hsn Hsz] Hmax. set (n := root_size (len (f_data root))).
  assert (Hn : 0 <= len (f_data root) < 2 ^ 32 /\ 0 <= n < 2 ^ 32).
  { unfold n, root_size. rewrite MAXFILE_val in Hmax. unfold len, BSIZE in *.
    pose proof (Z.div_pos (Z.of_nat (length (f_data root))) 1024 ltac:(lia) ltac:(lia)).
    pose proof (Z.mul_div_le (Z.of_nat (length (f_data root))) 1024 ltac:(lia)). lia. }
  pose proof (good_size st _ _ 0 root n Hg eq_refl ltac:(lia)) as Hg2.
  change (<[0%nat := with_size root n]> (root :: rest)) with (with_size root n :: rest) in Hg2.
  destruct (commit_inode st _ _ 0 Hg2) as (st' & E & Hinv & Hfb & Hlow).
  - intros j Hj Hne. by rewrite fn_lookup_insert_ne.
  - simpl. lia.
  - done.
  - done.
  - exists st'. split_and!; [|done|done|done]. unfold fix_root.
    rewrite (mbind_ok _ _ _ _ _ (rinode_ok st ROOTINO (go_shape _ _ _ Hg) ltac:(done))).
    pose proof (ir_size _ _ _ (go_irep _ _ _ Hg 0%nat root eq_refl)) as Hs. unfold di_size in Hs.
    change (get 4 (0 + 8) (dino (img st) (Z.of_nat 0 + 1))) with (get 4 8 (dino (img st) ROOTINO)) in Hs. rewrite Hs, Hsz, (xint_id (len (f_data root))) by apply Hn.
    fold (root_size (len (f_data root))). fold n. rewrite (xint_id n) by apply Hn.
    rewrite fn_lookup_insert in E. exact E.
Qed.

Lemma balloc_ok st fs : inv st fs ->
  exists st', balloc (freeblock st) st = MOk tt st' /\ inv st' fs /\ freeblock st' = freeblock st /\
    (forall b, 0 <= b < 32 -> blk (img st') b = blk (img st) b) /\
    forall b, 0 <= b < BPB -> bit_test b (blk (img st') (BBLOCK b sb)) = (b <? freeblock st).
Proof.
  intros (Hg & Hfi & Hfs). pose proof (go_shape _ _ _ Hg) as Hs. pose proof (sh_free st Hs) as Hfree. pose proof (sh_len st Hs) as Hlen.
  rewrite nmeta_val in Hfree. unfold FSSIZE in *.
  destruct (balloc_bits_ok (Z.to_nat (freeblock st))) as [Hl Hbits]; [change BPB with 8192; lia|]. rewrite Z2Nat.id in Hbits by lia.
  set (buf := balloc_bits (Z.to_nat (freeblock st))) in *. set (st' := with_img st (<[Z.to_nat 45 := buf]> (img st))).
  assert (Hblk : forall b, 0 <= b -> blk (img st') b = if decide (b = 45) then buf else blk (img st) b) by (intros b Hb; apply blk_insert; lia).
  exists st'. split_and!; [| |done|intros b Hb; rewrite Hblk by lia; by rewrite decide_False by lia|].
  - unfold balloc, massert. rewrite (mbind_ok _ _ st tt st) by (by rewrite (proj2 (Z.ltb_lt _ BPB)) by (change BPB with 8192; lia)).
    apply (wsect_ok st 45 _ Hs). unfold FSSIZE. lia.
  - split_and!; [|done|done]. destruct Hg as [_ Hi Hnd Hra]. split; [apply shape_write; [done|lia|done]| |done|done].
    intros k f Hk. pose proof (lookup_lt_Some _ _ _ Hk) as Hkl. apply irep_ext with (img st).
    + intros b Hb. assert (Hbr : b ∈ fs ≫= owned) by (apply list_elem_of_bind; exists f; split; [done|by apply list_elem_of_lookup_2 with k]).
      rewrite Forall_forall in Hra. specialize (Hra b Hbr). rewrite nmeta_val in Hra. rewrite Hblk by lia. by rewrite decide_False by lia.
    + replace (dino (img st') (Z.of_nat k + 1)) with (dino (img st) (Z.of_nat k + 1)); [by apply Hi|].
      unfold dino. destruct (iblock_ok _ (inum_ok fs k Hkl Hfs)) as [E Hr]. rewrite E, Hblk by lia. by rewrite decide_False by lia.
  - intros b Hb. change (BBLOCK b sb) with (u32 (b / BPB + 45)). rewrite Z.div_small by done. change (u32 (0 + 45)) with 45.
    rewrite Hblk, decide_True by (done || lia). by apply Hbits.
Qed.

(** main puts the files into the image. *)
Lemma main_ok files : Forall input_ok files -> len files + 1 < NINODES ->
  nmeta + cost (16 * (len files + 2)) + total files <= FSSIZE ->
  exists st root new, main (opened <$> files) start = MOk tt st /\
    inv st (with_size root (root_size (len (f_data root))) :: new) /\ full root /\ f_type root = T_DIR /\ f_data root = root_data files /\
    Forall2 holds files new /\ (forall b, 0 <= b < 32 -> blk (img st) b = blk (img formatted) b) /\
    forall b, 0 <= b < BPB -> bit_test b (blk (img st) (BBLOCK b sb)) = (b <? freeblock st).
Proof.
  intros Hok Hn Hfb. destruct main_root as (st0 & root0 & Hinv0 & Hf0 & Ht0 & Hd0 & Hfb0 & Hlow0 & Emain). rewrite Emain.
  assert (Hlf : 0 <= len files) by (unfold len; lia). assert (Hdl : len dots = 32) by reflexivity.
  destruct (add_files_ok files st0 root0 [] Hinv0 Hf0) as (st1 & root1 & new & E1 & Hinv1 & Hf1 & Ht1 & Hd1 & Hnew & Hlow1).
  - change (len []) with 0. lia.
  - done.
  - rewrite Hd0, Hdl, MAXFILE_val. unfold NINODES, BSIZE in *. lia.
  - rewrite Hfb0, Hd0, Hdl. replace (32 + 16 * len files) with (16 * (len files + 2)) by lia. lia.
  - change (ROOTINO) with 1. rewrite (mbind_ok _ _ _ _ _ E1). cbn [app] in Hinv1.
    assert (Hlen : len (f_data root1) = 16 * (len files + 2)).
    { rewrite Hd1, Hd0, len_app, Hdl. cut (forall n, len (entries n files) = 16 * len files); [intros ->; lia|].
      clear. induction files as [|f files IH]; intros n; [done|]. cbn [entries]. rewrite len_app, entry_len, IH. unfold len. simpl length. lia. }
    destruct (fix_root_ok st1 root1 new Hinv1 Hf1) as (st2 & E2 & Hinv2 & Hfb2 & Hlow2).
    { rewrite Hlen, MAXFILE_val. unfold NINODES, BSIZE in *. lia. }
    destruct (balloc_ok st2 _ Hinv2) as (st3 & E3 & Hinv3 & Hfb3 & Hlow3 & Hbits).
    exists st3, root1, new. split_and!; [|done|done|congruence|by rewrite Hd1, Hd0|done|intros b Hb; by rewrite Hlow3, Hlow2, Hlow1, Hlow0|by rewrite Hfb3].
    rewrite (mbind_ok _ _ _ _ _ E2). unfold get_freeblock. by rewrite (mbind_ok _ _ st2 (freeblock st2) st2).
Qed.
