(* ===== verification/MkfsView.v ===== *)
(** The image that mkfs builds, as the kernel reads it. *)

From S2P Require Import Prelude Riscv Bytes CString State Fs Mkfs MkfsSpec MkfsMain.
Import Mkfs.

(** * Reading a file through its inode *)

(** The address of block [n] of a file, as bmap finds it, and 0 where there is none;
    such a block reads as zeros. *)
Definition file_addr (im : list block) (din : list Z) (n : nat) : Z :=
  if (n <? 12)%nat then addr din n
  else if addr din 12 =? 0 then 0 else get 4 (4 * (n - 12)) (blk im (addr din 12)).
Definition addr_block (im : list block) (a : Z) : block := if a =? 0 then zero_block else blk im a.
Definition nblocks_of (din : list Z) : nat := Z.to_nat (nblk (di_size 0 din)).
Definition file_bytes (im : list block) (inum : Z) : list Z :=
  let din := dino im inum in
  take (Z.to_nat (di_size 0 din)) (mjoin ((fun n => addr_block im (file_addr im din n)) <$> seq 0 (nblocks_of din))).

(** The blocks a file has, its indirect block first. *)
Definition inode_blocks (im : list block) (inum : Z) : list Z :=
  let din := dino im inum in
  List.filter (fun a => negb (a =? 0)) (addr din 12 :: (file_addr im din <$> seq 0 (nblocks_of din))).

Section view.
Context (im : list block) (din : list Z) (f : fnode).
Hypothesis Hi : irep im din f.
Hypothesis Hpos : forall b, b ∈ owned f -> b <> 0.

Lemma file_addr_ok n : (n < 268)%nat -> file_addr im din n = default 0 (f_blocks f !! n).
Proof using Hi.
  intros Hn. unfold file_addr. destruct (Nat.ltb_spec n 12); [by apply (ir_direct _ _ _ Hi)|].
  rewrite (ir_addr12 _ _ _ Hi). destruct (Z.eqb_spec (f_ind f) 0) as [H0|H0].
  - pose proof (ir_ind _ _ _ Hi H0). unfold len in *. by rewrite lookup_ge_None_2 by lia.
  - rewrite (ir_indirect _ _ _ Hi H0) by lia. by replace (12 + (n - 12))%nat with n by lia.
Qed.

Lemma file_addr_old n b : f_blocks f !! n = Some b -> file_addr im din n = b /\ b <> 0.
Proof.
  intros H. pose proof (lookup_lt_Some _ _ _ H). pose proof (ir_max _ _ _ Hi) as Hm. rewrite MAXFILE_val in Hm. unfold len in Hm.
  rewrite file_addr_ok, H by lia. split; [done|]. apply Hpos. by apply block_owned with n.
Qed.

(** The addresses of the first [n] blocks, from the last one of the file on zero. *)
Lemma addrs_ok k : (length (f_blocks f) + k <= 268)%nat ->
  file_addr im din <$> seq 0 (length (f_blocks f) + k) = f_blocks f ++ replicate k 0.
Proof.
  intros Hk. apply list_eq. intros i. rewrite list_lookup_fmap. destruct (decide (i < length (f_blocks f))%nat) as [Hl|Hl].
  - rewrite lookup_seq_lt by lia. cbn [fmap option_fmap option_map]. rewrite lookup_app_l by done.
    destruct (lookup_lt_is_Some_2 _ _ Hl) as [b Hb]. rewrite Hb. f_equal. by apply (file_addr_old i b).
  - rewrite lookup_app_r by lia. destruct (decide (i < length (f_blocks f) + k)%nat) as [Hl2|Hl2].
    + rewrite lookup_seq_lt by lia. cbn [fmap option_fmap option_map]. rewrite lookup_replicate_2 by lia. f_equal.
      rewrite file_addr_ok by lia. by rewrite lookup_ge_None_2 by lia.
    + rewrite lookup_seq_ge by lia. symmetry. apply lookup_ge_None_2. rewrite length_replicate. lia.
Qed.

Lemma join_addrs k : (length (f_blocks f) + k <= 268)%nat ->
  mjoin ((fun n => addr_block im (file_addr im din n)) <$> seq 0 (length (f_blocks f) + k)) =
    f_data f ++ zeros (BSIZE * (len (f_blocks f) + Z.of_nat k) - len (f_data f)).
Proof.
  intros Hk. rewrite (list_fmap_compose (file_addr im din) (addr_block im)), addrs_ok by done. rewrite fmap_app, join_app.
  replace (addr_block im <$> f_blocks f) with (blk im <$> f_blocks f).
  2: { apply list_fmap_ext. intros i b Hb. unfold addr_block. by rewrite (proj2 (Z.eqb_neq b 0)) by (by apply (file_addr_old i b)). }
  rewrite (ir_data _ _ _ Hi), <- app_assoc. f_equal. pose proof (ir_fits _ _ _ Hi) as Hfit.
  assert (E : mjoin (addr_block im <$> replicate k 0) = zeros (BSIZE * Z.of_nat k)).
  { clear. induction k as [|k IH]; [done|]. change (mjoin (addr_block im <$> replicate (S k) 0)) with (zero_block ++ mjoin (addr_block im <$> replicate k 0)).
    rewrite IH. change zero_block with (zeros BSIZE). rewrite zeros_app by (unfold BSIZE; lia). f_equal. unfold BSIZE. lia. }
  rewrite E, zeros_app by (unfold BSIZE in *; lia). f_equal. unfold BSIZE. lia.
Qed.
End view.

Lemma nblk_bounds a b : a <= b <= MAXFILE * BSIZE -> nblk a <= nblk b <= 268.
Proof.
  rewrite MAXFILE_val. unfold nblk, BSIZE. intros H. split; [apply Z.div_le_mono; lia|].
  change 268 with ((268 * 1024 + 1023) / 1024). apply Z.div_le_mono; lia.
Qed.

(** A file reads back as its contents, with zeros up to its size. *)
Lemma file_bytes_ok im inum f :
  irep im (dino im inum) f -> (forall b, b ∈ owned f -> b <> 0) -> snug f -> len (f_data f) <= f_size f <= MAXFILE * BSIZE ->
  file_bytes im inum = f_data f ++ zeros (f_size f - len (f_data f)).
Proof.
  intros Hi Hpos [Hsn _] Hsz. unfold file_bytes, nblocks_of. rewrite (ir_size _ _ _ Hi).
  pose proof (nblk_bounds _ _ Hsz) as H1.
  assert (H2 : f_size f <= BSIZE * nblk (f_size f)).
  { unfold nblk, BSIZE. pose proof (Z.mod_pos_bound (f_size f + 1024 - 1) 1024 ltac:(lia)). pose proof (Z.div_mod (f_size f + 1024 - 1) 1024 ltac:(lia)). lia. }
  set (k := Z.to_nat (nblk (f_size f) - len (f_blocks f))).
  replace (Z.to_nat (nblk (f_size f))) with (length (f_blocks f) + k)%nat by (unfold k, len in *; lia).
  rewrite (join_addrs im (dino im inum) f) by (done || (unfold k, len in *; lia)).
  replace (len (f_blocks f) + Z.of_nat k) with (nblk (f_size f)) by (unfold k, len in *; lia).
  replace (Z.to_nat (f_size f)) with (length (f_data f) + Z.to_nat (f_size f - len (f_data f)))%nat by (unfold len in *; lia).
  rewrite take_app_add. f_equal. unfold zeros. rewrite take_replicate. f_equal. unfold len in *. lia.
Qed.

Lemma inode_blocks_ok im inum f :
  irep im (dino im inum) f -> (forall b, b ∈ owned f -> b <> 0) -> snug f -> len (f_data f) <= f_size f <= MAXFILE * BSIZE ->
  inode_blocks im inum = owned f.
Proof.
  intros Hi Hpos [Hsn _] Hsz. unfold inode_blocks, nblocks_of. rewrite (ir_size _ _ _ Hi), (ir_addr12 _ _ _ Hi).
  pose proof (nblk_bounds _ _ Hsz) as H1.
  set (k := Z.to_nat (nblk (f_size f) - len (f_blocks f))).
  replace (Z.to_nat (nblk (f_size f))) with (length (f_blocks f) + k)%nat by (unfold k, len in *; lia).
  rewrite (addrs_ok im (dino im inum) f) by (done || (unfold k, len in *; lia)).
  unfold owned. cbn [List.filter]. rewrite List.filter_app.
  assert (E0 : List.filter (fun a => negb (a =? 0)) (replicate k 0) = []) by (clear; induction k; done).
  assert (E1 : forall l, (forall b, b ∈ l -> b <> 0) -> List.filter (fun a => negb (a =? 0)) l = l).
  { induction l as [|b l IH]; intros H; [done|]. cbn [List.filter]. rewrite (proj2 (Z.eqb_neq b 0)) by set_solver. cbn [negb]. f_equal. set_solver. }
  rewrite E0, E1, app_nil_r by (intros b Hb; apply Hpos; unfold owned; set_solver).
  destruct (Z.eqb_spec (f_ind f) 0); [by rewrite decide_True|by rewrite decide_False].
Qed.

(** * The finished image *)

Lemma bind_join {A B} (g : A -> list B) l : l ≫= g = mjoin (g <$> l).
Proof. induction l as [|x l IH]; [done|]. rewrite bind_cons, IH. done. Qed.

Lemma inv_irep st fs k f : inv st fs -> fs !! k = Some f ->
  irep (img st) (dino (img st) (Z.of_nat k + 1)) f /\ forall b, b ∈ owned f -> b <> 0.
Proof.
  intros (Hg & _) Hk. split; [by apply (go_irep _ _ _ Hg)|]. intros b Hb. pose proof (owned_bound _ _ _ _ _ _ Hg Hk Hb). lia.
Qed.

Lemma root_size_ok n : 0 <= n <= 16 * 201 -> n <= root_size n <= MAXFILE * BSIZE.
Proof.
  intros H. unfold root_size. rewrite MAXFILE_val. unfold BSIZE. pose proof (Z.div_mod n 1024 ltac:(lia)).
  pose proof (Z.mod_pos_bound n 1024 ltac:(lia)). pose proof (Z.mul_div_le n 1024 ltac:(lia)). lia.
Qed.

Lemma root_data_len files : len (root_data files) = 16 * (len files + 2).
Proof.
  unfold root_data. rewrite len_app. change (len dots) with 32. cut (forall n, len (entries n files) = 16 * len files); [intros ->; lia|].
  induction files as [|f files IH]; intros n; [done|]. cbn [entries]. rewrite len_app, entry_len, IH. unfold len. simpl length. lia.
Qed.

Lemma fits_file f x : input_ok f -> holds f x -> len (f_data x) <= f_size x <= MAXFILE * BSIZE.
Proof. intros [_ Hm] (_ & Hd & _ & ->). rewrite Hd. lia. Qed.

(** The files fit: their number, their sizes, the blocks they take. *)
Definition fits (files : list input) : Prop :=
  Forall input_ok files /\ len files + 1 < NINODES /\ nmeta + cost (16 * (len files + 2)) + total files <= FSSIZE.

(** C9: mkfs builds a file system that holds its files.  When the files fit, it
    succeeds; the image has FSSIZE blocks, the kernel's readsb decodes block 1 to
    the layout mkfs used; read through its inode, with indirect block, the root
    directory is the entries for itself, its parent and every file in order, zeros
    up to its size after that, and every file has the bytes of its input. *)
Theorem mkfs_files files : fits files ->
  exists st, main (opened <$> files) start = MOk tt st /\ len (img st) = FSSIZE /\ sb_decode (blk (img st) 1) = sb /\
    di_type 0 (dino (img st) ROOTINO) = T_DIR /\ di_size 0 (dino (img st) ROOTINO) = root_size (len (root_data files)) /\
    file_bytes (img st) ROOTINO = root_data files ++ zeros (root_size (len (root_data files)) - len (root_data files)) /\
    forall i f, files !! i = Some f ->
      let inum := Z.of_nat i + 2 in
      di_type 0 (dino (img st) inum) = T_FILE /\ di_nlink 0 (dino (img st) inum) = 1 /\
      di_size 0 (dino (img st) inum) = len (file_data f) /\ file_bytes (img st) inum = file_data f.
Proof.
  intros (Hok & Hn & Hfb). destruct (main_ok files Hok Hn Hfb) as (st & root & new & E & Hinv & [Hsn Hsz] & Ht & Hd & Hnew & Hlow & _).
  exists st. destruct (inv_irep st _ 0 _ Hinv eq_refl) as [Hir Hpos]. change (Z.of_nat 0 + 1) with ROOTINO in Hir.
  assert (Hrl : 0 <= len (f_data root) <= 16 * 201) by (rewrite Hd, root_data_len; unfold NINODES, len in *; lia).
  split_and!; [done|apply (sh_len st), (go_shape _ _ _ (proj1 Hinv))|rewrite Hlow by lia; vm_compute; reflexivity|by rewrite (ir_type _ _ _ Hir)|
    rewrite (ir_size _ _ _ Hir); cbn [with_size f_size]; by rewrite Hd|rewrite (file_bytes_ok _ _ _ Hir Hpos); cbn [with_size f_size f_data]; [by rewrite Hd|done|by apply root_size_ok]|].
  intros i f Hf inum. destruct (Forall2_lookup_l _ _ _ _ _ Hnew Hf) as (x & Hx & Hh).
  rewrite Forall_lookup in Hok. pose proof (fits_file f x (Hok i f Hf) Hh) as Hfit. destruct Hh as (Htx & Hdx & Hsx & Hszx).
  destruct (inv_irep st _ (S i) x Hinv Hx) as [Hix Hposx]. replace (Z.of_nat (S i) + 1) with inum in Hix by (unfold inum; lia).
  split_and!; [by rewrite (ir_type _ _ _ Hix)|apply (ir_nlink _ _ _ Hix)|by rewrite (ir_size _ _ _ Hix), Hszx, Hdx|].
  rewrite (file_bytes_ok _ _ _ Hix Hposx Hsx Hfit), Hszx, Hdx, Z.sub_diag. apply app_nil_r.
Qed.

(** C20: the blocks of the image are accounted for.  No block is in two files or
    twice in one, no file has a block of the layout, and the kernel's bitmap test
    says in use exactly for the blocks below the first free one, which include the
    layout and every block of a file; so the kernel's first allocation takes the
    first free block. *)
Theorem mkfs_blocks files : fits files ->
  exists st, main (opened <$> files) start = MOk tt st /\
    NoDup (mjoin ((fun i => inode_blocks (img st) (Z.of_nat i + 1)) <$> seq 0 (S (length files)))) /\
    Forall (fun b => nmeta <= b < freeblock st) (mjoin ((fun i => inode_blocks (img st) (Z.of_nat i + 1)) <$> seq 0 (S (length files)))) /\
    (forall b, 0 <= b < BPB -> bit_test b (blk (img st) (BBLOCK b sb)) = (b <? freeblock st)) /\
    (freeblock st < FSSIZE -> balloc_scan (Z.to_nat BPB) 0 0 (sb_size sb) (blk (img st) (BBLOCK 0 sb)) = Some (freeblock st)).
Proof.
  intros (Hok & Hn & Hfb). destruct (main_ok files Hok Hn Hfb) as (st & root & new & E & Hinv & [Hsn Hsz] & Ht & Hd & Hnew & _ & Hbits).
  exists st. set (fs := with_size root (root_size (len (f_data root))) :: new) in *.
  assert (Hfs : forall k f, fs !! k = Some f -> inode_blocks (img st) (Z.of_nat k + 1) = owned f).
  { intros k f Hk. destruct (inv_irep st fs k f Hinv Hk) as [Hir Hpos]. apply inode_blocks_ok; [done|done| |].
    - destruct k as [|k]; [injection Hk as <-; done|]. destruct (Forall2_lookup_r _ _ _ _ _ Hnew Hk) as (fl & _ & (_ & _ & Hs & _)). done.
    - destruct k as [|k]; [injection Hk as <-; apply (root_size_ok (len (f_data root))); rewrite Hd, root_data_len; unfold NINODES, len in *; lia|].
      destruct (Forall2_lookup_r _ _ _ _ _ Hnew Hk) as (fl & Hfl & Hh). rewrite Forall_lookup in Hok. by apply (fits_file fl f (Hok k fl Hfl)). }
  assert (Hl : length fs = S (length files)) by (unfold fs; simpl; f_equal; symmetry; by eapply Forall2_length).
  assert (Eown : mjoin ((fun i => inode_blocks (img st) (Z.of_nat i + 1)) <$> seq 0 (S (length files))) = fs ≫= owned).
  { rewrite <- Hl. rewrite bind_join. f_equal. apply list_eq. intros i. rewrite !list_lookup_fmap.
    destruct (decide (i < length fs)%nat) as [Hi|Hi].
    - rewrite lookup_seq_lt by done. destruct (lookup_lt_is_Some_2 fs i Hi) as [f Hf]. rewrite Hf. cbn. f_equal. by apply Hfs.
    - by rewrite lookup_seq_ge, lookup_ge_None_2 by lia. }
  rewrite Eown. destruct Hinv as (Hg & _). split_and!; [done|apply Hg|apply Hg|done|]. intros Hlt.
  pose proof (sh_free st (go_shape _ _ _ Hg)) as Hfree. rewrite nmeta_val in Hfree. unfold FSSIZE in *.
  change (BBLOCK 0 sb) with 45. assert (Hb45 : forall b, 0 <= b < BPB -> bit_test b (blk (img st) 45) = (b <? freeblock st)).
  { intros b Hb. rewrite <- (Hbits b Hb). change (BBLOCK b sb) with (u32 (b / BPB + 45)). by rewrite Z.div_small by done. }
  cut (forall m bi, 0 <= bi <= freeblock st -> freeblock st - bi < Z.of_nat m -> balloc_scan m bi 0 (sb_size sb) (blk (img st) 45) = Some (freeblock st)).
  { intros H. apply H; [lia|]. change BPB with 8192. lia. }
  change (sb_size sb) with 2000. induction m as [|m IH]; intros bi Hbi Hm; [lia|]. cbn [balloc_scan].
  rewrite (proj2 (Z.ltb_lt (0 + bi) 2000)) by lia. cbn [negb]. rewrite Hb45 by (change BPB with 8192; lia).
  destruct (Z.ltb_spec bi (freeblock st)); [apply IH; lia|]. f_equal. lia.
Qed.

Definition sample : list input := [(chars "README", [[104; 105]; [10]]); (chars "user/_cat", [replicate 1024 7; replicate 700 8])].

Lemma sample_fits : fits sample.
Proof.
  split_and!; [|vm_compute; reflexivity|vm_compute; discriminate].
  repeat constructor; try (vm_compute; reflexivity); vm_compute; discriminate.
Qed.

Lemma mkfs_files_witness :
  exists st, main (opened <$> sample) start = MOk tt st /\ len (img st) = FSSIZE /\ sb_decode (blk (img st) 1) = sb /\
    di_type 0 (dino (img st) ROOTINO) = T_DIR /\ di_size 0 (dino (img st) ROOTINO) = root_size (len (root_data sample)) /\
    file_bytes (img st) ROOTINO = root_data sample ++ zeros (root_size (len (root_data sample)) - len (root_data sample)) /\
    forall i f, sample !! i = Some f ->
      let inum := Z.of_nat i + 2 in
      di_type 0 (dino (img st) inum) = T_FILE /\ di_nlink 0 (dino (img st) inum) = 1 /\
      di_size 0 (dino (img st) inum) = len (file_data f) /\ file_bytes (img st) inum = file_data f.
Proof. apply (mkfs_files sample), sample_fits. Defined.

Lemma mkfs_blocks_witness :
  exists st, main (opened <$> sample) start = MOk tt st /\
    NoDup (mjoin ((fun i => inode_blocks (img st) (Z.of_nat i + 1)) <$> seq 0 (S (length sample)))) /\
    Forall (fun b => nmeta <= b < freeblock st) (mjoin ((fun i => inode_blocks (img st) (Z.of_nat i + 1)) <$> seq 0 (S (length sample)))) /\
    (forall b, 0 <= b < BPB -> bit_test b (blk (img st) (BBLOCK b sb)) = (b <? freeblock st)) /\
    (freeblock st < FSSIZE -> balloc_scan (Z.to_nat BPB) 0 0 (sb_size sb) (blk (img st) (BBLOCK 0 sb)) = Some (freeblock st)).
Proof. apply (mkfs_blocks sample), sample_fits. Defined.

(** mkfs does not count its inodes: inode 208 is in the bitmap block. *)
Lemma inode_208_in_bitmap : IBLOCK 208 sb = sb_bmapstart sb.
Proof. reflexivity. Qed.
