(* ===== verification/Grind.v ===== *)
(** user/grind.c: random system calls, forever; and its random numbers. *)

From S2P Require Import Prelude Numeral Bytes CString State Uprog Ulib Uprintf Utils.

Module Grind.

(** int do_rand(unsigned long *ctx): the result, which is also the new ctx *)
Definition do_rand (ctx : Z) : Z :=
  let x := ctx mod 0x7ffffffe + 1 in
  let hi := x ÷ 127773 in
  let lo := Z.rem x 127773 in
  let x := 16807 * lo - 2836 * hi in
  let x := if x <? 0 then x + 0x7fffffff else x in
  x - 1.

(** int rand(void): the result and rand_next *)
Definition rand (rand_next : Z) : Z * Z :=
  let x := do_rand rand_next in (i32 x, u64 x).

(** The variables of go that its rounds change: fd, buf, rand_next *)
Record gst := mkGst { fd : Z; buf : list Z; rand_next : Z }.

Definition create_mode : Z := Z.lor O_CREATE O_RDWR.

(** printf(...); exit(status) *)
Definition fail {A} (msg : string) (status : Z) : U A := printf (chars msg ++ nl) [];; exit status.
Definition fail2 {A} (msg : string) (status : Z) : U A := fprintf 2 (chars msg ++ nl) [];; exit status.

(** close(open(path, O_CREATE|O_RDWR)) *)
Definition touch (path : string) : U unit := f ← open (chars path) create_mode; close f;; mret tt.

(** pid = fork(); the child runs [child], a failure is reported *)
Definition with_child (child : U unit) (parent : Z -> U unit) : U unit :=
  pid ← fork;
  if pid =? 0 then child
  else if pid <? 0 then fail "grind: fork failed" 1
  else parent pid.
Definition wait0 : U unit := wait;; mret tt.

(** The case what == 19 *)
Definition pipe_test : U unit :=
  '(r, fds) ← pipe;
  if r <? 0 then fail "grind: pipe failed" 1
  else
    with_child
      (fork;;
       fork;;
       w ← write (fd_of 1 fds) (chars "x");
       whenU (negb (w =? 1)) (printf (chars "grind: pipe write failed" ++ nl) []);;
       '(n, _) ← read (fd_of 0 fds) 1;
       whenU (negb (n =? 1)) (printf (chars "grind: pipe read failed" ++ nl) []);;
       exit 0)
      (fun _ =>
         close (fd_of 0 fds);;
         close (fd_of 1 fds);;
         wait0).

(** The case what == 21 *)
Definition create_test : U unit :=
  unlink (chars "c");;
  fd1 ← open (chars "c") create_mode;
  whenU (fd1 <? 0) (fail "grind: create c failed" 1);;
  w ← write fd1 (chars "x");
  whenU (negb (w =? 1)) (fail "grind: write c failed" 1);;
  '(r, st) ← fstat fd1;
  whenU (negb (r =? 0)) (fail "grind: fstat failed" 1);;
  whenU (negb (Ls.st_size st =? 1))
    (printf (chars "grind: fstat reports wrong size %d" ++ nl) [VInt (i32 (Ls.st_size st))];; exit 1);;
  whenU (Ls.st_ino st >? 200)
    (printf (chars "grind: fstat reports crazy i-number %d" ++ nl) [VInt (i32 (Ls.st_ino st))];; exit 1);;
  close fd1;;
  unlink (chars "c");;
  mret tt.

(** The children of the case what == 22 *)
Definition echo_child (aa bb : list Z) : U unit :=
  close (fd_of 0 bb);;
  close (fd_of 1 bb);;
  close (fd_of 0 aa);;
  close 1;;
  d ← dup (fd_of 1 aa);
  whenU (negb (d =? 1)) (fail2 "grind: dup failed" 1);;
  close (fd_of 1 aa);;
  exec (chars "grindir/../echo") [chars "echo"; chars "hi"];;
  fail2 "grind: echo: not found" 2.
Definition cat_child (aa bb : list Z) : U unit :=
  close (fd_of 1 aa);;
  close (fd_of 0 bb);;
  close 0;;
  d ← dup (fd_of 0 aa);
  whenU (negb (d =? 0)) (fail2 "grind: dup failed" 4);;
  close (fd_of 0 aa);;
  close 1;;
  d ← dup (fd_of 1 bb);
  whenU (negb (d =? 1)) (fail2 "grind: dup failed" 5);;
  close (fd_of 1 bb);;
  exec (chars "/cat") [chars "cat"];;
  fail2 "grind: cat: not found" 6.

(** The case what == 22: echo hi | cat; [st0] is what the stack holds in st1 and
    st2, which a failing wait leaves alone *)
Definition pipeline_test (st0 : list Z) : U unit :=
  '(r, aa) ← pipe;
  whenU (r <? 0) (fail2 "grind: pipe failed" 1);;
  '(r, bb) ← pipe;
  whenU (r <? 0) (fail2 "grind: pipe failed" 1);;
  pid1 ← fork;
  if pid1 =? 0 then echo_child aa bb
  else if pid1 <? 0 then fail2 "grind: fork failed" 3
  else
    pid2 ← fork;
    if pid2 =? 0 then cat_child aa bb
    else if pid2 <? 0 then fail2 "grind: fork failed" 7
    else
      close (fd_of 0 aa);;
      close (fd_of 1 aa);;
      close (fd_of 1 bb);;
      let buf := [0; 0; 0; 0] in
      '(_, bs) ← read (fd_of 0 bb) 1;
      let buf := splice 0 bs buf in
      '(_, bs) ← read (fd_of 0 bb) 1;
      let buf := splice 1 bs buf in
      '(_, bs) ← read (fd_of 0 bb) 1;
      let buf := splice 2 bs buf in
      close (fd_of 0 bb);;
      '(_, s1) ← wait_status;
      let st1 := fd_of 0 (splice 0 s1 (take 4 st0)) in
      '(_, s2) ← wait_status;
      let st2 := fd_of 0 (splice 0 s2 (drop 4 st0)) in
      if negb (st1 =? 0) || negb (st2 =? 0) || negb (strcmp buf (chars "hi" ++ nl) =? 0) then
        printf (chars "grind: exec pipeline failed %d %d " ++ [34] ++ chars "%s" ++ [34] ++ nl) [VInt st1; VInt st2; VStr (Some buf)];;
        exit 1
      else mret tt.

(** One round of the loop of go, for the value of what *)
Definition round (what break0 : Z) (st0 : list Z) (g : gst) : U gst :=
  let same (p : U unit) : U gst := p;; mret g in
  if what =? 1 then same (touch "grindir/../a")
  else if what =? 2 then same (touch "grindir/../grindir/../b")
  else if what =? 3 then same (unlink (chars "grindir/../a");; mret tt)
  else if what =? 4 then same
    (r ← chdir (chars "grindir");
     whenU (negb (r =? 0)) (fail "grind: chdir grindir failed" 1);;
     unlink (chars "../b");;
     chdir (chars "/");;
     mret tt)
  else if what =? 5 then
    close (fd g);;
    f ← open (chars "/grindir/../a") create_mode;
    mret (mkGst f (buf g) (rand_next g))
  else if what =? 6 then
    close (fd g);;
    f ← open (chars "/./grindir/./../b") create_mode;
    mret (mkGst f (buf g) (rand_next g))
  else if what =? 7 then same (write (fd g) (buf g);; mret tt)
  else if what =? 8 then
    '(_, bs) ← read (fd g) 999;
    mret (mkGst (fd g) (splice 0 bs (buf g)) (rand_next g))
  else if what =? 9 then same
    (mkdir (chars "grindir/../a");;
     touch "a/../a/./a";;
     unlink (chars "a/a");;
     mret tt)
  else if what =? 10 then same
    (mkdir (chars "/../b");;
     touch "grindir/../b/b";;
     unlink (chars "b/b");;
     mret tt)
  else if what =? 11 then same
    (unlink (chars "b");;
     link (chars "../grindir/./../a") (chars "../b");;
     mret tt)
  else if what =? 12 then same
    (unlink (chars "../grindir/../a");;
     link (chars ".././b") (chars "/grindir/../a");;
     mret tt)
  else if what =? 13 then same (with_child (exit 0) (fun _ => wait0))
  else if what =? 14 then same (with_child (fork;; fork;; exit 0) (fun _ => wait0))
  else if what =? 15 then same (sbrk 6011;; mret tt)
  else if what =? 16 then same
    (b ← sbrk 0;
     if b >? break0 then b ← sbrk 0; sbrk (i32 (- (b - break0)));; mret tt
     else mret tt)
  else if what =? 17 then same
    (with_child
       (touch "a";; exit 0)
       (fun pid =>
          r ← chdir (chars "../grindir/..");
          whenU (negb (r =? 0)) (fail "grind: chdir failed" 1);;
          kill pid;;
          wait0))
  else if what =? 18 then same (with_child (pid ← getpid; kill pid;; exit 0) (fun _ => wait0))
  else if what =? 19 then same pipe_test
  else if what =? 20 then same
    (with_child
       (unlink (chars "a");;
        mkdir (chars "a");;
        chdir (chars "a");;
        unlink (chars "../a");;
        open (chars "x") create_mode;;
        unlink (chars "x");;
        exit 0)
       (fun _ => wait0))
  else if what =? 21 then same create_test
  else if what =? 22 then same (pipeline_test st0)
  else mret g.

(** The loop of go; [st0] gives what the stack holds in each round *)
Fixpoint go_loop (fuel : nat) (which_child : bool) (break0 iters : Z) (st0 : nat -> list Z) (g : gst) : U unit :=
  match fuel with
  | O => OutOfFuel
  | S fuel' =>
      let iters := u64 (iters + 1) in
      whenU (iters mod 500 =? 0) (write 1 (chars (if which_child then "B" else "A"));; mret tt);;
      let '(r, next) := rand (rand_next g) in
      g ← round (Z.rem r 23) break0 (st0 fuel') (mkGst (fd g) (buf g) next);
      go_loop fuel' which_child break0 iters st0 g
  end.

(** void go(int which_child) *)
Definition go (fuel : nat) (which_child : bool) (rand_next : Z) (st0 : nat -> list Z) : U unit :=
  break0 ← sbrk 0;
  mkdir (chars "grindir");;
  r ← chdir (chars "grindir");
  whenU (negb (r =? 0)) (fail "grind: chdir grindir failed" 1);;
  chdir (chars "/");;
  go_loop fuel which_child break0 0 st0 (mkGst (-1) (replicate 999 0) rand_next).

(** void iter() *)
Definition iter (fuel : nat) (rand_next : Z) (st0 : nat -> list Z) : U unit :=
  unlink (chars "a");;
  unlink (chars "b");;
  pid1 ← fork;
  whenU (pid1 <? 0) (fail "grind: fork failed" 1);;
  whenU (pid1 =? 0) (go fuel false (Z.lxor rand_next 31) st0;; exit 0);;
  pid2 ← fork;
  whenU (pid2 <? 0) (fail "grind: fork failed" 1);;
  whenU (pid2 =? 0) (go fuel true (Z.lxor rand_next 7177) st0;; exit 0);;
  '(_, s1) ← wait_status;
  let st1 := fd_of 0 (splice 0 s1 (enc 4 (-1))) in
  whenU (negb (st1 =? 0)) (kill pid1;; kill pid2;; mret tt);;
  wait;;
  exit 0.

(** int main() *)
Fixpoint main_loop (rounds fuel : nat) (rand_next : Z) (st0 : nat -> list Z) : U unit :=
  match rounds with
  | O => OutOfFuel
  | S rounds' =>
      pid ← fork;
      whenU (pid =? 0) (iter fuel rand_next st0;; exit 0);;
      whenU (pid >? 0) wait0;;
      sleep 20;;
      main_loop rounds' fuel (u64 (rand_next + 1)) st0
  end.
Definition main (rounds fuel : nat) (st0 : nat -> list Z) : U unit := main_loop rounds fuel 1 st0.

End Grind.

(** * The random numbers *)

Import Grind.

(** do_rand computes 7^5 x mod 2^31 - 1, for x in 1 .. 2^31 - 2, with 31 bits. *)
Lemma schrage x : 1 <= x <= 0x7ffffffe ->
  let y := 16807 * (x mod 127773) - 2836 * (x / 127773) in
  (if y <? 0 then y + 0x7fffffff else y) = (16807 * x) mod 0x7fffffff /\ - 0x7fffffff < y < 0x7fffffff.
Proof.
  intros Hx. pose proof (Z.div_mod x 127773 ltac:(lia)) as E. pose proof (Z.mod_pos_bound x 127773 ltac:(lia)) as Hm.
  assert (Hq : 0 <= x / 127773 <= 16807) by (split; [apply Z.div_pos; lia|apply Z.lt_succ_r, Z.div_lt_upper_bound; lia]).
  cbv zeta. set (q := x / 127773) in *. set (r := x mod 127773) in *. split; [|lia].
  destruct (Z.ltb_spec (16807 * r - 2836 * q) 0).
  - apply (Z.mod_unique _ _ (q - 1)); lia.
  - apply (Z.mod_unique _ _ q); lia.
Qed.

Lemma do_rand_val ctx : 0 <= ctx -> let x := ctx mod 0x7ffffffe + 1 in
  do_rand ctx = (16807 * x) mod 0x7fffffff - 1 /\ (16807 * x) mod 0x7fffffff <> 0.
Proof.
  intros Hc x. pose proof (Z.mod_pos_bound ctx 0x7ffffffe ltac:(lia)) as Hm. assert (Hx : 1 <= x <= 0x7ffffffe) by (unfold x; lia).
  destruct (schrage x Hx) as [E _]. split.
  - unfold do_rand. fold x. rewrite Z.quot_div_nonneg, Z.rem_mod_nonneg by lia. by rewrite E.
  - intros H. apply Z.mod_divide in H; [|lia]. apply Z.gauss in H; [|reflexivity]. apply Z.divide_pos_le in H; lia.
Qed.

(** do_rand is the generator its comment describes: for any ctx it returns
    (7^5 x mod 2^31 - 1) - 1 for the x of 1 to 2^31 - 2 that ctx stands for; no
    intermediate value needs more than 31 bits and a sign; the result is in 0 to
    2^31 - 3 and, on that range, the generator is one-to-one, so its sequence never
    runs into a shorter cycle than it started. *)
Theorem do_rand_correct ctx :
  0 <= ctx < 2 ^ 64 ->
  let x := ctx mod 0x7ffffffe + 1 in
  do_rand ctx = (7 ^ 5 * x) mod (2 ^ 31 - 1) - 1 /\ 0 <= do_rand ctx <= 0x7ffffffd /\
  rand ctx = (do_rand ctx, do_rand ctx) /\
  (16807 * (x mod 127773) < 2 ^ 31 /\ 2836 * (x / 127773) < 2 ^ 31) /\
  forall ctx', 0 <= ctx' <= 0x7ffffffd -> 0 <= ctx <= 0x7ffffffd -> do_rand ctx = do_rand ctx' -> ctx = ctx'.
Proof.
  intros Hc x. destruct (do_rand_val ctx ltac:(lia)) as [E Hne]. fold x in E, Hne.
  pose proof (Z.mod_pos_bound (16807 * x) 0x7fffffff ltac:(lia)) as Hm. pose proof (Z.mod_pos_bound ctx 0x7ffffffe ltac:(lia)) as Hx.
  assert (Hr : 0 <= do_rand ctx <= 0x7ffffffd) by lia. split_and!; [done|lia|lia| | | |].
  - unfold rand. rewrite u64_small by lia. unfold i32. rewrite sext_small by lia. done.
  - pose proof (Z.mod_pos_bound x 127773 ltac:(lia)). lia.
  - assert (x / 127773 < 16808) by (apply Z.div_lt_upper_bound; unfold x; lia). lia.
  - intros ctx' Hc' Hc2 Eq. destruct (do_rand_val ctx' ltac:(lia)) as [E' _]. rewrite E, E' in Eq. unfold x in Eq.
    rewrite (Z.mod_small ctx), (Z.mod_small ctx') in Eq by lia.
    assert (H : (0x7fffffff | 16807 * (ctx - ctx'))).
    { apply Z.mod_divide; [lia|]. replace (16807 * (ctx - ctx')) with (16807 * (ctx + 1) - 16807 * (ctx' + 1)) by lia.
      rewrite Zminus_mod. replace ((16807 * (ctx + 1)) mod 0x7fffffff) with ((16807 * (ctx' + 1)) mod 0x7fffffff) by lia. by rewrite Z.sub_diag. }
    apply Z.gauss in H; [|reflexivity]. destruct H as [k Hk]. assert (k = 0) by lia. lia.
Qed.

Lemma do_rand_correct_witness :
  let ctx := 1 in
  let x := ctx mod 0x7ffffffe + 1 in
  do_rand ctx = (7 ^ 5 * x) mod (2 ^ 31 - 1) - 1 /\ 0 <= do_rand ctx <= 0x7ffffffd /\
  rand ctx = (do_rand ctx, do_rand ctx) /\
  (16807 * (x mod 127773) < 2 ^ 31 /\ 2836 * (x / 127773) < 2 ^ 31) /\
  forall ctx', 0 <= ctx' <= 0x7ffffffd -> 0 <= ctx <= 0x7ffffffd -> do_rand ctx = do_rand ctx' -> ctx = ctx'.
Proof. apply (do_rand_correct 1). lia. Defined.
