(* ===== verification/Utest.v ===== *)
(** What the tests of user/usertests.c share: the loops, the messages, the calls
    that store into a variable, and what a test finds in its memory; and the tests
    about memory.

    A test runs in a child of its own, so the global buf is all zeros when it
    starts.  A loop without a bound takes fuel, one unit a round. *)

From S2P Require Import Prelude Numeral Bytes Memory CString Riscv State Syscall Uprog Ulib Uprintf Umalloc Utils.

(** * Loops *)

(** A loop that goes on with [inl] and stops with [inr]. *)
Fixpoint loopU {X R : Type} (fuel : nat) (body : X -> U (X + R)) (x : X) : U R :=
  match fuel with
  | O => OutOfFuel
  | S fuel' =>
      r ← body x;
      match r with inl x' => loopU fuel' body x' | inr a => mret a end
  end.

(** A loop over [l] that changes a variable. *)
Fixpoint foldU {A X : Type} (l : list A) (f : X -> A -> U X) (x : X) : U X :=
  match l with [] => mret x | a :: l' => x' ← f x a; foldU l' f x' end.

(** for(;;) ; *)
Definition spin {A} : U A := OutOfFuel.

(** * Memory *)

(** What a test finds: the fuel of its loops, the bytes that the stack holds in a
    variable it does not initialise, the array uninit, the stack pointer, the
    address of base in umalloc.c and the heap. *)
Record env := mkEnv {
  e_fuel : nat;
  e_stack : string -> list Z;
  e_uninit : list Z;
  e_sp : Z;
  e_base : Z;
  e_heap : heap }.
Definition stack_int (e : env) (x : string) : Z := fd_of 0 (e_stack e x).

Definition BUFSZ : Z := (MAXOPBLOCKS + 2) * BSIZE.
Definition buf : list Z := replicate (Z.to_nat BUFSZ) 0.

(** wait(&x), pipe(fds) and read(fd, b, n): the result and what is then in the
    variable. *)
Definition wait_to (x : Z) : U (Z * Z) :=
  '(r, bs) ← wait_status; mret (r, fd_of 0 (splice 0 bs (enc 4 x))).
Definition pipe_to (fds : list Z) : U answer :=
  '(r, bs) ← pipe; mret (r, splice 0 bs fds).
Definition read_to (fd n : Z) (b : list Z) : U answer :=
  '(r, bs) ← read fd n; mret (r, splice 0 bs b).

(** sbrk for the address it returns, and the address that reports a failure. *)
Definition sbrkp (n : Z) : U Z := a ← sbrk n; mret (u64 a).
Definition nobrk : Z := 0xffffffffffffffff.

(** Flags of open *)
Definition flags (l : list Z) : Z := foldr Z.lor 0 l.

(** close(open(path, mode)) *)
Definition close_open (path : string) (mode : Z) : U unit := fd ← open (chars path) mode; close fd;; mret tt.

(** * Messages *)

Definition str (s : list Z) : varg := VStr (Some s).

(** printf(msg), printf(msg); exit(1), and the latter with the name of the test in
    front *)
Definition say (msg : string) (args : list varg) : U unit := printf (chars msg ++ nl) args.
Definition die {A} (msg : string) (args : list varg) : U A := say msg args;; exit 1.
Definition fail {A} (s : list Z) (msg : string) : U A := printf (chars "%s: " ++ chars msg ++ nl) [str s];; exit 1.

(** [fail] for a message without a newline *)
Definition fail0 {A} (s : list Z) (msg : string) : U A := printf (chars "%s: " ++ chars msg) [str s];; exit 1.

(** What %s prints for the string at address [a] *)
Definition puts_at (fuel : nat) (a : Z) : U unit :=
  loopU fuel (fun a =>
    c ← load_at 1 a;
    if c =? 0 then mret (inr tt) else putc 1 c;; mret (inl (u64 (a + 1)))) a.

(** * Tests about memory: wild pointers in system calls (copyin to rwsbrk), sbrk,
    protection, and the arguments of exec *)

Module UtMem.
Section tests.
Context (e : env).

(** * Wild pointers *)

(** void copyin(char *s) *)
Definition copyin (s : list Z) : U unit :=
  forU [0x80000000; 0x3fffffe000; 0x3ffffff000; 0x4000000000; 0xffffffffffffffff] (fun addr =>
    fd ← open (chars "copyin1") (flags [O_CREATE; O_WRONLY]);
    whenU (fd <? 0) (die "open(copyin1) failed" []);;
    n ← raw SYS_write [RInt fd; RPtr addr; RInt 8192];
    whenU (n >=? 0) (die "write(fd, %p, 8192) returned %d, not -1" [VU64 addr; VInt n]);;
    close fd;;
    unlink (chars "copyin1");;
    n ← raw SYS_write [RInt 1; RPtr addr; RInt 8192];
    whenU (n >? 0) (die "write(1, %p, 8192) returned %d, not -1 or 0" [VU64 addr; VInt n]);;
    '(r, fds) ← pipe_to (e_stack e "fds");
    whenU (r <? 0) (die "pipe() failed" []);;
    n ← raw SYS_write [RInt (fd_of 1 fds); RPtr addr; RInt 8192];
    whenU (n >? 0) (die "write(pipe, %p, 8192) returned %d, not -1 or 0" [VU64 addr; VInt n]);;
    close (fd_of 0 fds);;
    close (fd_of 1 fds);;
    mret tt).

(** void copyout(char *s) *)
Definition copyout (s : list Z) : U unit :=
  forU [0; 0x80000000; 0x3fffffe000; 0x3ffffff000; 0x4000000000; 0xffffffffffffffff] (fun addr =>
    fd ← open (chars "README") 0;
    whenU (fd <? 0) (die "open(README) failed" []);;
    n ← raw SYS_read [RInt fd; RPtr addr; RInt 8192];
    whenU (n >? 0) (die "read(fd, %p, 8192) returned %d, not -1 or 0" [VU64 addr; VInt n]);;
    close fd;;
    '(r, fds) ← pipe_to (e_stack e "fds");
    whenU (r <? 0) (die "pipe() failed" []);;
    n ← write (fd_of 1 fds) (chars "x");
    whenU (negb (n =? 1)) (die "pipe write failed" []);;
    n ← raw SYS_read [RInt (fd_of 0 fds); RPtr addr; RInt 8192];
    whenU (n >? 0) (die "read(pipe, %p, 8192) returned %d, not -1 or 0" [VU64 addr; VInt n]);;
    close (fd_of 0 fds);;
    close (fd_of 1 fds);;
    mret tt).

(** void copyinstr1(char *s) *)
Definition copyinstr1 (s : list Z) : U unit :=
  forU [0x80000000; 0x3fffffe000; 0x3ffffff000; 0x4000000000; 0xffffffffffffffff] (fun addr =>
    fd ← raw SYS_open [RPtr addr; RInt (flags [O_CREATE; O_WRONLY])];
    whenU (fd >=? 0) (die "open(%p) returned %d, not -1" [VU64 addr; VInt fd])).

(** void copyinstr2(char *s) *)
Definition copyinstr2 (s : list Z) : U unit :=
  let b := replicate (Z.to_nat MAXPATH) 120 in
  ret ← unlink b;
  whenU (negb (ret =? -1)) (die "unlink(%s) returned %d, not -1" [str b; VInt ret]);;
  fd ← open b (flags [O_CREATE; O_WRONLY]);
  whenU (negb (fd =? -1)) (die "open(%s) returned %d, not -1" [str b; VInt fd]);;
  ret ← link b b;
  whenU (negb (ret =? -1)) (die "link(%s, %s) returned %d, not -1" [str b; str b; VInt ret]);;
  ret ← exec b [chars "xx"];
  whenU (negb (ret =? -1)) (die "exec(%s) returned %d, not -1" [str b; VInt fd]);;
  pid ← fork;
  whenU (pid <? 0) (die "fork failed" []);;
  whenU (pid =? 0)
    (let big := replicate (Z.to_nat PGSIZE) 120 in
     ret ← exec (chars "echo") [big; big; big];
     whenU (negb (ret =? -1)) (die "exec(echo, BIG) returned %d, not -1" [VInt fd]);;
     exit 747);;
  '(_, st) ← wait_to 0;
  whenU (negb (st =? 747)) (die "exec(echo, BIG) succeeded, should have failed" []).

(** void copyinstr3(char *s) *)
Definition copyinstr3 (s : list Z) : U unit :=
  sbrk 8192;;
  top ← sbrkp 0;
  whenU (negb (top mod PGSIZE =? 0)) (sbrk (PGSIZE - top mod PGSIZE);; mret tt);;
  top ← sbrkp 0;
  whenU (negb (top mod PGSIZE =? 0)) (die "oops" []);;
  let b := u64 (top - 1) in
  store_at 1 b 120;;
  ret ← raw SYS_unlink [RPtr b];
  whenU (negb (ret =? -1))
    (printf (chars "unlink(") [];; puts_at (e_fuel e) b;; die ") returned %d, not -1" [VInt ret]);;
  fd ← raw SYS_open [RPtr b; RInt (flags [O_CREATE; O_WRONLY])];
  whenU (negb (fd =? -1))
    (printf (chars "open(") [];; puts_at (e_fuel e) b;; die ") returned %d, not -1" [VInt fd]);;
  ret ← raw SYS_link [RPtr b; RPtr b];
  whenU (negb (ret =? -1))
    (printf (chars "link(") [];; puts_at (e_fuel e) b;; printf (chars ", ") [];; puts_at (e_fuel e) b;;
     die ") returned %d, not -1" [VInt ret]);;
  ret ← raw SYS_exec [RPtr b; RArr [RStr (chars "xx"); RPtr 0]];
  whenU (negb (ret =? -1))
    (printf (chars "exec(") [];; puts_at (e_fuel e) b;; die ") returned %d, not -1" [VInt fd]).

(** void rwsbrk(char *s) *)
Definition rwsbrk (s : list Z) : U unit :=
  a ← sbrkp 8192;
  whenU (a =? nobrk) (die "sbrk(rwsbrk) failed" []);;
  r ← sbrkp (-8192);
  whenU (r =? nobrk) (die "sbrk(rwsbrk) shrink failed" []);;
  fd ← open (chars "rwsbrk") (flags [O_CREATE; O_WRONLY]);
  whenU (fd <? 0) (die "open(rwsbrk) failed" []);;
  n ← raw SYS_write [RInt fd; RPtr (u64 (a + 4096)); RInt 1024];
  whenU (n >=? 0) (die "write(fd, %p, 1024) returned %d, not -1" [VU64 (u64 (a + 4096)); VInt n]);;
  close fd;;
  unlink (chars "rwsbrk");;
  fd ← open (chars "README") O_RDONLY;
  whenU (fd <? 0) (die "open(rwsbrk) failed" []);;
  n ← raw SYS_read [RInt fd; RPtr (u64 (a + 4096)); RInt 10];
  whenU (n >=? 0) (die "read(fd, %p, 10) returned %d, not -1" [VU64 (u64 (a + 4096)); VInt n]);;
  close fd;;
  exit 0.

(** * The size of the process *)

(** void mem(char *s) *)
Definition mem (s : list Z) : U unit :=
  pid ← fork;
  if pid =? 0 then
    '(m1, h) ← loopU (e_fuel e) (fun '(m1, h) =>
      '(m2, h) ← malloc (e_fuel e) (e_base e) 10001 h;
      if m2 =? 0 then mret (inr (m1, h))
      else mret (inl (m2, mkHeap (store 8 m2 m1 (h_mem h)) (h_freep h)))) (0, e_heap e);
    h ← loopU (e_fuel e) (fun '(m1, h) =>
      if m1 =? 0 then mret (inr h)
      else
        let m2 := load 8 m1 (h_mem h) in
        h ← free (e_fuel e) m1 h;
        mret (inl (m2, h))) (m1, h);
    '(m1, h) ← malloc (e_fuel e) (e_base e) (1024 * 20) h;
    whenU (m1 =? 0) (fail s "couldn't allocate mem?!!");;
    free (e_fuel e) m1 h;;
    exit 0
  else
    '(_, xstatus) ← wait_to (stack_int e "xstatus");
    if xstatus =? -1 then exit 0 else exit xstatus.

Definition TOOMUCH : Z := 1024 * 1024 * 1024.

(** void sbrkbasic(char *s) *)
Definition sbrkbasic (s : list Z) : U unit :=
  pid ← fork;
  whenU (pid <? 0) (die "fork failed in sbrkbasic" []);;
  whenU (pid =? 0)
    (a ← sbrkp TOOMUCH;
     whenU (a =? nobrk) (exit 0);;
     forU (seqZ 0 (TOOMUCH / 4096)) (fun k => store_at 1 (u64 (a + 4096 * k)) 99);;
     exit 1);;
  '(_, xstatus) ← wait_to (stack_int e "xstatus");
  whenU (xstatus =? 1) (fail s "too much memory allocated!");;
  a ← sbrkp 0;
  a ← foldU (seqZ 0 5000) (fun a i =>
    b ← sbrkp 1;
    whenU (negb (b =? a)) (die "%s: sbrk test failed %d %p %p" [str s; VInt i; VU64 a; VU64 b]);;
    store_at 1 b 1;;
    mret (u64 (b + 1))) a;
  pid ← fork;
  whenU (pid <? 0) (fail s "sbrk test fork failed");;
  sbrkp 1;;
  c ← sbrkp 1;
  whenU (negb (c =? u64 (a + 1))) (fail s "sbrk test failed post-fork");;
  whenU (pid =? 0) (exit 0);;
  '(_, xstatus) ← wait_to xstatus;
  exit xstatus.

Definition BIG : Z := 100 * 1024 * 1024.

(** for(char *pp = a; pp < eee; pp += 4096) *pp = 1; *)
Definition touch_pages (a eee : Z) : U unit :=
  forU (seqZ 0 ((eee - a + 4095) / 4096)) (fun k => store_at 1 (u64 (a + 4096 * k)) 1).

(** void sbrkmuch(char *s) *)
Definition sbrkmuch (s : list Z) : U unit :=
  oldbrk ← sbrkp 0;
  a ← sbrkp 0;
  let amt := u64 (BIG - a) in
  p ← sbrkp (i32 amt);
  whenU (negb (p =? a)) (fail s "sbrk test failed to grow big address space; enough phys mem?");;
  eee ← sbrkp 0;
  touch_pages a eee;;
  let lastaddr := BIG - 1 in
  store_at 1 lastaddr 99;;
  a ← sbrkp 0;
  c ← sbrkp (- PGSIZE);
  whenU (c =? nobrk) (fail s "sbrk could not deallocate");;
  c ← sbrkp 0;
  whenU (negb (c =? u64 (a - PGSIZE)))
    (die "%s: sbrk deallocation produced wrong address, a %p c %p" [str s; VU64 a; VU64 c]);;
  a ← sbrkp 0;
  c ← sbrkp PGSIZE;
  wrong ← (if negb (c =? a) then mret true else t ← sbrkp 0; mret (negb (t =? u64 (a + PGSIZE))));
  whenU wrong (die "%s: sbrk re-allocation failed, a %p c %p" [str s; VU64 a; VU64 c]);;
  v ← load_at 1 lastaddr;
  whenU (v =? 99) (fail s "sbrk de-allocation didn't really deallocate");;
  a ← sbrkp 0;
  t ← sbrkp 0;
  c ← sbrkp (i32 (- (t - oldbrk)));
  whenU (negb (c =? a)) (die "%s: sbrk downsize failed, a %p c %p" [str s; VU64 a; VU64 c]).

(** A child of sbrkfail that takes memory and waits to be killed *)
Definition sbrkfail_child (w : Z) : U unit :=
  t ← sbrkp 0;
  sbrk (i32 (u64 (BIG - t)));;
  write w (chars "x");;
  loopU (e_fuel e) (fun _ => sleep 1000;; mret (inl tt)) tt.

(** void sbrkfail(char *s) *)
Definition sbrkfail (s : list Z) : U unit :=
  '(r, fds) ← pipe_to (e_stack e "fds");
  whenU (negb (r =? 0)) (fail s "pipe() failed");;
  pids ← foldU (seqZ 0 10) (fun pids _ =>
    pid ← fork;
    whenU (pid =? 0) (sbrkfail_child (fd_of 1 fds));;
    whenU (negb (pid =? -1)) (read (fd_of 0 fds) 1;; mret tt);;
    mret (pids ++ [pid])) [];
  c ← sbrkp PGSIZE;
  forU pids (fun pid => whenU (negb (pid =? -1)) (kill pid;; wait;; mret tt));;
  whenU (c =? nobrk) (fail s "failed sbrk leaked memory");;
  pid ← fork;
  whenU (pid <? 0) (fail s "fork failed");;
  whenU (pid =? 0)
    (a ← sbrkp 0;
     sbrk (10 * BIG);;
     n ← foldU (seqZ 0 (10 * BIG / PGSIZE)) (fun n k =>
       v ← load_at 1 (u64 (a + PGSIZE * k));
       mret (i32 (n + v))) 0;
     die "%s: allocate a lot of memory succeeded %d" [str s; VInt n]);;
  '(_, xstatus) ← wait_to (stack_int e "xstatus");
  whenU (negb (xstatus =? -1) && negb (xstatus =? 2)) (exit 1).

(** void sbrkarg(char *s) *)
Definition sbrkarg (s : list Z) : U unit :=
  a ← sbrkp PGSIZE;
  fd ← open (chars "sbrk") (flags [O_CREATE; O_WRONLY]);
  unlink (chars "sbrk");;
  whenU (fd <? 0) (fail s "open sbrk failed");;
  n ← raw SYS_write [RInt fd; RPtr a; RInt PGSIZE];
  whenU (n <? 0) (fail s "write sbrk failed");;
  close fd;;
  a ← sbrkp PGSIZE;
  r ← raw SYS_pipe [RPtr a];
  whenU (negb (r =? 0)) (fail s "pipe() failed").

(** The three children of sbrkbugs: when the first returns from sbrk, the code it
    would run is gone *)
Definition sbrkbugs_child (child : U unit) : U unit :=
  pid ← fork;
  whenU (pid <? 0) (die "fork failed" []);;
  whenU (pid =? 0) child;;
  wait;;
  mret tt.

(** void sbrkbugs(char *s) *)
Definition sbrkbugs (s : list Z) : U unit :=
  sbrkbugs_child
    (t ← sbrkp 0;
     let sz := i32 t in
     sbrk (i32 (- sz));;
     exit 0);;
  sbrkbugs_child
    (t ← sbrkp 0;
     let sz := i32 t in
     sbrk (i32 (- (sz - 3500)));;
     exit 0);;
  sbrkbugs_child
    (t ← sbrkp 0;
     sbrk (i32 (u64 (10 * 4096 + 2048 - t)));;
     sbrk (-10);;
     exit 0);;
  exit 0.

(** void sbrklast(char *s) *)
Definition sbrklast (s : list Z) : U unit :=
  top ← sbrkp 0;
  whenU (negb (top mod 4096 =? 0)) (sbrk (4096 - top mod 4096);; mret tt);;
  sbrk 4096;;
  sbrk 10;;
  sbrk (-20);;
  top ← sbrkp 0;
  let p := u64 (top - 64) in
  store_at 1 p 120;;
  store_at 1 (u64 (p + 1)) 0;;
  fd ← raw SYS_open [RPtr p; RInt (flags [O_RDWR; O_CREATE])];
  raw SYS_write [RInt fd; RPtr p; RInt 1];;
  close fd;;
  fd ← raw SYS_open [RPtr p; RInt O_RDWR];
  store_at 1 p 0;;
  raw SYS_read [RInt fd; RPtr p; RInt 1];;
  c ← load_at 1 p;
  whenU (negb (c =? 120)) (exit 1).

(** void sbrk8000(char *s) *)
Definition sbrk8000 (s : list Z) : U unit :=
  sbrk (i32 0x80000004);;
  top ← sbrkp 0;
  v ← load_at 1 (u64 (top - 1));
  store_at 1 (u64 (top - 1)) (u8 (v + 1)).

(** * Protection *)

(** void kernmem(char *s) *)
Definition kernmem (s : list Z) : U unit :=
  forU ((fun k => KERNBASE + 50000 * k) <$> seqZ 0 (2000000 / 50000)) (fun a =>
    pid ← fork;
    whenU (pid <? 0) (fail s "fork failed");;
    whenU (pid =? 0)
      (v ← load_at 1 a;
       die "%s: oops could read %p = %x" [str s; VU64 a; VInt v]);;
    '(_, xstatus) ← wait_to (stack_int e "xstatus");
    whenU (negb (xstatus =? -1)) (exit 1)).

(** void MAXVAplus(char *s); the loop shifts MAXVA out of 64 bits *)
Definition MAXVAplus (s : list Z) : U unit :=
  loopU 65 (fun a =>
    if a =? 0 then mret (inr tt)
    else
      pid ← fork;
      whenU (pid <? 0) (fail s "fork failed");;
      whenU (pid =? 0)
        (store_at 1 a 99;;
         die "%s: oops wrote %p" [str s; VU64 a]);;
      '(_, xstatus) ← wait_to (stack_int e "xstatus");
      whenU (negb (xstatus =? -1)) (exit 1);;
      mret (inl (u64 (Z.shiftl a 1)))) MAXVA.

(** void validatetest(char *s) *)
Definition validatetest (s : list Z) : U unit :=
  let hi := 1100 * 1024 in
  forU ((fun k => PGSIZE * k) <$> seqZ 0 (hi / PGSIZE + 1)) (fun p =>
    r ← raw SYS_link [RStr (chars "nosuchfile"); RPtr p];
    whenU (negb (r =? -1)) (fail s "link should not succeed")).

(** void bsstest(char *s) *)
Definition bsstest (s : list Z) : U unit :=
  forU (take (Z.to_nat 10000) (e_uninit e)) (fun c => whenU (negb (c =? 0)) (fail s "bss test failed")).

(** void stacktest(char *s) *)
Definition stacktest (s : list Z) : U unit :=
  pid ← fork;
  if pid =? 0 then
    v ← load_at 1 (u64 (e_sp e - USERSTACK * PGSIZE));
    die "%s: stacktest: read below stack %d" [str s; VInt v]
  else if pid <? 0 then fail s "fork failed"
  else
    '(_, xstatus) ← wait_to (stack_int e "xstatus");
    if xstatus =? -1 then exit 0 else exit xstatus.

(** void nowrite(char *s) *)
Definition nowrite (s : list Z) : U unit :=
  foldU [0; 0x80000000; 0x3fffffe000; 0x3ffffff000; 0x4000000000; 0xffffffffffffffff] (fun xstatus addr =>
    pid ← fork;
    if pid =? 0 then
      store_at 4 addr 10;;
      say "%s: write to %p did not fail!" [str s; VU64 addr];;
      exit 0
    else if pid <? 0 then fail s "fork failed"
    else
      '(_, xstatus) ← wait_to xstatus;
      if xstatus =? 0 then exit 1 else mret xstatus) (stack_int e "xstatus");;
  exit 0.

(** * Arguments *)

(** void bigargtest(char *s) *)
Definition bigargtest (s : list Z) : U unit :=
  unlink (chars "bigarg-ok");;
  pid ← fork;
  if pid =? 0 then
    exec (chars "echo") (replicate (Z.to_nat (MAXARG - 1)) (replicate 399 32));;
    fd ← open (chars "bigarg-ok") O_CREATE;
    close fd;;
    exit 0
  else if pid <? 0 then fail s "bigargtest: fork failed"
  else
    '(_, xstatus) ← wait_to (stack_int e "xstatus");
    whenU (negb (xstatus =? 0)) (exit xstatus);;
    fd ← open (chars "bigarg-ok") 0;
    whenU (fd <? 0) (fail s "bigarg test failed!");;
    close fd;;
    mret tt.

(** void argptest(char *s) *)
Definition argptest (s : list Z) : U unit :=
  fd ← open (chars "init") O_RDONLY;
  whenU (fd <? 0) (fail s "open failed");;
  top ← sbrkp 0;
  raw SYS_read [RInt fd; RPtr (u64 (top - 1)); RInt (-1)];;
  close fd;;
  mret tt.

Definition big : Z := 0xeaeb0b5b00002f5e.

(** void pgbug(char *s) *)
Definition pgbug (s : list Z) : U unit :=
  raw SYS_exec [RPtr big; RArr [RPtr 0]];;
  raw SYS_pipe [RPtr big];;
  exit 0.

(** void badarg(char *s) *)
Definition badarg (s : list Z) : U unit :=
  forU (seqZ 0 50000) (fun _ =>
    raw SYS_exec [RStr (chars "echo"); RArr [RPtr 0xffffffff; RPtr 0]];; mret tt);;
  exit 0.

End tests.
End UtMem.
