(* ===== verification/UtFs.v ===== *)
(** The tests of user/usertests.c about files (open, read and write, truncation,
    shared descriptors, large files, running out of disk space or inodes) and about
    directories. *)

From S2P Require Import Prelude Numeral Bytes CString Riscv State Syscall Uprog Ulib Uprintf Umalloc Utils Utest.

Module UtFs.
Section tests.
Context (e : env).

(** * Truncation *)

(** void truncate1(char *s) *)
Definition truncate1 (s : list Z) : U unit :=
  unlink (chars "truncfile");;
  fd1 ← open (chars "truncfile") (flags [O_CREATE; O_WRONLY; O_TRUNC]);
  write fd1 (chars "abcd");;
  close fd1;;
  fd2 ← open (chars "truncfile") O_RDONLY;
  '(n, _) ← read fd2 32;
  whenU (negb (n =? 4)) (die "%s: read %d bytes, wanted 4" [str s; VInt n]);;
  fd1 ← open (chars "truncfile") (flags [O_WRONLY; O_TRUNC]);
  fd3 ← open (chars "truncfile") O_RDONLY;
  '(n, _) ← read fd3 32;
  whenU (negb (n =? 0))
    (say "aaa fd3=%d" [VInt fd3];; die "%s: read %d bytes, wanted 0" [str s; VInt n]);;
  '(n, _) ← read fd2 32;
  whenU (negb (n =? 0))
    (say "bbb fd2=%d" [VInt fd2];; die "%s: read %d bytes, wanted 0" [str s; VInt n]);;
  write fd1 (chars "abcdef");;
  '(n, _) ← read fd3 32;
  whenU (negb (n =? 6)) (die "%s: read %d bytes, wanted 6" [str s; VInt n]);;
  '(n, _) ← read fd2 32;
  whenU (negb (n =? 2)) (die "%s: read %d bytes, wanted 2" [str s; VInt n]);;
  unlink (chars "truncfile");;
  close fd1;;
  close fd2;;
  close fd3;;
  mret tt.

(** void truncate2(char *s) *)
Definition truncate2 (s : list Z) : U unit :=
  unlink (chars "truncfile");;
  fd1 ← open (chars "truncfile") (flags [O_CREATE; O_TRUNC; O_WRONLY]);
  write fd1 (chars "abcd");;
  fd2 ← open (chars "truncfile") (flags [O_TRUNC; O_WRONLY]);
  n ← write fd1 (chars "x");
  whenU (negb (n =? -1)) (die "%s: write returned %d, expected -1" [str s; VInt n]);;
  unlink (chars "truncfile");;
  close fd1;;
  close fd2;;
  mret tt.

(** void truncate3(char *s) *)
Definition truncate3 (s : list Z) : U unit :=
  close_open "truncfile" (flags [O_CREATE; O_TRUNC; O_WRONLY]);;
  pid ← fork;
  whenU (pid <? 0) (fail s "fork failed");;
  whenU (pid =? 0)
    (forU (seqZ 0 100) (fun _ =>
       fd ← open (chars "truncfile") O_WRONLY;
       whenU (fd <? 0) (fail s "open failed");;
       n ← write fd (chars "1234567890");
       whenU (negb (n =? 10)) (die "%s: write got %d, expected 10" [str s; VInt n]);;
       close fd;;
       fd ← open (chars "truncfile") O_RDONLY;
       read fd 32;;
       close fd;;
       mret tt);;
     exit 0);;
  forU (seqZ 0 150) (fun _ =>
    fd ← open (chars "truncfile") (flags [O_CREATE; O_WRONLY; O_TRUNC]);
    whenU (fd <? 0) (fail s "open failed");;
    n ← write fd (chars "xxx");
    whenU (negb (n =? 3)) (die "%s: write got %d, expected 3" [str s; VInt n]);;
    close fd;;
    mret tt);;
  '(_, xstatus) ← wait_to (stack_int e "xstatus");
  unlink (chars "truncfile");;
  exit xstatus.

(** * Simple file system tests *)

(** void opentest(char *s) *)
Definition opentest (s : list Z) : U unit :=
  fd ← open (chars "echo") 0;
  whenU (fd <? 0) (fail s "open echo failed!");;
  close fd;;
  fd ← open (chars "doesnotexist") 0;
  whenU (fd >=? 0) (fail s "open doesnotexist succeeded!").

(** void writetest(char *s) *)
Definition writetest (s : list Z) : U unit :=
  let N := 100 in
  let SZ := 10 in
  fd ← open (chars "small") (flags [O_CREATE; O_RDWR]);
  whenU (fd <? 0) (fail s "error: creat small failed!");;
  forU (seqZ 0 N) (fun i =>
    r ← write fd (chars "aaaaaaaaaa");
    whenU (negb (r =? SZ)) (die "%s: error: write aa %d new file failed" [str s; VInt i]);;
    r ← write fd (chars "bbbbbbbbbb");
    whenU (negb (r =? SZ)) (die "%s: error: write bb %d new file failed" [str s; VInt i]));;
  close fd;;
  fd ← open (chars "small") O_RDONLY;
  whenU (fd <? 0) (fail s "error: open small failed!");;
  '(i, _) ← read fd (N * SZ * 2);
  whenU (negb (i =? N * SZ * 2)) (fail s "read failed");;
  close fd;;
  r ← unlink (chars "small");
  whenU (r <? 0) (fail s "unlink small failed").

(** The first int of buf *)
Definition buf_int (b : list Z) : Z := fd_of 0 b.

(** The loop of writebig that reads the file back *)
Definition writebig_read (s : list Z) (fd : Z) (b : list Z) : U unit :=
  loopU (e_fuel e) (fun '(n, b) =>
    '(i, b) ← read_to fd BSIZE b;
    if i =? 0 then
      whenU (negb (n =? MAXFILE)) (printf (chars "%s: read only %d blocks from big") [str s; VInt n];; exit 1);;
      mret (inr tt)
    else
      whenU (negb (i =? BSIZE)) (die "%s: read failed %d" [str s; VInt i]);;
      whenU (negb (buf_int b =? n)) (die "%s: read content of block %d is %d" [str s; VInt n; VInt (buf_int b)]);;
      mret (inl (i32 (n + 1), b))) (0, b).

(** void writebig(char *s) *)
Definition writebig (s : list Z) : U unit :=
  fd ← open (chars "big") (flags [O_CREATE; O_RDWR]);
  whenU (fd <? 0) (fail s "error: creat big failed!");;
  b ← foldU (seqZ 0 MAXFILE) (fun b i =>
    let b := splice 0 (enc 4 i) b in
    r ← write fd (take (Z.to_nat BSIZE) b);
    whenU (negb (r =? BSIZE)) (die "%s: error: write big file failed i=%d" [str s; VInt i]);;
    mret b) buf;
  close fd;;
  fd ← open (chars "big") O_RDONLY;
  whenU (fd <? 0) (fail s "error: open big failed!");;
  writebig_read s fd b;;
  close fd;;
  r ← unlink (chars "big");
  whenU (r <? 0) (fail s "unlink big failed").

(** void createtest(char *s) *)
Definition createtest (s : list Z) : U unit :=
  let name i := [97; u8 (48 + i)] in
  forU (seqZ 0 52) (fun i =>
    fd ← open (name i) (flags [O_CREATE; O_RDWR]);
    close fd;;
    mret tt);;
  forU (seqZ 0 52) (fun i => unlink (name i);; mret tt).

(** * More file system tests *)

(** The number of bytes of [b] that are [c] *)
Definition occurs (c : Z) (b : list Z) : Z := Z.of_nat (length (List.filter (Z.eqb c) b)).

(** void sharedfd(char *s) *)
Definition sharedfd (s : list Z) : U unit :=
  let N := 1000 in
  let SZ := 10 in
  unlink (chars "sharedfd");;
  fd ← open (chars "sharedfd") (flags [O_CREATE; O_RDWR]);
  whenU (fd <? 0) (fail0 s "cannot open sharedfd for writing");;
  pid ← fork;
  let b := replicate (Z.to_nat SZ) (if pid =? 0 then 99 else 112) in
  forU (seqZ 0 N) (fun _ =>
    r ← write fd b;
    whenU (negb (r =? SZ)) (fail s "write sharedfd failed"));;
  (if pid =? 0 then exit 0
   else
     '(_, xstatus) ← wait_to (stack_int e "xstatus");
     whenU (negb (xstatus =? 0)) (exit xstatus));;
  close fd;;
  fd ← open (chars "sharedfd") 0;
  whenU (fd <? 0) (fail s "cannot open sharedfd for reading");;
  '(nc, np) ← loopU (e_fuel e) (fun '(b, nc, np) =>
    '(n, b) ← read_to fd SZ b;
    if n >? 0 then mret (inl (b, i32 (nc + occurs 99 b), i32 (np + occurs 112 b)))
    else mret (inr (nc, np))) (b, 0, 0);
  close fd;;
  unlink (chars "sharedfd");;
  if (nc =? N * SZ) && (np =? N * SZ) then exit 0
  else fail s "nc/np test fails".

(** The child [pi] of fourfiles *)
Definition fourfiles_child (s : list Z) (fname : list Z) (pi : Z) : U unit :=
  fd ← open fname (flags [O_CREATE; O_RDWR]);
  whenU (fd <? 0) (fail s "create failed");;
  let b := replicate 500 (u8 (48 + pi)) in
  forU (seqZ 0 12) (fun _ =>
    n ← write fd b;
    whenU (negb (n =? 500)) (die "write failed %d" [VInt n]));;
  exit 0.

(** void fourfiles(char *s) *)
Definition fourfiles (s : list Z) : U unit :=
  let names := [chars "f0"; chars "f1"; chars "f2"; chars "f3"] in
  forU (imap (fun i n => (Z.of_nat i, n)) names) (fun '(pi, fname) =>
    unlink fname;;
    pid ← fork;
    whenU (pid <? 0) (fail s "fork failed");;
    whenU (pid =? 0) (fourfiles_child s fname pi));;
  foldU names (fun xstatus _ =>
    '(_, xstatus) ← wait_to xstatus;
    whenU (negb (xstatus =? 0)) (exit xstatus);;
    mret xstatus) (stack_int e "xstatus");;
  foldU (imap (fun i n => (Z.of_nat i, n)) names) (fun b '(i, fname) =>
    fd ← open fname 0;
    '(b, total) ← loopU (e_fuel e) (fun '(b, total) =>
      '(n, b) ← read_to fd BUFSZ b;
      if n >? 0 then
        forU (take (Z.to_nat n) b) (fun c => whenU (negb (c =? 48 + i)) (fail s "wrong char"));;
        mret (inl (b, i32 (total + n)))
      else mret (inr (b, total))) (b, 0);
    close fd;;
    whenU (negb (total =? 12 * 500)) (die "wrong length %d" [VInt total]);;
    unlink fname;;
    mret b) buf;;
  mret tt.

(** void unlinkread(char *s) *)
Definition unlinkread (s : list Z) : U unit :=
  let SZ := 5 in
  fd ← open (chars "unlinkread") (flags [O_CREATE; O_RDWR]);
  whenU (fd <? 0) (fail s "create unlinkread failed");;
  write fd (chars "hello");;
  close fd;;
  fd ← open (chars "unlinkread") O_RDWR;
  whenU (fd <? 0) (fail s "open unlinkread failed");;
  r ← unlink (chars "unlinkread");
  whenU (negb (r =? 0)) (fail s "unlink unlinkread failed");;
  fd1 ← open (chars "unlinkread") (flags [O_CREATE; O_RDWR]);
  write fd1 (chars "yyy");;
  close fd1;;
  '(n, b) ← read_to fd BUFSZ buf;
  whenU (negb (n =? SZ)) (fail0 s "unlinkread read failed");;
  whenU (negb (chr b =? 104)) (fail s "unlinkread wrong data");;
  n ← write fd (take 10 b);
  whenU (negb (n =? 10)) (fail s "unlinkread write failed");;
  close fd;;
  unlink (chars "unlinkread");;
  mret tt.

(** void bigwrite(char *s); sz is 499 and then every 471 bytes *)
Definition bigwrite (s : list Z) : U unit :=
  unlink (chars "bigwrite");;
  forU ((fun k => 499 + 471 * k) <$> seqZ 0 (((MAXOPBLOCKS + 2) * BSIZE - 499 + 470) / 471)) (fun sz =>
    fd ← open (chars "bigwrite") (flags [O_CREATE; O_RDWR]);
    whenU (fd <? 0) (fail s "cannot create bigwrite");;
    forU (seqZ 0 2) (fun _ =>
      cc ← write fd (take (Z.to_nat sz) buf);
      whenU (negb (cc =? sz)) (die "%s: write(%d) ret %d" [str s; VInt sz; VInt cc]));;
    close fd;;
    unlink (chars "bigwrite");;
    mret tt).

(** The loop of bigfile that reads the file back: the total *)
Definition bigfile_read (s : list Z) (fd SZ : Z) (b : list Z) : U Z :=
  loopU (e_fuel e) (fun '(i, total, b) =>
    '(cc, b) ← read_to fd (SZ / 2) b;
    whenU (cc <? 0) (fail s "read bigfile failed");;
    if cc =? 0 then mret (inr total)
    else
      whenU (negb (cc =? SZ / 2)) (fail s "short read bigfile");;
      whenU (negb (chr b =? i ÷ 2) || negb (chr (drop (Z.to_nat (SZ / 2 - 1)) b) =? i ÷ 2))
        (fail s "read bigfile wrong data");;
      mret (inl (i32 (i + 1), i32 (total + cc), b))) (0, 0, b).

(** void bigfile(char *s) *)
Definition bigfile (s : list Z) : U unit :=
  let N := 20 in
  let SZ := 600 in
  unlink (chars "bigfile.dat");;
  fd ← open (chars "bigfile.dat") (flags [O_CREATE; O_RDWR]);
  whenU (fd <? 0) (fail0 s "cannot create bigfile");;
  b ← foldU (seqZ 0 N) (fun b i =>
    let b := splice 0 (replicate (Z.to_nat SZ) i) b in
    r ← write fd (take (Z.to_nat SZ) b);
    whenU (negb (r =? SZ)) (fail s "write bigfile failed");;
    mret b) buf;
  close fd;;
  fd ← open (chars "bigfile.dat") 0;
  whenU (fd <? 0) (fail s "cannot open bigfile");;
  total ← bigfile_read s fd SZ b;
  close fd;;
  whenU (negb (total =? N * SZ)) (fail s "read bigfile wrong total");;
  unlink (chars "bigfile.dat");;
  mret tt.

(** * Running out *)

(** The name of the file [nfiles] of fsfull *)
Definition fsfull_name (nfiles : Z) : list Z :=
  [102; u8 (48 + nfiles ÷ 1000); u8 (48 + Z.rem nfiles 1000 ÷ 100); u8 (48 + Z.rem nfiles 100 ÷ 10); u8 (48 + Z.rem nfiles 10)].

(** void fsfull(), which no table names *)
Definition fsfull : U unit :=
  say "fsfull test" [];;
  nfiles ← loopU (e_fuel e) (fun nfiles =>
    let name := fsfull_name nfiles in
    say "writing %s" [str name];;
    fd ← open name (flags [O_CREATE; O_RDWR]);
    if fd <? 0 then say "open %s failed" [str name];; mret (inr nfiles)
    else
      total ← loopU (e_fuel e) (fun total =>
        cc ← write fd (take (Z.to_nat BSIZE) buf);
        if cc <? BSIZE then mret (inr total) else mret (inl (i32 (total + cc)))) 0;
      say "wrote %d bytes" [VInt total];;
      close fd;;
      if total =? 0 then mret (inr nfiles) else mret (inl (i32 (nfiles + 1)))) 0;
  forU (rev (seqZ 0 (nfiles + 1))) (fun n => unlink (fsfull_name n);; mret tt);;
  say "fsfull test finished" [].

(** The child [ci] of manywrites *)
Definition manywrites_child (s : list Z) (ci : Z) : U unit :=
  let name := [98; u8 (97 + ci)] in
  unlink name;;
  forU (seqZ 0 30) (fun _ =>
    forU (seqZ 0 (ci + 1)) (fun _ =>
      fd ← open name (flags [O_CREATE; O_RDWR]);
      whenU (fd <? 0) (die "%s: cannot create %s" [str s; str name]);;
      cc ← write fd buf;
      whenU (negb (cc =? BUFSZ)) (die "%s: write(%d) ret %d" [str s; VInt BUFSZ; VInt cc]);;
      close fd;;
      mret tt);;
    unlink name;;
    mret tt);;
  unlink name;;
  exit 0.

(** void manywrites(char *s) *)
Definition manywrites (s : list Z) : U unit :=
  forU (seqZ 0 4) (fun ci =>
    pid ← fork;
    whenU (pid <? 0) (die "fork failed" []);;
    whenU (pid =? 0) (manywrites_child s ci));;
  forU (seqZ 0 4) (fun _ =>
    '(_, st) ← wait_to 0;
    whenU (negb (st =? 0)) (exit st));;
  exit 0.

(** void badwrite(char *s) *)
Definition badwrite (s : list Z) : U unit :=
  unlink (chars "junk");;
  forU (seqZ 0 600) (fun _ =>
    fd ← open (chars "junk") (flags [O_CREATE; O_WRONLY]);
    whenU (fd <? 0) (die "open junk failed" []);;
    raw SYS_write [RInt fd; RPtr 0xffffffffff; RInt 1];;
    close fd;;
    unlink (chars "junk");;
    mret tt);;
  fd ← open (chars "junk") (flags [O_CREATE; O_WRONLY]);
  whenU (fd <? 0) (die "open junk failed" []);;
  r ← write fd (chars "x");
  whenU (negb (r =? 1)) (die "write failed" []);;
  close fd;;
  unlink (chars "junk");;
  exit 0.

(** The names of diskfull and outofinodes *)
Definition big_name (i : Z) : list Z := chars "big" ++ [u8 (48 + i)].
Definition zz_name (i : Z) : list Z := chars "zz" ++ [u8 (48 + i / 32); u8 (48 + i mod 32)].

(** Create the files zz until one cannot be created *)
Definition create_zz (nzz : Z) : U unit :=
  loopU (S (Z.to_nat nzz)) (fun i =>
    if i <? nzz then
      unlink (zz_name i);;
      fd ← open (zz_name i) (flags [O_CREATE; O_RDWR; O_TRUNC]);
      if fd <? 0 then mret (inr tt) else close fd;; mret (inl (i + 1))
    else mret (inr tt)) 0.
Definition unlink_zz (nzz : Z) : U unit := forU (seqZ 0 nzz) (fun i => unlink (zz_name i);; mret tt).

(** Fill the file [fd] of diskfull: whether a write failed *)
Definition fill (fd : Z) : U bool :=
  loopU (S (Z.to_nat MAXFILE)) (fun i =>
    if i <? MAXFILE then
      r ← write fd (take (Z.to_nat BSIZE) (e_stack e "buf"));
      if negb (r =? BSIZE) then close fd;; mret (inr true) else mret (inl (i + 1))
    else mret (inr false)) 0.

(** void diskfull(char *s) *)
Definition diskfull (s : list Z) : U unit :=
  unlink (chars "diskfulldir");;
  loopU 80 (fun '(fi, done) =>
    if negb done && (48 + fi <? 127) then
      unlink (big_name fi);;
      fd ← open (big_name fi) (flags [O_CREATE; O_RDWR; O_TRUNC]);
      if fd <? 0 then
        say "%s: could not create file %s" [str s; str (big_name fi)];;
        mret (inr tt)
      else
        done ← fill fd;
        close fd;;
        mret (inl (fi + 1, done))
    else mret (inr tt)) (0, false);;
  create_zz 128;;
  r ← mkdir (chars "diskfulldir");
  whenU (r =? 0) (say "%s: mkdir(diskfulldir) unexpectedly succeeded!" [str s]);;
  unlink (chars "diskfulldir");;
  unlink_zz 128;;
  forU (seqZ 0 79) (fun i => unlink (big_name i);; mret tt).

(** void outofinodes(char *s) *)
Definition outofinodes (s : list Z) : U unit :=
  create_zz (32 * 32);;
  unlink_zz (32 * 32).

End tests.
End UtFs.

(** * Tests about directories: names, links, path names, and the transactions in
    which inodes are freed *)

Module UtDir.
Section tests.
Context (e : env).

(** * Inodes that are freed *)

(** void iputtest(char *s) *)
Definition iputtest (s : list Z) : U unit :=
  r ← mkdir (chars "iputdir");
  whenU (r <? 0) (fail s "mkdir failed");;
  r ← chdir (chars "iputdir");
  whenU (r <? 0) (fail s "chdir iputdir failed");;
  r ← unlink (chars "../iputdir");
  whenU (r <? 0) (fail s "unlink ../iputdir failed");;
  r ← chdir (chars "/");
  whenU (r <? 0) (fail s "chdir / failed").

(** void exitiputtest(char *s) *)
Definition exitiputtest (s : list Z) : U unit :=
  pid ← fork;
  whenU (pid <? 0) (fail s "fork failed");;
  whenU (pid =? 0)
    (r ← mkdir (chars "iputdir");
     whenU (r <? 0) (fail s "mkdir failed");;
     r ← chdir (chars "iputdir");
     whenU (r <? 0) (fail s "child chdir failed");;
     r ← unlink (chars "../iputdir");
     whenU (r <? 0) (fail s "unlink ../iputdir failed");;
     exit 0);;
  '(_, xstatus) ← wait_to (stack_int e "xstatus");
  exit xstatus.

(** void openiputtest(char *s) *)
Definition openiputtest (s : list Z) : U unit :=
  r ← mkdir (chars "oidir");
  whenU (r <? 0) (fail s "mkdir oidir failed");;
  pid ← fork;
  whenU (pid <? 0) (fail s "fork failed");;
  whenU (pid =? 0)
    (fd ← open (chars "oidir") O_RDWR;
     whenU (fd >=? 0) (fail s "open directory for write succeeded");;
     exit 0);;
  sleep 1;;
  r ← unlink (chars "oidir");
  whenU (negb (r =? 0)) (fail s "unlink failed");;
  '(_, xstatus) ← wait_to (stack_int e "xstatus");
  exit xstatus.

(** void iref(char *s) *)
Definition iref (s : list Z) : U unit :=
  forU (seqZ 0 (NINODE + 1)) (fun _ =>
    r ← mkdir (chars "irefd");
    whenU (negb (r =? 0)) (fail s "mkdir irefd failed");;
    r ← chdir (chars "irefd");
    whenU (negb (r =? 0)) (fail s "chdir irefd failed");;
    mkdir [];;
    link (chars "README") [];;
    fd ← open [] O_CREATE;
    whenU (fd >=? 0) (close fd;; mret tt);;
    fd ← open (chars "xx") O_CREATE;
    whenU (fd >=? 0) (close fd;; mret tt);;
    unlink (chars "xx");;
    mret tt);;
  forU (seqZ 0 (NINODE + 1)) (fun _ =>
    chdir (chars "..");;
    unlink (chars "irefd");;
    mret tt);;
  chdir (chars "/");;
  mret tt.

(** * Names and links *)

(** void dirtest(char *s) *)
Definition dirtest (s : list Z) : U unit :=
  r ← mkdir (chars "dir0");
  whenU (r <? 0) (fail s "mkdir failed");;
  r ← chdir (chars "dir0");
  whenU (r <? 0) (fail s "chdir dir0 failed");;
  r ← chdir (chars "..");
  whenU (r <? 0) (fail s "chdir .. failed");;
  r ← unlink (chars "dir0");
  whenU (r <? 0) (fail s "unlink dir0 failed").

(** The child [pi] of createdelete *)
Definition createdelete_child (s : list Z) (N pi : Z) : U unit :=
  let name i := [u8 (112 + pi); u8 (48 + i)] in
  forU (seqZ 0 N) (fun i =>
    fd ← open (name i) (flags [O_CREATE; O_RDWR]);
    whenU (fd <? 0) (fail s "create failed");;
    close fd;;
    whenU ((i >? 0) && (i mod 2 =? 0))
      (r ← unlink (name (i / 2));
       whenU (r <? 0) (fail s "unlink failed")));;
  exit 0.

(** void createdelete(char *s) *)
Definition createdelete (s : list Z) : U unit :=
  let N := 20 in
  let NCHILD := 4 in
  let name pi i := [u8 (112 + pi); u8 (48 + i)] in
  forU (seqZ 0 NCHILD) (fun pi =>
    pid ← fork;
    whenU (pid <? 0) (fail s "fork failed");;
    whenU (pid =? 0) (createdelete_child s N pi));;
  foldU (seqZ 0 NCHILD) (fun xstatus _ =>
    '(_, xstatus) ← wait_to xstatus;
    whenU (negb (xstatus =? 0)) (exit 1);;
    mret xstatus) (stack_int e "xstatus");;
  forU (seqZ 0 N) (fun i => forU (seqZ 0 NCHILD) (fun pi =>
    fd ← open (name pi i) 0;
    (if ((i =? 0) || (i >=? N / 2)) && (fd <? 0) then
       die "%s: oops createdelete %s didn't exist" [str s; str (name pi i)]
     else whenU ((i >=? 1) && (i <? N / 2) && (fd >=? 0))
       (die "%s: oops createdelete %s did exist" [str s; str (name pi i)]));;
    whenU (fd >=? 0) (close fd;; mret tt)));;
  forU (seqZ 0 N) (fun i => forU (seqZ 0 NCHILD) (fun pi => unlink (name pi i);; mret tt)).

(** void linktest(char *s) *)
Definition linktest (s : list Z) : U unit :=
  let SZ := 5 in
  unlink (chars "lf1");;
  unlink (chars "lf2");;
  fd ← open (chars "lf1") (flags [O_CREATE; O_RDWR]);
  whenU (fd <? 0) (fail s "create lf1 failed");;
  r ← write fd (chars "hello");
  whenU (negb (r =? SZ)) (fail s "write lf1 failed");;
  close fd;;
  r ← link (chars "lf1") (chars "lf2");
  whenU (r <? 0) (fail s "link lf1 lf2 failed");;
  unlink (chars "lf1");;
  r ← open (chars "lf1") 0;
  whenU (r >=? 0) (fail s "unlinked lf1 but it is still there!");;
  fd ← open (chars "lf2") 0;
  whenU (fd <? 0) (fail s "open lf2 failed");;
  '(r, _) ← read fd BUFSZ;
  whenU (negb (r =? SZ)) (fail s "read lf2 failed");;
  close fd;;
  r ← link (chars "lf2") (chars "lf2");
  whenU (r >=? 0) (fail s "link lf2 lf2 succeeded! oops");;
  unlink (chars "lf2");;
  r ← link (chars "lf2") (chars "lf1");
  whenU (r >=? 0) (fail s "link non-existent succeeded! oops");;
  r ← link (chars ".") (chars "lf1");
  whenU (r >=? 0) (fail s "link . lf1 succeeded! oops").

(** The name of the file [i] of concreate *)
Definition C_name (i : Z) : list Z := [67; u8 (48 + i)].

(** The first loop of concreate, for the file [i] *)
Definition concreate_make (i : Z) : U unit :=
  let file := C_name i in
  unlink file;;
  pid ← fork;
  (if negb (pid =? 0) && (i mod 3 =? 1) then link (chars "C0") file;; mret tt
   else if (pid =? 0) && (i mod 5 =? 1) then link (chars "C0") file;; mret tt
   else
     fd ← open file (flags [O_CREATE; O_RDWR]);
     whenU (fd <? 0) (die "concreate create %s failed" [str file]);;
     close fd;;
     mret tt);;
  if pid =? 0 then exit 0
  else
    '(_, xstatus) ← wait_to (stack_int e "xstatus");
    whenU (negb (xstatus =? 0)) (exit 1).

(** The loop of concreate that reads the directory: n after it; fa says which of
    the files it has seen *)
Definition concreate_list (s : list Z) (N fd : Z) : U Z :=
  loopU (e_fuel e) (fun '(de, fa, n) =>
    '(r, de) ← read_to fd 16 de;
    if r >? 0 then
      let name := drop 2 de in
      if get 2 0 de =? 0 then mret (inl (de, fa, n))
      else if (chr name =? 67) && (chr (drop 2 name) =? 0) then
        let i := chr (drop 1 name) - 48 in
        whenU ((i <? 0) || (i >=? N)) (die "%s: concreate weird file %s" [str s; str name]);;
        whenU (negb (chr (drop (Z.to_nat i) fa) =? 0)) (die "%s: concreate duplicate file %s" [str s; str name]);;
        mret (inl (de, <[Z.to_nat i := 1]> fa, i32 (n + 1)))
      else mret (inl (de, fa, n))
    else mret (inr n)) (e_stack e "de", replicate (Z.to_nat N) 0, 0).

(** The last loop of concreate, for the file [i] *)
Definition concreate_race (s : list Z) (i : Z) : U unit :=
  let file := C_name i in
  pid ← fork;
  whenU (pid <? 0) (fail s "fork failed");;
  (if ((i mod 3 =? 0) && (pid =? 0)) || ((i mod 3 =? 1) && negb (pid =? 0)) then
     forU (seqZ 0 6) (fun _ => fd ← open file 0; close fd;; mret tt)
   else
     forU (seqZ 0 6) (fun _ => unlink file;; mret tt));;
  if pid =? 0 then exit 0 else wait;; mret tt.

(** void concreate(char *s) *)
Definition concreate (s : list Z) : U unit :=
  let N := 40 in
  forU (seqZ 0 N) concreate_make;;
  fd ← open (chars ".") 0;
  n ← concreate_list s N fd;
  close fd;;
  whenU (negb (n =? N)) (fail s "concreate not enough files in directory listing");;
  forU (seqZ 0 N) (concreate_race s).

(** void linkunlink(char *s) *)
Definition linkunlink (s : list Z) : U unit :=
  unlink (chars "x");;
  pid ← fork;
  whenU (pid <? 0) (fail s "fork failed");;
  foldU (seqZ 0 100) (fun x _ =>
    let x := u32 (x * 1103515245 + 12345) in
    (if x mod 3 =? 0 then close_open "x" (flags [O_RDWR; O_CREATE])
     else if x mod 3 =? 1 then link (chars "cat") (chars "x");; mret tt
     else unlink (chars "x");; mret tt);;
    mret x) (if negb (pid =? 0) then 1 else 97);;
  if negb (pid =? 0) then wait;; mret tt else exit 0.

(** * Path names *)

(** The first part of subdir: make the directories and files *)
Definition subdir_make (s : list Z) : U unit :=
  unlink (chars "ff");;
  r ← mkdir (chars "dd");
  whenU (negb (r =? 0)) (fail s "mkdir dd failed");;
  fd ← open (chars "dd/ff") (flags [O_CREATE; O_RDWR]);
  whenU (fd <? 0) (fail s "create dd/ff failed");;
  write fd (chars "ff");;
  close fd;;
  r ← unlink (chars "dd");
  whenU (r >=? 0) (fail s "unlink dd (non-empty dir) succeeded!");;
  r ← mkdir (chars "/dd/dd");
  whenU (negb (r =? 0)) (fail s "subdir mkdir dd/dd failed");;
  fd ← open (chars "dd/dd/ff") (flags [O_CREATE; O_RDWR]);
  whenU (fd <? 0) (fail s "create dd/dd/ff failed");;
  write fd (chars "FF");;
  close fd;;
  fd ← open (chars "dd/dd/../ff") 0;
  whenU (fd <? 0) (fail s "open dd/dd/../ff failed");;
  '(cc, b) ← read_to fd BUFSZ buf;
  whenU (negb (cc =? 2) || negb (chr b =? 102)) (fail s "dd/dd/../ff wrong content");;
  close fd;;
  r ← link (chars "dd/dd/ff") (chars "dd/dd/ffff");
  whenU (negb (r =? 0)) (fail s "link dd/dd/ff dd/dd/ffff failed");;
  r ← unlink (chars "dd/dd/ff");
  whenU (negb (r =? 0)) (fail s "unlink dd/dd/ff failed");;
  r ← open (chars "dd/dd/ff") O_RDONLY;
  whenU (r >=? 0) (fail s "open (unlinked) dd/dd/ff succeeded").

(** The second part: paths with .. *)
Definition subdir_walk (s : list Z) : U unit :=
  r ← chdir (chars "dd");
  whenU (negb (r =? 0)) (fail s "chdir dd failed");;
  r ← chdir (chars "dd/../../dd");
  whenU (negb (r =? 0)) (fail s "chdir dd/../../dd failed");;
  r ← chdir (chars "dd/../../../dd");
  whenU (negb (r =? 0)) (fail s "chdir dd/../../../dd failed");;
  r ← chdir (chars "./..");
  whenU (negb (r =? 0)) (fail s "chdir ./.. failed");;
  fd ← open (chars "dd/dd/ffff") 0;
  whenU (fd <? 0) (fail s "open dd/dd/ffff failed");;
  '(r, _) ← read fd BUFSZ;
  whenU (negb (r =? 2)) (fail s "read dd/dd/ffff wrong len");;
  close fd;;
  r ← open (chars "dd/dd/ff") O_RDONLY;
  whenU (r >=? 0) (fail s "open (unlinked) dd/dd/ff succeeded!").

(** The third part: calls that must fail *)
Definition subdir_refuse (s : list Z) : U unit :=
  r ← open (chars "dd/ff/ff") (flags [O_CREATE; O_RDWR]);
  whenU (r >=? 0) (fail s "create dd/ff/ff succeeded!");;
  r ← open (chars "dd/xx/ff") (flags [O_CREATE; O_RDWR]);
  whenU (r >=? 0) (fail s "create dd/xx/ff succeeded!");;
  r ← open (chars "dd") O_CREATE;
  whenU (r >=? 0) (fail s "create dd succeeded!");;
  r ← open (chars "dd") O_RDWR;
  whenU (r >=? 0) (fail s "open dd rdwr succeeded!");;
  r ← open (chars "dd") O_WRONLY;
  whenU (r >=? 0) (fail s "open dd wronly succeeded!");;
  r ← link (chars "dd/ff/ff") (chars "dd/dd/xx");
  whenU (r =? 0) (fail s "link dd/ff/ff dd/dd/xx succeeded!");;
  r ← link (chars "dd/xx/ff") (chars "dd/dd/xx");
  whenU (r =? 0) (fail s "link dd/xx/ff dd/dd/xx succeeded!");;
  r ← link (chars "dd/ff") (chars "dd/dd/ffff");
  whenU (r =? 0) (fail s "link dd/ff dd/dd/ffff succeeded!");;
  r ← mkdir (chars "dd/ff/ff");
  whenU (r =? 0) (fail s "mkdir dd/ff/ff succeeded!");;
  r ← mkdir (chars "dd/xx/ff");
  whenU (r =? 0) (fail s "mkdir dd/xx/ff succeeded!");;
  r ← mkdir (chars "dd/dd/ffff");
  whenU (r =? 0) (fail s "mkdir dd/dd/ffff succeeded!");;
  r ← unlink (chars "dd/xx/ff");
  whenU (r =? 0) (fail s "unlink dd/xx/ff succeeded!");;
  r ← unlink (chars "dd/ff/ff");
  whenU (r =? 0) (fail s "unlink dd/ff/ff succeeded!");;
  r ← chdir (chars "dd/ff");
  whenU (r =? 0) (fail s "chdir dd/ff succeeded!");;
  r ← chdir (chars "dd/xx");
  whenU (r =? 0) (fail s "chdir dd/xx succeeded!").

(** The last part: remove everything *)
Definition subdir_remove (s : list Z) : U unit :=
  r ← unlink (chars "dd/dd/ffff");
  whenU (negb (r =? 0)) (fail s "unlink dd/dd/ff failed");;
  r ← unlink (chars "dd/ff");
  whenU (negb (r =? 0)) (fail s "unlink dd/ff failed");;
  r ← unlink (chars "dd");
  whenU (r =? 0) (fail s "unlink non-empty dd succeeded!");;
  r ← unlink (chars "dd/dd");
  whenU (r <? 0) (fail s "unlink dd/dd failed");;
  r ← unlink (chars "dd");
  whenU (r <? 0) (fail s "unlink dd failed").

(** void subdir(char *s) *)
Definition subdir (s : list Z) : U unit :=
  subdir_make s;;
  subdir_walk s;;
  subdir_refuse s;;
  subdir_remove s.

(** void fourteen(char *s) *)
Definition fourteen (s : list Z) : U unit :=
  r ← mkdir (chars "12345678901234");
  whenU (negb (r =? 0)) (fail s "mkdir 12345678901234 failed");;
  r ← mkdir (chars "12345678901234/123456789012345");
  whenU (negb (r =? 0)) (fail s "mkdir 12345678901234/123456789012345 failed");;
  fd ← open (chars "123456789012345/123456789012345/123456789012345") O_CREATE;
  whenU (fd <? 0) (fail s "create 123456789012345/123456789012345/123456789012345 failed");;
  close fd;;
  fd ← open (chars "12345678901234/12345678901234/12345678901234") 0;
  whenU (fd <? 0) (fail s "open 12345678901234/12345678901234/12345678901234 failed");;
  close fd;;
  r ← mkdir (chars "12345678901234/12345678901234");
  whenU (r =? 0) (fail s "mkdir 12345678901234/12345678901234 succeeded!");;
  r ← mkdir (chars "123456789012345/12345678901234");
  whenU (r =? 0) (fail s "mkdir 12345678901234/123456789012345 succeeded!");;
  unlink (chars "123456789012345/12345678901234");;
  unlink (chars "12345678901234/12345678901234");;
  unlink (chars "12345678901234/12345678901234/12345678901234");;
  unlink (chars "123456789012345/123456789012345/123456789012345");;
  unlink (chars "12345678901234/123456789012345");;
  unlink (chars "12345678901234");;
  mret tt.

(** void rmdot(char *s) *)
Definition rmdot (s : list Z) : U unit :=
  r ← mkdir (chars "dots");
  whenU (negb (r =? 0)) (fail s "mkdir dots failed");;
  r ← chdir (chars "dots");
  whenU (negb (r =? 0)) (fail s "chdir dots failed");;
  r ← unlink (chars ".");
  whenU (r =? 0) (fail s "rm . worked!");;
  r ← unlink (chars "..");
  whenU (r =? 0) (fail s "rm .. worked!");;
  r ← chdir (chars "/");
  whenU (negb (r =? 0)) (fail s "chdir / failed");;
  r ← unlink (chars "dots/.");
  whenU (r =? 0) (fail s "unlink dots/. worked!");;
  r ← unlink (chars "dots/..");
  whenU (r =? 0) (fail s "unlink dots/.. worked!");;
  r ← unlink (chars "dots");
  whenU (negb (r =? 0)) (fail s "unlink dots failed!").

(** void dirfile(char *s) *)
Definition dirfile (s : list Z) : U unit :=
  fd ← open (chars "dirfile") O_CREATE;
  whenU (fd <? 0) (fail s "create dirfile failed");;
  close fd;;
  r ← chdir (chars "dirfile");
  whenU (r =? 0) (fail s "chdir dirfile succeeded!");;
  fd ← open (chars "dirfile/xx") 0;
  whenU (fd >=? 0) (fail s "create dirfile/xx succeeded!");;
  fd ← open (chars "dirfile/xx") O_CREATE;
  whenU (fd >=? 0) (fail s "create dirfile/xx succeeded!");;
  r ← mkdir (chars "dirfile/xx");
  whenU (r =? 0) (fail s "mkdir dirfile/xx succeeded!");;
  r ← unlink (chars "dirfile/xx");
  whenU (r =? 0) (fail s "unlink dirfile/xx succeeded!");;
  r ← link (chars "README") (chars "dirfile/xx");
  whenU (r =? 0) (fail s "link to dirfile/xx succeeded!");;
  r ← unlink (chars "dirfile");
  whenU (negb (r =? 0)) (fail s "unlink dirfile failed!");;
  fd ← open (chars ".") O_RDWR;
  whenU (fd >=? 0) (fail s "open . for writing succeeded!");;
  fd ← open (chars ".") 0;
  r ← write fd (chars "x");
  whenU (r >? 0) (fail s "write . succeeded!");;
  close fd;;
  mret tt.

(** void bigdir(char *s) *)
Definition bigdir (s : list Z) : U unit :=
  let name i := [120; u8 (48 + i / 64); u8 (48 + i mod 64)] in
  unlink (chars "bd");;
  fd ← open (chars "bd") O_CREATE;
  whenU (fd <? 0) (fail s "bigdir create failed");;
  close fd;;
  forU (seqZ 0 500) (fun i =>
    r ← link (chars "bd") (name i);
    whenU (negb (r =? 0)) (die "%s: bigdir i=%d link(bd, %s) failed" [str s; VInt i; str (name i)]));;
  unlink (chars "bd");;
  forU (seqZ 0 500) (fun i =>
    r ← unlink (name i);
    whenU (negb (r =? 0)) (fail0 s "bigdir unlink failed")).

End tests.
End UtDir.
