(* ===== verification/Usertests.v ===== *)
(** user/usertests.c: the tests about processes, the tables of tests, and the programs
    that run them. *)

From S2P Require Import Prelude Numeral Bytes CString Riscv State Syscall Uprog Ulib Uprintf Umalloc Utils Utest UtFs.

(** * Tests about processes: exec, pipes, fork, wait, exit and kill *)

Module UtProc.
Section tests.
Context (e : env).

(** * exec and pipes *)

(** void exectest(char *s) *)
Definition exectest (s : list Z) : U unit :=
  unlink (chars "echo-ok");;
  pid ← fork;
  whenU (pid <? 0) (fail s "fork failed");;
  whenU (pid =? 0)
    (close 1;;
     fd ← open (chars "echo-ok") (flags [O_CREATE; O_WRONLY]);
     whenU (fd <? 0) (fail s "create failed");;
     whenU (negb (fd =? 1)) (fail s "wrong fd");;
     r ← exec (chars "echo") [chars "echo"; chars "OK"];
     whenU (r <? 0) (fail s "exec echo failed"));;
  '(r, xstatus) ← wait_to (stack_int e "xstatus");
  whenU (negb (r =? pid)) (say "%s: wait failed!" [str s]);;
  whenU (negb (xstatus =? 0)) (exit xstatus);;
  fd ← open (chars "echo-ok") O_RDONLY;
  whenU (fd <? 0) (fail s "open failed");;
  '(r, b) ← read_to fd 2 (e_stack e "buf");
  whenU (negb (r =? 2)) (fail s "read failed");;
  unlink (chars "echo-ok");;
  if (chr b =? 79) && (chr (drop 1 b) =? 75) then exit 0 else fail s "wrong output".

Definition N : Z := 5.
Definition SZ : Z := 1033.

(** The SZ bytes that the child of pipe1 puts in buf, the first of them seq *)
Definition pipe1_fill (seq : Z) : list Z := (fun i => u8 (seq + i)) <$> seqZ 0 SZ.

(** A round of the child of pipe1, on seq and buf *)
Definition pipe1_round (s : list Z) (w : Z) (x : Z * list Z) : U (Z * list Z) :=
  let '(seq, b) := x in
  let b := splice 0 (pipe1_fill seq) b in
  r ← write w (take (Z.to_nat SZ) b);
  whenU (negb (r =? SZ)) (fail s "pipe1 oops 1");;
  mret (seq + SZ, b).

(** The child of pipe1 *)
Definition pipe1_child (s : list Z) (w : Z) : U unit :=
  foldU (seqZ 0 N) (fun x _ => pipe1_round s w x) (0, buf);;
  exit 0.

(** for(i = 0; i < n; i++): whether the bytes are seq, seq + 1, ... *)
Fixpoint pipe1_check (bs : list Z) (seq : Z) : bool :=
  match bs with
  | [] => true
  | b :: bs' => (Z.land b 0xff =? Z.land seq 0xff) && pipe1_check bs' (seq + 1)
  end.

(** The loop of the parent of pipe1: the total, or None after the wrong byte *)
Fixpoint pipe1_read (fuel : nat) (s : list Z) (r : Z) (b : list Z) (seq cc total : Z) : U (option Z) :=
  match fuel with
  | O => OutOfFuel
  | S fuel' =>
      '(n, b) ← read_to r cc b;
      if n >? 0 then
        if pipe1_check (take (Z.to_nat n) b) seq then
          let cc := cc * 2 in
          let cc := if cc >? BUFSZ then BUFSZ else cc in
          pipe1_read fuel' s r b (seq + n) cc (i32 (total + n))
        else say "%s: pipe1 oops 2" [str s];; mret None
      else mret (Some total)
  end.

(** The parent of pipe1 *)
Definition pipe1_parent (s : list Z) (fds : list Z) : U unit :=
  close (fd_of 1 fds);;
  t ← pipe1_read (e_fuel e) s (fd_of 0 fds) buf 0 1 0;
  match t with
  | None => mret tt
  | Some total =>
      whenU (negb (total =? N * SZ)) (die "%s: pipe1 oops 3 total %d" [str s; VInt total]);;
      close (fd_of 0 fds);;
      '(_, xstatus) ← wait_to (stack_int e "xstatus");
      exit xstatus
  end.

(** void pipe1(char *s) *)
Definition pipe1 (s : list Z) : U unit :=
  '(r, fds) ← pipe_to (e_stack e "fds");
  whenU (negb (r =? 0)) (fail s "pipe() failed");;
  pid ← fork;
  if pid =? 0 then close (fd_of 0 fds);; pipe1_child s (fd_of 1 fds)
  else if pid >? 0 then pipe1_parent s fds
  else fail s "fork() failed".

(** * kill and wait *)

(** void killstatus(char *s) *)
Definition killstatus (s : list Z) : U unit :=
  foldU (seqZ 0 100) (fun xst _ =>
    pid1 ← fork;
    whenU (pid1 <? 0) (fail s "fork failed");;
    whenU (pid1 =? 0) (loopU (e_fuel e) (fun _ => getpid;; mret (inl tt)) tt);;
    sleep 1;;
    kill pid1;;
    '(_, xst) ← wait_to xst;
    whenU (negb (xst =? -1)) (fail s "status should be -1");;
    mret xst) (stack_int e "xst");;
  exit 0.

(** void preempt(char *s) *)
Definition preempt (s : list Z) : U unit :=
  pid1 ← fork;
  whenU (pid1 <? 0) (fail0 s "fork failed");;
  whenU (pid1 =? 0) spin;;
  pid2 ← fork;
  whenU (pid2 <? 0) (fail s "fork failed");;
  whenU (pid2 =? 0) spin;;
  '(_, pfds) ← pipe_to (e_stack e "pfds");
  pid3 ← fork;
  whenU (pid3 <? 0) (fail s "fork failed");;
  whenU (pid3 =? 0)
    (close (fd_of 0 pfds);;
     r ← write (fd_of 1 pfds) (chars "x");
     whenU (negb (r =? 1)) (printf (chars "%s: preempt write error") [str s]);;
     close (fd_of 1 pfds);;
     spin);;
  close (fd_of 1 pfds);;
  '(r, _) ← read (fd_of 0 pfds) BUFSZ;
  if negb (r =? 1) then printf (chars "%s: preempt read error") [str s]
  else
    close (fd_of 0 pfds);;
    printf (chars "kill... ") [];;
    kill pid1;;
    kill pid2;;
    kill pid3;;
    printf (chars "wait... ") [];;
    wait;;
    wait;;
    wait;;
    mret tt.

(** void exitwait(char *s) *)
Definition exitwait (s : list Z) : U unit :=
  forU (seqZ 0 100) (fun i =>
    pid ← fork;
    whenU (pid <? 0) (fail s "fork failed");;
    if negb (pid =? 0) then
      '(r, xstate) ← wait_to (stack_int e "xstate");
      whenU (negb (r =? pid)) (fail s "wait wrong pid");;
      whenU (negb (i =? xstate)) (fail s "wait wrong exit status")
    else exit i).

(** void reparent(char *s) *)
Definition reparent (s : list Z) : U unit :=
  master_pid ← getpid;
  forU (seqZ 0 200) (fun _ =>
    pid ← fork;
    whenU (pid <? 0) (fail s "fork failed");;
    if negb (pid =? 0) then
      r ← wait;
      whenU (negb (r =? pid)) (fail s "wait wrong pid")
    else
      pid2 ← fork;
      whenU (pid2 <? 0) (kill master_pid;; exit 1);;
      exit 0);;
  exit 0.

(** void twochildren(char *s) *)
Definition twochildren (s : list Z) : U unit :=
  forU (seqZ 0 1000) (fun _ =>
    pid1 ← fork;
    whenU (pid1 <? 0) (fail s "fork failed");;
    if pid1 =? 0 then exit 0
    else
      pid2 ← fork;
      whenU (pid2 <? 0) (fail s "fork failed");;
      if pid2 =? 0 then exit 0 else wait;; wait;; mret tt).

(** * fork *)

(** void forkfork(char *s) *)
Definition forkfork (s : list Z) : U unit :=
  forU (seqZ 0 2) (fun _ =>
    pid ← fork;
    whenU (pid <? 0) (fail0 s "fork failed");;
    whenU (pid =? 0)
      (forU (seqZ 0 200) (fun _ =>
         pid1 ← fork;
         whenU (pid1 <? 0) (exit 1);;
         whenU (pid1 =? 0) (exit 0);;
         wait;;
         mret tt);;
       exit 0));;
  foldU (seqZ 0 2) (fun xstatus _ =>
    '(_, xstatus) ← wait_to xstatus;
    whenU (negb (xstatus =? 0)) (fail0 s "fork in child failed");;
    mret xstatus) (stack_int e "xstatus");;
  mret tt.

(** void forkforkfork(char *s) *)
Definition forkforkfork (s : list Z) : U unit :=
  unlink (chars "stopforking");;
  pid ← fork;
  whenU (pid <? 0) (fail0 s "fork failed");;
  whenU (pid =? 0)
    (loopU (e_fuel e) (fun _ =>
       fd ← open (chars "stopforking") 0;
       whenU (fd >=? 0) (exit 0);;
       r ← fork;
       whenU (r <? 0) (close_open "stopforking" (flags [O_CREATE; O_RDWR]));;
       mret (inl tt)) tt);;
  sleep 20;;
  close_open "stopforking" (flags [O_CREATE; O_RDWR]);;
  wait;;
  sleep 10;;
  mret tt.

(** void reparent2(char *s) *)
Definition reparent2 (s : list Z) : U unit :=
  forU (seqZ 0 800) (fun _ =>
    pid1 ← fork;
    whenU (pid1 <? 0) (die "fork failed" []);;
    whenU (pid1 =? 0) (fork;; fork;; exit 0);;
    wait;;
    mret tt);;
  exit 0.

(** The loop of forktest that forks: n after it *)
Definition forktest_fork (N : Z) : U Z :=
  loopU (S (Z.to_nat N)) (fun n =>
    if n <? N then
      pid ← fork;
      if pid <? 0 then mret (inr n)
      else
        whenU (pid =? 0) (exit 0);;
        mret (inl (n + 1))
    else mret (inr n)) 0.

(** void forktest(char *s) *)
Definition forktest (s : list Z) : U unit :=
  let N := 1000 in
  n ← forktest_fork N;
  whenU (n =? 0) (fail s "no fork at all!");;
  whenU (n =? N) (fail s "fork claimed to work 1000 times!");;
  forU (seqZ 0 n) (fun _ =>
    r ← wait;
    whenU (r <? 0) (fail s "wait stopped early"));;
  r ← wait;
  whenU (negb (r =? -1)) (fail s "wait got too many").

(** void execout(char *s) *)
Definition execout (s : list Z) : U unit :=
  forU (seqZ 0 15) (fun avail =>
    pid ← fork;
    if pid <? 0 then die "fork failed" []
    else if pid =? 0 then
      loopU (e_fuel e) (fun _ =>
        a ← sbrkp 4096;
        if a =? nobrk then mret (inr tt)
        else
          store_at 1 (u64 (a + 4096 - 1)) 1;;
          mret (inl tt)) tt;;
      forU (seqZ 0 avail) (fun _ => sbrk (-4096);; mret tt);;
      close 1;;
      exec (chars "echo") [chars "echo"; chars "x"];;
      exit 0
    else wait;; mret tt);;
  exit 0.

End tests.
End UtProc.

(** * The tables, and the programs that run them *)

Module Usertests.

(** struct test *)
Record test := mkTest { t_f : list Z -> U unit; t_s : list Z }.

Section drive.
Context (e : env).

(** quicktests, without the entry that ends it *)
Definition quicktests : list test := [
  mkTest (UtMem.copyin e) (chars "copyin");
  mkTest (UtMem.copyout e) (chars "copyout");
  mkTest UtMem.copyinstr1 (chars "copyinstr1");
  mkTest UtMem.copyinstr2 (chars "copyinstr2");
  mkTest (UtMem.copyinstr3 e) (chars "copyinstr3");
  mkTest UtMem.rwsbrk (chars "rwsbrk");
  mkTest UtFs.truncate1 (chars "truncate1");
  mkTest UtFs.truncate2 (chars "truncate2");
  mkTest (UtFs.truncate3 e) (chars "truncate3");
  mkTest (UtDir.openiputtest e) (chars "openiput");
  mkTest (UtDir.exitiputtest e) (chars "exitiput");
  mkTest UtDir.iputtest (chars "iput");
  mkTest UtFs.opentest (chars "opentest");
  mkTest UtFs.writetest (chars "writetest");
  mkTest (UtFs.writebig e) (chars "writebig");
  mkTest UtFs.createtest (chars "createtest");
  mkTest UtDir.dirtest (chars "dirtest");
  mkTest (UtProc.exectest e) (chars "exectest");
  mkTest (UtProc.pipe1 e) (chars "pipe1");
  mkTest (UtProc.killstatus e) (chars "killstatus");
  mkTest (UtProc.preempt e) (chars "preempt");
  mkTest (UtProc.exitwait e) (chars "exitwait");
  mkTest UtProc.reparent (chars "reparent");
  mkTest UtProc.twochildren (chars "twochildren");
  mkTest (UtProc.forkfork e) (chars "forkfork");
  mkTest (UtProc.forkforkfork e) (chars "forkforkfork");
  mkTest UtProc.reparent2 (chars "reparent2");
  mkTest (UtMem.mem e) (chars "mem");
  mkTest (UtFs.sharedfd e) (chars "sharedfd");
  mkTest (UtFs.fourfiles e) (chars "fourfiles");
  mkTest (UtDir.createdelete e) (chars "createdelete");
  mkTest UtFs.unlinkread (chars "unlinkread");
  mkTest UtDir.linktest (chars "linktest");
  mkTest (UtDir.concreate e) (chars "concreate");
  mkTest UtDir.linkunlink (chars "linkunlink");
  mkTest UtDir.subdir (chars "subdir");
  mkTest UtFs.bigwrite (chars "bigwrite");
  mkTest (UtFs.bigfile e) (chars "bigfile");
  mkTest UtDir.fourteen (chars "fourteen");
  mkTest UtDir.rmdot (chars "rmdot");
  mkTest UtDir.dirfile (chars "dirfile");
  mkTest UtDir.iref (chars "iref");
  mkTest UtProc.forktest (chars "forktest");
  mkTest (UtMem.sbrkbasic e) (chars "sbrkbasic");
  mkTest UtMem.sbrkmuch (chars "sbrkmuch");
  mkTest (UtMem.kernmem e) (chars "kernmem");
  mkTest (UtMem.MAXVAplus e) (chars "MAXVAplus");
  mkTest (UtMem.sbrkfail e) (chars "sbrkfail");
  mkTest UtMem.sbrkarg (chars "sbrkarg");
  mkTest UtMem.validatetest (chars "validatetest");
  mkTest (UtMem.bsstest e) (chars "bsstest");
  mkTest (UtMem.bigargtest e) (chars "bigargtest");
  mkTest UtMem.argptest (chars "argptest");
  mkTest (UtMem.stacktest e) (chars "stacktest");
  mkTest (UtMem.nowrite e) (chars "nowrite");
  mkTest UtMem.pgbug (chars "pgbug");
  mkTest UtMem.sbrkbugs (chars "sbrkbugs");
  mkTest UtMem.sbrklast (chars "sbrklast");
  mkTest UtMem.sbrk8000 (chars "sbrk8000");
  mkTest UtMem.badarg (chars "badarg")].

(** slowtests *)
Definition slowtests : list test := [
  mkTest UtDir.bigdir (chars "bigdir");
  mkTest UtFs.manywrites (chars "manywrites");
  mkTest UtFs.badwrite (chars "badwrite");
  mkTest (UtProc.execout e) (chars "execout");
  mkTest (UtFs.diskfull e) (chars "diskfull");
  mkTest UtFs.outofinodes (chars "outofinodes")].

(** int run(void f(char * ), char *s): whether it returns 1 *)
Definition run (f : list Z -> U unit) (s : list Z) : U bool :=
  printf (chars "test %s: ") [str s];;
  pid ← fork;
  whenU (pid <? 0) (die "runtest: fork error" []);;
  if pid =? 0 then f s;; exit 0
  else
    '(_, xstatus) ← wait_to (stack_int e "xstatus");
    (if negb (xstatus =? 0) then say "FAILED" [] else say "OK" []);;
    mret (xstatus =? 0).

(** int runtests(struct test *tests, char *justone, int continuous): whether it
    returns 1 *)
Fixpoint runtests (tests : list test) (justone : option (list Z)) (continuous : Z) : U bool :=
  match tests with
  | [] => mret false
  | t :: tests' =>
      if match justone with None => true | Some j => strcmp (t_s t) j =? 0 end then
        ok ← run (t_f t) (t_s t);
        if negb ok && negb (continuous =? 2) then
          say "SOME TESTS FAILED" [];;
          mret true
        else runtests tests' justone continuous
      else runtests tests' justone continuous
  end.

(** The child of countfree: take all pages, report each *)
Fixpoint countfree_child (fuel : nat) (w : Z) : U unit :=
  match fuel with
  | O => OutOfFuel
  | S fuel' =>
      a ← sbrkp 4096;
      if a =? nobrk then exit 0
      else
        store_at 1 (u64 (a + 4096 - 1)) 1;;
        r ← write w (chars "x");
        whenU (negb (r =? 1)) (die "write() failed in countfree()" []);;
        countfree_child fuel' w
  end.

(** The loop of the parent of countfree *)
Fixpoint countfree_read (fuel : nat) (r n : Z) : U Z :=
  match fuel with
  | O => OutOfFuel
  | S fuel' =>
      '(cc, _) ← read r 1;
      whenU (cc <? 0) (die "read() failed in countfree()" []);;
      if cc =? 0 then mret n else countfree_read fuel' r (i32 (n + 1))
  end.

(** int countfree() *)
Definition countfree : U Z :=
  '(r, fds) ← pipe_to (e_stack e "fds");
  whenU (r <? 0) (die "pipe() failed in countfree()" []);;
  pid ← fork;
  whenU (pid <? 0) (die "fork failed in countfree()" []);;
  whenU (pid =? 0) (close (fd_of 0 fds);; countfree_child (e_fuel e) (fd_of 1 fds));;
  close (fd_of 1 fds);;
  n ← countfree_read (e_fuel e) (fd_of 0 fds) 0;
  close (fd_of 0 fds);;
  wait;;
  mret n.

(** int drivetests(int quick, int continuous, char *justone): whether it returns
    1; [rounds] bounds the do loop *)
Fixpoint drivetests (rounds : nat) (quick : bool) (continuous : Z) (justone : option (list Z)) : U bool :=
  match rounds with
  | O => OutOfFuel
  | S rounds' =>
      say "usertests starting" [];;
      free0 ← countfree;
      failed ← runtests quicktests justone continuous;
      if failed && negb (continuous =? 2) then mret true
      else
        failed ← (if quick then mret false
                  else
                    whenU (bool_decide (justone = None)) (say "usertests slow tests starting" []);;
                    runtests slowtests justone continuous);
        if failed && negb (continuous =? 2) then mret true
        else
          free1 ← countfree;
          lost ← ((if free1 <? free0 then
                    say "FAILED -- lost some free pages %d (out of %d)" [VInt free1; VInt free0];;
                    mret (negb (continuous =? 2))
                  else mret false) : U bool);
          if (lost : bool) then mret true
          else if negb (continuous =? 0) then drivetests rounds' quick continuous justone
          else mret false
  end.

(** int main(int argc, char *argv[]), after its options: quick, continuous, justone *)
Definition options (argv : list (list Z)) : U (bool * Z * option (list Z)) :=
  match argv with
  | [_; a] =>
      if strcmp a (chars "-q") =? 0 then mret (true, 0, None)
      else if strcmp a (chars "-c") =? 0 then mret (false, 1, None)
      else if strcmp a (chars "-C") =? 0 then mret (false, 2, None)
      else if negb (chr a =? 45) then mret (false, 0, Some a)
      else die "Usage: usertests [-c] [-C] [-q] [testname]" []
  | _ :: _ :: _ => die "Usage: usertests [-c] [-C] [-q] [testname]" []
  | _ => mret (false, 0, None)
  end.
Definition main (rounds : nat) (argv : list (list Z)) : U unit :=
  '(quick, continuous, justone) ← options argv;
  failed ← drivetests rounds quick continuous justone;
  whenU failed (exit 1);;
  say "ALL TESTS PASSED" [];;
  exit 0.

End drive.
End Usertests.
