(* ===== verification/UsertestsSpec.v ===== *)
(** What usertests runs and reports, and two of its programs end to end: the count of
    free pages, and the stream of pipe1. *)

From S2P Require Import Prelude Numeral Bytes Memory CString Riscv State Syscall Uprog Ulib Uprintf Umalloc Utils UtilsSpec Utest UtFs Usertests.
Import Usertests.

(** * Runs and what they print *)

(** With the answers [rs] the program [p] ends with [o], uses exactly these
    answers, and has printed [t]. *)
Definition goes {A} (p : U A) (rs : list answer) (t : list Z) (o : uout A) : Prop :=
  exists tr, (forall rest, feed p (rs ++ rest) = (tr, o, rest)) /\ output 1 tr = t.

Lemma goes_ret {A} (a : A) : goes (mret a) [] [] (UDone a).
Proof. by exists []. Qed.

Lemma goes_exit {A} st : goes (exit st : U A) [] [] (UExit st).
Proof. by exists []. Qed.

Lemma goes_bind {A B} (p : U A) (f : A -> U B) rs rs' t t' a o :
  goes p rs t (UDone a) -> goes (f a) rs' t' o -> goes (p ≫= f) (rs ++ rs') (t ++ t') o.
Proof.
  intros (tr & E & <-) (tr' & E' & <-). exists (tr ++ tr'). split; [|apply output_app].
  intros rest. rewrite <- app_assoc. by apply (feed_seq _ _ _ _ _ _ _ _ _ (E _)).
Qed.

(** A last step without calls. *)
Lemma goes_last {A B} (p : U A) (f : A -> U B) rs t a o :
  goes p rs t (UDone a) -> goes (f a) [] [] o -> goes (p ≫= f) rs t o.
Proof. intros H H'. rewrite <- (app_nil_r rs), <- (app_nil_r t). by apply (goes_bind _ _ _ _ _ _ a). Qed.

Lemma goes_sys {A} c (f : Z -> U A) v bs rs t o :
  goes (f v) rs t o -> goes (sys c ≫= f) ((v, bs) :: rs) (sent_to 1 c ++ t) o.
Proof. intros (tr & E & <-). exists (c :: tr). split; [|apply output_cons]. intros rest. by apply feed_sys. Qed.

Lemma goes_data {A} c (f : answer -> U A) r rs t o :
  goes (f r) rs t o -> goes (sys_data c ≫= f) (r :: rs) (sent_to 1 c ++ t) o.
Proof. intros (tr & E & <-). exists (c :: tr). split; [|apply output_cons]. intros rest. by apply feed_data. Qed.

(** A run of [p] that ends with exit ends there in a larger program. *)
Lemma feed_stop {A B} (p : U A) (f : A -> U B) l tr rest st :
  feed p l = (tr, UExit st, rest) -> feed (p ≫= f) l = (tr, UExit st, rest).
Proof.
  revert l tr. induction p as [a|c k IH| | |]; intros l tr E; simpl in E; simplify_eq; [|reflexivity].
  destruct l as [|r l]; [done|]. rewrite ubind_sys. simpl.
  destruct (feed (k r) l) as [[tr1 o1] rest1] eqn:E1. simplify_eq. by rewrite (IH r l tr1 E1).
Qed.
Lemma goes_stop {A B} (p : U A) (f : A -> U B) rs t st :
  goes p rs t (UExit st) -> goes (p ≫= f) rs t (UExit st).
Proof. intros (tr & E & <-). exists tr. split; [|done]. intros rest. by apply feed_stop. Qed.

(** With the answers [rs] the program [p], which has then printed [t], has become the
    program [c] followed by exit(0): from there on it does what [c] does. *)
Definition becomes {A} (p : U A) (rs : list answer) (t : list Z) (c : U unit) : Prop :=
  exists tr, (forall l, feed p (rs ++ l) = let '(tr', o, rest) := feed (c;; exit 0 : U A) l in (tr ++ tr', o, rest)) /\
    output 1 tr = t.

Lemma becomes_here {A} (c : U unit) : becomes (c;; exit 0 : U A) [] [] c.
Proof. exists []. split; [|done]. intros l. cbn [app]. by destruct (feed _ l) as [[tr o] rest]. Qed.

Lemma becomes_after {A B} (p : U A) (f : A -> U B) rs rs' t t' a c :
  goes p rs t (UDone a) -> becomes (f a) rs' t' c -> becomes (p ≫= f) (rs ++ rs') (t ++ t') c.
Proof.
  intros (tr & E & <-) (tr' & E' & <-). exists (tr ++ tr'). split; [|apply output_app].
  intros l. rewrite <- app_assoc, (feed_bind _ _ _ _ _ _ (E _)), E'.
  destruct (feed _ l) as [[tr1 o] rest]. by rewrite app_assoc.
Qed.

Lemma becomes_sys {A} c (f : Z -> U A) v bs rs t q :
  becomes (f v) rs t q -> becomes (sys c ≫= f) ((v, bs) :: rs) (sent_to 1 c ++ t) q.
Proof.
  intros (tr & E & <-). exists (c :: tr). split; [|apply output_cons]. intros l. cbn [app].
  specialize (E l). destruct (feed (q;; _) l) as [[tr1 o] rest]. by rewrite (feed_sys c f v bs _ _ _ _ E).
Qed.

(** The end of a run that did not return, at another type. *)
Definition ended {A B} (o : uout A) : option (uout B) :=
  match o with
  | UDone _ => None
  | UExit st => Some (UExit st)
  | UWait c => Some (UWait c)
  | UFault => Some UFault
  | UFuel => Some UFuel
  end.

Lemma feed_ended {A B} (p : U A) (f : A -> U B) o' : forall l tr o rest,
  feed p l = (tr, o, rest) -> ended o = Some o' -> feed (p ≫= f) l = (tr, o', rest).
Proof.
  induction p as [a|c k IH| | |]; intros l tr o rest E H; simpl in E; simplify_eq; cbn [ended] in H; simplify_eq; try done.
  destruct l as [|r l]; simplify_eq; cbn [ended] in H; simplify_eq; [done|]. rewrite ubind_sys. simpl.
  destruct (feed (k r) l) as [[tr1 o1] rest1] eqn:E1. simplify_eq. by rewrite (IH r l tr1 o rest E1 H).
Qed.

Lemma feed_exits {A B} (c : U unit) st : forall l tr (o : uout A) rest,
  feed (c;; exit st) l = (tr, o, rest) ->
  exists o' : uout B, ended o = Some o' /\ feed (c;; exit st) l = (tr, o', rest).
Proof.
  induction c as [a|c k IH| | |]; intros l tr o rest E; try (injection E as <- <- <-; by eexists).
  destruct l as [|r l]; [injection E as <- <- <-; by eexists|].
  setoid_rewrite ubind_sys. rewrite ubind_sys in E. cbn [feed] in E |- *.
  destruct (feed (k r ≫= _) l) as [[tr1 o1] rest1] eqn:E1. injection E as <- <- <-.
  destruct (IH r l tr1 o1 rest1 E1) as (o' & Ho & E'). exists o'. by rewrite E'.
Qed.

(** A program that has become [c] does not return, whatever was to follow. *)
Lemma becomes_bind {A B} (p : U A) (f : A -> U B) rs t c : becomes p rs t c -> becomes (p ≫= f) rs t c.
Proof.
  intros (tr & E & <-). exists tr. split; [|done]. intros l. specialize (E l).
  destruct (feed (c;; exit 0 : U A) l) as [[tr' o] rest] eqn:Ec.
  destruct (feed_exits (B := B) c 0 l tr' o rest Ec) as (o' & Ho & ->). by apply (feed_ended _ _ _ _ _ _ _ E Ho).
Qed.

(** The int that wait or pipe stored. *)
Lemma fd_of_enc v old : - 2 ^ 31 <= v < 2 ^ 31 -> fd_of 0 (splice 0 (enc 4 v) old) = v.
Proof.
  intros H. unfold fd_of, get. change (4 * 0)%nat with 0%nat. rewrite drop_0, <- (length_enc 4 v), take_splice, dec_enc.
  unfold i32, sext. rewrite Z.mod_mod by lia. by apply (sext_small 32).
Qed.

Lemma goes_wait x p st : - 2 ^ 31 <= st < 2 ^ 31 -> goes (wait_to x) [(p, enc 4 st)] [] (UDone (p, st)).
Proof.
  intros H. unfold wait_to. apply (goes_data Cwait _ _ [] []). rewrite fd_of_enc by done. apply goes_ret.
Qed.

Lemma goes_pipe fds r bs : goes (pipe_to fds) [(r, bs)] [] (UDone (r, splice 0 bs fds)).
Proof. apply (goes_data Cpipe _ _ [] []), goes_ret. Qed.

(** * The console *)

Lemma printf_writes fmt ap t : Forall arg_bytes ap -> fmt_bytes fmt ap = Some t -> writes (printf fmt ap) 1 t tt.
Proof. apply (fprintf_writes 1). Qed.

Section report.
(** What a write to the console returns. *)
Context (wa : answer).
Definition console (t : list Z) : list answer := replicate (length t) wa.

Lemma goes_printf fmt ap t :
  Forall arg_bytes ap -> fmt_bytes fmt ap = Some t -> goes (printf fmt ap) (console t) t (UDone tt).
Proof.
  intros Hap E. exists ((fun b => Cwrite 1 [b]) <$> t). split; [|by rewrite output_writes].
  intros rest. apply (printf_writes fmt ap t Hap E). apply length_replicate.
Qed.

(** * One test *)

Definition verdict_text (st : Z) : list Z := chars (if st =? 0 then "OK" else "FAILED") ++ nl.
Definition test_text (s : list Z) : list Z := chars "test " ++ s ++ chars ": ".

(** fork returns the pid, wait the status of the child. *)
Definition run_answers (s : list Z) (p st : Z) : list answer :=
  console (test_text s) ++ (p, []) :: (p, enc 4 st) :: console (verdict_text st).

Definition name_ok (s : list Z) : Prop := bytes s /\ nonul s.

Lemma test_goes s : name_ok s ->
  goes (printf (chars "test %s: ") [str s]) (console (test_text s)) (test_text s) (UDone tt).
Proof.
  intros [Hb Hn]. apply goes_printf; [by repeat constructor|]. unfold test_text.
  change ((fun y => chars "test " ++ y) <$> ((cstring s ++.) <$> Some (chars ": ")) = Some (chars "test " ++ s ++ chars ": ")).
  by rewrite cstring_id.
Qed.

Lemma run_goes e f s p st : name_ok s -> 0 < p -> - 2 ^ 31 <= st < 2 ^ 31 ->
  goes (run e f s) (run_answers s p st) (test_text s ++ verdict_text st) (UDone (st =? 0)).
Proof.
  intros Hs Hp Hst. unfold run, run_answers. apply (goes_bind _ _ _ _ _ _ tt _ (test_goes s Hs)).
  apply (goes_sys Cfork). rewrite (proj2 (Z.ltb_ge p 0)), (proj2 (Z.eqb_neq p 0)) by lia. cbn [whenU].
  rewrite ubind_ret. apply (goes_bind _ _ [_] _ [] _ _ _ (goes_wait _ p st Hst)). cbv beta iota.
  apply (goes_last _ _ _ _ tt); [|apply goes_ret].
  unfold verdict_text. destruct (st =? 0); by apply goes_printf.
Qed.

(** The child, where fork returns 0: it runs the test, and exits with 0 if the test
    returns. *)
Lemma run_child e f s bs : name_ok s -> becomes (run e f s) (console (test_text s) ++ [(0, bs)]) (test_text s ++ []) (f s).
Proof.
  intros Hs. unfold run. apply (becomes_after _ _ _ _ _ _ tt _ (test_goes s Hs)).
  apply (becomes_sys Cfork _ 0 bs [] []). apply becomes_here.
Qed.

(** * A table of tests *)

(** The tests that justone selects. *)
Definition chosen (justone : option (list Z)) (t : test) : bool :=
  match justone with None => true | Some j => strcmp (t_s t) j =? 0 end.

Lemma runtests_chosen e justone c tests :
  runtests e tests justone c = runtests e (List.filter (chosen justone) tests) None c.
Proof.
  induction tests as [|t tests IH]; [done|]. cbn [runtests List.filter]. fold (chosen justone t).
  destruct (chosen justone t) eqn:E; [|done]. cbn [runtests]. by rewrite IH.
Qed.

(** For each test the pid and the status of its child: the answers that runtests
    uses and what it prints; it stops at the first failure. *)
Fixpoint tests_answers (tests : list test) (vs : list (Z * Z)) : list answer :=
  match tests, vs with
  | t :: tests', (p, st) :: vs' =>
      run_answers (t_s t) p st ++
      (if st =? 0 then tests_answers tests' vs' else console (chars "SOME TESTS FAILED" ++ nl))
  | _, _ => []
  end.
Fixpoint tests_text (tests : list test) (vs : list (Z * Z)) : list Z :=
  match tests, vs with
  | t :: tests', (p, st) :: vs' =>
      (test_text (t_s t) ++ verdict_text st) ++
      (if st =? 0 then tests_text tests' vs' else chars "SOME TESTS FAILED" ++ nl)
  | _, _ => []
  end.

Definition child_ok (v : Z * Z) : Prop := 0 < v.1 /\ - 2 ^ 31 <= v.2 < 2 ^ 31.
Definition passed (vs : list (Z * Z)) : bool := forallb (fun v => v.2 =? 0) vs.

Lemma runtests_goes e tests : forall vs, length vs = length tests -> Forall (fun t => name_ok (t_s t)) tests ->
  Forall child_ok vs ->
  goes (runtests e tests None 0) (tests_answers tests vs) (tests_text tests vs) (UDone (negb (passed vs))).
Proof.
  induction tests as [|t tests IH]; intros [|[p st] vs] Hl Hn Hv; try done; [apply goes_ret|].
  apply Forall_cons in Hn as [Hn Hns]. apply Forall_cons in Hv as [[Hp Hst] Hvs]. cbn [length fst snd] in *.
  cbn [runtests tests_answers tests_text passed forallb snd].
  apply (goes_bind _ _ _ _ _ _ _ _ (run_goes e (t_f t) (t_s t) p st Hn Hp Hst)).
  destruct (st =? 0); cbn [negb andb]; [apply IH; [lia|done|done]|].
  apply (goes_last _ _ _ _ tt); [by apply goes_printf|apply goes_ret].
Qed.

(** Test [i] of the table is reached when those before it passed: its child, where the
    fork that gave the parent its pid returns 0, runs the test. *)
Definition forked {A} (prog : U A) (rs : list answer) (p : Z) (t : test) : Prop :=
  exists before after out, rs = before ++ (p, []) :: after /\
    becomes prog (before ++ [(0, [])]) (out ++ test_text (t_s t)) (t_f t (t_s t)).

Lemma forked_after {A B} (q : U A) (f : A -> U B) rs rs' t a p ts :
  goes q rs t (UDone a) -> forked (f a) rs' p ts -> forked (q ≫= f) (rs ++ rs') p ts.
Proof.
  intros H (before & after & out & -> & Hc). exists (rs ++ before), after, (t ++ out). rewrite <- !app_assoc. split; [done|].
  by apply (becomes_after _ _ _ _ _ _ a).
Qed.
Lemma forked_bind {A B} (q : U A) (f : A -> U B) rs more p ts : forked q rs p ts -> forked (q ≫= f) (rs ++ more) p ts.
Proof.
  intros (before & after & out & -> & Hc). exists before, (after ++ more), out. rewrite <- app_assoc. split; [done|].
  by apply becomes_bind.
Qed.

Lemma runtests_forked e tests : forall vs i t p st, length vs = length tests -> Forall (fun t => name_ok (t_s t)) tests ->
  Forall child_ok vs -> tests !! i = Some t -> vs !! i = Some (p, st) -> passed (take i vs) = true ->
  forked (runtests e tests None 0) (tests_answers tests vs) p t.
Proof.
  induction tests as [|t0 tests IH]; intros [|[p0 st0] vs] i t p st Hl Hn Hv Et Ev Hp; try done.
  apply Forall_cons in Hn as [Hn Hns]. apply Forall_cons in Hv as [[Hp0 Hst] Hvs]. cbn [length fst snd] in *.
  cbn [runtests tests_answers]. destruct i as [|i].
  - injection Et as ->. injection Ev as -> ->. apply forked_bind. exists (console (test_text (t_s t))), ((p, enc 4 st) :: console (verdict_text st)), [].
    split; [done|]. rewrite <- (app_nil_r (_ ++ test_text _)). by apply run_child.
  - cbn [take passed forallb snd] in Hp. apply andb_true_iff in Hp as [Hst0 Hp].
    apply (forked_after _ _ _ _ _ _ _ _ (run_goes e (t_f t0) (t_s t0) p0 st0 Hn Hp0 Hst)). rewrite Hst0. cbn [negb andb].
    apply (IH vs i t p st); [lia|done..].
Qed.

(** * Free pages *)

(** A count of free pages: the descriptors of the pipe, the pid of the child, the
    number of pages it takes. *)
Record freecount := mkFree { fc_fds : list Z; fc_pid : Z; fc_n : nat }.

(** The parent of countfree gets one byte a read, and then the end of the pipe. *)
Definition count_answers (c : freecount) : list answer :=
  (0, fc_fds c) :: (fc_pid c, []) :: (0, []) ::
  bytewise (replicate (fc_n c) 120) ++ [(0, []); (0, []); (fc_pid c, [])].

Definition count_ok (e : env) (c : freecount) : Prop :=
  0 < fc_pid c /\ (fc_n c < e_fuel e)%nat /\ Z.of_nat (fc_n c) < 2 ^ 31.

Lemma countfree_read_goes k : forall fuel r n, (k < fuel)%nat -> 0 <= n -> n + Z.of_nat k < 2 ^ 31 ->
  goes (countfree_read fuel r n) (bytewise (replicate k 120) ++ [(0, [])]) [] (UDone (n + Z.of_nat k)).
Proof.
  induction k as [|k IH]; intros [|fuel] r n Hf Hn Hk; try lia; cbn [countfree_read].
  - rewrite Z.add_0_r. apply (goes_data (Cread r 1) _ _ [] []), goes_ret.
  - apply (goes_data (Cread r 1) _ _ _ []).
    change (goes (countfree_read fuel r (i32 (n + 1))) (bytewise (replicate k 120) ++ [(0, [])]) [] (UDone (n + Z.of_nat (S k)))).
    unfold i32. rewrite sext_small by lia. replace (n + Z.of_nat (S k)) with (n + 1 + Z.of_nat k) by lia. apply IH; lia.
Qed.

Lemma countfree_goes e c : count_ok e c -> goes (countfree e) (count_answers c) [] (UDone (Z.of_nat (fc_n c))).
Proof.
  intros (Hp & Hf & Hn). unfold countfree, count_answers. apply (goes_bind _ _ [_] _ [] _ _ _ (goes_pipe _ _ _)). cbv beta iota.
  change (0 <? 0) with false. cbn [whenU]. rewrite ubind_ret. apply (goes_sys Cfork _ _ _ _ []).
  rewrite (proj2 (Z.ltb_ge _ 0)), (proj2 (Z.eqb_neq _ 0)) by lia. cbn [whenU]. rewrite !ubind_ret.
  apply (goes_sys (Cclose _) _ _ _ _ []). 
  replace (bytewise (replicate (fc_n c) 120) ++ [(0, []); (0, []); (fc_pid c, [])]) with
    ((bytewise (replicate (fc_n c) 120) ++ [(0, [])]) ++ [(0, []); (fc_pid c, [])]) by by rewrite <- app_assoc.
  apply (goes_bind _ _ _ _ [] [] _ _ (countfree_read_goes _ _ _ 0 Hf ltac:(lia) ltac:(lia))).
  rewrite Z.add_0_l. apply (goes_sys (Cclose _) _ _ _ _ []), (goes_sys Cwait _ _ _ _ []), goes_ret.
Qed.

(** The child of countfree sends one byte for each page that sbrk grants, at the
    addresses [pages], and exits when sbrk fails: these are the bytes that the parent
    counts. *)
Definition page_answers (a : Z) : list answer := [(a, []); (0, []); (1, [])].

Lemma countfree_child_sends w pages : forall fuel, (length pages < fuel)%nat -> Forall (fun a => u64 a <> nobrk) pages ->
  exists tr, feed (countfree_child fuel w) (mjoin (page_answers <$> pages) ++ [(-1, [])]) = (tr, UExit 0, []) /\
    output w tr = replicate (length pages) 120.
Proof.
  induction pages as [|a pages IH]; intros [|fuel] Hf Ha; try (simpl in Hf; lia); [by eexists|].
  apply Forall_cons in Ha as [Ha Hp]. destruct (IH fuel ltac:(simpl in Hf; lia) Hp) as (tr & E & Ho).
  exists (Csbrk 4096 :: Cstore 1 (u64 (u64 a + 4096 - 1)) 1 :: Cwrite w [120] :: tr).
  rewrite !output_cons, Ho. cbn [sent_to length replicate app]. rewrite Z.eqb_refl. split; [|done].
  change (mjoin (page_answers <$> a :: pages)) with (page_answers a ++ mjoin (page_answers <$> pages)). rewrite <- app_assoc.
  cbn [countfree_child app page_answers]. apply (feed_seq _ _ _ [_] (u64 a) ((0, []) :: (1, []) :: mjoin (page_answers <$> pages) ++ [(-1, [])])); [done|].
  rewrite (proj2 (Z.eqb_neq _ nobrk)) by done.
  apply (feed_seq _ _ _ [_] tt ((1, []) :: mjoin (page_answers <$> pages) ++ [(-1, [])])); [done|]. by apply feed_sys.
Qed.

(** * All the tests *)

Lemma names_ok e : Forall (fun t => name_ok (t_s t)) (quicktests e ++ slowtests e).
Proof.
  assert (H : forallb (fun t => forallb (fun c => (0 <? c) && (c <? 256)) (t_s t)) (quicktests e ++ slowtests e) = true) by reflexivity.
  apply Forall_forall. intros t Ht.
  apply list_elem_of_In in Ht. rewrite List.forallb_forall in H. specialize (H t Ht). rewrite List.forallb_forall in H.
  split; apply Forall_forall; intros c Hc; apply list_elem_of_In in Hc; specialize (H c Hc); lia.
Qed.

Lemma chosen_names justone tests :
  Forall (fun t => name_ok (t_s t)) tests -> Forall (fun t => name_ok (t_s t)) (List.filter (chosen justone) tests).
Proof. rewrite !List.Forall_forall. intros H t Ht. apply List.filter_In in Ht as [Ht _]. by apply H. Qed.

Section all.
(** What usertests was asked to do, the two counts of free pages, the children of
    the quick and of the slow tests. *)
Context (e : env) (quick : bool) (justone : option (list Z)) (c0 c1 : freecount) (vq vs : list (Z * Z)).

Let Q := List.filter (chosen justone) (quicktests e).
Let S := if quick then [] else List.filter (chosen justone) (slowtests e).
Let slow_text := if quick || negb (bool_decide (justone = None)) then [] else chars "usertests slow tests starting" ++ nl.
Let lost := Z.of_nat (fc_n c1) <? Z.of_nat (fc_n c0).
Let lost_text := if lost
  then chars "FAILED -- lost some free pages " ++ decimal (Z.of_nat (fc_n c1)) ++ chars " (out of " ++
       decimal (Z.of_nat (fc_n c0)) ++ chars ")" ++ nl
  else [].

Definition drive_answers : list answer :=
  console (chars "usertests starting" ++ nl) ++ count_answers c0 ++ tests_answers Q vq ++
  (if passed vq then
     (console slow_text ++ tests_answers S vs) ++
     (if passed vs then count_answers c1 ++ console lost_text else [])
   else []).
Definition drive_text : list Z :=
  (chars "usertests starting" ++ nl) ++ [] ++ tests_text Q vq ++
  (if passed vq then (slow_text ++ tests_text S vs) ++ (if passed vs then [] ++ lost_text else []) else []).

(** Every test passed and no page was lost. *)
Definition good : bool := passed vq && passed vs && negb lost.

Lemma lost_goes : Z.of_nat (fc_n c0) < 2 ^ 31 -> Z.of_nat (fc_n c1) < 2 ^ 31 ->
  goes ((if lost then say "FAILED -- lost some free pages %d (out of %d)" [VInt (Z.of_nat (fc_n c1)); VInt (Z.of_nat (fc_n c0))];; mret (negb (0 =? 2))
         else mret false) : U bool) (console lost_text) lost_text (UDone lost).
Proof.
  intros H0 H1. unfold lost_text. destruct lost; [|apply goes_ret]. apply (goes_last _ _ _ _ tt); [|apply goes_ret].
  apply goes_printf; [by repeat constructor|]. rewrite <- !printint_decimal by lia.
  set (a := rev (printint_buf (Z.of_nat (fc_n c1)) 10 true)). set (b := rev (printint_buf (Z.of_nat (fc_n c0)) 10 true)).
  reflexivity.
Qed.

Lemma drivetests_goes :
  count_ok e c0 -> count_ok e c1 -> Forall child_ok vq -> Forall child_ok vs ->
  length vq = length Q -> length vs = length S ->
  goes (drivetests e 1 quick 0 justone) drive_answers drive_text (UDone (negb good)).
Proof.
  intros H0 H1 Hq Hs Lq Ls. pose proof (names_ok e) as Hn. apply Forall_app in Hn as [Nq Ns]. unfold good.
  cbn [drivetests]. apply (goes_bind _ _ _ _ _ _ tt); [by apply goes_printf|].
  apply (goes_bind _ _ _ _ _ _ _ _ (countfree_goes e c0 H0)). rewrite (runtests_chosen e justone 0 (quicktests e)).
  apply (goes_bind _ _ _ _ _ _ _ _ (runtests_goes e Q vq Lq (chosen_names _ _ Nq) Hq)).
  destruct (passed vq); cbn [negb andb]; [|apply goes_ret].
  apply (goes_bind _ _ _ _ _ _ (negb (passed vs))).
  - unfold S, slow_text in *. destruct quick; [destruct vs; [apply goes_ret|done]|]. cbn [orb].
    apply (goes_bind _ _ _ _ _ _ tt).
    + destruct (bool_decide _); [by apply goes_printf|apply goes_ret].
    + rewrite runtests_chosen. by apply runtests_goes; [|apply chosen_names|].
  - destruct (passed vs); cbn [negb andb]; [|apply goes_ret].
    apply (goes_bind _ _ _ _ _ _ _ _ (countfree_goes e c1 H1)).
    apply (goes_last _ _ _ _ lost); [apply lost_goes; [apply H0|apply H1]|]. destruct lost; apply goes_ret.
Qed.

(** Test [i] of those that are to run. *)
Lemma drivetests_forked i t p st :
  count_ok e c0 -> Forall child_ok vq -> Forall child_ok vs -> length vq = length Q -> length vs = length S ->
  (Q ++ S) !! i = Some t -> (vq ++ vs) !! i = Some (p, st) -> passed (take i (vq ++ vs)) = true ->
  forked (drivetests e 1 quick 0 justone) drive_answers p t.
Proof.
  intros H0 Hq Hs Lq Ls Et Ev Hp. pose proof (names_ok e) as Hn. apply Forall_app in Hn as [Nq Ns].
  cbn [drivetests]. unfold drive_answers. apply (forked_after _ _ _ _ (chars "usertests starting" ++ nl) tt); [by apply goes_printf|].
  apply (forked_after _ _ _ _ _ _ _ _ (countfree_goes e c0 H0)). rewrite (runtests_chosen e justone 0 (quicktests e)).
  destruct (decide (i < length Q)%nat) as [Hi|Hi].
  { rewrite lookup_app_l in Et by lia. rewrite lookup_app_l in Ev by lia. rewrite take_app_le in Hp by lia.
    apply forked_bind. apply (runtests_forked e Q vq i t p st); try done. by apply chosen_names. }
  rewrite lookup_app_r in Et by lia. rewrite lookup_app_r in Ev by lia. rewrite take_app_ge in Hp by lia. unfold passed in Hp. rewrite forallb_app in Hp.
  apply andb_true_iff in Hp as [Hpq Hp]. fold (passed vq) in Hpq. fold (passed (take (i - length vq) vs)) in Hp.
  apply (forked_after _ _ _ _ _ _ _ _ (runtests_goes e Q vq Lq (chosen_names _ _ Nq) Hq)). rewrite Hpq. cbn [negb andb].
  apply forked_bind. rewrite Lq in Ev, Hp. unfold S, slow_text in *. destruct quick; [done|]. cbn [orb].
  apply (forked_after _ _ _ _ (if bool_decide (justone = None) then chars "usertests slow tests starting" ++ nl else []) tt).
  - destruct (bool_decide _); [by apply goes_printf|apply goes_ret].
  - rewrite runtests_chosen. apply (runtests_forked e _ vs (i - length Q) t p st); try done. by apply chosen_names.
Qed.

End all.
End report.

(** C17: usertests runs its tests and tells the truth about them.  Asked to run all
    tests, only the quick ones (-q), or one by name, it takes the tests in the order of
    its tables, each once, up to the first one whose child does not exit with 0.  The
    child of each test it comes to, the process in which that fork returns 0, calls
    the function of the test with its name, and exits with 0 if the function returns.
    The parent exits with 0, and prints ALL TESTS PASSED, exactly when every child
    exited with 0 and the second count of free pages is not below the first, and
    exits with 1 otherwise.  What the parent prints is given in full, whatever the
    writes return, and so are the answers it uses: it waits for every child.  With -q
    the slow tests are left out, where the comment before the tests says they run. *)
Theorem usertests_verdict wa e argv (quick : bool) justone c0 c1 vq vs :
  options argv = mret (quick, 0, justone) ->
  count_ok e c0 -> count_ok e c1 -> Forall child_ok vq -> Forall child_ok vs ->
  let Q := List.filter (chosen justone) (quicktests e) in
  let S := if quick then [] else List.filter (chosen justone) (slowtests e) in
  length vq = length Q -> length vs = length S ->
  let ok := good c0 c1 vq vs in
  let last := if ok then chars "ALL TESTS PASSED" ++ nl else [] in
  let rs := drive_answers wa e quick justone c0 c1 vq vs in
  goes (main e 1 argv) (rs ++ console wa last) (drive_text e quick justone c0 c1 vq vs ++ last) (UExit (if ok then 0 else 1)) /\
  (forall i t p st, (Q ++ S) !! i = Some t -> (vq ++ vs) !! i = Some (p, st) -> passed (take i (vq ++ vs)) = true ->
     forked (main e 1 argv) (rs ++ console wa last) p t).
Proof.
  intros Ho H0 H1 Hq Hs Q S Lq Ls ok last rs. unfold main. rewrite Ho, ubind_ret. split.
  - apply (goes_bind _ _ _ _ _ _ _ _ (drivetests_goes wa e quick justone c0 c1 vq vs H0 H1 Hq Hs Lq Ls)).
    fold ok. unfold last. destruct ok; cbn [negb whenU].
    + rewrite ubind_ret. apply (goes_last _ _ _ _ tt); [by apply goes_printf|apply goes_exit].
    + apply goes_stop, goes_exit.
  - intros i t p st Et Ev Hp. apply forked_bind. by apply (drivetests_forked wa e quick justone c0 c1 vq vs i t p st).
Qed.

(** One test by name: its child is process 4, and three pages are free. *)
Definition sample_env : env := mkEnv 10 (fun _ => []) [] 0 0 (mkHeap ∅ 0).

Lemma usertests_verdict_witness :
  let c := mkFree (enc 4 3 ++ enc 4 4) 4 3 in
  let argv := [chars "usertests"; chars "opentest"] in
  let rs := drive_answers (1, []) sample_env false (Some (chars "opentest")) c c [(4, 0)] [] in
  let last := chars "ALL TESTS PASSED" ++ nl in
  goes (main sample_env 1 argv) (rs ++ console (1, []) last)
    (drive_text sample_env false (Some (chars "opentest")) c c [(4, 0)] [] ++ last) (UExit 0) /\
  forked (main sample_env 1 argv) (rs ++ console (1, []) last) 4 (mkTest UtFs.opentest (chars "opentest")).
Proof.
  cbv zeta.
  destruct (usertests_verdict (1, []) sample_env [chars "usertests"; chars "opentest"] false (Some (chars "opentest"))
    (mkFree (enc 4 3 ++ enc 4 4) 4 3) (mkFree (enc 4 3 ++ enc 4 4) 4 3) [(4, 0)] []) as [H1 H2];
    [reflexivity|repeat split; simpl; lia|repeat split; simpl; lia| |constructor|reflexivity|reflexivity|].
  { constructor; [|constructor]. split; simpl; lia. }
  split; [exact H1|]. apply (H2 0%nat _ 4 0); reflexivity.
Defined.

(** * The test pipe1: what its child sends, and what its parent accepts *)

Import UtProc.

(** * The stream *)

(** [k] bytes that count up from [seq]. *)
Fixpoint counting (k : nat) (seq : Z) : list Z :=
  match k with O => [] | S k' => u8 seq :: counting k' (seq + 1) end.
Definition stream : list Z := counting (Z.to_nat (N * SZ)) 0.

Lemma length_counting k : forall seq, length (counting k seq) = k.
Proof. induction k as [|k IH]; intros seq; simpl; [done|by rewrite IH]. Qed.

Lemma counting_app k k' : forall seq, counting (k + k') seq = counting k seq ++ counting k' (seq + Z.of_nat k).
Proof.
  induction k as [|k IH]; intros seq; cbn [counting Nat.add app]; [by rewrite Z.add_0_r|].
  rewrite IH. by replace (seq + 1 + Z.of_nat k) with (seq + Z.of_nat (S k)) by lia.
Qed.

Lemma seqZ_counting seq k : forall m, (fun i => u8 (seq + i)) <$> seqZ m (Z.of_nat k) = counting k (seq + m).
Proof.
  induction k as [|k IH]; intros m; [done|].
  rewrite Nat2Z.inj_succ, seqZ_cons, Z.pred_succ by lia. cbn [fmap list_fmap counting].
  rewrite IH. by replace (seq + Z.succ m) with (seq + m + 1) by lia.
Qed.
Lemma fill_counting seq : pipe1_fill seq = counting (Z.to_nat SZ) seq.
Proof. unfold pipe1_fill. rewrite <- (Z2Nat.id SZ) at 1 by done. by rewrite seqZ_counting, Z.add_0_r. Qed.

(** The check of the parent is that the bytes count up. *)
Lemma check_counting bs : forall seq, bytes bs -> pipe1_check bs seq = bool_decide (bs = counting (length bs) seq).
Proof.
  induction bs as [|b bs IH]; intros seq Hb; [done|]. apply Forall_cons in Hb as [Hb Hbs].
  cbn [pipe1_check length counting]. rewrite IH by done.
  change 255 with (Z.ones 8). rewrite !Z.land_ones by lia. change (seq mod 2 ^ 8) with (u8 seq). rewrite (Z.mod_small b) by lia.
  destruct (Z.eqb_spec b (u8 seq)) as [->|Hne]; cbn [andb].
  - apply bool_decide_ext. split; [by intros <-|by intros [=]].
  - symmetry. apply bool_decide_eq_false_2. by intros [=].
Qed.

Lemma check_app bs bs' : forall seq,
  pipe1_check (bs ++ bs') seq = pipe1_check bs seq && pipe1_check bs' (seq + Z.of_nat (length bs)).
Proof.
  induction bs as [|b bs IH]; intros seq; cbn [pipe1_check app length]; [by rewrite Z.add_0_r|].
  rewrite IH, andb_assoc. do 2 f_equal. lia.
Qed.

(** * The child *)

Lemma rounds_send s w l : forall (rs : list answer) seq b, length rs = length l -> Forall (fun r => r.1 = SZ) rs ->
  exists tr x, (forall rest, feed (foldU l (fun x (_ : Z) => pipe1_round s w x) (seq, b)) (rs ++ rest) = (tr, UDone x, rest)) /\
    output w tr = counting (Z.to_nat SZ * length l) seq.
Proof.
  induction l as [|a l IH]; intros [|[r bs] rs] seq b Hl Hr; try done.
  { exists [], (seq, b). split; [done|]. by rewrite Nat.mul_0_r. }
  apply Forall_cons in Hr as [Er Hr]. simpl in Er. subst r. destruct (IH rs (seq + SZ) (splice 0 (pipe1_fill seq) b) ltac:(simpl in Hl; lia) Hr) as (tr & x & E & Ho).
  exists (Cwrite w (pipe1_fill seq) :: tr), x. split.
  - intros rest. cbn [foldU app]. apply (feed_seq _ _ _ [_] (seq + SZ, splice 0 (pipe1_fill seq) b) (rs ++ rest)); [|apply E].
    unfold pipe1_round. rewrite <- (length_counting (Z.to_nat SZ) seq), <- fill_counting, take_splice. by apply feed_sys.
  - rewrite output_cons, Ho. cbn [sent_to length]. rewrite Z.eqb_refl, fill_counting.
    rewrite Nat.mul_succ_r, Nat.add_comm, counting_app. by rewrite Z2Nat.id.
Qed.

Lemma child_sends s w rs : length rs = 5%nat -> Forall (fun r => r.1 = SZ) rs ->
  exists tr, feed (pipe1_child s w) rs = (tr, UExit 0, []) /\ output w tr = stream.
Proof.
  intros Hl Hr. destruct (rounds_send s w (seqZ 0 N) rs 0 buf Hl Hr) as (tr & x & E & Ho).
  exists tr. specialize (E []). rewrite app_nil_r in E. unfold pipe1_child. split; [|exact Ho].
  rewrite <- (app_nil_r tr). by apply (feed_seq _ _ _ _ _ _ _ _ _ E).
Qed.

(** * The parent *)

(** What the reads of the parent return: not nothing, and at most what it asks for,
    which doubles up to the size of buf. *)
Fixpoint chunks_ok (cc : Z) (chunks : list (list Z)) : Prop :=
  match chunks with
  | [] => True
  | c :: cs => 0 < Z.of_nat (length c) <= cc /\ bytes c /\ chunks_ok (if cc * 2 >? BUFSZ then BUFSZ else cc * 2) cs
  end.

Lemma goes_read fd n b ch : goes (read_to fd n b) [gives ch] [] (UDone (Z.of_nat (length ch), splice 0 ch b)).
Proof. apply (goes_data (Cread fd n) _ _ [] []), goes_ret. Qed.

(** One round of the loop of the parent. *)
Lemma pipe1_read_round fuel s r b seq cc total ch rest :
  (0 < length ch)%nat ->
  feed (pipe1_read (S fuel) s r b seq cc total) (gives ch :: rest) =
  let '(tr, o, rest') :=
    feed (if pipe1_check ch seq
          then pipe1_read fuel s r (splice 0 ch b) (seq + Z.of_nat (length ch)) (if cc * 2 >? BUFSZ then BUFSZ else cc * 2)
                 (i32 (total + Z.of_nat (length ch)))
          else say "%s: pipe1 oops 2" [str s];; mret None) rest in
  (Cread r cc :: tr, o, rest').
Proof.
  intros Hc. cbn [pipe1_read]. destruct (feed (if pipe1_check ch seq then _ else _) rest) as [[tr o] rest'] eqn:E.
  change (Cread r cc :: tr) with ([Cread r cc] ++ tr). apply (feed_seq _ _ _ _ (Z.of_nat (length ch), splice 0 ch b) rest); [done|].
  cbv beta iota. rewrite (proj2 (Z.gtb_lt _ 0)) by lia. by rewrite Nat2Z.id, take_splice.
Qed.

Lemma bytes_join cc chunks : chunks_ok cc chunks -> bytes (mjoin chunks).
Proof.
  revert cc. induction chunks as [|c cs IH]; intros cc H; [constructor|]. destruct H as (_ & Hc & H).
  apply Forall_app. split; [done|]. by eapply IH.
Qed.

Lemma read_accepts s r chunks : forall fuel b seq cc total,
  chunks_ok cc chunks -> (length chunks < fuel)%nat -> 0 <= total ->
  total + Z.of_nat (length (mjoin chunks)) < 2 ^ 31 -> pipe1_check (mjoin chunks) seq = true ->
  goes (pipe1_read fuel s r b seq cc total) ((gives <$> chunks) ++ [(0, [])]) []
    (UDone (Some (total + Z.of_nat (length (mjoin chunks))))).
Proof.
  induction chunks as [|c cs IH]; intros [|fuel] b seq cc total Hc Hf Ht Hl Hk; try (simpl in Hf; lia).
  { cbn [pipe1_read]. rewrite Z.add_0_r. apply (goes_last _ _ _ _ (0, splice 0 [] b)); [apply (goes_read _ _ _ [])|]. apply goes_ret. }
  destruct Hc as ([Hc0 _] & _ & Hc). change (mjoin (c :: cs)) with (c ++ mjoin cs) in *.
  rewrite length_app in *. rewrite check_app in Hk. apply andb_true_iff in Hk as [Hk Hks].
  destruct (IH fuel (splice 0 c b) (seq + Z.of_nat (length c)) _ (total + Z.of_nat (length c)) Hc) as (tr & E & Ho);
    [simpl in Hf; lia|lia|lia|done|].
  exists (Cread r cc :: tr). rewrite output_cons, Ho. split; [|done]. intros rest. cbn [fmap list_fmap app].
  rewrite pipe1_read_round, Hk by lia. unfold i32. rewrite sext_small by lia. rewrite E. do 4 f_equal. lia.
Qed.

Definition oops2 (s : list Z) : list Z := s ++ chars ": pipe1 oops 2" ++ nl.
Definition oops3 (s : list Z) (total : Z) : list Z := s ++ chars ": pipe1 oops 3 total " ++ decimal total ++ nl.

(** A report, with any answers to its writes. *)
Lemma feed_report {A} s (f : unit -> U A) rs a : name_ok s -> (length (oops2 s) <= length rs)%nat -> f tt = mret a ->
  exists tr rest, feed (say "%s: pipe1 oops 2" [str s] ≫= f) rs = (tr, UDone a, rest) /\ output 1 tr = oops2 s.
Proof.
  intros [Hb Hn] Hrs Ef.
  assert (Hw : writes (printf (chars "%s: pipe1 oops 2" ++ nl) [str s]) 1 (oops2 s) tt).
  { apply printf_writes; [by repeat constructor|].
    change ((cstring s ++.) <$> Some (chars ": pipe1 oops 2" ++ nl) = Some (oops2 s)). by rewrite cstring_id. }
  eexists _, (drop (length (oops2 s)) rs). rewrite <- (take_drop (length (oops2 s)) rs) at 1. unfold say.
  rewrite (feed_bind _ _ _ _ _ _ (Hw (take (length (oops2 s)) rs) _ ltac:(rewrite length_take; lia))), Ef.
  split; [reflexivity|]. by rewrite app_nil_r, output_writes.
Qed.

Lemma read_rejects s r chunks : name_ok s -> forall fuel b seq cc total more,
  chunks_ok cc chunks -> (length chunks < fuel)%nat ->
  pipe1_check (mjoin chunks) seq = false -> (length (oops2 s) <= length more)%nat ->
  exists tr rest, feed (pipe1_read fuel s r b seq cc total) ((gives <$> chunks) ++ more) = (tr, UDone None, rest) /\
    output 1 tr = oops2 s.
Proof.
  intros Hn. induction chunks as [|c cs IH]; intros [|fuel] b seq cc total more Hc Hf Hk Hm; try (simpl in Hf; lia); [done|].
  destruct Hc as ([Hc0 _] & _ & Hc). change (mjoin (c :: cs)) with (c ++ mjoin cs) in Hk. rewrite check_app in Hk.
  cbn [fmap list_fmap app]. rewrite pipe1_read_round by lia. destruct (pipe1_check c seq); cbn [andb] in Hk.
  - destruct (IH fuel (splice 0 c b) (seq + Z.of_nat (length c)) _ (i32 (total + Z.of_nat (length c))) more Hc) as (tr & rest & E & Ho);
      [simpl in Hf; lia|done|done|]. rewrite E. by eexists _, _.
  - destruct (feed_report s (fun _ => mret (@None Z)) ((gives <$> cs) ++ more) None) as (tr & rest & E & Ho);
      [done|rewrite length_app; lia|done|]. rewrite E. by eexists _, _.
Qed.

(** * The test *)

Lemma oops3_fmt s total : name_ok s -> - 2 ^ 31 <= total < 2 ^ 31 -> fmt_bytes (chars "%s: pipe1 oops 3 total %d" ++ nl) [str s; VInt total] = Some (oops3 s total).
Proof.
  intros [_ Hn] Ht. unfold oops3. rewrite <- printint_decimal by done. set (a := rev (printint_buf total 10 true)).
  change ((cstring s ++.) <$> Some (chars ": pipe1 oops 3 total " ++ a ++ nl) = Some (s ++ chars ": pipe1 oops 3 total " ++ a ++ nl)).
  by rewrite cstring_id.
Qed.

(** The end of the parent, after all bytes were what it expects. *)
Lemma parent_total wa e s fds total p st : name_ok s -> - 2 ^ 31 <= total < 2 ^ 31 -> - 2 ^ 31 <= st < 2 ^ 31 ->
  let q := (whenU (negb (total =? N * SZ)) (die "%s: pipe1 oops 3 total %d" [str s; VInt total]);;
            close (fd_of 0 fds);;
            '(_, xstatus) ← wait_to (stack_int e "xstatus");
            exit xstatus) : U unit in
  if total =? N * SZ then goes q [(0, []); (p, enc 4 st)] [] (UExit st)
  else goes q (console wa (oops3 s total)) (oops3 s total) (UExit 1).
Proof.
  intros Hs Ht Hst q. unfold q. destruct (total =? N * SZ); cbn [negb whenU].
  - rewrite ubind_ret. apply (goes_sys (Cclose _) _ _ _ _ []). apply (goes_bind _ _ [_] [] [] [] _ _ (goes_wait _ p st Hst)). apply goes_exit.
  - apply goes_stop. unfold die, say. apply (goes_last _ _ _ _ tt); [|apply goes_exit].
    apply goes_printf; [constructor; [apply Hs|by repeat constructor]|by apply oops3_fmt].
Qed.

Lemma split_reads (chunks : list (list Z)) (rs : list answer) :
  ((0, []) :: (gives <$> chunks)) ++ (0, []) :: rs = (0, []) :: ((gives <$> chunks) ++ [(0, [])]) ++ rs.
Proof. by rewrite <- app_assoc. Qed.

(** C19: pipe1 tests that a pipe delivers the bytes written to it.  Its child writes
    exactly the 5165 bytes that count up from 0 modulo 256.  However the pipe cuts
    what it delivers into reads, the parent waits for the child, and exits with its
    status, exactly when it got that stream; it exits with 1 when it got too few or
    too many bytes that count up.  When it got a wrong byte it reports this and
    returns, so that the test exits with 0 and usertests prints OK. *)
Theorem pipe1_correct wa e s fds chunks p st :
  name_ok s -> chunks_ok 1 chunks -> (length chunks < e_fuel e)%nat -> Z.of_nat (length (mjoin chunks)) < 2 ^ 31 ->
  - 2 ^ 31 <= st < 2 ^ 31 ->
  let bs := mjoin chunks in
  let test := pipe1_parent e s fds;; exit 0 : U unit in
  let reads := (0, []) :: (gives <$> chunks) in
  (forall rs, length rs = 5%nat -> Forall (fun r => r.1 = SZ) rs ->
     exists tr, feed (pipe1_child s (fd_of 1 fds)) rs = (tr, UExit 0, []) /\ output (fd_of 1 fds) tr = stream) /\
  (bs = stream -> goes test (reads ++ [(0, []); (0, []); (p, enc 4 st)]) [] (UExit st)) /\
  (bs <> stream -> bs = counting (length bs) 0 ->
     let msg := oops3 s (Z.of_nat (length bs)) in
     goes test (reads ++ (0, []) :: console wa msg) msg (UExit 1)) /\
  (bs <> counting (length bs) 0 -> forall more, (length (oops2 s) <= length more)%nat ->
     exists tr rest, feed test (reads ++ more) = (tr, UExit 0, rest) /\ output 1 tr = oops2 s).
Proof.
  intros Hs Hc Hf Hl Hst bs test reads. unfold test, reads. split; [intros rs; apply child_sends|].
  pose proof (check_counting bs 0 (bytes_join _ _ Hc)) as Hk.
  assert (Hgo : pipe1_check bs 0 = true -> goes (pipe1_read (e_fuel e) s (fd_of 0 fds) buf 0 1 0)
    ((gives <$> chunks) ++ [(0, [])]) [] (UDone (Some (Z.of_nat (length bs))))).
  { intros H. apply (read_accepts s (fd_of 0 fds) chunks _ _ 0 1 0); [done|done|lia|lia|done]. }
  assert (Hb : - 2 ^ 31 <= Z.of_nat (length bs) < 2 ^ 31) by (fold bs in Hl; lia).
  pose proof (parent_total wa e s fds (Z.of_nat (length bs)) p st Hs Hb Hst) as Hend. split_and!.
  - intros Eb. rewrite Eb, bool_decide_eq_true_2 in Hk by (unfold stream; by rewrite length_counting).
    rewrite <- Eb in Hk. apply goes_stop. rewrite (split_reads chunks [_; _]). apply (goes_sys (Cclose _) _ 0 [] _ [] (UExit st)).
    apply (goes_bind _ _ _ _ [] [] _ _ (Hgo Hk)). revert Hend.
    rewrite Eb. unfold stream. rewrite length_counting, Z2Nat.id, Z.eqb_refl by done. done.
  - intros Hne Eb. cbv zeta. set (msg := oops3 s _). rewrite bool_decide_eq_true_2 in Hk by done. apply goes_stop. rewrite (split_reads chunks (console wa msg)). apply (goes_sys (Cclose _) _ 0 [] _ msg (UExit 1)).
    apply (goes_bind _ _ _ _ [] _ _ _ (Hgo Hk)). destruct (Z.eqb_spec (Z.of_nat (length bs)) (N * SZ)) as [E|]; [|exact Hend].
    destruct Hne. rewrite Eb. unfold stream. f_equal. lia.
  - intros Hne more Hm. rewrite bool_decide_eq_false_2 in Hk by done.
    destruct (read_rejects s (fd_of 0 fds) chunks Hs (e_fuel e) buf 0 1 0 more Hc Hf Hk Hm) as (tr & rest & E & Ho).
    exists (Cclose (fd_of 1 fds) :: tr), rest. split; [|exact Ho]. rewrite <- (app_nil_r (_ :: tr)).
    apply (feed_seq _ _ _ _ tt rest); [|done]. unfold pipe1_parent. apply feed_sys. rewrite <- (app_nil_r tr).
    by apply (feed_seq _ _ _ _ _ _ _ _ _ E).
Qed.

(** The stream in reads of 1, 2, 4, ... bytes. *)
Fixpoint doubling (k : nat) (cc : nat) (bs : list Z) : list (list Z) :=
  match k with O => [] | S k' => take cc bs :: doubling k' (2 * cc) (drop cc bs) end.

Fixpoint chunks_okb (cc : Z) (chunks : list (list Z)) : bool :=
  match chunks with
  | [] => true
  | c :: cs => (0 <? Z.of_nat (length c)) && (Z.of_nat (length c) <=? cc) && forallb (fun b => (0 <=? b) && (b <? 256)) c &&
               chunks_okb (if cc * 2 >? BUFSZ then BUFSZ else cc * 2) cs
  end.
Lemma chunks_okb_ok chunks : forall cc, chunks_okb cc chunks = true -> chunks_ok cc chunks.
Proof.
  induction chunks as [|c cs IH]; intros cc H; [done|]. cbn [chunks_okb chunks_ok] in *.
  apply andb_true_iff in H as [H Hc]. apply andb_true_iff in H as [H Hb]. split_and!; [lia|lia| |by apply IH].
  apply List.Forall_forall. intros b Hin. rewrite List.forallb_forall in Hb. specialize (Hb b Hin). lia.
Qed.

Lemma pipe1_correct_witness :
  let e := mkEnv 20 (fun _ => []) [] 0 0 (Umalloc.mkHeap ∅ 0) in
  let chunks := doubling 13 1 stream in
  mjoin chunks = stream /\
  goes (pipe1_parent e (chars "pipe1") (enc 4 3 ++ enc 4 4);; exit 0 : U unit)
    (((0, []) :: (gives <$> chunks)) ++ [(0, []); (0, []); (7, enc 4 0)]) [] (UExit 0).
Proof.
  cbv zeta. set (e := mkEnv 20 _ _ _ _ _). set (chunks := doubling 13 1 stream).
  assert (E : mjoin chunks = stream) by (vm_compute; reflexivity).
  assert (Hc : chunks_ok 1 chunks).
  { apply chunks_okb_ok. vm_compute. reflexivity. }
  split; [exact E|].
  refine (proj1 (proj2 (pipe1_correct (1, []) e (chars "pipe1") (enc 4 3 ++ enc 4 4) chunks 7 0 _ Hc _ _ _)) E).
  - split; apply (bool_decide_unpack _); vm_compute; exact I.
  - vm_compute. lia.
  - rewrite E. vm_compute. reflexivity.
  - lia.
Defined.
